(* ===== verification/_CoqProject ===== *)
-Q . S2P
Prelude.v
Text.v
SList.v
ListHeap.v
BitMap.v
Disk.v
FileHdr.v
OpenFile.v
Directory.v
FileSys.v
FsMap.v
FsTest.v
FsPrint.v
Interrupt.v
Kernel.v
KernelInv.v
KernelOps.v
KernelSafe.v
KernelTest.v
SyncProg.v
SynchDisk.v
ThreadTest.v
Machine.v
Mips.v
MachineSafe.v
Alu.v
Interp.v
Disasm.v
Trace.v
UserMemory.v
AddrSpace.v
Process.v
Coff.v
Tlb.v
Mail.v
MailTest.v
Elevator.v
ElevatorTest.v
Console.v
Main.v
Switch.v
TestProgs.v
UserStart.v
