(* ===== verification/Prelude.v ===== *)
(** * Nachos 3.4 (Lab edition): a verification library

    Nachos is an instructional operating system.  Its C++ sources (src/nachos-3.4)
    simulate the hardware (clock and interrupts, a disk, a console, a network, a bank of
    elevators, a MIPS processor with paging) and implement on top of it a thread kernel,
    a file system, a loader for user programs and a post office.  This library models
    these parts in Rocq, function by function, and proves what they promise.

    ** How the code is modelled

    A C++ function is a Rocq function of the same name ([FileSystem_Create] is
    [FileSystem::Create]); its loops are [Fixpoint]s named after it; a class is a [Record]
    with the source's fields.  State is passed explicitly.  A function returns [result]:
    [Err AssertFailed] where an [ASSERT] of the source fails, [Err MemFault] where the
    source would use a null or dangling pointer or an index outside an array.  An [int] is
    a [Z] that is wrapped with [i32] wherever the source computes, an [unsigned] with
    [u32], a [char] with [i8]; structures that the code copies to the disk or the network
    as memory are encoded byte by byte, little endian and with their padding, as on the
    i386 the makefiles build for.  Whatever C++ leaves unspecified (contents of new
    buffers, uninitialised fields, the date, random numbers, answers of Unix) is an argument
    or an arbitrary value, so that the theorems hold for all of it.  Output is modelled where a
    function exists to produce it (the disassembler, the instruction trace, the dumps of the machine and
    of the file system); other DEBUG and printf calls are left out.

    ** The parts, and where they are

    - Prelude.v: [result], machine integers, byte encodings, folds, sublists, the tactics
      [wrap_lia] and [zpow] and the hint database [nachos].  Text.v: what [printf] prints, and how
      such a text is read back.
    - SList.v, ListHeap.v: threads/list.cc.  ListHeap.v is the pointer code on a heap
      of elements, SList.v the sequence that it is proved to implement; the kernel, the
      interrupt queue and the elevators use SList.v.
    - BitMap.v: userprog/bitmap.cc (disk sectors and physical pages).
    - Disk.v: machine/disk.cc and filesys/synchdisk.cc.  The class [SectorDevice]
      (synchronous sector transfers with their laws) is the interface to the file system;
      [disk_device] is its instance for the simulated disk, a table of sectors another.
    - FileHdr.v, OpenFile.v, Directory.v, FileSys.v: filesys/filehdr.cc, openfile.cc,
      directory.cc, filesys.cc, for any [SectorDevice].  FsMap.v: the file system as a
      finite map from names to byte strings.  FsTest.v: filesys/fstest.cc.
      FsPrint.v: the Print functions of file headers, directory and file system.
    - Interrupt.v: machine/interrupt.cc, stats.cc, timer.cc (hardware part).
    - Kernel.v: threads/thread.cc, scheduler.cc, synch.cc, synchlist.cc, system.cc and the
      timer.  A suspended thread is its stack of activation records; [kstep] runs the
      current thread to the next point where control returns to its stack.  KernelInv.v
      holds the invariant, KernelOps.v one lemma per kernel function, KernelSafe.v the
      theorems about whole runs, KernelTest.v the tests of threads/threadtest.cc that only
      yield or create threads.
    - SyncProg.v: what a call of a semaphore, lock or condition does to its caller and to the
      other threads, as the interface for code that uses them; counting lemmas.
      ThreadTest.v: the synchronisation problems of threads/threadtest.cc.  SynchDisk.v:
      filesys/synchdisk.cc with its lock, semaphore and interrupt handler, shared by any
      number of threads.
    - Machine.v: machine/machine.cc, translate.cc, userprog/exception.cc.  Translation
      tables live in a store, because tlb and page tables may be the same array.  Mips.v:
      machine/mipssim.cc.  MachineSafe.v: rules for the monad of the user machine.  Alu.v:
      the register instructions against the architecture.  UserMemory.v: memory as the
      program sees it.  Tlb.v: the replacement of TLB entries.
    - AddrSpace.v: userprog/addrspace.cc, bin/noff.h, the user state of threads.  It loads
      from any [ReadableFile]; open files of the Nachos file system are an instance.
      Process.v: userprog/progtest.cc (StartProcess1, StartProcess) and the theorems about
      programs.
    - Coff.v: bin/coff2noff.c and bin/coff2flat.c, which make the files AddrSpace.v loads.
      Interp.v: bin/execute.c, system.c, the stand-alone interpreter.  Disasm.v: bin/d.c,
      opstrings.c and the loop of disasm.c.
    - Trace.v: threads/utility.cc (debug flags), the trace of machine/mipssim.cc, the dumps
      and the debugger of machine/machine.cc and machine/interrupt.cc.
    - Switch.v: threads/switch.c, switch.h and [Thread::StackAllocate], the context switch in assembly
      with a semantics for its instructions: the modules I386, MipsHost and PaRisc; the latter two
      are instances of the class [RiscHost].
    - TestProgs.v: the programs test/sort.c, matmult.c and shell.c.  UserStart.v: test/start.c, the
      stubs of the system calls as machine code, in any program and in halt.c and test.c.
    - Mail.v: machine/network.cc and network/post.cc, and a world of machines connected by
      queues of datagrams.  MailTest.v: network/nettest.cc on machines of such a world.
    - Elevator.v: machine/elevator.cc.  ElevatorTest.v: machine/elevatortest.cc, a rider and a
      controller on such a bank.  Console.v: machine/console.cc and ConsoleTest.
    - Main.v: the command line, threads/main.cc and the options of threads/system.cc; the
      loop of main performs exactly the command lines of the usage text
      ([main_loop_cmdline], [main_loop_inv]) and always ends ([main_loop_total]).

    ** What is proved

    - Thread kernel: from Initialize on, for any program of the threads, any interrupts and
      any time slices, no internal assertion fails and nothing dangling is used
      ([kernel_faults]); no thread is lost ([threads_accounted]); locks exclude
      ([lock_mutual_exclusion]); semaphores count ([semaphore_accounting]); synchronised
      lists deliver in order ([synchlist_fifo]); the machine halts only when nothing can
      happen any more ([halt_is_final]); interrupts fire in order and on time
      ([CheckIfDue_order]).  Below it, a thread that is switched away comes back with its
      registers ([switch_roundtrip], [risc_switch_roundtrip]) and a new one starts in its function ([fork_starts]).
    - Clients of the kernel: producers and consumers never over- or underrun their buffer and
      do not deadlock ([producer_consumer], [producer_consumer_conditions]), the barrier
      opens exactly when all have arrived and everybody gets past it ([barrier_holds]),
      writers exclude each other and the readers ([readers_writers]).
    - File system: formatting establishes and every operation keeps an invariant of the
      whole disk (no sector is used twice, the free map is exact), Create and Remove do what
      they say to the named file and nothing to the others ([Create_spec],
      [Remove_spec]); open files are byte arrays ([OpenFile_refines_array]); any session of
      calls and restarts is that of a finite map from names to contents
      ([fs_refines_map]); a file that is copied in is printed back
      ([Copy_Print_roundtrip]); threads that share the disk see one order of requests and
      none waits for ever ([synchdisk_linearizable]).  Theorems and lemmas on the way:
      [format_spec], [Open_spec], [Allocate_spec], [ByteToSector_spec],
      [Directory_refines_map], [disk_refines_array].  What Print shows are the files
      ([FileSystem_Print_spec], [Print_shows_contents]).
    - User programs: without a TLB, a loaded program cannot change memory outside its frames
      ([program_confined], from [OneInstruction_safe]) and its memory is a flat array
      ([user_memory_refines_array]); on a machine with no other program the loader places it
      correctly, also from the COFF file on ([load_program], [coff_to_memory]), and frames
      come back ([AddrSpace_roundtrip]); decoding, arithmetic and logic are those of
      the architecture ([Decode_encode], [alu_refines_mips], [overflow_exact],
      [Mult_exact]); the stand-alone interpreter agrees up to stated operands
      ([interp_refines_mips], [interp_mult_carry]), and the disassembler's text determines
      what it does ([dump_ascii_determines]), as does the trace of the simulator
      ([trace_determines]); the debugger obeys its commands ([debugger_commands]) and the dump
      shows the registers ([DumpState_determines]).  Of the programs in test, matmult multiplies
      ([matmult_correct]) and the shell runs the lines it is given ([shell_runs_lines]).  In any
      program the stub of a system call ends it: Halt and Exit release its frames, every other
      call stops at an assertion ([system_calls_end]).
    - Devices: mailboxes deliver what was sent, in order ([mail_fifo]), messages in
      transit arrive ([mail_arrives]), and the mail test gets its answers and can always be
      finished ([MailTest_completes]); elevators stay safe and arrive ([elevator_safe],
      [elevator_arrives]) and their self test can always be finished and is safe until it
      deletes the bank ([ElevatorSelfTest_completes]); the console echoes what is typed, if no
      byte is 255 ([console_echo]); lists are
      sequences ([list_refines_sequence]).
    - Defects of the code, as theorems: [ByteToSector_defects], [tlb_miss_wrong_frame],
      [StartProcess_one_intact], [exit_releases_twice], [bss_check_inverted],
      [finished_threads_leak], [PerformanceTest_gives_up], [sort_does_not_sort],
      [shell_overflow], [pending_names_shifted], and the exceptions named in
      [alu_refines_mips], [interp_refines_mips], [interp_mult_carry],
      [dump_ascii_determines], [elevator_safe] and [ElevatorSelfTest_completes].

    ** Bounds and fuel

    Loops over data are structural.  [loop_fuel], one more than the number of pending
    interrupts, bounds the loops that take interrupts while they are due, and [Broadcast]
    runs once per waiting thread; [kernel_faults] shows that the bound is reached only when
    the 32-bit clock is about to overflow ([clock_room] says when it is not), where the loop
    of the source need not end either.  [krun n] is a run of at most [n] steps, for every [n].
    The 32 rounds of [Mult] are those of the source.  [Run_loop n] is the first [n] rounds of [Machine::Run],
    which never returns, for every [n], and [interp_run n] that of runprogram.  [Copy] and
    [Print] need one round of fuel for every ten bytes and one more ([enough_fuel]),
    [disasm] one for each word and one more, the loops over the command line one for each
    word, [shell] one for each line and one more; the theorems show that this is enough.
    [system_calls_end] needs two instructions, and holds for every larger number.  The code of Switch.v is straight-line
    and needs no fuel.  A file has at most 46 sectors (14 direct,
    32 indexed); [OpenFile_refines_array] is stated for files without an index because of
    [ByteToSector_defects].

    ** Builds

    The kernel is the build of the directory threads, the file system that of filesys,
    user programs all of them: USE_TLB, TLB_LRU and MULTI_THREAD are the fields of [Flags], an
    argument of what depends on them.  userprog/Makefile defines all three
    ([userprog_flags]), filesys and network none ([filesys_flags]), vm only USE_TLB.  The
    theorems on the loader, [StartProcess_one_intact] and [exit_releases_twice] hold for every
    choice; those on running programs ([OneInstruction_safe], [user_memory_refines_array],
    [program_confined], [system_calls_end]) for builds without a TLB, because with
    one a program reads wrong frames ([tlb_miss_wrong_frame]) and addresses with the top bit
    set are not checked ([negative_address_unchecked]).  SCHED_PRIORITY, which no makefile
    defines, is a field of the kernel state.

    ** Not modelled

    The SPARC version of the context switch (its register windows are saved by a trap into the
    operating system of the host), the printing of statistics, the Unix wrappers
    of sysdep.cc beyond what the devices use, the loaders of bin/main.c and bin/disasm.c and
    all of bin/out.c (they need the ld library of the host), the histograms of bin/execute.c,
    which nothing calls, and threads/stdarg.h, which belongs to the compiler.
    Kernel.v exchanges stacks of activation records where Switch.v exchanges registers; the two are
    not connected by a proof.
    [Scheduler_Run] leaves out [CheckOverflow], which is modelled with the stacks in Switch.v,
    and [Run_loop] the ticks of the clock between instructions; a round of the delivery loop of
    the post office is one step.
    StartProcess is modelled up to the point where its first thread yields.  Each component is modelled by itself: the
    console, network and elevators use semaphores as counters, which is what
    [semaphore_accounting] justifies, and do not run inside [kstep].

    The line ranges that relate a definition to its source include the comment block in
    front of the C++ function. *)

From stdpp Require Export base tactics list numbers gmap strings.
From Stdlib Require Export ZArith Lia Sorting.Sorted.

#[global] Open Scope Z_scope.
#[export] Set Warnings "-clear-no-such-hyp,-register-all".

#[global] Arguments Z.ltb : simpl never.
#[global] Arguments Z.leb : simpl never.
#[global] Arguments Z.eqb : simpl never.
#[global] Arguments Z.pow : simpl never.
#[global] Arguments Z.quot : simpl never.
#[global] Arguments Z.rem : simpl never.
#[global] Arguments Z.shiftl : simpl never.
#[global] Arguments Z.shiftr : simpl never.

(** ** Outcomes of C++ code

    [ASSERT] (threads/utility.h) prints a message and calls [Abort()]; a null or
    dangling pointer, or an index outside an array, is undefined behaviour.  A model
    function returns [Err] for both, and says which; [OutOfFuel] is only for
    interpreters whose loop is not bounded by the source. *)
Inductive error := AssertFailed | MemFault | OutOfFuel.

Inductive result (A : Type) :=
  | Ok (a : A)
  | Err (e : error).
Arguments Ok {A} a.
Arguments Err {A} e.

#[global] Instance error_eq_dec : EqDecision error.
Proof. solve_decision. Defined.

#[global] Instance result_ret : MRet result := fun A a => Ok a.
#[global] Instance result_bind : MBind result := fun A B f m =>
  match m with Ok a => f a | Err e => Err e end.

(** [ASSERT(cond)]. *)
Definition ASSERT (b : bool) : result unit := if b then Ok tt else Err AssertFailed.

(** A pointer dereference or array access that must be in range. *)
Definition deref {A} (o : option A) : result A :=
  match o with Some a => Ok a | None => Err MemFault end.

Lemma bind_Ok_inv {A B} (m : result A) (f : A -> result B) b :
  m ≫= f = Ok b -> exists a, m = Ok a /\ f a = Ok b.
Proof. destruct m; simpl; [eauto | discriminate]. Qed.

Lemma bind_Ok_eq {A B} (m : result A) (f : A -> result B) a :
  m = Ok a -> m ≫= f = f a.
Proof. by intros ->. Qed.

Lemma ASSERT_true b : b = true -> ASSERT b = Ok tt.
Proof. by intros ->. Qed.

Lemma ASSERT_Ok b u : ASSERT b = Ok u -> b = true.
Proof. by destruct b. Qed.

Lemma deref_Ok {A} (o : option A) a : deref o = Ok a -> o = Some a.
Proof. destruct o; simpl; congruence. Qed.

Lemma bind_assoc {A B C} (m : result A) (f : A -> result B) (g : B -> result C) :
  (m ≫= f) ≫= g = m ≫= (fun a => f a ≫= g).
Proof. by destruct m. Qed.

(** ** Machine integers

    The host of the simulator is a 32-bit i386: [int] and [unsigned int] are 32 bits
    wide, [char] is a signed 8-bit type.  Arithmetic wraps around (two's complement). *)
Definition i32 (z : Z) : Z := (z + 2 ^ 31) `mod` 2 ^ 32 - 2 ^ 31.
Definition u32 (z : Z) : Z := z `mod` 2 ^ 32.
Definition i8 (z : Z) : Z := (z + 2 ^ 7) `mod` 2 ^ 8 - 2 ^ 7.

Definition in_i32 (z : Z) : Prop := - 2 ^ 31 <= z < 2 ^ 31.
Definition in_u32 (z : Z) : Prop := 0 <= z < 2 ^ 32.

#[global] Instance in_i32_dec z : Decision (in_i32 z).
Proof. unfold in_i32. apply _. Defined.
#[global] Instance in_u32_dec z : Decision (in_u32 z).
Proof. unfold in_u32. apply _. Defined.

Ltac zpow :=
  change (2 ^ 31) with 2147483648 in *; change (2 ^ 32) with 4294967296 in *;
  change (2 ^ 7) with 128 in *; change (2 ^ 8) with 256 in *.

(** Linear goals about the wrap functions: unfold them and let [lia] reason about
    the Euclidean division. *)
Ltac wrap_lia :=
  unfold i32, u32, i8, in_i32, in_u32 in *; zpow; Z.div_mod_to_equations; lia.

Create HintDb nachos.
Create Rewrite HintDb nachos.

Lemma i32_id z : in_i32 z -> i32 z = z.
Proof. intros. wrap_lia. Qed.

Lemma i32_range z : in_i32 (i32 z).
Proof. wrap_lia. Qed.

Lemma u32_range z : in_u32 (u32 z).
Proof. wrap_lia. Qed.

Lemma u32_id z : in_u32 z -> u32 z = z.
Proof. intros. unfold u32, in_u32 in *. by apply Z.mod_small. Qed.

Lemma i32_add_l a b : i32 (i32 a + b) = i32 (a + b).
Proof. wrap_lia. Qed.

Lemma i32_add_r a b : i32 (a + i32 b) = i32 (a + b).
Proof. wrap_lia. Qed.

Lemma i32_sub_l a b : i32 (i32 a - b) = i32 (a - b).
Proof. wrap_lia. Qed.

Lemma i32_u32 z : i32 (u32 z) = i32 z.
Proof. wrap_lia. Qed.

Lemma u32_i32 z : u32 (i32 z) = u32 z.
Proof. wrap_lia. Qed.

Lemma i8_id z : -128 <= z < 128 -> i8 z = z.
Proof. intros. wrap_lia. Qed.

#[export] Hint Resolve i32_range u32_range : nachos.
#[export] Hint Rewrite i32_add_l i32_add_r i32_sub_l i32_u32 u32_i32 : nachos.

(** ** threads/utility.h: the arithmetic macros

    C division truncates towards zero. *)
Definition divRoundDown (n s : Z) : Z := n `quot` s.
Definition divRoundUp (n s : Z) : Z :=
  n `quot` s + (if 0 <? n `rem` s then 1 else 0).

Lemma divRoundUp_bounds n s :
  0 < s -> 0 <= n -> n <= s * divRoundUp n s < n + s.
Proof.
  intros. unfold divRoundUp.
  pose proof (Z.quot_rem' n s). pose proof (Z.rem_bound_pos n s).
  destruct (Z.ltb_spec 0 (n `rem` s)); lia.
Qed.

Lemma divRoundUp_nonneg n s : 0 < s -> 0 <= n -> 0 <= divRoundUp n s.
Proof. intros. pose proof (divRoundUp_bounds n s). nia. Qed.

(** ** Little-endian bytes

    How an [int] lies in memory on the host; bytes are numbers in [0, 256). *)
Fixpoint le_enc (n : nat) (z : Z) : list Z :=
  match n with
  | O => []
  | S n => z `mod` 256 :: le_enc n (z `div` 256)
  end.

Fixpoint le_dec (bs : list Z) : Z :=
  match bs with
  | [] => 0
  | b :: bs => b + 256 * le_dec bs
  end.

Definition is_byte (b : Z) : Prop := 0 <= b < 256.

Lemma length_le_enc n z : length (le_enc n z) = n.
Proof. revert z. induction n; intros; simpl; [done | by rewrite IHn]. Qed.

Lemma le_enc_bytes n z : Forall is_byte (le_enc n z).
Proof.
  revert z. induction n; intros; simpl; constructor; auto.
  unfold is_byte. apply Z.mod_pos_bound. lia.
Qed.

Lemma le_dec_enc n z : le_dec (le_enc n z) = z `mod` 256 ^ Z.of_nat n.
Proof.
  revert z. induction n; intros; cbn [le_enc le_dec].
  - by rewrite Z.mod_1_r.
  - rewrite IHn, Nat2Z.inj_succ, Z.pow_succ_r by lia.
    rewrite (Z.rem_mul_r z 256 (256 ^ Z.of_nat n)) by lia. lia.
Qed.

Lemma le_enc_dec bs : Forall is_byte bs -> le_enc (length bs) (le_dec bs) = bs.
Proof.
  induction 1 as [|b bs Hb _ IH]; cbn [length le_enc le_dec]; [done|].
  unfold is_byte in Hb.
  replace ((b + 256 * le_dec bs) `mod` 256) with b
    by (Z.div_mod_to_equations; lia).
  replace ((b + 256 * le_dec bs) `div` 256) with (le_dec bs)
    by (Z.div_mod_to_equations; lia).
  by rewrite IH.
Qed.

(** [*(int * )p], an [int] stored at an address. *)
Definition int_to_bytes (z : Z) : list Z := le_enc 4 z.
Definition int_of_bytes (bs : list Z) : Z := i32 (le_dec bs).

#[global] Arguments int_to_bytes : simpl never.
#[global] Arguments int_of_bytes : simpl never.

Lemma int_roundtrip z : in_i32 z -> int_of_bytes (int_to_bytes z) = z.
Proof.
  intros. unfold int_of_bytes, int_to_bytes. rewrite le_dec_enc.
  change (256 ^ Z.of_nat 4) with (2 ^ 32). fold (u32 z).
  rewrite i32_u32. by apply i32_id.
Qed.

(** ** Loops over a sequence *)

(** [for (x in xs) s = f(x, s)] in the result monad. *)
Fixpoint result_fold {A S} (f : A -> S -> result S) (xs : list A) (s : S) : result S :=
  match xs with
  | [] => Ok s
  | x :: xs => s ← f x s; result_fold f xs s
  end.

Lemma result_fold_app {A S} (f : A -> S -> result S) xs ys s :
  result_fold f (xs ++ ys) s = (s ← result_fold f xs s; result_fold f ys s).
Proof.
  revert s. induction xs as [|x xs IH]; intros s; [done|]. cbn [app result_fold].
  destruct (f x s); [|done]. cbn [mbind result_bind]. apply IH.
Qed.

(** ** Filtered lists *)

Lemma filter_ext_in {A} (P1 P2 : A -> Prop) `{!forall x, Decision (P1 x)}
    `{!forall x, Decision (P2 x)} (l : list A) :
  (forall x, x ∈ l -> (P1 x <-> P2 x)) -> filter P1 l = filter P2 l.
Proof.
  induction l as [|a l IH]; intros Hiff; [done|].
  rewrite !filter_cons, IH by set_solver. pose proof (Hiff a ltac:(set_solver)).
  repeat case_decide; tauto.
Qed.

Lemma filter_all {A} (P : A -> Prop) `{!forall x, Decision (P x)} (l : list A) :
  Forall P l -> filter P l = l.
Proof.
  induction 1 as [|a l Ha _ IH]; [done|]. by rewrite filter_cons_True, IH.
Qed.

Lemma StronglySorted_filter {A} (R : A -> A -> Prop) (P : A -> Prop)
    `{!forall x, Decision (P x)} (l : list A) :
  StronglySorted R l -> StronglySorted R (filter P l).
Proof.
  induction 1 as [|a l Hs IH Hall]; [constructor|]. rewrite filter_cons.
  case_decide; [|done]. constructor; [done|]. apply Forall_forall.
  intros x Hx. apply list_elem_of_filter in Hx as [_ Hx]. rewrite Forall_forall in Hall. auto.
Qed.

Lemma StronglySorted_seqZ m n : StronglySorted Z.lt (seqZ m n).
Proof.
  destruct (Z.le_gt_cases 0 n) as [Hn|Hn]; [|rewrite seqZ_nil by lia; constructor].
  revert m. pattern n. apply natlike_ind; [|clear n Hn|done].
  - intros m. rewrite seqZ_nil by done. constructor.
  - intros n Hn IH m. rewrite seqZ_cons, Z.pred_succ by lia. constructor; [apply IH|].
    apply Forall_forall. intros x Hx. apply elem_of_seqZ in Hx. lia.
Qed.

(** ** Overwriting a part of an array ([bcopy] into a buffer) *)

Definition splice {A} (l : list A) (n : nat) (data : list A) : list A :=
  take n l ++ data ++ drop (n + length data) l.

Definition slice {A} (l : list A) (n k : nat) : list A := take k (drop n l).

Lemma length_splice {A} (l : list A) n data :
  (n + length data <= length l)%nat -> length (splice l n data) = length l.
Proof. intros. unfold splice. rewrite !length_app, length_take, length_drop. lia. Qed.

Lemma splice_nil {A} (l : list A) n : splice l n [] = l.
Proof. unfold splice. cbn [length app]. by rewrite Nat.add_0_r, take_drop. Qed.

Lemma lookup_splice {A} (l : list A) n data i :
  (n + length data <= length l)%nat ->
  splice l n data !! i =
  if decide (n <= i < n + length data)%nat then data !! (i - n)%nat else l !! i.
Proof.
  intros Hlen. unfold splice. case_decide as Hd.
  - rewrite lookup_app_r by (rewrite length_take; lia). rewrite length_take, Nat.min_l by lia.
    by rewrite lookup_app_l by lia.
  - destruct (decide (i < n)%nat).
    + rewrite lookup_app_l by (rewrite length_take; lia). by apply lookup_take_lt.
    + rewrite lookup_app_r by (rewrite length_take; lia). rewrite length_take, Nat.min_l by lia.
      rewrite lookup_app_r by lia. rewrite lookup_drop. f_equal. lia.
Qed.

Lemma lookup_slice {A} (l : list A) n k i :
  slice l n k !! i = if decide (i < k)%nat then l !! (n + i)%nat else None.
Proof.
  unfold slice. case_decide.
  - by rewrite lookup_take_lt, lookup_drop by done.
  - apply lookup_ge_None. rewrite length_take. lia.
Qed.

Lemma length_slice {A} (l : list A) n k :
  (n + k <= length l)%nat -> length (slice l n k) = k.
Proof. intros. unfold slice. rewrite length_take, length_drop. lia. Qed.

Lemma slice_splice_same {A} (l : list A) n data :
  (n + length data <= length l)%nat -> slice (splice l n data) n (length data) = data.
Proof.
  intros. apply list_eq. intros i. rewrite lookup_slice. case_decide.
  - rewrite lookup_splice, decide_True by lia. f_equal. lia.
  - symmetry. apply lookup_ge_None. lia.
Qed.

Lemma slice_splice_other {A} (l : list A) n data m k :
  (n + length data <= length l)%nat -> (m + k <= n \/ n + length data <= m)%nat ->
  slice (splice l n data) m k = slice l m k.
Proof.
  intros. apply list_eq. intros i. rewrite !lookup_slice. case_decide; [|done].
  rewrite lookup_splice, decide_False by lia. done.
Qed.

Lemma Forall_slice {A} (P : A -> Prop) l n k : Forall P l -> Forall P (slice l n k).
Proof. intros. unfold slice. by apply Forall_take, Forall_drop. Qed.

Lemma Forall_splice {A} (P : A -> Prop) l n data :
  Forall P l -> Forall P data -> Forall P (splice l n data).
Proof. intros. unfold splice. rewrite !Forall_app. auto using Forall_take, Forall_drop. Qed.

(** A sequence of calls on one object: the results and the final state, or the first
    error. *)
Fixpoint run_ops {O S R} (exec : O -> S -> result (R * S)) (ops : list O) (s : S)
    : result (list R * S) :=
  match ops with
  | [] => Ok ([], s)
  | o :: ops => '(r, s) ← exec o s; '(rs, s) ← run_ops exec ops s; Ok (r :: rs, s)
  end.

Lemma run_ops_snoc {O S R} (exec : O -> S -> result (R * S)) ops o s rs s' :
  run_ops exec ops s = Ok (rs, s') ->
  run_ops exec (ops ++ [o]) s = '(r, s'') ← exec o s'; Ok (rs ++ [r], s'').
Proof.
  revert s rs. induction ops as [|o' ops IH]; intros s rs; cbn [run_ops app].
  - intros [= <- <-]. by destruct (exec o s) as [[r s2]|e].
  - destruct (exec o' s) as [[r1 s1]|e]; cbn [mbind result_bind]; [|done].
    destruct (run_ops exec ops s1) as [[rs2 s2]|e] eqn:E; cbn [mbind result_bind]; [|done].
    intros [= <- <-]. rewrite (IH _ _ E). by destruct (exec o s2) as [[r s3]|e].
Qed.

(** Case analysis over a range of integers. *)
Lemma Z_cases (n : Z) (P : Z -> Prop) : Forall P (seqZ 0 n) -> forall f, 0 <= f < n -> P f.
Proof. intros HP f Hf. apply (proj1 (Forall_forall _ _) HP). apply elem_of_seqZ. lia. Qed.

Lemma Z_forallb (n : Z) (P : Z -> bool) : forallb P (seqZ 0 n) = true -> forall k, 0 <= k < n -> P k = true.
Proof. intros HP k Hk. rewrite forallb_forall in HP. apply HP, list_elem_of_In, elem_of_seqZ. lia. Qed.
