(* ===== verification/Text.v ===== *)
(** * Text: what [printf] prints

    The conversions the sources use ([%d], [%x], [%08x], [%s], [%c]), a [printf] that interprets a
    format string, and the lemmas with which a text is read back: numbers are printed
    injectively, and a text can be cut at a character that does not occur in a field. *)

From Stdlib Require Import Ascii.
From S2P Require Import Prelude.

Local Open Scope string_scope.
Local Open Scope Z_scope.

(** ** Numbers *)

Definition tab : string := String (Ascii.ascii_of_nat 9) "".
Definition newline : string := String (Ascii.ascii_of_nat 10) "".
Definition hexdigits : list Ascii.ascii := String.list_ascii_of_string "0123456789abcdef".
Definition digit (d : Z) : Ascii.ascii := nth (Z.to_nat d) hexdigits "0"%char.

(** [n] digits of [v] in the base [b]. *)
Fixpoint fixed (b : Z) (n : nat) (v : Z) : string :=
  match n with
  | O => ""
  | S n => fixed b n (v `div` b) +:+ String (digit (v `mod` b)) ""
  end.

(** Without leading zeros. *)
Fixpoint trim (s : string) : string :=
  match s with
  | String c t => if Ascii.eqb c "0"%char then (match t with "" => s | _ => trim t end) else s
  | "" => s
  end.

(** [%08x], [%x] and [%d] *)
Definition pad8 (v : Z) : string := fixed 16 8 (u32 v).
Definition hex (v : Z) : string := trim (pad8 v).
Definition dec (v : Z) : string := if v <? 0 then String "-" (trim (fixed 10 10 (- v))) else trim (fixed 10 10 v).

(** ** [printf] *)

Inductive farg := Num (z : Z) | Str (s : string).

Definition convert (c : Ascii.ascii) (a : farg) : string :=
  match a with
  | Num z => if Ascii.eqb c "d"%char then dec z else if Ascii.eqb c "x"%char then hex z
             else if Ascii.eqb c "c"%char then String (Ascii.ascii_of_nat (Z.to_nat (z `mod` 256))) "" else ""
  | Str s => s
  end.

(** The text of [printf (f, args)]; a conversion without an argument prints nothing. *)
Fixpoint printf (f : string) (args : list farg) : string :=
  match f with
  | "" => ""
  | String c f =>
      if Ascii.eqb c "%"%char then
        match f with
        | "" => ""
        | String d f => match args with [] => printf f [] | a :: args => convert d a +:+ printf f args end
        end
      else String c (printf f args)
  end.

Lemma append_assoc (s t u : string) : s +:+ (t +:+ u) = (s +:+ t) +:+ u.
Proof. induction s as [|c s IH]; [done|]. exact (f_equal (String c) IH). Qed.

Lemma snoc_inj s1 s2 c : s1 +:+ String c "" = s2 +:+ String c "" -> s1 = s2.
Proof.
  revert s2. induction s1 as [|d s1 IH]; intros [|d' s2]; [done|intros [= _ E]; by destruct s2|intros [= _ E]; by destruct s1|].
  intros [= -> E]. f_equal. by apply IH.
Qed.

(** ** Numbers are printed injectively *)

Definition digit_val (c : Ascii.ascii) : Z :=
  let n := Z.of_nat (Ascii.nat_of_ascii c) in if n <? 58 then n - 48 else n - 87.

Fixpoint value (b acc : Z) (s : string) : Z :=
  match s with "" => acc | String c s => value b (b * acc + digit_val c) s end.

Lemma digit_val_digit d : 0 <= d < 16 -> digit_val (digit d) = d.
Proof. revert d. apply (Z_cases 16 (fun d => digit_val (digit d) = d)). by repeat constructor. Qed.

Lemma value_app b s t acc : value b acc (s +:+ t) = value b (value b acc s) t.
Proof. revert acc. induction s as [|c s IH]; intros acc; [done|]. apply IH. Qed.

Lemma value_fixed b n v acc : 2 <= b <= 16 -> value b acc (fixed b n v) = acc * b ^ Z.of_nat n + v `mod` b ^ Z.of_nat n.
Proof.
  intros Hb. revert v. induction n as [|n IH]; intros v.
  - change (b ^ Z.of_nat 0) with 1. rewrite Z.mod_1_r. cbn [fixed value]. lia.
  - cbn [fixed]. rewrite value_app, IH. cbn [value]. pose proof (Z.mod_pos_bound v b ltac:(lia)). rewrite digit_val_digit by lia.
    rewrite Nat2Z.inj_succ, Z.pow_succ_r by lia. rewrite Z.rem_mul_r by (lia || (apply Z.pow_pos_nonneg; lia)). lia.
Qed.

Lemma value_trim b s : value b 0 (trim s) = value b 0 s.
Proof.
  induction s as [|c s IH]; [done|]. cbn [trim]. destruct (Ascii.eqb_spec c "0"%char) as [->|]; [|done].
  destruct s as [|c s]; [cbn; lia|]. rewrite IH. set (t := String c s).
  change (value b 0 (String "0" t)) with (value b (b * 0 + 0) t). by replace (b * 0 + 0) with 0 by lia.
Qed.

Lemma pad8_val v : value 16 0 (pad8 v) = u32 v.
Proof.
  unfold pad8. rewrite value_fixed by lia. change (16 ^ Z.of_nat 8) with (2 ^ 32). rewrite Z.mul_0_l, Z.add_0_l.
  unfold u32. by rewrite Z.mod_mod.
Qed.

Lemma pad8_inj a b : pad8 a = pad8 b -> u32 a = u32 b.
Proof. intros E. by rewrite <-!pad8_val, E. Qed.

Lemma hex_inj a b : hex a = hex b -> u32 a = u32 b.
Proof. intros E. rewrite <-!pad8_val, <-(value_trim 16 (pad8 a)), <-(value_trim 16 (pad8 b)). by f_equal. Qed.

(** ** Texts are cut at separators *)

Fixpoint free (c : Ascii.ascii) (s : string) : bool :=
  match s with "" => true | String d s => negb (Ascii.eqb d c) && free c s end.

Lemma free_app c s t : free c (s +:+ t) = free c s && free c t.
Proof. induction s as [|d s IH]; [done|]. change (String d s +:+ t) with (String d (s +:+ t)). cbn [free]. by rewrite IH, andb_assoc. Qed.

Lemma cut_inj c s1 s2 t1 t2 :
  free c s1 = true -> free c s2 = true -> s1 +:+ String c t1 = s2 +:+ String c t2 -> s1 = s2 /\ t1 = t2.
Proof.
  revert s2. induction s1 as [|d s1 IH]; intros [|d' s2] H1 H2; cbn in *.
  - by intros [= ->].
  - intros [= <- _]. by rewrite Ascii.eqb_refl in H2.
  - intros [= -> _]. by rewrite Ascii.eqb_refl in H1.
  - intros [= -> E]. apply andb_prop in H1 as [_ H1], H2 as [_ H2]. by destruct (IH s2 H1 H2 E) as [-> ->].
Qed.

Definition separator (c : Ascii.ascii) : bool := existsb (Ascii.eqb c) [","%char; "("%char; ")"%char; Ascii.ascii_of_nat 9].

Lemma separator_cases c : separator c = true -> c = ","%char \/ c = "("%char \/ c = ")"%char \/ c = ascii_of_nat 9.
Proof. unfold separator. cbn [existsb]. rewrite !orb_true_iff, !Ascii.eqb_eq. naive_solver. Qed.

(** A property of all digits holds of all characters of a number. *)
Fixpoint all (p : Ascii.ascii -> bool) (s : string) : bool := match s with "" => true | String c s => p c && all p s end.

Lemma all_app p s t : all p (s +:+ t) = all p s && all p t.
Proof. induction s as [|d s IH]; [done|]. change (String d s +:+ t) with (String d (s +:+ t)). cbn [all]. by rewrite IH, andb_assoc. Qed.

Lemma all_fixed p b n v : 0 < b <= 16 -> forallb (fun d => p (digit d)) (seqZ 0 b) = true -> all p (fixed b n v) = true.
Proof.
  intros Hb Hp. revert v. induction n as [|n IH]; intros v; [done|]. cbn [fixed]. rewrite all_app, IH. cbn [andb all].
  rewrite (Z_forallb b _ Hp) by (apply Z.mod_pos_bound; lia). done.
Qed.

Lemma all_trim p s : all p s = true -> all p (trim s) = true.
Proof.
  induction s as [|d s IH]; [done|]. intros H. cbn [trim]. destruct (Ascii.eqb d "0"%char); [|done].
  destruct s; [done|]. apply IH. cbn in H. apply andb_prop in H as [_ H]. done.
Qed.

Lemma free_all c s : free c s = all (fun d => negb (Ascii.eqb d c)) s.
Proof. induction s as [|d s IH]; [done|]. cbn. by rewrite IH. Qed.

Lemma free_pad8 c v : separator c = true -> free c (pad8 v) = true.
Proof.
  intros Hc. rewrite free_all. apply all_fixed; [lia|]. apply separator_cases in Hc as [Hc|[Hc|[Hc|Hc]]]; subst c; by vm_compute.
Qed.

Lemma free_hex c v : separator c = true -> free c (hex v) = true.
Proof. intros Hc. unfold hex. rewrite free_all. apply all_trim. rewrite <-free_all. by apply free_pad8. Qed.

(** ** Reading decimal numbers back *)

Definition numeral (c : Ascii.ascii) : bool :=
  let n := Ascii.nat_of_ascii c in Nat.eqb n 45 || (Nat.leb 48 n && Nat.leb n 57).

Definition dec_val (s : string) : Z :=
  match s with
  | String c t => if Ascii.eqb c "-"%char then - value 10 0 t else value 10 0 s
  | "" => 0
  end.

Lemma all_dec p v : p "-"%char = true -> forallb (fun d => p (digit d)) (seqZ 0 10) = true -> all p (dec v) = true.
Proof.
  intros Hm Hp. unfold dec. destruct (v <? 0); cbn [all]; rewrite ?Hm; cbn [andb]; apply all_trim, all_fixed; done || lia.
Qed.

Lemma digits_val v : 0 <= v < 10 ^ 10 -> value 10 0 (trim (fixed 10 10 v)) = v.
Proof. intros Hv. rewrite value_trim, value_fixed by lia. change (10 ^ Z.of_nat 10) with (10 ^ 10). rewrite Z.mod_small; lia. Qed.

Lemma dec_val_dec v : - 10 ^ 10 < v < 10 ^ 10 -> dec_val (dec v) = v.
Proof.
  intros Hv. unfold dec. destruct (Z.ltb_spec v 0); cbn [dec_val].
  - change (Ascii.eqb "-" "-") with true. cbn match. rewrite digits_val by lia. lia.
  - assert (Ha : all (fun c => negb (Ascii.eqb c "-"%char)) (trim (fixed 10 10 v)) = true) by (apply all_trim, all_fixed; [lia|by vm_compute]).
    pose proof (digits_val v ltac:(lia)) as E. destruct (trim (fixed 10 10 v)) as [|c t]; [exact E|].
    cbn [all] in Ha. apply andb_prop in Ha as [Hc%negb_true_iff _]. unfold dec_val. by rewrite Hc.
Qed.

Lemma dec_inj a b : in_i32 a -> in_i32 b -> dec a = dec b -> a = b.
Proof. intros Ha Hb E. rewrite <-(dec_val_dec a), <-(dec_val_dec b), E; [done|unfold in_i32 in *; lia..]. Qed.

(** A text that does not go on with a digit. *)
Definition ends_number (s : string) : bool := match s with "" => true | String c _ => negb (numeral c) end.

Lemma span_inj p s1 s2 t1 t2 :
  all p s1 = true -> all p s2 = true ->
  match t1 with "" => True | String c _ => p c = false end -> match t2 with "" => True | String c _ => p c = false end ->
  s1 +:+ t1 = s2 +:+ t2 -> s1 = s2 /\ t1 = t2.
Proof.
  revert s2. induction s1 as [|d s1 IH]; intros [|d' s2] H1 H2 T1 T2; cbn in *.
  - done.
  - intros E. destruct t1 as [|c t1]; [done|]. injection E as -> _. apply andb_prop in H2 as [H2 _]. congruence.
  - intros E. destruct t2 as [|c t2]; [done|]. injection E as <- _. apply andb_prop in H1 as [H1 _]. congruence.
  - intros [= -> E]. apply andb_prop in H1 as [_ H1], H2 as [_ H2]. by destruct (IH s2 H1 H2 T1 T2 E) as [-> ->].
Qed.

Lemma read_dec a b s t : in_i32 a -> in_i32 b -> ends_number s = true -> ends_number t = true ->
  dec a +:+ s = dec b +:+ t -> a = b /\ s = t.
Proof.
  intros Ha Hb Hs Ht E. apply (span_inj numeral) in E as [E ->].
  - split; [by apply dec_inj|done].
  - by apply all_dec.
  - by apply all_dec.
  - destruct s; [done|]. by apply negb_true_iff.
  - destruct t; [done|]. by apply negb_true_iff.
Qed.

(** ** Reading back a text printed with [%d] only *)

(** Every conversion is [%d], and the text does not go on with a digit behind it. *)
Fixpoint readable (f : string) : bool :=
  match f with
  | "" => true
  | String c f =>
      if Ascii.eqb c "%"%char then
        match f with
        | "" => false
        | String d f => Ascii.eqb d "d"%char && ends_number f && match f with "" => true | String c _ => negb (Ascii.eqb c "%"%char) end && readable f
        end
      else readable f
  end.

Fixpoint conversions (f : string) : nat :=
  match f with
  | "" => O
  | String c f => if Ascii.eqb c "%"%char then (match f with "" => O | String _ f => S (conversions f) end) else conversions f
  end.

Lemma printf_ends f args : ends_number f = true -> match f with "" => true | String c _ => negb (Ascii.eqb c "%"%char) end = true ->
  ends_number (printf f args) = true.
Proof. destruct f as [|c f]; [done|]. cbn [printf]. intros H ->%negb_true_iff. done. Qed.

Lemma printf_inj f a b : readable f = true -> (conversions f <= length a)%nat -> (conversions f <= length b)%nat ->
  Forall in_i32 a -> Forall in_i32 b -> printf f (map Num a) = printf f (map Num b) -> take (conversions f) a = take (conversions f) b.
Proof.
  remember (String.length f) as n eqn:Hn. revert f Hn a b. induction n as [n IH] using lt_wf_ind. intros f -> a b.
  destruct f as [|c f]; [by rewrite !take_0|]. cbn [readable conversions printf]. destruct (Ascii.eqb c "%"%char) eqn:Ec.
  - destruct f as [|d f]; [done|]. intros [[[->%Ascii.eqb_eq He]%andb_prop Hp]%andb_prop Hr]%andb_prop.
    destruct a as [|x a]; [cbn; lia|]. destruct b as [|y b]; [cbn; lia|]. cbn [length map]. intros Ha Hb [Hx Fa]%Forall_cons [Hy Fb]%Forall_cons E.
    apply read_dec in E as [-> E]; try done; [|by apply printf_ends..].
    rewrite !firstn_cons. f_equal. by apply (IH (String.length f)); [cbn; lia|..|lia|lia| | |].
  - intros Hr Ha Hb Fa Fb [= E]. by apply (IH (String.length f)); [cbn; lia|..].
Qed.

(** Text without a conversion is copied. *)
Lemma printf_app p f args : free "%"%char p = true -> printf (p +:+ f) args = p +:+ printf f args.
Proof.
  induction p as [|c p IH]; [done|]. cbn [free]. intros [Hc%negb_true_iff Hp]%andb_prop.
  change (String c p +:+ f) with (String c (p +:+ f)). cbn [printf]. rewrite Hc, IH by done. done.
Qed.

Lemma append_nil_r s : s +:+ "" = s.
Proof. induction s as [|c s IH]; [done|]. exact (f_equal (String c) IH). Qed.

(** The first word of a text survives [printf]. *)
Fixpoint word (s : string) : string :=
  match s with "" => "" | String c s => if Ascii.eqb c " "%char then "" else String c (word s) end.

Lemma word_printf f args : free "%"%char (word f) = true -> word (printf f args) = word f.
Proof.
  induction f as [|c f IH]; [done|]. cbn [word printf]. destruct (Ascii.eqb c " "%char) eqn:E.
  - apply Ascii.eqb_eq in E as ->. done.
  - cbn [free]. intros [->%negb_true_iff H]%andb_prop. cbn [word]. by rewrite E, IH.
Qed.
