(* ===== verification/SList.v ===== *)
(** * The list abstraction (threads/list.h)

    What the callers of class [List] rely on: a list is the sequence of its
    (key, item) pairs from the front to the back.  The operations below are the
    sequence-level contract of list.cc; [ListHeap] proves that the pointer code
    implements it, and the scheduler, the interrupt queue, the synchronisation
    primitives and the elevator bank are modelled on top of it. *)

From S2P Require Import Prelude.
From Stdlib Require Import Sorting.Sorted Permutation.

Section SList.
Context {A : Type}.
Implicit Types (xs ys : list (Z * A)) (it : A).

(** [List::Append]: the element gets key 0. *)
Definition sl_Append (it : A) (xs : list (Z * A)) : list (Z * A) := xs ++ [(0, it)].

(** [List::Prepend]. *)
Definition sl_Prepend (it : A) (xs : list (Z * A)) : list (Z * A) := (0, it) :: xs.

(** [List::SortedInsert]: before the first element whose key is larger. *)
Fixpoint sl_SortedInsert (it : A) (sortKey : Z) (xs : list (Z * A)) : list (Z * A) :=
  match xs with
  | [] => [(sortKey, it)]
  | x :: rest => if sortKey <? x.1 then (sortKey, it) :: xs
                 else x :: sl_SortedInsert it sortKey rest
  end.

(** [List::SortedRemove]: the front element with its key, [None] for NULL. *)
Definition sl_SortedRemove (xs : list (Z * A)) : option ((Z * A) * list (Z * A)) :=
  match xs with
  | [] => None
  | x :: rest => Some (x, rest)
  end.

(** [List::IsEmpty]. *)
Definition sl_IsEmpty (xs : list (Z * A)) : bool :=
  match xs with [] => true | _ => false end.

(** [List::Remove(item)]: the first occurrence; [None] when the item is absent. *)
Fixpoint sl_RemoveItem `{EqDecision A} (it : A) (xs : list (Z * A))
    : option (list (Z * A)) :=
  match xs with
  | [] => None
  | x :: rest => if decide (it = x.2) then Some rest
                 else ys ← sl_RemoveItem it rest; Some (x :: ys)
  end.

(** The list is in increasing order of keys. *)
Definition sl_sorted (xs : list (Z * A)) : Prop := StronglySorted Z.le xs.*1.

Lemma sl_SortedInsert_perm it k xs :
  Permutation (sl_SortedInsert it k xs) ((k, it) :: xs).
Proof.
  induction xs as [|x xs IH]; simpl; [done|].
  destruct (k <? x.1); [done|].
  rewrite IH. apply perm_swap.
Qed.

Lemma sl_SortedInsert_Forall (P : Z * A -> Prop) it k xs :
  P (k, it) -> Forall P xs -> Forall P (sl_SortedInsert it k xs).
Proof.
  intros. rewrite sl_SortedInsert_perm. by constructor.
Qed.

Lemma sl_SortedInsert_sorted it k xs :
  sl_sorted xs -> sl_sorted (sl_SortedInsert it k xs).
Proof.
  unfold sl_sorted. induction xs as [|[k' i] xs IH]; simpl; intros Hs.
  - repeat constructor.
  - inversion Hs as [|? ? Hs' Hall]; subst.
    destruct (Z.ltb_spec k k') as [Hlt|Hge]; simpl.
    + constructor; [done|]. constructor; [lia|].
      eapply Forall_impl; [exact Hall|]. simpl; lia.
    + constructor; [auto|]. rewrite sl_SortedInsert_perm. simpl. by constructor.
Qed.

(** The new element goes after every element whose key is not larger, so elements of
    equal key leave in the order they came. *)
Lemma sl_SortedInsert_split it k xs :
  sl_sorted xs ->
  exists pre post, xs = pre ++ post /\ sl_SortedInsert it k xs = pre ++ (k, it) :: post
    /\ Forall (fun x => x.1 <= k) pre /\ Forall (fun x => k < x.1) post.
Proof.
  unfold sl_sorted. induction xs as [|[k' i] xs IH]; simpl; intros Hs.
  - by exists [], [].
  - inversion Hs as [|? ? Hs' Hall]; subst.
    destruct (Z.ltb_spec k k') as [Hlt|Hge].
    + exists [], ((k', i) :: xs). repeat split; auto.
      constructor; [done|]. rewrite Forall_fmap in Hall.
      eapply Forall_impl; [exact Hall|]. simpl. intros; lia.
    + destruct (IH Hs') as (pre & post & -> & -> & ? & ?).
      exists ((k', i) :: pre), post. repeat split; auto.
Qed.

Lemma sl_RemoveItem_None `{EqDecision A} it xs :
  sl_RemoveItem it xs = None <-> it ∉ xs.*2.
Proof.
  induction xs as [|x xs IH]; simpl; [set_solver|].
  case_decide; [set_solver|].
  destruct (sl_RemoveItem it xs); simpl; set_solver.
Qed.

Lemma sl_RemoveItem_perm `{EqDecision A} it xs ys :
  sl_RemoveItem it xs = Some ys -> exists k, Permutation xs ((k, it) :: ys).
Proof.
  revert ys. induction xs as [|[k i] xs IH]; simpl; intros ys Hr; [done|].
  case_decide; simplify_eq/=; [by exists k|].
  destruct (sl_RemoveItem it xs) as [zs|] eqn:E; simplify_eq/=.
  destruct (IH zs eq_refl) as [k' Hp]. exists k'. rewrite Hp. apply perm_swap.
Qed.

Lemma sl_RemoveItem_sublist `{EqDecision A} it xs ys :
  sl_RemoveItem it xs = Some ys -> sublist ys xs.
Proof.
  revert ys. induction xs as [|x xs IH]; simpl; intros ys Hr; [done|].
  case_decide; simplify_eq/=; [by constructor|].
  destruct (sl_RemoveItem it xs) as [zs|]; simplify_eq/=.
  constructor. by apply IH.
Qed.

Lemma sl_sorted_tail x xs : sl_sorted (x :: xs) -> sl_sorted xs.
Proof. intros Hs. by inversion Hs. Qed.

Lemma sl_sorted_head x xs : sl_sorted (x :: xs) -> Forall (fun y => x.1 <= y.1) xs.
Proof. intros Hs. inversion Hs as [|? ? ? Hall]. by rewrite Forall_fmap in Hall. Qed.

End SList.

#[export] Hint Resolve sl_SortedInsert_sorted sl_sorted_tail : nachos.
