(* ===== verification/ListHeap.v ===== *)
(** * threads/list.cc on a heap of list elements

    Class [List] as it is written: a singly linked list of [ListElement]s reached
    through the [first] and [last] pointers, with the element count [numInList].
    Elements live in a heap [gmap positive ListElement] shared by all lists; a pointer
    is an [option positive] ([None] is NULL), [new] takes an unused location and
    [delete] removes it.  [List_repr h l ls xs] relates the list object [l] to its
    sequence [xs] of (key, item) pairs stored at the locations [ls].  The theorems show
    that every operation implements the sequence operation of [SList] and touches no
    element of another list. *)

From S2P Require Import Prelude SList.

Abbreviation loc := positive.
Abbreviation ptr := (option positive).

(** An item is a [void *]; 0 is NULL. *)
Record ListElement := mkElement { le_next : ptr; le_key : Z; le_item : Z }.

Record CList := mkList { l_first : ptr; l_last : ptr; l_num : Z }.

Abbreviation heap := (gmap positive ListElement).

Definition set_next (nx : ptr) (e : ListElement) : ListElement :=
  mkElement nx (le_key e) (le_item e).

(** [p->next = nx]. *)
Definition store_next (h : heap) (p : loc) (nx : ptr) : result heap :=
  e ← deref (h !! p); Ok (<[p := set_next nx e]> h).

Definition ListElement_new (h : heap) (itemPtr sortKey : Z) : loc * heap :=
  let p := fresh (dom h) in (p, <[p := mkElement None sortKey itemPtr]> h).

Definition List_new : CList := mkList None None 0.

Definition List_IsEmpty (l : CList) : bool :=
  match l_first l with None => true | Some _ => false end.

Definition List_Append (item : Z) (h : heap) (l : CList) : result (heap * CList) :=
  let '(element, h) := ListElement_new h item 0 in
  if List_IsEmpty l
  then Ok (h, mkList (Some element) (Some element) (i32 (l_num l + 1)))
  else
    last ← deref (l_last l);
    h ← store_next h last (Some element);
    Ok (h, mkList (l_first l) (Some element) (i32 (l_num l + 1))).

Definition List_Prepend (item : Z) (h : heap) (l : CList) : result (heap * CList) :=
  let '(element, h) := ListElement_new h item 0 in
  if List_IsEmpty l
  then Ok (h, mkList (Some element) (Some element) (i32 (l_num l + 1)))
  else
    h ← store_next h element (l_first l);
    Ok (h, mkList (Some element) (l_last l) (i32 (l_num l + 1))).

(** The [for] loop of [SortedInsert]: [true] when the element was linked in before a
    larger one (the early return), [false] when the walk reached the last element. *)
Fixpoint SortedInsert_loop (fuel : nat) (h : heap) (ptr element : loc) (sortKey : Z)
    : result (bool * heap) :=
  match fuel with
  | O => Err OutOfFuel
  | S fuel =>
      e ← deref (h !! ptr);
      match le_next e with
      | None => Ok (false, h)
      | Some nx =>
          n ← deref (h !! nx);
          if sortKey <? le_key n then
            h ← store_next h element (Some nx);
            h ← store_next h ptr (Some element);
            Ok (true, h)
          else SortedInsert_loop fuel h nx element sortKey
      end
  end.

Definition List_SortedInsert (item sortKey : Z) (h : heap) (l : CList)
    : result (heap * CList) :=
  let '(element, h) := ListElement_new h item sortKey in
  match l_first l with
  | None => Ok (h, mkList (Some element) (Some element) (i32 (l_num l + 1)))
  | Some first =>
      f ← deref (h !! first);
      if sortKey <? le_key f then
        h ← store_next h element (Some first);
        Ok (h, mkList (Some element) (l_last l) (i32 (l_num l + 1)))
      else
        '(found, h) ← SortedInsert_loop (size h) h first element sortKey;
        if (found : bool) then Ok (h, mkList (l_first l) (l_last l) (i32 (l_num l + 1)))
        else
          last ← deref (l_last l);
          h ← store_next h last (Some element);
          Ok (h, mkList (l_first l) (Some element) (i32 (l_num l + 1)))
  end.

(** Returns [None] for NULL (empty list), otherwise the key stored through [keyPtr]
    and the item. *)
Definition List_SortedRemove (h : heap) (l : CList)
    : result (option (Z * Z) * heap * CList) :=
  match l_first l with
  | None => Ok (None, h, l)
  | Some first =>
      element ← deref (h !! first);
      let '(f, la) := if decide (l_first l = l_last l) then (None, None)
                      else (le_next element, l_last l) in
      Ok (Some (le_key element, le_item element), delete first h,
          mkList f la (i32 (l_num l - 1)))
  end.

(** [List::Remove()], the item as a [void *]. *)
Definition List_Remove (h : heap) (l : CList) : result (Z * heap * CList) :=
  '(r, h, l) ← List_SortedRemove h l;
  Ok (match r with None => 0 | Some (_, item) => item end, h, l).

(** [List::~List]: [while (Remove() != NULL) ;]. *)
Fixpoint List_delete_loop (fuel : nat) (h : heap) (l : CList) : result (heap * CList) :=
  match fuel with
  | O => Err OutOfFuel
  | S fuel =>
      '(item, h, l) ← List_Remove h l;
      if decide (item = 0) then Ok (h, l) else List_delete_loop fuel h l
  end.

Definition List_delete (h : heap) (l : CList) : result (heap * CList) :=
  List_delete_loop (S (size h)) h l.

(** [List::Mapcar]: [func] is applied to the items front to back; [S] is the state the
    function acts on. *)
Fixpoint Mapcar_loop {S} (fuel : nat) (func : Z -> S -> result S) (h : heap) (p : ptr)
    (s : S) : result S :=
  match fuel with
  | O => Err OutOfFuel
  | Datatypes.S fuel =>
      match p with
      | None => Ok s
      | Some a => e ← deref (h !! a);
                  s ← func (le_item e) s;
                  Mapcar_loop fuel func h (le_next e) s
      end
  end.

Definition List_Mapcar {S} (func : Z -> S -> result S) (h : heap) (l : CList) (s : S)
    : result S :=
  Mapcar_loop (Datatypes.S (size h)) func h (l_first l) s.

(** The [for] loop of [List::Remove(item)] with its [prev] pointer; on a match the
    element is unlinked, [last] is moved back when it was the last one, and it is
    freed. *)
Fixpoint RemoveItem_loop (fuel : nat) (item : Z) (h : heap) (prev : loc) (p : ptr)
    (l : CList) : result (heap * CList) :=
  match fuel with
  | O => Err OutOfFuel
  | S fuel =>
      match p with
      | None => Err AssertFailed   (* ASSERT(ptr != NULL) *)
      | Some a =>
          e ← deref (h !! a);
          if decide (item = le_item e) then
            h ← store_next h prev (le_next e);
            Ok (delete a h,
                mkList (l_first l)
                  (match le_next e with None => Some prev | Some _ => l_last l end)
                  (i32 (l_num l - 1)))
          else RemoveItem_loop fuel item h a (le_next e) l
      end
  end.

Definition List_RemoveItem (item : Z) (h : heap) (l : CList) : result (heap * CList) :=
  first ← deref (l_first l);
  f ← deref (h !! first);
  if decide (item = le_item f) then
    '(removed, h, l) ← List_Remove h l;
    ASSERT (bool_decide (item = removed)) ;;
    Ok (h, l)
  else RemoveItem_loop (S (size h)) item h first (le_next f) l.

(** ** Representation *)

(** The elements [xs] lie at [ls], linked from [p] to [q]. *)
Fixpoint lseg (h : heap) (p : ptr) (ls : list loc) (xs : list (Z * Z)) (q : ptr) : Prop :=
  match ls, xs with
  | [], [] => p = q
  | a :: ls, (k, it) :: xs =>
      p = Some a /\ exists nx, h !! a = Some (mkElement nx k it) /\ lseg h nx ls xs q
  | _, _ => False
  end.

Definition List_repr (h : heap) (l : CList) (ls : list loc) (xs : list (Z * Z)) : Prop :=
  lseg h (l_first l) ls xs None /\ NoDup ls /\ l_last l = last ls
  /\ l_num l = i32 (Z.of_nat (length xs)).

(** Between two heaps only elements at [ls] or [ls'] differ. *)
Definition same_outside (h h' : heap) (ls : list loc) : Prop :=
  forall p, p ∉ ls -> h' !! p = h !! p.

(** The elements of the new list are the old ones and newly allocated ones, and every
    other element of the heap is unchanged. *)
Definition framed (h h' : heap) (ls ls' : list loc) : Prop :=
  (forall p, p ∈ ls' -> p ∈ ls \/ h !! p = None) /\ same_outside h h' (ls ++ ls').

Lemma framed_fresh h h' ls ls' :
  (forall p, p ∈ ls' -> p ∈ ls \/ p = fresh (dom h)) -> same_outside h h' (ls ++ ls') ->
  framed h h' ls ls'.
Proof.
  intros Hin Hs. split; [|done]. intros p Hp. destruct (Hin p Hp) as [Hl| ->]; [by left|].
  right. apply not_elem_of_dom. apply is_fresh.
Qed.

Lemma framed_sub h h' ls ls' :
  ls' ⊆ ls -> same_outside h h' ls -> framed h h' ls ls'.
Proof. intros Hin Hs. split; [set_solver|]. intros p Hp. apply Hs. set_solver. Qed.

Lemma lseg_length h p ls xs q : lseg h p ls xs q -> length ls = length xs.
Proof.
  revert p xs. induction ls as [|a ls IH]; intros p [|[k it] xs]; simpl; try done.
  intros (_ & nx & _ & Hs). f_equal. eauto.
Qed.

Lemma lseg_app h p ls1 xs1 ls2 xs2 q :
  length ls1 = length xs1 ->
  lseg h p (ls1 ++ ls2) (xs1 ++ xs2) q <->
  exists r, lseg h p ls1 xs1 r /\ lseg h r ls2 xs2 q.
Proof.
  revert p xs1. induction ls1 as [|a ls1 IH]; intros p [|[k it] xs1] Hlen; try done; simpl.
  - split; [by exists p | by intros (r & -> & ?)].
  - split.
    + intros (-> & nx & Ha & Hs). apply IH in Hs as (r & ? & ?); [|simpl in Hlen; lia].
      exists r. eauto 6.
    + intros (r & (-> & nx & Ha & Hs) & Hs2). split; [done|]. exists nx. split; [done|].
      apply IH; [simpl in Hlen; lia|]. eauto.
Qed.

Lemma lseg_snoc_inv h p ls xs q a :
  lseg h p (ls ++ [a]) xs q ->
  exists xs' k it, xs = xs' ++ [(k, it)] /\ lseg h p ls xs' (Some a)
    /\ h !! a = Some (mkElement q k it).
Proof.
  intros Hs. pose proof (lseg_length _ _ _ _ _ Hs) as Hl.
  destruct xs as [|x xs] using rev_ind; [rewrite length_app in Hl; simpl in Hl; lia|].
  destruct x as [k it]. rewrite !length_app in Hl; simpl in Hl.
  apply lseg_app in Hs as (r & Hs & -> & nx & Ha & Hq); [|lia].
  simpl in Hq. subst. eauto 7.
Qed.

Lemma lseg_mem h p ls xs q a : lseg h p ls xs q -> a ∈ ls -> is_Some (h !! a).
Proof.
  revert p xs. induction ls as [|b ls IH]; intros p [|[k it] xs]; simpl; try done.
  - intros _ Hin. by apply elem_of_nil in Hin.
  - intros (-> & nx & Hb & Hs) Hin. apply elem_of_cons in Hin as [->|Hin]; eauto.
Qed.

Lemma lseg_frame h h' p ls xs q :
  (forall a, a ∈ ls -> h' !! a = h !! a) -> lseg h p ls xs q -> lseg h' p ls xs q.
Proof.
  revert p xs. induction ls as [|b ls IH]; intros p [|[k it] xs] Hf; simpl; try done.
  intros (-> & nx & Hb & Hs). split; [done|]. exists nx.
  rewrite Hf by set_solver. split; [done|]. apply IH; [|done]. set_solver.
Qed.

Lemma lseg_insert h p ls xs q a e :
  a ∉ ls -> lseg h p ls xs q -> lseg (<[a := e]> h) p ls xs q.
Proof. intros. eapply lseg_frame; [|done]. intros. apply lookup_insert_ne. set_solver. Qed.

Lemma lseg_delete h p ls xs q a :
  a ∉ ls -> lseg h p ls xs q -> lseg (delete a h) p ls xs q.
Proof. intros. eapply lseg_frame; [|done]. intros. apply lookup_delete_ne. set_solver. Qed.

Lemma lseg_null_nil h ls xs q : lseg h None ls xs q -> ls = [] /\ xs = [] /\ q = None.
Proof. destruct ls, xs as [|[] ?]; simpl; naive_solver. Qed.

Lemma lseg_size h p ls xs q : lseg h p ls xs q -> NoDup ls -> (length ls <= size h)%nat.
Proof.
  intros Hs Hnd. rewrite <-(size_list_to_set (C := gset loc)) by done.
  rewrite <-size_dom. apply subseteq_size. intros a Ha.
  rewrite elem_of_list_to_set in Ha. apply elem_of_dom. eauto using lseg_mem.
Qed.

(** The fresh location of an allocation is not in use. *)
Lemma fresh_not_in h p ls xs q :
  lseg h p ls xs q -> fresh (dom h) ∉ ls.
Proof.
  intros Hs Hin. apply (is_fresh (dom h)). apply elem_of_dom. eauto using lseg_mem.
Qed.

Lemma store_next_Ok h p nx e :
  h !! p = Some e -> store_next h p nx = Ok (<[p := set_next nx e]> h).
Proof. unfold store_next. by intros ->. Qed.

Lemma num_succ (n : Z) (xs : nat) :
  n = i32 (Z.of_nat xs) -> i32 (n + 1) = i32 (Z.of_nat (S xs)).
Proof. intros ->. rewrite i32_add_l. f_equal. lia. Qed.

Lemma num_pred (n : Z) (xs : nat) :
  n = i32 (Z.of_nat (S xs)) -> i32 (n - 1) = i32 (Z.of_nat xs).
Proof. intros ->. rewrite i32_sub_l. f_equal. lia. Qed.

Lemma List_repr_empty h : List_repr h List_new [] [].
Proof. repeat split; constructor. Qed.

Lemma List_repr_IsEmpty h l ls xs :
  List_repr h l ls xs -> List_IsEmpty l = sl_IsEmpty xs.
Proof.
  intros (Hs & _). unfold List_IsEmpty. destruct ls, xs as [|[] ?]; simpl in Hs; try done.
  - by rewrite Hs.
  - destruct Hs as [-> _]. done.
Qed.

(** ** Insertion at the back, at the front and in order *)

Lemma lseg_link_last h p ls xs a e k it :
  lseg h p (ls ++ [a]) xs None -> NoDup (ls ++ [a]) -> e ∉ ls ++ [a] ->
  h !! e = Some (mkElement None k it) ->
  exists h', store_next h a (Some e) = Ok h'
    /\ lseg h' p ((ls ++ [a]) ++ [e]) (xs ++ [(k, it)]) None
    /\ same_outside h h' [a].
Proof.
  intros Hs Hnd He Hcell.
  apply lseg_snoc_inv in Hs as (xs' & ka & ia & -> & Hs & Ha).
  eexists. split; [by apply store_next_Ok|]. split.
  - rewrite <-!(assoc_L (++)). apply lseg_app; [by eapply lseg_length|].
    exists (Some a). split; [apply lseg_insert; [|done]|].
    + apply NoDup_app in Hnd as (_ & Hd & _). set_solver.
    + simpl. split; [done|]. eexists. rewrite lookup_insert_eq. split; [done|].
      split; [done|]. exists None. rewrite lookup_insert_ne by set_solver. done.
  - intros q Hq. apply lookup_insert_ne. set_solver.
Qed.

Lemma lseg_fresh_cell h p ls xs q k it :
  lseg h p ls xs q -> lseg (<[fresh (dom h) := mkElement None k it]> h) p ls xs q.
Proof. intros. apply lseg_insert; [eapply fresh_not_in; eauto|done]. Qed.

Lemma List_first_last h l ls xs a rest :
  List_repr h l ls xs -> ls = a :: rest ->
  l_first l = Some a /\ exists front b, ls = front ++ [b] /\ l_last l = Some b.
Proof.
  intros (Hs & _ & Hl & _) ->. destruct xs as [|[k it] xs]; [done|].
  destruct Hs as [Hf _]. split; [done|].
  destruct (exists_last (l := a :: rest)) as (fr & b & Heq); [done|].
  exists fr, b. split; [done|]. by rewrite Hl, Heq, last_snoc.
Qed.

(** A list whose [first] is not NULL has a first element. *)
Lemma List_repr_cons h l ls xs a :
  List_repr h l ls xs -> l_first l = Some a ->
  exists k it rest xs', ls = a :: rest /\ xs = (k, it) :: xs'
    /\ exists nx, h !! a = Some (mkElement nx k it) /\ lseg h nx rest xs' None.
Proof.
  intros (Hs & _) Ef. rewrite Ef in Hs.
  destruct ls as [|b rest], xs as [|[k it] xs']; simpl in Hs; try done.
  destruct Hs as (Hb & nx & Ha & Hs). simplify_eq. eauto 9.
Qed.

Lemma NoDup_snoc_fresh (ls : list loc) e : NoDup ls -> e ∉ ls -> NoDup (ls ++ [e]).
Proof. intros. apply NoDup_app. split; [done|]. split; [set_solver|by apply NoDup_singleton]. Qed.

(** Linking the new element behind [last] (the tail of [Append] and of
    [SortedInsert]). *)
Lemma append_repr h l ls xs a rest k it :
  List_repr h l ls xs -> ls = a :: rest ->
  let e := fresh (dom h) in
  let h1 := <[e := mkElement None k it]> h in
  exists last h', l_last l = Some last /\ store_next h1 last (Some e) = Ok h'
    /\ List_repr h' (mkList (l_first l) (Some e) (i32 (l_num l + 1))) (ls ++ [e])
         (xs ++ [(k, it)])
    /\ same_outside h h' (ls ++ [e]).
Proof.
  intros Hr Hls e h1. destruct (List_first_last _ _ _ _ _ _ Hr Hls) as (Hf & fr & b & Hb & Hl).
  destruct Hr as (Hs & Hnd & _ & Hn).
  assert (He : e ∉ ls) by (eapply fresh_not_in; eauto).
  clear Hls. subst ls.
  destruct (lseg_link_last h1 (l_first l) fr xs b e k it) as (h' & Hst & Hs' & Hf'); auto.
  { by apply lseg_fresh_cell. }
  { apply lookup_insert_eq. }
  exists b, h'. split_and!; auto.
  - split_and!; [done|by apply NoDup_snoc_fresh|by rewrite last_snoc|].
    rewrite length_app. simpl. rewrite Nat.add_1_r. by apply num_succ.
  - intros q Hq. rewrite Hf' by set_solver. apply lookup_insert_ne. set_solver.
Qed.

(** A one-element list after an insertion into the empty list. *)
Lemma singleton_repr h l ls xs k it :
  List_repr h l ls xs -> l_first l = None ->
  let e := fresh (dom h) in
  let h1 := <[e := mkElement None k it]> h in
  xs = [] /\ ls = []
  /\ List_repr h1 (mkList (Some e) (Some e) (i32 (l_num l + 1))) [e] [(k, it)]
  /\ same_outside h h1 [e].
Proof.
  intros (Hs & _ & _ & Hn) Hnone e h1. rewrite Hnone in Hs.
  apply lseg_null_nil in Hs as (-> & -> & _). split_and!; auto.
  - split_and!; simpl.
    + split; [done|]. exists None. unfold h1. by rewrite lookup_insert_eq.
    + by apply NoDup_singleton.
    + done.
    + rewrite Hn. reflexivity.
  - intros q Hq. apply lookup_insert_ne. set_solver.
Qed.

Lemma List_Append_repr item h l ls xs :
  List_repr h l ls xs ->
  exists h' l' ls', List_Append item h l = Ok (h', l')
    /\ List_repr h' l' ls' (sl_Append item xs) /\ framed h h' ls ls'.
Proof.
  intros Hr. unfold List_Append, ListElement_new, List_IsEmpty.
  destruct (l_first l) as [a|] eqn:Ef.
  - destruct (List_repr_cons _ _ _ _ _ Hr Ef) as (k & it & rest & xs' & -> & -> & _).
    destruct (append_repr h l (a :: rest) ((k, it) :: xs') a rest 0 item)
      as (lst & h' & -> & Hst & Hr' & Hf); auto.
    simpl. rewrite Hst. simpl. rewrite Ef in Hr'. do 3 eexists. split; [done|].
    split; [exact Hr'|].
    apply framed_fresh; [set_solver|]. intros q Hq. apply Hf. set_solver.
  - destruct (singleton_repr h l ls xs 0 item Hr Ef) as (-> & -> & Hr' & Hf).
    do 3 eexists. split; [done|]. split; [exact Hr'|].
    apply framed_fresh; [set_solver|done].
Qed.

(** Linking the new element in front of [first]. *)
Lemma prepend_repr h l ls xs a k it :
  List_repr h l ls xs -> l_first l = Some a ->
  let e := fresh (dom h) in
  let h1 := <[e := mkElement None k it]> h in
  exists h', store_next h1 e (Some a) = Ok h'
    /\ List_repr h' (mkList (Some e) (l_last l) (i32 (l_num l + 1))) (e :: ls)
         ((k, it) :: xs)
    /\ same_outside h h' (e :: ls).
Proof.
  intros Hr Ef e h1. pose proof (List_repr_cons _ _ _ _ _ Hr Ef) as (? & ? & rest & ? & Hls & _).
  destruct Hr as (Hs & Hnd & Hl & Hn).
  assert (He : e ∉ ls) by (eapply fresh_not_in; eauto).
  eexists. split; [apply store_next_Ok; apply lookup_insert_eq|]. split; [split_and!|].
  - split; [done|]. exists (l_first l). rewrite lookup_insert_eq, Ef. split; [done|].
    rewrite <-Ef. unfold h1. by do 2 (apply lseg_insert; [done|]).
  - by constructor.
  - simpl. rewrite Hl, Hls. done.
  - by apply num_succ.
  - intros q Hq. unfold h1. rewrite !lookup_insert_ne by set_solver. done.
Qed.

Lemma List_Prepend_repr item h l ls xs :
  List_repr h l ls xs ->
  exists h' l' ls', List_Prepend item h l = Ok (h', l')
    /\ List_repr h' l' ls' (sl_Prepend item xs) /\ framed h h' ls ls'.
Proof.
  intros Hr. unfold List_Prepend, ListElement_new, List_IsEmpty.
  destruct (l_first l) as [a|] eqn:Ef.
  - destruct (prepend_repr h l ls xs a 0 item Hr Ef) as (h' & Hst & Hr' & Hf).
    rewrite Hst. simpl. do 3 eexists. split; [done|]. split; [exact Hr'|].
    apply framed_fresh; [set_solver|]. intros q Hq. apply Hf. set_solver.
  - destruct (singleton_repr h l ls xs 0 item Hr Ef) as (-> & -> & Hr' & Hf).
    do 3 eexists. split; [done|]. split; [exact Hr'|].
    apply framed_fresh; [set_solver|done].
Qed.

(** The walk of [SortedInsert] from an element whose key is not larger than the new
    one: either the new element is linked in front of the first larger key, or the walk
    ends with the heap unchanged and every key seen is not larger. *)
Lemma SortedInsert_loop_spec fuel h a ls k it xs e key item :
  lseg h (Some a) (a :: ls) ((k, it) :: xs) None -> NoDup (a :: ls) -> e ∉ a :: ls ->
  h !! e = Some (mkElement None key item) -> (length ls < fuel)%nat ->
  (exists h' pre post, SortedInsert_loop fuel h a e key = Ok (true, h')
     /\ ls = pre ++ post /\ post <> []
     /\ lseg h' (Some a) (a :: pre ++ e :: post) ((k, it) :: sl_SortedInsert item key xs) None
     /\ same_outside h h' (e :: a :: ls))
  \/ (SortedInsert_loop fuel h a e key = Ok (false, h)
      /\ sl_SortedInsert item key xs = xs ++ [(key, item)]).
Proof.
  revert a ls k it xs. induction fuel as [|fuel IH]; intros a ls k it xs Hs Hnd He Hcell Hfuel;
    [lia|].
  destruct Hs as (_ & nx & Ha & Hs). cbn [SortedInsert_loop]. rewrite Ha. simpl.
  destruct ls as [|b ls], xs as [|[kb ib] xs]; simpl in Hs; try done.
  - subst nx. right. done.
  - destruct Hs as (-> & nx' & Hb & Hs). simpl. rewrite Hb. cbn [deref mbind result_bind le_key].
    destruct (Z.ltb_spec key kb) as [Hlt|Hge].
    + left. rewrite (store_next_Ok _ _ _ _ Hcell). simpl.
      assert (a <> e) by set_solver. assert (b <> e) by set_solver.
      assert (a <> b) by (apply NoDup_cons in Hnd as [? _]; set_solver).
      erewrite (store_next_Ok _ a) by (by rewrite lookup_insert_ne). simpl.
      eexists _, [], (b :: ls). split; [done|]. do 2 (split; [done|]). split.
      * simpl. split; [done|]. eexists.
        rewrite lookup_insert_eq. split; [done|]. split; [done|]. eexists.
        rewrite lookup_insert_ne, lookup_insert_eq by done. split; [done|].
        split; [done|]. exists nx'. rewrite !lookup_insert_ne by done. split; [done|].
        apply NoDup_cons in Hnd as [Ha' Hnd]. by do 2 (apply lseg_insert; [set_solver|]).
      * intros q Hq. rewrite !lookup_insert_ne by set_solver. done.
    + apply NoDup_cons in Hnd as [Ha' Hnd].
      assert (Hb' : lseg h (Some b) (b :: ls) ((kb, ib) :: xs) None) by (simpl; eauto).
      destruct (IH b ls kb ib xs Hb' Hnd) as [(h' & pre & post & -> & -> & Hp & Hs' & Hf)|[-> Heq]];
        [set_solver|done|simpl in Hfuel; lia| |].
      * left. exists h', (b :: pre), post. simpl. do 3 (split; [done|]). split.
        -- split; [done|]. exists (Some b). split.
           { rewrite Hf; [done|]. set_solver. }
           exact Hs'.
        -- intros q Hq. apply Hf. set_solver.
      * right. simpl. by rewrite Heq.
Qed.

Lemma List_SortedInsert_repr item key h l ls xs :
  List_repr h l ls xs ->
  exists h' l' ls', List_SortedInsert item key h l = Ok (h', l')
    /\ List_repr h' l' ls' (sl_SortedInsert item key xs)
    /\ framed h h' ls ls'.
Proof.
  intros Hr. unfold List_SortedInsert, ListElement_new.
  destruct (l_first l) as [a|] eqn:Ef.
  2:{ destruct (singleton_repr h l ls xs key item Hr Ef) as (-> & -> & Hr' & Hf).
      do 3 eexists. split; [done|]. split; [exact Hr'|].
    apply framed_fresh; [set_solver|done]. }
  destruct (List_repr_cons _ _ _ _ _ Hr Ef) as (k & it & rest & xs' & -> & -> & nx & Ha & Hrest).
  assert (He : fresh (dom h) ∉ a :: rest) by (destruct Hr as (Hs & _); eapply fresh_not_in; eauto).
  rewrite lookup_insert_ne, Ha by set_solver. cbn [deref mbind result_bind le_key].
  cbn [sl_SortedInsert fst]. destruct (key <? k) eqn:Ek.
  { destruct (prepend_repr h l (a :: rest) ((k, it) :: xs') a key item Hr Ef) as (h' & Hst & Hr' & Hf).
    rewrite Hst. simpl. do 3 eexists. split; [done|]. split; [exact Hr'|].
    apply framed_fresh; [set_solver|]. intros q Hq. apply Hf. set_solver. }
  pose proof Hr as (Hs & Hnd & Hl & Hn). rewrite Ef in Hs.
  pose proof (lseg_fresh_cell h _ _ _ _ key item Hs) as Hs1.
  edestruct (SortedInsert_loop_spec (size (<[fresh (dom h) := mkElement None key item]> h))
      (<[fresh (dom h) := mkElement None key item]> h) a rest k it xs'
      (fresh (dom h)) key item) as [(h' & pre & post & Hloop & Hls & Hpost & Hs' & Hf)|[Hloop Heq]];
    [done|done|done|apply lookup_insert_eq|..].
  { pose proof (lseg_size _ _ _ _ _ Hs1 Hnd) as Hsz. simpl in Hsz. lia. }
  - rewrite Hloop. simpl. do 3 eexists. split; [done|]. split; [split_and!|].
    + exact Hs'.
    + subst rest. rewrite app_comm_cons, <-Permutation_middle. constructor; [set_solver|done].
    + simpl. rewrite Hl, Hls. destruct (exists_last Hpost) as (p' & b & ->).
      rewrite !app_comm_cons, !(assoc_L (++)). by rewrite !last_snoc.
    + simpl. rewrite sl_SortedInsert_perm. simpl. by apply num_succ.
    + apply framed_fresh; [set_solver|]. intros q Hq. rewrite Hf by set_solver.
      apply lookup_insert_ne. set_solver.
  - rewrite Hloop, Heq. simpl.
    destruct (append_repr h l (a :: rest) ((k, it) :: xs') a rest key item)
      as (lst & h' & -> & Hst & Hr' & Hf'); auto.
    simpl. rewrite Hst. simpl. rewrite Ef in Hr'. do 3 eexists. split; [done|].
    split; [exact Hr'|].
    apply framed_fresh; [set_solver|]. intros q Hq. apply Hf'. set_solver.
Qed.

(** ** Removal *)

(** Removing the front element frees its cell and nothing else. *)
Lemma SortedRemove_cons h l a rest k it xs :
  List_repr h l (a :: rest) ((k, it) :: xs) ->
  exists l', List_SortedRemove h l = Ok (Some (k, it), delete a h, l')
    /\ List_repr (delete a h) l' rest xs.
Proof.
  intros ((Ef & nx & Ha & Hrest) & Hnd & Hl & Hn). apply NoDup_cons in Hnd as [Hna Hnd].
  unfold List_SortedRemove. rewrite Ef, Ha. simpl. rewrite Hl.
  destruct rest as [|b rest].
  - simpl. rewrite decide_True by done. destruct xs as [|[] ?]; [|done].
    eexists. split; [done|].
    split_and!; [done|constructor|done|by apply num_pred].
  - rewrite decide_False; cycle 1.
    { intros Heq. apply Hna. symmetry in Heq.
      change (last (b :: rest) = Some a) in Heq. apply last_Some in Heq as [l' Ez].
      rewrite Ez. set_solver. }
    eexists. split; [done|]. split_and!; [by apply lseg_delete|done|done|by apply num_pred].
Qed.

Lemma SortedRemove_nil h l ls :
  List_repr h l ls [] -> List_SortedRemove h l = Ok (None, h, l) /\ ls = [] /\ l_first l = None.
Proof.
  intros (Hs & _). destruct ls; [|done]. simpl in Hs. unfold List_SortedRemove.
  by rewrite Hs.
Qed.

Lemma List_SortedRemove_repr h l ls xs :
  List_repr h l ls xs ->
  exists h' l' ls',
    List_SortedRemove h l = Ok (fst <$> sl_SortedRemove xs, h', l')
    /\ List_repr h' l' ls' (default [] (snd <$> sl_SortedRemove xs))
    /\ framed h h' ls ls'.
Proof.
  intros Hr. destruct xs as [|[k it] xs].
  - destruct (SortedRemove_nil _ _ _ Hr) as (-> & _). exists h, l, ls.
    split_and!; [done|done|]. by apply framed_sub.
  - destruct ls as [|a rest]; [by destruct Hr|].
    destruct (SortedRemove_cons _ _ _ _ _ _ _ Hr) as (l' & -> & Hr').
    exists (delete a h), l', rest. split_and!; [done|done|].
    apply framed_sub; [set_solver|]. intros q Hq. apply lookup_delete_ne. set_solver.
Qed.

(** The last element of a list that ends with [a :: rest]. *)
Lemma last_replace (pre : list loc) prev a rest :
  last (pre ++ [prev; a] ++ rest) = match rest with [] => Some a | _ => last rest end.
Proof.
  destruct rest as [|b rest].
  - rewrite app_nil_r. change [prev; a] with ([prev] ++ [a]).
    by rewrite (assoc_L (++)), last_snoc.
  - destruct (exists_last (l := b :: rest)) as (r & z & Hr); [done|].
    rewrite Hr, !(assoc_L (++)), !last_snoc. done.
Qed.

(** Unlinking the element at [a] behind [prev], as the loop does it. *)
Lemma unlink_repr h l prev kp ip pre xp a ka ia ls xs nx :
  lseg h (l_first l) pre xp (Some prev) -> lseg h nx ls xs None ->
  length pre = length xp ->
  NoDup (pre ++ prev :: a :: ls) -> l_last l = last (pre ++ prev :: a :: ls) ->
  l_num l = i32 (Z.of_nat (length (xp ++ (kp, ip) :: (ka, ia) :: xs))) ->
  List_repr (delete a (<[prev := mkElement nx kp ip]> h))
    (mkList (l_first l) (match nx with None => Some prev | Some _ => l_last l end)
       (i32 (l_num l - 1)))
    (pre ++ prev :: ls) (xp ++ (kp, ip) :: xs).
Proof.
  intros Hpre Hrest Hlen Hnd Hl Hn.
  apply NoDup_app in Hnd as (Hnp & Hdis & Hn2).
  apply NoDup_cons in Hn2 as [Hnprev Hn2]. apply NoDup_cons in Hn2 as [Hna Hn2].
  split_and!; simpl.
  - apply lseg_app; [done|]. exists (Some prev). split.
    { apply lseg_delete; [set_solver|]. apply lseg_insert; [set_solver|done]. }
    split; [done|]. exists nx.
    rewrite lookup_delete_ne, lookup_insert_eq by set_solver. split; [done|].
    apply lseg_delete; [done|]. apply lseg_insert; [set_solver|done].
  - apply NoDup_app. split_and!; [done|set_solver|]. constructor; [set_solver|done].
  - rewrite Hl. change (pre ++ prev :: a :: ls) with (pre ++ [prev; a] ++ ls).
    rewrite last_replace. destruct ls as [|b ls], xs as [|[] ?]; simpl in Hrest; try done.
    + subst nx. by rewrite last_snoc.
    + destruct Hrest as (-> & _).
      destruct (exists_last (l := b :: ls)) as (r & w & Hr); [done|].
      rewrite Hr, app_comm_cons, (assoc_L (++)), !last_snoc. done.
  - apply num_pred. rewrite Hn, !length_app. simpl. do 2 f_equal. lia.
Qed.

Lemma RemoveItem_loop_spec fuel h l item prev kp ip pre xp ls xs :
  let p := match ls with [] => None | a :: _ => Some a end in
  lseg h (l_first l) (pre ++ prev :: ls) (xp ++ (kp, ip) :: xs) None ->
  length pre = length xp ->
  NoDup (pre ++ prev :: ls) -> l_last l = last (pre ++ prev :: ls) ->
  l_num l = i32 (Z.of_nat (length (xp ++ (kp, ip) :: xs))) -> (length ls < fuel)%nat ->
  match sl_RemoveItem item xs with
  | None => RemoveItem_loop fuel item h prev p l = Err AssertFailed
  | Some ys => exists h' l' ls', RemoveItem_loop fuel item h prev p l = Ok (h', l')
      /\ List_repr h' l' ls' (xp ++ (kp, ip) :: ys)
      /\ framed h h' (pre ++ prev :: ls) ls'
  end.
Proof.
  revert prev kp ip pre xp ls xs.
  induction fuel as [|fuel IH]; intros prev kp ip pre xp ls xs p Hs Hlen Hnd Hl Hn Hfuel; [lia|].
  pose proof Hs as Hs0. apply lseg_app in Hs0 as (r & Hpre & -> & nx & Hprev & Hrest); [|done].
  destruct ls as [|a ls], xs as [|[ka ia] xs]; simpl in Hrest; try done.
  destruct Hrest as (-> & nx' & Ha & Hrest). subst p. cbn [RemoveItem_loop].
  rewrite Ha. simpl. case_decide as Hit.
  - rewrite (store_next_Ok _ _ _ _ Hprev). simpl. eexists _, _, (pre ++ prev :: ls).
    split; [done|]. split; [by eapply unlink_repr|].
    apply framed_sub; [set_solver|]. intros q Hq. rewrite lookup_delete_ne, lookup_insert_ne by set_solver. done.
  - assert (Hassoc : pre ++ prev :: a :: ls = (pre ++ [prev]) ++ a :: ls)
      by (by rewrite <-(assoc_L (++))).
    assert (Hxassoc : forall zs, xp ++ (kp, ip) :: (ka, ia) :: zs = (xp ++ [(kp, ip)]) ++ (ka, ia) :: zs)
      by (intros; by rewrite <-(assoc_L (++))).
    specialize (IH a ka ia (pre ++ [prev]) (xp ++ [(kp, ip)]) ls xs).
    rewrite <-Hassoc, <-Hxassoc in IH. cbn zeta in IH.
    specialize (IH Hs ltac:(rewrite !length_app, Hlen; done) Hnd Hl Hn ltac:(simpl in Hfuel; lia)).
    replace nx' with (match ls with [] => None | b :: _ => Some b end)
      by (destruct ls, xs as [|[] ?]; simpl in Hrest; intuition congruence).
    destruct (sl_RemoveItem item xs) as [ys|]; simpl; [|done].
    destruct IH as (h' & l' & ls' & -> & Hr' & Hf). exists h', l', ls'.
    rewrite Hxassoc. eauto.
Qed.

Lemma List_RemoveItem_repr item h l ls xs :
  List_repr h l ls xs -> xs <> [] ->
  match sl_RemoveItem item xs with
  | None => List_RemoveItem item h l = Err AssertFailed
  | Some ys => exists h' l' ls', List_RemoveItem item h l = Ok (h', l')
      /\ List_repr h' l' ls' ys /\ framed h h' ls ls'
  end.
Proof.
  intros Hr Hne. unfold List_RemoveItem.
  destruct (l_first l) as [a|] eqn:Ef; cycle 1.
  { destruct Hr as (Hs & _). rewrite Ef in Hs. by apply lseg_null_nil in Hs as (_ & ? & _). }
  destruct (List_repr_cons _ _ _ _ _ Hr Ef) as (k & it & rest & xs' & -> & -> & nx & Ha & Hrest).
  simpl. rewrite Ha. simpl. case_decide as Hit.
  - destruct (List_SortedRemove_repr _ _ _ _ Hr) as (h' & l' & ls' & Hrm & Hr' & Hf).
    unfold List_Remove. rewrite Hrm. simpl in *. rewrite bool_decide_true by done. simpl.
    eauto 6.
  - destruct Hr as (Hs & Hnd & Hl & Hn).
    pose proof (RemoveItem_loop_spec (S (size h)) h l item a k it [] [] rest xs' Hs eq_refl Hnd Hl Hn)
      as Hloop. cbn zeta in Hloop.
    replace (match rest with [] => None | b :: _ => Some b end) with nx in Hloop
      by (destruct rest, xs' as [|[] ?]; simpl in Hrest; intuition congruence).
    pose proof (lseg_size _ _ _ _ _ Hs Hnd) as Hsz. simpl in Hsz.
    specialize (Hloop ltac:(lia)).
    destruct (sl_RemoveItem item xs') as [ys|]; simpl in *; done.
Qed.

(** ** Destruction and iteration *)

Lemma List_delete_loop_spec fuel h l ls xs :
  List_repr h l ls xs -> Forall (fun x => x.2 <> 0) xs -> (length ls < fuel)%nat ->
  exists h' l', List_delete_loop fuel h l = Ok (h', l') /\ List_repr h' l' [] []
    /\ (forall p, h' !! p = if decide (p ∈ ls) then None else h !! p).
Proof.
  revert h l ls xs. induction fuel as [|fuel IH]; intros h l ls xs Hr Hnz Hfuel; [lia|].
  cbn [List_delete_loop]. unfold List_Remove. destruct xs as [|[k it] xs].
  - destruct (SortedRemove_nil _ _ _ Hr) as (-> & -> & _). simpl.
    exists h, l. split_and!; [done|done|]. intros p. simpl. done.
  - destruct ls as [|a rest]; [by destruct Hr|].
    destruct (SortedRemove_cons _ _ _ _ _ _ _ Hr) as (l' & -> & Hr'). simpl.
    inversion Hnz as [|? ? Hit Hnz']; subst. simpl in Hit. rewrite decide_False by done.
    destruct (IH _ _ _ _ Hr' Hnz') as (h' & l2 & -> & Hr2 & Hh); [simpl in Hfuel; lia|].
    exists h', l2. split_and!; [done|done|]. intros p. rewrite Hh.
    destruct (decide (p = a)) as [->|Hpa].
    + rewrite lookup_delete_eq. do 2 case_decide; set_solver.
    + rewrite lookup_delete_ne by done. do 2 case_decide; set_solver.
Qed.

Lemma Mapcar_loop_spec {S} fuel (func : Z -> S -> result S) h p ls xs s :
  lseg h p ls xs None -> (length ls < fuel)%nat ->
  Mapcar_loop fuel func h p s = result_fold func xs.*2 s.
Proof.
  revert p ls xs s. induction fuel as [|fuel IH]; intros p ls xs s Hs Hfuel; [lia|].
  cbn [Mapcar_loop]. destruct ls as [|a ls], xs as [|[k it] xs]; simpl in Hs; try done.
  - by subst.
  - destruct Hs as (-> & nx & Ha & Hs). rewrite Ha. simpl.
    destruct (func it s) as [s'|]; simpl; [|done]. eapply IH; [done|]. simpl in Hfuel. lia.
Qed.

(** ** Refinement of the list interface *)

(** The calls a client can make on one list. *)
Inductive list_call :=
  | CallAppend (item : Z)
  | CallPrepend (item : Z)
  | CallSortedInsert (item key : Z)
  | CallSortedRemove
  | CallRemoveItem (item : Z).

(** One call on the pointer structure; the output is what [SortedRemove] returned. *)
Definition list_exec (c : list_call) (h : heap) (l : CList)
    : result (option (Z * Z) * (heap * CList)) :=
  match c with
  | CallAppend it => s ← List_Append it h l; Ok (None, s)
  | CallPrepend it => s ← List_Prepend it h l; Ok (None, s)
  | CallSortedInsert it k => s ← List_SortedInsert it k h l; Ok (None, s)
  | CallSortedRemove => '(r, h, l) ← List_SortedRemove h l; Ok (r, (h, l))
  | CallRemoveItem it => s ← List_RemoveItem it h l; Ok (None, s)
  end.

(** The same call on the sequence.  Removing an item from an empty list dereferences
    the NULL [first]; removing an absent item fails the [ASSERT]. *)
Definition list_spec (c : list_call) (xs : list (Z * Z))
    : result (option (Z * Z) * list (Z * Z)) :=
  match c with
  | CallAppend it => Ok (None, sl_Append it xs)
  | CallPrepend it => Ok (None, sl_Prepend it xs)
  | CallSortedInsert it k => Ok (None, sl_SortedInsert it k xs)
  | CallSortedRemove =>
      match sl_SortedRemove xs with
      | None => Ok (None, xs)
      | Some (x, rest) => Ok (Some x, rest)
      end
  | CallRemoveItem it =>
      match xs with
      | [] => Err MemFault
      | _ => match sl_RemoveItem it xs with
             | None => Err AssertFailed
             | Some ys => Ok (None, ys)
             end
      end
  end.

Lemma list_exec_refines c h l ls xs :
  List_repr h l ls xs ->
  match list_spec c xs with
  | Err e => list_exec c h l = Err e
  | Ok (o, ys) => exists h' l' ls', list_exec c h l = Ok (o, (h', l'))
      /\ List_repr h' l' ls' ys /\ framed h h' ls ls'
  end.
Proof.
  intros Hr. destruct c as [it|it|it k| |it]; simpl.
  - destruct (List_Append_repr it _ _ _ _ Hr) as (h' & l' & ls' & -> & ? & ?). eauto 7.
  - destruct (List_Prepend_repr it _ _ _ _ Hr) as (h' & l' & ls' & -> & ? & ?). eauto 7.
  - destruct (List_SortedInsert_repr it k _ _ _ _ Hr) as (h' & l' & ls' & -> & ? & ?). eauto 7.
  - destruct (List_SortedRemove_repr _ _ _ _ Hr) as (h' & l' & ls' & -> & ? & ?).
    destruct xs as [|x xs]; simpl in *; eauto 8.
  - destruct xs as [|x xs].
    + destruct (SortedRemove_nil _ _ _ Hr) as (_ & _ & Hf). unfold List_RemoveItem.
      by rewrite Hf.
    + pose proof (List_RemoveItem_repr it _ _ _ _ Hr ltac:(done)) as Hrm.
      destruct (sl_RemoveItem it (x :: xs)); [|by rewrite Hrm].
      destruct Hrm as (h' & l' & ls' & -> & ? & ?). eauto 8.
Qed.

(** C25.  The linked list of list.cc implements the sequence contract of list.h: for every
    sequence of Append, Prepend, SortedInsert, SortedRemove and Remove(item) calls, the
    pointer code returns the same values and the same errors as the sequence of
    (key, item) pairs, ends in a well-formed list holding that sequence, and changes no
    element outside the list. *)
Theorem list_refines_sequence (cs : list list_call) (h : heap) (l : CList) ls xs :
  List_repr h l ls xs ->
  match run_ops list_spec cs xs with
  | Err e => run_ops (fun c '(h, l) => list_exec c h l) cs (h, l) = Err e
  | Ok (os, ys) => exists h' l' ls',
      run_ops (fun c '(h, l) => list_exec c h l) cs (h, l) = Ok (os, (h', l'))
      /\ List_repr h' l' ls' ys
      /\ forall p, p ∉ ls -> is_Some (h !! p) -> h' !! p = h !! p
  end.
Proof.
  revert h l ls xs. induction cs as [|c cs IH]; intros h l ls xs Hr.
  { simpl. exists h, l, ls. auto. }
  pose proof (list_exec_refines c _ _ _ _ Hr) as Hc. simpl.
  destruct (list_spec c xs) as [[o ys]|e]; simpl; [|by rewrite Hc].
  destruct Hc as (h1 & l1 & ls1 & -> & Hr1 & Hf1). simpl.
  specialize (IH _ _ _ _ Hr1).
  destruct (run_ops list_spec cs ys) as [[os zs]|e]; simpl in *; [|by rewrite IH].
  destruct IH as (h2 & l2 & ls2 & -> & Hr2 & Hf2). exists h2, l2, ls2.
  split_and!; [done|done|]. destruct Hf1 as [Hin1 Hout1]. intros p Hp [e He].
  assert (p ∉ ls1) by (intros Hp1; destruct (Hin1 p Hp1); congruence).
  rewrite Hf2; [apply Hout1; set_solver|done|]. rewrite Hout1 by set_solver. eauto.
Qed.

Lemma list_refines_sequence_witness :
  exists h' l' ls',
    run_ops (fun c '(h, l) => list_exec c h l)
      [CallSortedInsert 10 5; CallSortedInsert 11 3; CallSortedInsert 12 5; CallAppend 13;
       CallSortedRemove; CallRemoveItem 12] (∅, List_new)
    = Ok ([None; None; None; None; Some (3, 11); None], (h', l'))
    /\ List_repr h' l' ls' [(5, 10); (0, 13)]
    /\ forall p, p ∉ [] -> is_Some ((∅ : heap) !! p) -> h' !! p = (∅ : heap) !! p.
Proof.
  exact (list_refines_sequence
    [CallSortedInsert 10 5; CallSortedInsert 11 3; CallSortedInsert 12 5; CallAppend 13;
     CallSortedRemove; CallRemoveItem 12] ∅ List_new [] [] (List_repr_empty ∅)).
Defined.

(** [List::SortedInsert] on a list in increasing key order keeps it in increasing
    order, and puts the new element behind every element whose key is not larger: of two
    items with the same key the one inserted first is removed first. *)
Theorem SortedInsert_stable item key (h : heap) (l : CList) ls xs :
  List_repr h l ls xs -> sl_sorted xs ->
  exists h' l' ls' pre post,
    List_SortedInsert item key h l = Ok (h', l')
    /\ List_repr h' l' ls' (pre ++ (key, item) :: post)
    /\ xs = pre ++ post /\ sl_sorted (pre ++ (key, item) :: post)
    /\ Forall (fun x => x.1 <= key) pre /\ Forall (fun x => key < x.1) post.
Proof.
  intros Hr Hsorted.
  destruct (List_SortedInsert_repr item key _ _ _ _ Hr) as (h' & l' & ls' & He & Hr' & _).
  destruct (sl_SortedInsert_split item key xs Hsorted) as (pre & post & Hxs & Heq & ? & ?).
  exists h', l', ls', pre, post. rewrite <-Heq. auto 8 with nachos.
Qed.

Lemma SortedInsert_stable_witness :
  exists h' l' ls' pre post,
    List_SortedInsert 7 20 ∅ List_new = Ok (h', l')
    /\ List_repr h' l' ls' (pre ++ (20, 7) :: post)
    /\ [] = pre ++ post /\ sl_sorted (pre ++ (20, 7) :: post)
    /\ Forall (fun x => x.1 <= 20) pre /\ Forall (fun x => 20 < x.1) post.
Proof.
  apply (SortedInsert_stable 7 20 ∅ List_new [] []).
  - apply List_repr_empty.
  - constructor.
Defined.

(** [List::~List] on a list with no NULL item terminates and frees every element of
    the list and no other element. *)
Theorem List_delete_frees (h : heap) (l : CList) ls xs :
  List_repr h l ls xs -> Forall (fun x => x.2 <> 0) xs ->
  exists h' l', List_delete h l = Ok (h', l') /\ List_repr h' l' [] []
    /\ forall p, h' !! p = if decide (p ∈ ls) then None else h !! p.
Proof.
  intros Hr Hnz. apply (List_delete_loop_spec _ _ _ _ _ Hr Hnz).
  destruct Hr as (Hs & Hnd & _). pose proof (lseg_size _ _ _ _ _ Hs Hnd). lia.
Qed.

Lemma List_delete_frees_witness :
  let h := {[1%positive := mkElement (Some 2%positive) 0 41;
             2%positive := mkElement None 0 42; 3%positive := mkElement None 0 43]} : heap in
  exists h' l', List_delete h (mkList (Some 1%positive) (Some 2%positive) 2) = Ok (h', l')
    /\ List_repr h' l' [] []
    /\ forall p, h' !! p = if decide (p ∈ [1%positive; 2%positive]) then None else h !! p.
Proof.
  apply (List_delete_frees _ _ [1%positive; 2%positive] [(0, 41); (0, 42)]).
  - split_and!; [|by apply NoDup_cons; split; [set_solver|apply NoDup_singleton]|done|done].
    split; [done|]. exists (Some 2%positive). split; [done|]. split; [done|]. exists None. done.
  - repeat constructor; simpl; lia.
Defined.

(** [List::Mapcar] applies the function to the items in list order, each once. *)
Lemma List_Mapcar_spec {S} (func : Z -> S -> result S) h l ls xs s :
  List_repr h l ls xs -> List_Mapcar func h l s = result_fold func xs.*2 s.
Proof.
  intros (Hs & Hnd & _). unfold List_Mapcar. eapply Mapcar_loop_spec; [done|].
  pose proof (lseg_size _ _ _ _ _ Hs Hnd). lia.
Qed.
