(* ===== verification/BitMap.v ===== *)
(** * userprog/bitmap.cc: allocation bitmaps

    A bitmap of [numBits] bits kept in an array of 32-bit words.  The file system uses one
    for the disk sectors and the machine one for the physical pages.  [bm_bit] is the bit
    as the caller sees it and [bm_free] the ascending list of the clear bits; the lemmas
    show what every operation does to them, and that no operation leaves the word array. *)

From S2P Require Import Prelude.

Definition BitsInByte : Z := 8.
Definition BitsInWord : Z := 32.

Record BitMap := mkBitMap { bm_numBits : Z; bm_numWords : Z; bm_map : list Z }.

(** [map[which / BitsInWord]]. *)
Definition bm_word (bm : BitMap) (which : Z) : result Z :=
  deref (bm_map bm !! Z.to_nat (which `quot` BitsInWord)).

Definition bm_set_word (bm : BitMap) (which w : Z) : BitMap :=
  mkBitMap (bm_numBits bm) (bm_numWords bm)
    (<[Z.to_nat (which `quot` BitsInWord) := w]> (bm_map bm)).

(** [1 << (which % BitsInWord)], as the unsigned word it is combined with. *)
Definition bm_mask (which : Z) : Z := u32 (Z.shiftl 1 (which `rem` BitsInWord)).

Definition bm_in_range (bm : BitMap) (which : Z) : bool :=
  (0 <=? which) && (which <? bm_numBits bm).

Definition BitMap_Mark (bm : BitMap) (which : Z) : result BitMap :=
  ASSERT (bm_in_range bm which) ;;
  w ← bm_word bm which;
  Ok (bm_set_word bm which (Z.lor w (bm_mask which))).

Definition BitMap_Clear (bm : BitMap) (which : Z) : result BitMap :=
  ASSERT (bm_in_range bm which) ;;
  w ← bm_word bm which;
  Ok (bm_set_word bm which (Z.land w (u32 (Z.lnot (bm_mask which))))).

Definition BitMap_Test (bm : BitMap) (which : Z) : result bool :=
  ASSERT (bm_in_range bm which) ;;
  w ← bm_word bm which;
  Ok (negb (Z.land w (bm_mask which) =? 0)).

(** The constructor: [new unsigned int[numWords]] does not initialise the words
    ([garbage]), then every bit is cleared. *)
Definition BitMap_new (garbage : list Z) (nitems : Z) : result BitMap :=
  let numWords := divRoundUp nitems BitsInWord in
  let bm := mkBitMap nitems numWords (take (Z.to_nat numWords) garbage) in
  result_fold (fun i bm => BitMap_Clear bm i) (seqZ 0 nitems) bm.

Fixpoint Find_loop (bm : BitMap) (idxs : list Z) : result (Z * BitMap) :=
  match idxs with
  | [] => Ok (-1, bm)
  | i :: idxs =>
      t ← BitMap_Test bm i;
      if negb t then bm ← BitMap_Mark bm i; Ok (i, bm) else Find_loop bm idxs
  end.

Definition BitMap_Find (bm : BitMap) : result (Z * BitMap) :=
  Find_loop bm (seqZ 0 (bm_numBits bm)).

Definition BitMap_NumClear (bm : BitMap) : result Z :=
  result_fold (fun i count => t ← BitMap_Test bm i; Ok (if negb t then i32 (count + 1) else count))
    (seqZ 0 (bm_numBits bm)) 0.

(** [BitMap::Print] lists the bits that are set. *)
Definition BitMap_Print (bm : BitMap) : result (list Z) :=
  result_fold (fun i out => t ← BitMap_Test bm i; Ok (if (t : bool) then out ++ [i] else out))
    (seqZ 0 (bm_numBits bm)) [].

(** ** Well-formedness and the abstract view *)

Definition bm_wf (bm : BitMap) : Prop :=
  0 <= bm_numBits bm /\ bm_numWords bm = divRoundUp (bm_numBits bm) BitsInWord
  /\ Z.of_nat (length (bm_map bm)) = bm_numWords bm /\ Forall in_u32 (bm_map bm).

Definition bm_bit (bm : BitMap) (i : Z) : bool :=
  match bm_map bm !! Z.to_nat (i `div` 32) with
  | Some w => Z.testbit w (i `mod` 32)
  | None => false
  end.

(** The clear bits in ascending order. *)
Definition bm_free (bm : BitMap) : list Z :=
  filter (fun i => bm_bit bm i = false) (seqZ 0 (bm_numBits bm)).

Lemma bm_mask_pow which : 0 <= which -> bm_mask which = 2 ^ (which `mod` 32).
Proof.
  intros. unfold bm_mask, BitsInWord. rewrite Z.rem_mod_nonneg by lia.
  pose proof (Z.mod_pos_bound which 32). rewrite Z.shiftl_1_l.
  apply u32_id. split; [lia|]. apply Z.pow_lt_mono_r; lia.
Qed.

Lemma testbit_u32 z j : 0 <= j -> Z.testbit (u32 z) j = (j <? 32) && Z.testbit z j.
Proof.
  intros. unfold u32. destruct (Z.ltb_spec j 32); simpl.
  - apply Z.mod_pow2_bits_low. lia.
  - apply Z.mod_pow2_bits_high. lia.
Qed.

Lemma in_u32_bits z : (0 <= z /\ forall j, 32 <= j -> Z.testbit z j = false) <-> in_u32 z.
Proof.
  split.
  - intros [Hz Hb]. assert (u32 z = z) as <-; [|apply u32_range].
    apply Z.bits_inj'. intros j Hj. rewrite testbit_u32 by done.
    destruct (Z.ltb_spec j 32); [done|]. by rewrite Hb.
  - intros Hz. split; [unfold in_u32 in Hz; lia|]. intros j Hj. rewrite <-(u32_id z Hz).
    rewrite testbit_u32 by lia. destruct (Z.ltb_spec j 32); [lia|done].
Qed.

Lemma lor_u32 a b : in_u32 a -> in_u32 b -> in_u32 (Z.lor a b).
Proof.
  rewrite <-!in_u32_bits. intros [? Ha] [? Hb]. split; [by apply Z.lor_nonneg|].
  intros j Hj. by rewrite Z.lor_spec, Ha, Hb.
Qed.

Lemma land_u32 a b : in_u32 a -> in_u32 (Z.land a b).
Proof.
  rewrite <-!in_u32_bits. intros [? Ha]. split; [apply Z.land_nonneg; by left|].
  intros j Hj. by rewrite Z.land_spec, Ha.
Qed.

Lemma bm_word_Ok bm i :
  bm_wf bm -> 0 <= i < bm_numBits bm ->
  exists w, bm_word bm i = Ok w /\ bm_map bm !! Z.to_nat (i `div` 32) = Some w /\ in_u32 w.
Proof.
  intros (_ & Hn & Hlen & Hw) Hi. unfold bm_word, BitsInWord.
  rewrite Z.quot_div_nonneg by lia.
  pose proof (divRoundUp_bounds (bm_numBits bm) BitsInWord) as Hb. unfold BitsInWord in *.
  destruct (lookup_lt_is_Some_2 (bm_map bm) (Z.to_nat (i `div` 32))) as [w Hl].
  { apply Nat2Z.inj_lt. rewrite Hlen, Hn. Z.div_mod_to_equations. lia. }
  exists w. rewrite Hl. split_and!; [done|done|]. by eapply Forall_lookup_1 in Hw.
Qed.

(** Every bit of the array after the word of bit [which] is replaced. *)
Lemma bm_bit_set_word bm which w' j :
  0 <= which -> 0 <= j -> is_Some (bm_map bm !! Z.to_nat (which `div` 32)) ->
  bm_bit (bm_set_word bm which w') j =
  if decide (j `div` 32 = which `div` 32) then Z.testbit w' (j `mod` 32) else bm_bit bm j.
Proof.
  intros Hw Hj [w Hl]. unfold bm_bit, bm_set_word, BitsInWord. simpl.
  rewrite Z.quot_div_nonneg by lia. apply lookup_lt_Some in Hl.
  case_decide as Hd.
  - rewrite Hd, list_lookup_insert_eq by done. done.
  - rewrite list_lookup_insert_ne; [done|]. intros Heq.
    apply Z2Nat.inj in Heq; [lia|by apply Z.div_pos|by apply Z.div_pos].
Qed.

Lemma bm_wf_set_word bm which w :
  bm_wf bm -> in_u32 w -> bm_wf (bm_set_word bm which w).
Proof.
  intros (? & ? & ? & Hall) ?. split_and!; simpl; auto.
  - by rewrite length_insert.
  - by apply Forall_insert.
Qed.

Lemma same_word_mod i j :
  j `div` 32 = i `div` 32 -> (j `mod` 32 = i `mod` 32 <-> j = i).
Proof. intros. split; [|by intros ->]. Z.div_mod_to_equations. lia. Qed.

Lemma bm_in_range_true bm i : 0 <= i < bm_numBits bm -> bm_in_range bm i = true.
Proof. intros. unfold bm_in_range. apply andb_true_intro. split; lia. Qed.

Lemma mask_u32 i : 0 <= i -> in_u32 (bm_mask i).
Proof. intros. unfold bm_mask. apply u32_range. Qed.

Lemma BitMap_Mark_spec bm i :
  bm_wf bm -> 0 <= i < bm_numBits bm ->
  exists bm', BitMap_Mark bm i = Ok bm' /\ bm_wf bm' /\ bm_numBits bm' = bm_numBits bm
    /\ forall j, 0 <= j -> bm_bit bm' j = if decide (j = i) then true else bm_bit bm j.
Proof.
  intros Hwf Hi. destruct (bm_word_Ok bm i Hwf Hi) as (w & Hw & Hl & Hu).
  unfold BitMap_Mark. rewrite bm_in_range_true by done. simpl. rewrite Hw. simpl.
  eexists. split; [done|]. split_and!; [|done|].
  - apply bm_wf_set_word; [done|]. apply lor_u32; [done|apply mask_u32; lia].
  - intros j Hj. rewrite bm_bit_set_word by (eauto; lia).
    rewrite bm_mask_pow, Z.lor_spec, Z.pow2_bits_eqb by (try apply Z.mod_pos_bound; lia).
    case_decide as Hd.
    + pose proof (same_word_mod _ _ Hd) as Hsm.
      assert (Hj' : bm_bit bm j = Z.testbit w (j `mod` 32)) by (unfold bm_bit; by rewrite Hd, Hl).
      destruct (Z.eqb_spec (i `mod` 32) (j `mod` 32)) as [He|He].
      * rewrite decide_True by (apply Hsm; done). by rewrite orb_true_r.
      * rewrite decide_False by (intros ->; done). by rewrite orb_false_r, Hj'.
    + rewrite decide_False; [done|]. by intros ->.
Qed.

Lemma BitMap_Clear_spec bm i :
  bm_wf bm -> 0 <= i < bm_numBits bm ->
  exists bm', BitMap_Clear bm i = Ok bm' /\ bm_wf bm' /\ bm_numBits bm' = bm_numBits bm
    /\ forall j, 0 <= j -> bm_bit bm' j = if decide (j = i) then false else bm_bit bm j.
Proof.
  intros Hwf Hi. destruct (bm_word_Ok bm i Hwf Hi) as (w & Hw & Hl & Hu).
  unfold BitMap_Clear. rewrite bm_in_range_true by done. simpl. rewrite Hw. simpl.
  eexists. split; [done|]. split_and!; [|done|].
  - apply bm_wf_set_word; [done|]. by apply land_u32.
  - intros j Hj. rewrite bm_bit_set_word by (eauto; lia).
    pose proof (Z.mod_pos_bound j 32 ltac:(lia)) as Hm.
    rewrite bm_mask_pow, Z.land_spec, testbit_u32, Z.lnot_spec, Z.pow2_bits_eqb
      by (try apply Z.mod_pos_bound; lia).
    case_decide as Hd.
    + pose proof (same_word_mod _ _ Hd) as Hsm.
      assert (Hj' : bm_bit bm j = Z.testbit w (j `mod` 32)) by (unfold bm_bit; by rewrite Hd, Hl).
      replace (j `mod` 32 <? 32) with true by (symmetry; lia).
      destruct (Z.eqb_spec (i `mod` 32) (j `mod` 32)) as [He|He]; simpl.
      * rewrite decide_True by (apply Hsm; done). by rewrite andb_false_r.
      * rewrite decide_False by (intros ->; done). by rewrite andb_true_r, Hj'.
    + rewrite decide_False; [done|]. by intros ->.
Qed.

Lemma land_pow2_zero w k : 0 <= k -> negb (Z.land w (2 ^ k) =? 0) = Z.testbit w k.
Proof.
  intros Hk. destruct (Z.testbit w k) eqn:Ht.
  - apply negb_true_iff, Z.eqb_neq. intros He.
    assert (Hb : Z.testbit (Z.land w (2 ^ k)) k = true)
      by (rewrite Z.land_spec, Ht, Z.pow2_bits_true; done).
    by rewrite He, Z.bits_0 in Hb.
  - apply negb_false_iff, Z.eqb_eq. apply Z.bits_inj'. intros j Hj.
    rewrite Z.land_spec, Z.pow2_bits_eqb, Z.bits_0 by done.
    destruct (Z.eqb_spec k j) as [->|]; [by rewrite Ht|by rewrite andb_false_r].
Qed.

Lemma BitMap_Test_spec bm i :
  bm_wf bm -> 0 <= i < bm_numBits bm -> BitMap_Test bm i = Ok (bm_bit bm i).
Proof.
  intros Hwf Hi. destruct (bm_word_Ok bm i Hwf Hi) as (w & Hw & Hl & Hu).
  unfold BitMap_Test. rewrite bm_in_range_true by done. simpl. rewrite Hw. simpl.
  f_equal. rewrite bm_mask_pow, land_pow2_zero by (try apply Z.mod_pos_bound; lia).
  unfold bm_bit. by rewrite Hl.
Qed.

(** ** Search and counting *)

Lemma seqZ_range n : Forall (fun i => 0 <= i < n) (seqZ 0 n).
Proof. apply Forall_forall. intros i Hi. apply elem_of_seqZ in Hi. lia. Qed.

Lemma bm_free_elem bm i : i ∈ bm_free bm <-> (0 <= i < bm_numBits bm /\ bm_bit bm i = false).
Proof.
  unfold bm_free. rewrite list_elem_of_filter, elem_of_seqZ. naive_solver lia.
Qed.

Lemma bm_free_NoDup bm : NoDup (bm_free bm).
Proof. apply NoDup_filter, NoDup_seqZ. Qed.

Lemma bm_free_length bm : 0 <= bm_numBits bm -> Z.of_nat (length (bm_free bm)) <= bm_numBits bm.
Proof.
  intros. unfold bm_free.
  pose proof (length_filter (fun i => bm_bit bm i = false) (seqZ 0 (bm_numBits bm))).
  rewrite length_seqZ in *. lia.
Qed.

(** Marking a bit removes it from the free list, clearing it puts it back. *)
Lemma bm_free_update bm bm' i b :
  bm_numBits bm' = bm_numBits bm ->
  (forall j, 0 <= j -> bm_bit bm' j = if decide (j = i) then b else bm_bit bm j) ->
  forall j, j ∈ bm_free bm' <->
    if decide (j = i) then b = false /\ 0 <= i < bm_numBits bm else j ∈ bm_free bm.
Proof.
  intros Hn Hb j. rewrite bm_free_elem, Hn. split.
  - intros [Hj Hf]. rewrite Hb in Hf by lia. destruct (decide (j = i)); subst; auto.
    by apply bm_free_elem.
  - case_decide as Hd.
    + subst. intros [-> Hi]. rewrite Hb by lia. by rewrite decide_True.
    + intros [Hj Hf]%bm_free_elem. rewrite Hb by lia. by rewrite decide_False.
Qed.

Lemma bm_free_mark bm bm' i :
  bm_numBits bm' = bm_numBits bm ->
  (forall j, 0 <= j -> bm_bit bm' j = if decide (j = i) then true else bm_bit bm j) ->
  bm_free bm' = filter (fun j => j <> i) (bm_free bm).
Proof.
  intros Hn Hb. unfold bm_free. rewrite Hn, list_filter_filter.
  apply filter_ext_in. intros j Hj. apply elem_of_seqZ in Hj.
  rewrite Hb by lia. case_decide; intuition congruence.
Qed.

Lemma filter_ne_head (i : Z) rest : NoDup (i :: rest) -> filter (fun j => j <> i) (i :: rest) = rest.
Proof.
  intros [Hi Hnd]%NoDup_cons. rewrite filter_cons_False by (intros Hne; by apply Hne).
  apply filter_all. apply Forall_forall. intros j Hj ->. done.
Qed.

Lemma Find_loop_spec bm idxs :
  bm_wf bm -> Forall (fun i => 0 <= i < bm_numBits bm) idxs ->
  Find_loop bm idxs =
  match filter (fun i => bm_bit bm i = false) idxs with
  | [] => Ok (-1, bm)
  | i :: _ => bm' ← BitMap_Mark bm i; Ok (i, bm')
  end.
Proof.
  intros Hwf. induction 1 as [|i idxs Hi Hall IH]; [done|]. cbn [Find_loop].
  rewrite BitMap_Test_spec by done. simpl. rewrite filter_cons.
  destruct (bm_bit bm i) eqn:Hb; simpl; [|done]. by rewrite IH.
Qed.

(** [Find] allocates the first free bit. *)
Lemma BitMap_Find_free bm :
  bm_wf bm ->
  match bm_free bm with
  | [] => BitMap_Find bm = Ok (-1, bm)
  | i :: rest => exists bm', BitMap_Find bm = Ok (i, bm') /\ bm_wf bm'
      /\ bm_numBits bm' = bm_numBits bm /\ bm_free bm' = rest
      /\ forall j, 0 <= j -> bm_bit bm' j = if decide (j = i) then true else bm_bit bm j
  end.
Proof.
  intros Hwf. unfold BitMap_Find. rewrite Find_loop_spec by (auto using seqZ_range).
  fold (bm_free bm). destruct (bm_free bm) as [|i rest] eqn:Hf; [done|].
  destruct (BitMap_Mark_spec bm i Hwf) as (bm' & -> & Hwf' & Hn & Hb).
  { apply bm_free_elem. rewrite Hf. set_solver. }
  exists bm'. split_and!; [done|done|done| |done].
  rewrite (bm_free_mark bm bm' i Hn Hb), Hf. apply filter_ne_head.
  rewrite <-Hf. apply bm_free_NoDup.
Qed.

(** Every bit below the first free one is set. *)
Lemma bm_free_below bm i rest j :
  bm_free bm = i :: rest -> 0 <= j < i -> j < bm_numBits bm -> bm_bit bm j = true.
Proof.
  intros He Hj Hn. destruct (bm_bit bm j) eqn:Hb; [done|exfalso].
  assert (Hin : j ∈ bm_free bm) by (apply bm_free_elem; split; [lia|done]).
  assert (Hs : StronglySorted Z.lt (bm_free bm)).
  { unfold bm_free. apply StronglySorted_filter, StronglySorted_seqZ. }
  rewrite He in Hin, Hs. inversion Hs as [|? ? _ Hall]; subst.
  apply elem_of_cons in Hin as [->|Hin]; [lia|].
  rewrite Forall_forall in Hall. specialize (Hall j Hin). lia.
Qed.

Lemma NumClear_fold bm idxs c :
  bm_wf bm -> Forall (fun i => 0 <= i < bm_numBits bm) idxs ->
  0 <= c -> c + Z.of_nat (length idxs) < 2 ^ 31 ->
  result_fold (fun i count => t ← BitMap_Test bm i; Ok (if negb t then i32 (count + 1) else count))
    idxs c = Ok (c + Z.of_nat (length (filter (fun i => bm_bit bm i = false) idxs))).
Proof.
  intros Hwf Hall. revert c. induction Hall as [|i idxs Hi _ IH]; intros c Hc Hlen.
  { simpl. f_equal. lia. }
  cbn [result_fold length] in *. rewrite BitMap_Test_spec by done. simpl.
  rewrite filter_cons. destruct (bm_bit bm i) eqn:Hb; simpl.
  - rewrite IH; [done|lia|lia].
  - rewrite i32_id by (unfold in_i32; lia). rewrite IH by lia. f_equal. lia.
Qed.

Lemma BitMap_NumClear_spec bm :
  bm_wf bm -> bm_numBits bm < 2 ^ 31 ->
  BitMap_NumClear bm = Ok (Z.of_nat (length (bm_free bm))).
Proof.
  intros Hwf Hn. unfold BitMap_NumClear, bm_free. rewrite NumClear_fold;
    [done|done|apply seqZ_range|lia|].
  rewrite length_seqZ. destruct Hwf. lia.
Qed.

Lemma Clear_fold bm idxs :
  bm_wf bm -> Forall (fun i => 0 <= i < bm_numBits bm) idxs ->
  exists bm', result_fold (fun i bm => BitMap_Clear bm i) idxs bm = Ok bm' /\ bm_wf bm'
    /\ bm_numBits bm' = bm_numBits bm
    /\ forall j, 0 <= j -> bm_bit bm' j = if decide (j ∈ idxs) then false else bm_bit bm j.
Proof.
  intros Hwf Hall. revert bm Hwf Hall. induction idxs as [|i idxs IH]; intros bm Hwf Hall.
  { exists bm. simpl. naive_solver. }
  apply Forall_cons in Hall as [Hi Hall]. simpl.
  destruct (BitMap_Clear_spec bm i Hwf Hi) as (bm1 & -> & Hwf1 & Hn1 & Hb1). simpl.
  destruct (IH bm1 Hwf1) as (bm2 & -> & Hwf2 & Hn2 & Hb2).
  { by rewrite Hn1. }
  exists bm2. split_and!; [done|done|congruence|]. intros j Hj. rewrite Hb2, Hb1 by done.
  repeat case_decide; set_solver.
Qed.

Lemma Print_fold bm idxs out :
  bm_wf bm -> Forall (fun i => 0 <= i < bm_numBits bm) idxs ->
  result_fold (fun i out => t ← BitMap_Test bm i; Ok (if (t : bool) then out ++ [i] else out))
    idxs out = Ok (out ++ filter (fun i => bm_bit bm i = true) idxs).
Proof.
  intros Hwf Hall. revert out. induction Hall as [|i idxs Hi _ IH]; intros out.
  { simpl. by rewrite app_nil_r. }
  cbn [result_fold]. rewrite BitMap_Test_spec by done. simpl. rewrite IH, filter_cons.
  destruct (bm_bit bm i); simpl; [by rewrite <-(assoc_L (++))|done].
Qed.

(** ** Properties *)

(** The bitmap is an array of independent bits: on a well-formed bitmap, [Mark],
    [Clear] and [Test] of a bit in range never leave the word array; [Mark] sets and
    [Clear] clears that bit and no other bit of the map, also when they share a word. *)
Theorem BitMap_bits (bm : BitMap) (i : Z) :
  bm_wf bm -> 0 <= i < bm_numBits bm ->
  BitMap_Test bm i = Ok (bm_bit bm i)
  /\ (exists bm', BitMap_Mark bm i = Ok bm' /\ bm_wf bm' /\ bm_numBits bm' = bm_numBits bm
       /\ forall j, 0 <= j < bm_numBits bm ->
            BitMap_Test bm' j = if decide (j = i) then Ok true else BitMap_Test bm j)
  /\ (exists bm', BitMap_Clear bm i = Ok bm' /\ bm_wf bm' /\ bm_numBits bm' = bm_numBits bm
       /\ forall j, 0 <= j < bm_numBits bm ->
            BitMap_Test bm' j = if decide (j = i) then Ok false else BitMap_Test bm j).
Proof.
  intros Hwf Hi. split; [by apply BitMap_Test_spec|].
  split.
  - destruct (BitMap_Mark_spec bm i Hwf Hi) as (bm' & He & Hwf' & Hn & Hb).
    exists bm'. split_and!; [done|done|done|]. intros j Hj.
    rewrite !BitMap_Test_spec, Hb by (done || lia || congruence). by case_decide.
  - destruct (BitMap_Clear_spec bm i Hwf Hi) as (bm' & He & Hwf' & Hn & Hb).
    exists bm'. split_and!; [done|done|done|]. intros j Hj.
    rewrite !BitMap_Test_spec, Hb by (done || lia || congruence). by case_decide.
Qed.

(** [Find] allocates the lowest clear bit: it returns -1 and changes nothing exactly
    when no bit is clear; otherwise it returns the first clear bit, that bit is set
    afterwards and leaves the free list, so that [NumClear] drops by one. *)
Theorem BitMap_Find_spec (bm : BitMap) :
  bm_wf bm -> bm_numBits bm < 2 ^ 31 ->
  match bm_free bm with
  | [] => BitMap_Find bm = Ok (-1, bm) /\ BitMap_NumClear bm = Ok 0
  | i :: rest => exists bm', BitMap_Find bm = Ok (i, bm') /\ bm_wf bm'
      /\ (forall j, 0 <= j < i -> bm_bit bm j = true) /\ bm_bit bm i = false
      /\ bm_bit bm' i = true /\ bm_free bm' = rest
      /\ BitMap_NumClear bm = Ok (Z.of_nat (length rest) + 1)
      /\ BitMap_NumClear bm' = Ok (Z.of_nat (length rest))
  end.
Proof.
  intros Hwf Hn. pose proof (BitMap_Find_free bm Hwf) as Hf.
  pose proof (BitMap_NumClear_spec bm Hwf Hn) as Hc.
  destruct (bm_free bm) as [|i rest] eqn:He; [by rewrite Hc|].
  destruct Hf as (bm' & Hfind & Hwf' & Hn' & Hrest & Hb). exists bm'.
  assert (Hi : i ∈ bm_free bm) by (rewrite He; set_solver).
  apply bm_free_elem in Hi as [Hi Hbi].
  split_and!; [done|done| |done| |done| |].
  - intros j Hj. apply (bm_free_below bm i rest); auto. lia.
  - rewrite Hb by lia. by rewrite decide_True.
  - rewrite Hc. f_equal. simpl. lia.
  - rewrite BitMap_NumClear_spec by (auto; lia). by rewrite Hrest.
Qed.

(** The constructor clears every bit whatever the allocated words contained. *)
Lemma BitMap_new_spec garbage n :
  0 <= n -> divRoundUp n BitsInWord <= Z.of_nat (length garbage) -> Forall in_u32 garbage ->
  exists bm, BitMap_new garbage n = Ok bm /\ bm_wf bm /\ bm_numBits bm = n
    /\ bm_free bm = seqZ 0 n.
Proof.
  intros Hn Hlen Hg. unfold BitMap_new.
  pose proof (divRoundUp_nonneg n BitsInWord ltac:(unfold BitsInWord; lia) Hn).
  edestruct (Clear_fold (mkBitMap n (divRoundUp n BitsInWord)
      (take (Z.to_nat (divRoundUp n BitsInWord)) garbage)) (seqZ 0 n))
    as (bm & -> & Hwf & Hnb & Hb).
  - split_and!; simpl; [done|done| |by apply Forall_take].
    rewrite length_take. lia.
  - apply seqZ_range.
  - exists bm. split_and!; [done|done|done|]. unfold bm_free. rewrite Hnb. simpl.
    apply filter_all. apply Forall_forall. intros i Hi. rewrite Hb.
    + by rewrite decide_True.
    + apply elem_of_seqZ in Hi. lia.
Qed.

Lemma bm_wf_example (n : Z) (ws : list Z) :
  bool_decide (0 <= n /\ Z.of_nat (length ws) = divRoundUp n BitsInWord) = true ->
  bool_decide (Forall in_u32 ws) = true ->
  bm_wf (mkBitMap n (divRoundUp n BitsInWord) ws).
Proof. intros [? ?]%bool_decide_eq_true_1 ?%bool_decide_eq_true_1. by split_and!. Qed.

Lemma BitMap_bits_witness :
  let bm := mkBitMap 40 (divRoundUp 40 BitsInWord) [5; 0] in
  BitMap_Test bm 33 = Ok false
  /\ (exists bm', BitMap_Mark bm 33 = Ok bm' /\ bm_wf bm' /\ bm_numBits bm' = 40
       /\ forall j, 0 <= j < 40 ->
            BitMap_Test bm' j = if decide (j = 33) then Ok true else BitMap_Test bm j)
  /\ (exists bm', BitMap_Clear bm 33 = Ok bm' /\ bm_wf bm' /\ bm_numBits bm' = 40
       /\ forall j, 0 <= j < 40 ->
            BitMap_Test bm' j = if decide (j = 33) then Ok false else BitMap_Test bm j).
Proof.
  apply (BitMap_bits (mkBitMap 40 (divRoundUp 40 BitsInWord) [5; 0]) 33).
  - by apply bm_wf_example.
  - simpl. lia.
Defined.

Lemma BitMap_Find_spec_witness :
  let bm := mkBitMap 3 (divRoundUp 3 BitsInWord) [5] in
  exists bm', BitMap_Find bm = Ok (1, bm') /\ bm_wf bm'
      /\ (forall j, 0 <= j < 1 -> bm_bit bm j = true) /\ bm_bit bm 1 = false
      /\ bm_bit bm' 1 = true /\ bm_free bm' = []
      /\ BitMap_NumClear bm = Ok 1 /\ BitMap_NumClear bm' = Ok 0.
Proof.
  exact (BitMap_Find_spec (mkBitMap 3 (divRoundUp 3 BitsInWord) [5])
    ltac:(by apply bm_wf_example) ltac:(simpl; lia)).
Defined.
