(* ===== verification/Disk.v ===== *)
(** * machine/disk.cc and the sector interface of filesys/synchdisk.cc

    The simulated disk: a UNIX file that starts with a magic number and holds
    [NumSectors] sectors of [SectorSize] bytes, the position of the head, and the track
    buffer.  A request transfers its sector at once and schedules the completion
    interrupt [ComputeLatency] ticks later.

    [SectorDevice] is what the file system relies on ([SynchDisk::ReadSector] and
    [WriteSector]): synchronous transfers of whole sectors.  The instance [disk_device]
    runs a request of the simulated disk to its completion interrupt, so the theorems of
    the file system hold for it. *)

From S2P Require Import Prelude.

Definition SectorSize : Z := 128.
Definition SectorsPerTrack : Z := 32.
Definition NumTracks : Z := 32.
Definition NumSectors : Z := SectorsPerTrack * NumTracks.

(** machine/stats.h *)
Definition RotationTime : Z := 500.
Definition SeekTime : Z := 500.

Definition MagicNumber : Z := 0x456789ab.
Definition MagicSize : Z := 4.
Definition DiskSize : Z := MagicSize + NumSectors * SectorSize.

(** ** UNIX files (machine/sysdep.cc)

    The bytes of an open file; reads are short at the end of the file, writes extend it. *)
Definition unix_read (f : list Z) (off n : Z) : list Z :=
  take (Z.to_nat n) (drop (Z.to_nat off) f).

Definition unix_write (f : list Z) (off : Z) (data : list Z) : list Z :=
  let o := Z.to_nat off in
  take o f ++ replicate (o - length f) 0 ++ data ++ drop (o + length data) f.

(** [Lseek] then [Read]: aborts on a negative offset or a short read. *)
Definition sysdep_Read (f : list Z) (off n : Z) : result (list Z) :=
  ASSERT (0 <=? off) ;;
  let bs := unix_read f off n in
  ASSERT (Z.of_nat (length bs) =? n) ;;
  Ok bs.

(** [Lseek] then [WriteFile]. *)
Definition sysdep_WriteFile (f : list Z) (off : Z) (data : list Z) : result (list Z) :=
  ASSERT (0 <=? off) ;;
  Ok (unix_write f off data).

(** ** The device *)

Record Disk := mkDisk {
  dk_file : list Z;          (* contents of the UNIX file *)
  dk_active : bool;          (* is an operation in progress? *)
  dk_lastSector : Z;
  dk_bufferInit : Z
}.

(** [Disk::Disk]: [contents] is the existing UNIX file, [None] if there is none; a new
    file gets the magic number and a last word so that reads do not hit the end. *)
Definition Disk_new (contents : option (list Z)) : result Disk :=
  match contents with
  | Some f =>
      magic ← sysdep_Read f 0 MagicSize;
      ASSERT (le_dec magic =? MagicNumber) ;;
      Ok (mkDisk f false 0 0)
  | None =>
      f ← sysdep_WriteFile [] 0 (le_enc 4 MagicNumber);
      f ← sysdep_WriteFile f (DiskSize - 4) (le_enc 4 0);
      Ok (mkDisk f false 0 0)
  end.

(** Seek time and the wait for the next sector boundary ([*rotation]). *)
Definition Disk_TimeToSeek (d : Disk) (totalTicks newSector : Z) : Z * Z :=
  let newTrack := newSector `quot` SectorsPerTrack in
  let oldTrack := dk_lastSector d `quot` SectorsPerTrack in
  let seek := i32 (Z.abs (newTrack - oldTrack) * SeekTime) in
  let over := i32 (totalTicks + seek) `rem` RotationTime in
  (seek, if 0 <? over then RotationTime - over else 0).

Definition Disk_ModuloDiff (to from : Z) : Z :=
  let toOffset := to `rem` SectorsPerTrack in
  let fromOffset := from `rem` SectorsPerTrack in
  ((toOffset - fromOffset) + SectorsPerTrack) `rem` SectorsPerTrack.

Definition Disk_ComputeLatency (d : Disk) (totalTicks newSector : Z) (writing : bool) : Z :=
  let '(seek, rotation) := Disk_TimeToSeek d totalTicks newSector in
  let timeAfter := i32 (totalTicks + seek + rotation) in
  if negb writing && (seek =? 0)
     && (Disk_ModuloDiff newSector (dk_bufferInit d `quot` RotationTime)
         <? i32 (timeAfter - dk_bufferInit d) `quot` RotationTime)
  then RotationTime
  else
    let rotation :=
      i32 (rotation + Disk_ModuloDiff newSector (timeAfter `quot` RotationTime) * RotationTime) in
    i32 (seek + rotation + RotationTime).

Definition Disk_UpdateLast (d : Disk) (totalTicks newSector : Z) : Disk :=
  let '(seek, rotate) := Disk_TimeToSeek d totalTicks newSector in
  mkDisk (dk_file d) (dk_active d) newSector
    (if negb (seek =? 0) then i32 (totalTicks + seek + rotate) else dk_bufferInit d).

(** [Disk::ReadRequest]: the data, the device, and the delay of the [DiskInt] interrupt
    it schedules. *)
Definition Disk_ReadRequest (d : Disk) (totalTicks sectorNumber : Z)
    : result (list Z * Disk * Z) :=
  let ticks := Disk_ComputeLatency d totalTicks sectorNumber false in
  ASSERT (negb (dk_active d)) ;;
  ASSERT ((0 <=? sectorNumber) && (sectorNumber <? NumSectors)) ;;
  data ← sysdep_Read (dk_file d) (SectorSize * sectorNumber + MagicSize) SectorSize;
  let d := mkDisk (dk_file d) true (dk_lastSector d) (dk_bufferInit d) in
  let d := Disk_UpdateLast d totalTicks sectorNumber in
  ASSERT (0 <? ticks) ;;       (* in Interrupt::Schedule *)
  Ok (data, d, ticks).

(** [Disk::WriteRequest]; [data] points to at least a sector of bytes. *)
Definition Disk_WriteRequest (d : Disk) (totalTicks sectorNumber : Z) (data : list Z)
    : result (Disk * Z) :=
  let ticks := Disk_ComputeLatency d totalTicks sectorNumber true in
  ASSERT (negb (dk_active d)) ;;
  ASSERT ((0 <=? sectorNumber) && (sectorNumber <? NumSectors)) ;;
  f ← sysdep_WriteFile (dk_file d) (SectorSize * sectorNumber + MagicSize)
        (take (Z.to_nat SectorSize) data);
  let d := mkDisk f true (dk_lastSector d) (dk_bufferInit d) in
  let d := Disk_UpdateLast d totalTicks sectorNumber in
  ASSERT (0 <? ticks) ;;
  Ok (d, ticks).

(** [Disk::HandleInterrupt], before it calls the handler of the owner. *)
Definition Disk_HandleInterrupt (d : Disk) : Disk :=
  mkDisk (dk_file d) false (dk_lastSector d) (dk_bufferInit d).

#[global] Arguments Disk_UpdateLast : simpl never.
#[global] Arguments Disk_ComputeLatency : simpl never.

(** ** Latency *)

Lemma ModuloDiff_range to from : 0 <= to -> 0 <= Disk_ModuloDiff to from < 32.
Proof.
  intros. unfold Disk_ModuloDiff, SectorsPerTrack.
  pose proof (Z.rem_bound_pos to 32 ltac:(lia) ltac:(lia)).
  pose proof (Z.rem_bound_abs from 32 ltac:(lia)).
  apply Z.rem_bound_pos; lia.
Qed.

Lemma track_range s : 0 <= s < NumSectors -> 0 <= s `quot` SectorsPerTrack < 32.
Proof.
  unfold NumSectors, SectorsPerTrack, NumTracks. intros.
  rewrite Z.quot_div_nonneg by lia. Z.div_mod_to_equations. lia.
Qed.

Lemma TimeToSeek_range d now s :
  0 <= s < NumSectors -> 0 <= dk_lastSector d < NumSectors ->
  let '(seek, rot) := Disk_TimeToSeek d now s in
  0 <= seek <= 15500 /\ 0 <= rot < 500 /\ (seek = 0 -> s `quot` 32 = dk_lastSector d `quot` 32).
Proof.
  intros Hs Hl. unfold Disk_TimeToSeek. simpl.
  pose proof (track_range _ Hs). pose proof (track_range _ Hl).
  unfold SeekTime, SectorsPerTrack in *.
  rewrite i32_id by (unfold in_i32; lia).
  pose proof (Z.rem_bound_abs (i32 (now + Z.abs (s `quot` 32 - dk_lastSector d `quot` 32) * 500))
    RotationTime ltac:(unfold RotationTime; lia)) as Hrem.
  unfold RotationTime in *. split_and!; try lia; destruct (Z.ltb_spec 0 (i32 (now + Z.abs (s `quot` 32 - dk_lastSector d `quot` 32) * 500) `rem` 500)); lia.
Qed.

Lemma ComputeLatency_range (d : Disk) (totalTicks newSector : Z) (writing : bool) :
  0 <= newSector < NumSectors -> 0 <= dk_lastSector d < NumSectors ->
  500 <= Disk_ComputeLatency d totalTicks newSector writing <= 31999.
Proof.
  intros Hs Hl. unfold Disk_ComputeLatency.
  pose proof (TimeToSeek_range d totalTicks newSector Hs Hl) as Ht.
  destruct (Disk_TimeToSeek d totalTicks newSector) as [seek rot].
  destruct Ht as (Hseek & Hrot & _).
  destruct (_ && _); [unfold RotationTime; lia|].
  pose proof (ModuloDiff_range newSector (i32 (totalTicks + seek + rot) `quot` RotationTime)
    ltac:(lia)) as Hm.
  generalize dependent (Disk_ModuloDiff newSector (i32 (totalTicks + seek + rot) `quot` RotationTime)).
  intros m Hm. unfold RotationTime.
  rewrite (i32_id (rot + _)), i32_id; unfold in_i32; lia.
Qed.

(** A disk request to a valid sector always takes between one rotation step and
    31999 ticks, whatever the clock and the track buffer: the interrupt it schedules lies
    in the future, so the [ASSERT(fromNow > 0)] of [Interrupt::Schedule] cannot fail. *)
Theorem ComputeLatency_bounds (d : Disk) (totalTicks newSector : Z) (writing : bool) :
  0 <= newSector < NumSectors -> 0 <= dk_lastSector d < NumSectors ->
  500 <= Disk_ComputeLatency d totalTicks newSector writing <= 31999.
Proof. apply ComputeLatency_range. Qed.

Lemma ComputeLatency_bounds_witness :
  500 <= Disk_ComputeLatency (mkDisk [] false 40 0) (2 ^ 31 - 1) 1023 true <= 31999.
Proof. apply ComputeLatency_bounds; vm_compute; split; congruence. Defined.

Lemma ModuloDiff_mod to from : 0 <= to -> 0 <= from -> Disk_ModuloDiff to from = (to - from) `mod` 32.
Proof.
  intros. unfold Disk_ModuloDiff, SectorsPerTrack. rewrite !(Z.rem_mod_nonneg _ 32) by
    (rewrite ?(Z.rem_mod_nonneg _ 32) by lia;
     pose proof (Z.mod_pos_bound to 32); pose proof (Z.mod_pos_bound from 32); lia).
  Z.div_mod_to_equations. lia.
Qed.

Lemma TimeToSeek_aligned d now s :
  0 <= s < NumSectors -> 0 <= dk_lastSector d < NumSectors -> 0 <= now <= 2 ^ 31 - 40000 ->
  let '(seek, rot) := Disk_TimeToSeek d now s in (now + seek + rot) `mod` 500 = 0.
Proof.
  intros Hs Hl Hn. unfold Disk_TimeToSeek.
  pose proof (track_range _ Hs). pose proof (track_range _ Hl).
  unfold SeekTime, SectorsPerTrack, RotationTime in *. 
  rewrite (i32_id (Z.abs _ * _)) by (unfold in_i32; lia).
  rewrite i32_id by (unfold in_i32; lia).
  rewrite Z.rem_mod_nonneg by lia.
  set (sk := Z.abs _ * 500). destruct (Z.ltb_spec 0 ((now + sk) `mod` 500));
    Z.div_mod_to_equations; lia.
Qed.

(** The latency model matches the disk geometry: a write that starts at time [now]
    ends exactly when the rotating platter has carried the requested sector past the
    head, that is at a sector boundary whose number is the sector after it modulo the
    sectors per track; and a read never takes longer than a write of the same sector. *)
Theorem ComputeLatency_rotation (d : Disk) (now s : Z) :
  0 <= s < NumSectors -> 0 <= dk_lastSector d < NumSectors -> 0 <= now <= 2 ^ 31 - 40000 ->
  let done := now + Disk_ComputeLatency d now s true in
  done `mod` RotationTime = 0
  /\ (done `div` RotationTime) `mod` SectorsPerTrack = (s + 1) `mod` SectorsPerTrack
  /\ Disk_ComputeLatency d now s false <= Disk_ComputeLatency d now s true.
Proof.
  intros Hs Hl Hn. cbn zeta.
  pose proof (ComputeLatency_range d now s true Hs Hl) as Hb.
  unfold Disk_ComputeLatency in *.
  pose proof (TimeToSeek_range d now s Hs Hl) as Ht.
  pose proof (TimeToSeek_aligned d now s Hs Hl Hn) as Ha.
  destruct (Disk_TimeToSeek d now s) as [seek rot]. destruct Ht as (Hseek & Hrot & _).
  cbn [negb andb] in *.
  rewrite (i32_id (now + seek + rot)) in * by (unfold in_i32; lia).
  rewrite Z.quot_div_nonneg in * by (unfold RotationTime; lia).
  rewrite ModuloDiff_mod in * by (try apply Z.div_pos; unfold RotationTime; lia).
  pose proof (Z.mod_pos_bound (s - (now + seek + rot) `div` RotationTime) 32 ltac:(lia)) as Hm.
  unfold RotationTime, SectorsPerTrack in *.
  rewrite (i32_id (rot + _)) in * by (unfold in_i32; lia).
  rewrite (i32_id (seek + _ + _)) in * by (unfold in_i32; lia).
  split_and!.
  - Z.div_mod_to_equations. lia.
  - set (t := (now + seek + rot) `div` 500) in *.
    assert (Ht : now + seek + rot = 500 * t) by (unfold t; Z.div_mod_to_equations; lia).
    replace (now + (seek + (rot + (s - t) `mod` 32 * 500) + 500))
      with ((t + (s - t) `mod` 32 + 1) * 500) by lia.
    rewrite Z.div_mul by lia. Z.div_mod_to_equations. lia.
  - destruct (_ && _); lia.
Qed.

Lemma ComputeLatency_rotation_witness :
  let done := 1234 + Disk_ComputeLatency (mkDisk [] false 40 0) 1234 700 true in
  done `mod` RotationTime = 0
  /\ (done `div` RotationTime) `mod` SectorsPerTrack = 701 `mod` SectorsPerTrack
  /\ Disk_ComputeLatency (mkDisk [] false 40 0) 1234 700 false
     <= Disk_ComputeLatency (mkDisk [] false 40 0) 1234 700 true.
Proof.
  apply (ComputeLatency_rotation (mkDisk [] false 40 0) 1234 700);
    vm_compute; split; congruence.
Defined.

(** ** The synchronous sector interface *)

Definition valid_sector (s : Z) : Prop := 0 <= s < NumSectors.

(** A sector image: [SectorSize] bytes. *)
Definition is_sector (data : list Z) : Prop :=
  length data = Z.to_nat SectorSize /\ Forall is_byte data.

(** What [SynchDisk::ReadSector] and [WriteSector] promise to the file system.  A read
    may move the head, so it returns the device; [sd_sector] is the stored contents. *)
Class SectorDevice (D : Type) := {
  sd_read : D -> Z -> result (list Z * D);
  sd_write : D -> Z -> list Z -> result D;
  sd_valid : D -> Prop;
  sd_sector : D -> Z -> list Z;
  sd_sector_wf d s : sd_valid d -> valid_sector s -> is_sector (sd_sector d s);
  sd_read_ok d s : sd_valid d -> valid_sector s ->
    exists d', sd_read d s = Ok (sd_sector d s, d') /\ sd_valid d'
      /\ forall s', valid_sector s' -> sd_sector d' s' = sd_sector d s';
  sd_read_bad d s : sd_valid d -> ~ valid_sector s -> sd_read d s = Err AssertFailed;
  sd_write_ok d s data : sd_valid d -> valid_sector s -> is_sector data ->
    exists d', sd_write d s data = Ok d' /\ sd_valid d'
      /\ forall s', valid_sector s' ->
           sd_sector d' s' = if decide (s' = s) then data else sd_sector d s';
  sd_write_bad d s data : sd_valid d -> ~ valid_sector s -> sd_write d s data = Err AssertFailed
}.

(** Two devices that store the same sectors. *)
Definition same_sectors {D} `{SectorDevice D} (d d' : D) : Prop :=
  forall s, valid_sector s -> sd_sector d' s = sd_sector d s.

#[global] Instance same_sectors_equiv {D} `{SectorDevice D} : Equivalence (same_sectors (D := D)).
Proof.
  split.
  - by intros d s Hs.
  - intros d d' Hd s Hs. by rewrite Hd.
  - intros d1 d2 d3 H12 H23 s Hs. by rewrite H23, H12.
Qed.

(** The simulated disk as a synchronous device: the request, then the completion
    interrupt when the clock reaches it. *)
Record SynchDisk := mkSynchDisk { sy_disk : Disk; sy_now : Z }.

Definition SynchDisk_ReadSector (s : SynchDisk) (sectorNumber : Z)
    : result (list Z * SynchDisk) :=
  '(data, d, ticks) ← Disk_ReadRequest (sy_disk s) (sy_now s) sectorNumber;
  Ok (data, mkSynchDisk (Disk_HandleInterrupt d) (i32 (sy_now s + ticks))).

Definition SynchDisk_WriteSector (s : SynchDisk) (sectorNumber : Z) (data : list Z)
    : result SynchDisk :=
  '(d, ticks) ← Disk_WriteRequest (sy_disk s) (sy_now s) sectorNumber data;
  Ok (mkSynchDisk (Disk_HandleInterrupt d) (i32 (sy_now s + ticks))).

Definition disk_ok (s : SynchDisk) : Prop :=
  dk_active (sy_disk s) = false /\ valid_sector (dk_lastSector (sy_disk s))
  /\ (Z.to_nat DiskSize <= length (dk_file (sy_disk s)))%nat
  /\ Forall is_byte (dk_file (sy_disk s)).

Definition disk_sector (s : SynchDisk) (n : Z) : list Z :=
  unix_read (dk_file (sy_disk s)) (SectorSize * n + MagicSize) SectorSize.

Lemma unix_read_slice f off n : unix_read f off n = slice f (Z.to_nat off) (Z.to_nat n).
Proof. done. Qed.

Lemma unix_write_splice f off data :
  (Z.to_nat off + length data <= length f)%nat ->
  unix_write f off data = splice f (Z.to_nat off) data.
Proof.
  intros. unfold unix_write, splice.
  replace (Z.to_nat off - length f)%nat with 0%nat by lia. done.
Qed.

Lemma sector_in_file s n :
  disk_ok s -> valid_sector n ->
  (Z.to_nat (SectorSize * n + MagicSize) + Z.to_nat SectorSize
   <= length (dk_file (sy_disk s)))%nat.
Proof.
  intros (_ & _ & Hlen & _) Hn. unfold valid_sector, DiskSize, NumSectors, SectorsPerTrack,
    NumTracks, SectorSize, MagicSize in *. lia.
Qed.

Lemma disk_sector_wf s n : disk_ok s -> valid_sector n -> is_sector (disk_sector s n).
Proof.
  intros Hok Hn. unfold disk_sector. rewrite unix_read_slice. split.
  - apply length_slice. by apply sector_in_file.
  - destruct Hok as (_ & _ & _ & Hb). by apply Forall_slice.
Qed.

Lemma valid_sector_test n :
  valid_sector n <-> (0 <=? n) && (n <? NumSectors) = true.
Proof. unfold valid_sector. rewrite andb_true_iff. lia. Qed.

Lemma disk_read_ok s n :
  disk_ok s -> valid_sector n ->
  exists s', SynchDisk_ReadSector s n = Ok (disk_sector s n, s') /\ disk_ok s'
    /\ forall m, valid_sector m -> disk_sector s' m = disk_sector s m.
Proof.
  intros Hok Hn. pose proof (disk_sector_wf s n Hok Hn) as [Hlen _].
  pose proof Hok as (Hact & Hlast & Hsize & Hb).
  unfold SynchDisk_ReadSector, Disk_ReadRequest.
  rewrite Hact, (proj1 (valid_sector_test n) Hn). simpl.
  unfold sysdep_Read. rewrite (ASSERT_true (0 <=? _))
    by (unfold SectorSize, MagicSize, valid_sector in *; lia).
  simpl. fold (disk_sector s n). rewrite Hlen. rewrite (ASSERT_true (_ =? _)) by done. simpl.
  rewrite (ASSERT_true (0 <? _)); [|pose proof (ComputeLatency_range (sy_disk s) (sy_now s) n false Hn Hlast); lia].
  simpl. eexists. split; [done|]. unfold Disk_HandleInterrupt, disk_sector.
  split; [split_and!|]; simpl; auto.
Qed.

Lemma disk_write_ok s n data :
  disk_ok s -> valid_sector n -> is_sector data ->
  exists s', SynchDisk_WriteSector s n data = Ok s' /\ disk_ok s'
    /\ forall m, valid_sector m ->
         disk_sector s' m = if decide (m = n) then data else disk_sector s m.
Proof.
  intros Hok Hn [Hdl Hdb]. pose proof (sector_in_file s n Hok Hn) as Hin.
  pose proof Hok as (Hact & Hlast & Hsize & Hb).
  unfold SynchDisk_WriteSector, Disk_WriteRequest, sysdep_WriteFile.
  rewrite Hact, (proj1 (valid_sector_test n) Hn). simpl.
  rewrite (ASSERT_true (0 <=? _))
    by (unfold SectorSize, MagicSize, valid_sector in *; lia). simpl.
  rewrite (ASSERT_true (0 <? _)); [|pose proof (ComputeLatency_range (sy_disk s) (sy_now s) n true Hn Hlast); lia].
  simpl. eexists. split; [done|].
  unfold Disk_HandleInterrupt, disk_sector, disk_ok. simpl.
  rewrite take_ge, unix_write_splice by (rewrite ?Hdl; done || lia).
  split; [split_and!; auto|].
  - rewrite length_splice by (rewrite Hdl; done). done.
  - by apply Forall_splice.
  - intros m Hm. rewrite !unix_read_slice. case_decide as Hd.
    + subst m. rewrite <-Hdl. apply slice_splice_same. by rewrite Hdl.
    + apply slice_splice_other; [by rewrite Hdl|]. rewrite Hdl. clear - Hm Hn Hd.
      unfold SectorSize, MagicSize, valid_sector in *.
      destruct (Z.lt_total m n) as [?|[?|?]]; [left|done|right]; lia.
Qed.

Lemma disk_read_bad s n :
  disk_ok s -> ~ valid_sector n -> SynchDisk_ReadSector s n = Err AssertFailed.
Proof.
  intros Hok Hn. unfold SynchDisk_ReadSector, Disk_ReadRequest.
  destruct Hok as (-> & _). simpl.
  destruct (_ && _) eqn:He; [|done]. by apply valid_sector_test in He.
Qed.

Lemma disk_write_bad s n data :
  disk_ok s -> ~ valid_sector n -> SynchDisk_WriteSector s n data = Err AssertFailed.
Proof.
  intros Hok Hn. unfold SynchDisk_WriteSector, Disk_WriteRequest.
  destruct Hok as (-> & _). simpl.
  destruct (_ && _) eqn:He; [|done]. by apply valid_sector_test in He.
Qed.

#[global] Instance disk_device : SectorDevice SynchDisk := {
  sd_read := SynchDisk_ReadSector;
  sd_write := SynchDisk_WriteSector;
  sd_valid := disk_ok;
  sd_sector := disk_sector;
  sd_sector_wf := disk_sector_wf;
  sd_read_ok := disk_read_ok;
  sd_read_bad := disk_read_bad;
  sd_write_ok := disk_write_ok;
  sd_write_bad := disk_write_bad
}.

Lemma length_unix_write f off data :
  length (unix_write f off data) = Nat.max (length f) (Z.to_nat off + length data).
Proof.
  unfold unix_write. rewrite !length_app, length_take, length_replicate, length_drop. lia.
Qed.

Lemma unix_write_bytes f off data :
  Forall is_byte f -> Forall is_byte data -> Forall is_byte (unix_write f off data).
Proof.
  intros. unfold unix_write. rewrite !Forall_app.
  split_and!; auto using Forall_take, Forall_drop.
  apply Forall_replicate. unfold is_byte. lia.
Qed.

(** A new disk file is a valid device. *)
Lemma Disk_new_ok : exists d, Disk_new None = Ok d /\ disk_ok (mkSynchDisk d 0).
Proof.
  eexists. split; [reflexivity|]. split_and!; [done|done| |]; cbn [sy_disk dk_file].
  - rewrite length_unix_write, length_le_enc. unfold DiskSize, MagicSize. lia.
  - auto using unix_write_bytes, le_enc_bytes, Forall_nil_2.
Qed.

(** ** The disk is an array of sectors *)

Inductive disk_op := DRead (s : Z) | DWrite (s : Z) (data : list Z).

Definition disk_exec (op : disk_op) (d : SynchDisk) : result (option (list Z) * SynchDisk) :=
  match op with
  | DRead s => '(data, d) ← SynchDisk_ReadSector d s; Ok (Some data, d)
  | DWrite s data => d ← SynchDisk_WriteSector d s data; Ok (None, d)
  end.

Definition array_exec (op : disk_op) (a : Z -> list Z) : result (option (list Z) * (Z -> list Z)) :=
  match op with
  | DRead s => if decide (valid_sector s) then Ok (Some (a s), a) else Err AssertFailed
  | DWrite s data => if decide (valid_sector s)
                     then Ok (None, fun s' => if decide (s' = s) then data else a s')
                     else Err AssertFailed
  end.

Definition op_ok (op : disk_op) : Prop :=
  match op with DRead _ => True | DWrite _ data => is_sector data end.

Lemma disk_exec_refines op d a :
  disk_ok d -> op_ok op -> (forall s, valid_sector s -> a s = disk_sector d s) ->
  match array_exec op a with
  | Err e => disk_exec op d = Err e
  | Ok (r, a') => exists d', disk_exec op d = Ok (r, d') /\ disk_ok d'
      /\ forall s, valid_sector s -> a' s = disk_sector d' s
  end.
Proof.
  intros Hok Hop Ha. destruct op as [s|s data]; simpl in *; case_decide as Hs.
  - destruct (disk_read_ok d s Hok Hs) as (d' & -> & Hok' & Hsec). simpl.
    exists d'. rewrite Ha by done. split_and!; [done|done|]. intros. by rewrite Hsec, Ha.
  - by rewrite disk_read_bad.
  - destruct (disk_write_ok d s data Hok Hs Hop) as (d' & -> & Hok' & Hsec). simpl.
    exists d'. split_and!; [done|done|]. intros m Hm. rewrite Hsec by done.
    case_decide; auto.
  - by rewrite disk_write_bad.
Qed.

(** The simulated disk implements an array of sectors: for every sequence of sector
    reads and writes the values read and the failed assertions (a sector number outside
    the disk) are those of an array updated in place, whatever the head position, the
    clock and the track buffer. *)
Theorem disk_refines_array (ops : list disk_op) (d : SynchDisk) (a : Z -> list Z) :
  disk_ok d -> Forall op_ok ops -> (forall s, valid_sector s -> a s = disk_sector d s) ->
  match run_ops array_exec ops a with
  | Err e => run_ops disk_exec ops d = Err e
  | Ok (rs, a') => exists d', run_ops disk_exec ops d = Ok (rs, d') /\ disk_ok d'
      /\ forall s, valid_sector s -> a' s = disk_sector d' s
  end.
Proof.
  intros Hok Hops. revert d a Hok.
  induction Hops as [|op ops Hop _ IH]; intros d a Hok Ha; [by exists d|].
  pose proof (disk_exec_refines op d a Hok Hop Ha) as Hr. cbn [run_ops].
  destruct (array_exec op a) as [[r a']|e]; simpl; [|by rewrite Hr].
  destruct Hr as (d' & -> & Hok' & Ha'). simpl. specialize (IH d' a' Hok' Ha').
  destruct (run_ops array_exec ops a') as [[rs a'']|e]; simpl; [|by rewrite IH].
  destruct IH as (d'' & -> & ? & ?). exists d''. auto.
Qed.

(** A device for concrete runs: a disk file of zero bytes. *)
Definition blank_disk : SynchDisk :=
  mkSynchDisk (mkDisk (replicate (Z.to_nat DiskSize) 0) false 0 0) 0.

Lemma blank_disk_ok : disk_ok blank_disk.
Proof.
  split_and!; [done|done| |]; cbn [blank_disk sy_disk dk_file].
  - by rewrite length_replicate.
  - apply Forall_replicate. unfold is_byte. lia.
Qed.

Lemma blank_disk_sector s : valid_sector s -> disk_sector blank_disk s = replicate 128 0.
Proof.
  intros Hs. unfold disk_sector, unix_read. cbn [blank_disk sy_disk dk_file].
  rewrite drop_replicate, take_replicate. f_equal.
  unfold valid_sector, DiskSize, NumSectors, SectorsPerTrack, NumTracks, SectorSize, MagicSize in *.
  lia.
Qed.

Lemma disk_refines_array_witness :
  exists d', run_ops disk_exec [DWrite 7 (replicate 128 1); DRead 7; DRead 8] blank_disk
      = Ok ([None; Some (replicate 128 1); Some (replicate 128 0)], d') /\ disk_ok d'
      /\ forall s, valid_sector s ->
           (if decide (s = 7) then replicate 128 1 else replicate 128 0) = disk_sector d' s.
Proof.
  apply (disk_refines_array [DWrite 7 (replicate 128 1); DRead 7; DRead 8] blank_disk
    (fun _ => replicate 128 0)).
  - apply blank_disk_ok.
  - repeat constructor; simpl; unfold is_byte; lia.
  - intros s Hs. by rewrite blank_disk_sector.
Defined.


(** ** The specification device

    The array of sectors itself, as a second instance of the interface: a map from
    sector numbers to contents, zero bytes where nothing was written. *)
Definition ram_sector (d : gmap Z (list Z)) (s : Z) : list Z := default (replicate 128 0) (d !! s).

Definition ram_read (d : gmap Z (list Z)) (s : Z) : result (list Z * gmap Z (list Z)) :=
  if decide (valid_sector s) then Ok (ram_sector d s, d) else Err AssertFailed.

Definition ram_write (d : gmap Z (list Z)) (s : Z) (data : list Z) : result (gmap Z (list Z)) :=
  if decide (valid_sector s) then Ok (<[s := data]> d) else Err AssertFailed.

#[global] Program Instance ram_device : SectorDevice (gmap Z (list Z)) := {|
  sd_read := ram_read;
  sd_write := ram_write;
  sd_valid d := map_Forall (fun _ data => is_sector data) d;
  sd_sector := ram_sector
|}.
Next Obligation.
  intros d s Hd _. unfold ram_sector. destruct (d !! s) as [data|] eqn:He; [exact (Hd _ _ He)|].
  split; [done|]. apply Forall_replicate. unfold is_byte. lia.
Qed.
Next Obligation.
  intros d s Hd Hs. exists d. unfold ram_read. by rewrite decide_True.
Qed.
Next Obligation.
  intros d s _ Hs. unfold ram_read. by rewrite decide_False.
Qed.
Next Obligation.
  intros d s data Hd Hs Hdata. exists (<[s := data]> d). unfold ram_write.
  rewrite decide_True by done. split_and!; [done|by apply map_Forall_insert_2|].
  intros s' _. unfold ram_sector. case_decide as He.
  - subst s'. by rewrite lookup_insert_eq.
  - by rewrite lookup_insert_ne.
Qed.
Next Obligation.
  intros d s data _ Hs. unfold ram_write. by rewrite decide_False.
Qed.
