(* ===== verification/FileHdr.v ===== *)
(** * filesys/filehdr.cc: file headers

    A file header is the in-memory image of one disk sector: the size of the file, three
    time stamps, and the table of the sectors that hold its data: [NumDirect] direct
    entries and one entry for an index sector that holds the numbers of up to 32 more.
    All operations run over any [SectorDevice].  The time stamps come from the C library
    ([getFormatDate]); the formatted text is an argument. *)

From S2P Require Import Prelude BitMap Disk.

Definition DateLength : Z := 20.
Definition NumFirst : Z := 1.
(** [(SectorSize - 2 * sizeof(int) - 3 * DateLength * sizeof(char)) / sizeof(int) - NumFirst];
    [sizeof] makes it an unsigned number. *)
Definition NumDirect : Z := (SectorSize - 2 * 4 - 3 * DateLength * 1) `quot` 4 - NumFirst.
Definition MaxFileSize : Z := (NumDirect + (NumFirst * SectorSize) `quot` 4) * SectorSize.

Record FileHeader := mkFileHeader {
  fh_numBytes : Z;
  fh_numSectors : Z;
  fh_createTime : list Z;
  fh_updateTime : list Z;
  fh_accessTime : list Z;
  fh_dataSectors : list Z       (* NumDirect + NumFirst entries *)
}.

(** The 128 bytes of the object, in the order of its fields. *)
Definition ints_to_bytes (zs : list Z) : list Z := zs ≫= int_to_bytes.

Fixpoint ints_of_bytes (n : nat) (bs : list Z) : list Z :=
  match n with
  | O => []
  | S n => int_of_bytes (take 4 bs) :: ints_of_bytes n (drop 4 bs)
  end.

Definition fh_bytes (h : FileHeader) : list Z :=
  int_to_bytes (fh_numBytes h) ++ int_to_bytes (fh_numSectors h)
  ++ fh_createTime h ++ fh_updateTime h ++ fh_accessTime h
  ++ ints_to_bytes (fh_dataSectors h).

Definition fh_of_bytes (bs : list Z) : FileHeader :=
  mkFileHeader (int_of_bytes (slice bs 0 4)) (int_of_bytes (slice bs 4 4))
    (slice bs 8 20) (slice bs 28 20) (slice bs 48 20) (ints_of_bytes 15 (drop 68 bs)).

(** filesys/fstest.cc, [getFormatDate]: [strncpy(out, szTime, 19)] copies the text and
    pads with zero bytes; the last byte of [out] is not written. *)
Definition getFormatDate (szTime out : list Z) : list Z :=
  take 19 (szTime ++ replicate 19 0) ++ drop 19 out.

Definition setCreateTime (szTime : list Z) (h : FileHeader) : FileHeader :=
  mkFileHeader (fh_numBytes h) (fh_numSectors h) (getFormatDate szTime (fh_createTime h))
    (fh_updateTime h) (fh_accessTime h) (fh_dataSectors h).

Definition setUpdateTime (szTime : list Z) (h : FileHeader) : FileHeader :=
  mkFileHeader (fh_numBytes h) (fh_numSectors h) (fh_createTime h)
    (getFormatDate szTime (fh_updateTime h)) (fh_accessTime h) (fh_dataSectors h).

Definition setAccessTime (szTime : list Z) (h : FileHeader) : FileHeader :=
  mkFileHeader (fh_numBytes h) (fh_numSectors h) (fh_createTime h)
    (fh_updateTime h) (getFormatDate szTime (fh_accessTime h)) (fh_dataSectors h).

Definition fh_set_size (h : FileHeader) (numBytes numSectors : Z) : FileHeader :=
  mkFileHeader numBytes numSectors (fh_createTime h) (fh_updateTime h) (fh_accessTime h)
    (fh_dataSectors h).

(** [dataSectors[i] = s]. *)
Definition fh_set_sector (h : FileHeader) (i : nat) (s : Z) : FileHeader :=
  mkFileHeader (fh_numBytes h) (fh_numSectors h) (fh_createTime h) (fh_updateTime h)
    (fh_accessTime h) (<[i := s]> (fh_dataSectors h)).

(** [numSectors > NumDirect]: [NumDirect] is unsigned, so the comparison is too. *)
Definition needs_index (numSectors : Z) : bool := NumDirect <? u32 numSectors.

(** [int needDirect = numSectors > NumDirect ? NumDirect : numSectors]. *)
Definition needDirect (numSectors : Z) : Z :=
  if needs_index numSectors then NumDirect else i32 numSectors.

Fixpoint alloc_direct (idxs : list nat) (h : FileHeader) (bm : BitMap) : result (FileHeader * BitMap) :=
  match idxs with
  | [] => Ok (h, bm)
  | i :: idxs => '(s, bm) ← BitMap_Find bm; alloc_direct idxs (fh_set_sector h i s) bm
  end.

(** The loop that fills [int direct_first[SectorSize / sizeof(int)] = {0}]: [slots] is the
    space left in the array, [count] the iterations left; a store behind the array is
    undefined behaviour. *)
Fixpoint alloc_index (slots : nat) (count : Z) (bm : BitMap) : result (list Z * BitMap) :=
  if count <=? 0 then Ok (replicate slots 0, bm)
  else match slots with
       | O => Err MemFault
       | S slots => '(s, bm) ← BitMap_Find bm;
                    '(rest, bm) ← alloc_index slots (count - 1) bm;
                    Ok (s :: rest, bm)
       end.

(** [ASSERT(freeMap->Test(s)); freeMap->Clear(s);] *)
Definition dealloc_sector (s : Z) (bm : BitMap) : result BitMap :=
  t ← BitMap_Test bm s;
  ASSERT t ;;
  BitMap_Clear bm s.

(** [(int) direct_first[i * 4]] where [direct_first] is a [char *]. *)
Definition index_entry (buf : list Z) (i : Z) : result Z :=
  b ← deref (buf !! Z.to_nat (i * 4)); Ok (i8 b).

Fixpoint dealloc_index (slots : nat) (i count : Z) (buf : list Z) (bm : BitMap)
    : result BitMap :=
  if count <=? i then Ok bm
  else match slots with
       | O => Err MemFault
       | S slots => s ← index_entry buf i;
                    bm ← dealloc_sector s bm;
                    dealloc_index slots (i + 1) count buf bm
       end.

Section Device.
Context {D : Type} `{SectorDevice D}.

(** [FileHeader::Allocate]: success, the header, the map and the disk. *)
Definition FileHeader_Allocate (szTime : list Z) (h : FileHeader) (bm : BitMap) (d : D)
    (fileSize : Z) : result (bool * FileHeader * BitMap * D) :=
  let numSectors := divRoundUp fileSize SectorSize in
  let h := fh_set_size h fileSize numSectors in
  clear ← BitMap_NumClear bm;
  if clear <? numSectors then Ok (false, h, bm, d)
  else
    '(h, bm) ← alloc_direct (seq 0 (Z.to_nat (needDirect numSectors))) h bm;
    '(h, bm, d) ←
      (if needs_index numSectors then
         '(s, bm) ← BitMap_Find bm;
         let h := fh_set_sector h (Z.to_nat NumDirect) s in
         '(direct_first, bm) ← alloc_index 32 (u32 (numSectors - NumDirect)) bm;
         d ← sd_write d s (ints_to_bytes direct_first);
         Ok (h, bm, d)
       else Ok (h, bm, d));
    Ok (true, setCreateTime szTime h, bm, d).

Definition FileHeader_Deallocate (h : FileHeader) (bm : BitMap) (d : D)
    : result (BitMap * D) :=
  bm ← result_fold (fun i bm => s ← deref (fh_dataSectors h !! i); dealloc_sector s bm)
         (seq 0 (Z.to_nat (needDirect (fh_numSectors h)))) bm;
  if needs_index (fh_numSectors h) then
    index ← deref (fh_dataSectors h !! Z.to_nat NumDirect);
    '(direct_first, d) ← sd_read d index;
    bm ← dealloc_index 32 0 (u32 (fh_numSectors h - NumDirect)) direct_first bm;
    bm ← dealloc_sector index bm;
    Ok (bm, d)
  else Ok (bm, d).

Definition FileHeader_FetchFrom (d : D) (sector : Z) : result (FileHeader * D) :=
  '(bs, d) ← sd_read d sector; Ok (fh_of_bytes bs, d).

Definition FileHeader_WriteBack (h : FileHeader) (d : D) (sector : Z) : result D :=
  sd_write d sector (fh_bytes h).

(** [FileHeader::ByteToSector]: [offset <= NumDirect * SectorSize] is unsigned. *)
Definition FileHeader_ByteToSector (h : FileHeader) (d : D) (offset : Z) : result (Z * D) :=
  if u32 offset <=? NumDirect * SectorSize then
    s ← deref (if decide (0 <= offset `quot` SectorSize)
               then fh_dataSectors h !! Z.to_nat (offset `quot` SectorSize) else None);
    Ok (s, d)
  else
    let pos := u32 (offset - NumDirect * SectorSize) `quot` SectorSize in
    index ← deref (fh_dataSectors h !! Z.to_nat NumDirect);
    '(direct_first, d) ← sd_read d index;
    s ← index_entry direct_first pos;
    Ok (s, d).

Definition FileHeader_FileLength (h : FileHeader) : Z := fh_numBytes h.

End Device.

(** ** The on-disk format *)

Definition fh_wf (h : FileHeader) : Prop :=
  in_i32 (fh_numBytes h) /\ in_i32 (fh_numSectors h)
  /\ length (fh_createTime h) = 20%nat /\ Forall is_byte (fh_createTime h)
  /\ length (fh_updateTime h) = 20%nat /\ Forall is_byte (fh_updateTime h)
  /\ length (fh_accessTime h) = 20%nat /\ Forall is_byte (fh_accessTime h)
  /\ length (fh_dataSectors h) = 15%nat /\ Forall in_i32 (fh_dataSectors h).

Lemma length_ints_to_bytes zs : length (ints_to_bytes zs) = (4 * length zs)%nat.
Proof.
  unfold ints_to_bytes. induction zs as [|z zs IH]; [done|].
  rewrite bind_cons, length_app, IH. cbn [length]. 
  unfold int_to_bytes. rewrite length_le_enc. lia.
Qed.

Lemma ints_to_bytes_bytes zs : Forall is_byte (ints_to_bytes zs).
Proof.
  unfold ints_to_bytes. induction zs as [|z zs IH]; [constructor|].
  rewrite bind_cons. apply Forall_app. split; [apply le_enc_bytes|done].
Qed.

Lemma ints_roundtrip zs rest :
  Forall in_i32 zs -> ints_of_bytes (length zs) (ints_to_bytes zs ++ rest) = zs.
Proof.
  induction 1 as [|z zs Hz _ IH]; [done|].
  unfold ints_to_bytes. rewrite bind_cons, <-(assoc_L (++)). cbn [length ints_of_bytes].
  assert (Hl : length (int_to_bytes z) = 4%nat) by apply length_le_enc.
  rewrite take_app_length' by done. rewrite drop_app_length' by done.
  f_equal; [by apply int_roundtrip|exact IH].
Qed.

Lemma slice_app_here {A} (a b c : list A) n k :
  length a = n -> length b = k -> slice (a ++ b ++ c) n k = b.
Proof.
  intros Ha Hb. unfold slice. rewrite drop_app_length' by done. by rewrite take_app_length'.
Qed.

Lemma fh_bytes_sector h : fh_wf h -> is_sector (fh_bytes h).
Proof.
  intros (Hb & Hn & Hc & Hcb & Hu & Hub & Ha & Hab & Hd & Hdb). unfold fh_bytes. split.
  - rewrite !length_app, length_ints_to_bytes, Hc, Hu, Ha, Hd. unfold int_to_bytes.
    rewrite !length_le_enc. done.
  - rewrite !Forall_app. split_and!; auto using le_enc_bytes, ints_to_bytes_bytes.
    all: apply le_enc_bytes.
Qed.

Lemma fh_roundtrip h : fh_wf h -> fh_of_bytes (fh_bytes h) = h.
Proof.
  intros (Hb & Hn & Hc & Hcb & Hu & Hub & Ha & Hab & Hd & Hdb).
  assert (Hl : forall z, length (int_to_bytes z) = 4%nat) by (intros; apply length_le_enc).
  destruct h as [nb ns ct ut at' ds]. unfold fh_of_bytes, fh_bytes.
  cbn [fh_numBytes fh_numSectors fh_createTime fh_updateTime fh_accessTime fh_dataSectors] in *.
  f_equal.
  - transitivity (int_of_bytes (int_to_bytes nb)); [f_equal; by apply (slice_app_here [])|].
    by apply int_roundtrip.
  - rewrite (slice_app_here (int_to_bytes nb) (int_to_bytes ns)) by apply Hl.
    by apply int_roundtrip.
  - rewrite (assoc_L (++)). apply slice_app_here; [rewrite length_app, !Hl; done|done].
  - rewrite !(assoc_L (++)), <-(assoc_L (++) _ _ (ints_to_bytes ds)), <-(assoc_L (++) _ ut).
    apply slice_app_here; [rewrite !length_app, !Hl, Hc; done|done].
  - rewrite !(assoc_L (++)), <-(assoc_L (++) _ at').
    apply slice_app_here; [rewrite !length_app, !Hl, Hc, Hu; done|done].
  - rewrite !(assoc_L (++)). rewrite drop_app_length'
      by (rewrite !length_app, !Hl, Hc, Hu, Ha; done).
    rewrite <-(app_nil_r (ints_to_bytes ds)), <-Hd. by apply ints_roundtrip.
Qed.

(** ** Allocation *)

(** [bm'] is the map after [n] calls of [Find] that all found a sector. *)
Definition taken (bm : BitMap) (n : nat) (bm' : BitMap) : Prop :=
  bm_wf bm' /\ bm_numBits bm' = bm_numBits bm /\ bm_free bm' = drop n (bm_free bm).

Lemma taken_0 bm : bm_wf bm -> taken bm 0 bm.
Proof. intros. unfold taken. by rewrite drop_0. Qed.

Lemma taken_trans bm n bm1 m bm2 : taken bm n bm1 -> taken bm1 m bm2 -> taken bm (n + m) bm2.
Proof.
  intros (? & Hn & Hf) (? & Hn' & Hf'). unfold taken. split_and!; [done|congruence|].
  by rewrite Hf', Hf, drop_drop.
Qed.

Lemma Find_taken bm :
  bm_wf bm -> (0 < length (bm_free bm))%nat ->
  exists i bm', BitMap_Find bm = Ok (i, bm') /\ bm_free bm = i :: drop 1 (bm_free bm)
    /\ taken bm 1 bm'.
Proof.
  intros Hwf Hl. pose proof (BitMap_Find_free bm Hwf) as Hf.
  destruct (bm_free bm) as [|i rest] eqn:He; [simpl in Hl; lia|].
  destruct Hf as (bm' & -> & Hwf' & Hn & Hfree & _).
  exists i, bm'. unfold taken. rewrite He. by split_and!.
Qed.

Lemma alloc_direct_spec n : forall k h bm,
  bm_wf bm -> (n <= length (bm_free bm))%nat -> (k + n <= length (fh_dataSectors h))%nat ->
  exists bm', alloc_direct (seq k n) h bm
      = Ok (mkFileHeader (fh_numBytes h) (fh_numSectors h) (fh_createTime h)
              (fh_updateTime h) (fh_accessTime h)
              (splice (fh_dataSectors h) k (take n (bm_free bm))), bm')
    /\ taken bm n bm'.
Proof.
  induction n as [|n IH]; intros k h bm Hwf Hn Hk.
  - exists bm. split; [|by apply taken_0]. destruct h.
    by rewrite take_0, splice_nil.
  - destruct (Find_taken bm) as (i & bm1 & HF & He & Ht); [done|lia|].
    pose proof Ht as (Hwf1 & Hn1 & Hf1).
    destruct (IH (S k) (fh_set_sector h k i) bm1) as (bm2 & HA & Ht2);
      [done|rewrite Hf1, length_drop; lia|simpl; rewrite length_insert; lia|].
    exists bm2. split; [|by apply (taken_trans _ 1 bm1)].
    cbn [seq alloc_direct]. rewrite HF. cbn [mbind result_bind]. rewrite HA.
    do 3 f_equal. simpl. rewrite He. cbn [take]. rewrite Hf1.
    set (rest := take n (drop 1 (bm_free bm))).
    assert (Hr : length rest = n) by (unfold rest; rewrite length_take, length_drop; lia).
    apply list_eq. intros j. rewrite !lookup_splice by (rewrite ?length_insert; simpl; lia).
    cbn [length]. rewrite Hr. destruct (decide (j = k)) as [->|Hj].
    + rewrite decide_False, decide_True by lia. rewrite Nat.sub_diag.
      rewrite list_lookup_insert_eq by lia. done.
    + destruct (decide (S k <= j < S k + n)%nat) as [Hd|Hd].
      * rewrite decide_True by lia. by replace (j - k)%nat with (S (j - S k)) by lia.
      * rewrite decide_False by lia. by rewrite list_lookup_insert_ne by lia.
Qed.

Lemma alloc_index_spec n : forall slots bm,
  bm_wf bm -> (n <= length (bm_free bm))%nat -> (n <= slots)%nat ->
  exists bm', alloc_index slots (Z.of_nat n) bm
      = Ok (take n (bm_free bm) ++ replicate (slots - n) 0, bm')
    /\ taken bm n bm'.
Proof.
  induction n as [|n IH]; intros slots bm Hwf Hn Hs.
  - exists bm. split; [|by apply taken_0]. rewrite Nat.sub_0_r. by destruct slots.
  - destruct slots as [|slots]; [lia|].
    destruct (Find_taken bm) as (i & bm1 & HF & He & Ht); [done|lia|].
    pose proof Ht as (Hwf1 & Hn1 & Hf1).
    destruct (IH slots bm1) as (bm2 & HA & Ht2); [done|rewrite Hf1, length_drop; lia|lia|].
    exists bm2. split; [|by apply (taken_trans _ 1 bm1)].
    cbn [alloc_index]. destruct (Z.leb_spec (Z.of_nat (S n)) 0); [lia|].
    rewrite HF. cbn [mbind result_bind].
    replace (Z.of_nat (S n) - 1) with (Z.of_nat n) by lia. rewrite HA.
    cbn [mbind result_bind]. rewrite Hf1, He. done.
Qed.

Lemma lookup_ints_of_bytes n : forall bs i,
  ints_of_bytes n bs !! i
  = if decide (i < n)%nat then Some (int_of_bytes (slice bs (4 * i) 4)) else None.
Proof.
  induction n as [|n IH]; intros bs i; [done|]. destruct i as [|i]; [done|].
  cbn [ints_of_bytes]. rewrite lookup_cons, IH. unfold slice. rewrite drop_drop.
  replace (4 * S i)%nat with (4 + 4 * i)%nat by lia.
  repeat case_decide; try done; lia.
Qed.

Lemma length_ints_of_bytes n bs : length (ints_of_bytes n bs) = n.
Proof. revert bs. induction n; intros; simpl; auto. Qed.

(** The sectors that hold the data of the file, in order; the index sector; both. *)
Definition fh_index (h : FileHeader) : Z := fh_dataSectors h !!! Z.to_nat NumDirect.

Lemma fh_index_lookup h : length (fh_dataSectors h) = 15%nat ->
  fh_dataSectors h !! Z.to_nat NumDirect = Some (fh_index h).
Proof.
  intros Hlen. apply list_lookup_lookup_total_lt. rewrite Hlen.
  change (Z.to_nat NumDirect) with 14%nat. lia.
Qed.

Definition file_sectors {D} `{SectorDevice D} (h : FileHeader) (d : D) : list Z :=
  let n := Z.to_nat (fh_numSectors h) in
  if needs_index (fh_numSectors h)
  then take 14 (fh_dataSectors h)
       ++ take (n - 14) (ints_of_bytes 32 (sd_sector d (fh_index h)))
  else take n (fh_dataSectors h).

Definition index_sectors (h : FileHeader) : list Z :=
  if needs_index (fh_numSectors h) then [fh_index h] else [].

(** A header that [Allocate] can have made: at most 46 sectors, [numBytes] in the last. *)
Definition fh_sized (h : FileHeader) : Prop :=
  0 <= fh_numBytes h <= MaxFileSize /\ fh_numSectors h = divRoundUp (fh_numBytes h) SectorSize.

Lemma numSectors_bounds n :
  0 <= n <= MaxFileSize -> 0 <= divRoundUp n SectorSize <= 46
  /\ n <= SectorSize * divRoundUp n SectorSize < n + SectorSize.
Proof.
  intros Hn. pose proof (divRoundUp_bounds n SectorSize) as Hb.
  change MaxFileSize with 5888 in *. unfold SectorSize in *. lia.
Qed.

Lemma needs_index_spec n : 0 <= n <= 46 -> needs_index n = (14 <? n).
Proof.
  intros. unfold needs_index. rewrite u32_id by (unfold in_u32; lia). done.
Qed.

Lemma needDirect_spec n : 0 <= n <= 46 -> needDirect n = Z.min n 14.
Proof.
  intros. unfold needDirect. rewrite needs_index_spec by done.
  change NumDirect with 14. rewrite i32_id by (unfold in_i32; lia).
  destruct (Z.ltb_spec 14 n); lia.
Qed.

(** Every sector of the file, in the order [Allocate] takes them: the direct ones, the
    index sector, the sectors the index names. *)
Definition owned_sectors {D} `{SectorDevice D} (h : FileHeader) (d : D) : list Z :=
  take 14 (file_sectors h d) ++ index_sectors h ++ drop 14 (file_sectors h d).

(** How many sectors a file of [n] data sectors takes. *)
Definition sectors_needed (n : Z) : Z := n + (if 14 <? n then 1 else 0).

Definition freemap_ok (bm : BitMap) : Prop := bm_wf bm /\ bm_numBits bm = NumSectors.

Lemma freemap_NumClear bm : freemap_ok bm -> BitMap_NumClear bm = Ok (Z.of_nat (length (bm_free bm))).
Proof. intros [? Hn]. apply BitMap_NumClear_spec; [done|]. rewrite Hn. done. Qed.

Lemma freemap_valid bm i : freemap_ok bm -> i ∈ bm_free bm -> valid_sector i.
Proof. intros [_ Hn] Hi. apply bm_free_elem in Hi as [Hi _]. by rewrite Hn in Hi. Qed.

Lemma taken_freemap bm n bm' : freemap_ok bm -> taken bm n bm' -> freemap_ok bm'.
Proof. intros [_ Hn] (? & Hn' & _). split; congruence. Qed.

Lemma free_in_i32 bm l : freemap_ok bm -> (forall i, i ∈ l -> i ∈ bm_free bm) -> Forall in_i32 l.
Proof.
  intros Hok Hl. apply Forall_forall. intros i Hi. apply Hl, (freemap_valid bm) in Hi; [|done].
  unfold valid_sector, NumSectors, SectorsPerTrack, NumTracks in Hi. unfold in_i32. lia.
Qed.

Lemma free_take_i32 bm n : freemap_ok bm -> Forall in_i32 (take n (bm_free bm)).
Proof.
  intros Hok. apply (free_in_i32 bm); [done|]. intros i Hi.
  apply elem_of_take in Hi as (k & Hi & _). by apply list_elem_of_lookup_2 in Hi.
Qed.

Section Allocate.
Context {D : Type} `{SectorDevice D}.

Lemma index_block_sector zs : length zs = 32%nat -> is_sector (ints_to_bytes zs).
Proof.
  intros Hl. split; [by rewrite length_ints_to_bytes, Hl|apply ints_to_bytes_bytes].
Qed.

(** The second half of [Allocate]: the index sector is taken, filled and written. *)
Lemma alloc_indirect_spec bm (d : D) n :
  freemap_ok bm -> sd_valid d -> (n <= 32)%nat -> (S n <= length (bm_free bm))%nat ->
  exists s bm1 bm2 d', BitMap_Find bm = Ok (s, bm1) /\ bm_free bm = s :: drop 1 (bm_free bm)
    /\ valid_sector s
    /\ alloc_index 32 (Z.of_nat n) bm1
       = Ok (take n (drop 1 (bm_free bm)) ++ replicate (32 - n) 0, bm2)
    /\ taken bm (S n) bm2
    /\ sd_write d s (ints_to_bytes (take n (drop 1 (bm_free bm)) ++ replicate (32 - n) 0)) = Ok d'
    /\ sd_valid d'
    /\ take n (ints_of_bytes 32 (sd_sector d' s)) = take n (drop 1 (bm_free bm))
    /\ forall s', valid_sector s' -> s' <> s -> sd_sector d' s' = sd_sector d s'.
Proof.
  intros Hok Hd Hn Hl. destruct (Find_taken bm) as (s & bm1 & HF & He & Ht);
    [apply Hok|lia|].
  pose proof Ht as (Hwf1 & _ & Hf1).
  assert (Hs : valid_sector s) by (apply (freemap_valid bm); [done|rewrite He; left]).
  destruct (alloc_index_spec n 32 bm1) as (bm2 & HA & Ht2);
    [done|rewrite Hf1, length_drop; lia|done|]. rewrite Hf1 in HA.
  set (es := take n (drop 1 (bm_free bm))) in *.
  assert (Hes : length es = n) by (unfold es; rewrite length_take, length_drop; lia).
  assert (Hel : length (es ++ replicate (32 - n) 0) = 32%nat)
    by (rewrite length_app, length_replicate; lia).
  destruct (sd_write_ok d s (ints_to_bytes (es ++ replicate (32 - n) 0)) Hd Hs
              (index_block_sector _ Hel)) as (d' & HW & Hd' & Hsec).
  exists s, bm1, bm2, d'. split_and!; try done.
  - exact (taken_trans _ 1 _ n _ Ht Ht2).
  - rewrite Hsec, decide_True by done.
    rewrite <-(app_nil_r (ints_to_bytes _)).
    rewrite <-Hel at 1. rewrite ints_roundtrip; [by apply take_app_length'|].
    apply Forall_app. split; [|apply Forall_replicate; split; lia].
    apply (free_in_i32 bm); [done|]. intros i Hi. unfold es in Hi.
    by apply elem_of_take in Hi as (? & Hi & _); apply (list_elem_of_lookup_2 _ _ _) in Hi;
      rewrite He; right.
  - intros s' Hs' Hne. by rewrite Hsec, decide_False.
Qed.

Definition fh_with (h : FileHeader) (nb ns : Z) (ct ds : list Z) : FileHeader :=
  mkFileHeader nb ns ct (fh_updateTime h) (fh_accessTime h) ds.

Lemma owned_small h (d : D) : 0 <= fh_numSectors h <= 14 ->
  owned_sectors h d = take (Z.to_nat (fh_numSectors h)) (fh_dataSectors h)
  /\ file_sectors h d = take (Z.to_nat (fh_numSectors h)) (fh_dataSectors h)
  /\ index_sectors h = [].
Proof.
  intros Hn. unfold owned_sectors, file_sectors, index_sectors.
  rewrite !needs_index_spec by lia. destruct (Z.ltb_spec 14 (fh_numSectors h)); [lia|].
  rewrite take_take, app_nil_l, Nat.min_r by lia. rewrite (drop_ge _ 14).
  - by rewrite app_nil_r.
  - rewrite length_take. lia.
Qed.

Lemma owned_big h (d : D) : 14 < fh_numSectors h <= 46 -> length (fh_dataSectors h) = 15%nat ->
  owned_sectors h d = fh_dataSectors h
    ++ take (Z.to_nat (fh_numSectors h) - 14) (ints_of_bytes 32 (sd_sector d (fh_index h)))
  /\ index_sectors h = [fh_index h].
Proof.
  intros Hn Hlen. unfold owned_sectors, file_sectors, index_sectors.
  rewrite !needs_index_spec by lia. destruct (Z.ltb_spec 14 (fh_numSectors h)); [|lia].
  split; [|done]. rewrite take_app_length', drop_app_length' by (rewrite length_take; lia).
  rewrite (assoc_L (++)). f_equal. unfold fh_index. change (Z.to_nat NumDirect) with 14%nat.
  destruct (fh_dataSectors h !! 14%nat) as [s|] eqn:Hs; [|apply lookup_ge_None in Hs; lia].
  rewrite (list_lookup_total_correct _ _ _ Hs).
  rewrite <-(take_drop_middle _ _ _ Hs) at 2. rewrite (drop_ge _ 15) by lia. done.
Qed.

Lemma splice_0_all {A} (l data : list A) n : length data = n -> (n <= length l)%nat ->
  take n (splice l 0 data) = data /\ length (splice l 0 data) = length l.
Proof.
  intros Hd Hn. split; [|apply length_splice; lia]. unfold splice. simpl.
  by apply take_app_length'.
Qed.

Context (szTime : list Z) (h : FileHeader) (bm : BitMap) (d : D) (fileSize : Z).
Let n := divRoundUp fileSize SectorSize.
Let free := bm_free bm.
Context (Hok : freemap_ok bm) (Hd : sd_valid d) (Hlen : length (fh_dataSectors h) = 15%nat)
  (Hsize : 0 <= fileSize <= MaxFileSize) (Hfree : sectors_needed n <= Z.of_nat (length free)).

(** [Allocate] when the sectors suffice, for a file without and with an index sector. *)
Lemma Allocate_small : n <= 14 ->
  exists bm', FileHeader_Allocate szTime h bm d fileSize
      = Ok (true, fh_with h fileSize n (getFormatDate szTime (fh_createTime h))
                    (splice (fh_dataSectors h) 0 (take (Z.to_nat n) free)), bm', d)
    /\ taken bm (Z.to_nat n) bm'.
Proof.
  intros Hsmall. destruct (numSectors_bounds fileSize Hsize) as [Hn _]. fold n in Hn.
  unfold sectors_needed in Hfree. unfold FileHeader_Allocate. fold n.
  rewrite freemap_NumClear by done. cbn [mbind result_bind].
  rewrite needDirect_spec, needs_index_spec, Z.min_l by done. fold free.
  destruct (Z.ltb_spec 14 n); [lia|].
  destruct (Z.ltb_spec (Z.of_nat (length free)) n) as [?|_]; [lia|].
  destruct (alloc_direct_spec (Z.to_nat n) 0 (fh_set_size h fileSize n) bm) as (bm1 & HA & Ht);
    [apply Hok|fold free; lia|cbn [fh_set_size fh_dataSectors]; lia|].
  rewrite HA. exists bm1. by split.
Qed.

Lemma Allocate_big : 14 < n ->
  exists s bm' d', FileHeader_Allocate szTime h bm d fileSize
      = Ok (true, fh_with h fileSize n (getFormatDate szTime (fh_createTime h))
                    (<[14%nat := s]> (splice (fh_dataSectors h) 0 (take 14 free))), bm', d')
    /\ free !! 14%nat = Some s /\ taken bm (Z.to_nat n + 1) bm' /\ sd_valid d'
    /\ take (Z.to_nat n - 14) (ints_of_bytes 32 (sd_sector d' s))
       = take (Z.to_nat n - 14) (drop 15 free)
    /\ forall s', valid_sector s' -> s' <> s -> sd_sector d' s' = sd_sector d s'.
Proof.
  intros Hbig. destruct (numSectors_bounds fileSize Hsize) as [Hn _]. fold n in Hn.
  unfold sectors_needed in Hfree. unfold FileHeader_Allocate. fold n.
  rewrite freemap_NumClear by done. cbn [mbind result_bind].
  rewrite needDirect_spec, needs_index_spec, Z.min_r by lia. fold free.
  destruct (Z.ltb_spec 14 n); [|lia].
  destruct (Z.ltb_spec (Z.of_nat (length free)) n) as [?|_]; [lia|].
  destruct (alloc_direct_spec (Z.to_nat 14) 0 (fh_set_size h fileSize n) bm) as (bm1 & HA & Ht);
    [apply Hok|fold free; lia|cbn [fh_set_size fh_dataSectors]; lia|].
  rewrite HA. cbn [mbind result_bind]. pose proof Ht as (_ & _ & Hf1). fold free in Hf1.
  destruct (alloc_indirect_spec bm1 d (Z.to_nat n - 14))
    as (s & bm2 & bm3 & d' & HF & He & Hs & HI & Ht3 & HW & Hd' & Hidx & Hother);
    [exact (taken_freemap _ _ _ Hok Ht)|done|lia|rewrite Hf1, length_drop; lia|].
  rewrite HF. cbn [mbind result_bind]. change NumDirect with 14.
  rewrite u32_id by (unfold in_u32; lia).
  replace (n - 14) with (Z.of_nat (Z.to_nat n - 14)) by lia.
  rewrite HI. cbn [mbind result_bind]. rewrite HW.
  exists s, bm3, d'. rewrite Hf1 in He, Hidx. rewrite drop_drop in Hidx. split_and!; try done.
  - rewrite <-(Nat.add_0_r 14), <-lookup_drop. change 14%nat with (Z.to_nat 14). by rewrite He.
  - replace (Z.to_nat n + 1)%nat with (Z.to_nat 14 + S (Z.to_nat n - 14))%nat by lia.
    exact (taken_trans _ _ _ _ _ Ht Ht3).
Qed.
End Allocate.

Section Properties.
Context {D : Type} `{SectorDevice D}.

(** When the sectors suffice, the file owns the first free sectors in order. *)
Lemma Allocate_owned szTime h bm (d : D) fileSize :
  let n := divRoundUp fileSize SectorSize in
  freemap_ok bm -> sd_valid d -> length (fh_dataSectors h) = 15%nat ->
  0 <= fileSize <= MaxFileSize -> sectors_needed n <= Z.of_nat (length (bm_free bm)) ->
  exists ds bm' d', let h' := fh_with h fileSize n (getFormatDate szTime (fh_createTime h)) ds in
    FileHeader_Allocate szTime h bm d fileSize = Ok (true, h', bm', d')
    /\ length ds = 15%nat /\ (Forall in_i32 (fh_dataSectors h) -> Forall in_i32 ds)
    /\ owned_sectors h' d' = take (Z.to_nat (sectors_needed n)) (bm_free bm)
    /\ taken bm (Z.to_nat (sectors_needed n)) bm' /\ sd_valid d'
    /\ forall s, valid_sector s -> s ∉ index_sectors h' -> sd_sector d' s = sd_sector d s.
Proof.
  intros n Hok Hd Hlen Hsize Hfree.
  destruct (numSectors_bounds fileSize Hsize) as [Hn _]. fold n in Hn.
  destruct (Z.le_gt_cases n 14) as [Hs|Hb].
  - destruct (Allocate_small szTime h bm d fileSize Hok Hlen Hsize Hfree Hs) as (bm' & HA & Ht).
    fold n in HA, Ht. unfold sectors_needed in *.
    destruct (Z.ltb_spec 14 n); [lia|]. rewrite Z.add_0_r in *.
    destruct (splice_0_all (fh_dataSectors h) (take (Z.to_nat n) (bm_free bm)) (Z.to_nat n))
      as [Htk Hl]; [rewrite length_take; lia|lia|].
    eexists _, bm', d. cbv zeta. split; [exact HA|].
    split_and!; [lia|intros; apply Forall_splice; [done|by apply free_take_i32]| |done|done|done].
    match goal with |- owned_sectors ?h' _ = _ =>
      destruct (owned_small h' d) as (-> & _); [cbn [fh_with fh_numSectors]; lia|exact Htk]
    end.
  - destruct (Allocate_big szTime h bm d fileSize Hok Hd Hlen Hsize Hfree Hb)
      as (s & bm' & d' & HA & Hs & Ht & Hd' & Hidx & Hother).
    fold n in HA, Ht, Hidx. unfold sectors_needed in *.
    destruct (Z.ltb_spec 14 n); [|lia].
    destruct (splice_0_all (fh_dataSectors h) (take 14 (bm_free bm)) 14)
      as [Htk Hl]; [rewrite length_take; lia|lia|].
    set (ds := <[14%nat := s]> (splice (fh_dataSectors h) 0 (take 14 (bm_free bm)))) in *.
    assert (Hds : length ds = 15%nat) by (unfold ds; rewrite length_insert; lia).
    set (h' := fh_with h fileSize n (getFormatDate szTime (fh_createTime h)) ds).
    assert (Hix : fh_index h' = s).
    { unfold fh_index. apply list_lookup_total_insert_eq. rewrite Hl, Hlen.
      change (Z.to_nat NumDirect) with 14%nat. lia. }
    destruct (owned_big h' d') as [How Hi]; [unfold h'; simpl; lia|done|].
    exists ds, bm', d'. fold h'. cbv zeta. split; [exact HA|].
    replace (Z.to_nat (n + 1)) with (Z.to_nat n + 1)%nat by lia.
    split_and!; [done| | |done|done|].
    + intros Hi32. apply Forall_insert; [apply Forall_splice; [done|by apply free_take_i32]|].
      apply (proj1 (Forall_lookup _ _) (free_take_i32 bm 15 Hok) 14%nat).
      by rewrite lookup_take_lt by lia.
    + rewrite How, Hix. change (fh_numSectors h') with n. rewrite Hidx.
      change (fh_dataSectors h') with ds.
      replace ds with (take 15 (bm_free bm)).
      { replace (Z.to_nat n + 1)%nat with (15 + (Z.to_nat n - 14))%nat by lia.
        apply take_take_drop. }
      rewrite (take_S_r _ _ _ Hs), <-Htk at 1. symmetry. 
      unfold ds. rewrite insert_take_drop by lia. by rewrite (drop_ge _ 15) by lia.
    + intros s' Hs' Hne. apply Hother; [done|]. rewrite Hi, Hix in Hne. set_solver.
Qed.

(** [FileHeader::Allocate] of a file of at most [MaxFileSize] bytes.  Without
    enough free sectors it fails and changes neither the map nor the disk.  Otherwise
    the file gets the first free sectors in increasing order (the 14 direct ones, then
    the index sector when the file is longer, then the indexed ones), the map loses
    exactly these sectors, the header records the size, and only the index sector of the
    disk is written. *)
Theorem Allocate_spec szTime (h : FileHeader) (bm : BitMap) (d : D) (fileSize : Z) :
  let n := divRoundUp fileSize SectorSize in
  freemap_ok bm -> sd_valid d -> length (fh_dataSectors h) = 15%nat ->
  0 <= fileSize <= MaxFileSize ->
  (Z.of_nat (length (bm_free bm)) < n ->
   exists h', FileHeader_Allocate szTime h bm d fileSize = Ok (false, h', bm, d))
  /\ (sectors_needed n <= Z.of_nat (length (bm_free bm)) ->
   exists h' bm' d', FileHeader_Allocate szTime h bm d fileSize = Ok (true, h', bm', d')
     /\ fh_numBytes h' = fileSize /\ fh_numSectors h' = n
     /\ owned_sectors h' d' = take (Z.to_nat (sectors_needed n)) (bm_free bm)
     /\ bm_free bm' = drop (Z.to_nat (sectors_needed n)) (bm_free bm)
     /\ freemap_ok bm' /\ sd_valid d'
     /\ forall s, valid_sector s -> s ∉ index_sectors h' -> sd_sector d' s = sd_sector d s).
Proof.
  intros n Hok Hd Hlen Hsize. split.
  - intros Hlt. unfold FileHeader_Allocate. fold n. rewrite freemap_NumClear by done.
    cbn [mbind result_bind]. destruct (Z.ltb_spec (Z.of_nat (length (bm_free bm))) n); [|lia].
    eauto.
  - intros Hfree.
    destruct (Allocate_owned szTime h bm d fileSize Hok Hd Hlen Hsize Hfree)
      as (ds & bm' & d' & HA & _ & _ & How & Ht & Hd' & Hsec).
    eexists _, bm', d'. split; [exact HA|]. split_and!; try done.
    + apply Ht.
    + exact (taken_freemap _ _ _ Hok Ht).
Qed.

(** A header written to a sector and fetched back is the same header, and the
    write touches no other sector. *)
Theorem FileHeader_disk_roundtrip (h : FileHeader) (d : D) (s : Z) :
  fh_wf h -> sd_valid d -> valid_sector s ->
  exists d' d'', FileHeader_WriteBack h d s = Ok d'
    /\ FileHeader_FetchFrom d' s = Ok (h, d'')
    /\ same_sectors d' d''
    /\ forall s', valid_sector s' -> s' <> s -> sd_sector d'' s' = sd_sector d s'.
Proof.
  intros Hh Hd Hs. unfold FileHeader_WriteBack, FileHeader_FetchFrom.
  destruct (sd_write_ok d s (fh_bytes h) Hd Hs (fh_bytes_sector h Hh)) as (d' & HW & Hd' & Hsec).
  destruct (sd_read_ok d' s Hd' Hs) as (d'' & HR & Hd'' & Hsec').
  exists d', d''. rewrite HW, HR. cbn [mbind result_bind].
  rewrite (Hsec s), decide_True, fh_roundtrip by done. split_and!; try done.
  intros s' Hs' Hne. by rewrite Hsec', Hsec, decide_False.
Qed.

End Properties.

(** ** Deallocation and lookup *)

(** The index is read as characters: entry [i] comes back as the sign-extended low byte
    of the sector number stored there. *)
Lemma index_entry_i8 buf i e :
  is_sector buf -> ints_of_bytes 32 buf !! i = Some e ->
  index_entry buf (Z.of_nat i) = Ok (i8 e).
Proof.
  intros [Hl Hb] He. rewrite lookup_ints_of_bytes in He. case_decide as Hi; [|done].
  change (Z.to_nat SectorSize) with 128%nat in Hl.
  unfold index_entry. replace (Z.to_nat (Z.of_nat i * 4)) with (4 * i)%nat by lia.
  destruct (buf !! (4 * i)%nat) as [b|] eqn:Hlk; [|apply lookup_ge_None in Hlk; lia].
  cbn [deref mbind result_bind]. apply Some_inj in He. subst e. f_equal.
  unfold slice. rewrite (drop_S _ _ _ Hlk). cbn [take].
  unfold int_of_bytes. cbn [le_dec].
  rewrite Forall_lookup in Hb. specialize (Hb _ _ Hlk). unfold is_byte in Hb.
  set (r := le_dec _). clearbody r. wrap_lia.
Qed.

Lemma index_entry_small buf i e :
  is_sector buf -> ints_of_bytes 32 buf !! i = Some e -> 0 <= e < 128 ->
  index_entry buf (Z.of_nat i) = Ok e.
Proof. intros Hb He Hs. rewrite (index_entry_i8 _ _ _ Hb He), i8_id by lia. done. Qed.

Lemma dealloc_fold secs : forall bm,
  bm_wf bm -> NoDup secs ->
  Forall (fun s => 0 <= s < bm_numBits bm /\ bm_bit bm s = true) secs ->
  exists bm', result_fold dealloc_sector secs bm = Ok bm' /\ bm_wf bm'
    /\ bm_numBits bm' = bm_numBits bm
    /\ forall j, 0 <= j -> bm_bit bm' j = if decide (j ∈ secs) then false else bm_bit bm j.
Proof.
  induction secs as [|s secs IH]; intros bm Hwf Hnd Hall.
  { by exists bm. }
  apply Forall_cons in Hall as [[Hs Hbit] Hall]. apply NoDup_cons in Hnd as [Hni Hnd].
  destruct (BitMap_Clear_spec bm s Hwf Hs) as (bm1 & HC & Hwf1 & Hn1 & Hb1).
  destruct (IH bm1) as (bm2 & HF & Hwf2 & Hn2 & Hb2); [done|done| |].
  { rewrite Forall_forall in *. intros j Hj. destruct (Hall j Hj) as [Hr Hj1].
    rewrite Hn1, Hb1, decide_False by (lia || congruence). done. }
  assert (Hds : dealloc_sector s bm = Ok bm1).
  { unfold dealloc_sector. rewrite BitMap_Test_spec, Hbit by done. exact HC. }
  exists bm2. cbn [result_fold]. rewrite Hds. cbn [mbind result_bind]. split_and!; [done|done|congruence|].
  intros j Hj. rewrite Hb2, Hb1 by done.
  destruct (decide (j = s)) as [->|Hne];
    [rewrite (decide_True (P := s ∈ s :: secs)) by left; by case_decide|].
  destruct (decide (j ∈ secs)); [rewrite decide_True by (by right)|rewrite decide_False]; [done|done|].
  by rewrite elem_of_cons; intros [?|?].
Qed.

Lemma fold_direct {S} (f : Z -> S -> result S) ds n : forall k s,
  (k + n <= length ds)%nat ->
  result_fold (fun i s => x ← deref (ds !! i); f x s) (seq k n) s
  = result_fold f (slice ds k n) s.
Proof.
  induction n as [|n IH]; intros k s Hk; [done|].
  destruct (lookup_lt_is_Some_2 ds k) as [x Hx]; [lia|].
  unfold slice. rewrite (drop_S _ _ _ Hx). cbn [seq take result_fold]. rewrite Hx.
  cbn [deref mbind result_bind]. destruct (f x s); [|done]. cbn [mbind result_bind].
  apply IH. lia.
Qed.

Lemma dealloc_index_fold buf m : forall slots k bm,
  is_sector buf -> (m <= slots)%nat -> (k + m <= 32)%nat ->
  Forall (fun s => 0 <= s < 128) (slice (ints_of_bytes 32 buf) k m) ->
  dealloc_index slots (Z.of_nat k) (Z.of_nat (k + m)) buf bm
  = result_fold dealloc_sector (slice (ints_of_bytes 32 buf) k m) bm.
Proof.
  induction m as [|m IH]; intros slots k bm Hbuf Hs Hk Hall.
  { rewrite Nat.add_0_r. destruct slots; cbn [dealloc_index];
      destruct (Z.leb_spec (Z.of_nat k) (Z.of_nat k)); done || lia. }
  destruct slots as [|slots]; [lia|]. cbn [dealloc_index].
  destruct (Z.leb_spec (Z.of_nat (k + S m)) (Z.of_nat k)); [lia|].
  destruct (lookup_lt_is_Some_2 (ints_of_bytes 32 buf) k) as [e He];
    [rewrite length_ints_of_bytes; lia|].
  unfold slice in *. rewrite (drop_S _ _ _ He) in *. cbn [take result_fold] in *.
  apply Forall_cons in Hall as [Hes Hall].
  rewrite (index_entry_small _ _ _ Hbuf He Hes). cbn [mbind result_bind].
  destruct (dealloc_sector e bm) as [bm1|]; [|done]. cbn [mbind result_bind].
  rewrite <-(IH slots) by (done || lia). f_equal; lia.
Qed.

Section Deallocate.
Context {D : Type} `{SectorDevice D}.

(** The indexed sectors have numbers that survive the reading of the index as characters. *)
Definition index_readable (h : FileHeader) (d : D) : Prop :=
  Forall (fun s => 0 <= s < 128) (drop 14 (file_sectors h d)).

(** [Deallocate] clears the sectors one by one: direct, indexed, index. *)
Lemma Deallocate_fold h (d : D) bm :
  0 <= fh_numSectors h <= 46 -> length (fh_dataSectors h) = 15%nat -> sd_valid d ->
  (needs_index (fh_numSectors h) = true -> valid_sector (fh_index h)) ->
  index_readable h d ->
  exists d', sd_valid d' /\ same_sectors d d' /\
    FileHeader_Deallocate h bm d
    = (bm ← result_fold dealloc_sector (file_sectors h d ++ index_sectors h) bm; Ok (bm, d')).
Proof.
  intros Hn Hlen Hd Hidx Hread. unfold FileHeader_Deallocate.
  rewrite fold_direct by (rewrite needDirect_spec by done; lia).
  unfold index_readable, file_sectors, index_sectors in *.
  rewrite needDirect_spec by done. rewrite needs_index_spec in * by done.
  destruct (Z.ltb_spec 14 (fh_numSectors h)) as [Hbig|Hsmall].
  - rewrite drop_app_length' in Hread by (rewrite length_take; lia).
    destruct (sd_read_ok d (fh_index h) Hd (Hidx eq_refl)) as (d' & HR & Hd' & Hsame).
    exists d'. split_and!; [done|done|]. rewrite Z.min_r, result_fold_app by lia.
    rewrite result_fold_app. change (slice (fh_dataSectors h) 0 (Z.to_nat 14))
      with (take 14 (fh_dataSectors h)).
    destruct (result_fold _ (take 14 _) bm) as [bm1|]; [|done]. cbn [mbind result_bind].
    rewrite fh_index_lookup by done. cbn [deref mbind result_bind]. rewrite HR. cbn [mbind result_bind].
    change NumDirect with 14. rewrite u32_id by (unfold in_u32; lia).
    change (dealloc_index 32 0) with (dealloc_index 32 (Z.of_nat 0)).
    replace (fh_numSectors h - 14) with (Z.of_nat (0 + (Z.to_nat (fh_numSectors h) - 14))) by lia.
    rewrite dealloc_index_fold; [|by apply sd_sector_wf; auto|lia|lia|done].
    unfold slice. rewrite drop_0. cbn [result_fold].
    destruct (result_fold _ _ bm1) as [bm2|]; [|done]. cbn [mbind result_bind].
    by destruct (dealloc_sector _ bm2).
  - exists d. split_and!; [done|done|]. rewrite Z.min_l, app_nil_r by lia. done.
Qed.

Lemma owned_perm h (d : D) : owned_sectors h d ≡ₚ file_sectors h d ++ index_sectors h.
Proof.
  unfold owned_sectors. rewrite <-(take_drop 14 (file_sectors h d)) at 3.
  rewrite <-(assoc_L (++)). apply Permutation_app_head, Permutation_app_comm.
Qed.

Lemma owned_index h (d : D) : needs_index (fh_numSectors h) = true -> fh_index h ∈ owned_sectors h d.
Proof.
  intros Hi. rewrite owned_perm. unfold index_sectors. rewrite Hi. set_solver.
Qed.

Lemma Deallocate_frees h (d : D) bm :
  0 <= fh_numSectors h <= 46 -> length (fh_dataSectors h) = 15%nat -> sd_valid d ->
  freemap_ok bm -> NoDup (owned_sectors h d) -> index_readable h d ->
  (forall s, s ∈ owned_sectors h d -> valid_sector s /\ s ∉ bm_free bm) ->
  exists bm' d', FileHeader_Deallocate h bm d = Ok (bm', d')
    /\ same_sectors d d' /\ sd_valid d' /\ freemap_ok bm'
    /\ forall s, s ∈ bm_free bm' <-> s ∈ bm_free bm \/ s ∈ owned_sectors h d.
Proof.
  intros Hn Hlen Hd [Hwf Hnb] Hnd Hread Hown.
  destruct (Deallocate_fold h d bm Hn Hlen Hd) as (d' & Hd' & Hsame & HD);
    [intros; by apply Hown, owned_index|done|].
  destruct (dealloc_fold (file_sectors h d ++ index_sectors h) bm) as (bm' & HF & Hwf' & Hn' & Hb');
    [done|by rewrite <-owned_perm| |].
  { apply Forall_forall. intros s Hs. rewrite <-owned_perm in Hs.
    destruct (Hown s Hs) as [Hv Hf]. rewrite Hnb. split; [done|].
    destruct (bm_bit bm s) eqn:Hbs; [done|]. contradict Hf. apply bm_free_elem.
    by rewrite Hnb. }
  exists bm', d'. rewrite HD, HF. split_and!; [done|done|done|by split; [|congruence]|].
  intros s. rewrite !bm_free_elem, Hn', Hnb. split.
  - intros [Hs Hb]. rewrite Hb' in Hb by lia. rewrite owned_perm. case_decide; auto.
  - intros [[Hs Hb]|Ho].
    + split; [done|]. rewrite Hb' by lia. by case_decide.
    + destruct (Hown s Ho) as [Hv _]. split; [done|]. rewrite owned_perm in Ho.
      rewrite Hb', decide_True by (apply Hv || done). done.
Qed.
End Deallocate.

(** ** Properties of deallocation and lookup *)

Lemma bm_free_ext bm bm' :
  bm_numBits bm' = bm_numBits bm -> (forall s, s ∈ bm_free bm' <-> s ∈ bm_free bm) ->
  bm_free bm' = bm_free bm.
Proof.
  intros Hn Hiff. unfold bm_free. rewrite Hn. apply filter_ext_in. intros s Hs.
  apply elem_of_seqZ in Hs. specialize (Hiff s). rewrite !bm_free_elem, Hn in Hiff.
  split; intros Hb; [apply Hiff|apply Hiff]; split; done || lia.
Qed.

Section LookupProperties.
Context {D : Type} `{SectorDevice D}.

(** Creating and deleting a file leaves the free map as it was: after a successful
    [Allocate] of a file whose sectors all have numbers below 128 (or that needs no
    index sector), [Deallocate] succeeds and frees exactly the sectors taken. *)
Theorem Allocate_Deallocate szTime (h : FileHeader) (bm : BitMap) (d : D) (fileSize : Z) :
  let n := sectors_needed (divRoundUp fileSize SectorSize) in
  freemap_ok bm -> sd_valid d -> length (fh_dataSectors h) = 15%nat ->
  0 <= fileSize <= MaxFileSize -> n <= Z.of_nat (length (bm_free bm)) ->
  n <= 14 \/ Forall (fun s => s < 128) (take (Z.to_nat n) (bm_free bm)) ->
  exists h' bm' d', FileHeader_Allocate szTime h bm d fileSize = Ok (true, h', bm', d')
    /\ exists bm'' d'', FileHeader_Deallocate h' bm' d' = Ok (bm'', d'')
         /\ freemap_ok bm'' /\ bm_free bm'' = bm_free bm /\ same_sectors d' d''.
Proof.
  intros n Hok Hd Hlen Hsize Hfree Hsmall.
  destruct (Allocate_owned szTime h bm d fileSize Hok Hd Hlen Hsize Hfree)
    as (ds & bm' & d' & HA & Hds & _ & How & Ht & Hd' & _). fold n in How, Ht.
  set (h' := fh_with h fileSize _ _ ds) in *. exists h', bm', d'. split; [done|].
  destruct (numSectors_bounds fileSize Hsize) as [Hn _].
  assert (Hin : forall s, s ∈ take (Z.to_nat n) (bm_free bm) -> s ∈ bm_free bm).
  { intros s Hs. by apply elem_of_take in Hs as (i & Hi & _);
      apply list_elem_of_lookup_2 in Hi. }
  pose proof (bm_free_NoDup bm) as Hnd.
  rewrite <-(take_drop (Z.to_nat n) (bm_free bm)) in Hnd.
  apply NoDup_app in Hnd as (Hnd1 & Hnd2 & _).
  destruct Ht as (Hwf' & Hn' & Hf').
  destruct (Deallocate_frees h' d' bm') as (bm'' & d'' & HD & Hsame & Hd'' & Hok'' & Hfr);
    [done|done|done|exact (taken_freemap _ _ _ Hok (conj Hwf' (conj Hn' Hf')))|by rewrite How| | |].
  { unfold index_readable. apply Forall_forall. intros s Hs.
    assert (Ho : s ∈ owned_sectors h' d')
      by (unfold owned_sectors; rewrite !elem_of_app; auto).
    rewrite How in Ho. pose proof (freemap_valid _ _ Hok (Hin s Ho)) as [? _]. split; [done|].
    destruct Hsmall as [Hsm|Hsm]; [|by apply (proj1 (Forall_forall _ _) Hsm)].
    exfalso. revert Hs. unfold file_sectors. rewrite needs_index_spec by done.
    unfold n, sectors_needed in Hsm. change (fh_numSectors h') with (divRoundUp fileSize SectorSize).
    destruct (Z.ltb_spec 14 (divRoundUp fileSize SectorSize)); [lia|].
    rewrite drop_ge by (rewrite length_take; lia). apply not_elem_of_nil. }
  { intros s Hs. rewrite How in Hs. split; [by apply (freemap_valid bm); auto|].
    rewrite Hf'. intros Hs2. by apply (Hnd2 s). }
  exists bm'', d''. split_and!; [done|done| |done].
  apply bm_free_ext; [destruct Hok, Hok''; congruence|].
  intros s. rewrite Hfr, How, Hf'. rewrite <-(take_drop (Z.to_nat n) (bm_free bm)) at 3.
  rewrite elem_of_app. tauto.
Qed.

(** [ByteToSector] finds the data: for a byte of the file other than those of file
    sector 14, it returns the sector that holds it, provided an indexed sector has a
    number below 128, and it changes nothing on the disk. *)
Theorem ByteToSector_spec (h : FileHeader) (d : D) (offset s : Z) :
  fh_sized h -> length (fh_dataSectors h) = 15%nat -> sd_valid d ->
  (needs_index (fh_numSectors h) = true -> valid_sector (fh_index h)) ->
  0 <= offset < fh_numBytes h -> offset <> NumDirect * SectorSize ->
  file_sectors h d !! Z.to_nat (offset `div` SectorSize) = Some s ->
  offset < NumDirect * SectorSize \/ 0 <= s < 128 ->
  exists d', FileHeader_ByteToSector h d offset = Ok (s, d') /\ same_sectors d d' /\ sd_valid d'.
Proof.
  intros [Hnb Hns] Hlen Hd Hidx Hoff Hne Hs Hcase.
  destruct (numSectors_bounds _ Hnb) as [Hn Hb]. rewrite <-Hns in Hn, Hb.
  change MaxFileSize with 5888 in Hnb. change (NumDirect * SectorSize) with 1792 in *.
  unfold FileHeader_ByteToSector. change (NumDirect * SectorSize) with 1792.
  rewrite u32_id by (unfold in_u32; lia). unfold SectorSize in *.
  rewrite Z.quot_div_nonneg by lia.
  unfold file_sectors in Hs. rewrite needs_index_spec in * by done.
  destruct (Z.leb_spec offset 1792) as [Hle|Hgt].
  - rewrite decide_True by (Z.div_mod_to_equations; lia).
    assert (Hl : fh_dataSectors h !! Z.to_nat (offset `div` 128) = Some s).
    { assert (Hk : (Z.to_nat (offset `div` 128) < 14)%nat) by (Z.div_mod_to_equations; lia).
      destruct (14 <? fh_numSectors h).
      - rewrite lookup_app_l in Hs by (rewrite length_take; lia).
        by rewrite lookup_take_lt in Hs.
      - by apply lookup_take_Some in Hs as [? _]. }
    rewrite Hl. exists d. done.
  - assert (Hbig : 14 < fh_numSectors h) by lia.
    destruct (Z.ltb_spec 14 (fh_numSectors h)); [|lia].
    destruct (sd_read_ok d (fh_index h) Hd (Hidx eq_refl)) as (d' & HR & Hd' & Hsame).
    rewrite fh_index_lookup by done. cbn [deref mbind result_bind]. rewrite HR. cbn [mbind result_bind].
    rewrite u32_id by (unfold in_u32; lia). rewrite Z.quot_div_nonneg by lia.
    rewrite lookup_app_r in Hs by (rewrite length_take; Z.div_mod_to_equations; lia).
    apply lookup_take_Some in Hs as [Hs _]. rewrite length_take, Hlen in Hs.
    replace ((offset - 1792) `div` 128)
      with (Z.of_nat (Z.to_nat (offset `div` 128) - 14 `min` 15))
      by (Z.div_mod_to_equations; lia).
    rewrite (index_entry_small _ _ s); [|by apply sd_sector_wf; auto|done|lia].
    exists d'. done.
Qed.

(** The boundary of the direct table is off by one: the first byte behind the 14
    direct sectors (offset 1792) is looked up in the direct table, so the answer is the
    index sector itself, not the sector that the index names; file data written there
    overwrites the index. *)
Lemma ByteToSector_boundary (h : FileHeader) (d : D) :
  length (fh_dataSectors h) = 15%nat ->
  FileHeader_ByteToSector h d (NumDirect * SectorSize) = Ok (fh_index h, d).
Proof.
  intros Hlen. unfold FileHeader_ByteToSector.
  change (u32 (NumDirect * SectorSize) <=? NumDirect * SectorSize) with true. cbv iota.
  change ((NumDirect * SectorSize) `quot` SectorSize) with 14.
  rewrite decide_True by lia. change 14 with NumDirect. by rewrite fh_index_lookup.
Qed.

(** Sector numbers in the index are read as signed characters: behind offset 1792
    the answer is the stored number modulo 256, sign-extended, so every indexed sector
    with a number of at least 128 is mistaken for another one. *)
Lemma ByteToSector_truncates (h : FileHeader) (d : D) (offset s : Z) :
  length (fh_dataSectors h) = 15%nat -> sd_valid d -> valid_sector (fh_index h) ->
  NumDirect * SectorSize < offset < MaxFileSize ->
  ints_of_bytes 32 (sd_sector d (fh_index h)) !! Z.to_nat (offset `div` SectorSize - 14) = Some s ->
  128 <= s < NumSectors ->
  exists d', FileHeader_ByteToSector h d offset = Ok (i8 s, d') /\ i8 s <> s.
Proof.
  intros Hlen Hd Hidx Hoff Hs Hr. change (NumDirect * SectorSize) with 1792 in *.
  change MaxFileSize with 5888 in *. change NumSectors with 1024 in *.
  unfold FileHeader_ByteToSector. change (NumDirect * SectorSize) with 1792.
  rewrite u32_id by (unfold in_u32; lia). destruct (Z.leb_spec offset 1792); [lia|].
  destruct (sd_read_ok d (fh_index h) Hd Hidx) as (d' & HR & Hd' & Hsame).
  rewrite fh_index_lookup by done. cbn [deref mbind result_bind]. rewrite HR. cbn [mbind result_bind].
  unfold SectorSize in *. rewrite u32_id by (unfold in_u32; lia).
  rewrite Z.quot_div_nonneg by lia.
  replace ((offset - 1792) `div` 128) with (Z.of_nat (Z.to_nat (offset `div` 128 - 14)))
    by (Z.div_mod_to_equations; lia).
  rewrite (index_entry_i8 _ _ s); [|by apply sd_sector_wf|done].
  exists d'. split; [done|]. wrap_lia.
Qed.

(** C34.  Two offsets of a file with more than 14 sectors are looked up wrongly.  The boundary of
    the direct table is off by one: the first byte behind the 14 direct sectors (offset
    1792) is found in the index sector itself, not in the sector that the index names.  And
    sector numbers in the index are read as signed characters: an indexed sector with a
    number of at least 128 is mistaken for the number modulo 256, sign-extended. *)
Theorem ByteToSector_defects (h : FileHeader) (d : D) :
  length (fh_dataSectors h) = 15%nat -> sd_valid d -> valid_sector (fh_index h) ->
  FileHeader_ByteToSector h d (NumDirect * SectorSize) = Ok (fh_index h, d)
  /\ forall offset s, NumDirect * SectorSize < offset < MaxFileSize ->
     ints_of_bytes 32 (sd_sector d (fh_index h)) !! Z.to_nat (offset `div` SectorSize - 14) = Some s ->
     128 <= s < NumSectors ->
     exists d', FileHeader_ByteToSector h d offset = Ok (i8 s, d') /\ i8 s <> s.
Proof.
  intros Hl Hd Hi. split; [by apply ByteToSector_boundary|]. intros offset s Ho Hs Hr. by apply ByteToSector_truncates.
Qed.

End LookupProperties.

(** ** Concrete instances *)

Definition blank_header : FileHeader :=
  mkFileHeader 0 0 (replicate 20 0) (replicate 20 0) (replicate 20 0) (replicate 15 0).

Definition blank_map : BitMap := mkBitMap NumSectors (divRoundUp NumSectors BitsInWord) (replicate 32 0).

Lemma blank_map_ok : freemap_ok blank_map.
Proof. split; [|done]. by apply bm_wf_example. Qed.

Lemma blank_header_wf : fh_wf blank_header.
Proof.
  unfold fh_wf. cbn. split_and!; try done; repeat constructor; done.
Qed.

Lemma empty_disk_valid : sd_valid (D := gmap Z (list Z)) ∅.
Proof. apply map_Forall_empty. Qed.

Lemma FileHeader_disk_roundtrip_witness :
  exists d' d'', FileHeader_WriteBack blank_header (∅ : gmap Z (list Z)) 5 = Ok d'
    /\ FileHeader_FetchFrom d' 5 = Ok (blank_header, d'')
    /\ same_sectors d' d''
    /\ forall s', valid_sector s' -> s' <> 5 -> sd_sector d'' s' = sd_sector (∅ : gmap Z (list Z)) s'.
Proof.
  apply (FileHeader_disk_roundtrip blank_header (∅ : gmap Z (list Z)) 5);
    [apply blank_header_wf|apply empty_disk_valid|done].
Defined.

Lemma Allocate_spec_witness :
  let d : gmap Z (list Z) := ∅ in
  (Z.of_nat (length (bm_free blank_map)) < 20 ->
   exists h', FileHeader_Allocate [] blank_header blank_map d 2500 = Ok (false, h', blank_map, d))
  /\ (sectors_needed 20 <= Z.of_nat (length (bm_free blank_map)) ->
   exists h' bm' d', FileHeader_Allocate [] blank_header blank_map d 2500 = Ok (true, h', bm', d')
     /\ fh_numBytes h' = 2500 /\ fh_numSectors h' = 20
     /\ owned_sectors h' d' = take (Z.to_nat (sectors_needed 20)) (bm_free blank_map)
     /\ bm_free bm' = drop (Z.to_nat (sectors_needed 20)) (bm_free blank_map)
     /\ freemap_ok bm' /\ sd_valid d'
     /\ forall s, valid_sector s -> s ∉ index_sectors h' -> sd_sector d' s = sd_sector d s).
Proof.
  apply (Allocate_spec [] blank_header blank_map (∅ : gmap Z (list Z)) 2500);
    [apply blank_map_ok|apply empty_disk_valid|done|done].
Defined.

Lemma Allocate_Deallocate_witness :
  exists h' bm' (d' : gmap Z (list Z)),
    FileHeader_Allocate [] blank_header blank_map ∅ 2500 = Ok (true, h', bm', d')
    /\ exists bm'' d'', FileHeader_Deallocate h' bm' d' = Ok (bm'', d'')
         /\ freemap_ok bm'' /\ bm_free bm'' = bm_free blank_map /\ same_sectors d' d''.
Proof.
  apply (Allocate_Deallocate [] blank_header blank_map (∅ : gmap Z (list Z)) 2500);
    [apply blank_map_ok|apply empty_disk_valid|done|done|vm_compute; congruence|right].
  apply (bool_decide_unpack _). vm_compute. exact I.
Defined.

(** A header of 20 sectors whose index sector is 44 and whose index names 60, ..., 65. *)
Definition long_header : FileHeader :=
  mkFileHeader 2500 20 (replicate 20 0) (replicate 20 0) (replicate 20 0) (seqZ 30 15).

Definition long_disk (first : Z) : gmap Z (list Z) :=
  {[ 44 := ints_to_bytes (seqZ first 6 ++ replicate 26 0) ]}.

Lemma long_disk_valid first : sd_valid (long_disk first).
Proof.
  apply map_Forall_singleton, index_block_sector. rewrite length_app, length_seqZ. done.
Qed.

Lemma ByteToSector_spec_witness :
  exists d', FileHeader_ByteToSector long_header (long_disk 60) 1930 = Ok (61, d')
    /\ same_sectors (long_disk 60) d' /\ sd_valid d'.
Proof.
  apply (ByteToSector_spec long_header (long_disk 60) 1930 61);
    [split; done|done|apply long_disk_valid|done|done|done|reflexivity|right; done].
Defined.

Lemma ByteToSector_defects_witness :
  FileHeader_ByteToSector long_header (long_disk 200) (NumDirect * SectorSize) = Ok (fh_index long_header, long_disk 200)
  /\ forall offset s, NumDirect * SectorSize < offset < MaxFileSize ->
     ints_of_bytes 32 (sd_sector (long_disk 200) (fh_index long_header)) !! Z.to_nat (offset `div` SectorSize - 14) = Some s ->
     128 <= s < NumSectors ->
     exists d', FileHeader_ByteToSector long_header (long_disk 200) offset = Ok (i8 s, d') /\ i8 s <> s.
Proof. apply ByteToSector_defects; [done|apply long_disk_valid|done]. Defined.

(** Byte 1930 lies in sector 201, and is looked up in sector -55. *)
Example truncated_sector :
  exists d', FileHeader_ByteToSector long_header (long_disk 200) 1930 = Ok (-55, d').
Proof. eexists. vm_compute. reflexivity. Qed.
