(* ===== verification/OpenFile.v ===== *)
(** * filesys/openfile.cc: open files

    An open file is the in-memory copy of a header, the sector it lives in, and the
    current position.  Reads and writes of arbitrary byte ranges are assembled from whole
    sectors.  The contents of a freshly allocated buffer ([new char[...]]) is an argument
    [heap] of the operations that allocate one. *)

From S2P Require Import Prelude BitMap Disk FileHdr.

Record OpenFile := mkOpenFile {
  of_hdr : FileHeader;
  of_seekPosition : Z;
  of_hdrSector : Z
}.

(** [buf = new char[n]]: [n] bytes of whatever the allocator returns. *)
Definition new_chars (heap : list Z) (n : Z) : result (list Z) :=
  if n <? 0 then Err MemFault
  else Ok (take (Z.to_nat n) (heap ++ replicate (Z.to_nat n) 0)).

(** [bcopy(&buf[off], into, n)]: the bytes copied out of [buf]. *)
Definition copy_out (buf : list Z) (off n : Z) : result (list Z) :=
  if (0 <=? off) && (off + n <=? Z.of_nat (length buf))
  then Ok (slice buf (Z.to_nat off) (Z.to_nat n)) else Err MemFault.

(** [bcopy(data, &buf[off], length of data)]: [buf] after the copy. *)
Definition copy_in (buf : list Z) (off : Z) (data : list Z) : result (list Z) :=
  if (0 <=? off) && (off + Z.of_nat (length data) <=? Z.of_nat (length buf))
  then Ok (splice buf (Z.to_nat off) data) else Err MemFault.

(** The request of [ReadAt] and [WriteAt] after the check against the file length:
    [None] if there is nothing to do, else the number of bytes. *)
Definition clip_request (fileLength numBytes position : Z) : option Z :=
  if (numBytes <=? 0) || (fileLength <=? position) then None
  else Some (if fileLength <? i32 (position + numBytes) then i32 (fileLength - position)
             else numBytes).

Definition firstSector (position : Z) : Z := divRoundDown position SectorSize.
Definition lastSector (position numBytes : Z) : Z :=
  divRoundDown (i32 (position + numBytes - 1)) SectorSize.

Section Device.
Context {D : Type} `{SectorDevice D}.

Definition OpenFile_new (d : D) (sector : Z) : result (OpenFile * D) :=
  '(h, d) ← FileHeader_FetchFrom d sector; Ok (mkOpenFile h 0 sector, d).

Definition OpenFile_Seek (f : OpenFile) (position : Z) : OpenFile :=
  mkOpenFile (of_hdr f) position (of_hdrSector f).

Definition OpenFile_Length (f : OpenFile) : Z := FileHeader_FileLength (of_hdr f).

(** The loop over the sectors of a request: the buffer grows sector by sector. *)
Fixpoint read_sectors (h : FileHeader) (idxs : list Z) (buf : list Z) (d : D)
    : result (list Z * D) :=
  match idxs with
  | [] => Ok (buf, d)
  | i :: idxs =>
      '(s, d) ← FileHeader_ByteToSector h d (i * SectorSize);
      '(data, d) ← sd_read d s;
      read_sectors h idxs (buf ++ data) d
  end.

Fixpoint write_sectors (h : FileHeader) (idxs : list Z) (buf : list Z) (d : D) : result D :=
  match idxs with
  | [] => Ok d
  | i :: idxs =>
      '(s, d) ← FileHeader_ByteToSector h d (i * SectorSize);
      d ← sd_write d s (take (Z.to_nat SectorSize) buf);
      write_sectors h idxs (drop (Z.to_nat SectorSize) buf) d
  end.

(** [OpenFile::ReadAt]: the bytes copied to [into]; their number is the result. *)
Definition OpenFile_ReadAt (f : OpenFile) (d : D) (numBytes position : Z)
    : result (list Z * D) :=
  match clip_request (FileHeader_FileLength (of_hdr f)) numBytes position with
  | None => Ok ([], d)
  | Some numBytes =>
      let first := firstSector position in
      let last := lastSector position numBytes in
      let numSectors := i32 (1 + last - first) in
      _ ← new_chars [] (i32 (numSectors * SectorSize));
      '(buf, d) ← read_sectors (of_hdr f) (seqZ first (last - first + 1)) [] d;
      data ← copy_out buf (position - first * SectorSize) numBytes;
      Ok (data, d)
  end.

(** [OpenFile::WriteAt] *)
Definition OpenFile_WriteAt (heap : list Z) (f : OpenFile) (d : D) (from : list Z)
    (numBytes position : Z) : result (Z * D) :=
  match clip_request (FileHeader_FileLength (of_hdr f)) numBytes position with
  | None => Ok (0, d)
  | Some numBytes =>
      let first := firstSector position in
      let last := lastSector position numBytes in
      let numSectors := i32 (1 + last - first) in
      buf ← new_chars heap (i32 (numSectors * SectorSize));
      let firstAligned := position =? first * SectorSize in
      let lastAligned := i32 (position + numBytes) =? (last + 1) * SectorSize in
      '(buf, d) ← (if negb firstAligned then
                     '(data, d) ← OpenFile_ReadAt f d SectorSize (first * SectorSize);
                     buf ← copy_in buf 0 data;
                     Ok (buf, d)
                   else Ok (buf, d));
      '(buf, d) ← (if negb lastAligned && (negb (first =? last) || firstAligned) then
                     '(data, d) ← OpenFile_ReadAt f d SectorSize (last * SectorSize);
                     buf ← copy_in buf ((last - first) * SectorSize) data;
                     Ok (buf, d)
                   else Ok (buf, d));
      data ← copy_out from 0 numBytes;
      buf ← copy_in buf (position - first * SectorSize) data;
      d ← write_sectors (of_hdr f) (seqZ first (last - first + 1)) buf d;
      Ok (numBytes, d)
  end.

(** [OpenFile::Read] and [Write]: at the current position; both stamp the access time
    and write the header back. *)
Definition OpenFile_Read (szTime : list Z) (f : OpenFile) (d : D) (numBytes : Z)
    : result (list Z * OpenFile * D) :=
  '(data, d) ← OpenFile_ReadAt f d numBytes (of_seekPosition f);
  let h := setAccessTime szTime (of_hdr f) in
  d ← FileHeader_WriteBack h d (of_hdrSector f);
  Ok (data, mkOpenFile h (i32 (of_seekPosition f + Z.of_nat (length data))) (of_hdrSector f), d).

Definition OpenFile_Write (heap szTime : list Z) (f : OpenFile) (d : D) (from : list Z)
    (numBytes : Z) : result (Z * OpenFile * D) :=
  '(n, d) ← OpenFile_WriteAt heap f d from numBytes (of_seekPosition f);
  let h := setAccessTime szTime (of_hdr f) in
  d ← FileHeader_WriteBack h d (of_hdrSector f);
  Ok (n, mkOpenFile h (i32 (of_seekPosition f + n)) (of_hdrSector f), d).

(** ** The contents of a file *)

Definition sectors_data (d : D) (secs : list Z) : list Z := secs ≫= sd_sector d.

(** The bytes of the file. *)
Definition file_content (h : FileHeader) (d : D) : list Z :=
  take (Z.to_nat (fh_numBytes h)) (sectors_data d (file_sectors h d)).

Lemma length_sectors_data d secs :
  sd_valid d -> Forall valid_sector secs -> length (sectors_data d secs) = (128 * length secs)%nat.
Proof.
  intros Hd. induction 1 as [|s secs Hs _ IH]; [done|].
  unfold sectors_data in *. rewrite bind_cons, length_app, IH. cbn [length].
  destruct (sd_sector_wf d s Hd Hs) as [-> _]. change (Z.to_nat SectorSize) with 128%nat. lia.
Qed.

Lemma sectors_data_bytes d secs :
  sd_valid d -> Forall valid_sector secs -> Forall is_byte (sectors_data d secs).
Proof.
  intros Hd. induction 1 as [|s secs Hs _ IH]; [constructor|].
  unfold sectors_data in *. rewrite bind_cons. apply Forall_app. split; [|done].
  by apply sd_sector_wf.
Qed.

Lemma sectors_data_ext d d' secs :
  (forall s, s ∈ secs -> sd_sector d' s = sd_sector d s) -> sectors_data d' secs = sectors_data d secs.
Proof.
  induction secs as [|s secs IH]; intros Hs; [done|]. unfold sectors_data in *.
  rewrite !bind_cons, IH, (Hs s); [done|left|]. intros x Hx. apply Hs. by right.
Qed.

Lemma sectors_data_same d d' secs :
  same_sectors d d' -> Forall valid_sector secs -> sectors_data d' secs = sectors_data d secs.
Proof.
  intros Hsame Hv. apply sectors_data_ext. intros s Hs. apply Hsame.
  by apply (proj1 (Forall_forall _ _) Hv).
Qed.

Lemma sectors_data_app d l k : sectors_data d (l ++ k) = sectors_data d l ++ sectors_data d k.
Proof. apply bind_app. Qed.

Lemma sectors_data_slice d secs k m :
  sd_valid d -> Forall valid_sector secs -> (k + m <= length secs)%nat ->
  slice (sectors_data d secs) (128 * k) (128 * m) = sectors_data d (slice secs k m).
Proof.
  intros Hd Hv Hk. unfold slice.
  rewrite <-(take_drop k secs) at 1. rewrite sectors_data_app.
  rewrite drop_app_length'
    by (rewrite length_sectors_data; [rewrite length_take; lia|done|by apply Forall_take]).
  rewrite <-(take_drop m (drop k secs)) at 1. rewrite sectors_data_app.
  apply take_app_length'. rewrite length_sectors_data, length_take, length_drop;
    [lia|done|by apply Forall_take, Forall_drop].
Qed.

Lemma splice_middle {A} (a b b' c : list A) n :
  length a = n -> length b' = length b -> splice (a ++ b ++ c) n b' = a ++ b' ++ c.
Proof.
  intros Ha Hb. unfold splice. rewrite take_app_length' by done.
  rewrite Hb, <-drop_drop, drop_app_length' by done. by rewrite drop_app_length'.
Qed.

Lemma splice_app {A} (l a b : list A) n :
  (n + length a + length b <= length l)%nat ->
  splice (splice l n a) (n + length a) b = splice l n (a ++ b).
Proof.
  intros Hl. apply list_eq. intros i.
  rewrite !lookup_splice by (rewrite ?length_splice, ?length_app; lia).
  rewrite length_app, lookup_app. repeat case_decide; try lia; try done.
  - rewrite (lookup_ge_None_2 a) by lia. f_equal. lia.
  - destruct (lookup_lt_is_Some_2 a (i - n)) as [x Hx]; [lia|]. by rewrite Hx.
Qed.

(** Overwriting one sector of a file. *)
Lemma sectors_data_write d d' secs k s data :
  sd_valid d -> Forall valid_sector secs -> NoDup secs -> secs !! k = Some s -> is_sector data ->
  (forall s', valid_sector s' ->
     sd_sector d' s' = if decide (s' = s) then data else sd_sector d s') ->
  sectors_data d' secs = splice (sectors_data d secs) (128 * k) data.
Proof.
  intros Hd Hv Hnd Hk [Hdl _] Hsec. pose proof (lookup_lt_Some _ _ _ Hk) as Hkl.
  pose proof (take_drop_middle _ _ _ Hk) as Hm. rewrite <-Hm in Hv, Hnd |- *.
  apply Forall_app in Hv as [Hv1 [Hvs Hv2]%Forall_cons].
  apply NoDup_app in Hnd as (Hnd1 & Hnd2 & [Hnd3 _]%NoDup_cons).
  assert (Hrest : forall l, Forall valid_sector l -> s ∉ l -> sectors_data d' l = sectors_data d l).
  { intros l Hl Hni. apply sectors_data_ext. intros x Hx.
    rewrite Hsec by (by apply (proj1 (Forall_forall _ _) Hl)). rewrite decide_False; congruence. }
  rewrite !sectors_data_app. unfold sectors_data at 2 4. rewrite !bind_cons.
  fold (sectors_data d' (drop (S k) secs)) (sectors_data d (drop (S k) secs)).
  rewrite (Hrest (take k secs)), (Hrest (drop (S k) secs)) by (done || set_solver).
  rewrite Hsec, decide_True by done. symmetry. apply splice_middle.
  - rewrite length_sectors_data, length_take by done. lia.
  - rewrite Hdl. by destruct (sd_sector_wf d s Hd Hvs).
Qed.

End Device.

(** ** Files without an index sector *)

Definition direct_sectors (h : FileHeader) : list Z :=
  take (Z.to_nat (fh_numSectors h)) (fh_dataSectors h).

(** At most [NumDirect] sectors, all different and on the disk. *)
Definition direct_file (h : FileHeader) : Prop :=
  0 <= fh_numBytes h /\ fh_numSectors h = divRoundUp (fh_numBytes h) SectorSize
  /\ fh_numSectors h <= 14 /\ length (fh_dataSectors h) = 15%nat
  /\ Forall valid_sector (direct_sectors h) /\ NoDup (direct_sectors h).

Lemma direct_bounds h : direct_file h ->
  0 <= fh_numSectors h <= 14 /\ fh_numBytes h <= 128 * fh_numSectors h < fh_numBytes h + 128
  /\ length (direct_sectors h) = Z.to_nat (fh_numSectors h).
Proof.
  intros (Hb & Hn & Hle & Hlen & _).
  pose proof (divRoundUp_bounds (fh_numBytes h) SectorSize) as Hd.
  unfold direct_sectors. rewrite length_take. rewrite <-Hn in Hd. unfold SectorSize in Hd. lia.
Qed.

Section DirectFiles.
Context {D : Type} `{SectorDevice D}.

Lemma file_sectors_direct h (d : D) : direct_file h -> file_sectors h d = direct_sectors h.
Proof. intros Hh. apply owned_small. apply direct_bounds in Hh. lia. Qed.

Lemma ByteToSector_direct h (d : D) i s :
  direct_file h -> direct_sectors h !! i = Some s ->
  FileHeader_ByteToSector h d (Z.of_nat i * SectorSize) = Ok (s, d).
Proof.
  intros Hh Hs. destruct (direct_bounds h Hh) as (Hn & _ & Hl).
  pose proof (lookup_lt_Some _ _ _ Hs) as Hi. rewrite Hl in Hi.
  unfold FileHeader_ByteToSector. unfold SectorSize.
  rewrite u32_id by (unfold in_u32; lia). change (NumDirect * 128) with 1792.
  destruct (Z.leb_spec (Z.of_nat i * 128) 1792); [|lia].
  rewrite Z.quot_mul, decide_True, Nat2Z.id by lia.
  unfold direct_sectors in Hs. apply lookup_take_Some in Hs as [-> _]. done.
Qed.

Lemma seqZ_S k m : seqZ (Z.of_nat k) (Z.of_nat (S m)) = Z.of_nat k :: seqZ (Z.of_nat (S k)) (Z.of_nat m).
Proof.
  rewrite seqZ_cons by lia. do 2 f_equal; lia.
Qed.

Lemma read_sectors_spec h m : direct_file h -> forall k buf (d : D),
  sd_valid d -> (k + m <= length (direct_sectors h))%nat ->
  exists d', read_sectors h (seqZ (Z.of_nat k) (Z.of_nat m)) buf d
      = Ok (buf ++ sectors_data d (slice (direct_sectors h) k m), d')
    /\ sd_valid d' /\ same_sectors d d'.
Proof.
  intros Hh. pose proof Hh as (_ & _ & _ & _ & Hv & _).
  induction m as [|m IH]; intros k buf d Hd Hk.
  { exists d. rewrite app_nil_r. done. }
  rewrite seqZ_S. cbn [read_sectors].
  destruct (lookup_lt_is_Some_2 (direct_sectors h) k) as [s Hs]; [lia|].
  rewrite (ByteToSector_direct h d k s Hh Hs). cbn [mbind result_bind].
  pose proof (proj1 (Forall_lookup _ _) Hv _ _ Hs) as Hvs.
  destruct (sd_read_ok d s Hd Hvs) as (d1 & -> & Hd1 & Hsame1). cbn [mbind result_bind].
  destruct (IH (S k) (buf ++ sd_sector d s) d1) as (d2 & -> & Hd2 & Hsame2); [done|lia|].
  exists d2. split_and!; [|done|by transitivity d1].
  rewrite <-(assoc_L (++)). rewrite (sectors_data_same d d1) by (done || by apply Forall_slice).
  unfold slice. by rewrite (drop_S _ _ _ Hs).
Qed.

Lemma write_sectors_spec h m : direct_file h -> forall k buf (d : D),
  sd_valid d -> (k + m <= length (direct_sectors h))%nat ->
  length buf = (128 * m)%nat -> Forall is_byte buf ->
  exists d', write_sectors h (seqZ (Z.of_nat k) (Z.of_nat m)) buf d = Ok d' /\ sd_valid d'
    /\ sectors_data d' (direct_sectors h)
       = splice (sectors_data d (direct_sectors h)) (128 * k) buf
    /\ forall s, valid_sector s -> s ∉ direct_sectors h -> sd_sector d' s = sd_sector d s.
Proof.
  intros Hh. pose proof Hh as (_ & _ & _ & _ & Hv & Hnd).
  induction m as [|m IH]; intros k buf d Hd Hk Hbuf Hbytes.
  { destruct buf; [|simpl in Hbuf; lia]. exists d. split_and!; [done|done| |done].
    by rewrite splice_nil. }
  rewrite seqZ_S. cbn [write_sectors].
  destruct (lookup_lt_is_Some_2 (direct_sectors h) k) as [s Hs]; [lia|].
  rewrite (ByteToSector_direct h d k s Hh Hs). cbn [mbind result_bind].
  pose proof (proj1 (Forall_lookup _ _) Hv _ _ Hs) as Hvs.
  change (Z.to_nat SectorSize) with 128%nat.
  assert (Hchunk : is_sector (take 128 buf)).
  { split; [rewrite length_take; change (Z.to_nat SectorSize) with 128%nat; lia
           |by apply Forall_take]. }
  destruct (sd_write_ok d s (take 128 buf) Hd Hvs Hchunk) as (d1 & -> & Hd1 & Hsec).
  cbn [mbind result_bind].
  pose proof (sectors_data_write d d1 _ k s _ Hd Hv Hnd Hs Hchunk Hsec) as Hd1data.
  destruct (IH (S k) (drop 128 buf) d1) as (d2 & -> & Hd2 & Hdata2 & Hother2);
    [done|lia|rewrite length_drop; lia|by apply Forall_drop|].
  assert (Hcl : length (take 128 buf) = 128%nat) by (rewrite length_take; lia).
  exists d2. split_and!; [done|done| |].
  - rewrite Hdata2, Hd1data. replace (128 * S k)%nat with (128 * k + length (take 128 buf))%nat by lia.
    rewrite splice_app; [by rewrite take_drop|].
    rewrite length_sectors_data, Hcl, length_drop by done. lia.
  - intros s' Hs' Hni. rewrite Hother2, Hsec, decide_False by done || (intros ->; apply Hni; by apply list_elem_of_lookup_2 in Hs). done.
Qed.

(** ** Reading *)

Lemma sectors_range h pos n :
  direct_file h -> 0 <= pos -> 0 < n -> pos + n <= fh_numBytes h ->
  let first := pos `div` 128 in let last := (pos + n - 1) `div` 128 in
  firstSector pos = first /\ lastSector pos n = last
  /\ 0 <= first <= last /\ last < fh_numSectors h
  /\ i32 (1 + last - first) = last - first + 1
  /\ i32 ((last - first + 1) * SectorSize) = (last - first + 1) * 128
  /\ 128 * first <= pos < 128 * first + 128
  /\ 128 * last < pos + n <= 128 * last + 128.
Proof.
  intros Hh Hp Hn Hle first last. destruct (direct_bounds h Hh) as (Hns & Hnb & _).
  assert (Hf : 0 <= first <= last /\ last < fh_numSectors h
    /\ 128 * first <= pos < 128 * first + 128 /\ 128 * last < pos + n <= 128 * last + 128).
  { unfold first, last. Z.div_mod_to_equations. lia. }
  unfold firstSector, lastSector, divRoundDown, SectorSize.
  rewrite !i32_id by (unfold in_i32; lia).
  rewrite !Z.quot_div_nonneg by lia. fold first last. lia.
Qed.

Lemma clip_request_spec len n pos :
  0 <= len <= 1792 -> 0 <= pos -> pos + n < 2 ^ 31 ->
  clip_request len n pos
  = if decide (0 < n /\ pos < len) then Some (Z.min n (len - pos)) else None.
Proof.
  intros. unfold clip_request. case_decide as Hd.
  - destruct (Z.leb_spec n 0); [lia|]. destruct (Z.leb_spec len pos); [lia|]. cbn [orb].
    rewrite !i32_id by (unfold in_i32; lia).
    destruct (Z.ltb_spec len (pos + n)); f_equal; lia.
  - destruct (Z.leb_spec n 0); [done|]. destruct (Z.leb_spec len pos); [done|lia].
Qed.

Lemma new_chars_ok heap n : 0 <= n -> exists buf, new_chars heap n = Ok buf
  /\ length buf = Z.to_nat n /\ (Forall is_byte heap -> Forall is_byte buf).
Proof.
  intros Hn. unfold new_chars. destruct (Z.ltb_spec n 0); [lia|]. eexists. split; [done|].
  split.
  - rewrite length_take, length_app, length_replicate. lia.
  - intros Hh. apply Forall_take, Forall_app. split; [done|].
    apply Forall_replicate. unfold is_byte. lia.
Qed.

Lemma slice_slice {A} (l : list A) a b c e :
  (c + e <= b)%nat -> slice (slice l a b) c e = slice l (a + c) e.
Proof.
  intros Hc. apply list_eq. intros i. rewrite !lookup_slice. case_decide; [|done].
  rewrite decide_True by lia. f_equal. lia.
Qed.

(** A request inside the file. *)
Lemma ReadAt_inside h seek hs (d : D) n pos :
  direct_file h -> sd_valid d -> 0 <= pos -> 0 < n -> pos < fh_numBytes h -> pos + n < 2 ^ 31 ->
  exists d', OpenFile_ReadAt (mkOpenFile h seek hs) d n pos
      = Ok (slice (file_content h d) (Z.to_nat pos) (Z.to_nat n), d')
    /\ sd_valid d' /\ same_sectors d d'.
Proof.
  intros Hh Hd Hp Hn Hpl Hov. unfold OpenFile_ReadAt, FileHeader_FileLength. cbn [of_hdr].
  destruct (direct_bounds h Hh) as (Hns & Hnb & Hl).
  rewrite clip_request_spec, decide_True by lia.
  set (k := Z.min n (fh_numBytes h - pos)).
  destruct (sectors_range h pos k Hh) as (Hf & Hla & Hfl & Hln & Hi & Hi2 & Hfp & Hlp); [lia..|].
  rewrite Hf, Hla. set (first := pos `div` 128) in *. set (last := (pos + k - 1) `div` 128) in *.
  cbv zeta. rewrite Hi, Hi2.
  destruct (new_chars_ok [] ((last - first + 1) * 128)) as (b & -> & _); [lia|].
  cbn [mbind result_bind].
  replace (seqZ first (last - first + 1))
    with (seqZ (Z.of_nat (Z.to_nat first)) (Z.of_nat (Z.to_nat (last - first + 1))))
    by (f_equal; lia).
  destruct (read_sectors_spec h (Z.to_nat (last - first + 1)) Hh (Z.to_nat first) [] d Hd)
    as (d' & -> & Hd' & Hsame); [lia|].
  cbn [mbind result_bind app]. pose proof Hh as (_ & _ & _ & _ & Hv & _).
  rewrite <-sectors_data_slice by (done || lia).
  assert (Hsl : length (slice (sectors_data d (direct_sectors h)) (128 * Z.to_nat first)
      (128 * Z.to_nat (last - first + 1))) = (128 * Z.to_nat (last - first + 1))%nat).
  { apply length_slice. rewrite length_sectors_data by done. lia. }
  unfold copy_out, SectorSize. rewrite Hsl.
  destruct (Z.leb_spec 0 (pos - first * 128)); [|lia].
  destruct (Z.leb_spec (pos - first * 128 + k) (Z.of_nat (128 * Z.to_nat (last - first + 1))));
    [|lia]. cbn [andb mbind result_bind].
  exists d'. split_and!; [|done|done]. do 2 f_equal. rewrite slice_slice by lia.
  unfold file_content. rewrite file_sectors_direct by done.
  apply list_eq. intros i. rewrite !lookup_slice.
  replace (128 * Z.to_nat first + Z.to_nat (pos - first * 128))%nat with (Z.to_nat pos) by lia.
  case_decide; case_decide; [by rewrite lookup_take_lt by lia|lia| |done].
  rewrite lookup_take_ge by lia. done.
Qed.

End DirectFiles.

(** ** Writing *)

Section Writing.
Context {D : Type} `{SectorDevice D}.

Lemma length_file_content h (d : D) :
  direct_file h -> sd_valid d -> length (file_content h d) = Z.to_nat (fh_numBytes h).
Proof.
  intros Hh Hd. pose proof Hh as (_ & _ & _ & _ & Hv & _).
  destruct (direct_bounds h Hh) as (Hn & Hb & Hl).
  unfold file_content. rewrite file_sectors_direct, length_take, length_sectors_data by done. lia.
Qed.

Lemma file_content_bytes h (d : D) :
  direct_file h -> sd_valid d -> Forall is_byte (file_content h d).
Proof.
  intros Hh Hd. pose proof Hh as (_ & _ & _ & _ & Hv & _).
  apply Forall_take. rewrite file_sectors_direct by done. by apply sectors_data_bytes.
Qed.

Lemma file_content_same h (d d' : D) :
  direct_file h -> same_sectors d d' -> file_content h d' = file_content h d.
Proof.
  intros Hh Hs. pose proof Hh as (_ & _ & _ & _ & Hv & _).
  unfold file_content. by rewrite !file_sectors_direct, (sectors_data_same d d') by done.
Qed.

Lemma copy_in_ok buf off data :
  0 <= off -> off + Z.of_nat (length data) <= Z.of_nat (length buf) ->
  copy_in buf off data = Ok (splice buf (Z.to_nat off) data).
Proof.
  intros. unfold copy_in. destruct (Z.leb_spec 0 off); [|lia].
  by destruct (Z.leb_spec (off + Z.of_nat (length data)) (Z.of_nat (length buf))); [|lia].
Qed.

(** [buf] holds file sector [j] (as far as the file goes) from index [128 * q] on. *)
Definition loaded (content buf buf' : list Z) (j q : nat) : Prop :=
  length buf' = length buf /\ (Forall is_byte buf -> Forall is_byte buf')
  /\ forall i, buf' !! i =
       if decide (128 * q <= i < 128 * q + 128 /\ 128 * j + i - 128 * q < length content)%nat
       then content !! (128 * j + i - 128 * q)%nat else buf !! i.

(** The partially modified first or last sector is read into the buffer. *)
Lemma load_sector h seek hs (d : D) buf j q :
  direct_file h -> sd_valid d -> 128 * Z.of_nat j < fh_numBytes h ->
  (128 * q + 128 <= length buf)%nat ->
  exists buf' d',
    ('(data, d) ← OpenFile_ReadAt (mkOpenFile h seek hs) d SectorSize (Z.of_nat j * SectorSize);
     buf ← copy_in buf (Z.of_nat q * SectorSize) data; Ok (buf, d)) = Ok (buf', d')
    /\ sd_valid d' /\ same_sectors d d' /\ loaded (file_content h d) buf buf' j q.
Proof.
  intros Hh Hd Hj Hq. destruct (direct_bounds h Hh) as (Hn & Hb & Hl). unfold SectorSize.
  destruct (ReadAt_inside h seek hs d 128 (Z.of_nat j * 128)) as (d' & -> & Hd' & Hsame);
    [done|done|lia..|].
  cbn [mbind result_bind]. set (data := slice _ _ _).
  pose proof (length_file_content h d Hh Hd) as Hcl.
  assert (Hdl : length data = (128 `min` (length (file_content h d) - 128 * j))%nat).
  { unfold data, slice. rewrite length_take, length_drop. lia. }
  rewrite copy_in_ok by lia. cbn [mbind result_bind].
  eexists _, d'. split_and!; [done|done|done|]. split_and!.
  - apply length_splice. lia.
  - intros Hbuf. apply Forall_splice; [done|]. by apply Forall_slice, file_content_bytes.
  - intros i. rewrite lookup_splice by lia. rewrite Hdl. unfold data. rewrite lookup_slice.
    repeat case_decide; try lia; try done. f_equal. lia.
Qed.

(** What [WriteAt] has in its buffer before it copies the new data in: the old contents
    of every byte of the affected sectors that is not overwritten. *)
Lemma write_buffer h seek hs (d : D) buf first last pos k :
  direct_file h -> sd_valid d -> Forall is_byte buf ->
  (first <= last)%nat -> length buf = (128 * (last - first + 1))%nat ->
  (128 * first <= pos < 128 * first + 128)%nat ->
  (128 * last < pos + k <= 128 * last + 128)%nat -> Z.of_nat (pos + k) <= fh_numBytes h ->
  exists buf1 d1 buf2 d2,
    (if negb (Z.of_nat pos =? Z.of_nat first * SectorSize) then
       '(data, d) ← OpenFile_ReadAt (mkOpenFile h seek hs) d SectorSize (Z.of_nat first * SectorSize);
       buf ← copy_in buf 0 data; Ok (buf, d)
     else Ok (buf, d)) = Ok (buf1, d1)
    /\ (if negb (Z.of_nat (pos + k) =? (Z.of_nat last + 1) * SectorSize)
           && (negb (Z.of_nat first =? Z.of_nat last) || (Z.of_nat pos =? Z.of_nat first * SectorSize))
        then
          '(data, d1) ← OpenFile_ReadAt (mkOpenFile h seek hs) d1 SectorSize (Z.of_nat last * SectorSize);
          buf ← copy_in buf1 ((Z.of_nat last - Z.of_nat first) * SectorSize) data; Ok (buf, d1)
        else Ok (buf1, d1)) = Ok (buf2, d2)
    /\ sd_valid d2 /\ same_sectors d d2 /\ length buf2 = length buf /\ Forall is_byte buf2
    /\ forall i, (i < length buf)%nat -> (128 * first + i < length (file_content h d))%nat ->
         (128 * first + i < pos \/ pos + k <= 128 * first + i)%nat ->
         buf2 !! i = file_content h d !! (128 * first + i)%nat.
Proof.
  intros Hh Hd Hbuf Hfl Hlen Hpos Hend Hk.
  set (A1 := Z.of_nat pos =? Z.of_nat first * SectorSize).
  assert (H1 : exists buf1 d1, (if negb A1 then
       '(data, d) ← OpenFile_ReadAt (mkOpenFile h seek hs) d SectorSize (Z.of_nat first * SectorSize);
       buf ← copy_in buf 0 data; Ok (buf, d) else Ok (buf, d)) = Ok (buf1, d1)
     /\ sd_valid d1 /\ same_sectors d d1
     /\ if A1 then buf1 = buf else loaded (file_content h d) buf buf1 first 0).
  { destruct A1; [by exists buf, d|]. apply (load_sector h seek hs d buf first 0); [done|done|lia|lia]. }
  destruct H1 as (buf1 & d1 & Heq1 & Hd1 & Hsame1 & Hb1). exists buf1, d1.
  assert (Hl1 : length buf1 = length buf /\ Forall is_byte buf1).
  { destruct A1; [by subst|]. destruct Hb1 as (? & ? & _). auto. }
  set (C2 := negb (Z.of_nat (pos + k) =? (Z.of_nat last + 1) * SectorSize)
             && (negb (Z.of_nat first =? Z.of_nat last) || A1)).
  assert (H2 : exists buf2 d2, (if C2 then
       '(data, d1) ← OpenFile_ReadAt (mkOpenFile h seek hs) d1 SectorSize (Z.of_nat last * SectorSize);
       buf ← copy_in buf1 ((Z.of_nat last - Z.of_nat first) * SectorSize) data; Ok (buf, d1)
       else Ok (buf1, d1)) = Ok (buf2, d2)
     /\ sd_valid d2 /\ same_sectors d1 d2
     /\ if C2 then loaded (file_content h d) buf1 buf2 last (last - first) else buf2 = buf1).
  { destruct C2; [|by exists buf1, d1].
    rewrite <-(file_content_same h d d1), <-Nat2Z.inj_sub by done.
    apply load_sector; [done|done|lia|lia]. }
  destruct H2 as (buf2 & d2 & Heq2 & Hd2 & Hsame2 & Hb2). exists buf2, d2.
  assert (Hl2 : length buf2 = length buf1 /\ Forall is_byte buf2).
  { destruct C2; [destruct Hb2 as (? & Hf & _)|subst]; destruct Hl1; auto. }
  split_and!; [done|done|done|by transitivity d1|lia|apply Hl2|].
  intros i Hi Hil Hout. pose proof (length_file_content h d Hh Hd) as Hcl.
  assert (HA : A1 = true <-> pos = (128 * first)%nat).
  { unfold A1, SectorSize. rewrite Z.eqb_eq. lia. }
  assert (HC : C2 = true <-> (pos + k <> 128 * last + 128 /\ (first <> last \/ A1 = true))%nat).
  { unfold C2, SectorSize. rewrite andb_true_iff, orb_true_iff, !negb_true_iff, !Z.eqb_neq.
    clear -Hpos. intuition lia. }
  clearbody A1 C2. clear Heq1 Heq2.
  destruct C2; [destruct Hb2 as (_ & _ & Hb2); rewrite Hb2; case_decide; [f_equal; lia|]|subst buf2];
    (destruct A1; [exfalso|destruct Hb1 as (_ & _ & Hb1); rewrite Hb1, decide_True; [f_equal|]]; try lia);
    naive_solver lia.
Qed.

Lemma ReadAt_any h seek hs (d : D) n pos :
  direct_file h -> sd_valid d -> 0 <= pos -> pos + n < 2 ^ 31 ->
  exists d', OpenFile_ReadAt (mkOpenFile h seek hs) d n pos
      = Ok (slice (file_content h d) (Z.to_nat pos) (Z.to_nat n), d')
    /\ sd_valid d' /\ same_sectors d d'.
Proof.
  intros Hh Hd Hp Hov. destruct (decide (0 < n /\ pos < fh_numBytes h)) as [[]|Hout];
    [by apply ReadAt_inside|].
  destruct (direct_bounds h Hh) as (Hns & Hnb & Hl). exists d. split_and!; [|done|done].
  unfold OpenFile_ReadAt, FileHeader_FileLength. cbn [of_hdr].
  pose proof (proj1 Hh). rewrite clip_request_spec, decide_False by (lia || done).
  unfold slice. destruct (Z.le_gt_cases n 0).
  - replace (Z.to_nat n) with 0%nat by lia. by rewrite take_0.
  - rewrite drop_ge; [by rewrite take_nil|]. rewrite length_file_content by done. lia.
Qed.

Lemma content_spliced h (d d' : D) buf first pos data :
  direct_file h -> sd_valid d -> sd_valid d' ->
  sectors_data d' (direct_sectors h)
  = splice (sectors_data d (direct_sectors h)) (128 * first) (splice buf (pos - 128 * first) data) ->
  (128 * first <= pos)%nat -> (pos - 128 * first + length data <= length buf)%nat ->
  (128 * first + length buf <= length (sectors_data d (direct_sectors h)))%nat ->
  (pos + length data <= length (file_content h d))%nat ->
  (forall i, (i < length buf)%nat -> (128 * first + i < length (file_content h d))%nat ->
     (128 * first + i < pos \/ pos + length data <= 128 * first + i)%nat ->
     buf !! i = file_content h d !! (128 * first + i)%nat) ->
  file_content h d' = splice (file_content h d) pos data.
Proof.
  intros Hh Hd Hd' Hdata Hfp Hin Hbl Hpk Hbuf.
  pose proof (length_file_content h d Hh Hd) as Hcl.
  assert (Hc : forall i, (i < length (file_content h d))%nat ->
    file_content h d !! i = sectors_data d (direct_sectors h) !! i).
  { intros i Hi. unfold file_content. rewrite file_sectors_direct by done.
    rewrite Hcl in Hi. by apply lookup_take_lt. }
  apply list_eq. intros i. rewrite lookup_splice by done.
  unfold file_content at 1. rewrite file_sectors_direct, Hdata by done. rewrite <-Hcl.
  destruct (decide (i < length (file_content h d))%nat) as [Hi|Hi].
  - rewrite lookup_take_lt, lookup_splice by (rewrite ?length_splice; lia).
    rewrite length_splice by lia. case_decide as Hd1.
    + rewrite lookup_splice by lia. case_decide; case_decide; try lia; [f_equal; lia|].
      rewrite Hbuf by lia. f_equal. lia.
    + rewrite decide_False by lia. by rewrite Hc.
  - rewrite lookup_take_ge, decide_False by lia. symmetry. apply lookup_ge_None. lia.
Qed.

Lemma WriteAt_inside heap h seek hs (d : D) from n pos :
  direct_file h -> sd_valid d -> Forall is_byte heap -> Forall is_byte from ->
  0 <= pos -> 0 < n <= Z.of_nat (length from) -> pos < fh_numBytes h -> pos + n < 2 ^ 31 ->
  let k := Z.min n (fh_numBytes h - pos) in
  exists d', OpenFile_WriteAt heap (mkOpenFile h seek hs) d from n pos = Ok (k, d')
    /\ sd_valid d'
    /\ file_content h d' = splice (file_content h d) (Z.to_nat pos) (take (Z.to_nat k) from)
    /\ forall s, valid_sector s -> s ∉ direct_sectors h -> sd_sector d' s = sd_sector d s.
Proof.
  intros Hh Hd Hheap Hfrom Hp Hn Hpl Hov k.
  unfold OpenFile_WriteAt, FileHeader_FileLength. cbn [of_hdr].
  destruct (direct_bounds h Hh) as (Hns & Hnb & Hl).
  rewrite clip_request_spec, decide_True by lia. fold k.
  destruct (sectors_range h pos k Hh) as (Hf & Hla & Hfl & Hln & Hi & Hi2 & Hfp & Hlp); [lia..|].
  rewrite Hf, Hla. clear Hf Hla. set (first := pos `div` 128) in *.
  set (last := (pos + k - 1) `div` 128) in *. clearbody first last.
  cbv zeta. rewrite Hi, Hi2.
  destruct (new_chars_ok heap ((last - first + 1) * 128)) as (buf & -> & Hbl & Hbb); [lia|].
  cbn [mbind result_bind]. rewrite i32_id by (unfold in_i32; lia).
  destruct (write_buffer h seek hs d buf (Z.to_nat first) (Z.to_nat last) (Z.to_nat pos) (Z.to_nat k))
    as (buf1 & d1 & buf2 & d2 & Heq1 & Heq2 & Hd2 & Hsame & Hl2 & Hb2 & Hold);
    [auto|auto|auto|lia|lia|lia|lia|lia|].
  rewrite !Z2Nat.id in Heq1 by lia. rewrite Nat2Z.inj_add, !Z2Nat.id in Heq2 by lia.
  rewrite Heq1. cbn [mbind result_bind]. rewrite Heq2. cbn [mbind result_bind]. clear Heq1 Heq2.
  unfold copy_out. destruct (Z.leb_spec 0 0); [|lia].
  destruct (Z.leb_spec (0 + k) (Z.of_nat (length from))); [|lia]. cbn [andb mbind result_bind].
  change (slice from (Z.to_nat 0) (Z.to_nat k)) with (take (Z.to_nat k) from).
  assert (Htk : length (take (Z.to_nat k) from) = Z.to_nat k) by (rewrite length_take; lia).
  unfold SectorSize. rewrite copy_in_ok by lia. cbn [mbind result_bind].
  replace (Z.to_nat (pos - first * 128)) with (Z.to_nat pos - 128 * Z.to_nat first)%nat by lia.
  replace (seqZ first (last - first + 1))
    with (seqZ (Z.of_nat (Z.to_nat first)) (Z.of_nat (Z.to_nat (last - first + 1))))
    by (f_equal; lia).
  destruct (write_sectors_spec h (Z.to_nat (last - first + 1)) Hh (Z.to_nat first)
    (splice buf2 (Z.to_nat pos - 128 * Z.to_nat first) (take (Z.to_nat k) from)) d2 Hd2)
    as (d3 & -> & Hd3 & Hdata & Hother);
    [lia|rewrite length_splice; lia|apply Forall_splice; [done|by apply Forall_take]|].
  cbn [mbind result_bind]. exists d3. pose proof Hh as (_ & _ & _ & _ & Hv & _).
  rewrite (sectors_data_same d d2) in Hdata by done.
  split_and!; [done|done| |].
  - eapply (content_spliced h d d3 buf2 (Z.to_nat first) _ (take (Z.to_nat k) from)); eauto; try (rewrite ?Htk, ?length_file_content, ?length_sectors_data by done;
      lia).
    intros i Hib Hil Hout. rewrite Htk in Hout. apply Hold; lia.
  - intros s Hs Hni. rewrite Hother by done. by apply Hsame.
Qed.
End Writing.

(** ** An open file is a byte array with a cursor *)

Inductive file_call :=
  | FSeek (position : Z)
  | FRead (szTime : list Z) (numBytes : Z)
  | FWrite (heap szTime from : list Z) (numBytes : Z)
  | FReadAt (numBytes position : Z)
  | FWriteAt (heap from : list Z) (numBytes position : Z)
  | FLength.

(** Bytes read, or a number returned. *)
Inductive file_result := FData (bs : list Z) | FNum (n : Z).

(** The abstract file: contents and position.  A transfer is cut at the end of file. *)
Record afile := mkAFile { af_bytes : list Z; af_pos : Z }.

Definition af_read (a : afile) (n pos : Z) : list Z :=
  slice (af_bytes a) (Z.to_nat pos) (Z.to_nat n).

Definition af_room (a : afile) (n pos : Z) : Z :=
  Z.max 0 (Z.min n (Z.of_nat (length (af_bytes a)) - pos)).

Definition af_write (a : afile) (from : list Z) (n pos : Z) : list Z :=
  splice (af_bytes a) (Z.to_nat pos) (take (Z.to_nat (af_room a n pos)) from).

Definition afile_exec (c : file_call) (a : afile) : result (file_result * afile) :=
  match c with
  | FSeek p => Ok (FNum 0, mkAFile (af_bytes a) p)
  | FRead _ n => let bs := af_read a n (af_pos a) in
      Ok (FData bs, mkAFile (af_bytes a) (af_pos a + Z.of_nat (length bs)))
  | FWrite _ _ from n =>
      Ok (FNum (af_room a n (af_pos a)),
          mkAFile (af_write a from n (af_pos a)) (af_pos a + af_room a n (af_pos a)))
  | FReadAt n pos => Ok (FData (af_read a n pos), a)
  | FWriteAt _ from n pos => Ok (FNum (af_room a n pos), mkAFile (af_write a from n pos) (af_pos a))
  | FLength => Ok (FNum (Z.of_nat (length (af_bytes a))), a)
  end.

Section FileCalls.
Context {D : Type} `{SectorDevice D}.

Definition file_exec (c : file_call) (fd : OpenFile * D) : result (file_result * (OpenFile * D)) :=
  let '(f, d) := fd in
  match c with
  | FSeek p => Ok (FNum 0, (OpenFile_Seek f p, d))
  | FRead szTime n => '(bs, f, d) ← OpenFile_Read szTime f d n; Ok (FData bs, (f, d))
  | FWrite heap szTime from n =>
      '(k, f, d) ← OpenFile_Write heap szTime f d from n; Ok (FNum k, (f, d))
  | FReadAt n pos => '(bs, d) ← OpenFile_ReadAt f d n pos; Ok (FData bs, (f, d))
  | FWriteAt heap from n pos =>
      '(k, d) ← OpenFile_WriteAt heap f d from n pos; Ok (FNum k, (f, d))
  | FLength => Ok (FNum (OpenFile_Length f), (f, d))
  end.

(** Arguments in range: sizes and positions whose sum fits an [int], enough bytes in the
    caller's buffer. *)
Definition call_ok (c : file_call) : Prop :=
  match c with
  | FSeek p => 0 <= p < 2 ^ 30
  | FRead szTime n => n < 2 ^ 30 /\ Forall is_byte szTime
  | FWrite heap szTime from n => n < 2 ^ 30 /\ n <= Z.of_nat (length from)
      /\ Forall is_byte heap /\ Forall is_byte szTime /\ Forall is_byte from
  | FReadAt n pos => n < 2 ^ 30 /\ 0 <= pos < 2 ^ 30
  | FWriteAt heap from n pos => n < 2 ^ 30 /\ 0 <= pos < 2 ^ 30 /\ n <= Z.of_nat (length from)
      /\ Forall is_byte heap /\ Forall is_byte from
  | FLength => True
  end.

Definition file_ok (f : OpenFile) (d : D) : Prop :=
  sd_valid d /\ direct_file (of_hdr f) /\ fh_wf (of_hdr f)
  /\ valid_sector (of_hdrSector f) /\ (of_hdrSector f ∉ direct_sectors (of_hdr f))
  /\ 0 <= of_seekPosition f < 2 ^ 30.

Definition file_abs (f : OpenFile) (d : D) : afile :=
  mkAFile (file_content (of_hdr f) d) (of_seekPosition f).

(** The sectors a call may write: those of the file and of its header. *)
Definition outside (f : OpenFile) (s : Z) : Prop :=
  valid_sector s /\ s <> of_hdrSector f /\ s ∉ direct_sectors (of_hdr f).

Lemma WriteAt_any heap f (d : D) from n pos :
  file_ok f d -> Forall is_byte heap -> Forall is_byte from ->
  0 <= pos -> n <= Z.of_nat (length from) -> pos + n < 2 ^ 31 ->
  let a := file_abs f d in
  exists d', OpenFile_WriteAt heap f d from n pos = Ok (af_room a n pos, d') /\ sd_valid d'
    /\ file_content (of_hdr f) d' = af_write a from n pos
    /\ forall s, valid_sector s -> s ∉ direct_sectors (of_hdr f) -> sd_sector d' s = sd_sector d s.
Proof.
  intros (Hd & Hh & _) Hheap Hfrom Hp Hn Hov a. unfold af_write, af_room, a, file_abs.
  cbn [af_bytes]. rewrite length_file_content by done.
  pose proof (proj1 Hh) as Hnb0. destruct f as [h seek hs]. cbn [of_hdr] in *.
  destruct (decide (0 < n /\ pos < fh_numBytes h)) as [[]|Hout].
  - replace (Z.max 0 _) with (Z.min n (fh_numBytes h - pos)) by lia.
    apply WriteAt_inside; done || lia.
  - replace (Z.max 0 _) with 0 by lia. rewrite take_0, splice_nil. exists d.
    split_and!; try done. unfold OpenFile_WriteAt, FileHeader_FileLength. cbn [of_hdr].
    destruct (direct_bounds h Hh) as (Hns & Hnb & _).
    by rewrite clip_request_spec, decide_False by (lia || done).
Qed.

Lemma getFormatDate_wf szTime out :
  length out = 20%nat -> Forall is_byte out -> Forall is_byte szTime ->
  length (getFormatDate szTime out) = 20%nat /\ Forall is_byte (getFormatDate szTime out).
Proof.
  intros Hl Ho Hs. unfold getFormatDate. rewrite length_app, length_take, length_app,
    length_replicate, length_drop. split; [lia|].
  apply Forall_app. split; [|by apply Forall_drop].
  apply Forall_take, Forall_app. split; [done|]. apply Forall_replicate. unfold is_byte. lia.
Qed.

Lemma setAccessTime_wf szTime h : Forall is_byte szTime -> fh_wf h -> fh_wf (setAccessTime szTime h).
Proof.
  intros Hs (? & ? & ? & ? & ? & ? & Hl & Hb & ? & ?).
  destruct (getFormatDate_wf szTime (fh_accessTime h) Hl Hb Hs).
  unfold fh_wf, setAccessTime. simpl. by split_and!.
Qed.

(** What a call may change: the open file keeps its sectors and its length, the header
    sector holds the in-memory header if it did before, and no sector outside the file and
    its header changes. *)
Record file_step (f : OpenFile) (d : D) (f' : OpenFile) (d' : D) : Prop := {
  step_ok : file_ok f' d';
  step_sector : of_hdrSector f' = of_hdrSector f;
  step_data : fh_dataSectors (of_hdr f') = fh_dataSectors (of_hdr f);
  step_sectors : fh_numSectors (of_hdr f') = fh_numSectors (of_hdr f);
  step_bytes : fh_numBytes (of_hdr f') = fh_numBytes (of_hdr f);
  step_hdr : fh_of_bytes (sd_sector d (of_hdrSector f)) = of_hdr f ->
    fh_of_bytes (sd_sector d' (of_hdrSector f)) = of_hdr f';
  step_outside : forall s, outside f s -> sd_sector d' s = sd_sector d s
}.

(** The end of [Read] and [Write]: the stamped header goes back to its sector. *)
Lemma stamp_header szTime f (d : D) seek' :
  file_ok f d -> Forall is_byte szTime -> 0 <= seek' < 2 ^ 30 ->
  let h := setAccessTime szTime (of_hdr f) in
  exists d', FileHeader_WriteBack h d (of_hdrSector f) = Ok d'
    /\ file_step f d (mkOpenFile h seek' (of_hdrSector f)) d'
    /\ file_content h d' = file_content (of_hdr f) d.
Proof.
  intros (Hd & Hh & Hwf & Hv & Hni & _) Hs Hseek h.
  assert (Hwf' : fh_wf h) by by apply setAccessTime_wf.
  destruct (sd_write_ok d _ _ Hd Hv (fh_bytes_sector h Hwf')) as (d' & HW & Hd' & Hsec).
  exists d'. split; [done|]. split.
  - constructor; try done.
    + intros _. rewrite Hsec, decide_True by done. by apply fh_roundtrip.
    + intros s (Hvs & Hne & _). by rewrite Hsec, decide_False.
  - unfold file_content. rewrite (file_sectors_direct h d') by done.
    rewrite file_sectors_direct by done. change (direct_sectors h) with (direct_sectors (of_hdr f)).
    f_equal. apply sectors_data_ext. intros s Hsin. pose proof Hh as (_ & _ & _ & _ & Hvs & _).
    rewrite Hsec by (by apply (proj1 (Forall_forall _ _) Hvs)).
    rewrite decide_False; [done|congruence].
Qed.

Lemma length_af_write a from n pos :
  0 <= pos -> n <= Z.of_nat (length from) -> length (af_write a from n pos) = length (af_bytes a).
Proof.
  intros Hp Hn. unfold af_write, af_room. destruct (Z.le_gt_cases n 0).
  - replace (Z.max 0 _) with 0 by lia. by rewrite take_0, splice_nil.
  - destruct (Z.le_gt_cases (Z.of_nat (length (af_bytes a))) pos).
    + replace (Z.max 0 _) with 0 by lia. by rewrite take_0, splice_nil.
    + apply length_splice. rewrite length_take. lia.
Qed.

Lemma file_step_refl f (d : D) : file_ok f d -> file_step f d f d.
Proof. by constructor. Qed.

Lemma file_step_trans f1 (d1 : D) f2 d2 f3 d3 :
  file_step f1 d1 f2 d2 -> file_step f2 d2 f3 d3 -> file_step f1 d1 f3 d3.
Proof.
  intros [? Hs ? ? ? Hh Ho] [? Hs' ? ? ? Hh' Ho']. constructor; try congruence; try done.
  - rewrite Hs in Hh'. auto.
  - intros s Hout. rewrite Ho'; [by apply Ho|]. unfold outside, direct_sectors in *.
    destruct Hout as (? & ? & ?). split_and!; congruence.
Qed.

(** A step that moves the cursor and writes nothing but data sectors of the file. *)
Lemma file_step_data f (d d' : D) seek' :
  file_ok f d -> sd_valid d' -> 0 <= seek' < 2 ^ 30 ->
  (forall s, valid_sector s -> s ∉ direct_sectors (of_hdr f) -> sd_sector d' s = sd_sector d s) ->
  file_step f d (mkOpenFile (of_hdr f) seek' (of_hdrSector f)) d'.
Proof.
  intros (Hd & Hh & Hwf & Hv & Hni & _) Hd' Hseek Hsec. constructor; try done.
  - cbn [of_hdr]. intros <-. by rewrite Hsec.
  - intros s (Hvs & _ & Hns). by apply Hsec.
Qed.

Lemma file_content_cap f (d : D) : file_ok f d -> Z.of_nat (length (file_content (of_hdr f) d)) <= 1792.
Proof.
  intros (Hd & Hh & _). rewrite length_file_content by done. pose proof (direct_bounds _ Hh). lia.
Qed.

Lemma Read_refines szTime n f (d : D) :
  file_ok f d -> n < 2 ^ 30 -> Forall is_byte szTime ->
  let bs := af_read (file_abs f d) n (of_seekPosition f) in
  exists f' d', OpenFile_Read szTime f d n = Ok (bs, f', d') /\ file_step f d f' d'
    /\ file_abs f' d' = mkAFile (file_content (of_hdr f) d) (of_seekPosition f + Z.of_nat (length bs)).
Proof.
  intros Hok Hn Hs bs. pose proof (file_content_cap f d Hok) as Hcap.
  pose proof Hok as (Hd & Hh & _ & _ & _ & Hseek). unfold OpenFile_Read.
  destruct f as [h seek hs]. cbn [of_hdr of_seekPosition of_hdrSector] in *.
  destruct (ReadAt_any h seek hs d n seek) as (d1 & -> & Hd1 & Hsame); [done|done|lia|lia|].
  cbn [mbind result_bind]. change (slice (file_content h d) _ _) with bs.
  assert (Hbl : Z.of_nat (length bs) <= Z.max 0 (1792 - seek)).
  { unfold bs, af_read, file_abs, slice. cbn [af_bytes of_hdr]. rewrite length_take, length_drop. lia. }
  pose proof (file_step_data _ d d1 seek Hok Hd1 Hseek (fun s Hv _ => Hsame s Hv)) as Hst.
  destruct (stamp_header szTime (mkOpenFile h seek hs) d1 (seek + Z.of_nat (length bs)))
    as (d2 & HW & Hst2 & Hcont); [apply Hst|done|lia|].
  cbn [of_hdr of_hdrSector] in *. rewrite HW. cbn [mbind result_bind].
  rewrite i32_id by (unfold in_i32; lia). eexists _, d2. split; [done|].
  split; [exact (file_step_trans _ _ _ _ _ _ Hst Hst2)|].
  unfold file_abs. cbn [of_hdr of_seekPosition]. by rewrite Hcont, (file_content_same h d d1).
Qed.

Lemma Write_refines heap szTime from n f (d : D) :
  file_ok f d -> call_ok (FWrite heap szTime from n) ->
  let a := file_abs f d in
  let k := af_room a n (of_seekPosition f) in
  exists f' d', OpenFile_Write heap szTime f d from n = Ok (k, f', d') /\ file_step f d f' d'
    /\ file_abs f' d' = mkAFile (af_write a from n (of_seekPosition f)) (of_seekPosition f + k).
Proof.
  intros Hok (Hn & Hnl & Hhp & Hs & Hfr) a k. pose proof (file_content_cap f d Hok) as Hcap.
  pose proof Hok as (Hd & Hh & _ & _ & _ & Hseek). unfold OpenFile_Write.
  destruct f as [h seek hs]. cbn [of_hdr of_seekPosition of_hdrSector] in *.
  destruct (WriteAt_any heap (mkOpenFile h seek hs) d from n seek)
    as (d1 & -> & Hd1 & Hcont1 & Hsec1); [done..|lia|lia|lia|].
  cbn [mbind result_bind of_hdr] in *. fold a k in Hcont1 |- *.
  assert (Hk : 0 <= k <= Z.max 0 (1792 - seek)) by (unfold k, a, af_room, file_abs; simpl; lia).
  pose proof (file_step_data _ d d1 seek Hok Hd1 Hseek Hsec1) as Hst.
  destruct (stamp_header szTime (mkOpenFile h seek hs) d1 (seek + k))
    as (d2 & HW & Hst2 & Hcont); [apply Hst|done|lia|].
  cbn [of_hdr of_hdrSector] in *. rewrite HW. cbn [mbind result_bind].
  rewrite i32_id by (unfold in_i32; lia). eexists _, d2. split; [done|].
  split; [exact (file_step_trans _ _ _ _ _ _ Hst Hst2)|].
  unfold file_abs at 1. cbn [of_hdr of_seekPosition]. by rewrite Hcont, Hcont1.
Qed.

(** One call refines the abstract call and keeps the invariant. *)
Lemma file_exec_refines c f (d : D) :
  file_ok f d -> call_ok c ->
  exists r f' d', file_exec c (f, d) = Ok (r, (f', d'))
    /\ afile_exec c (file_abs f d) = Ok (r, file_abs f' d') /\ file_step f d f' d'.
Proof.
  intros Hok Hc. pose proof Hok as (Hd & Hh & _ & _ & _ & Hseek).
  destruct c as [p|szTime n|heap szTime from n|n pos|heap from n pos|]; cbn [file_exec afile_exec].
  - eexists _, _, d. split_and!; [done|done|]. by apply file_step_data.
  - destruct Hc as [Hn Hs]. destruct (Read_refines szTime n f d Hok Hn Hs) as (f' & d' & -> & Hst & Ha).
    eexists _, f', d'. split_and!; [done| |done]. by rewrite Ha.
  - destruct (Write_refines heap szTime from n f d Hok Hc) as (f' & d' & -> & Hst & Ha).
    eexists _, f', d'. split_and!; [done| |done]. by rewrite Ha.
  - destruct Hc as (Hn & Hp). destruct f as [h seek hs].
    destruct (ReadAt_any h seek hs d n pos) as (d1 & -> & Hd1 & Hsame); [done|done|lia|lia|].
    cbn [mbind result_bind]. eexists _, _, d1. split_and!; [done| |].
    + unfold file_abs. cbn [of_hdr of_seekPosition]. by rewrite (file_content_same h d d1).
    + apply (file_step_data (mkOpenFile h seek hs)); try done. intros s Hv _. by apply Hsame.
  - destruct Hc as (Hn & Hp & Hnl & Hhp & Hfr). destruct f as [h seek hs].
    destruct (WriteAt_any heap (mkOpenFile h seek hs) d from n pos)
      as (d1 & -> & Hd1 & Hcont1 & Hsec1); [done..|lia|lia|lia|].
    cbn [mbind result_bind of_hdr] in *. eexists _, _, d1. split_and!; [done| |].
    + do 2 f_equal. unfold file_abs in *. cbn [of_hdr of_seekPosition] in *. by rewrite Hcont1.
    + by apply (file_step_data (mkOpenFile h seek hs)).
  - eexists _, _, d. split_and!; [done| |by apply file_step_refl]. unfold file_abs at 1.
    cbn [af_bytes]. rewrite length_file_content by done.
    unfold OpenFile_Length, FileHeader_FileLength. do 3 f_equal. pose proof (proj1 Hh). lia.
Qed.

Lemma file_calls_refine (cs : list file_call) (f : OpenFile) (d : D) :
  file_ok f d -> Forall call_ok cs ->
  exists rs f' d', run_ops file_exec cs (f, d) = Ok (rs, (f', d'))
    /\ run_ops afile_exec cs (file_abs f d) = Ok (rs, file_abs f' d') /\ file_step f d f' d'.
Proof.
  intros Hok Hcs. revert f d Hok. induction Hcs as [|c cs Hc _ IH]; intros f d Hok.
  { exists [], f, d. split_and!; [done|done|]. by apply file_step_refl. }
  destruct (file_exec_refines c f d Hok Hc) as (r & f1 & d1 & HE & HA & Hst1).
  destruct (IH f1 d1 (step_ok _ _ _ _ Hst1)) as (rs & f2 & d2 & HE2 & HA2 & Hst2).
  exists (r :: rs), f2, d2. cbn [run_ops]. rewrite HE, HA. cbn [mbind result_bind].
  rewrite HE2, HA2. split_and!; [done|done|]. exact (file_step_trans _ _ _ _ _ _ Hst1 Hst2).
Qed.

(** C10.  An open file of at most 14 sectors is an array of bytes of fixed length with a
    cursor: for every sequence of calls (seek, read, write, positioned read and write,
    length) with arguments in range, the code returns what the array returns, cutting
    transfers at the end of the file, and writes no sector but those of the file and of
    its header. *)
Theorem OpenFile_refines_array (cs : list file_call) (f : OpenFile) (d : D) :
  file_ok f d -> Forall call_ok cs ->
  exists rs f' d', run_ops file_exec cs (f, d) = Ok (rs, (f', d'))
    /\ run_ops afile_exec cs (file_abs f d) = Ok (rs, file_abs f' d')
    /\ file_ok f' d'
    /\ forall s, outside f s -> sd_sector d' s = sd_sector d s.
Proof.
  intros Hok Hcs. destruct (file_calls_refine cs f d Hok Hcs) as (rs & f' & d' & HE & HA & Hst).
  exists rs, f', d'. split_and!; [done|done|apply Hst|apply Hst].
Qed.

(** The check against the end of the file wraps around: a read that starts inside
    the file and whose end does not fit an [int] is not cut to the file; no sector is read
    and the copy runs out of its buffer. *)
Theorem ReadAt_overflow (f : OpenFile) (d : D) (numBytes position : Z) :
  0 <= position < fh_numBytes (of_hdr f) -> fh_numBytes (of_hdr f) <= MaxFileSize ->
  numBytes < 2 ^ 31 -> 2 ^ 31 < position + numBytes ->
  OpenFile_ReadAt f d numBytes position = Err MemFault.
Proof.
  intros Hp Hm Hn Hov. change MaxFileSize with 5888 in Hm.
  assert (Hw : forall e, 0 <= e <= 1 -> i32 (position + numBytes - e) = position + numBytes - e - 2 ^ 32)
    by (intros; wrap_lia).
  assert (Hclip : clip_request (fh_numBytes (of_hdr f)) numBytes position = Some numBytes).
  { unfold clip_request. destruct (Z.leb_spec numBytes 0); [lia|].
    destruct (Z.leb_spec (fh_numBytes (of_hdr f)) position); [lia|]. cbn [orb].
    rewrite <-(Z.sub_0_r (position + numBytes)), Hw by lia.
    destruct (Z.ltb_spec (fh_numBytes (of_hdr f)) (position + numBytes - 0 - 2 ^ 32)); [lia|done]. }
  unfold OpenFile_ReadAt, FileHeader_FileLength. rewrite Hclip. cbv zeta.
  unfold firstSector, lastSector, divRoundDown. rewrite Hw by lia.
  unfold SectorSize.
  assert (Hq : (position + numBytes - 1 - 2 ^ 32) `quot` 128 <= - 16000000).
  { replace (position + numBytes - 1 - 2 ^ 32) with (- (2 ^ 32 + 1 - (position + numBytes))) by lia.
    rewrite Z.quot_opp_l, Z.quot_div_nonneg by lia. zpow. Z.div_mod_to_equations. lia. }
  assert (Hq' : - 16777216 <= (position + numBytes - 1 - 2 ^ 32) `quot` 128).
  { replace (position + numBytes - 1 - 2 ^ 32) with (- (2 ^ 32 + 1 - (position + numBytes))) by lia.
    rewrite Z.quot_opp_l, Z.quot_div_nonneg by lia. zpow. Z.div_mod_to_equations. lia. }
  rewrite (Z.quot_div_nonneg position) by lia.
  set (l := (position + numBytes - 1 - 2 ^ 32) `quot` 128) in *. clearbody l.
  assert (Hfs : 0 <= position `div` 128 <= 46 /\ position `div` 128 * 128 <= position) by (Z.div_mod_to_equations; lia).
  set (fs := position `div` 128) in *. clearbody fs. unfold new_chars.
  rewrite (i32_id (1 + l - fs)) by (unfold in_i32; lia).
  destruct (i32 ((1 + l - fs) * 128) <? 0); [done|]. cbn [mbind result_bind].
  rewrite seqZ_nil by lia. cbn [read_sectors mbind result_bind]. unfold copy_out.
  destruct (Z.leb_spec (position - fs * 128 + numBytes) (Z.of_nat (length (@nil Z))));
    [cbn [length] in *; lia|]. by rewrite andb_false_r.
Qed.
End FileCalls.

(** A file of 200 bytes in sectors 8 and 9, its header in sector 7. *)
Definition short_header : FileHeader :=
  mkFileHeader 200 2 (replicate 20 0) (replicate 20 0) (replicate 20 0) ([8; 9] ++ replicate 13 0).

Definition short_file : OpenFile := mkOpenFile short_header 0 7.

Lemma short_file_ok : file_ok short_file (∅ : gmap Z (list Z)).
Proof.
  unfold file_ok. split_and!; try done.
  - unfold direct_file. split_and!; try done.
    + repeat constructor; done.
    + apply (bool_decide_unpack _). done.
  - unfold fh_wf. split_and!; try done; repeat constructor; done.
  - apply (bool_decide_unpack _). done.
Qed.

Definition short_calls : list file_call :=
  [FWriteAt [] (replicate 100 7) 100 150; FSeek 140; FRead [] 20; FLength].

Lemma OpenFile_refines_array_witness :
  exists rs f' d', run_ops file_exec short_calls (short_file, ∅ : gmap Z (list Z)) = Ok (rs, (f', d'))
    /\ run_ops afile_exec short_calls (file_abs short_file (∅ : gmap Z (list Z))) = Ok (rs, file_abs f' d')
    /\ file_ok f' d'
    /\ forall s, outside short_file s -> sd_sector d' s = sd_sector (∅ : gmap Z (list Z)) s.
Proof.
  apply (OpenFile_refines_array short_calls short_file (∅ : gmap Z (list Z))).
  - apply short_file_ok.
  - repeat constructor; done.
Defined.

Example short_calls_run :
  match run_ops file_exec short_calls (short_file, ∅ : gmap Z (list Z)) with
  | Ok (rs, _) => rs = [FNum 50; FNum 0; FData (replicate 10 0 ++ replicate 10 7); FNum 200]
  | Err _ => False
  end.
Proof. vm_compute. reflexivity. Qed.

Lemma ReadAt_overflow_witness :
  OpenFile_ReadAt short_file (∅ : gmap Z (list Z)) (2 ^ 31 - 1) 100 = Err MemFault.
Proof. apply ReadAt_overflow; done. Defined.
