(* ===== verification/Directory.v ===== *)
(** * filesys/directory.cc: the directory

    A table of fixed size that maps file names to the sectors of their headers.  A name is
    a C string; the directory stores and compares its first [FileNameMaxLen] characters.
    The fields the code never sets ([type], the padding of the structure, the sector of an
    unused entry) keep whatever bytes they had: the padding is a field of the model too,
    so that the table has the 20-byte entries of the file on disk. *)

From S2P Require Import Prelude BitMap Disk FileHdr OpenFile.

Definition FileNameMaxLen : nat := 11.

Record DirectoryEntry := mkEntry {
  de_type : Z;          (* a byte *)
  de_inUse : Z;         (* a byte, used as a truth value *)
  de_pad : list Z;      (* 2 bytes *)
  de_sector : Z;
  de_name : list Z      (* FileNameMaxLen + 1 bytes *)
}.

Definition used (e : DirectoryEntry) : bool := negb (de_inUse e =? 0).

(** [sizeof(DirectoryEntry)] *)
Definition EntrySize : nat := 20.

Definition entry_bytes (e : DirectoryEntry) : list Z :=
  [de_type e; de_inUse e] ++ de_pad e ++ int_to_bytes (de_sector e) ++ de_name e.

Definition entry_of_bytes (bs : list Z) : DirectoryEntry :=
  mkEntry (nth 0 bs 0) (nth 1 bs 0) (slice bs 2 2) (int_of_bytes (slice bs 4 4)) (slice bs 8 12).

Abbreviation Directory := (list DirectoryEntry).

Definition table_bytes (t : Directory) : list Z := t ≫= entry_bytes.

Fixpoint table_of_bytes (n : nat) (bs : list Z) : Directory :=
  match n with
  | O => []
  | S n => entry_of_bytes (take EntrySize bs) :: table_of_bytes n (drop EntrySize bs)
  end.

(** ** C strings *)

(** [!strncmp(a, b, n)]; both are arrays of characters. *)
Fixpoint strncmp_eq (n : nat) (a b : list Z) : bool :=
  match n, a, b with
  | O, _, _ => true
  | S n, x :: a, y :: b => if x =? y then (if x =? 0 then true else strncmp_eq n a b) else false
  | _, _, _ => false
  end.

(** [strncpy(dst, name, n)]: copies the string, pads with zero bytes. *)
Definition strncpy (n : nat) (dst name : list Z) : list Z :=
  take n (name ++ replicate n 0) ++ drop n dst.

(** The array of characters of a string. *)
Definition cstr (name : list Z) : list Z := name ++ [0].

(** ** Operations *)

(** [new DirectoryEntry[size]]: the initialiser of [name] runs, the rest is as the
    allocator returned it ([heap]). *)
Definition Directory_new (heap : list DirectoryEntry) : Directory :=
  map (fun e => mkEntry (de_type e) 0 (de_pad e) (de_sector e) (replicate 12 0)) heap.

Fixpoint FindIndex_loop (i : Z) (t : Directory) (name : list Z) : Z :=
  match t with
  | [] => -1
  | e :: t => if used e && strncmp_eq FileNameMaxLen (de_name e) (cstr name) then i
              else FindIndex_loop (i + 1) t name
  end.

Definition Directory_FindIndex (t : Directory) (name : list Z) : Z := FindIndex_loop 0 t name.

Definition Directory_Find (t : Directory) (name : list Z) : result Z :=
  let i := Directory_FindIndex t name in
  if negb (i =? -1) then e ← deref (t !! Z.to_nat i); Ok (de_sector e) else Ok (-1).

(** The loop of [Add] over the table: the first unused entry is filled. *)
Fixpoint Add_loop (t : Directory) (name : list Z) (newSector : Z) : bool * Directory :=
  match t with
  | [] => (false, [])
  | e :: t =>
      if negb (used e) then
        (true, mkEntry (de_type e) 1 (de_pad e) newSector
                 (strncpy FileNameMaxLen (de_name e) name) :: t)
      else let '(b, t) := Add_loop t name newSector in (b, e :: t)
  end.

Definition Directory_Add (t : Directory) (name : list Z) (newSector : Z) : bool * Directory :=
  if negb (Directory_FindIndex t name =? -1) then (false, t) else Add_loop t name newSector.

Definition Directory_Remove (t : Directory) (name : list Z) : result (bool * Directory) :=
  let i := Directory_FindIndex t name in
  if i =? -1 then Ok (false, t)
  else
    e ← deref (t !! Z.to_nat i);
    let e := mkEntry (de_type e) 0 (de_pad e) (de_sector e)
               (replicate FileNameMaxLen 0 ++ drop FileNameMaxLen (de_name e)) in
    Ok (true, <[Z.to_nat i := e]> t).

(** [Directory::List]: one line per used entry; the column [isDirectory] shows [inUse]. *)
Definition Directory_List (t : Directory) : list (Z * list Z * Z * Z) :=
  map (fun e => (de_inUse e, de_name e, de_sector e, de_inUse e)) (filter (fun e => used e = true) t).

Section Device.
Context {D : Type} `{SectorDevice D}.

(** [file->ReadAt((char * )table, tableSize * sizeof(DirectoryEntry), 0)] *)
Definition Directory_FetchFrom (t : Directory) (file : OpenFile) (d : D) : result (Directory * D) :=
  '(data, d) ← OpenFile_ReadAt file d (Z.of_nat (length t * EntrySize)) 0;
  Ok (table_of_bytes (length t) (splice (table_bytes t) 0 data), d).

Definition Directory_WriteBack (heap : list Z) (t : Directory) (file : OpenFile) (d : D) : result D :=
  '(_, d) ← OpenFile_WriteAt heap file d (table_bytes t) (Z.of_nat (length t * EntrySize)) 0;
  Ok d.

End Device.

(** ** Names *)

Definition is_name (name : list Z) : Prop := Forall (fun c => 0 < c < 256) name.

(** The part of a name the directory keeps. *)
Definition key (name : list Z) : list Z := take FileNameMaxLen (name ++ replicate FileNameMaxLen 0).

Lemma length_key name : length (key name) = 11%nat.
Proof. unfold key. rewrite length_take, length_app, length_replicate. unfold FileNameMaxLen. lia. Qed.

Lemma strncpy_key dst name : strncpy FileNameMaxLen dst name = key name ++ drop FileNameMaxLen dst.
Proof. done. Qed.

(** Comparing a stored name with a string compares their keys. *)
Lemma strncmp_eq_key n : forall a rest b,
  is_name a -> is_name b ->
  strncmp_eq n (take n (a ++ replicate n 0) ++ rest) (cstr b) = true
  <-> take n (a ++ replicate n 0) = take n (b ++ replicate n 0).
Proof.
  induction n as [|n IH]; intros a rest b Ha Hb; [done|].
  assert (Hpad : forall l, take n (l ++ replicate (S n) 0) = take n (l ++ replicate n 0)).
  { intros l. rewrite !take_app, !take_replicate. f_equal. f_equal. lia. }
  unfold cstr in *. destruct a as [|x a]; destruct b as [|y b]; cbn [app replicate take strncmp_eq].
  - done.
  - apply Forall_cons in Hb as [Hy _]. destruct (Z.eqb_spec 0 y); [lia|].
    split; [done|intros [=]; lia].
  - apply Forall_cons in Ha as [Hx _]. destruct (Z.eqb_spec x 0); [lia|].
    split; [done|intros [=]; lia].
  - apply Forall_cons in Ha as [Hx Ha]. apply Forall_cons in Hb as [Hy Hb].
    change (0 :: replicate n 0) with (replicate (S n) 0). rewrite !Hpad.
    destruct (Z.eqb_spec x y) as [->|Hne]; [|split; [done|intros [=]; lia]].
    destruct (Z.eqb_spec y 0); [lia|]. rewrite IH by done.
    split; [by intros ->|by intros [= ?]].
Qed.

(** ** Well-formed directories and the map they stand for *)

Definition entry_key (e : DirectoryEntry) : list Z := take FileNameMaxLen (de_name e).

Definition entry_wf (e : DirectoryEntry) : Prop :=
  is_byte (de_type e) /\ is_byte (de_inUse e) /\ length (de_pad e) = 2%nat
  /\ Forall is_byte (de_pad e) /\ in_i32 (de_sector e) /\ length (de_name e) = 12%nat
  /\ Forall is_byte (de_name e)
  /\ exists name, is_name name /\ entry_key e = key name.

Definition dir_alist (t : Directory) : list (list Z * Z) :=
  omap (fun e => if used e then Some (entry_key e, de_sector e) else None) t.

Definition dir_wf (t : Directory) : Prop := Forall entry_wf t /\ NoDup (dir_alist t).*1.

Definition dir_map (t : Directory) : gmap (list Z) Z := list_to_map (dir_alist t).

Lemma dir_alist_app t1 t2 : dir_alist (t1 ++ t2) = dir_alist t1 ++ dir_alist t2.
Proof. apply omap_app. Qed.

Lemma dir_alist_cons e t :
  dir_alist (e :: t) = (if used e then [(entry_key e, de_sector e)] else []) ++ dir_alist t.
Proof. unfold dir_alist. cbn [omap list_omap]. by destruct (used e). Qed.

Lemma match_name e name :
  entry_wf e -> is_name name ->
  strncmp_eq FileNameMaxLen (de_name e) (cstr name) = true <-> entry_key e = key name.
Proof.
  intros (_ & _ & _ & _ & _ & _ & _ & (n & Hn & He)) Hname.
  rewrite <-(take_drop FileNameMaxLen (de_name e)). fold (entry_key e). rewrite He.
  by apply strncmp_eq_key.
Qed.

(** [FindIndex] finds the entry with the key, if there is one. *)
Lemma FindIndex_spec t name : forall i,
  Forall entry_wf t -> is_name name -> 0 <= i ->
  (FindIndex_loop i t name = -1 /\ key name ∉ (dir_alist t).*1)
  \/ exists t1 e t2, t = t1 ++ e :: t2 /\ used e = true /\ entry_key e = key name
       /\ FindIndex_loop i t name = i + Z.of_nat (length t1).
Proof.
  induction t as [|e t IH]; intros i Hwf Hname Hi.
  { left. split; [done|]. apply not_elem_of_nil. }
  apply Forall_cons in Hwf as [He Hwf]. cbn [FindIndex_loop].
  destruct (used e && strncmp_eq FileNameMaxLen (de_name e) (cstr name)) eqn:Hm.
  - right. apply andb_true_iff in Hm as [Hu Hk]. apply match_name in Hk; [|done|done].
    exists [], e, t. split_and!; try done. simpl. lia.
  - destruct (IH (i + 1)) as [[Hf Hni]|(t1 & e' & t2 & -> & Hu & Hk & Hf)]; [done|done|lia| |].
    + left. split; [done|]. rewrite dir_alist_cons, fmap_app, elem_of_app.
      intros [Hin|Hin]; [|done]. destruct (used e); simpl in Hin; [|by apply not_elem_of_nil in Hin].
      apply list_elem_of_singleton in Hin. cbn [andb] in Hm.
      symmetry in Hin. apply match_name in Hin; [congruence|done|done].
    + right. exists (e :: t1), e', t2. split_and!; try done. cbn [length]. rewrite Hf. lia.
Qed.

Lemma NoDup_middle {A B} (l1 l2 : list (A * B)) k v :
  NoDup (l1 ++ (k, v) :: l2).*1 -> (k ∉ (l1 ++ l2).*1) /\ NoDup (l1 ++ l2).*1.
Proof.
  intros Hnd. rewrite fmap_app, fmap_cons in Hnd. cbn [fst] in Hnd.
  rewrite <-Permutation_middle in Hnd. apply NoDup_cons in Hnd.
  by rewrite <-fmap_app in Hnd.
Qed.

(** The map of a table with a used entry in the middle. *)
Lemma dir_map_middle t1 e t2 :
  used e = true -> NoDup (dir_alist (t1 ++ e :: t2)).*1 ->
  dir_map (t1 ++ e :: t2) = <[entry_key e := de_sector e]> (dir_map (t1 ++ t2))
  /\ dir_map (t1 ++ t2) !! entry_key e = None
  /\ NoDup (dir_alist (t1 ++ t2)).*1.
Proof.
  intros Hu Hnd. unfold dir_map. rewrite !dir_alist_app, dir_alist_cons, Hu in *. cbn [app] in *.
  destruct (NoDup_middle _ _ _ _ Hnd) as [Hni Hnd']. split_and!; [|by apply not_elem_of_list_to_map_1|done].
  rewrite <-(list_to_map_cons (M := gmap (list Z))). apply list_to_map_proper; [done|].
  symmetry. apply Permutation_middle.
Qed.

Lemma dir_map_unused t1 e t2 : used e = false -> dir_alist (t1 ++ e :: t2) = dir_alist (t1 ++ t2).
Proof. intros Hu. by rewrite !dir_alist_app, dir_alist_cons, Hu. Qed.

Lemma lookup_mid {A} (t1 t2 : list A) e : (t1 ++ e :: t2) !! length t1 = Some e.
Proof. by apply list_lookup_middle. Qed.

Lemma insert_mid {A} (t1 t2 : list A) e e' : <[length t1 := e']> (t1 ++ e :: t2) = t1 ++ e' :: t2.
Proof.
  rewrite insert_app_r_alt by done. by rewrite Nat.sub_diag.
Qed.

Lemma Find_lookup t name :
  dir_wf t -> is_name name ->
  Directory_Find t name = Ok (default (-1) (dir_map t !! key name))
  /\ (Directory_FindIndex t name = -1 <-> dir_map t !! key name = None).
Proof.
  intros [Hwf Hnd] Hname. unfold Directory_Find, Directory_FindIndex.
  destruct (FindIndex_spec t name 0 Hwf Hname) as [[-> Hni]|(t1 & e & t2 & -> & Hu & Hk & ->)]; [done| |].
  - unfold dir_map. rewrite not_elem_of_list_to_map_1 by done. done.
  - destruct (dir_map_middle t1 e t2 Hu Hnd) as (-> & _ & _). rewrite <-Hk, lookup_insert_eq.
    rewrite Z.add_0_l. destruct (Z.eqb_spec (Z.of_nat (length t1)) (-1)); [lia|].
    cbn [negb]. rewrite Nat2Z.id, lookup_mid. split; [done|]. split; [lia|done].
Qed.

(** The fill loop of [Add]. *)
Lemma Add_loop_spec t name s :
  (Add_loop t name s = (false, t) /\ Forall (fun e => used e = true) t)
  \/ exists t1 e t2, t = t1 ++ e :: t2 /\ used e = false
       /\ Add_loop t name s = (true, t1 ++ mkEntry (de_type e) 1 (de_pad e) s
            (strncpy FileNameMaxLen (de_name e) name) :: t2).
Proof.
  induction t as [|e t IH]; [by left|]. cbn [Add_loop]. destruct (used e) eqn:Hu; cbn [negb].
  - destruct IH as [[-> Hall]|(t1 & e' & t2 & -> & Hu' & ->)]; [left; by auto|].
    right. by exists (e :: t1), e', t2.
  - right. by exists [], e, t.
Qed.

Lemma dir_size t :
  NoDup (dir_alist t).*1 -> size (dir_map t) = length (filter (fun e => used e = true) t).
Proof.
  intros Hnd. unfold dir_map. rewrite map_size_list_to_map by done. clear Hnd.
  induction t as [|e t IH]; [done|]. rewrite dir_alist_cons, filter_cons, length_app, IH.
  destruct (used e); by case_decide.
Qed.

Lemma filter_full t : Forall (fun e => used e = true) t <-> length (filter (fun e => used e = true) t) = length t.
Proof.
  split; [intros Ha; by rewrite filter_all|].
  induction t as [|e t IH]; [done|]. rewrite filter_cons. intros Hl. 
  pose proof (length_filter (fun e => used e = true) t). 
  case_decide; cbn [length] in Hl; [constructor; [done|apply IH; lia]|lia].
Qed.

Lemma new_entry_wf e name s :
  entry_wf e -> is_name name -> in_i32 s ->
  let e' := mkEntry (de_type e) 1 (de_pad e) s (strncpy FileNameMaxLen (de_name e) name) in
  entry_wf e' /\ entry_key e' = key name.
Proof.
  intros (Ht & _ & Hpl & Hpb & _ & Hnl & Hnb & _) Hname Hs e'.
  assert (Hk : entry_key e' = key name).
  { unfold entry_key, e'. cbn [de_name]. rewrite strncpy_key. apply take_app_length'. by rewrite length_key. }
  split; [|done]. unfold entry_wf, e'. cbn [de_type de_inUse de_pad de_sector de_name]. split_and!; try done.
  - rewrite strncpy_key, length_app, length_key, length_drop, Hnl. done.
  - rewrite strncpy_key. apply Forall_app. split; [|by apply Forall_drop].
    apply Forall_take, Forall_app. split; [eapply Forall_impl; [exact Hname|]|].
    + unfold is_byte. intros c Hc. cbv beta in Hc. lia.
    + apply Forall_replicate. unfold is_byte. lia.
  - exists name. done.
Qed.

Lemma removed_entry_wf e :
  entry_wf e ->
  entry_wf (mkEntry (de_type e) 0 (de_pad e) (de_sector e)
              (replicate FileNameMaxLen 0 ++ drop FileNameMaxLen (de_name e))).
Proof.
  intros (Ht & _ & Hpl & Hpb & Hs & Hnl & Hnb & _). unfold entry_wf.
  cbn [de_type de_inUse de_pad de_sector de_name]. split_and!; try done.
  - rewrite length_app, length_replicate, length_drop, Hnl. done.
  - apply Forall_app. split; [|by apply Forall_drop]. apply Forall_replicate. unfold is_byte. lia.
  - exists []. by split; [constructor|].
Qed.

(** ** A directory is a finite map of bounded size *)

Inductive dir_call := DirFind (name : list Z) | DirAdd (name : list Z) (s : Z) | DirRemove (name : list Z).

(** The sector found, or success. *)
Inductive dir_result := DSector (s : Z) | DBool (b : bool).

Definition dir_exec (c : dir_call) (t : Directory) : result (dir_result * Directory) :=
  match c with
  | DirFind name => s ← Directory_Find t name; Ok (DSector s, t)
  | DirAdd name s => let '(b, t) := Directory_Add t name s in Ok (DBool b, t)
  | DirRemove name => '(b, t) ← Directory_Remove t name; Ok (DBool b, t)
  end.

Definition dmap_exec (cap : nat) (c : dir_call) (m : gmap (list Z) Z)
    : result (dir_result * gmap (list Z) Z) :=
  match c with
  | DirFind name => Ok (DSector (default (-1) (m !! key name)), m)
  | DirAdd name s =>
      if decide (m !! key name = None /\ (size m < cap)%nat)
      then Ok (DBool true, <[key name := s]> m) else Ok (DBool false, m)
  | DirRemove name =>
      if decide (m !! key name = None) then Ok (DBool false, m)
      else Ok (DBool true, delete (key name) m)
  end.

Definition dir_call_ok (c : dir_call) : Prop :=
  match c with
  | DirFind name | DirRemove name => is_name name
  | DirAdd name s => is_name name /\ in_i32 s
  end.

Lemma Add_refines t name s :
  dir_wf t -> is_name name -> in_i32 s ->
  exists b t', Directory_Add t name s = (b, t') /\ dir_wf t' /\ length t' = length t
    /\ dmap_exec (length t) (DirAdd name s) (dir_map t) = Ok (DBool b, dir_map t').
Proof.
  intros Hwf Hname Hs. pose proof Hwf as [Hall Hnd].
  destruct (Find_lookup t name Hwf Hname) as [_ Hiff]. cbn [dmap_exec].
  unfold Directory_Add. destruct (Z.eqb_spec (Directory_FindIndex t name) (-1)) as [He|He]; cbn [negb].
  2: { exists false, t. split_and!; try done. rewrite decide_False; [done|]. tauto. }
  apply Hiff in He. clear Hiff.
  destruct (Add_loop_spec t name s) as [[-> Hfull]|(t1 & e & t2 & -> & Hu & ->)].
  - exists false, t. split_and!; try done. rewrite decide_False; [done|].
    rewrite dir_size by done. rewrite (proj1 (filter_full t) Hfull). lia.
  - apply Forall_app in Hall as [Hw1 [Hwe Hw2]%Forall_cons].
    destruct (new_entry_wf e name s Hwe Hname Hs) as [Hwe' Hk]. set (e' := mkEntry _ 1 _ _ _) in *.
    unfold dir_map in He. rewrite dir_map_unused in He, Hnd by done.
    apply not_elem_of_list_to_map_2 in He.
    assert (Hnd' : NoDup (dir_alist (t1 ++ e' :: t2)).*1).
    { rewrite dir_alist_app, dir_alist_cons. change (used e') with true. cbn [app].
      rewrite fmap_app, fmap_cons, <-Permutation_middle. rewrite dir_alist_app, fmap_app in He, Hnd.
      apply NoDup_cons. cbn [fst]. by rewrite Hk. }
    exists true, (t1 ++ e' :: t2). split_and!; [done| | |].
    + split; [|done]. apply Forall_app. by split; [|constructor].
    + by rewrite !length_app.
    + destruct (dir_map_middle t1 e' t2 eq_refl Hnd') as (-> & Hnone & _).
      rewrite Hk in *. cbn [de_sector e'].
      assert (Hm : dir_map (t1 ++ e :: t2) = dir_map (t1 ++ t2))
        by (unfold dir_map; by rewrite dir_map_unused).
      rewrite Hm, decide_True; [done|]. split; [done|]. rewrite dir_size by done.
      pose proof (length_filter (fun e => used e = true) (t1 ++ t2)).
      rewrite length_app in *. cbn [length]. lia.
Qed.

Lemma Remove_refines t name :
  dir_wf t -> is_name name ->
  exists b t', Directory_Remove t name = Ok (b, t') /\ dir_wf t' /\ length t' = length t
    /\ dmap_exec (length t) (DirRemove name) (dir_map t) = Ok (DBool b, dir_map t').
Proof.
  intros Hwf Hname. pose proof Hwf as [Hall Hnd]. unfold Directory_Remove, Directory_FindIndex.
  cbn [dmap_exec].
  destruct (FindIndex_spec t name 0 Hall Hname) as [[-> Hni]|(t1 & e & t2 & -> & Hu & Hk & ->)]; [done| |].
  - exists false, t. split_and!; try done. rewrite decide_True; [done|].
    by apply not_elem_of_list_to_map_1.
  - rewrite Z.add_0_l. destruct (Z.eqb_spec (Z.of_nat (length t1)) (-1)); [lia|].
    rewrite Nat2Z.id, lookup_mid. cbn [deref mbind result_bind]. rewrite insert_mid.
    apply Forall_app in Hall as [Hw1 [Hwe Hw2]%Forall_cons].
    destruct (dir_map_middle t1 e t2 Hu Hnd) as (Hm & Hnone & Hnd').
    eexists true, _. split; [done|]. split_and!.
    + split; [apply Forall_app; split; [done|]; constructor; [by apply removed_entry_wf|done]|].
      by rewrite dir_map_unused.
    + by rewrite !length_app.
    + rewrite Hm, <-Hk, lookup_insert_eq, decide_False by done. do 2 f_equal.
      unfold dir_map at 2. rewrite dir_map_unused by done. fold (dir_map (t1 ++ t2)).
      by rewrite delete_insert_id.
Qed.

(** A directory behaves as a finite map from names (cut to 11 characters) to header
    sectors with room for as many names as the table has entries: every sequence of [Find],
    [Add] and [Remove] returns what the map returns, [Add] failing exactly when the name is
    present or the table is full, and keeps the names in the table distinct. *)
Theorem Directory_refines_map (cs : list dir_call) (t : Directory) :
  dir_wf t -> Forall dir_call_ok cs ->
  exists rs t', run_ops dir_exec cs t = Ok (rs, t') /\ dir_wf t' /\ length t' = length t
    /\ run_ops (dmap_exec (length t)) cs (dir_map t) = Ok (rs, dir_map t').
Proof.
  intros Hwf Hcs. revert t Hwf. induction Hcs as [|c cs Hc _ IH]; intros t Hwf; [by exists [], t|].
  assert (Hstep : exists r t1, dir_exec c t = Ok (r, t1) /\ dir_wf t1 /\ length t1 = length t
    /\ dmap_exec (length t) c (dir_map t) = Ok (r, dir_map t1)).
  { destruct c as [name|name s|name]; cbn [dir_exec dir_call_ok] in *.
    - destruct (Find_lookup t name Hwf Hc) as [-> _]. eexists _, t. by split_and!.
    - destruct Hc as [Hn Hs]. destruct (Add_refines t name s Hwf Hn Hs) as (b & t' & -> & ?).
      eexists _, _. by split.
    - destruct (Remove_refines t name Hwf Hc) as (b & t' & -> & ?). eexists _, _. by split. }
  destruct Hstep as (r & t1 & HE & Hwf1 & Hl1 & HM).
  destruct (IH t1 Hwf1) as (rs & t2 & HE2 & Hwf2 & Hl2 & HM2).
  exists (r :: rs), t2. cbn [run_ops]. rewrite HE, HM. cbn [mbind result_bind].
  rewrite Hl1 in HM2. rewrite HE2, HM2. split_and!; try done. congruence.
Qed.

(** ** The directory file *)

Lemma length_entry_bytes e : entry_wf e -> length (entry_bytes e) = EntrySize.
Proof.
  intros (_ & _ & Hp & _ & _ & Hn & _). unfold entry_bytes.
  rewrite !length_app, Hp, Hn. unfold int_to_bytes. by rewrite length_le_enc.
Qed.

Lemma entry_bytes_bytes e : entry_wf e -> Forall is_byte (entry_bytes e).
Proof.
  intros (Ht & Hu & _ & Hp & _ & _ & Hn & _). unfold entry_bytes.
  rewrite !Forall_app. split_and!; [|done|apply le_enc_bytes|done].
  constructor; [done|]. by constructor.
Qed.

Lemma entry_roundtrip e : entry_wf e -> entry_of_bytes (entry_bytes e) = e.
Proof.
  intros (_ & _ & Hp & _ & Hs & Hn & _). destruct e as [ty iu pad s name].
  unfold entry_of_bytes, entry_bytes. cbn [de_type de_inUse de_pad de_sector de_name] in *.
  assert (Hl : length (int_to_bytes s) = 4%nat) by apply length_le_enc.
  f_equal.
  - by apply slice_app_here.
  - rewrite (assoc_L (++)). rewrite slice_app_here by (rewrite ?length_app, ?Hp; done).
    by apply int_roundtrip.
  - rewrite !(assoc_L (++)). unfold slice.
    rewrite drop_app_length' by (rewrite !length_app, Hp, Hl; done). by rewrite take_ge by lia.
Qed.

Lemma length_table_bytes t : Forall entry_wf t -> length (table_bytes t) = (length t * EntrySize)%nat.
Proof.
  unfold table_bytes. induction 1 as [|e t He _ IH]; [done|].
  rewrite bind_cons, length_app, IH, length_entry_bytes by done. done.
Qed.

Lemma table_bytes_bytes t : Forall entry_wf t -> Forall is_byte (table_bytes t).
Proof.
  unfold table_bytes. induction 1 as [|e t He _ IH]; [constructor|].
  rewrite bind_cons. apply Forall_app. split; [by apply entry_bytes_bytes|done].
Qed.

Lemma table_roundtrip t : Forall entry_wf t -> table_of_bytes (length t) (table_bytes t) = t.
Proof.
  unfold table_bytes. induction 1 as [|e t He _ IH]; [done|].
  rewrite bind_cons. cbn [length table_of_bytes].
  rewrite take_app_length', drop_app_length' by (by rewrite length_entry_bytes).
  by rewrite entry_roundtrip, IH.
Qed.

(** What the allocator may return: any bytes. *)
Definition entry_raw (e : DirectoryEntry) : Prop :=
  is_byte (de_type e) /\ length (de_pad e) = 2%nat /\ Forall is_byte (de_pad e)
  /\ in_i32 (de_sector e).

Lemma Directory_new_wf heap :
  Forall entry_raw heap ->
  dir_wf (Directory_new heap) /\ dir_alist (Directory_new heap) = []
  /\ length (Directory_new heap) = length heap.
Proof.
  unfold Directory_new. intros Hh. split_and!; [|clear Hh; by induction heap|by rewrite length_map].
  split.
  - induction Hh as [|e heap (Ht & Hp & Hpb & Hs) _ IH]; [constructor|]. constructor; [|done].
    unfold entry_wf. cbn [de_type de_inUse de_pad de_sector de_name]. split_and!; try done.
    + repeat constructor; done.
    + exists []. by split; [constructor|].
  - clear Hh. replace (dir_alist _) with (@nil (list Z * Z)); [constructor|]. by induction heap.
Qed.

Section DirectoryFile.
Context {D : Type} `{SectorDevice D}.

(** [f] is an open file that stores the table [t]. *)
Definition stores_dir (f : OpenFile) (d : D) (t : Directory) : Prop :=
  file_content (of_hdr f) d = table_bytes t
  /\ fh_numBytes (of_hdr f) = Z.of_nat (length t * EntrySize).

Lemma Directory_FetchFrom_ok t0 t f (d : D) :
  file_ok f d -> Forall entry_wf t -> Forall entry_wf t0 -> stores_dir f d t -> length t0 = length t ->
  exists d', Directory_FetchFrom t0 f d = Ok (t, d') /\ sd_valid d' /\ same_sectors d d'.
Proof.
  intros (Hd & Hh & _) Ht Ht0 [Hc Hn] Hl. unfold Directory_FetchFrom. rewrite Hl.
  pose proof (direct_bounds _ Hh) as (Hns & Hnb & _).
  destruct f as [h seek hs]. cbn [of_hdr] in *.
  destruct (ReadAt_any h seek hs d (Z.of_nat (length t * EntrySize)) 0) as (d' & -> & Hd' & Hs);
    [done|done|done|lia|].
  cbn [mbind result_bind]. exists d'. split_and!; [|done|done]. do 2 f_equal.
  rewrite Hc, Nat2Z.id. change (Z.to_nat 0) with 0%nat. unfold slice. rewrite drop_0, take_ge
    by (rewrite length_table_bytes by done; lia).
  replace (splice (table_bytes t0) 0 (table_bytes t)) with (table_bytes t).
  - by apply table_roundtrip.
  - unfold splice. rewrite take_0, app_nil_l, drop_ge; [by rewrite app_nil_r|].
    rewrite !length_table_bytes, Hl by done. lia.
Qed.

Lemma Directory_WriteBack_ok heap t f (d : D) :
  file_ok f d -> Forall is_byte heap -> Forall entry_wf t ->
  fh_numBytes (of_hdr f) = Z.of_nat (length t * EntrySize) ->
  exists d', Directory_WriteBack heap t f d = Ok d' /\ sd_valid d' /\ stores_dir f d' t
    /\ forall s, valid_sector s -> s ∉ direct_sectors (of_hdr f) -> sd_sector d' s = sd_sector d s.
Proof.
  intros Hok Hheap Ht Hn. pose proof Hok as (Hd & Hh & _). unfold Directory_WriteBack.
  pose proof (direct_bounds _ Hh) as (Hns & Hnb & _).
  pose proof (length_table_bytes t Ht) as Hl.
  destruct (WriteAt_any heap f d (table_bytes t) (Z.of_nat (length t * EntrySize)) 0)
    as (d' & -> & Hd' & Hc & Hsec);
    [done|done|by apply table_bytes_bytes|done|lia|lia|].
  cbn [mbind result_bind]. exists d'. split_and!; [done|done| |done]. split; [|done].
  rewrite Hc. unfold af_write, af_room, file_abs. cbn [af_bytes].
  pose proof (length_file_content _ d Hh Hd) as Hcl.
  replace (Z.max 0 _) with (Z.of_nat (length t * EntrySize)) by lia.
  rewrite Nat2Z.id, take_ge by lia. unfold splice. change (Z.to_nat 0) with 0%nat.
  rewrite take_0, app_nil_l, drop_ge by lia. by rewrite app_nil_r.
Qed.

(** A directory written to its file and fetched into a fresh one comes back
    unchanged, and only the data sectors of the directory file are written. *)
Theorem Directory_file_roundtrip heap t t0 (f : OpenFile) (d : D) :
  file_ok f d -> Forall is_byte heap -> dir_wf t -> Forall entry_wf t0 -> length t0 = length t ->
  fh_numBytes (of_hdr f) = Z.of_nat (length t * EntrySize) ->
  exists d' d'', Directory_WriteBack heap t f d = Ok d'
    /\ Directory_FetchFrom t0 f d' = Ok (t, d'') /\ same_sectors d' d''
    /\ forall s, valid_sector s -> s ∉ direct_sectors (of_hdr f) -> sd_sector d' s = sd_sector d s.
Proof.
  intros Hok Hheap [Ht _] Ht0 Hl Hn.
  destruct (Directory_WriteBack_ok heap t f d Hok Hheap Ht Hn) as (d' & -> & Hd' & Hst & Hsec).
  destruct (Directory_FetchFrom_ok t0 t f d') as (d'' & HF & _ & Hs); [|done..|].
  { destruct Hok as (_ & Hrest). by split. }
  by exists d', d''.
Qed.
End DirectoryFile.

(** ** Concrete instances *)

Definition blank_entry : DirectoryEntry := mkEntry 0 0 [0; 0] 0 (replicate 12 0).
Definition blank_table : Directory := replicate 10 blank_entry.

Lemma blank_entry_wf : entry_wf blank_entry.
Proof.
  unfold entry_wf. split_and!; try done; [repeat constructor; done..|].
  exists []. by split; [constructor|].
Qed.

Lemma blank_table_wf : dir_wf blank_table.
Proof. split; [apply (Forall_replicate _ 10), blank_entry_wf|]. constructor. Qed.

Definition sample_calls : list dir_call :=
  [DirAdd [97; 98] 5; DirAdd [97; 98] 6; DirFind [97; 98]; DirRemove [97; 98]; DirFind [97; 98]].

Lemma Directory_refines_map_witness :
  exists rs t', run_ops dir_exec sample_calls blank_table = Ok (rs, t') /\ dir_wf t'
    /\ length t' = length blank_table
    /\ run_ops (dmap_exec (length blank_table)) sample_calls (dir_map blank_table) = Ok (rs, dir_map t').
Proof.
  apply (Directory_refines_map sample_calls blank_table); [apply blank_table_wf|].
  repeat constructor; done.
Defined.

Example sample_calls_run :
  match run_ops dir_exec sample_calls blank_table with
  | Ok (rs, _) => rs = [DBool true; DBool false; DSector 5; DBool true; DSector (-1)]
  | Err _ => False
  end.
Proof. reflexivity. Qed.

Lemma Directory_file_roundtrip_witness :
  let t := (Directory_Add blank_table [97; 98] 5).2 in
  exists (d' d'' : gmap Z (list Z)), Directory_WriteBack [] t short_file ∅ = Ok d'
    /\ Directory_FetchFrom blank_table short_file d' = Ok (t, d'') /\ same_sectors d' d''
    /\ forall s, valid_sector s -> s ∉ direct_sectors (of_hdr short_file) ->
         sd_sector d' s = sd_sector (∅ : gmap Z (list Z)) s.
Proof.
  apply (Directory_file_roundtrip [] (Directory_Add blank_table [97; 98] 5).2 blank_table
           short_file (∅ : gmap Z (list Z)));
    [apply short_file_ok|constructor| |apply blank_table_wf|done|done].
  destruct (Add_refines blank_table [97; 98] 5 blank_table_wf) as (b & t' & -> & Hwf & _);
    [repeat constructor; done|done|done].
Defined.
