(* ===== verification/FileSys.v ===== *)
(** * filesys/filesys.cc: the file system

    The bitmap of free sectors and the root directory are files themselves, with their
    headers in sectors 0 and 1; both stay open while Nachos runs.  Every operation reads
    the directory (and the bitmap) from disk, works on the copies, and writes them back
    only when everything succeeded.

    What a call gets from its environment (the time of day, and the contents of the memory
    that [new] returns) is collected in [call_env]. *)

From S2P Require Import Prelude BitMap Disk FileHdr OpenFile Directory.

Definition FreeMapSector : Z := 0.
Definition DirectorySector : Z := 1.
Definition FreeMapFileSize : Z := NumSectors `quot` BitsInByte.
Definition NumDirEntries : nat := 10.
Definition DirectoryFileSize : Z := Z.of_nat (EntrySize * NumDirEntries).

Record call_env := mkEnv {
  ce_time : list Z;                  (* the formatted time *)
  ce_words : list Z;                 (* new unsigned int[32] *)
  ce_entries : list DirectoryEntry;  (* new DirectoryEntry[10] *)
  ce_hdr : FileHeader;               (* new FileHeader *)
  ce_hdr2 : FileHeader;
  ce_buf : list Z;                   (* new char[...] in WriteAt *)
  ce_buf2 : list Z
}.

(** ** The bitmap as a file (userprog/bitmap.cc) *)

(** The memory of [unsigned int *map]. *)
Definition words_bytes (ws : list Z) : list Z := ws ≫= le_enc 4.

Fixpoint words_of_bytes (n : nat) (bs : list Z) : list Z :=
  match n with
  | O => []
  | S n => le_dec (take 4 bs) :: words_of_bytes n (drop 4 bs)
  end.

Section Device.
Context {D : Type} `{SectorDevice D}.

Definition BitMap_FetchFrom (bm : BitMap) (file : OpenFile) (d : D) : result (BitMap * D) :=
  '(data, d) ← OpenFile_ReadAt file d (bm_numWords bm * 4) 0;
  Ok (mkBitMap (bm_numBits bm) (bm_numWords bm)
        (words_of_bytes (length (bm_map bm)) (splice (words_bytes (bm_map bm)) 0 data)), d).

Definition BitMap_WriteBack (heap : list Z) (bm : BitMap) (file : OpenFile) (d : D) : result D :=
  '(_, d) ← OpenFile_WriteAt heap file d (words_bytes (bm_map bm)) (bm_numWords bm * 4) 0;
  Ok d.

(** ** The operations *)

Record FileSystem := mkFileSystem {
  fs_freeMapFile : OpenFile;
  fs_directoryFile : OpenFile
}.

Definition FileSystem_new (e : call_env) (d : D) (format : bool) : result (FileSystem * D) :=
  if format then
    freeMap ← BitMap_new (ce_words e) NumSectors;
    let directory := Directory_new (ce_entries e) in
    freeMap ← BitMap_Mark freeMap FreeMapSector;
    freeMap ← BitMap_Mark freeMap DirectorySector;
    '(ok, mapHdr, freeMap, d) ← FileHeader_Allocate (ce_time e) (ce_hdr e) freeMap d FreeMapFileSize;
    ASSERT ok ;;
    '(ok, dirHdr, freeMap, d) ← FileHeader_Allocate (ce_time e) (ce_hdr2 e) freeMap d DirectoryFileSize;
    ASSERT ok ;;
    d ← FileHeader_WriteBack mapHdr d FreeMapSector;
    d ← FileHeader_WriteBack dirHdr d DirectorySector;
    '(freeMapFile, d) ← OpenFile_new d FreeMapSector;
    '(directoryFile, d) ← OpenFile_new d DirectorySector;
    d ← BitMap_WriteBack (ce_buf e) freeMap freeMapFile d;
    d ← Directory_WriteBack (ce_buf2 e) directory directoryFile d;
    Ok (mkFileSystem freeMapFile directoryFile, d)
  else
    '(freeMapFile, d) ← OpenFile_new d FreeMapSector;
    '(directoryFile, d) ← OpenFile_new d DirectorySector;
    Ok (mkFileSystem freeMapFile directoryFile, d).

Definition FileSystem_Create (e : call_env) (fs : FileSystem) (d : D) (name : list Z) (initialSize : Z)
    : result (bool * D) :=
  '(directory, d) ← Directory_FetchFrom (Directory_new (ce_entries e)) (fs_directoryFile fs) d;
  found ← Directory_Find directory name;
  if negb (found =? -1) then Ok (false, d)
  else
    freeMap ← BitMap_new (ce_words e) NumSectors;
    '(freeMap, d) ← BitMap_FetchFrom freeMap (fs_freeMapFile fs) d;
    '(sector, freeMap) ← BitMap_Find freeMap;
    if sector =? -1 then Ok (false, d)
    else
      let '(added, directory) := Directory_Add directory name sector in
      if negb added then Ok (false, d)
      else
        '(ok, hdr, freeMap, d) ← FileHeader_Allocate (ce_time e) (ce_hdr e) freeMap d initialSize;
        if negb ok then Ok (false, d)
        else
          d ← FileHeader_WriteBack hdr d sector;
          d ← Directory_WriteBack (ce_buf e) directory (fs_directoryFile fs) d;
          d ← BitMap_WriteBack (ce_buf2 e) freeMap (fs_freeMapFile fs) d;
          Ok (true, d).

Definition FileSystem_Open (e : call_env) (fs : FileSystem) (d : D) (name : list Z)
    : result (option OpenFile * D) :=
  '(directory, d) ← Directory_FetchFrom (Directory_new (ce_entries e)) (fs_directoryFile fs) d;
  sector ← Directory_Find directory name;
  if 0 <=? sector then '(f, d) ← OpenFile_new d sector; Ok (Some f, d)
  else Ok (None, d).

Definition FileSystem_Remove (e : call_env) (fs : FileSystem) (d : D) (name : list Z)
    : result (bool * D) :=
  '(directory, d) ← Directory_FetchFrom (Directory_new (ce_entries e)) (fs_directoryFile fs) d;
  sector ← Directory_Find directory name;
  if sector =? -1 then Ok (false, d)
  else
    '(fileHdr, d) ← FileHeader_FetchFrom d sector;
    freeMap ← BitMap_new (ce_words e) NumSectors;
    '(freeMap, d) ← BitMap_FetchFrom freeMap (fs_freeMapFile fs) d;
    '(freeMap, d) ← FileHeader_Deallocate fileHdr freeMap d;
    freeMap ← BitMap_Clear freeMap sector;
    '(_, directory) ← Directory_Remove directory name;
    d ← BitMap_WriteBack (ce_buf e) freeMap (fs_freeMapFile fs) d;
    d ← Directory_WriteBack (ce_buf2 e) directory (fs_directoryFile fs) d;
    Ok (true, d).

Definition FileSystem_List (e : call_env) (fs : FileSystem) (d : D)
    : result (list (Z * list Z * Z * Z) * D) :=
  '(directory, d) ← Directory_FetchFrom (Directory_new (ce_entries e)) (fs_directoryFile fs) d;
  Ok (Directory_List directory, d).

End Device.

(** ** The bitmap file *)

Lemma length_words_bytes ws : length (words_bytes ws) = (4 * length ws)%nat.
Proof.
  unfold words_bytes. induction ws as [|w ws IH]; [done|].
  rewrite bind_cons, length_app, IH, length_le_enc. cbn [length]. lia.
Qed.

Lemma words_bytes_bytes ws : Forall is_byte (words_bytes ws).
Proof.
  unfold words_bytes. induction ws as [|w ws IH]; [constructor|].
  rewrite bind_cons. apply Forall_app. split; [apply le_enc_bytes|done].
Qed.

Lemma words_roundtrip ws : Forall in_u32 ws -> words_of_bytes (length ws) (words_bytes ws) = ws.
Proof.
  unfold words_bytes. induction 1 as [|w ws Hw _ IH]; [done|].
  rewrite bind_cons. cbn [length words_of_bytes].
  rewrite take_app_length', drop_app_length' by (by rewrite length_le_enc).
  rewrite IH, le_dec_enc. f_equal. change (256 ^ Z.of_nat 4) with (2 ^ 32). by apply u32_id.
Qed.

Section MapFile.
Context {D : Type} `{SectorDevice D}.

(** [f] is an open file of one sector that stores the bitmap. *)
Definition stores_map (f : OpenFile) (d : D) (bm : BitMap) : Prop :=
  file_content (of_hdr f) d = words_bytes (bm_map bm) /\ fh_numBytes (of_hdr f) = 128.

Lemma freemap_words bm : freemap_ok bm -> length (bm_map bm) = 32%nat /\ bm_numWords bm = 32
  /\ Forall in_u32 (bm_map bm).
Proof.
  intros [(_ & Hn & Hl & Hw) Hb]. rewrite Hb in Hn.
  change (divRoundUp NumSectors BitsInWord) with 32 in Hn. split_and!; [lia|done|done].
Qed.

Lemma BitMap_FetchFrom_ok bm0 bm f (d : D) :
  file_ok f d -> freemap_ok bm -> freemap_ok bm0 -> stores_map f d bm ->
  exists d', BitMap_FetchFrom bm0 f d = Ok (bm, d') /\ sd_valid d' /\ same_sectors d d'.
Proof.
  intros (Hd & Hh & _) Hbm Hbm0 [Hc Hn]. unfold BitMap_FetchFrom.
  destruct (freemap_words bm Hbm) as (Hl & Hnw & Hw).
  destruct (freemap_words bm0 Hbm0) as (Hl0 & Hnw0 & _).
  destruct f as [h seek hs]. cbn [of_hdr] in *. rewrite Hnw0.
  destruct (ReadAt_any h seek hs d (32 * 4) 0) as (d' & -> & Hd' & Hs); [done..|].
  cbn [mbind result_bind]. exists d'. split_and!; [|done|done]. do 2 f_equal.
  rewrite Hc. change (Z.to_nat 0) with 0%nat. unfold slice.
  rewrite drop_0, take_ge by (rewrite length_words_bytes, Hl; done).
  unfold splice. rewrite take_0, app_nil_l, drop_ge, app_nil_r
    by (rewrite !length_words_bytes, Hl, Hl0; done).
  rewrite Hl0, <-Hl, words_roundtrip by done.
  destruct Hbm as [_ Hb], Hbm0 as [_ Hb0]. destruct bm. cbn in *. congruence.
Qed.

Lemma BitMap_WriteBack_ok heap bm f (d : D) :
  file_ok f d -> Forall is_byte heap -> freemap_ok bm -> fh_numBytes (of_hdr f) = 128 ->
  exists d', BitMap_WriteBack heap bm f d = Ok d' /\ sd_valid d' /\ stores_map f d' bm
    /\ forall s, valid_sector s -> s ∉ direct_sectors (of_hdr f) -> sd_sector d' s = sd_sector d s.
Proof.
  intros Hok Hheap Hbm Hn. pose proof Hok as (Hd & Hh & _). unfold BitMap_WriteBack.
  destruct (freemap_words bm Hbm) as (Hl & -> & _).
  pose proof (length_words_bytes (bm_map bm)) as Hlb. rewrite Hl in Hlb.
  destruct (WriteAt_any heap f d (words_bytes (bm_map bm)) (32 * 4) 0)
    as (d' & -> & Hd' & Hc & Hsec); [done|done|apply words_bytes_bytes|done|lia|done|].
  cbn [mbind result_bind]. exists d'. split_and!; [done|done| |done]. split; [|done].
  rewrite Hc. unfold af_write, af_room, file_abs. cbn [af_bytes].
  pose proof (length_file_content _ d Hh Hd) as Hcl. rewrite Hn in Hcl.
  replace (Z.max 0 _) with 128 by lia.
  rewrite take_ge by lia. unfold splice. change (Z.to_nat 0) with 0%nat.
  rewrite take_0, app_nil_l, drop_ge by lia. by rewrite app_nil_r.
Qed.

End MapFile.

(** ** The invariant of the file system *)

Section Invariant.
Context {D : Type} `{SectorDevice D}.

Definition env_ok (e : call_env) : Prop :=
  Forall is_byte (ce_time e)
  /\ (32 <= length (ce_words e))%nat /\ Forall in_u32 (ce_words e)
  /\ length (ce_entries e) = NumDirEntries /\ Forall entry_raw (ce_entries e)
  /\ fh_wf (ce_hdr e) /\ fh_wf (ce_hdr2 e)
  /\ Forall is_byte (ce_buf e) /\ Forall is_byte (ce_buf2 e).

(** The header stored in a sector, and every sector of the file it describes. *)
Definition file_hdr (d : D) (s : Z) : FileHeader := fh_of_bytes (sd_sector d s).
Definition file_owned (d : D) (s : Z) : list Z := s :: owned_sectors (file_hdr d s) d.

(** The sectors of the two system files, and all sectors in use. *)
Definition data_sectors (fs : FileSystem) : list Z :=
  direct_sectors (of_hdr (fs_freeMapFile fs)) ++ direct_sectors (of_hdr (fs_directoryFile fs)).

Definition sys_sectors (fs : FileSystem) : list Z :=
  [FreeMapSector; DirectorySector] ++ data_sectors fs.

Definition user_sectors (d : D) (ss : list Z) : list Z := ss ≫= file_owned d.

Definition all_sectors (fs : FileSystem) (d : D) (t : Directory) : list Z :=
  sys_sectors fs ++ user_sectors d (dir_alist t).*2.

(** The two open system files store the bitmap [bm] and the table [t]; no sector is used
    twice; the bitmap marks exactly the sectors in use. *)
Record fs_inv (fs : FileSystem) (d : D) (bm : BitMap) (t : Directory) : Prop := {
  inv_mapfile : file_ok (fs_freeMapFile fs) d;
  inv_dirfile : file_ok (fs_directoryFile fs) d;
  inv_map : stores_map (fs_freeMapFile fs) d bm;
  inv_dir : stores_dir (fs_directoryFile fs) d t;
  inv_bm : freemap_ok bm;
  inv_wf : dir_wf t;
  inv_len : length t = NumDirEntries;
  inv_boot : of_hdr (fs_freeMapFile fs) = file_hdr d FreeMapSector
    /\ of_hdr (fs_directoryFile fs) = file_hdr d DirectorySector
    /\ of_hdrSector (fs_freeMapFile fs) = FreeMapSector
    /\ of_hdrSector (fs_directoryFile fs) = DirectorySector;
  inv_nodup : NoDup (all_sectors fs d t);
  inv_free : forall s, s ∈ bm_free bm <-> valid_sector s /\ s ∉ all_sectors fs d t;
  inv_valid : Forall valid_sector (all_sectors fs d t);
  inv_hdrs : forall s, s ∈ (dir_alist t).*2 -> fh_wf (file_hdr d s) /\ fh_sized (file_hdr d s)
}.

Lemma file_ok_valid f (d d' : D) : sd_valid d' -> file_ok f d -> file_ok f d'.
Proof. intros Hd (_ & Hrest). by split. Qed.

Lemma file_content_ext h (d d' : D) :
  direct_file h -> (forall s, s ∈ direct_sectors h -> sd_sector d' s = sd_sector d s) ->
  file_content h d' = file_content h d.
Proof.
  intros Hh Hs. unfold file_content. rewrite !file_sectors_direct by done.
  f_equal. by apply sectors_data_ext.
Qed.

Lemma owned_ext h (d d' : D) :
  (forall s, s ∈ index_sectors h -> sd_sector d' s = sd_sector d s) ->
  owned_sectors h d' = owned_sectors h d.
Proof.
  intros Hs. unfold owned_sectors. cut (file_sectors h d' = file_sectors h d); [by intros ->|].
  unfold file_sectors, index_sectors in *. destruct (needs_index _); [|done].
  rewrite Hs; [done|left].
Qed.

Lemma file_owned_ext (d d' : D) s :
  (forall x, x ∈ file_owned d s -> sd_sector d' x = sd_sector d x) ->
  file_owned d' s = file_owned d s /\ file_hdr d' s = file_hdr d s.
Proof.
  intros Hx. assert (Hh : file_hdr d' s = file_hdr d s) by (unfold file_hdr; rewrite Hx; [done|left]).
  split; [|done]. unfold file_owned. rewrite Hh. f_equal. apply owned_ext.
  intros x Hi. apply Hx. right. rewrite owned_perm, elem_of_app. by right.
Qed.

Lemma user_sectors_ext (d d' : D) ss :
  (forall x, x ∈ user_sectors d ss -> sd_sector d' x = sd_sector d x) ->
  user_sectors d' ss = user_sectors d ss.
Proof.
  intros Hx. unfold user_sectors in *. induction ss as [|s ss IH]; [done|].
  rewrite bind_cons in Hx |- *. rewrite bind_cons, IH by set_solver.
  destruct (file_owned_ext d d' s) as [-> _]; [set_solver|done].
Qed.

(** A read-only step keeps the invariant. *)
Lemma inv_same fs (d d' : D) bm t :
  fs_inv fs d bm t -> sd_valid d' -> same_sectors d d' -> fs_inv fs d' bm t.
Proof.
  intros Hinv Hd' Hs. pose proof (inv_valid _ _ _ _ Hinv) as Hv. rewrite Forall_forall in Hv.
  assert (Hx : forall x, x ∈ all_sectors fs d t -> sd_sector d' x = sd_sector d x) by auto.
  assert (Hall : all_sectors fs d' t = all_sectors fs d t).
  { unfold all_sectors in *. f_equal. apply user_sectors_ext. intros x Hin. apply Hx, elem_of_app. by right. }
  destruct Hinv as [Hm Hdir [Hmc Hmn] [Hdc Hdn] Hbm Hwf Hlen Hboot Hnd Hfree _ Hh].
  pose proof Hm as (_ & Hm2 & _). pose proof Hdir as (_ & Hd2 & _).
  constructor; try done.
  - by apply (file_ok_valid _ d).
  - by apply (file_ok_valid _ d).
  - split; [|done]. by rewrite (file_content_same _ d d').
  - split; [|done]. by rewrite (file_content_same _ d d').
  - unfold file_hdr in *. by rewrite !Hs.
  - by rewrite Hall.
  - by rewrite Hall.
  - rewrite Hall. by apply Forall_forall.
  - intros s Hin. unfold file_hdr. rewrite Hs; [by apply Hh|].
    apply Hv. unfold all_sectors, user_sectors. rewrite elem_of_app, list_elem_of_bind. right.
    exists s. split; [left|done].
Qed.

Lemma inv_disjoint fs (d : D) bm t :
  fs_inv fs d bm t ->
  NoDup (sys_sectors fs) /\ NoDup (user_sectors d (dir_alist t).*2)
  /\ forall s, s ∈ sys_sectors fs -> s ∉ user_sectors d (dir_alist t).*2.
Proof.
  intros Hinv. pose proof (inv_nodup _ _ _ _ Hinv) as Hnd. unfold all_sectors in Hnd.
  apply NoDup_app in Hnd as (? & ? & ?). auto.
Qed.

(** The name table as a list, after the abstract map changed. *)
Lemma dir_alist_insert t t' k s :
  dir_wf t -> dir_wf t' -> dir_map t !! k = None -> dir_map t' = <[k := s]> (dir_map t) ->
  dir_alist t' ≡ₚ (k, s) :: dir_alist t.
Proof.
  intros [_ Hnd] [_ Hnd'] Hk Heq.
  rewrite <-(map_to_list_to_map (M := gmap (list Z)) _ Hnd').
  change (list_to_map (dir_alist t')) with (dir_map t'). rewrite Heq, map_to_list_insert by done.
  f_equiv. by apply map_to_list_to_map.
Qed.

Lemma dir_alist_delete t t' k s :
  dir_wf t -> dir_wf t' -> dir_map t !! k = Some s -> dir_map t' = delete k (dir_map t) ->
  dir_alist t ≡ₚ (k, s) :: dir_alist t'.
Proof.
  intros Hwf Hwf' Hk Heq. apply dir_alist_insert; [done|done|by rewrite Heq, lookup_delete_eq|].
  rewrite Heq, insert_delete_id; done.
Qed.

Lemma env_new_map e : env_ok e ->
  exists bm, BitMap_new (ce_words e) NumSectors = Ok bm /\ freemap_ok bm
    /\ bm_free bm = seqZ 0 NumSectors.
Proof.
  intros (_ & Hl & Hw & _).
  destruct (BitMap_new_spec (ce_words e) NumSectors) as (bm & -> & Hwf & Hn & Hf); [done| |done|].
  - change (divRoundUp NumSectors BitsInWord) with 32. lia.
  - exists bm. by split_and!.
Qed.

Lemma env_new_dir e : env_ok e ->
  dir_wf (Directory_new (ce_entries e)) /\ length (Directory_new (ce_entries e)) = NumDirEntries
  /\ dir_alist (Directory_new (ce_entries e)) = [].
Proof.
  intros (_ & _ & _ & Hl & Hraw & _). destruct (Directory_new_wf _ Hraw) as (? & ? & ->). done.
Qed.

(** The first step of every operation: the table comes from the directory file. *)
Lemma fetch_dir e fs (d : D) bm t :
  env_ok e -> fs_inv fs d bm t ->
  exists d', Directory_FetchFrom (Directory_new (ce_entries e)) (fs_directoryFile fs) d = Ok (t, d')
    /\ same_sectors d d' /\ fs_inv fs d' bm t.
Proof.
  intros He Hinv. destruct (env_new_dir e He) as ([Hnw _] & Hnl & _).
  destruct (Directory_FetchFrom_ok (Directory_new (ce_entries e)) t (fs_directoryFile fs) d)
    as (d' & -> & Hd' & Hs);
    [apply Hinv|apply Hinv|done|apply Hinv|by rewrite (inv_len _ _ _ _ Hinv)|].
  exists d'. split_and!; [done|done|by apply (inv_same fs d d')].
Qed.

Lemma fetch_map e fs (d : D) bm t :
  env_ok e -> fs_inv fs d bm t ->
  exists bm0 d', BitMap_new (ce_words e) NumSectors = Ok bm0
    /\ BitMap_FetchFrom bm0 (fs_freeMapFile fs) d = Ok (bm, d')
    /\ same_sectors d d' /\ fs_inv fs d' bm t.
Proof.
  intros He Hinv. destruct (env_new_map e He) as (bm0 & -> & Hbm0 & _).
  destruct (BitMap_FetchFrom_ok bm0 bm (fs_freeMapFile fs) d) as (d' & HF & Hd' & Hs);
    [apply Hinv|apply Hinv|done|apply Hinv|].
  exists bm0, d'. split_and!; [done|done|done|by apply (inv_same fs d d')].
Qed.
End Invariant.

(** ** Creating a file *)

Section Create.
Context {D : Type} `{SectorDevice D}.

Lemma sys_split fs s :
  s ∉ data_sectors fs ->
  (s ∉ direct_sectors (of_hdr (fs_freeMapFile fs)))
  /\ (s ∉ direct_sectors (of_hdr (fs_directoryFile fs))).
Proof. unfold data_sectors. rewrite !not_elem_of_app. tauto. Qed.

Lemma sys_files_disjoint fs (d : D) bm t s :
  fs_inv fs d bm t -> s ∈ direct_sectors (of_hdr (fs_freeMapFile fs)) ->
  s ∉ direct_sectors (of_hdr (fs_directoryFile fs)).
Proof.
  intros Hinv Hs. destruct (inv_disjoint _ _ _ _ Hinv) as (Hnd & _).
  unfold sys_sectors, data_sectors in Hnd. apply NoDup_app in Hnd as (_ & _ & Hnd).
  apply NoDup_app in Hnd as (_ & Hdis & _). auto.
Qed.

(** Both system files are written: each stores its new contents, nothing else changes. *)
Lemma write_both fs (d0 d : D) bm t bm' t' b1 b2 (dir_first : bool) :
  fs_inv fs d0 bm t -> sd_valid d -> Forall is_byte b1 -> Forall is_byte b2 ->
  freemap_ok bm' -> dir_wf t' -> length t' = NumDirEntries ->
  exists d1 d2,
    (if dir_first
     then Directory_WriteBack b1 t' (fs_directoryFile fs) d = Ok d1
          /\ BitMap_WriteBack b2 bm' (fs_freeMapFile fs) d1 = Ok d2
     else BitMap_WriteBack b1 bm' (fs_freeMapFile fs) d = Ok d1
          /\ Directory_WriteBack b2 t' (fs_directoryFile fs) d1 = Ok d2)
    /\ sd_valid d2 /\ stores_map (fs_freeMapFile fs) d2 bm' /\ stores_dir (fs_directoryFile fs) d2 t'
    /\ forall s, valid_sector s -> s ∉ data_sectors fs -> sd_sector d2 s = sd_sector d s.
Proof.
  intros Hinv Hd Hb1 Hb2 Hbm' [Ht' _] Hlen.
  pose proof (file_ok_valid _ d0 d Hd (inv_mapfile _ _ _ _ Hinv)) as Hmf.
  pose proof (file_ok_valid _ d0 d Hd (inv_dirfile _ _ _ _ Hinv)) as Hdf.
  assert (Hmn : fh_numBytes (of_hdr (fs_freeMapFile fs)) = 128) by apply (inv_map _ _ _ _ Hinv).
  assert (Hdn : fh_numBytes (of_hdr (fs_directoryFile fs)) = Z.of_nat (length t' * EntrySize)).
  { rewrite Hlen, <-(inv_len _ _ _ _ Hinv). apply (inv_dir _ _ _ _ Hinv). }
  pose proof Hmf as (_ & Hmd & _). pose proof Hdf as (_ & Hdd & _).
  pose proof Hmd as (_ & _ & _ & _ & Hmv & _). pose proof Hdd as (_ & _ & _ & _ & Hdv & _).
  rewrite Forall_forall in Hmv, Hdv. destruct dir_first.
  - destruct (Directory_WriteBack_ok b1 t' _ d Hdf Hb1 Ht' Hdn) as (d1 & HW1 & Hd1 & [Hc1 Hn1] & Hs1).
    destruct (BitMap_WriteBack_ok b2 bm' _ d1 (file_ok_valid _ d d1 Hd1 Hmf) Hb2 Hbm' Hmn)
      as (d2 & HW2 & Hd2 & Hst2 & Hs2).
    exists d1, d2. split_and!; [done|done|done|done| |].
    + split; [|done]. rewrite (file_content_ext _ d1 d2); [done|done|].
      intros s Hs. apply Hs2; [auto|]. intros Hm. by apply (sys_files_disjoint _ _ _ _ s Hinv).
    + intros s Hv Hs. apply sys_split in Hs as [? ?]. rewrite Hs2, Hs1; done.
  - destruct (BitMap_WriteBack_ok b1 bm' _ d Hmf Hb1 Hbm' Hmn) as (d1 & HW1 & Hd1 & [Hc1 Hn1] & Hs1).
    destruct (Directory_WriteBack_ok b2 t' _ d1 (file_ok_valid _ d d1 Hd1 Hdf) Hb2 Ht' Hdn)
      as (d2 & HW2 & Hd2 & Hst2 & Hs2).
    exists d1, d2. split_and!; [done|done|done| |done|].
    + split; [|done]. rewrite (file_content_ext _ d1 d2); [done|done|].
      intros s Hs. apply Hs2; [auto|]. by apply (sys_files_disjoint _ _ _ _ s Hinv).
    + intros s Hv Hs. apply sys_split in Hs as [? ?]. rewrite Hs2, Hs1; done.
Qed.

Lemma sys_boot fs (d : D) bm t s :
  fs_inv fs d bm t -> s ∈ [FreeMapSector; DirectorySector] -> s ∉ data_sectors fs.
Proof.
  intros Hinv Hs. destruct (inv_disjoint _ _ _ _ Hinv) as (Hnd & _).
  unfold sys_sectors in Hnd. apply NoDup_app in Hnd as (_ & Hdis & _). auto.
Qed.

Lemma not_sys fs s : s ∉ sys_sectors fs -> s ∉ data_sectors fs.
Proof. unfold sys_sectors. rewrite not_elem_of_app. tauto. Qed.

(** The headers of the system files stay in place. *)
Lemma boot_same fs (d d' : D) bm t :
  fs_inv fs d bm t ->
  (forall s, s ∈ [FreeMapSector; DirectorySector] -> sd_sector d' s = sd_sector d s) ->
  of_hdr (fs_freeMapFile fs) = file_hdr d' FreeMapSector
  /\ of_hdr (fs_directoryFile fs) = file_hdr d' DirectorySector
  /\ of_hdrSector (fs_freeMapFile fs) = FreeMapSector
  /\ of_hdrSector (fs_directoryFile fs) = DirectorySector.
Proof.
  intros Hinv Hs. unfold file_hdr. rewrite !Hs by set_solver. apply (inv_boot _ _ _ _ Hinv).
Qed.

Lemma all_sectors_user fs (d : D) t x :
  x ∈ user_sectors d (dir_alist t).*2 -> x ∈ all_sectors fs d t.
Proof. intros. unfold all_sectors. rewrite elem_of_app. by right. Qed.

Lemma take_free bm m s : s ∈ take m (bm_free bm) -> s ∈ bm_free bm.
Proof. intros (i & Hi & _)%elem_of_take. by apply list_elem_of_lookup_2 in Hi. Qed.

Lemma drop_free bm m s : s ∈ drop m (bm_free bm) <-> s ∈ bm_free bm /\ s ∉ take m (bm_free bm).
Proof.
  pose proof (bm_free_NoDup bm) as Hnd. rewrite <-(take_drop m (bm_free bm)) in Hnd.
  apply NoDup_app in Hnd as (_ & Hdis & _).
  rewrite <-(take_drop m (bm_free bm)) at 2. rewrite elem_of_app. split.
  - intros Hs. split; [by right|]. intros Ht. by apply (Hdis s).
  - tauto.
Qed.

(** The invariant after both system files have been written. *)
Lemma inv_rewritten fs (d d' : D) bm t bm' t' :
  fs_inv fs d bm t -> sd_valid d' -> stores_map (fs_freeMapFile fs) d' bm' ->
  stores_dir (fs_directoryFile fs) d' t' -> freemap_ok bm' -> dir_wf t' -> length t' = NumDirEntries ->
  (forall s, s ∈ [FreeMapSector; DirectorySector] -> sd_sector d' s = sd_sector d s) ->
  NoDup (all_sectors fs d' t') -> Forall valid_sector (all_sectors fs d' t') ->
  (forall s, s ∈ bm_free bm' <-> valid_sector s /\ s ∉ all_sectors fs d' t') ->
  (forall s, s ∈ (dir_alist t').*2 -> fh_wf (file_hdr d' s) /\ fh_sized (file_hdr d' s)) ->
  fs_inv fs d' bm' t'.
Proof.
  intros Hinv Hd' Hm Ht Hbm' Hwf' Hlen' Hboot Hnd Hv Hfree Hh. constructor; try done.
  - exact (file_ok_valid _ d d' Hd' (inv_mapfile _ _ _ _ Hinv)).
  - exact (file_ok_valid _ d d' Hd' (inv_dirfile _ _ _ _ Hinv)).
  - by apply (boot_same fs d d' bm t Hinv).
Qed.

Lemma boot_valid s : s ∈ [FreeMapSector; DirectorySector] -> valid_sector s.
Proof. by intros [->|[->|[]%elem_of_nil]%elem_of_cons]%elem_of_cons. Qed.

(** The sectors a new file takes: valid, all different, not in use. *)
Lemma new_sectors fs (d : D) bm t s0 rest m :
  fs_inv fs d bm t -> bm_free bm = s0 :: rest ->
  NoDup (s0 :: take m rest) /\ forall s, s ∈ s0 :: take m rest ->
    valid_sector s /\ (s ∉ all_sectors fs d t) /\ (s ∉ sys_sectors fs).
Proof.
  intros Hinv Hfree. assert (Hnew : take (S m) (bm_free bm) = s0 :: take m rest) by by rewrite Hfree.
  rewrite <-Hnew. split.
  - pose proof (bm_free_NoDup bm) as Hn. rewrite <-(take_drop (S m) (bm_free bm)) in Hn.
    by apply NoDup_app in Hn as (? & _).
  - intros s Hs%take_free. apply (inv_free _ _ _ _ Hinv) in Hs as [Hv Ha]. split_and!; [done|done|].
    intros Hsy. apply Ha. unfold all_sectors. rewrite elem_of_app. by left.
Qed.

(** The disk after the writes of [Create]: the header of the new file is in sector [s0],
    the new file owns the sectors taken from the bitmap, no other file has changed. *)
Lemma created_file fs (d d2 d' : D) bm t s0 rest m h' :
  fs_inv fs d bm t -> bm_free bm = s0 :: rest -> fh_wf h' -> owned_sectors h' d2 = take m rest ->
  (forall s, valid_sector s -> s ∉ index_sectors h' -> sd_sector d2 s = sd_sector d s) ->
  (forall s, valid_sector s -> s ∉ data_sectors fs ->
     sd_sector d' s = if decide (s = s0) then fh_bytes h' else sd_sector d2 s) ->
  file_hdr d' s0 = h' /\ file_owned d' s0 = s0 :: take m rest
  /\ (forall x, x ∈ user_sectors d (dir_alist t).*2 -> sd_sector d' x = sd_sector d x)
  /\ forall x, x ∈ [FreeMapSector; DirectorySector] -> sd_sector d' x = sd_sector d x.
Proof.
  intros Hinv Hfree Hhwf How Hag Hs'.
  destruct (new_sectors fs d bm t s0 rest m Hinv Hfree) as [Hnd Hnv].
  assert (Hidx : forall s, s ∈ index_sectors h' -> s ∈ take m rest).
  { intros s Hs. rewrite <-How, owned_perm, elem_of_app. by right. }
  assert (Hnew : forall s, s ∈ s0 :: take m rest -> sd_sector d' s = if decide (s = s0) then fh_bytes h' else sd_sector d2 s).
  { intros s Hs. destruct (Hnv s Hs) as (? & _ & ?). apply Hs'; [done|]. by apply not_sys. }
  assert (Hh : file_hdr d' s0 = h').
  { unfold file_hdr. rewrite Hnew, decide_True by (left || done). by apply fh_roundtrip. }
  assert (Hkeep : forall x, valid_sector x -> x ∈ all_sectors fs d t -> x ∉ data_sectors fs ->
    sd_sector d' x = sd_sector d x).
  { intros x Hv Hx Hxd. assert (Hxn : x ∉ s0 :: take m rest) by (intros Hn; by destruct (Hnv x Hn) as (_ & ? & _)).
    apply not_elem_of_cons in Hxn as [Hx0 Hxm]. rewrite Hs', decide_False by done.
    apply Hag; [done|]. intros Hi. by apply Hxm, Hidx. }
  split_and!; [done| | |].
  - unfold file_owned. rewrite Hh, <-How. f_equal. apply owned_ext. intros s Hs%Hidx.
    rewrite Hnew by (by right). rewrite decide_False; [done|].
    intros ->. by apply NoDup_cons in Hnd as [? _].
  - intros x Hx. pose proof (all_sectors_user fs d t x Hx) as Hxa. apply Hkeep; [|done|].
    + exact (proj1 (Forall_forall _ _) (inv_valid _ _ _ _ Hinv) x Hxa).
    + apply not_sys. intros Hsy. destruct (inv_disjoint _ _ _ _ Hinv) as (_ & _ & Hdis). by apply (Hdis x).
  - intros x Hx. apply Hkeep; [by apply boot_valid| |by apply (sys_boot fs d bm t)].
    unfold all_sectors, sys_sectors. rewrite !elem_of_app. by left; left.
Qed.

(** The sectors of one file. *)
Lemma file_owned_user (d : D) ss s x : s ∈ ss -> x ∈ file_owned d s -> x ∈ user_sectors d ss.
Proof. intros Hs Hx. unfold user_sectors. rewrite list_elem_of_bind. by exists s. Qed.

(** The last steps of [Create], from the allocated header on. *)
Lemma create_commit e fs (d d2 : D) bm t s0 rest m h' bm2 t' k :
  env_ok e -> fs_inv fs d bm t -> bm_free bm = s0 :: rest ->
  dir_map t !! k = None -> dir_map t' = <[k := s0]> (dir_map t) -> dir_wf t' -> length t' = NumDirEntries ->
  fh_wf h' -> fh_sized h' -> sd_valid d2 -> owned_sectors h' d2 = take m rest ->
  freemap_ok bm2 -> bm_free bm2 = drop m rest ->
  (forall s, valid_sector s -> s ∉ index_sectors h' -> sd_sector d2 s = sd_sector d s) ->
  exists d3 d4 d5, FileHeader_WriteBack h' d2 s0 = Ok d3
    /\ Directory_WriteBack (ce_buf e) t' (fs_directoryFile fs) d3 = Ok d4
    /\ BitMap_WriteBack (ce_buf2 e) bm2 (fs_freeMapFile fs) d4 = Ok d5
    /\ fs_inv fs d5 bm2 t' /\ file_hdr d5 s0 = h'
    /\ forall x, x ∈ user_sectors d (dir_alist t).*2 -> sd_sector d5 x = sd_sector d x.
Proof.
  intros He Hinv Hfree Hk Ht' Hwf' Hlen' Hhwf Hhs Hd2 How Hbm2 Hf2 Hag.
  destruct (new_sectors fs d bm t s0 rest m Hinv Hfree) as [Hnd Hnv].
  destruct (Hnv s0) as [Hs0v _]; [left|].
  destruct (sd_write_ok d2 s0 (fh_bytes h') Hd2 Hs0v (fh_bytes_sector h' Hhwf))
    as (d3 & HW3 & Hd3 & Hs3).
  destruct He as (_ & _ & _ & _ & _ & _ & _ & Hb1 & Hb2).
  destruct (write_both fs d d3 bm t bm2 t' _ _ true Hinv Hd3 Hb1 Hb2 Hbm2 Hwf' Hlen')
    as (d4 & d5 & [HW4 HW5] & Hd5 & Hsm & Hsd & Hs5).
  exists d3, d4, d5. split; [done|]. split; [done|]. split; [done|].
  destruct (created_file fs d d2 d5 bm t s0 rest m h') as (Hh5 & Hown5 & Hold & Hboot); try done.
  { intros s Hv Hs. by rewrite Hs5, Hs3. }
  assert (Hperm : all_sectors fs d5 t' ≡ₚ (s0 :: take m rest) ++ all_sectors fs d t).
  { unfold all_sectors, user_sectors.
    rewrite (dir_alist_insert t t' k s0) by (done || apply Hinv). rewrite fmap_cons, bind_cons.
    cbn [snd]. rewrite Hown5. fold (user_sectors d5 (dir_alist t).*2) (user_sectors d (dir_alist t).*2).
    rewrite (user_sectors_ext d d5) by done. rewrite !(assoc_L (++)).
    apply Permutation_app_tail, Permutation_app_comm. }
  split_and!; [|done|done]. apply (inv_rewritten fs d d5 bm t); try done.
  - rewrite Hperm. apply NoDup_app. split_and!; [done| |apply Hinv]. intros s Hs. by apply Hnv.
  - rewrite Hperm. apply Forall_app. split; [|apply Hinv]. apply Forall_forall. intros s Hs. by apply Hnv.
  - intros s. rewrite Hperm, Hf2. change (drop m rest) with (drop (S m) (s0 :: rest)).
    change (s0 :: take m rest) with (take (S m) (s0 :: rest)).
    rewrite <-Hfree, drop_free, (inv_free _ _ _ _ Hinv s), not_elem_of_app. tauto.
  - intros s. rewrite (dir_alist_insert t t' k s0) by (done || apply Hinv). rewrite fmap_cons, elem_of_cons.
    cbn [snd]. intros [->|Hs]; [by rewrite Hh5|].
    destruct (file_owned_ext d d5 s) as [_ ->]; [|by apply (inv_hdrs _ _ _ _ Hinv)].
    intros x Hx. apply Hold. by apply (file_owned_user d _ s).
Qed.

Lemma created_header_wf e size n ds :
  env_ok e -> 0 <= size <= MaxFileSize -> n = divRoundUp size SectorSize ->
  length ds = 15%nat -> (Forall in_i32 (fh_dataSectors (ce_hdr e)) -> Forall in_i32 ds) ->
  let h := fh_with (ce_hdr e) size n (getFormatDate (ce_time e) (fh_createTime (ce_hdr e))) ds in
  fh_wf h /\ fh_sized h.
Proof.
  intros (Htime & _ & _ & _ & _ & Hhw & _) Hs Hn Hl Hi h.
  destruct Hhw as (_ & _ & Hcl & Hcb & Hul & Hub & Hal & Hab & _ & Hd).
  destruct (getFormatDate_wf _ _ Hcl Hcb Htime). pose proof (numSectors_bounds size Hs) as [Hb _].
  rewrite <-Hn in Hb. change MaxFileSize with 5888 in *.
  split; [|by split]. unfold fh_wf, h, fh_with. simpl. split_and!; try done; auto; unfold in_i32; lia.
Qed.

Lemma entry_in_use fs (d : D) bm t k s :
  fs_inv fs d bm t -> dir_map t !! k = Some s -> s ∈ (dir_alist t).*2 /\ valid_sector s.
Proof.
  intros Hinv Hlk. assert (Hin : s ∈ (dir_alist t).*2).
  { apply list_elem_of_fmap. exists (k, s). split; [done|]. by apply elem_of_list_to_map_2 in Hlk. }
  split; [done|]. apply (proj1 (Forall_forall _ _) (inv_valid _ _ _ _ Hinv)), all_sectors_user.
  unfold user_sectors. rewrite list_elem_of_bind. exists s. split; [left|done].
Qed.

Lemma user_sector_valid fs (d : D) bm t x :
  fs_inv fs d bm t -> x ∈ user_sectors d (dir_alist t).*2 -> valid_sector x.
Proof.
  intros Hinv Hx. by apply (proj1 (Forall_forall _ _) (inv_valid _ _ _ _ Hinv)), all_sectors_user.
Qed.

Lemma file_owned_ok fs (d : D) bm t s :
  fs_inv fs d bm t -> s ∈ (dir_alist t).*2 ->
  NoDup (file_owned d s) /\ forall x, x ∈ file_owned d s -> valid_sector x.
Proof.
  intros Hinv Hin. split.
  - destruct (inv_disjoint _ _ _ _ Hinv) as (_ & Hnd & _). unfold user_sectors in Hnd.
    apply list_elem_of_split in Hin as (l1 & l2 & Heq). rewrite Heq, bind_app, bind_cons in Hnd.
    apply NoDup_app in Hnd as (_ & _ & Hnd). by apply NoDup_app in Hnd as (? & _).
  - intros x Hx. apply (user_sector_valid fs d bm t); [done|]. by apply (file_owned_user d _ s).
Qed.

(** [Create] from [Allocate] on. *)
Lemma create_tail e fs (d : D) bm bm1 t t' s0 rest k fsize :
  let n := divRoundUp fsize SectorSize in
  env_ok e -> fs_inv fs d bm t -> 0 <= fsize <= MaxFileSize ->
  bm_free bm = s0 :: rest -> freemap_ok bm1 -> bm_free bm1 = rest ->
  dir_map t !! k = None -> dir_map t' = <[k := s0]> (dir_map t) -> dir_wf t' -> length t' = NumDirEntries ->
  Z.of_nat (length rest) < n \/ sectors_needed n <= Z.of_nat (length rest) ->
  exists b d',
    ('(ok, hdr, freeMap, d) ← FileHeader_Allocate (ce_time e) (ce_hdr e) bm1 d fsize;
     if negb ok then Ok (false, d)
     else
       d ← FileHeader_WriteBack hdr d s0;
       d ← Directory_WriteBack (ce_buf e) t' (fs_directoryFile fs) d;
       d ← BitMap_WriteBack (ce_buf2 e) freeMap (fs_freeMapFile fs) d;
       Ok (true, d)) = Ok (b, d')
    /\ (b = true <-> sectors_needed n <= Z.of_nat (length rest))
    /\ (b = false -> d' = d)
    /\ (b = true -> exists bm', fs_inv fs d' bm' t' /\ fh_numBytes (file_hdr d' s0) = fsize
          /\ forall x, x ∈ user_sectors d (dir_alist t).*2 -> sd_sector d' x = sd_sector d x).
Proof.
  intros n He Hinv Hsize Hfree Hbm1 Hf1 Hk Hmap Hwf' Hlen' Hroom.
  destruct (numSectors_bounds fsize Hsize) as [Hn _]. fold n in Hn.
  assert (Hsn : n <= sectors_needed n) by (unfold sectors_needed; destruct (14 <? n); lia).
  destruct (Z.le_gt_cases (sectors_needed n) (Z.of_nat (length rest))) as [Hfit|Hfit].
  2: { destruct Hroom as [Hroom|?]; [|lia]. unfold FileHeader_Allocate. fold n.
    rewrite freemap_NumClear, Hf1 by done. cbn [mbind result_bind].
    destruct (Z.ltb_spec (Z.of_nat (length rest)) n); [|lia]. cbn [negb mbind result_bind].
    exists false, d. split; [done|]. split; [split; [done|lia]|done]. }
  destruct (Allocate_owned (ce_time e) (ce_hdr e) bm1 d fsize) as
    (ds & bm2 & d3 & HA & Hdsl & Hdsi & How & Ht & Hd3 & Hag);
    [done|apply (inv_mapfile _ _ _ _ Hinv)| |done|by rewrite Hf1|].
  { destruct He as (_ & _ & _ & _ & _ & (_ & _ & _ & _ & _ & _ & _ & _ & ? & _) & _). done. }
  fold n in HA, How, Ht, Hag. rewrite Hf1 in How.
  rewrite HA. cbn [mbind result_bind negb]. set (h' := fh_with _ _ _ _ ds) in *.
  destruct (created_header_wf e fsize n ds He Hsize eq_refl Hdsl Hdsi) as [Hhwf Hhs].
  destruct (create_commit e fs d d3 bm t s0 rest (Z.to_nat (sectors_needed n)) h' bm2 t' k)
    as (d4 & d5 & d6 & HW & HD & HB & Hinv6 & Hh6 & Hold); try done;
    [exact (taken_freemap _ _ _ Hbm1 Ht)|destruct Ht as (_ & _ & ->); by rewrite Hf1|].
  rewrite HW. cbn [mbind result_bind]. rewrite HD. cbn [mbind result_bind]. rewrite HB.
  exists true, d6. split; [done|]. split; [done|]. split; [done|].
  intros _. exists bm2. by rewrite Hh6.
Qed.

Lemma Create_ok (e : call_env) (fs : FileSystem) (d : D) bm t (name : list Z) (fsize : Z) :
  let n := divRoundUp fsize SectorSize in
  let nfree := Z.of_nat (length (bm_free bm)) in
  env_ok e -> fs_inv fs d bm t -> is_name name -> 0 <= fsize <= MaxFileSize ->
  nfree - 1 < n \/ sectors_needed n <= nfree - 1 ->
  exists b d', FileSystem_Create e fs d name fsize = Ok (b, d')
    /\ (b = true <-> dir_map t !! key name = None /\ (size (dir_map t) < NumDirEntries)%nat
                     /\ sectors_needed n <= nfree - 1)
    /\ (b = false -> same_sectors d d' /\ fs_inv fs d' bm t)
    /\ (b = true -> exists s bm' t', fs_inv fs d' bm' t'
          /\ dir_map t' = <[key name := s]> (dir_map t)
          /\ fh_numBytes (file_hdr d' s) = fsize
          /\ forall x, x ∈ user_sectors d (dir_alist t).*2 -> sd_sector d' x = sd_sector d x).
Proof.
  intros n nfree He Hinv Hname Hsize Hroom. unfold FileSystem_Create.
  destruct (fetch_dir e fs d bm t He Hinv) as (d1 & -> & Hs1 & Hinv1). cbn [mbind result_bind].
  pose proof (inv_wf _ _ _ _ Hinv) as Hwf.
  destruct (Find_lookup t name Hwf Hname) as [-> Hidx]. cbn [mbind result_bind].
  destruct (dir_map t !! key name) as [s|] eqn:Hlk; cbn [default from_option id].
  { destruct (entry_in_use _ _ _ _ _ _ Hinv Hlk) as [_ [? _]].
    destruct (Z.eqb_spec s (-1)); [lia|]. exists false, d1.
    split; [done|]. split; [|done]. split; [done|]. by intros (? & _). }
  destruct (fetch_map e fs d1 bm t He Hinv1) as (bm0 & d2 & -> & HF & Hs2 & Hinv2).
  cbn [mbind result_bind]. rewrite HF. cbn [mbind result_bind]. clear HF bm0.
  assert (Hs02 : same_sectors d d2) by by transitivity d1.
  pose proof (inv_bm _ _ _ _ Hinv) as Hbm. pose proof (BitMap_Find_free bm (proj1 Hbm)) as HFind.
  unfold nfree in *. destruct (bm_free bm) as [|s0 rest] eqn:Hfree.
  { rewrite HFind. exists false, d2. split; [done|]. split; [|done]. split; [done|].
    intros (_ & _ & Hc). destruct (numSectors_bounds fsize Hsize) as [Hn _]. fold n in Hn.
    unfold sectors_needed in Hc. destruct (14 <? n); cbn [length] in Hc; lia. }
  destruct HFind as (bm1 & -> & Hwf1 & Hn1 & Hf1 & _). cbn [mbind result_bind].
  assert (Hs0 : valid_sector s0) by (apply (freemap_valid bm); [done|rewrite Hfree; left]).
  destruct (Z.eqb_spec s0 (-1)); [destruct Hs0; lia|].
  assert (Hs0i : in_i32 s0).
  { unfold valid_sector, in_i32 in *. change NumSectors with 1024 in Hs0. lia. }
  destruct (Add_refines t name s0 Hwf Hname Hs0i) as (b & t' & -> & Hwf' & Hlen' & Hadd).
  cbn [dmap_exec] in Hadd. rewrite (inv_len _ _ _ _ Hinv) in Hadd, Hlen'.
  case_decide as Hdec; injection Hadd as <- Hmap; cbn [negb].
  2: { exists false, d2. split; [done|]. split; [|done]. split; [done|]. tauto. }
  assert (Hbm1 : freemap_ok bm1) by (split; [done|destruct Hbm; congruence]).
  replace (Z.of_nat (length (s0 :: rest)) - 1) with (Z.of_nat (length rest)) in * by (cbn [length]; lia).
  destruct (create_tail e fs d2 bm bm1 t t' s0 rest (key name) fsize)
    as (b & d3 & -> & Hb & Hfail & Hok); try done.
  exists b, d3. split; [done|]. split; [destruct Hdec; tauto|]. split; [intros Hf; rewrite (Hfail Hf); done|].
  intros (bm' & Hinv3 & Hsz & Hold)%Hok. exists s0, bm', t'. split_and!; try done.
  assert (Hu2 : user_sectors d2 (dir_alist t).*2 = user_sectors d (dir_alist t).*2).
  { apply user_sectors_ext. intros x Hx. apply Hs02. by apply (user_sector_valid fs d bm t). }
  intros x Hx. rewrite Hold by (by rewrite Hu2). apply Hs02. by apply (user_sector_valid fs d bm t).
Qed.

(** [FileSystem::Create] on a consistent disk, for a size the format can represent
    and outside the one case where only the index sector is missing.  It succeeds exactly
    when the name is new, the directory has a free entry and the bitmap has room for the
    header and the data.  When it fails no sector has changed and the disk is
    still consistent.  When it succeeds the disk
    is consistent again, the name leads to a header of the requested size, and every
    sector of every other file is as before. *)
Theorem Create_spec (e : call_env) (fs : FileSystem) (d : D) bm t (name : list Z) (fsize : Z) :
  let n := divRoundUp fsize SectorSize in
  let nfree := Z.of_nat (length (bm_free bm)) in
  env_ok e -> fs_inv fs d bm t -> is_name name -> 0 <= fsize <= MaxFileSize ->
  nfree - 1 < n \/ sectors_needed n <= nfree - 1 ->
  exists b d', FileSystem_Create e fs d name fsize = Ok (b, d')
    /\ (b = true <-> dir_map t !! key name = None /\ (size (dir_map t) < NumDirEntries)%nat
                     /\ sectors_needed n <= nfree - 1)
    /\ (b = false -> same_sectors d d' /\ fs_inv fs d' bm t)
    /\ (b = true -> exists s bm' t', fs_inv fs d' bm' t'
          /\ dir_map t' = <[key name := s]> (dir_map t)
          /\ fh_numBytes (file_hdr d' s) = fsize
          /\ forall x, x ∈ user_sectors d (dir_alist t).*2 -> sd_sector d' x = sd_sector d x).
Proof. apply Create_ok. Qed.
End Create.

(** ** Removing a file *)

Section Remove.
Context {D : Type} `{SectorDevice D}.

(** The sectors in use before and after the entry [(k, s)] is gone. *)
Lemma all_sectors_without fs (d : D) bm t t' k s :
  fs_inv fs d bm t -> dir_wf t' -> dir_map t !! k = Some s -> dir_map t' = delete k (dir_map t) ->
  all_sectors fs d t ≡ₚ file_owned d s ++ all_sectors fs d t'.
Proof.
  intros Hinv Hwf' Hk Hm. unfold all_sectors, user_sectors.
  rewrite (dir_alist_delete t t' k s) by (done || apply Hinv). rewrite fmap_cons, bind_cons.
  cbn [snd]. rewrite !(assoc_L (++)). apply Permutation_app_tail, Permutation_app_comm.
Qed.

(** Deallocating the data and clearing the header's bit frees exactly the file's sectors. *)
Lemma remove_frees fs (d : D) bm t k s :
  fs_inv fs d bm t -> dir_map t !! k = Some s -> index_readable (file_hdr d s) d ->
  exists bm1 bm2 d1, FileHeader_Deallocate (file_hdr d s) bm d = Ok (bm1, d1)
    /\ BitMap_Clear bm1 s = Ok bm2 /\ sd_valid d1 /\ same_sectors d d1 /\ freemap_ok bm2
    /\ forall x, x ∈ bm_free bm2 <-> x ∈ bm_free bm \/ x ∈ file_owned d s.
Proof.
  intros Hinv Hk Hread. destruct (entry_in_use _ _ _ _ _ _ Hinv Hk) as [Hin Hsv].
  destruct (inv_hdrs _ _ _ _ Hinv s Hin) as [Hwf [Hnb Hns]].
  destruct (numSectors_bounds _ Hnb) as [Hn _]. rewrite <-Hns in Hn.
  destruct (file_owned_ok fs d bm t s Hinv Hin) as [Hndf Hval].
  assert (Hfo : forall x, x ∈ file_owned d s -> valid_sector x /\ x ∉ bm_free bm).
  { intros x Hx. split; [auto|]. rewrite (inv_free _ _ _ _ Hinv). intros [_ Hni].
    by apply Hni, all_sectors_user, (file_owned_user d _ s). }
  apply NoDup_cons in Hndf as [Hs0 Hnd].
  destruct (Deallocate_frees (file_hdr d s) d bm) as (bm1 & d1 & HD & Hsame & Hd1 & [Hw1 Hn1] & Hf1);
    [done|apply Hwf|apply (inv_mapfile _ _ _ _ Hinv)|apply Hinv|done|done|
     intros x Hx; apply Hfo; by right|].
  destruct (BitMap_Clear_spec bm1 s Hw1) as (bm2 & HC & Hw2 & Hn2 & Hb2); [by rewrite Hn1|].
  exists bm1, bm2, d1. split_and!; [done|done|done|done|split; [done|congruence]|].
  intros x. rewrite (bm_free_update bm1 bm2 s false Hn2 Hb2 x). unfold file_owned. rewrite elem_of_cons.
  case_decide as Hx.
  - subst x. rewrite Hn1. unfold valid_sector in Hsv. intuition.
  - rewrite Hf1. intuition.
Qed.

(** Devices with the same sectors hold the same files. *)
Lemma same_files fs (d d' : D) bm t s :
  fs_inv fs d bm t -> same_sectors d d' -> s ∈ (dir_alist t).*2 ->
  file_owned d' s = file_owned d s /\ file_hdr d' s = file_hdr d s
  /\ (index_readable (file_hdr d s) d -> index_readable (file_hdr d' s) d').
Proof.
  intros Hinv Hs Hin.
  destruct (file_owned_ok fs d bm t s Hinv Hin) as [_ Hv].
  destruct (file_owned_ext d d' s) as [Ho Hh]; [auto|]. split_and!; [done|done|].
  rewrite Hh. unfold index_readable.
  replace (file_sectors (file_hdr d s) d') with (file_sectors (file_hdr d s) d); [done|].
  unfold file_sectors. destruct (needs_index _) eqn:Hni; [|done]. rewrite Hs; [done|].
  apply Hv. right. by apply owned_index.
Qed.

(** The last steps of [Remove], from [Deallocate] on. *)
Lemma remove_commit e fs (d : D) bm t t' k s :
  env_ok e -> fs_inv fs d bm t -> dir_map t !! k = Some s -> index_readable (file_hdr d s) d ->
  dir_wf t' -> length t' = NumDirEntries -> dir_map t' = delete k (dir_map t) ->
  exists bm1 bm2 d1 d2 d3, FileHeader_Deallocate (file_hdr d s) bm d = Ok (bm1, d1)
    /\ BitMap_Clear bm1 s = Ok bm2
    /\ BitMap_WriteBack (ce_buf e) bm2 (fs_freeMapFile fs) d1 = Ok d2
    /\ Directory_WriteBack (ce_buf2 e) t' (fs_directoryFile fs) d2 = Ok d3
    /\ fs_inv fs d3 bm2 t'
    /\ (forall x, x ∈ bm_free bm2 <-> x ∈ bm_free bm \/ x ∈ file_owned d s)
    /\ forall x, x ∈ user_sectors d (dir_alist t').*2 -> sd_sector d3 x = sd_sector d x.
Proof.
  intros He Hinv Hk Hread Hwf' Hlen' Hmap.
  destruct (remove_frees fs d bm t k s Hinv Hk Hread) as (bm1 & bm2 & d1 & HD & HC & Hd1 & Hs1 & Hbm2 & Hf2).
  destruct He as (_ & _ & _ & _ & _ & _ & _ & Hb1 & Hb2).
  destruct (write_both fs d d1 bm t bm2 t' _ _ false Hinv Hd1 Hb1 Hb2 Hbm2 Hwf' Hlen')
    as (d2 & d3 & [HW2 HW3] & Hd3 & Hsm & Hsd & Hs3).
  exists bm1, bm2, d1, d2, d3. split; [done|]. split; [done|]. split; [done|]. split; [done|].
  pose proof (all_sectors_without fs d bm t t' k s Hinv Hwf' Hk Hmap) as Hperm.
  pose proof (inv_nodup _ _ _ _ Hinv) as Hnd. rewrite Hperm in Hnd.
  apply NoDup_app in Hnd as (_ & Hdis & Hnd).
  pose proof (inv_valid _ _ _ _ Hinv) as Hv. rewrite Hperm in Hv. apply Forall_app in Hv as [Hvo Hv].
  assert (Hold : forall x, x ∈ user_sectors d (dir_alist t').*2 -> sd_sector d3 x = sd_sector d x).
  { intros x Hx. pose proof (all_sectors_user fs d t' x Hx) as Hxa.
    assert (Hxv : valid_sector x) by by apply (proj1 (Forall_forall _ _) Hv).
    unfold all_sectors in Hnd. apply NoDup_app in Hnd as (_ & Hsy & _).
    rewrite Hs3 by (try done; apply not_sys; intros Hs; by apply (Hsy x)). by apply Hs1. }
  assert (Hall : all_sectors fs d3 t' = all_sectors fs d t')
    by (unfold all_sectors; f_equal; by apply user_sectors_ext).
  split_and!; [|done|done]. apply (inv_rewritten fs d d3 bm t); rewrite ?Hall; try done.
  - intros x Hx. rewrite Hs3; [by apply Hs1, boot_valid|by apply boot_valid|by apply (sys_boot fs d bm t)].
  - intros x. rewrite Hf2, (inv_free _ _ _ _ Hinv x), Hperm, not_elem_of_app.
    rewrite Forall_forall in Hvo. specialize (Hvo x). specialize (Hdis x).
    destruct (decide (x ∈ file_owned d s)); tauto.
  - intros x Hx. assert (Hxt : x ∈ (dir_alist t).*2).
    { rewrite (dir_alist_delete t t' k s) by (done || apply Hinv). rewrite fmap_cons. by right. }
    destruct (file_owned_ext d d3 x) as [_ ->]; [|by apply (inv_hdrs _ _ _ _ Hinv)].
    intros y Hy. apply Hold. by apply (file_owned_user d _ x).
Qed.

Lemma Remove_ok (e : call_env) (fs : FileSystem) (d : D) bm t (name : list Z) :
  env_ok e -> fs_inv fs d bm t -> is_name name ->
  match dir_map t !! key name with
  | None => exists d', FileSystem_Remove e fs d name = Ok (false, d') /\ same_sectors d d'
      /\ fs_inv fs d' bm t
  | Some s => index_readable (file_hdr d s) d ->
      exists d' bm' t', FileSystem_Remove e fs d name = Ok (true, d') /\ fs_inv fs d' bm' t'
        /\ dir_map t' = delete (key name) (dir_map t)
        /\ (forall x, x ∈ bm_free bm' <-> x ∈ bm_free bm \/ x ∈ file_owned d s)
        /\ forall x, x ∈ user_sectors d (dir_alist t').*2 -> sd_sector d' x = sd_sector d x
  end.
Proof.
  intros He Hinv Hname. unfold FileSystem_Remove.
  destruct (fetch_dir e fs d bm t He Hinv) as (d1 & HFD & Hs1 & Hinv1).
  pose proof (inv_wf _ _ _ _ Hinv) as Hwf.
  destruct (Find_lookup t name Hwf Hname) as [HFi _].
  destruct (dir_map t !! key name) as [s|] eqn:Hlk; cbn [default from_option id] in HFi;
    [intros Hread|]; rewrite HFD; cbn [mbind result_bind]; rewrite HFi; cbn [mbind result_bind];
    [|by exists d1].
  destruct (entry_in_use _ _ _ _ _ _ Hinv Hlk) as [Hin Hsv].
  destruct (Z.eqb_spec s (-1)); [destruct Hsv; lia|]. unfold FileHeader_FetchFrom.
  destruct (sd_read_ok d1 s) as (d2 & -> & Hd2 & Hs2); [apply Hinv1|done|]. cbn [mbind result_bind].
  fold (file_hdr d1 s). pose proof (inv_same _ _ _ _ _ Hinv1 Hd2 Hs2) as Hinv2.
  destruct (fetch_map e fs d2 bm t He Hinv2) as (bm0 & d3 & -> & HF & Hs3 & Hinv3).
  cbn [mbind result_bind]. rewrite HF. cbn [mbind result_bind]. clear HF bm0.
  assert (Hs03 : same_sectors d d3) by (transitivity d1; [done|]; by transitivity d2).
  destruct (same_files fs d d3 bm t s Hinv Hs03 Hin) as (Hos & Hhs & Hri).
  destruct (same_files fs d d1 bm t s Hinv Hs1 Hin) as (_ & Hh1 & _).
  destruct (Remove_refines t name Hwf Hname) as (b & t' & HR & Hwf' & Hlen' & Hrem).
  cbn [dmap_exec] in Hrem. rewrite Hlk, decide_False in Hrem by done. injection Hrem as <- Hmap.
  rewrite (inv_len _ _ _ _ Hinv) in Hlen'.
  destruct (remove_commit e fs d3 bm t t' (key name) s)
    as (bm1 & bm2 & d4 & d5 & d6 & HD & HC & HW1 & HW2 & Hinv6 & Hf & Hold); auto.
  rewrite Hh1, <-Hhs, HD. cbn [mbind result_bind]. rewrite HC. cbn [mbind result_bind].
  rewrite HR. cbn [mbind result_bind]. rewrite HW1. cbn [mbind result_bind]. rewrite HW2.
  exists d6, bm2, t'. rewrite Hos in Hf. split_and!; try done.
  assert (Hv : forall x, x ∈ user_sectors d (dir_alist t').*2 -> valid_sector x).
  { intros x Hx. apply (user_sector_valid fs d bm t); [done|]. unfold user_sectors in *.
    rewrite (dir_alist_delete t t' (key name) s), fmap_cons, bind_cons by done.
    rewrite elem_of_app. by right. }
  intros x Hx. rewrite Hold; [by apply Hs03; auto|]. by rewrite (user_sectors_ext d d3) by auto.
Qed.

(** [FileSystem::Remove] on a consistent disk.  An unknown name gives [FALSE] and
    changes no sector.  For a known file (whose index, if any, names sectors below 128) it
    succeeds, the disk is consistent again, the name is gone from the directory, exactly
    the file's sectors and its header have become free, and no sector of another file has
    changed. *)
Theorem Remove_spec (e : call_env) (fs : FileSystem) (d : D) bm t (name : list Z) :
  env_ok e -> fs_inv fs d bm t -> is_name name ->
  match dir_map t !! key name with
  | None => exists d', FileSystem_Remove e fs d name = Ok (false, d') /\ same_sectors d d'
      /\ fs_inv fs d' bm t
  | Some s => index_readable (file_hdr d s) d ->
      exists d' bm' t', FileSystem_Remove e fs d name = Ok (true, d') /\ fs_inv fs d' bm' t'
        /\ dir_map t' = delete (key name) (dir_map t)
        /\ (forall x, x ∈ bm_free bm' <-> x ∈ bm_free bm \/ x ∈ file_owned d s)
        /\ forall x, x ∈ user_sectors d (dir_alist t').*2 -> sd_sector d' x = sd_sector d x
  end.
Proof. apply Remove_ok. Qed.
End Remove.

(** ** Opening files, formatting, restarting *)

Section Open.
Context {D : Type} `{SectorDevice D}.

Lemma OpenFile_new_ok (d : D) s :
  sd_valid d -> valid_sector s ->
  exists d', OpenFile_new d s = Ok (mkOpenFile (file_hdr d s) 0 s, d') /\ sd_valid d' /\ same_sectors d d'.
Proof.
  intros Hd Hs. unfold OpenFile_new, FileHeader_FetchFrom.
  destruct (sd_read_ok d s Hd Hs) as (d' & -> & Hd' & Hsame). by exists d'.
Qed.

Lemma small_file_direct h (d : D) :
  fh_sized h -> fh_wf h -> fh_numSectors h <= 14 -> Forall valid_sector (owned_sectors h d) ->
  NoDup (owned_sectors h d) -> direct_file h /\ owned_sectors h d = direct_sectors h.
Proof.
  intros [Hb Hn] Hwf Hsm Hv Hnd. destruct (numSectors_bounds _ Hb) as [Hr _]. rewrite <-Hn in Hr.
  destruct (owned_small h d) as (Ho & _); [lia|]. fold (direct_sectors h) in Ho.
  rewrite Ho in *. split; [|done]. unfold direct_file. destruct Hb. split_and!; try done. apply Hwf.
Qed.

Lemma Open_ok (e : call_env) (fs : FileSystem) (d : D) bm t (name : list Z) :
  env_ok e -> fs_inv fs d bm t -> is_name name ->
  exists d', FileSystem_Open e fs d name
      = Ok ((fun s => mkOpenFile (file_hdr d s) 0 s) <$> dir_map t !! key name, d')
    /\ same_sectors d d' /\ fs_inv fs d' bm t
    /\ forall s, dir_map t !! key name = Some s -> fh_numSectors (file_hdr d s) <= 14 ->
         file_ok (mkOpenFile (file_hdr d s) 0 s) d'.
Proof.
  intros He Hinv Hname. unfold FileSystem_Open.
  destruct (fetch_dir e fs d bm t He Hinv) as (d1 & -> & Hs1 & Hinv1). cbn [mbind result_bind].
  destruct (Find_lookup t name (inv_wf _ _ _ _ Hinv) Hname) as [-> _]. cbn [mbind result_bind].
  destruct (dir_map t !! key name) as [s|] eqn:Hlk; cbn [default from_option id fmap option_fmap option_map].
  2: { exists d1. by split_and!. }
  destruct (entry_in_use _ _ _ _ _ _ Hinv Hlk) as [Hin Hsv].
  destruct (Z.leb_spec 0 s); [|destruct Hsv; lia].
  destruct (OpenFile_new_ok d1 s) as (d2 & -> & Hd2 & Hs2); [apply Hinv1|done|].
  cbn [mbind result_bind]. exists d2.
  destruct (same_files fs d d1 bm t s Hinv Hs1 Hin) as (_ & -> & _).
  split; [done|]. split; [by transitivity d1|]. split; [by apply (inv_same fs d1 d2)|].
  intros s' [= <-] Hsm. destruct (inv_hdrs _ _ _ _ Hinv s Hin) as [Hwf Hsz].
  destruct (file_owned_ok fs d bm t s Hinv Hin) as [Hnd Hval].
  apply NoDup_cons in Hnd as [Hs0 Hnd].
  destruct (small_file_direct (file_hdr d s) d) as [Hdf Ho]; try done.
  { apply Forall_forall. intros x Hx. apply Hval. by right. }
  unfold file_ok. cbn [of_hdr of_hdrSector of_seekPosition]. rewrite <-Ho. by split_and!.
Qed.

(** [FileSystem::Open] returns an open file positioned at the start of the file the
    directory names, and [NULL] for a name that is not there; it changes no sector.  A
    file of at most 14 sectors comes with the invariant under which reads and writes are
    those of a byte array. *)
Theorem Open_spec (e : call_env) (fs : FileSystem) (d : D) bm t (name : list Z) :
  env_ok e -> fs_inv fs d bm t -> is_name name ->
  exists d', FileSystem_Open e fs d name
      = Ok ((fun s => mkOpenFile (file_hdr d s) 0 s) <$> dir_map t !! key name, d')
    /\ same_sectors d d' /\ fs_inv fs d' bm t
    /\ forall s, dir_map t !! key name = Some s -> fh_numSectors (file_hdr d s) <= 14 ->
         file_ok (mkOpenFile (file_hdr d s) 0 s) d'.
Proof. apply Open_ok. Qed.

(** The file system after a restart: the same files, opened anew. *)
Definition fs_reopen (fs : FileSystem) : FileSystem :=
  mkFileSystem (OpenFile_Seek (fs_freeMapFile fs) 0) (OpenFile_Seek (fs_directoryFile fs) 0).

Lemma file_ok_seek f (d : D) : file_ok f d -> file_ok (OpenFile_Seek f 0) d.
Proof. intros (? & ? & ? & ? & ? & _). by unfold file_ok. Qed.

(** The disk holds the whole state: restarting Nachos without formatting
    ([FileSystem(FALSE)]) on a consistent disk gives a consistent file system with the same
    directory and the same free sectors. *)
Lemma remount_ok (e : call_env) (fs : FileSystem) (d : D) bm t :
  fs_inv fs d bm t ->
  exists d', FileSystem_new e d false = Ok (fs_reopen fs, d') /\ same_sectors d d'
    /\ fs_inv (fs_reopen fs) d' bm t.
Proof.
  intros Hinv. unfold FileSystem_new.
  destruct (OpenFile_new_ok d FreeMapSector) as (d1 & -> & Hd1 & Hs1); [apply Hinv|done|].
  cbn [mbind result_bind].
  destruct (OpenFile_new_ok d1 DirectorySector) as (d2 & -> & Hd2 & Hs2); [done|done|].
  cbn [mbind result_bind]. destruct (inv_boot _ _ _ _ Hinv) as (Hb1 & Hb2 & Hb3 & Hb4).
  assert (Hs : same_sectors d d2) by by transitivity d1. exists d2. split_and!; [|done|].
  - unfold fs_reopen, OpenFile_Seek. rewrite Hb3, Hb4, Hb1, Hb2.
    do 3 f_equal. f_equal. unfold file_hdr. by rewrite (Hs1 DirectorySector).
  - assert (Hinv2 : fs_inv fs d2 bm t) by by apply (inv_same fs d d2).
    destruct Hinv2. constructor; try done; by apply file_ok_seek.
Qed.

Lemma free_after_boot bm0 bm1 bm2 :
  bm_free bm0 = seqZ 0 NumSectors ->
  bm_free bm1 = filter (fun j => j <> FreeMapSector) (bm_free bm0) ->
  bm_free bm2 = filter (fun j => j <> DirectorySector) (bm_free bm1) ->
  bm_free bm2 = seqZ 2 1022.
Proof. intros -> -> ->. vm_compute. reflexivity. Qed.

(** The bitmap [FileSystem(TRUE)] starts from: sectors 0 and 1 taken. *)
Lemma format_map e : env_ok e ->
  exists bm0 bm1 bm2, BitMap_new (ce_words e) NumSectors = Ok bm0
    /\ BitMap_Mark bm0 FreeMapSector = Ok bm1 /\ BitMap_Mark bm1 DirectorySector = Ok bm2
    /\ freemap_ok bm2 /\ bm_free bm2 = seqZ 2 1022.
Proof.
  intros He. destruct (env_new_map e He) as (bm0 & HN & [Hw0 Hn0] & Hf0).
  destruct (BitMap_Mark_spec bm0 FreeMapSector Hw0) as (bm1 & HM1 & Hw1 & Hn1 & Hb1); [by rewrite Hn0|].
  destruct (BitMap_Mark_spec bm1 DirectorySector Hw1) as (bm2 & HM2 & Hw2 & Hn2 & Hb2);
    [by rewrite Hn1, Hn0|].
  exists bm0, bm1, bm2. split_and!; try done; [split; [done|congruence]|].
  eapply free_after_boot; [done|by apply bm_free_mark|by apply bm_free_mark].
Qed.

(** Allocating one of the two system files during formatting. *)
Lemma format_alloc szTime h bm (d : D) size n secs rest :
  freemap_ok bm -> sd_valid d -> fh_wf h -> Forall is_byte szTime ->
  0 <= size <= MaxFileSize -> divRoundUp size SectorSize = Z.of_nat n -> (n <= 14)%nat ->
  bm_free bm = secs ++ rest -> length secs = n ->
  exists h' bm' d', FileHeader_Allocate szTime h bm d size = Ok (true, h', bm', d')
    /\ fh_wf h' /\ direct_file h' /\ fh_numBytes h' = size /\ direct_sectors h' = secs
    /\ freemap_ok bm' /\ bm_free bm' = rest /\ sd_valid d'.
Proof.
  intros Hbm Hd Hwf Hsz Hsize Hn Hsm Hfree Hsl.
  assert (Hsn : sectors_needed (Z.of_nat n) = Z.of_nat n).
  { unfold sectors_needed. destruct (Z.ltb_spec 14 (Z.of_nat n)); lia. }
  destruct (Allocate_owned szTime h bm d size) as (ds & bm' & d' & HA & Hdl & Hdi & How & Ht & Hd' & _);
    [done|done|apply Hwf|done|rewrite Hn, Hsn, Hfree, length_app; lia|].
  rewrite Hn, Hsn, Nat2Z.id in *. rewrite Hfree in How. rewrite take_app_length' in How by done.
  set (h' := fh_with _ _ _ _ ds) in *.
  assert (Hwf' : fh_wf h').
  { destruct Hwf as (_ & _ & Hcl & Hcb & ? & ? & ? & ? & _ & ?).
    destruct (getFormatDate_wf _ _ Hcl Hcb Hsz). change MaxFileSize with 5888 in Hsize.
    unfold fh_wf, h', fh_with. simpl. split_and!; try done; auto; unfold in_i32; lia. }
  assert (Hsub : forall x, x ∈ secs -> x ∈ bm_free bm) by (intros x Hx; rewrite Hfree, elem_of_app; by left).
  destruct (small_file_direct h' d') as [Hdf Ho].
  - split; [done|]. cbn [h' fh_with fh_numSectors fh_numBytes]. by rewrite Hn.
  - done.
  - cbn [h' fh_with fh_numSectors]. lia.
  - rewrite How. apply Forall_forall. intros x Hx. apply (freemap_valid bm); auto.
  - rewrite How. pose proof (bm_free_NoDup bm) as Hnd. rewrite Hfree in Hnd. by apply NoDup_app in Hnd as (? & _).
  - exists h', bm', d'. rewrite <-Ho, How. split_and!; try done; [exact (taken_freemap _ _ _ Hbm Ht)|].
    destruct Ht as (_ & _ & ->). rewrite Hfree. by apply drop_app_length'.
Qed.

Lemma boot_sectors : seqZ 2 1022 = [2] ++ seqZ 3 1021 /\ seqZ 3 1021 = [3; 4] ++ seqZ 5 1019.
Proof. split; vm_compute; reflexivity. Qed.

(** Both headers are written to their sectors and opened from there. *)
Lemma format_open (d : D) hm hd :
  sd_valid d -> fh_wf hm -> fh_wf hd ->
  exists d1 d2 d3 d4, FileHeader_WriteBack hm d FreeMapSector = Ok d1
    /\ FileHeader_WriteBack hd d1 DirectorySector = Ok d2
    /\ OpenFile_new d2 FreeMapSector = Ok (mkOpenFile hm 0 FreeMapSector, d3)
    /\ OpenFile_new d3 DirectorySector = Ok (mkOpenFile hd 0 DirectorySector, d4)
    /\ sd_valid d4 /\ file_hdr d4 FreeMapSector = hm /\ file_hdr d4 DirectorySector = hd.
Proof.
  intros Hd Hm Hh.
  destruct (sd_write_ok d FreeMapSector (fh_bytes hm)) as (d1 & HW1 & Hd1 & Hs1);
    [done|done|by apply fh_bytes_sector|].
  destruct (sd_write_ok d1 DirectorySector (fh_bytes hd)) as (d2 & HW2 & Hd2 & Hs2);
    [done|done|by apply fh_bytes_sector|].
  destruct (OpenFile_new_ok d2 FreeMapSector) as (d3 & HO3 & Hd3 & Hs3); [done|done|].
  destruct (OpenFile_new_ok d3 DirectorySector) as (d4 & HO4 & Hd4 & Hs4); [done|done|].
  assert (H0 : file_hdr d2 FreeMapSector = hm).
  { unfold file_hdr. rewrite Hs2, decide_False, Hs1, decide_True by done. by apply fh_roundtrip. }
  assert (H1 : file_hdr d2 DirectorySector = hd).
  { unfold file_hdr. rewrite Hs2, decide_True by done. by apply fh_roundtrip. }
  assert (H3 : forall s, valid_sector s -> file_hdr d3 s = file_hdr d2 s)
    by (intros s Hs; unfold file_hdr; by rewrite Hs3).
  assert (H4 : forall s, valid_sector s -> file_hdr d4 s = file_hdr d3 s)
    by (intros s Hs; unfold file_hdr; by rewrite Hs4).
  rewrite H0 in HO3. rewrite H3, H1 in HO4 by done.
  exists d1, d2, d3, d4. split_and!; try done; by rewrite H4, H3.
Qed.

Lemma format_ok (e : call_env) (d : D) :
  env_ok e -> sd_valid d ->
  exists fs d' bm t, FileSystem_new e d true = Ok (fs, d') /\ fs_inv fs d' bm t
    /\ dir_map t = ∅ /\ bm_free bm = seqZ 5 1019.
Proof.
  intros He Hd. unfold FileSystem_new.
  destruct (format_map e He) as (bm0 & bm1 & bm2 & -> & HM1 & HM2 & Hbm2 & Hf2).
  cbn [mbind result_bind]. rewrite HM1. cbn [mbind result_bind]. rewrite HM2. cbn [mbind result_bind].
  pose proof He as (Htime & _ & _ & _ & _ & Hh1 & Hh2 & Hb1 & Hb2).
  destruct (format_alloc (ce_time e) (ce_hdr e) bm2 d FreeMapFileSize 1 [2] (seqZ 3 1021))
    as (hm & bm3 & d3 & -> & Hmw & Hmd & Hmn & Hms & Hbm3 & Hf3 & Hd3);
    [done|done|done|done|done|done|lia|rewrite Hf2; apply boot_sectors|done|].
  cbn [mbind result_bind ASSERT].
  destruct (format_alloc (ce_time e) (ce_hdr2 e) bm3 d3 DirectoryFileSize 2 [3; 4] (seqZ 5 1019))
    as (hd & bm4 & d4 & -> & Hdw & Hdd & Hdn & Hds & Hbm4 & Hf4 & Hd4);
    [done|done|done|done|done|done|lia|rewrite Hf3; apply boot_sectors|done|].
  cbn [mbind result_bind ASSERT].
  destruct (format_open d4 hm hd Hd4 Hmw Hdw) as (d5 & d6 & d7 & d8 & -> & HW & HO1 & HO2 & Hd8 & Hh0 & Hh1').
  cbn [mbind result_bind]. rewrite HW. cbn [mbind result_bind]. rewrite HO1. cbn [mbind result_bind].
  rewrite HO2. cbn [mbind result_bind]. clear HW HO1 HO2.
  destruct (env_new_dir e He) as (Hnw & Hnl & Hna). set (t := Directory_new _) in *.
  assert (Hmf : file_ok (mkOpenFile hm 0 FreeMapSector) d8).
  { unfold file_ok. cbn [of_hdr of_hdrSector of_seekPosition]. rewrite Hms. split_and!; try done. set_solver. }
  assert (Hdf : file_ok (mkOpenFile hd 0 DirectorySector) d8).
  { unfold file_ok. cbn [of_hdr of_hdrSector of_seekPosition]. rewrite Hds. split_and!; try done. set_solver. }
  destruct (BitMap_WriteBack_ok (ce_buf e) bm4 _ d8 Hmf Hb1 Hbm4 Hmn) as (d9 & -> & Hd9 & [Hc9 Hn9] & Hs9).
  cbn [mbind result_bind of_hdr] in *.
  destruct (Directory_WriteBack_ok (ce_buf2 e) t _ d9 (file_ok_valid _ d8 d9 Hd9 Hdf) Hb2)
    as (d10 & -> & Hd10 & Hst & Hs10); [apply Hnw|by rewrite Hnl|].
  cbn [mbind result_bind of_hdr] in *. eexists _, d10, bm4, t. split; [done|].
  rewrite Hms in Hs9. rewrite Hds in Hs10.
  assert (Hall : all_sectors (mkFileSystem (mkOpenFile hm 0 FreeMapSector) (mkOpenFile hd 0 DirectorySector)) d10 t
    = [0; 1; 2; 3; 4]).
  { unfold all_sectors, sys_sectors, data_sectors. cbn [fs_freeMapFile fs_directoryFile of_hdr].
    by rewrite Hna, Hms, Hds. }
  assert (Hh : forall s, s ∈ [FreeMapSector; DirectorySector] -> file_hdr d10 s = file_hdr d8 s).
  { intros s Hs. assert (s = 0 \/ s = 1) as Hs' by (unfold FreeMapSector, DirectorySector in Hs; set_solver).
    unfold file_hdr. destruct Hs' as [->| ->]; rewrite Hs10, Hs9; try done; set_solver. }
  split_and!; [|unfold dir_map; by rewrite Hna|done].
  constructor; rewrite ?Hall; cbn [fs_freeMapFile fs_directoryFile of_hdr of_hdrSector]; try done.
  - by apply (file_ok_valid _ d8).
  - by apply (file_ok_valid _ d8).
  - split; [|done]. cbn [of_hdr]. rewrite (file_content_ext hm d9 d10); [done|done|].
    rewrite Hms. intros s ->%list_elem_of_singleton. apply Hs10; [done|set_solver].
  - rewrite !Hh by set_solver. done.
  - apply (bool_decide_unpack _). vm_compute. exact I.
  - intros s. rewrite Hf4, elem_of_seqZ. unfold valid_sector. change NumSectors with 1024.
    rewrite !not_elem_of_cons. pose proof (not_elem_of_nil s). intuition lia.
  - repeat constructor; done.
  - rewrite Hna. intros s Hs. by apply not_elem_of_nil in Hs.
Qed.

(** Formatting any disk ([FileSystem(TRUE)]) succeeds and gives a consistent, empty
    file system: headers of the system files in sectors 0 and 1, the bitmap in sector 2,
    the directory in sectors 3 and 4, and every other sector free. *)
Theorem format_spec (e : call_env) (d : D) :
  env_ok e -> sd_valid d ->
  exists fs d' bm t, FileSystem_new e d true = Ok (fs, d') /\ fs_inv fs d' bm t
    /\ dir_map t = ∅ /\ bm_free bm = seqZ 5 1019.
Proof. apply format_ok. Qed.
End Open.

(** ** Concrete instances *)

Definition blank_env : call_env :=
  mkEnv [] (replicate 32 0) blank_table blank_header blank_header [] [].

Lemma blank_env_ok : env_ok blank_env.
Proof.
  unfold env_ok, blank_env. cbn [ce_time ce_words ce_entries ce_hdr ce_hdr2 ce_buf ce_buf2].
  split_and!; try done; try apply blank_header_wf.
  - apply (Forall_replicate _ 32). unfold in_u32. lia.
  - apply (Forall_replicate _ 10). unfold entry_raw, blank_entry. simpl. split_and!; try done.
    repeat constructor; done.
Qed.

(** A freshly formatted disk. *)
Definition boot : result (FileSystem * gmap Z (list Z)) := FileSystem_new blank_env ∅ true.

Lemma format_spec_witness :
  exists fs d' bm t, boot = Ok (fs, d') /\ fs_inv fs d' bm t
    /\ dir_map t = ∅ /\ bm_free bm = seqZ 5 1019.
Proof. apply (format_spec blank_env (∅ : gmap Z (list Z)) blank_env_ok empty_disk_valid). Defined.

Lemma boot_ok :
  exists fs d' bm t, boot = Ok (fs, d') /\ fs_inv fs d' bm t
    /\ dir_map t = ∅ /\ bm_free bm = seqZ 5 1019.
Proof. apply (format_ok blank_env (∅ : gmap Z (list Z)) blank_env_ok empty_disk_valid). Qed.

Lemma name_a : is_name [97].
Proof. repeat constructor; done. Qed.

Lemma Create_spec_witness :
  match boot with
  | Ok (fs, d) => exists d', FileSystem_Create blank_env fs d [97] 300 = Ok (true, d')
  | Err _ => False
  end.
Proof.
  destruct boot_ok as (fs & d & bm & t & -> & Hinv & Hm & Hf).
  destruct (Create_spec blank_env fs d bm t [97] 300 blank_env_ok Hinv name_a) as (b & d' & HC & Hb & _);
    [done|right; rewrite Hf; vm_compute; congruence|].
  exists d'. rewrite HC. destruct b; [done|].
  assert (false = true); [apply Hb|done].
  rewrite Hm, Hf. split; [done|]. split; [apply Nat.ltb_lt; done|vm_compute; congruence].
Defined.

(** The disk with one file [a] of 300 bytes. *)
Lemma boot_create :
  exists fs d bm t s, fs_inv fs d bm t /\ dir_map t !! key [97] = Some s
    /\ fh_numSectors (file_hdr (D := gmap Z (list Z)) d s) = 3 /\ dir_map t = {[ key [97] := s ]}.
Proof.
  destruct boot_ok as (fs & d & bm & t & _ & Hinv & Hm & Hf).
  destruct (Create_ok blank_env fs d bm t [97] 300 blank_env_ok Hinv name_a)
    as (b & d' & HC & Hb & _ & Hok);
    [done|right; rewrite Hf; vm_compute; congruence|].
  destruct Hok as (s & bm' & t' & Hinv' & Hm' & Hsz & _).
  { apply Hb. rewrite Hm, Hf. split; [done|]. split; [apply Nat.ltb_lt; done|vm_compute; congruence]. }
  assert (Hlk : dir_map t' !! key [97] = Some s) by (by rewrite Hm', lookup_insert_eq).
  exists fs, d', bm', t', s. split_and!; [done|done| |by rewrite Hm', Hm].
  destruct (entry_in_use _ _ _ _ _ _ Hinv' Hlk) as [Hin _].
  destruct (inv_hdrs _ _ _ _ Hinv' s Hin) as [_ [_ ->]]. by rewrite Hsz.
Qed.

Lemma Open_spec_witness :
  exists fs (d d' : gmap Z (list Z)) f, FileSystem_Open blank_env fs d [97] = Ok (Some f, d')
    /\ file_ok f d'.
Proof.
  destruct boot_create as (fs & d & bm & t & s & Hinv & Hlk & Hn & _).
  destruct (Open_spec blank_env fs d bm t [97] blank_env_ok Hinv name_a) as (d' & HO & _ & _ & Hf).
  rewrite Hlk in HO. exists fs, d, d'. eexists. split; [exact HO|]. apply Hf; [done|by rewrite Hn].
Defined.

Lemma Remove_spec_witness :
  exists fs (d d' : gmap Z (list Z)) bm t t', fs_inv fs d bm t
    /\ FileSystem_Remove blank_env fs d [97] = Ok (true, d')
    /\ dir_map t' = delete (key [97]) (dir_map t).
Proof.
  destruct boot_create as (fs & d & bm & t & s & Hinv & Hlk & Hn & _).
  pose proof (Remove_spec blank_env fs d bm t [97] blank_env_ok Hinv name_a) as HR.
  rewrite Hlk in HR. destruct HR as (d' & bm' & t' & HR & _ & Hm & _).
  { unfold index_readable, file_sectors. rewrite Hn. cbn [needs_index].
    change (needs_index 3) with false. cbv iota. rewrite drop_ge; [constructor|].
    rewrite length_take. lia. }
  by exists fs, d, d', bm, t, t'.
Defined.

(** A whole session: format, create [a] with 300 bytes, open it, write across a sector
    boundary, read back. *)
Example session :
  (   '(fs, d) ← boot;
      '(b, d) ← FileSystem_Create blank_env fs d [97] 300;
      '(f, d) ← FileSystem_Open blank_env fs d [97];
      f ← deref f;
      '(n, d) ← OpenFile_WriteAt [] f d (replicate 20 7) 20 120;
      '(data, d) ← OpenFile_ReadAt f d 4 137;
      '(gone, d) ← FileSystem_Remove blank_env fs d [97];
      '(l, d) ← FileSystem_List blank_env fs d;
      Ok (b, n, data, gone, l)) = Ok (true, 20, [7; 7; 7; 0], true, []).
Proof. vm_compute. reflexivity. Qed.
