(* ===== verification/FsMap.v ===== *)
(** * The file system as a map from names to bytes

    The whole file system (filesys/filesys.cc over directories, headers, open files and
    the bitmap) against the specification its users rely on: a finite map from names to
    byte arrays of fixed length.  A user's session is a sequence of creations, removals,
    uses of one file (open, any calls on the open file, close) and restarts of Nachos; the
    code's replies are those of the map.  The contents of a new file is whatever its
    sectors held before, so the specification is a relation. *)

From S2P Require Import Prelude BitMap Disk FileHdr OpenFile Directory FileSys.

(** ** The specification *)

Abbreviation afs := (gmap (list Z) (list Z)).

(** The sectors of a file of [n] bytes: its header and its data. *)
Definition file_cost (n : nat) : nat := S (Z.to_nat (divRoundUp (Z.of_nat n) SectorSize)).
Definition afs_used (m : afs) : nat := sum_list_with (fun p => file_cost (length p.2)) (map_to_list m).

(** 1024 sectors less the five of the bitmap, the directory and their headers. *)
Definition afs_capacity : nat := 1019.

Definition afs_room (m : afs) (name : list Z) (n : Z) : Prop :=
  m !! key name = None /\ (size m < NumDirEntries)%nat
  /\ (afs_used m + file_cost (Z.to_nat n) <= afs_capacity)%nat.

Inductive fs_call :=
  | FsCreate (e : call_env) (name : list Z) (n : Z)
  | FsRemove (e : call_env) (name : list Z)
  | FsUse (e : call_env) (name : list Z) (cs : list file_call)
  | FsRestart (e : call_env).

Inductive fs_reply :=
  | RBool (b : bool)
  | RFile (rs : option (list file_result))
  | RDone.

Inductive afs_step : fs_call -> fs_reply -> afs -> afs -> Prop :=
  | afs_create e name n bs m :
      afs_room m name n -> length bs = Z.to_nat n ->
      afs_step (FsCreate e name n) (RBool true) m (<[key name := bs]> m)
  | afs_create_fails e name n m :
      ~ afs_room m name n -> afs_step (FsCreate e name n) (RBool false) m m
  | afs_remove e name bs m :
      m !! key name = Some bs -> afs_step (FsRemove e name) (RBool true) m (delete (key name) m)
  | afs_remove_fails e name m :
      m !! key name = None -> afs_step (FsRemove e name) (RBool false) m m
  | afs_use e name cs bs rs a m :
      m !! key name = Some bs -> run_ops afile_exec cs (mkAFile bs 0) = Ok (rs, a) ->
      afs_step (FsUse e name cs) (RFile (Some rs)) m (<[key name := af_bytes a]> m)
  | afs_use_fails e name cs m :
      m !! key name = None -> afs_step (FsUse e name cs) (RFile None) m m
  | afs_restart e m : afs_step (FsRestart e) RDone m m.

Inductive afs_run : list fs_call -> list fs_reply -> afs -> afs -> Prop :=
  | afs_run_nil m : afs_run [] [] m m
  | afs_run_cons c cs r rs m m1 m2 :
      afs_step c r m m1 -> afs_run cs rs m1 m2 -> afs_run (c :: cs) (r :: rs) m m2.

Lemma afs_create_inv e name n b m m' :
  afs_step (FsCreate e name n) (RBool b) m m' ->
  (b = true /\ afs_room m name n /\ exists bs, length bs = Z.to_nat n /\ m' = <[key name := bs]> m)
  \/ (b = false /\ ~ afs_room m name n /\ m' = m).
Proof. inversion 1; subst; eauto 6. Qed.

(** Names are strings, sizes fit 14 sectors, the memory of the environment is memory. *)
Definition fs_call_ok (c : fs_call) : Prop :=
  match c with
  | FsCreate e name n => env_ok e /\ is_name name /\ 0 <= n <= NumDirect * SectorSize
  | FsRemove e name => env_ok e /\ is_name name
  | FsUse e name cs => env_ok e /\ is_name name /\ Forall call_ok cs
  | FsRestart e => env_ok e
  end.

(** ** The code *)

Section View.
Context {D : Type} `{SectorDevice D}.

Definition fs_exec (c : fs_call) (st : FileSystem * D) : result (fs_reply * (FileSystem * D)) :=
  let '(fs, d) := st in
  match c with
  | FsCreate e name n => '(b, d) ← FileSystem_Create e fs d name n; Ok (RBool b, (fs, d))
  | FsRemove e name => '(b, d) ← FileSystem_Remove e fs d name; Ok (RBool b, (fs, d))
  | FsUse e name cs =>
      '(o, d) ← FileSystem_Open e fs d name;
      match o with
      | None => Ok (RFile None, (fs, d))
      | Some f => '(rs, (_, d)) ← run_ops file_exec cs (f, d); Ok (RFile (Some rs), (fs, d))
      end
  | FsRestart e => '(fs, d) ← FileSystem_new e d false; Ok (RDone, (fs, d))
  end.

(** The contents of every file. *)
Definition fs_view (d : D) (t : Directory) : afs :=
  (fun s => file_content (file_hdr d s) d) <$> dir_map t.

(** A consistent disk whose files have no index sector. *)
Definition fs_small (fs : FileSystem) (d : D) (bm : BitMap) (t : Directory) : Prop :=
  fs_inv fs d bm t
  /\ forall k s, dir_map t !! k = Some s -> fh_numSectors (file_hdr d s) <= NumDirect.

(** ** Files that do not change *)

Lemma file_kept (d d' : D) s :
  (forall x, x ∈ file_owned d s -> sd_sector d' x = sd_sector d x) ->
  file_hdr d' s = file_hdr d s /\ file_owned d' s = file_owned d s
  /\ file_content (file_hdr d' s) d' = file_content (file_hdr d s) d.
Proof.
  intros Hx. destruct (file_owned_ext d d' s Hx) as [Ho Hh]. split_and!; [done|done|].
  assert (Hi : forall x, x ∈ file_sectors (file_hdr d s) d \/ x ∈ index_sectors (file_hdr d s) ->
    sd_sector d' x = sd_sector d x).
  { intros x Hin. apply Hx. right. by rewrite owned_perm, elem_of_app. }
  rewrite Hh. unfold file_content. f_equal.
  assert (file_sectors (file_hdr d s) d' = file_sectors (file_hdr d s) d) as ->.
  { clear Ho Hh. unfold file_sectors, index_sectors in *. destruct (needs_index _); [|done].
    rewrite Hi; [done|]. right. left. }
  apply sectors_data_ext. auto.
Qed.

Lemma owned_disjoint fs (d : D) bm t k s k' s' x :
  fs_inv fs d bm t -> dir_map t !! k = Some s -> dir_map t !! k' = Some s' -> k <> k' ->
  x ∈ file_owned d s -> x ∉ file_owned d s'.
Proof.
  intros Hinv Hk Hk' Hne Hx Hx'. destruct (inv_disjoint _ _ _ _ Hinv) as (_ & Hnd & _).
  apply elem_of_list_to_map_2 in Hk, Hk'. unfold user_sectors in Hnd.
  apply list_elem_of_split in Hk as (l1 & l2 & Heq). rewrite Heq in Hnd, Hk'.
  rewrite fmap_app, fmap_cons, bind_app, bind_cons in Hnd. cbn [snd] in Hnd.
  apply NoDup_app in Hnd as (_ & Hd1 & Hnd). apply NoDup_app in Hnd as (_ & Hd2 & _).
  rewrite elem_of_app, elem_of_cons in Hk'.
  assert (Hin : forall l, (k', s') ∈ l -> x ∈ l.*2 ≫= file_owned d).
  { intros l Hl. rewrite list_elem_of_bind. exists s'. split; [done|].
    apply list_elem_of_fmap. by exists (k', s'). }
  destruct Hk' as [Hl|[[=]|Hl]]; [|congruence|].
  - apply (Hd1 x); [by apply Hin|]. apply elem_of_app. by left.
  - apply (Hd2 x); [done|by apply Hin].
Qed.

(** One entry is new or rewritten, the other files are as before. *)
Lemma view_insert (d d' : D) t t' k s :
  dir_map t' = <[k := s]> (dir_map t) ->
  (forall k' s' x, k' <> k -> dir_map t !! k' = Some s' -> x ∈ file_owned d s' ->
     sd_sector d' x = sd_sector d x) ->
  fs_view d' t' = <[k := file_content (file_hdr d' s) d']> (fs_view d t).
Proof.
  intros Ht Hx. unfold fs_view. apply map_eq. intros k'. rewrite Ht.
  destruct (decide (k' = k)) as [->|Hne].
  { by rewrite lookup_fmap, !lookup_insert_eq. }
  rewrite lookup_fmap, !lookup_insert_ne, lookup_fmap by done.
  destruct (dir_map t !! k') as [s'|] eqn:Hk'; [|done]. cbn. f_equal.
  apply file_kept. intros x Hin. by apply (Hx k' s').
Qed.

Lemma view_delete (d d' : D) t t' k :
  dir_map t' = delete k (dir_map t) ->
  (forall x, x ∈ user_sectors d (dir_alist t').*2 -> sd_sector d' x = sd_sector d x) ->
  fs_view d' t' = delete k (fs_view d t).
Proof.
  intros Ht Hx. unfold fs_view. rewrite <-fmap_delete, <-Ht. apply map_fmap_ext.
  intros k' s' Hk'. apply file_kept. intros x Hin. apply Hx, (file_owned_user d _ s'); [|done].
  apply elem_of_list_to_map_2 in Hk'. apply list_elem_of_fmap. by exists (k', s').
Qed.

Lemma view_same fs (d d' : D) bm t :
  fs_inv fs d bm t -> same_sectors d d' -> fs_view d' t = fs_view d t.
Proof.
  intros Hinv Hs. apply map_fmap_ext. intros k s Hk. apply file_kept. intros x Hx. apply Hs.
  destruct (entry_in_use _ _ _ _ _ _ Hinv Hk) as [Hin _].
  by apply (file_owned_ok fs d bm t s Hinv Hin).
Qed.

(** ** How many sectors are free *)

Lemma small_file fs (d : D) bm t k s :
  fs_small fs d bm t -> dir_map t !! k = Some s ->
  direct_file (file_hdr d s) /\ owned_sectors (file_hdr d s) d = direct_sectors (file_hdr d s).
Proof.
  intros [Hinv Hsm] Hk. destruct (entry_in_use _ _ _ _ _ _ Hinv Hk) as [Hin _].
  destruct (file_owned_ok fs d bm t s Hinv Hin) as [Hnd Hv]. apply NoDup_cons in Hnd as [_ Hnd].
  destruct (inv_hdrs _ _ _ _ Hinv s Hin) as [Hwf Hsz].
  apply small_file_direct; [done|done|by apply (Hsm k)| |done].
  apply Forall_forall. intros x Hx. apply Hv. by right.
Qed.

Lemma file_owned_cost fs (d : D) bm t k s :
  fs_small fs d bm t -> dir_map t !! k = Some s ->
  length (file_owned d s) = file_cost (length (file_content (file_hdr d s) d)).
Proof.
  intros Hsm Hk. destruct (small_file fs d bm t k s Hsm Hk) as [Hdf Ho].
  assert (Hd : sd_valid d) by apply (inv_mapfile _ _ _ _ (proj1 Hsm)).
  rewrite length_file_content by done. unfold file_owned, file_cost. cbn [length]. f_equal.
  rewrite Ho. destruct (direct_bounds _ Hdf) as (_ & _ & ->). destruct Hdf as (Hb & -> & _).
  by rewrite Z2Nat.id.
Qed.

Lemma user_sectors_cost fs (d : D) bm t :
  fs_small fs d bm t -> length (user_sectors d (dir_alist t).*2) = afs_used (fs_view d t).
Proof.
  intros Hsm. pose proof (inv_wf _ _ _ _ (proj1 Hsm)) as [_ Hnd].
  unfold afs_used, fs_view. rewrite map_to_list_fmap. unfold dir_map at 1.
  rewrite (map_to_list_to_map _ Hnd).
  assert (Hc : forall k s, (k, s) ∈ dir_alist t ->
    length (file_owned d s) = file_cost (length (file_content (file_hdr d s) d))).
  { intros k s Hks. apply (file_owned_cost fs d bm t k s Hsm). by apply elem_of_list_to_map_1. }
  clear Hnd Hsm. unfold user_sectors. induction (dir_alist t) as [|[k s] l IH]; [done|].
  rewrite !fmap_cons, bind_cons, length_app. cbn [sum_list_with snd fst prod_map].
  rewrite IH by (intros k' s' Hks; apply (Hc k'); by right). by rewrite (Hc k s) by left.
Qed.

Lemma sys_sectors_cost fs (d : D) bm t : fs_inv fs d bm t -> length (sys_sectors fs) = 5%nat.
Proof.
  intros Hinv. unfold sys_sectors, data_sectors. rewrite !length_app.
  destruct (inv_mapfile _ _ _ _ Hinv) as (_ & Hm & _).
  destruct (inv_dirfile _ _ _ _ Hinv) as (_ & Hd & _).
  destruct (direct_bounds _ Hm) as (_ & _ & ->). destruct (direct_bounds _ Hd) as (_ & _ & ->).
  destruct Hm as (_ & -> & _). destruct Hd as (_ & -> & _).
  destruct (inv_map _ _ _ _ Hinv) as [_ ->]. destruct (inv_dir _ _ _ _ Hinv) as [_ ->].
  by rewrite (inv_len _ _ _ _ Hinv).
Qed.

Lemma free_count fs (d : D) bm t :
  fs_small fs d bm t -> (length (bm_free bm) + afs_used (fs_view d t) = afs_capacity)%nat.
Proof.
  intros Hsm. pose proof Hsm as [Hinv _].
  assert (Hp : bm_free bm ++ all_sectors fs d t ≡ₚ seqZ 0 NumSectors).
  { apply NoDup_Permutation; [|apply NoDup_seqZ|].
    - apply NoDup_app. split_and!; [apply bm_free_NoDup| |apply Hinv].
      intros s Hs. by apply (inv_free _ _ _ _ Hinv) in Hs as [_ ?].
    - intros s. rewrite elem_of_app, elem_of_seqZ, (inv_free _ _ _ _ Hinv s). unfold valid_sector.
      pose proof (proj1 (Forall_forall _ _) (inv_valid _ _ _ _ Hinv) s) as Hv. unfold valid_sector in Hv.
      destruct (decide (s ∈ all_sectors fs d t)); intuition lia. }
  apply Permutation_length in Hp. rewrite length_app, length_seqZ in Hp. unfold all_sectors in Hp.
  rewrite length_app, (sys_sectors_cost fs d bm t), (user_sectors_cost fs d bm t) in Hp by done.
  change (Z.to_nat NumSectors) with 1024%nat in Hp. unfold afs_capacity. lia.
Qed.

(** ** Each call *)

Lemma small_bound n : 0 <= n <= NumDirect * SectorSize ->
  n <= MaxFileSize /\ 0 <= divRoundUp n SectorSize <= NumDirect
  /\ sectors_needed (divRoundUp n SectorSize) = divRoundUp n SectorSize.
Proof.
  intros Hn. pose proof (divRoundUp_bounds n SectorSize) as Hb.
  change (NumDirect * SectorSize) with 1792 in Hn. change NumDirect with 14.
  unfold SectorSize, sectors_needed in *. change MaxFileSize with 5888.
  destruct (Z.ltb_spec 14 (divRoundUp n 128)); lia.
Qed.

Lemma view_lookup (d : D) t k :
  fs_view d t !! k = (fun s => file_content (file_hdr d s) d) <$> dir_map t !! k.
Proof. apply lookup_fmap. Qed.

Lemma view_size (d : D) t : size (fs_view d t) = size (dir_map t).
Proof. apply map_size_fmap. Qed.

Lemma room_iff fs (d : D) bm t name n :
  fs_small fs d bm t -> 0 <= n <= NumDirect * SectorSize ->
  afs_room (fs_view d t) name n <->
  dir_map t !! key name = None /\ (size (dir_map t) < NumDirEntries)%nat
  /\ sectors_needed (divRoundUp n SectorSize) <= Z.of_nat (length (bm_free bm)) - 1.
Proof.
  intros Hsm Hn. destruct (small_bound n Hn) as (_ & Hb & ->). pose proof (free_count fs d bm t Hsm) as Hc.
  unfold afs_room, file_cost. rewrite view_lookup, view_size, fmap_None, Z2Nat.id by lia.
  intuition lia.
Qed.

Lemma small_kept (d d' : D) t (k : list Z) (s : Z) :
  (forall x, x ∈ file_owned d s -> sd_sector d' x = sd_sector d x) ->
  (forall k s, dir_map t !! k = Some s -> fh_numSectors (file_hdr d s) <= NumDirect) ->
  dir_map t !! k = Some s -> fh_numSectors (file_hdr d' s) <= NumDirect.
Proof. intros Hx Hsz Hk. destruct (file_kept d d' s Hx) as (-> & _). by apply (Hsz k). Qed.

Lemma small_same fs (d d' : D) bm t :
  fs_small fs d bm t -> fs_inv fs d' bm t -> same_sectors d d' ->
  fs_small fs d' bm t /\ fs_view d' t = fs_view d t.
Proof.
  intros [Hinv Hsz] Hinv' Hs. split; [|by apply (view_same fs d d' bm)]. split; [done|].
  intros k s Hk. apply (small_kept d d' t k s); [|done|done]. intros x Hx. apply Hs.
  destruct (entry_in_use _ _ _ _ _ _ Hinv Hk) as [Hin _]. by apply (file_owned_ok fs d bm t s Hinv Hin).
Qed.

Lemma create_step fs (d : D) bm t e name n :
  fs_small fs d bm t -> fs_call_ok (FsCreate e name n) ->
  exists b d' bm' t', FileSystem_Create e fs d name n = Ok (b, d') /\ fs_small fs d' bm' t'
    /\ afs_step (FsCreate e name n) (RBool b) (fs_view d t) (fs_view d' t').
Proof.
  intros Hsm (He & Hname & Hn). pose proof Hsm as [Hinv Hsz].
  destruct (small_bound n Hn) as (Hmax & Hnb & Hneed). pose proof (room_iff fs d bm t name n Hsm Hn) as Hroom.
  destruct (Create_ok e fs d bm t name n) as (b & d' & HC & Hb & Hfail & Hok); [done..|lia|lia|].
  rewrite <-Hroom in Hb. exists b, d'. destruct b.
  2: { destruct (Hfail eq_refl) as [Hs Hinv']. destruct (small_same fs d d' bm t Hsm Hinv' Hs) as [Hsm' Hv].
       exists bm, t. rewrite Hv. split_and!; [done|done|]. apply afs_create_fails. intros Hr. by apply Hb in Hr. }
  destruct (Hok eq_refl) as (s & bm' & t' & Hinv' & Ht' & Hbytes & Hold).
  assert (Hold' : forall k' s' x, dir_map t !! k' = Some s' -> x ∈ file_owned d s' -> sd_sector d' x = sd_sector d x).
  { intros k' s' x Hk' Hx. apply Hold, (file_owned_user d _ s'); [|done].
    by apply (entry_in_use fs d bm t k' s'). }
  assert (Hs : dir_map t' !! key name = Some s) by by rewrite Ht', lookup_insert_eq.
  assert (Hsm' : fs_small fs d' bm' t').
  { split; [done|]. intros k' s'. rewrite Ht'. destruct (decide (k' = key name)) as [->|Hne].
    - rewrite lookup_insert_eq. intros [= <-]. destruct (entry_in_use _ _ _ _ _ _ Hinv' Hs) as [Hin _].
      destruct (inv_hdrs _ _ _ _ Hinv' s Hin) as [_ [_ ->]]. rewrite Hbytes. apply Hnb.
    - rewrite lookup_insert_ne by done. intros Hk'. apply (small_kept d d' t k' s'); [|done|done].
      intros x. by apply (Hold' k'). }
  exists bm', t'. split_and!; [done|done|].
  rewrite (view_insert d d' t t' (key name) s Ht') by (intros k' s' x _; apply Hold').
  apply afs_create; [by apply Hb|]. rewrite length_file_content, Hbytes; [done| |apply (inv_mapfile _ _ _ _ Hinv')].
  by destruct (small_file _ _ _ _ _ _ Hsm' Hs).
Qed.

Lemma remove_step fs (d : D) bm t e name :
  fs_small fs d bm t -> fs_call_ok (FsRemove e name) ->
  exists b d' bm' t', FileSystem_Remove e fs d name = Ok (b, d') /\ fs_small fs d' bm' t'
    /\ afs_step (FsRemove e name) (RBool b) (fs_view d t) (fs_view d' t').
Proof.
  intros Hsm (He & Hname). pose proof Hsm as [Hinv Hsz].
  pose proof (Remove_ok e fs d bm t name He Hinv Hname) as HR.
  pose proof (view_lookup d t (key name)) as Hvl.
  destruct (dir_map t !! key name) as [s|] eqn:Hk.
  - destruct HR as (d' & bm' & t' & HR & Hinv' & Ht' & _ & Hold).
    { destruct (small_file _ _ _ _ _ _ Hsm Hk) as [Hdf _]. unfold index_readable.
      rewrite file_sectors_direct by done. destruct (direct_bounds _ Hdf) as (? & _ & ?).
      rewrite drop_ge; [constructor|lia]. }
    exists true, d', bm', t'. split_and!; [done| |].
    + split; [done|]. intros k' s' Hk'. apply (small_kept d d' t' k' s'); [| |done].
      * intros x Hx. apply Hold, (file_owned_user d _ s'); [|done].
        by apply (entry_in_use fs d' bm' t' k' s').
      * intros k2 s2. rewrite Ht', lookup_delete_Some. intros [_ ?]. by apply (Hsz k2).
    + rewrite (view_delete d d' t t' (key name) Ht' Hold). by eapply afs_remove.
  - destruct HR as (d' & HR & Hs & Hinv').
    destruct (small_same fs d d' bm t Hsm Hinv' Hs) as [Hsm' Hv].
    exists false, d', bm, t. rewrite Hv. split_and!; [done|done|]. by apply afs_remove_fails.
Qed.

(** [f] is the file [k], open. *)
Definition opened (d : D) (t : Directory) (k : list Z) (f : OpenFile) : Prop :=
  dir_map t !! k = Some (of_hdrSector f) /\ of_hdr f = file_hdr d (of_hdrSector f).

(** The sectors a call may write belong to the open file and to no other one. *)
Lemma used_outside fs (d : D) bm t k f f' d' :
  fs_small fs d bm t -> opened d t k f -> file_step f d f' d' ->
  (forall s, s ∈ sys_sectors fs -> sd_sector d' s = sd_sector d s)
  /\ (forall k' s' x, k' <> k -> dir_map t !! k' = Some s' -> x ∈ file_owned d s' ->
        sd_sector d' x = sd_sector d x)
  /\ file_hdr d' (of_hdrSector f) = of_hdr f'
  /\ file_owned d' (of_hdrSector f) = file_owned d (of_hdrSector f).
Proof.
  intros Hsm [Hk Hh] Hst. pose proof Hsm as [Hinv _].
  destruct (small_file _ _ _ _ _ _ Hsm Hk) as [Hdf Ho]. rewrite <-Hh in Hdf.
  destruct (entry_in_use _ _ _ _ _ _ Hinv Hk) as [Hin _].
  assert (Hout : forall x, valid_sector x -> x ∉ file_owned d (of_hdrSector f) -> sd_sector d' x = sd_sector d x).
  { intros x Hv Hx. apply Hst. unfold file_owned in Hx. rewrite Ho, <-Hh, not_elem_of_cons in Hx.
    unfold outside. tauto. }
  assert (Hh' : file_hdr d' (of_hdrSector f) = of_hdr f') by (by apply Hst).
  split_and!; [| |done|].
  - intros s Hs. apply Hout.
    + apply (proj1 (Forall_forall _ _) (inv_valid _ _ _ _ Hinv)). unfold all_sectors. rewrite elem_of_app. by left.
    + intros Hx. destruct (inv_disjoint _ _ _ _ Hinv) as (_ & _ & Hdis). apply (Hdis s Hs).
      by apply (file_owned_user d _ (of_hdrSector f)).
  - intros k' s' x Hne Hk' Hx. apply Hout.
    + destruct (entry_in_use _ _ _ _ _ _ Hinv Hk') as [Hin' _]. by apply (file_owned_ok fs d bm t s' Hinv Hin').
    + by apply (owned_disjoint fs d bm t k' s' k _ x).
  - unfold file_owned. rewrite Hh', Ho, <-Hh. f_equal. pose proof (step_ok _ _ _ _ Hst) as (_ & Hdf' & _).
    destruct (owned_small (of_hdr f') d') as (-> & _); [apply direct_bounds in Hdf'; lia|].
    unfold direct_sectors. by rewrite (step_data _ _ _ _ Hst), (step_sectors _ _ _ _ Hst).
Qed.

Lemma alist_named t s : dir_wf t -> s ∈ (dir_alist t).*2 -> exists k, dir_map t !! k = Some s.
Proof.
  intros [_ Hnd] ([k s'] & -> & Hks)%list_elem_of_fmap. exists k. by apply elem_of_list_to_map_1.
Qed.

Lemma all_sectors_files fs (d d' : D) t :
  dir_wf t -> (forall k s, dir_map t !! k = Some s -> file_owned d' s = file_owned d s) ->
  all_sectors fs d' t = all_sectors fs d t.
Proof.
  intros Hwf Hk. unfold all_sectors, user_sectors. f_equal.
  assert (Hl : forall s, s ∈ (dir_alist t).*2 -> file_owned d' s = file_owned d s).
  { intros s Hs. destruct (alist_named t s Hwf Hs) as [k Hks]. by apply (Hk k). }
  induction ((dir_alist t).*2) as [|s l IH]; [done|].
  rewrite !bind_cons, IH, Hl; [done|left|intros; apply Hl; by right].
Qed.

Lemma used_inv fs (d : D) bm t k f f' d' :
  fs_small fs d bm t -> opened d t k f -> file_step f d f' d' ->
  fs_small fs d' bm t /\ opened d' t k f'
  /\ fs_view d' t = <[k := af_bytes (file_abs f' d')]> (fs_view d t).
Proof.
  intros Hsm Hop Hst. pose proof Hsm as [Hinv Hsz]. pose proof Hop as [Hk Hh].
  destruct (used_outside fs d bm t k f f' d' Hsm Hop Hst) as (Hsys & Hoth & Hh' & Ho').
  assert (Hsame : forall k' s', dir_map t !! k' = Some s' -> file_owned d' s' = file_owned d s'
    /\ fh_wf (file_hdr d' s') /\ fh_sized (file_hdr d' s') /\ fh_numSectors (file_hdr d' s') <= NumDirect).
  { intros k' s' Hk'. destruct (entry_in_use _ _ _ _ _ _ Hinv Hk') as [Hin' _].
    destruct (inv_hdrs _ _ _ _ Hinv s' Hin') as [Hwf Hfs]. specialize (Hsz k' s' Hk').
    destruct (decide (k' = k)) as [->|Hne].
    - assert (s' = of_hdrSector f) as -> by congruence. rewrite Hh', Ho'. pose proof (step_ok _ _ _ _ Hst) as (_ & Hdf & Hwf' & _).
      unfold fh_sized. rewrite (step_bytes _ _ _ _ Hst), (step_sectors _ _ _ _ Hst), Hh. by destruct Hfs.
    - destruct (file_kept d d' s') as (-> & -> & _); [|done]. intros x. by apply (Hoth k'). }
  assert (Hall : all_sectors fs d' t = all_sectors fs d t).
  { apply all_sectors_files; [apply Hinv|]. intros k' s' Hk'. by apply (Hsame k'). }
  assert (Hd' : sd_valid d') by apply (step_ok _ _ _ _ Hst).
  split_and!.
  - split; [|intros k' s' Hk'; by apply (Hsame k')].
    assert (Hsd : forall g, (forall s, s ∈ direct_sectors (of_hdr g) -> s ∈ data_sectors fs) ->
      file_ok g d -> file_content (of_hdr g) d' = file_content (of_hdr g) d).
    { intros g Hg (_ & Hdf & _). apply file_content_ext; [done|]. intros s Hs%Hg. apply Hsys.
      unfold sys_sectors. rewrite elem_of_app. by right. }
    destruct (inv_map _ _ _ _ Hinv) as [Hmc ?]. destruct (inv_dir _ _ _ _ Hinv) as [Hdc ?].
    apply (inv_rewritten fs d d' bm t); rewrite ?Hall; try apply Hinv; try done.
    + split; [|done]. rewrite Hsd; [done| |apply Hinv]. intros s Hs. apply elem_of_app. by left.
    + split; [|done]. rewrite Hsd; [done| |apply Hinv]. intros s Hs. apply elem_of_app. by right.
    + intros s Hs. apply Hsys, elem_of_app. by left.
    + intros s' Hs'. destruct (alist_named t s') as [k' Hk']; [apply Hinv|done|].
      destruct (Hsame k' s' Hk') as (_ & ? & ? & _). done.
  - split; rewrite (step_sector _ _ _ _ Hst); [done|by symmetry].
  - rewrite (view_insert d d' t t k (of_hdrSector f)); [by rewrite Hh'|by rewrite insert_id|done].
Qed.

(** Opening a file: positioned at the start of the contents the map has. *)
Lemma open_step fs (d : D) bm t e name :
  fs_small fs d bm t -> env_ok e -> is_name name ->
  exists o d', FileSystem_Open e fs d name = Ok (o, d') /\ fs_small fs d' bm t
    /\ fs_view d' t = fs_view d t
    /\ match o with
       | None => fs_view d t !! key name = None
       | Some f => opened d' t (key name) f /\ file_ok f d'
           /\ exists bs, fs_view d t !! key name = Some bs /\ file_abs f d' = mkAFile bs 0
       end.
Proof.
  intros Hsm He Hname. pose proof Hsm as [Hinv Hsz].
  destruct (Open_ok e fs d bm t name He Hinv Hname) as (d1 & -> & Hs1 & Hinv1 & Hf).
  destruct (small_same fs d d1 bm t Hsm Hinv1 Hs1) as [Hsm1 Hv1].
  eexists _, d1. split; [done|]. split; [done|]. split; [done|].
  rewrite <-Hv1, view_lookup. destruct (dir_map t !! key name) as [s|] eqn:Hk; [|done].
  cbn [fmap option_fmap option_map].
  assert (Hh1 : file_hdr d1 s = file_hdr d s).
  { unfold file_hdr. rewrite Hs1; [done|]. by apply (entry_in_use fs d bm t (key name)). }
  split_and!; [split; [done|by symmetry]|apply Hf; [done|by apply (Hsz (key name))]|].
  exists (file_content (file_hdr d1 s) d1). split; [done|]. unfold file_abs. cbn [of_hdr of_seekPosition].
  by rewrite Hh1.
Qed.

Lemma use_step fs (d : D) bm t e name cs :
  fs_small fs d bm t -> fs_call_ok (FsUse e name cs) ->
  exists r d', fs_exec (FsUse e name cs) (fs, d) = Ok (r, (fs, d')) /\ fs_small fs d' bm t
    /\ afs_step (FsUse e name cs) r (fs_view d t) (fs_view d' t).
Proof.
  intros Hsm (He & Hname & Hcs). cbn [fs_exec].
  destruct (open_step fs d bm t e name Hsm He Hname) as (o & d1 & -> & Hsm1 & Hv1 & Ho).
  cbn [mbind result_bind]. rewrite <-Hv1 in *. destruct o as [f|].
  2: { exists (RFile None), d1. split_and!; [done|done|]. by apply afs_use_fails. }
  destruct Ho as (Hop & Hok & bs & Hbs & Ha).
  destruct (file_calls_refine cs f d1 Hok Hcs) as (rs & f' & d' & -> & HA & Hst). cbn [mbind result_bind].
  destruct (used_inv fs d1 bm t (key name) f f' d' Hsm1 Hop Hst) as (Hsm' & _ & Hv').
  exists (RFile (Some rs)), d'. split_and!; [done|done|]. rewrite Hv', Ha in *. by eapply afs_use.
Qed.

Lemma fs_exec_refines c fs (d : D) bm t :
  fs_small fs d bm t -> fs_call_ok c ->
  exists r fs' d' bm' t', fs_exec c (fs, d) = Ok (r, (fs', d')) /\ fs_small fs' d' bm' t'
    /\ afs_step c r (fs_view d t) (fs_view d' t').
Proof.
  intros Hsm Hc. destruct c as [e name n|e name|e name cs|e].
  - destruct (create_step fs d bm t e name n Hsm Hc) as (b & d' & bm' & t' & HC & Hsm' & Hst).
    exists (RBool b), fs, d', bm', t'. cbn [fs_exec]. by rewrite HC.
  - destruct (remove_step fs d bm t e name Hsm Hc) as (b & d' & bm' & t' & HC & Hsm' & Hst).
    exists (RBool b), fs, d', bm', t'. cbn [fs_exec]. by rewrite HC.
  - destruct (use_step fs d bm t e name cs Hsm Hc) as (r & d' & HC & Hsm' & Hst).
    by exists r, fs, d', bm, t.
  - pose proof Hsm as [Hinv Hsz]. destruct (remount_ok e fs d bm t Hinv) as (d' & HR & Hs & Hinv').
    exists RDone, (fs_reopen fs), d', bm, t. cbn [fs_exec]. rewrite HR. split; [done|].
    rewrite (view_same fs d d' bm t Hinv Hs). split; [|constructor]. split; [done|].
    intros k s Hk. apply (small_kept d d' t k s); [|done|done]. intros x Hx. apply Hs.
    destruct (entry_in_use _ _ _ _ _ _ Hinv Hk) as [Hin _]. by apply (file_owned_ok fs d bm t s Hinv Hin).
Qed.

Lemma fs_calls_refine (cs : list fs_call) fs (d : D) bm t :
  fs_small fs d bm t -> Forall fs_call_ok cs ->
  exists rs fs' d' bm' t', run_ops fs_exec cs (fs, d) = Ok (rs, (fs', d')) /\ fs_small fs' d' bm' t'
    /\ afs_run cs rs (fs_view d t) (fs_view d' t').
Proof.
  intros Hsm Hcs. revert fs d bm t Hsm. induction Hcs as [|c cs Hc _ IH]; intros fs d bm t Hsm.
  { exists [], fs, d, bm, t. split_and!; [done|done|constructor]. }
  destruct (fs_exec_refines c fs d bm t Hsm Hc) as (r & fs1 & d1 & bm1 & t1 & HE & Hsm1 & Hst).
  destruct (IH fs1 d1 bm1 t1 Hsm1) as (rs & fs2 & d2 & bm2 & t2 & HE2 & Hsm2 & Hrun).
  exists (r :: rs), fs2, d2, bm2, t2. cbn [run_ops]. rewrite HE. cbn [mbind result_bind]. rewrite HE2.
  split_and!; [done|done|]. by eapply afs_run_cons.
Qed.

(** C9.  The file system is a map from names, cut to 11 characters, to byte arrays.  From a freshly formatted
    disk on, for every sequence of creations (of at most 14 sectors), removals, uses of a
    file (open it, any sequence of seeks, reads and writes, close it) and restarts of
    Nachos, no operation faults, every reply is the one the map gives - a creation
    succeeds exactly when the name is new, fewer than ten files exist and the 1019 sectors
    left by the system files suffice - and the contents of all files on disk are those of
    the map: in particular no call changes a file it does not name. *)
Theorem fs_refines_map (e : call_env) (d : D) (cs : list fs_call) :
  env_ok e -> sd_valid d -> Forall fs_call_ok cs ->
  exists fs d0 rs fs' d' bm' t', FileSystem_new e d true = Ok (fs, d0)
    /\ run_ops fs_exec cs (fs, d0) = Ok (rs, (fs', d'))
    /\ fs_small fs' d' bm' t' /\ afs_run cs rs ∅ (fs_view d' t').
Proof.
  intros He Hd Hcs. destruct (format_ok e d He Hd) as (fs & d0 & bm & t & HF & Hinv & Hm & _).
  assert (Hsm : fs_small fs d0 bm t) by (split; [done|]; rewrite Hm; done).
  destruct (fs_calls_refine cs fs d0 bm t Hsm Hcs) as (rs & fs' & d' & bm' & t' & HR & Hsm' & Hrun).
  exists fs, d0, rs, fs', d', bm', t'. split_and!; try done.
  unfold fs_view in Hrun at 1. by rewrite Hm, fmap_empty in Hrun.
Qed.
End View.

(** A session: create two files, write one, restart, read it, remove it. *)
Definition name_b : list Z := [98].

Definition sample_session : list fs_call :=
  [FsCreate blank_env [97] 300; FsCreate blank_env name_b 10; FsCreate blank_env [97] 5;
   FsUse blank_env [97] [FSeek 125; FWrite [] [49] (replicate 6 7) 6];
   FsRestart blank_env; FsUse blank_env [97] [FSeek 124; FRead [] 4];
   FsUse blank_env [99] [FLength]; FsRemove blank_env [97]; FsUse blank_env [97] [FLength]].

Lemma sample_session_ok : Forall fs_call_ok sample_session.
Proof.
  assert (forall n, 0 < n < 256 -> is_name [n]) as Hn by (intros; repeat constructor; lia).
  repeat (apply Forall_cons; split; [split_and!; try apply blank_env_ok; try apply Hn; try done;
    repeat constructor; done|]). constructor.
Qed.

Lemma fs_refines_map_witness :
  exists fs d0 rs fs' d' bm' t', FileSystem_new blank_env (∅ : gmap Z (list Z)) true = Ok (fs, d0)
    /\ run_ops fs_exec sample_session (fs, d0) = Ok (rs, (fs', d'))
    /\ fs_small fs' d' bm' t' /\ afs_run sample_session rs ∅ (fs_view d' t').
Proof. exact (fs_refines_map blank_env ∅ sample_session blank_env_ok empty_disk_valid sample_session_ok). Defined.

Example sample_session_run :
  ('(fs, d) ← boot; '(rs, _) ← run_ops fs_exec sample_session (fs, d); Ok rs)
  = Ok [RBool true; RBool true; RBool false; RFile (Some [FNum 0; FNum 6]); RDone;
        RFile (Some [FNum 0; FData [0; 7; 7; 7]]); RFile None; RBool true; RFile None].
Proof. vm_compute. reflexivity. Qed.
