(* ===== verification/FsTest.v ===== *)
(** * filesys/fstest.cc: the clients of the file system

    [Copy] (a Unix file into Nachos), [Print] (a Nachos file to the console) and
    [PerformanceTest].  The Unix file is the list of its bytes, [None] when [fopen] fails.
    The memory [new] returns inside [WriteAt] and the time of day are functions of the
    number of the call. *)

From S2P Require Import Prelude BitMap Disk FileHdr OpenFile Directory FileSys FsMap.

Definition TransferSize : Z := 10.

Record io_env := mkIo { io_heap : nat -> list Z; io_time : nat -> list Z }.

Definition io_ok (io : io_env) : Prop :=
  forall i, Forall is_byte (io_heap io i) /\ Forall is_byte (io_time io i).

(** [fread(buffer, 1, n, fp)]: the bytes read and the rest of the Unix file. *)
Definition fread (fp : list Z) (n : Z) : list Z * list Z := (take (Z.to_nat n) fp, drop (Z.to_nat n) fp).

(** The messages of [Copy] on its way out. *)
Inductive copy_result := CopyNoInput | CopyNoCreate | CopyDone.

(** The messages of the performance test. *)
Inductive perf_result := PerfNoCreate | PerfNoOpen | PerfNoWrite | PerfNoRead | PerfDone.

Definition FileName : list Z := [84; 101; 115; 116; 70; 105; 108; 101].
Definition Contents : list Z := [49; 50; 51; 52; 53; 54; 55; 56; 57; 48].
Definition ContentSize : Z := Z.of_nat (length Contents).
Definition FileSize : Z := ContentSize * 5000.

(** [strncmp(a, b, n) != 0] for strings of at least [n] characters without a null. *)
Definition strncmp_ne (a b : list Z) (n : Z) : bool :=
  bool_decide (take (Z.to_nat n) a <> take (Z.to_nat n) b).

Section Device.
Context {D : Type} `{SectorDevice D}.

(** [while ((amountRead = fread(...)) > 0) openFile->Write(buffer, amountRead)] *)
Fixpoint copy_loop (fuel i : nat) (io : io_env) (fp : list Z) (f : OpenFile) (d : D) : result (OpenFile * D) :=
  match fuel with
  | O => Err OutOfFuel
  | S fuel =>
      let '(buffer, fp) := fread fp TransferSize in
      let amountRead := Z.of_nat (length buffer) in
      if 0 <? amountRead then
        '(_, f, d) ← OpenFile_Write (io_heap io i) (io_time io i) f d buffer amountRead;
        copy_loop fuel (S i) io fp f d
      else Ok (f, d)
  end.

Definition Copy (fuel : nat) (io : io_env) (e1 e2 : call_env) (fs : FileSystem) (d : D)
    (from : option (list Z)) (to : list Z) : result (copy_result * D) :=
  match from with
  | None => Ok (CopyNoInput, d)
  | Some fp =>
      let fileLength := i32 (Z.of_nat (length fp)) in
      '(ok, d) ← FileSystem_Create e1 fs d to fileLength;
      if negb ok then Ok (CopyNoCreate, d)
      else
        '(openFile, d) ← FileSystem_Open e2 fs d to;
        ASSERT (bool_decide (is_Some openFile)) ;;
        openFile ← deref openFile;
        '(_, d) ← copy_loop fuel 0 io fp openFile d;
        Ok (CopyDone, d)
  end.

(** [while ((amountRead = openFile->Read(...)) > 0)]: the characters printed. *)
Fixpoint print_loop (fuel i : nat) (io : io_env) (f : OpenFile) (d : D) : result (list Z * D) :=
  match fuel with
  | O => Err OutOfFuel
  | S fuel =>
      '(buffer, f, d) ← OpenFile_Read (io_time io i) f d TransferSize;
      if 0 <? Z.of_nat (length buffer) then
        '(out, d) ← print_loop fuel (S i) io f d; Ok (buffer ++ out, d)
      else Ok ([], d)
  end.

(** [None]: "unable to open file". *)
Definition Print (fuel : nat) (io : io_env) (e : call_env) (fs : FileSystem) (d : D) (name : list Z)
    : result (option (list Z) * D) :=
  '(openFile, d) ← FileSystem_Open e fs d name;
  match openFile with
  | None => Ok (None, d)
  | Some f => '(out, d) ← print_loop fuel 0 io f d; Ok (Some out, d)
  end.

(** [for (i = 0; i < FileSize; i += ContentSize)]; [n] rounds are left. *)
Fixpoint file_write_loop (n i : nat) (io : io_env) (f : OpenFile) (d : D) : result (perf_result * D) :=
  match n with
  | O => Ok (PerfDone, d)
  | S n =>
      '(numBytes, f, d) ← OpenFile_Write (io_heap io i) (io_time io i) f d Contents ContentSize;
      if numBytes <? 10 then Ok (PerfNoWrite, d) else file_write_loop n (S i) io f d
  end.

Definition FileWrite (io : io_env) (e1 e2 : call_env) (fs : FileSystem) (d : D) : result (perf_result * D) :=
  '(ok, d) ← FileSystem_Create e1 fs d FileName 0;
  if negb ok then Ok (PerfNoCreate, d)
  else
    '(openFile, d) ← FileSystem_Open e2 fs d FileName;
    match openFile with
    | None => Ok (PerfNoOpen, d)
    | Some f => file_write_loop (Z.to_nat (FileSize `quot` ContentSize)) 0 io f d
    end.

Fixpoint file_read_loop (n i : nat) (io : io_env) (f : OpenFile) (d : D) : result (perf_result * D) :=
  match n with
  | O => Ok (PerfDone, d)
  | S n =>
      '(buffer, f, d) ← OpenFile_Read (io_time io i) f d ContentSize;
      if (Z.of_nat (length buffer) <? 10) || strncmp_ne buffer Contents ContentSize
      then Ok (PerfNoRead, d) else file_read_loop n (S i) io f d
  end.

Definition FileRead (io : io_env) (e : call_env) (fs : FileSystem) (d : D) : result (perf_result * D) :=
  '(openFile, d) ← FileSystem_Open e fs d FileName;
  match openFile with
  | None => Ok (PerfNoOpen, d)
  | Some f => file_read_loop (Z.to_nat (FileSize `quot` ContentSize)) 0 io f d
  end.

(** The messages of the two halves, and whether the file could be removed. *)
Definition PerformanceTest (io1 io2 : io_env) (e1 e2 e3 e4 : call_env) (fs : FileSystem) (d : D)
    : result (perf_result * perf_result * bool * D) :=
  '(w, d) ← FileWrite io1 e1 e2 fs d;
  '(r, d) ← FileRead io2 e3 fs d;
  '(ok, d) ← FileSystem_Remove e4 fs d FileName;
  Ok (w, r, ok, d).

(** ** The loops against the array *)

(** [pre] is written, [fp] is still to come. *)
Lemma copy_loop_ok io fuel : io_ok io -> forall i fp (f : OpenFile) (d : D) pre g,
  file_ok f d -> Forall is_byte fp -> (length fp + 10 <= 10 * fuel)%nat ->
  file_abs f d = mkAFile (pre ++ g) (Z.of_nat (length pre)) -> length g = length fp ->
  exists f' d', copy_loop fuel i io fp f d = Ok (f', d') /\ file_step f d f' d'
    /\ af_bytes (file_abs f' d') = pre ++ fp.
Proof.
  intros Hio. induction fuel as [|fuel IH]; intros i fp f d pre g Hok Hb Hfuel Ha Hg; [lia|].
  cbn [copy_loop fread]. change (Z.to_nat TransferSize) with 10%nat.
  destruct (Z.ltb_spec 0 (Z.of_nat (length (take 10 fp)))) as [Hpos|Hzero].
  2: { rewrite length_take in Hzero. destruct fp; [|cbn in Hzero; lia]. destruct g; [|done].
       exists f, d. split_and!; [done|by apply file_step_refl|]. by rewrite Ha. }
  destruct (Hio i) as [Hheap Htime]. pose proof Ha as Hseek. unfold file_abs in Hseek.
  injection Hseek as _ Hseek. rewrite length_take in Hpos.
  assert (Hc : call_ok (FWrite (io_heap io i) (io_time io i) (take 10 fp) (Z.of_nat (length (take 10 fp))))).
  { cbn [call_ok]. rewrite length_take. split_and!; try done; [lia|by apply Forall_take]. }
  destruct (Write_refines _ _ _ _ f d Hok Hc) as (f1 & d1 & -> & Hst & Ha1). cbn [mbind result_bind].
  assert (Hr : af_room (file_abs f d) (Z.of_nat (length (take 10 fp))) (of_seekPosition f)
    = Z.of_nat (length (take 10 fp))).
  { rewrite Ha, Hseek. unfold af_room. cbn [af_bytes]. rewrite length_app, length_take. lia. }
  assert (Hw : af_write (file_abs f d) (take 10 fp) (Z.of_nat (length (take 10 fp))) (of_seekPosition f)
    = (pre ++ take 10 fp) ++ drop 10 g).
  { unfold af_write. rewrite Hr, Ha, Hseek, !Nat2Z.id, (take_ge (take 10 fp)) by done. cbn [af_bytes].
    rewrite <-(take_drop 10 g) at 1. rewrite <-(assoc_L (++)). apply splice_middle; [done|].
    rewrite !length_take. lia. }
  rewrite Hr, Hw in Ha1.
  destruct (IH (S i) (drop 10 fp) f1 d1 (pre ++ take 10 fp) (drop 10 g)) as (f2 & d2 & -> & Hst2 & Hc2).
  - apply Hst.
  - by apply Forall_drop.
  - rewrite length_drop. lia.
  - rewrite Ha1, Hseek, length_app. f_equal. lia.
  - rewrite !length_drop. lia.
  - exists f2, d2. split_and!; [done|exact (file_step_trans _ _ _ _ _ _ Hst Hst2)|].
    by rewrite Hc2, <-(assoc_L (++)), take_drop.
Qed.

Lemma print_loop_ok io fuel : io_ok io -> forall i (f : OpenFile) (d : D) pre post,
  file_ok f d -> (length post + 10 <= 10 * fuel)%nat ->
  file_abs f d = mkAFile (pre ++ post) (Z.of_nat (length pre)) ->
  exists f' d', print_loop fuel i io f d = Ok (post, d') /\ file_step f d f' d'
    /\ af_bytes (file_abs f' d') = pre ++ post.
Proof.
  intros Hio. induction fuel as [|fuel IH]; intros i f d pre post Hok Hfuel Ha; [lia|].
  cbn [print_loop]. destruct (Hio i) as [_ Htime].
  destruct (Read_refines (io_time io i) TransferSize f d Hok) as (f1 & d1 & -> & Hst & Ha1); [done|done|].
  cbn [mbind result_bind]. pose proof Ha as Hseek. unfold file_abs in Hseek. injection Hseek as Hcont Hseek.
  assert (Hr : af_read (file_abs f d) TransferSize (of_seekPosition f) = take 10 post).
  { rewrite Ha, Hseek. unfold af_read, slice. cbn [af_bytes]. rewrite Nat2Z.id, drop_app_length. done. }
  rewrite Hr, Hcont, Hseek in *.
  destruct (Z.ltb_spec 0 (Z.of_nat (length (take 10 post)))) as [Hpos|Hzero].
  - rewrite length_take in Hpos.
    destruct (IH (S i) f1 d1 (pre ++ take 10 post) (drop 10 post)) as (f2 & d2 & -> & Hst2 & Hc2).
    + apply Hst.
    + rewrite length_drop. lia.
    + rewrite Ha1, <-(assoc_L (++)), take_drop, length_app. f_equal. lia.
    + cbn [mbind result_bind]. exists f2, d2. rewrite <-(assoc_L (++)), take_drop in Hc2.
      rewrite take_drop. split_and!; [done|exact (file_step_trans _ _ _ _ _ _ Hst Hst2)|done].
  - rewrite length_take in Hzero. destruct post; [|cbn in Hzero; lia].
    exists f1, d1. split_and!; [done|done|]. by rewrite Ha1.
Qed.

(** ** The commands *)

Definition enough_fuel (fuel : nat) (bytes : list Z) : Prop := (length bytes + 10 <= 10 * fuel)%nat.

Lemma Print_ok fuel io e fs (d : D) bm t name :
  fs_small fs d bm t -> env_ok e -> io_ok io -> is_name name ->
  (forall bs, fs_view d t !! key name = Some bs -> enough_fuel fuel bs) ->
  exists d', Print fuel io e fs d name = Ok (fs_view d t !! key name, d')
    /\ fs_small fs d' bm t /\ fs_view d' t = fs_view d t.
Proof.
  intros Hsm He Hio Hname Hfuel. unfold Print.
  destruct (open_step fs d bm t e name Hsm He Hname) as (o & d1 & -> & Hsm1 & Hv1 & Ho).
  cbn [mbind result_bind]. destruct o as [f|]; [|rewrite Ho; by exists d1].
  destruct Ho as (Hop & Hok & bs & Hbs & Ha).
  destruct (print_loop_ok io fuel Hio 0 f d1 [] bs Hok (Hfuel bs Hbs) Ha) as (f' & d' & -> & Hst & Hc).
  cbn [mbind result_bind]. destruct (used_inv fs d1 bm t (key name) f f' d' Hsm1 Hop Hst) as (Hsm' & _ & Hv').
  exists d'. rewrite Hbs. split_and!; [done|done|]. rewrite Hv', Hc, Hv1. by apply insert_id.
Qed.

(** Creating a file and writing all of it. *)
Lemma Copy_ok fuel io e1 e2 fs (d : D) bm t fp to :
  fs_small fs d bm t -> env_ok e1 -> env_ok e2 -> io_ok io -> is_name to ->
  Forall is_byte fp -> Z.of_nat (length fp) <= NumDirect * SectorSize -> enough_fuel fuel fp ->
  exists r d' bm' t', Copy fuel io e1 e2 fs d (Some fp) to = Ok (r, d') /\ fs_small fs d' bm' t'
    /\ ((afs_room (fs_view d t) to (Z.of_nat (length fp)) /\ r = CopyDone
          /\ fs_view d' t' = <[key to := fp]> (fs_view d t))
        \/ (~ afs_room (fs_view d t) to (Z.of_nat (length fp)) /\ r = CopyNoCreate
          /\ fs_view d' t' = fs_view d t)).
Proof.
  intros Hsm He1 He2 Hio Hname Hb Hlen Hfuel. unfold Copy.
  change (NumDirect * SectorSize) with 1792 in Hlen. rewrite i32_id by (unfold in_i32; lia).
  destruct (create_step fs d bm t e1 to (Z.of_nat (length fp)) Hsm) as (b & d1 & bm1 & t1 & -> & Hsm1 & Hst);
    [split_and!; done || (change (NumDirect * SectorSize) with 1792; lia)|].
  cbn [mbind result_bind].
  destruct (afs_create_inv _ _ _ _ _ _ Hst) as [(-> & Hroom & bs & Hbs & Hv1)|(-> & Hno & Hv1)]; cbn [negb].
  2: { exists CopyNoCreate, d1, bm1, t1. split_and!; [done|done|]. right. by split_and!. }
  destruct (open_step fs d1 bm1 t1 e2 to Hsm1 He2 Hname) as (o & d2 & -> & Hsm2 & Hv2 & Ho).
  cbn [mbind result_bind]. rewrite Nat2Z.id in Hbs.
  assert (Hlk : fs_view d1 t1 !! key to = Some bs) by by rewrite Hv1, lookup_insert_eq.
  destruct o as [f|]; [|congruence]. destruct Ho as (Hop & Hok & bs' & Hbs' & Ha). simplify_eq.
  rewrite ASSERT_true by (by apply bool_decide_eq_true). cbn [mbind result_bind deref].
  destruct (copy_loop_ok io fuel Hio 0 fp f d2 [] bs' Hok Hb Hfuel Ha Hbs) as (f' & d' & -> & Hst' & Hc).
  cbn [mbind result_bind].
  destruct (used_inv fs d2 bm1 t1 (key to) f f' d' Hsm2 Hop Hst') as (Hsm' & _ & Hv').
  exists CopyDone, d', bm1, t1. split_and!; [done|done|]. left. split_and!; [done|done|].
  by rewrite Hv', Hc, Hv2, Hv1, insert_insert_eq.
Qed.

(** C13.  [Copy] and [Print] are inverse.  On a file system whose files have at most
    14 sectors, copying a Unix file of at most 14 sectors (1792 bytes) to a new
    name, with room for it, leaves exactly its bytes under that name and every other
    file as it was, and [Print] then prints exactly these bytes and changes no file.
    Without room nothing changes.  Both loops end: one round per ten bytes and one
    more. *)
Theorem Copy_Print_roundtrip (fuel : nat) (io io' : io_env) (e1 e2 e3 : call_env) (fs : FileSystem) (d : D) bm t
    (fp to : list Z) :
  fs_small fs d bm t -> env_ok e1 -> env_ok e2 -> env_ok e3 -> io_ok io -> io_ok io' -> is_name to ->
  Forall is_byte fp -> Z.of_nat (length fp) <= NumDirect * SectorSize -> enough_fuel fuel fp ->
  exists r d1 bm1 t1, Copy fuel io e1 e2 fs d (Some fp) to = Ok (r, d1) /\ fs_small fs d1 bm1 t1
    /\ ((afs_room (fs_view d t) to (Z.of_nat (length fp)) /\ r = CopyDone
          /\ fs_view d1 t1 = <[key to := fp]> (fs_view d t)
          /\ exists d2, Print fuel io' e3 fs d1 to = Ok (Some fp, d2) /\ fs_small fs d2 bm1 t1
               /\ fs_view d2 t1 = fs_view d1 t1)
        \/ (~ afs_room (fs_view d t) to (Z.of_nat (length fp)) /\ r = CopyNoCreate
          /\ fs_view d1 t1 = fs_view d t)).
Proof.
  intros Hsm He1 He2 He3 Hio Hio' Hname Hb Hlen Hfuel.
  destruct (Copy_ok fuel io e1 e2 fs d bm t fp to) as (r & d1 & bm1 & t1 & HC & Hsm1 & Hcase); try done.
  exists r, d1, bm1, t1. split_and!; [done|done|]. destruct Hcase as [(Hr & -> & Hv)|Hno]; [left|by right].
  assert (Hlk : fs_view d1 t1 !! key to = Some fp) by by rewrite Hv, lookup_insert_eq.
  split_and!; [done|done|done|].
  destruct (Print_ok fuel io' e3 fs d1 bm1 t1 to) as (d2 & HP & Hsm2 & Hv2); try done.
  { intros bs. rewrite Hlk. by intros [= <-]. }
  exists d2. by rewrite HP, Hlk.
Qed.

(** The first [Write] to the empty file transfers nothing and the loop gives up; so does
    the first [Read]. *)
Lemma file_write_loop_empty n i io (f : OpenFile) (d : D) :
  file_ok f d -> io_ok io -> file_abs f d = mkAFile [] 0 ->
  exists f' d', file_write_loop (S n) i io f d = Ok (PerfNoWrite, d') /\ file_step f d f' d'
    /\ file_abs f' d' = mkAFile [] 0.
Proof.
  intros Hok Hio Ha. cbn [file_write_loop]. destruct (Hio i) as [Hh Ht].
  pose proof Ha as Hseek. unfold file_abs in Hseek. injection Hseek as _ Hseek.
  destruct (Write_refines (io_heap io i) (io_time io i) Contents ContentSize f d Hok) as (f' & d' & -> & Hst & Ha').
  { split_and!; try done. repeat constructor; done. }
  cbn [mbind result_bind]. rewrite Ha, Hseek in *. exists f', d'. split_and!; done.
Qed.

Lemma file_read_loop_empty n i io (f : OpenFile) (d : D) :
  file_ok f d -> io_ok io -> file_abs f d = mkAFile [] 0 ->
  exists f' d', file_read_loop (S n) i io f d = Ok (PerfNoRead, d') /\ file_step f d f' d'
    /\ file_abs f' d' = mkAFile [] 0.
Proof.
  intros Hok Hio Ha. cbn [file_read_loop]. destruct (Hio i) as [Hh Ht].
  pose proof Ha as Hseek. unfold file_abs in Hseek. injection Hseek as Hc Hseek.
  destruct (Read_refines (io_time io i) ContentSize f d Hok) as (f' & d' & -> & Hst & Ha'); [done|done|].
  cbn [mbind result_bind]. rewrite Ha, Hseek, Hc in *. exists f', d'. split_and!; done.
Qed.

Lemma perf_rounds : exists n, Z.to_nat (FileSize `quot` ContentSize) = S n.
Proof. exists 4999%nat. reflexivity. Qed.

Lemma FileName_ok : is_name FileName.
Proof. repeat constructor; done. Qed.

Lemma FileWrite_ok io e1 e2 fs (d : D) bm t :
  fs_small fs d bm t -> env_ok e1 -> env_ok e2 -> io_ok io -> afs_room (fs_view d t) FileName 0 ->
  exists d' bm' t', FileWrite io e1 e2 fs d = Ok (PerfNoWrite, d') /\ fs_small fs d' bm' t'
    /\ fs_view d' t' = <[key FileName := []]> (fs_view d t).
Proof.
  intros Hsm He1 He2 Hio Hroom. unfold FileWrite.
  destruct (create_step fs d bm t e1 FileName 0 Hsm) as (b & d1 & bm1 & t1 & -> & Hsm1 & Hst);
    [split_and!; done || apply FileName_ok|]. cbn [mbind result_bind].
  destruct (afs_create_inv _ _ _ _ _ _ Hst) as [(-> & _ & bs & Hbs & Hv1)|(_ & Hno & _)]; [|done].
  destruct bs; [|done]. cbn [negb].
  destruct (open_step fs d1 bm1 t1 e2 FileName Hsm1 He2 FileName_ok) as (o & d2 & -> & Hsm2 & Hv2 & Ho).
  cbn [mbind result_bind]. rewrite Hv1, lookup_insert_eq in Ho. destruct o as [f|]; [|done].
  destruct Ho as (Hop & Hok & bs & [= <-] & Ha). destruct perf_rounds as [n ->].
  destruct (file_write_loop_empty n 0 io f d2 Hok Hio Ha) as (f' & d' & -> & Hst' & Ha').
  destruct (used_inv fs d2 bm1 t1 (key FileName) f f' d' Hsm2 Hop Hst') as (Hsm' & _ & Hv').
  exists d', bm1, t1. split_and!; [done|done|]. by rewrite Hv', Ha', Hv2, Hv1, insert_insert_eq.
Qed.

Lemma FileRead_ok io e fs (d : D) bm t :
  fs_small fs d bm t -> env_ok e -> io_ok io -> fs_view d t !! key FileName = Some [] ->
  exists d', FileRead io e fs d = Ok (PerfNoRead, d') /\ fs_small fs d' bm t /\ fs_view d' t = fs_view d t.
Proof.
  intros Hsm He Hio Hlk. unfold FileRead.
  destruct (open_step fs d bm t e FileName Hsm He FileName_ok) as (o & d1 & -> & Hsm1 & Hv1 & Ho).
  cbn [mbind result_bind]. rewrite Hlk in Ho. destruct o as [f|]; [|done].
  destruct Ho as (Hop & Hok & bs & [= <-] & Ha). destruct perf_rounds as [n ->].
  destruct (file_read_loop_empty n 0 io f d1 Hok Hio Ha) as (f' & d' & -> & Hst' & Ha').
  destruct (used_inv fs d1 bm t (key FileName) f f' d' Hsm1 Hop Hst') as (Hsm' & _ & Hv').
  exists d'. split_and!; [done|done|]. rewrite Hv', Ha', Hv1. by apply insert_id.
Qed.

(** The performance test never transfers a byte: the file is created empty and files do
    not grow, so the first write and the first read give up.  The test then removes the
    file and leaves all files as they were. *)
Theorem PerformanceTest_gives_up (io1 io2 : io_env) (e1 e2 e3 e4 : call_env) (fs : FileSystem) (d : D) bm t :
  fs_small fs d bm t -> env_ok e1 -> env_ok e2 -> env_ok e3 -> env_ok e4 -> io_ok io1 -> io_ok io2 ->
  afs_room (fs_view d t) FileName 0 ->
  exists d' bm' t', PerformanceTest io1 io2 e1 e2 e3 e4 fs d = Ok (PerfNoWrite, PerfNoRead, true, d')
    /\ fs_small fs d' bm' t' /\ fs_view d' t' = fs_view d t.
Proof.
  intros Hsm He1 He2 He3 He4 Hio1 Hio2 Hroom. unfold PerformanceTest.
  destruct (FileWrite_ok io1 e1 e2 fs d bm t) as (d1 & bm1 & t1 & -> & Hsm1 & Hv1); try done.
  cbn [mbind result_bind].
  assert (Hlk : fs_view d1 t1 !! key FileName = Some []) by by rewrite Hv1, lookup_insert_eq.
  destruct (FileRead_ok io2 e3 fs d1 bm1 t1) as (d2 & -> & Hsm2 & Hv2); try done. cbn [mbind result_bind].
  destruct (remove_step fs d2 bm1 t1 e4 FileName Hsm2) as (b & d3 & bm3 & t3 & -> & Hsm3 & Hst);
    [split; [done|apply FileName_ok]|]. cbn [mbind result_bind].
  inversion Hst as [| |? ? bs ? Hbs Hb Hr Hm Hv3|? ? ? Hnone| | |]; subst; [|congruence].
  exists d3, bm3, t3. split_and!; [done|done|]. rewrite <-Hv3, Hv2, Hv1. apply delete_insert_id, Hroom.
Qed.
End Device.

(** ** Concrete instances *)

Definition blank_io : io_env := mkIo (fun _ => []) (fun _ => []).

Lemma blank_io_ok : io_ok blank_io.
Proof. split; constructor. Qed.

Lemma boot_small : exists fs (d : gmap Z (list Z)) bm t, boot = Ok (fs, d) /\ fs_small fs d bm t /\ fs_view d t = ∅.
Proof.
  destruct boot_ok as (fs & d & bm & t & HB & Hinv & Hm & _). exists fs, d, bm, t.
  split_and!; [done|split; [done|]; by rewrite Hm|]. unfold fs_view. by rewrite Hm, fmap_empty.
Qed.

Definition sample_bytes : list Z := seqZ 0 137.

Lemma Copy_Print_roundtrip_witness :
  exists fs (d d1 d2 : gmap Z (list Z)),
    Copy 15 blank_io blank_env blank_env fs d (Some sample_bytes) [97] = Ok (CopyDone, d1)
    /\ Print 15 blank_io blank_env fs d1 [97] = Ok (Some sample_bytes, d2).
Proof.
  destruct boot_small as (fs & d & bm & t & _ & Hsm & Hv).
  destruct (Copy_Print_roundtrip 15 blank_io blank_io blank_env blank_env blank_env fs d bm t sample_bytes [97])
    as (r & d1 & bm1 & t1 & HC & _ & Hcase); try apply blank_env_ok; try apply blank_io_ok; try done.
  - apply name_a.
  - apply Forall_forall. intros x Hx%elem_of_seqZ. unfold is_byte. lia.
  - unfold enough_fuel. apply Nat.leb_le. reflexivity.
  - destruct Hcase as [(_ & -> & _ & d2 & HP & _)|(Hno & _)].
    + by exists fs, d, d1, d2.
    + exfalso. apply Hno. rewrite Hv. split_and!; [done|apply Nat.ltb_lt; done|apply Nat.leb_le; done].
Defined.

Example copy_runs :
  ('(fs, d) ← boot;
   '(r, d) ← Copy 15 blank_io blank_env blank_env fs d (Some sample_bytes) [97];
   '(r2, d) ← Copy 15 blank_io blank_env blank_env fs d (Some [1]) [97];
   '(w, rd, gone, d) ← PerformanceTest blank_io blank_io blank_env blank_env blank_env blank_env fs d;
   '(out, d) ← Print 15 blank_io blank_env fs d [97];
   Ok (r, r2, w, rd, gone, out))
  = Ok (CopyDone, CopyNoCreate, PerfNoWrite, PerfNoRead, true, Some sample_bytes).
Proof. vm_compute. reflexivity. Qed.
