(* ===== verification/FsPrint.v ===== *)
(** * What the file system prints

    [FileHeader::Print] (filesys/filehdr.cc), [BitMap::Print] (userprog/bitmap.cc),
    [Directory::Print] (filesys/directory.cc) and [FileSystem::Print] (filesys/filesys.cc), the
    text of nachos -D.  Printing reads sectors, so it passes the device on. *)

From Stdlib Require Import Ascii.
From S2P Require Import Prelude Text BitMap Disk FileHdr OpenFile Directory FileSys.

Local Open Scope string_scope.
Local Open Scope Z_scope.

(** [data[j]] is a [char]; what is not printable is shown as a hexadecimal number behind a backslash. *)
Definition printed_byte (b : Z) : string :=
  if (32 <=? i8 b) && (i8 b <=? 126) then printf "%c" [Num b] else printf "\%x" [Num b].

(** The loop over the bytes of a sector; [k] bytes of the file have been printed before. *)
Fixpoint print_bytes (data : list Z) (k numBytes : Z) : string * Z :=
  match data with
  | [] => ("", k)
  | b :: data =>
      if k <? numBytes then let '(s, k) := print_bytes data (k + 1) numBytes in (printed_byte b +:+ s, k) else ("", k)
  end.

(** Numbers of sectors. *)
Definition numbers_text (l : list Z) : string := foldr (fun n s => printf "%d " [Num n] +:+ s) "" l.

(** The entries of the index sector, read as characters. *)
Fixpoint index_numbers (slots : nat) (i count : Z) (direct_first : list Z) : result (list Z) :=
  if count <=? i then Ok []
  else match slots with
       | O => Err MemFault
       | S slots => s ← index_entry direct_first i; rest ← index_numbers slots (i + 1) count direct_first; Ok (s :: rest)
       end.

Section Device.
Context {D : Type} `{SectorDevice D}.

Fixpoint print_direct (secs : list Z) (numBytes k : Z) (d : D) : result (string * Z * D) :=
  match secs with
  | [] => Ok ("", k, d)
  | s :: secs =>
      '(data, d) ← sd_read d s;
      let '(t, k) := print_bytes data k numBytes in
      '(rest, k, d) ← print_direct secs numBytes k d;
      Ok (t +:+ (newline +:+ rest), k, d)
  end.

Fixpoint print_index (slots : nat) (i count : Z) (direct_first : list Z) (numBytes k : Z) (d : D) : result (string * D) :=
  if count <=? i then Ok ("", d)
  else match slots with
       | O => Err MemFault
       | S slots =>
           s ← index_entry direct_first i;
           '(data, d) ← sd_read d s;
           let '(t, k) := print_bytes data k numBytes in
           '(rest, d) ← print_index slots (i + 1) count direct_first numBytes k d;
           Ok (printf ("Sector:[%d]" +:+ newline) [Num s] +:+ (t +:+ rest), d)
       end.

(** [FileHeader::Print] *)
Definition FileHeader_Print (h : FileHeader) (d : D) : result (string * D) :=
  let direct := take (Z.to_nat (needDirect (fh_numSectors h))) (fh_dataSectors h) in
  let count := u32 (fh_numSectors h - NumDirect) in
  '(out2, d) ← (if needs_index (fh_numSectors h) then
                  index ← deref (fh_dataSectors h !! Z.to_nat NumDirect);
                  '(direct_first, d) ← sd_read d index;
                  secs ← index_numbers 32 0 count direct_first;
                  Ok (printf (newline +:+ ("direct_first:[%d]" +:+ newline)) [Num index] +:+ numbers_text secs, d)
                else Ok ("", d));
  '(out3, k, d) ← print_direct direct (fh_numBytes h) 0 d;
  '(out4, d) ← (if needs_index (fh_numSectors h) then
                  index ← deref (fh_dataSectors h !! Z.to_nat NumDirect);
                  '(direct_first, d) ← sd_read d index;
                  '(out, d) ← print_index 32 0 count direct_first (fh_numBytes h) k d;
                  Ok (out +:+ newline, d)
                else Ok ("", d));
  Ok (printf ("FileHeader contents.  File size: %d.  File blocks:" +:+ newline) [Num (fh_numBytes h)]
      +:+ (numbers_text direct +:+ (out2 +:+ ((newline +:+ ("File contents:" +:+ newline)) +:+ (out3 +:+ out4)))), d).

(** A string that ends at the first null. *)
Fixpoint c_text (bs : list Z) : string :=
  match bs with [] => "" | b :: bs => if b =? 0 then "" else printf "%c" [Num b] +:+ c_text bs end.

Definition entry_line (e : DirectoryEntry) : string :=
  printf ("isDirectory:[%d], Name:[%s], hdrSector:[%d]" +:+ newline) [Num (de_inUse e); Str (c_text (de_name e)); Num (de_sector e)].

Fixpoint print_entries (t : Directory) (d : D) : result (string * D) :=
  match t with
  | [] => Ok ("", d)
  | e :: t =>
      if used e then
        '(hdr, d) ← FileHeader_FetchFrom d (de_sector e);
        '(s, d) ← FileHeader_Print hdr d;
        '(rest, d) ← print_entries t d;
        Ok (entry_line e +:+ (s +:+ rest), d)
      else print_entries t d
  end.

(** [Directory::Print] *)
Definition Directory_Print (t : Directory) (d : D) : result (string * D) :=
  '(s, d) ← print_entries t d; Ok (("Directory contents:" +:+ newline) +:+ (s +:+ newline), d).

(** The text of [BitMap::Print]. *)
Definition bits_text (bits : list Z) : string :=
  ("Bitmap set:" +:+ newline) +:+ (foldr (fun i s => printf "%d, " [Num i] +:+ s) newline bits).

(** [FileSystem::Print] *)
Definition FileSystem_Print (e : call_env) (fs : FileSystem) (d : D) : result (string * D) :=
  freeMap ← BitMap_new (ce_words e) NumSectors;
  '(bitHdr, d) ← FileHeader_FetchFrom d FreeMapSector;
  '(out1, d) ← FileHeader_Print bitHdr d;
  '(dirHdr, d) ← FileHeader_FetchFrom d DirectorySector;
  '(out2, d) ← FileHeader_Print dirHdr d;
  '(freeMap, d) ← BitMap_FetchFrom freeMap (fs_freeMapFile fs) d;
  bits ← BitMap_Print freeMap;
  '(directory, d) ← Directory_FetchFrom (Directory_new (ce_entries e)) (fs_directoryFile fs) d;
  '(out3, d) ← Directory_Print directory d;
  Ok (("Bit map file header:" +:+ newline) +:+ (out1 +:+ (("Directory file header:" +:+ newline) +:+ (out2 +:+ (bits_text bits +:+ out3)))), d).

(** ** The text of a file without an index *)

Definition printed (bs : list Z) : string := foldr (fun b s => printed_byte b +:+ s) "" bs.

(** [n] bytes, one line for each sector. *)
Fixpoint lines_text (n : nat) (sectors : list (list Z)) : string :=
  match sectors with
  | [] => ""
  | x :: xs => printed (take n x) +:+ (newline +:+ lines_text (n - length x) xs)
  end.

Definition header_text (h : FileHeader) : string :=
  printf ("FileHeader contents.  File size: %d.  File blocks:" +:+ newline) [Num (fh_numBytes h)]
  +:+ (numbers_text (direct_sectors h) +:+ (newline +:+ ("File contents:" +:+ newline))).

Definition contents_text (h : FileHeader) (d : D) : string :=
  lines_text (Z.to_nat (fh_numBytes h)) (map (sd_sector d) (direct_sectors h)).

Lemma print_bytes_ok data k nb : k <= nb ->
  print_bytes data k nb = (printed (take (Z.to_nat (nb - k)) data), k + Z.min (nb - k) (Z.of_nat (length data))).
Proof.
  revert k. induction data as [|b data IH]; intros k Hk; cbn [print_bytes]; [rewrite take_nil; f_equal; cbn; lia|].
  destruct (Z.ltb_spec k nb).
  - rewrite IH by lia. replace (Z.to_nat (nb - k)) with (S (Z.to_nat (nb - (k + 1)))) by lia. rewrite firstn_cons. cbn [printed foldr length].
    f_equal. lia.
  - replace (Z.to_nat (nb - k)) with 0%nat by lia. f_equal. cbn [length]. lia.
Qed.

Lemma print_direct_ok secs nb k (d : D) : sd_valid d -> Forall valid_sector secs -> k <= nb ->
  exists k' d', print_direct secs nb k d = Ok (lines_text (Z.to_nat (nb - k)) (map (sd_sector d) secs), k', d')
    /\ sd_valid d' /\ same_sectors d d'.
Proof.
  intros Hd Hv. revert k d Hd. induction Hv as [|s secs Hs Hv IH]; intros k d Hd Hk; [by exists k, d|].
  cbn [print_direct map lines_text]. destruct (sd_read_ok d s Hd Hs) as (d1 & -> & Hd1 & Hs1). cbn [mbind result_bind].
  rewrite print_bytes_ok by done. set (k1 := k + _). destruct (IH k1 d1 Hd1) as (k' & d' & -> & Hd' & Hs'); [unfold k1; lia|]. cbn [mbind result_bind].
  exists k', d'. split; [|split; [done|by transitivity d1]]. do 5 f_equal.
  replace (map (sd_sector d1) secs) with (map (sd_sector d) secs).
  - f_equal. unfold k1. lia.
  - apply map_ext_in. intros x Hx%list_elem_of_In. symmetry. apply Hs1. rewrite Forall_forall in Hv. by apply Hv.
Qed.

Lemma FileHeader_Print_ok (h : FileHeader) (d : D) : direct_file h -> sd_valid d ->
  exists d', FileHeader_Print h d = Ok (header_text h +:+ contents_text h d, d') /\ sd_valid d' /\ same_sectors d d'.
Proof.
  intros Hh Hd. pose proof Hh as (Hb & _ & _ & _ & Hv & _). destruct (direct_bounds h Hh) as (Hn & _ & _). unfold FileHeader_Print.
  rewrite needs_index_spec by lia. rewrite needDirect_spec, Z.min_l by lia. rewrite (proj2 (Z.ltb_ge 14 (fh_numSectors h))) by lia. cbv zeta.
  cbn [mbind result_bind]. fold (direct_sectors h). destruct (print_direct_ok (direct_sectors h) (fh_numBytes h) 0 d Hd Hv Hb) as (k' & d' & -> & Hd' & Hs).
  cbn [mbind result_bind]. exists d'. split; [|done]. do 2 f_equal. unfold header_text, contents_text. rewrite Z.sub_0_r, append_nil_r.
  by rewrite <-!append_assoc.
Qed.
End Device.

(** ** The text can be read back *)

(** A text without its newlines. *)
Fixpoint joined (s : string) : string :=
  match s with "" => "" | String c s => if Ascii.eqb c "010"%char then joined s else String c (joined s) end.

Fixpoint text_bytes (s : string) : list Z :=
  match s with "" => [] | String c s => Z.of_nat (nat_of_ascii c) :: text_bytes s end.

(** Bytes that are printed as they are, and are not taken for the beginning of a number. *)
Definition plain (b : Z) : Prop := 32 <= b <= 126 /\ b <> 92.

Lemma joined_app s t : joined (s +:+ t) = joined s +:+ joined t.
Proof.
  induction s as [|c s IH]; [done|]. change (String c s +:+ t) with (String c (s +:+ t)). cbn [joined].
  destruct (Ascii.eqb c "010"%char); [done|]. by rewrite IH.
Qed.

Lemma joined_free s : free "010"%char s = true -> joined s = s.
Proof. induction s as [|c s IH]; [done|]. cbn [free joined]. intros [->%negb_true_iff H]%andb_prop. by rewrite IH. Qed.

Lemma printed_app a b : printed (a ++ b) = printed a +:+ printed b.
Proof. induction a as [|x a IH]; [done|]. cbn [app printed foldr]. fold (printed (a ++ b)) (printed a). by rewrite IH, append_assoc. Qed.

Lemma printed_byte_free b : is_byte b -> free "010"%char (printed_byte b) = true.
Proof. revert b. apply (Z_forallb 256 (fun b => free "010"%char (printed_byte b))). by vm_compute. Qed.

Lemma printed_free bs : Forall is_byte bs -> free "010"%char (printed bs) = true.
Proof.
  induction 1 as [|b bs Hb _ IH]; [done|]. cbn [printed foldr]. fold (printed bs). by rewrite free_app, IH, printed_byte_free.
Qed.

Lemma joined_lines n xs : Forall (Forall is_byte) xs -> joined (lines_text n xs) = printed (take n (concat xs)).
Proof.
  intros Hx. revert n. induction Hx as [|x xs Hx Hxs IH]; intros n; [by destruct n|]. cbn [lines_text concat].
  rewrite take_app, printed_app, !joined_app, IH, joined_free by (by apply printed_free, Forall_take). done.
Qed.

Lemma printed_plain b : plain b -> printed_byte b = String (ascii_of_nat (Z.to_nat b)) "".
Proof.
  intros [Hb _]. assert (H : forallb (fun b => implb ((32 <=? b) && (b <=? 126)) (String.eqb (printed_byte b) (String (ascii_of_nat (Z.to_nat b)) ""))) (seqZ 0 128) = true)
    by by vm_compute.
  apply (Z_forallb 128) with (k := b) in H; [|lia]. rewrite (proj2 (Z.leb_le 32 b)), (proj2 (Z.leb_le b 126)) in H by lia. by apply String.eqb_eq.
Qed.

Lemma text_bytes_printed bs : Forall plain bs -> text_bytes (printed bs) = bs.
Proof.
  induction 1 as [|b bs Hb _ IH]; [done|]. cbn [printed foldr]. fold (printed bs). rewrite printed_plain by done.
  change (String ?c "" +:+ ?t) with (String c t). cbn [text_bytes]. rewrite IH, nat_ascii_embedding by (destruct Hb; lia). f_equal. destruct Hb. lia.
Qed.

Section Prints.
Context {D : Type} `{SectorDevice D}.

Lemma sectors_data_concat (d : D) secs : concat (map (sd_sector d) secs) = sectors_data d secs.
Proof. unfold sectors_data. induction secs as [|s secs IH]; [done|]. rewrite bind_cons. cbn [map concat]. by rewrite IH. Qed.

(** The printed contents of a file of at most 14 sectors: without the newlines that end the sectors they are the
    bytes of the file, and a file of plain characters can be read back.  Printing changes no sector. *)
Theorem Print_shows_contents (h : FileHeader) (d : D) : direct_file h -> sd_valid d ->
  exists lines d', FileHeader_Print h d = Ok (header_text h +:+ lines, d') /\ sd_valid d' /\ same_sectors d d'
    /\ joined lines = printed (file_content h d)
    /\ (Forall plain (file_content h d) -> text_bytes (joined lines) = file_content h d).
Proof.
  intros Hh Hd. destruct (FileHeader_Print_ok h d Hh Hd) as (d' & E & Hd' & Hs). exists (contents_text h d), d'.
  assert (Hj : joined (contents_text h d) = printed (file_content h d)).
  { unfold contents_text, file_content. rewrite joined_lines; [|apply Forall_fmap, Forall_forall; intros s Hin; apply sd_sector_wf; [done|]; destruct Hh as (_ & _ & _ & _ & Hv & _); rewrite Forall_forall in Hv; by apply Hv].
      by rewrite file_sectors_direct, sectors_data_concat. }
  split_and!; try done. intros Hp. rewrite Hj. by apply text_bytes_printed.
Qed.

Lemma contents_text_same h (d d' : D) : direct_file h -> same_sectors d d' -> contents_text h d' = contents_text h d.
Proof.
  intros (_ & _ & _ & _ & Hv & _) Hs. unfold contents_text. f_equal. apply map_ext_in. intros s Hin%list_elem_of_In.
  apply Hs. rewrite Forall_forall in Hv. by apply Hv.
Qed.

Lemma FetchFrom_hdr (d : D) s : sd_valid d -> valid_sector s ->
  exists d', FileHeader_FetchFrom d s = Ok (file_hdr d s, d') /\ sd_valid d' /\ same_sectors d d'.
Proof. intros Hd Hs. unfold FileHeader_FetchFrom. destruct (sd_read_ok d s Hd Hs) as (d' & -> & Hd' & Hsame). by exists d'. Qed.

(** The text of the file whose header is in the sector [s]. *)
Definition file_text (d : D) (s : Z) : string := header_text (file_hdr d s) +:+ contents_text (file_hdr d s) d.

Lemma file_text_same (d d' : D) s : valid_sector s -> direct_file (file_hdr d s) -> same_sectors d d' -> file_text d' s = file_text d s.
Proof.
  intros Hv Hf Hs. unfold file_text. assert (E : file_hdr d' s = file_hdr d s) by (unfold file_hdr; by rewrite Hs).
  rewrite E. by rewrite (contents_text_same _ d d').
Qed.

(** Fetching a header and printing it. *)
Lemma print_file_ok (d0 d : D) s : sd_valid d -> same_sectors d0 d -> valid_sector s -> direct_file (file_hdr d0 s) ->
  exists hdr d1 d', FileHeader_FetchFrom d s = Ok (hdr, d1) /\ FileHeader_Print hdr d1 = Ok (file_text d0 s, d')
    /\ sd_valid d' /\ same_sectors d0 d'.
Proof.
  intros Hd Hs Hv Hf. assert (E : file_hdr d s = file_hdr d0 s) by (unfold file_hdr; by rewrite Hs).
  destruct (FetchFrom_hdr d s Hd Hv) as (d1 & E1 & Hd1 & Hs1). rewrite E in E1.
  destruct (FileHeader_Print_ok (file_hdr d0 s) d1 Hf Hd1) as (d2 & E2 & Hd2 & Hs2). assert (Hs01 : same_sectors d0 d1) by by transitivity d.
  exists (file_hdr d0 s), d1, d2. unfold file_text. rewrite <-(contents_text_same (file_hdr d0 s) d0 d1) by done.
  split; [exact E1|]. split; [exact E2|]. split; [exact Hd2|]. by transitivity d1.
Qed.

Definition entries_text (d : D) (t : Directory) : string :=
  foldr (fun e s => if used e then entry_line e +:+ (file_text d (de_sector e) +:+ s) else s) "" t.

Lemma print_entries_ok (d0 d : D) t : sd_valid d -> same_sectors d0 d ->
  Forall (fun e => used e = true -> valid_sector (de_sector e) /\ direct_file (file_hdr d0 (de_sector e))) t ->
  exists d', print_entries t d = Ok (entries_text d0 t, d') /\ sd_valid d' /\ same_sectors d0 d'.
Proof.
  intros Hd Hs Ht. revert d Hd Hs. induction Ht as [|e t He Ht IH]; intros d Hd Hs; [by exists d|].
  cbn [print_entries entries_text foldr]. fold (entries_text d0 t). destruct (used e) eqn:Eu; [|by apply IH]. destruct (He eq_refl) as [Hv Hf].
  destruct (print_file_ok d0 d (de_sector e) Hd Hs Hv Hf) as (hdr & d1 & d2 & E1 & E2 & Hd2 & Hs2).
  destruct (IH d2 Hd2 Hs2) as (d3 & E3 & Hd3 & Hs3). exists d3. split; [|done].
  rewrite E1. cbn [mbind result_bind]. rewrite E2. cbn [mbind result_bind]. rewrite E3. reflexivity.
Qed.

Lemma BitMap_Print_ok bm : bm_wf bm -> BitMap_Print bm = Ok (filter (fun i => bm_bit bm i = true) (seqZ 0 (bm_numBits bm))).
Proof.
  intros Hwf. unfold BitMap_Print. set (f := fun i out => _). set (g := fun i => bm_bit bm i = true).
  enough (Hgo : forall l out, Forall (fun i => 0 <= i < bm_numBits bm) l -> result_fold f l out = Ok (out ++ filter g l)%list).
  { apply Hgo, Forall_forall. intros i Hi%elem_of_seqZ. lia. }
  induction l as [|i l IH]; intros out Hl; [by rewrite app_nil_r|]. apply Forall_cons in Hl as [Hi Hl]. cbn [result_fold].
  replace (f i out) with (Ok (if bm_bit bm i then (out ++ [i])%list else out)) by (unfold f; by rewrite (BitMap_Test_spec bm i Hwf Hi)).
  cbn [mbind result_bind]. rewrite IH by done. rewrite filter_cons. unfold g at 2.
  case_decide as E; [by rewrite E, <-app_assoc|by rewrite (not_true_is_false _ E)].
Qed.

(** The header of a listed file of at most 14 sectors. *)
Lemma listed_direct fs (d : D) bm t s : fs_inv fs d bm t -> s ∈ (dir_alist t).*2 -> fh_numSectors (file_hdr d s) <= 14 ->
  valid_sector s /\ direct_file (file_hdr d s).
Proof.
  intros Hinv Hin Hsm. destruct (inv_hdrs _ _ _ _ Hinv s Hin) as [Hwf Hsz]. destruct (file_owned_ok fs d bm t s Hinv Hin) as [Hnd Hval].
  split; [apply Hval; left|]. apply NoDup_cons in Hnd as [_ Hnd].
  destruct (small_file_direct (file_hdr d s) d) as [Hdf _]; try done. apply Forall_forall. intros x Hx. apply Hval. by right.
Qed.

Lemma listed_sector t e : e ∈ t -> used e = true -> de_sector e ∈ (dir_alist t).*2.
Proof.
  intros Hin Hu. apply list_elem_of_fmap. exists (entry_key e, de_sector e). split; [done|]. apply list_elem_of_omap. exists e. by rewrite Hu.
Qed.

(** C14.  Printing a consistent file system whose files have at most 14 sectors succeeds, changes no sector and shows
    the headers and contents of the two system files, the numbers of exactly the sectors in use, and
    for every entry of the directory its line with the header and the contents of its file. *)
Theorem FileSystem_Print_spec (e : call_env) (fs : FileSystem) (d : D) bm t :
  env_ok e -> fs_inv fs d bm t -> (forall s, s ∈ (dir_alist t).*2 -> fh_numSectors (file_hdr d s) <= 14) ->
  exists bits d', FileSystem_Print e fs d
      = Ok (("Bit map file header:" +:+ newline) +:+ (file_text d FreeMapSector +:+ (("Directory file header:" +:+ newline)
            +:+ (file_text d DirectorySector +:+ (bits_text bits
            +:+ (("Directory contents:" +:+ newline) +:+ (entries_text d t +:+ newline)))))), d')
    /\ same_sectors d d' /\ fs_inv fs d' bm t
    /\ forall s, s ∈ bits <-> s ∈ all_sectors fs d t.
Proof.
  intros He Hinv Hsm. destruct (inv_boot _ _ _ _ Hinv) as (Hb1 & Hb2 & _ & _).
  destruct (inv_mapfile _ _ _ _ Hinv) as (Hd & Hf1 & _), (inv_dirfile _ _ _ _ Hinv) as (_ & Hf2 & _). rewrite Hb1 in Hf1. rewrite Hb2 in Hf2.
  unfold FileSystem_Print. destruct (fetch_map e fs d bm t He Hinv) as (bm0 & _ & Ebm0 & _). rewrite Ebm0. cbn [mbind result_bind].
  destruct (print_file_ok d d FreeMapSector) as (h1 & d1 & d2 & -> & E2 & Hd2 & Hs2); try done. cbn [mbind result_bind]. rewrite E2. cbn [mbind result_bind].
  destruct (print_file_ok d d2 DirectorySector) as (h3 & d3 & d4 & -> & E4 & Hd4 & Hs4); try done. cbn [mbind result_bind]. rewrite E4. cbn [mbind result_bind].
  assert (Hinv4 : fs_inv fs d4 bm t) by by apply (inv_same fs d d4).
  destruct (fetch_map e fs d4 bm t He Hinv4) as (bm0' & d5 & Ebm0' & E5 & Hs5 & Hinv5). rewrite Ebm0 in Ebm0'. injection Ebm0' as <-.
  rewrite E5. cbn [mbind result_bind]. rewrite (BitMap_Print_ok bm) by apply (inv_bm _ _ _ _ Hinv). cbn [mbind result_bind].
  destruct (fetch_dir e fs d5 bm t He Hinv5) as (d6 & -> & Hs6 & Hinv6). cbn [mbind result_bind]. unfold Directory_Print.
  assert (Hs06 : same_sectors d d6) by (transitivity d4; [done|by transitivity d5]).
  destruct (print_entries_ok d d6 t) as (d7 & -> & Hd7 & Hs7); [apply (inv_mapfile _ _ _ _ Hinv6)|done| |].
  { apply Forall_forall. intros x Hx Hu. pose proof (listed_sector t x Hx Hu) as Hin. apply (listed_direct fs d bm t); auto. }
  cbn [mbind result_bind]. eexists _, d7. split; [reflexivity|]. split; [done|]. split; [by apply (inv_same fs d d7)|].
  intros s. rewrite list_elem_of_filter, elem_of_seqZ. destruct (inv_bm _ _ _ _ Hinv) as [_ Hn]. rewrite Hn.
  pose proof (inv_free _ _ _ _ Hinv s) as Hfree. rewrite bm_free_elem, Hn in Hfree. pose proof (inv_valid _ _ _ _ Hinv) as Hval. rewrite Forall_forall in Hval.
  unfold valid_sector in *. split.
  - intros [Hb Hr]. destruct (decide (s ∈ all_sectors fs d t)) as [|Hni]; [done|]. destruct Hfree as [_ Hfree]. destruct Hfree as [_ Hbit]; [split; [lia|done]|congruence].
  - intros Hin. pose proof (Hval s Hin) as Hr. split; [|lia]. destruct (bm_bit bm s) eqn:Eb; [done|]. destruct Hfree as [Hfree _]. destruct Hfree as [_ Hni]; [split; [lia|done]|done].
Qed.
End Prints.

(** The only listed file of a directory with one name. *)
Lemma listed_one t k s x : dir_wf t -> dir_map t = {[ k := s ]} -> x ∈ (dir_alist t).*2 -> x = s.
Proof.
  intros [_ Hnd] Hm Hx. apply list_elem_of_fmap in Hx as ([k' x'] & -> & Hin).
  apply (elem_of_list_to_map_1 (M := gmap (list Z)) _ _ _ Hnd) in Hin. fold (dir_map t) in Hin. rewrite Hm in Hin.
  by apply lookup_singleton_Some in Hin as [_ ->].
Qed.

(** A disk with a file of 300 bytes. *)
Lemma FileSystem_Print_spec_witness :
  exists fs (d : gmap Z (list Z)) bm t s bits d', fs_inv fs d bm t /\ dir_map t !! key [97] = Some s
    /\ (forall x, x ∈ bits <-> x ∈ all_sectors fs d t)
    /\ FileSystem_Print blank_env fs d
      = Ok (("Bit map file header:" +:+ newline) +:+ (file_text d FreeMapSector +:+ (("Directory file header:" +:+ newline)
            +:+ (file_text d DirectorySector +:+ (bits_text bits
            +:+ (("Directory contents:" +:+ newline) +:+ (entries_text d t +:+ newline)))))), d').
Proof.
  destruct boot_create as (fs & d & bm & t & s & Hinv & Hlk & Hn & Hm).
  destruct (FileSystem_Print_spec blank_env fs d bm t blank_env_ok Hinv) as (bits & d' & E & _ & _ & Hb).
  { intros x Hx. rewrite (listed_one t (key [97]) s x (inv_wf _ _ _ _ Hinv) Hm Hx), Hn. lia. }
  exists fs, d, bm, t, s, bits, d'. exact (conj Hinv (conj Hlk (conj Hb E))).
Defined.

(** A printed text does not determine the bytes: a backslash is printed as it is. *)
Example printed_ambiguous : printed [92; 49] = printed [1].
Proof. by vm_compute. Qed.
