(* ===== verification/Interrupt.v ===== *)
(** * machine/interrupt.cc and machine/stats.cc: simulated time and interrupts

    The hardware state of the simulation: the clock and its statistics, the interrupt
    level, and the list of interrupts that are due in the future, sorted by time.  Calling
    the handler of an interrupt is left to the kernel ([Kernel.v]): [CheckIfDue] is split
    at the call into [CheckIfDue_pick] (everything before it) and [CheckIfDue_done]
    (everything after it).  [H] is the type of handlers. *)

From S2P Require Import Prelude SList.

Definition UserTick : Z := 1.
Definition SystemTick : Z := 10.
Definition TimerTicks : Z := 10.

Inductive IntStatus := IntOff | IntOn.
Inductive MachineStatus := IdleMode | SystemMode | UserMode.
Inductive IntType :=
  TimerInt | DiskInt | ConsoleWriteInt | ConsoleReadInt | ElevatorInt | NetworkSendInt | NetworkRecvInt.

#[global] Instance IntStatus_eq_dec : EqDecision IntStatus.
Proof. solve_decision. Defined.
#[global] Instance MachineStatus_eq_dec : EqDecision MachineStatus.
Proof. solve_decision. Defined.
#[global] Instance IntType_eq_dec : EqDecision IntType.
Proof. solve_decision. Defined.

(** The part of [Statistics] that measures time. *)
Record Statistics := mkStats {
  totalTicks : Z; idleTicks : Z; systemTicks : Z; userTicks : Z
}.

Definition Statistics_new : Statistics := mkStats 0 0 0 0.

Record PendingInterrupt (H : Type) := mkPending {
  pi_handler : H; pi_when : Z; pi_type : IntType
}.
Arguments mkPending {H}.
Arguments pi_handler {H}.
Arguments pi_when {H}.
Arguments pi_type {H}.

Record Hardware (H : Type) := mkHw {
  hw_stats : Statistics;
  hw_level : IntStatus;
  hw_inHandler : bool;
  hw_yieldOnReturn : bool;
  hw_status : MachineStatus;
  hw_pending : list (Z * PendingInterrupt H)
}.
Arguments mkHw {H}.
Arguments hw_stats {H}.
Arguments hw_level {H}.
Arguments hw_inHandler {H}.
Arguments hw_yieldOnReturn {H}.
Arguments hw_status {H}.
Arguments hw_pending {H}.

Section Interrupt.
Context {H : Type}.
Implicit Types (hw : Hardware H) (p : PendingInterrupt H).

Definition Interrupt_new : Hardware H := mkHw Statistics_new IntOff false false SystemMode [].

Definition hw_set_stats (s : Statistics) hw : Hardware H :=
  mkHw s (hw_level hw) (hw_inHandler hw) (hw_yieldOnReturn hw) (hw_status hw) (hw_pending hw).
Definition hw_set_status (st : MachineStatus) hw : Hardware H :=
  mkHw (hw_stats hw) (hw_level hw) (hw_inHandler hw) (hw_yieldOnReturn hw) st (hw_pending hw).
Definition hw_set_yield (b : bool) hw : Hardware H :=
  mkHw (hw_stats hw) (hw_level hw) (hw_inHandler hw) b (hw_status hw) (hw_pending hw).
Definition hw_set_inHandler (b : bool) hw : Hardware H :=
  mkHw (hw_stats hw) (hw_level hw) b (hw_yieldOnReturn hw) (hw_status hw) (hw_pending hw).
Definition hw_set_pending (l : list (Z * PendingInterrupt H)) hw : Hardware H :=
  mkHw (hw_stats hw) (hw_level hw) (hw_inHandler hw) (hw_yieldOnReturn hw) (hw_status hw) l.

Definition Interrupt_ChangeLevel (now : IntStatus) hw : Hardware H :=
  mkHw (hw_stats hw) now (hw_inHandler hw) (hw_yieldOnReturn hw) (hw_status hw) (hw_pending hw).

Definition Interrupt_YieldOnReturn hw : result (Hardware H) :=
  ASSERT (hw_inHandler hw) ;; Ok (hw_set_yield true hw).

Definition Interrupt_Schedule (handler : H) (fromNow : Z) (type : IntType) hw : result (Hardware H) :=
  let when := i32 (totalTicks (hw_stats hw) + fromNow) in
  ASSERT (0 <? fromNow) ;;
  Ok (hw_set_pending (sl_SortedInsert (mkPending handler when type) when (hw_pending hw)) hw).

(** The clock part of [OneTick]. *)
Definition advance_time hw : Hardware H :=
  let s := hw_stats hw in
  if decide (hw_status hw = SystemMode)
  then hw_set_stats (mkStats (i32 (totalTicks s + SystemTick)) (idleTicks s)
                             (i32 (systemTicks s + SystemTick)) (userTicks s)) hw
  else hw_set_stats (mkStats (i32 (totalTicks s + UserTick)) (idleTicks s)
                             (systemTicks s) (i32 (userTicks s + UserTick))) hw.

(** [CheckIfDue] up to the call of the handler: the interrupt to fire, if any. *)
Definition CheckIfDue_pick (advanceClock : bool) hw
    : result (option (PendingInterrupt H) * Hardware H) :=
  ASSERT (bool_decide (hw_level hw = IntOff)) ;;
  match sl_SortedRemove (hw_pending hw) with
  | None => Ok (None, hw)
  | Some ((when, toOccur), rest) =>
      let hw' := hw_set_pending rest hw in
      let s := hw_stats hw in
      let put_back h := Ok (None, hw_set_pending (sl_SortedInsert toOccur when rest) h) in
      if negb advanceClock && (totalTicks s <? when) then put_back hw'
      else
        let hw' := if advanceClock && (totalTicks s <? when)
                   then hw_set_stats (mkStats when (i32 (idleTicks s + (when - totalTicks s)))
                                              (systemTicks s) (userTicks s)) hw'
                   else hw' in
        if decide (hw_status hw' = IdleMode /\ pi_type toOccur = TimerInt) then
          if sl_IsEmpty rest then put_back hw'
          else Ok (Some toOccur, hw_set_status SystemMode (hw_set_inHandler true hw'))
        else Ok (Some toOccur, hw_set_status SystemMode (hw_set_inHandler true hw'))
  end.

(** [CheckIfDue] behind the call of the handler; [old] is the status at its start. *)
Definition CheckIfDue_done (old : MachineStatus) hw : Hardware H :=
  hw_set_inHandler false (hw_set_status old hw).

(** ** Invariants of the hardware *)

(** The list is sorted by time, and an element's key is its time. *)
Definition pending_ok hw : Prop :=
  sl_sorted (hw_pending hw) /\ Forall (fun x => x.1 = pi_when x.2 /\ in_i32 x.1) (hw_pending hw).

(** Every tick is counted exactly once (modulo the width of [int]). *)
Definition clock_ok hw : Prop :=
  let s := hw_stats hw in totalTicks s = i32 (idleTicks s + systemTicks s + userTicks s).

Lemma Schedule_ok handler fromNow type hw :
  pending_ok hw -> 0 < fromNow ->
  exists hw', Interrupt_Schedule handler fromNow type hw = Ok hw' /\ pending_ok hw'
    /\ hw_stats hw' = hw_stats hw
    /\ hw_pending hw' ≡ₚ (i32 (totalTicks (hw_stats hw) + fromNow),
         mkPending handler (i32 (totalTicks (hw_stats hw) + fromNow)) type) :: hw_pending hw.
Proof.
  intros [Hs Hk] Hf. unfold Interrupt_Schedule. rewrite ASSERT_true by lia. eexists. split; [done|].
  split; [|split; [done|apply sl_SortedInsert_perm]]. split; simpl.
  - by apply sl_SortedInsert_sorted.
  - apply sl_SortedInsert_Forall; [|done]. split; [done|apply i32_range].
Qed.

Lemma put_back_same when (p : PendingInterrupt H) rest :
  sl_sorted ((when, p) :: rest) ->
  sl_SortedInsert p when rest ≡ₚ (when, p) :: rest /\ sl_sorted (sl_SortedInsert p when rest).
Proof.
  intros Hs. split; [apply sl_SortedInsert_perm|].
  by apply sl_SortedInsert_sorted, (sl_sorted_tail (when, p)).
Qed.

(** What [CheckIfDue] does with the list and the clock. *)
Lemma CheckIfDue_pick_cases adv hw :
  pending_ok hw -> hw_level hw = IntOff ->
  exists r hw', CheckIfDue_pick adv hw = Ok (r, hw') /\ pending_ok hw'
    /\ (clock_ok hw -> clock_ok hw')
    /\ hw_level hw' = IntOff /\ hw_yieldOnReturn hw' = hw_yieldOnReturn hw
    /\ match r with
       | None => hw_pending hw' ≡ₚ hw_pending hw /\ hw_status hw' = hw_status hw
                 /\ hw_inHandler hw' = hw_inHandler hw
                 /\ (adv = false -> hw_stats hw' = hw_stats hw)
       | Some p => hw_pending hw = (pi_when p, p) :: hw_pending hw'
                 /\ hw_status hw' = SystemMode /\ hw_inHandler hw' = true
                 /\ totalTicks (hw_stats hw')
                    = (if adv then Z.max (totalTicks (hw_stats hw)) (pi_when p) else totalTicks (hw_stats hw))
                 /\ pi_when p <= totalTicks (hw_stats hw')
       end.
Proof.
  intros [Hs Hk] Hl. unfold CheckIfDue_pick. rewrite ASSERT_true by (by apply bool_decide_eq_true_2).
  cbn [mbind result_bind]. destruct (hw_pending hw) as [|[when p] rest] eqn:Hp; cbn [sl_SortedRemove].
  { exists None, hw. split_and!; try done; unfold pending_ok; rewrite ?Hp; done. }
  destruct (put_back_same when p rest Hs) as [Hperm Hsort].
  pose proof (sl_sorted_tail _ _ Hs) as Hst.
  apply Forall_cons in Hk as [[Hw Hi] Hk]. cbn [fst snd] in Hw, Hi. subst when.
  assert (Hkb : Forall (fun x => x.1 = pi_when x.2 /\ in_i32 x.1) (sl_SortedInsert p (pi_when p) rest))
    by by apply sl_SortedInsert_Forall.
  destruct adv; cbn [negb andb].
  - set (hw1 := if totalTicks (hw_stats hw) <? pi_when p then _ else _).
    assert (H1 : hw_pending hw1 = rest /\ hw_level hw1 = IntOff /\ hw_status hw1 = hw_status hw
      /\ hw_inHandler hw1 = hw_inHandler hw /\ hw_yieldOnReturn hw1 = hw_yieldOnReturn hw
      /\ totalTicks (hw_stats hw1) = Z.max (totalTicks (hw_stats hw)) (pi_when p)
      /\ (clock_ok hw -> clock_ok hw1)).
    { unfold hw1. destruct (Z.ltb_spec (totalTicks (hw_stats hw)) (pi_when p)); simpl;
        split_and!; try done; try lia.
      unfold clock_ok. simpl. intros Ht. wrap_lia. }
    clearbody hw1. destruct H1 as (Hr & Hl1 & Hs1 & Hh1 & Hy1 & Ht1 & Hc1).
    assert (Hfire : exists r hw', Ok (Some p, hw_set_status SystemMode (hw_set_inHandler true hw1)) = Ok (r, hw')
      /\ pending_ok hw' /\ (clock_ok hw -> clock_ok hw') /\ hw_level hw' = IntOff
      /\ hw_yieldOnReturn hw' = hw_yieldOnReturn hw
      /\ match r with None => False | Some q => q = p /\ hw_pending hw' = rest /\ hw_status hw' = SystemMode
            /\ hw_inHandler hw' = true /\ totalTicks (hw_stats hw') = totalTicks (hw_stats hw1) end).
    { eexists _, _. split; [done|]. unfold pending_ok. simpl. rewrite Hr. by split_and!. }
    case_decide; [destruct (sl_IsEmpty rest)|].
    1: { eexists None, _. split; [done|]. unfold pending_ok. simpl. by split_and!. }
    all: destruct Hfire as (r & hw' & -> & ? & ? & ? & ? & Hr'); exists r, hw';
      destruct r as [q|]; [|done]; destruct Hr' as (-> & -> & ? & ? & Ht); rewrite Ht; split_and!; try done; lia.
  - destruct (Z.ltb_spec (totalTicks (hw_stats hw)) (pi_when p)) as [Hlt|Hge].
    { eexists None, _. split; [done|]. unfold pending_ok. simpl. by split_and!. }
    case_decide; [destruct (sl_IsEmpty rest)|].
    1: { eexists None, _. split; [done|]. unfold pending_ok. simpl. by split_and!. }
    all: eexists (Some p), _; split; [done|]; unfold pending_ok; simpl; by split_and!.
Qed.

(** The clock and every pending interrupt lie before [B]. *)
Definition ticks_below (B : Z) hw : Prop :=
  totalTicks (hw_stats hw) < B /\ Forall (fun x => x.1 < B) (hw_pending hw).

(** The pending interrupts whose time has come. *)
Definition due hw : nat :=
  length (filter (fun x : Z * PendingInterrupt H => x.1 <= totalTicks (hw_stats hw)) (hw_pending hw)).

Lemma due_length hw : (due hw <= length (hw_pending hw))%nat.
Proof. apply length_filter. Qed.

(** The clock never runs backwards, and an idle machine advances it to a pending interrupt
    at most. *)
Lemma CheckIfDue_pick_ticks adv hw r hw' B :
  CheckIfDue_pick adv hw = Ok (r, hw') -> ticks_below B hw ->
  totalTicks (hw_stats hw) <= totalTicks (hw_stats hw') < B.
Proof.
  intros HC [Ht Hp]. unfold CheckIfDue_pick in HC. destruct (ASSERT _); [|done].
  cbn [mbind result_bind] in HC. destruct (hw_pending hw) as [|[when p] rest]; cbn [sl_SortedRemove] in HC.
  { injection HC as <- <-. lia. }
  apply Forall_cons in Hp as [Hw _]. cbn [fst] in Hw.
  destruct (Z.ltb_spec (totalTicks (hw_stats hw)) when); destruct adv; cbn [negb andb] in HC;
    repeat (case_decide || case_match); injection HC as <- <-; simpl; lia.
Qed.

Lemma CheckIfDue_pick_stats hw r hw' :
  CheckIfDue_pick false hw = Ok (r, hw') -> hw_stats hw' = hw_stats hw.
Proof.
  unfold CheckIfDue_pick. destruct (ASSERT _); [|done]. cbn [mbind result_bind].
  destruct (hw_pending hw) as [|[when p] rest]; cbn [sl_SortedRemove negb andb].
  { by intros [= <- <-]. }
  repeat (case_decide || case_match); by intros [= <- <-].
Qed.

(** An idle machine finds nothing to do only when at most a timer is pending. *)
Lemma CheckIfDue_pick_idle hw hw' :
  CheckIfDue_pick true hw = Ok (None, hw') -> Forall (fun x => pi_type x.2 = TimerInt) (hw_pending hw').
Proof.
  unfold CheckIfDue_pick. destruct (ASSERT _); [|done]. cbn [mbind result_bind].
  destruct (hw_pending hw) as [|[when p] rest] eqn:Hp; cbn [sl_SortedRemove negb andb].
  { intros [= <-]. rewrite Hp. constructor. }
  case_decide as Hd; [|done]. destruct rest; [|done]. intros [= <-]. constructor; [apply Hd|constructor].
Qed.

(** An interrupt never fires early, and they fire in the order of their times: when
    [CheckIfDue] decides to call a handler, it is the one with the smallest time, that time
    has come (an idle machine first advances the clock to it, exactly), and the list stays
    sorted.  When it decides not to, nothing is lost from the list.  In both cases the
    ticks stay accounted for: total = idle + system + user. *)
Theorem CheckIfDue_order (adv : bool) (hw : Hardware H) :
  pending_ok hw -> clock_ok hw -> hw_level hw = IntOff ->
  exists r hw', CheckIfDue_pick adv hw = Ok (r, hw') /\ pending_ok hw' /\ clock_ok hw'
    /\ match r with
       | None => hw_pending hw' ≡ₚ hw_pending hw
       | Some p => Forall (fun x => pi_when p <= x.1) (hw_pending hw)
                 /\ hw_pending hw ≡ₚ (pi_when p, p) :: hw_pending hw'
                 /\ pi_when p <= totalTicks (hw_stats hw')
                 /\ totalTicks (hw_stats hw')
                    = (if adv then Z.max (totalTicks (hw_stats hw)) (pi_when p) else totalTicks (hw_stats hw))
       end.
Proof.
  intros Hp Hc Hl. destruct (CheckIfDue_pick_cases adv hw Hp Hl) as (r & hw' & HC & Hp' & Hc' & _ & _ & Hr).
  exists r, hw'. split_and!; [done|done|by apply Hc'|]. destruct r as [p|]; [|apply Hr].
  destruct Hr as (Heq & _ & _ & Ht & Hle). rewrite Heq. split_and!; try done.
  destruct Hp as [Hs _]. rewrite Heq in Hs. constructor; [done|].
  exact (sl_sorted_head _ _ Hs).
Qed.

Lemma advance_time_ok hw :
  clock_ok hw -> clock_ok (advance_time hw) /\ hw_pending (advance_time hw) = hw_pending hw
    /\ hw_level (advance_time hw) = hw_level hw /\ hw_status (advance_time hw) = hw_status hw
    /\ hw_inHandler (advance_time hw) = hw_inHandler hw
    /\ hw_yieldOnReturn (advance_time hw) = hw_yieldOnReturn hw.
Proof.
  unfold advance_time, clock_ok, SystemTick, UserTick. intros Hc. case_decide; simpl; split_and!; try done;
    wrap_lia.
Qed.
End Interrupt.

Lemma CheckIfDue_order_witness :
  let hw := mkHw (mkStats 30 0 30 0) IntOff false false IdleMode
              [(40, mkPending 1 40 DiskInt); (50, mkPending 2 50 TimerInt)] in
  exists r hw', CheckIfDue_pick true hw = Ok (r, hw') /\ pending_ok hw' /\ clock_ok hw'
    /\ match r with
       | None => hw_pending hw' ≡ₚ hw_pending hw
       | Some p => Forall (fun x => pi_when p <= x.1) (hw_pending hw)
                 /\ hw_pending hw ≡ₚ (pi_when p, p) :: hw_pending hw'
                 /\ pi_when p <= totalTicks (hw_stats hw')
                 /\ totalTicks (hw_stats hw') = Z.max 30 (pi_when p)
       end.
Proof.
  apply (CheckIfDue_order true (mkHw (mkStats 30 0 30 0) IntOff false false IdleMode
              [(40, mkPending 1 40 DiskInt); (50, mkPending 2 50 TimerInt)])); [|done|done].
  split; simpl.
  - repeat constructor; simpl; lia.
  - repeat constructor; simpl; done.
Defined.
