(* ===== verification/Kernel.v ===== *)
(** * threads/thread.cc, scheduler.cc, synch.cc, synchlist.cc, system.cc: the thread kernel

    The state of the kernel is the hardware of [Interrupt.v] plus the threads, the ready
    list, and the synchronisation objects.  A thread that is not executing is described by
    its stack of activation records ([frame]): one per kernel function that has called
    something that may switch to another thread, holding the local variables the rest of
    the function needs; at the bottom are the operations the thread still wants to perform.
    [kstep] runs the current thread up to the next point where control returns to its
    stack.  Kernel code can lose the processor only inside [Scheduler::Run], so the
    functions are composed as in the source, and [SetLevel] is the only preemption point
    (it calls [OneTick], which may call [Yield]).

    The build modelled is the one of the directory threads (no user programs).  The
    compile-time switch [SCHED_PRIORITY] is a field of the state. *)

From S2P Require Import Prelude SList Interrupt.

Definition tid := positive.

Inductive ThreadStatus := JUST_CREATED | RUNNING | READY | BLOCKED.

#[global] Instance ThreadStatus_eq_dec : EqDecision ThreadStatus.
Proof. solve_decision. Defined.

(** A semaphore object, or the private one inside a lock. *)
Inductive sem_ref := SUser (s : nat) | SLock (l : nat).

#[global] Instance sem_ref_eq_dec : EqDecision sem_ref.
Proof. solve_decision. Defined.

(** What the code of a thread does with the kernel. *)
Inductive op :=
  | OpP (s : nat) | OpV (s : nat)
  | OpAcquire (l : nat) | OpRelease (l : nat)
  | OpWait (c l : nat) | OpSignal (c l : nat) | OpBroadcast (c l : nat)
  | OpListAppend (q : nat) (item : Z) | OpListRemove (q : nat)
  | OpYield
  | OpSlice                                     (* Yield when the time slice is used up *)
  | OpFork (garbage pri : Z) (body : list op)   (* t = new Thread(name, pri); t->Fork(body) *)
  | OpRequest (s : nat) (ticks : Z)             (* start a device; its interrupt does V on s *)
  | OpTick.                                     (* a user instruction: interrupt->OneTick() *)

(** Activation records. *)
Inductive frame :=
  | FOp (o : op)
  | FEnable                                (* ThreadRoot: InterruptEnable() *)
  | FFinish                                (* ThreadRoot: ThreadFinish() *)
  | FPLoop (s : sem_ref) (oldLevel : IntStatus)     (* the while loop of P *)
  | FAcquire (l : nat) (prev : IntStatus)           (* Acquire, after lock->P() *)
  | FWait (c l : nat) (prev : IntStatus)            (* Wait, after Sleep() *)
  | FWaitEnd (prev : IntStatus)                     (* Wait, after Acquire() *)
  | FListAppend (q : nat) (item : Z)                (* SynchList::Append, after Acquire() *)
  | FListRemove (q : nat)                           (* SynchList::Remove, in its loop *)
  | FYield (oldLevel : IntStatus)                   (* Yield, after Run() *)
  | FSleep                                          (* the while loop of Sleep *)
  | FRun                                            (* Run, after SWITCH *)
  | FOneTick (old : MachineStatus).                 (* OneTick, after Yield() *)

Record Thread := mkThread {
  th_status : ThreadStatus;
  th_threadId : Z;
  th_priority : Z;
  th_stack : list frame
}.

Record Semaphore := mkSem { sem_value : Z; sem_queue : list (Z * tid) }.
Record Lock := mkLock { lk_sem : Semaphore; lk_owner : option tid }.
Record Condition := mkCond { cv_queue : list (Z * tid) }.
Record SynchList := mkSynchList { sq_list : list (Z * Z); sq_lock : nat; sq_listEmpty : nat }.

(** Interrupt handlers: the timer, or a device whose completion does [V]. *)
Inductive handler := HTimer (randomize : bool) | HDevice (s : nat).

Definition maxThreadsCount : nat := 128.
Definition TimerSlice : Z := 20.

Record Kernel := mkKernel {
  k_hw : Hardware handler;
  k_threads : gmap tid Thread;
  k_current : tid;
  k_ready : list (Z * tid);
  k_lastSwitchTick : Z;
  k_tbd : option tid;                 (* threadToBeDestroyed *)
  k_threadIds : list Z;
  k_sems : list Semaphore;
  k_locks : list Lock;
  k_conds : list Condition;
  k_slists : list SynchList;
  k_randoms : list N;                 (* what Random() will return *)
  k_prio : bool                       (* SCHED_PRIORITY *)
}.

(** What the outside can observe. *)
Inductive event :=
  | EvP (s : sem_ref) (t : tid) | EvV (s : sem_ref)
  | EvAcquire (l : nat) (t : tid) | EvRelease (l : nat) (t : tid)
  | EvAppended (q : nat) (item : Z) | EvRemoved (q : nat) (item : Z).

(** ** Updates *)

Definition k_set_hw (h : Hardware handler) (k : Kernel) : Kernel :=
  mkKernel h (k_threads k) (k_current k) (k_ready k) (k_lastSwitchTick k) (k_tbd k) (k_threadIds k)
    (k_sems k) (k_locks k) (k_conds k) (k_slists k) (k_randoms k) (k_prio k).
Definition k_set_threads (ths : gmap tid Thread) (k : Kernel) : Kernel :=
  mkKernel (k_hw k) ths (k_current k) (k_ready k) (k_lastSwitchTick k) (k_tbd k) (k_threadIds k)
    (k_sems k) (k_locks k) (k_conds k) (k_slists k) (k_randoms k) (k_prio k).
Definition k_set_current (t : tid) (k : Kernel) : Kernel :=
  mkKernel (k_hw k) (k_threads k) t (k_ready k) (k_lastSwitchTick k) (k_tbd k) (k_threadIds k)
    (k_sems k) (k_locks k) (k_conds k) (k_slists k) (k_randoms k) (k_prio k).
Definition k_set_ready (r : list (Z * tid)) (k : Kernel) : Kernel :=
  mkKernel (k_hw k) (k_threads k) (k_current k) r (k_lastSwitchTick k) (k_tbd k) (k_threadIds k)
    (k_sems k) (k_locks k) (k_conds k) (k_slists k) (k_randoms k) (k_prio k).
Definition k_set_switch (z : Z) (k : Kernel) : Kernel :=
  mkKernel (k_hw k) (k_threads k) (k_current k) (k_ready k) z (k_tbd k) (k_threadIds k)
    (k_sems k) (k_locks k) (k_conds k) (k_slists k) (k_randoms k) (k_prio k).
Definition k_set_tbd (o : option tid) (k : Kernel) : Kernel :=
  mkKernel (k_hw k) (k_threads k) (k_current k) (k_ready k) (k_lastSwitchTick k) o (k_threadIds k)
    (k_sems k) (k_locks k) (k_conds k) (k_slists k) (k_randoms k) (k_prio k).
Definition k_set_ids (ids : list Z) (k : Kernel) : Kernel :=
  mkKernel (k_hw k) (k_threads k) (k_current k) (k_ready k) (k_lastSwitchTick k) (k_tbd k) ids
    (k_sems k) (k_locks k) (k_conds k) (k_slists k) (k_randoms k) (k_prio k).
Definition k_set_sems (l : list Semaphore) (k : Kernel) : Kernel :=
  mkKernel (k_hw k) (k_threads k) (k_current k) (k_ready k) (k_lastSwitchTick k) (k_tbd k) (k_threadIds k)
    l (k_locks k) (k_conds k) (k_slists k) (k_randoms k) (k_prio k).
Definition k_set_locks (l : list Lock) (k : Kernel) : Kernel :=
  mkKernel (k_hw k) (k_threads k) (k_current k) (k_ready k) (k_lastSwitchTick k) (k_tbd k) (k_threadIds k)
    (k_sems k) l (k_conds k) (k_slists k) (k_randoms k) (k_prio k).
Definition k_set_conds (l : list Condition) (k : Kernel) : Kernel :=
  mkKernel (k_hw k) (k_threads k) (k_current k) (k_ready k) (k_lastSwitchTick k) (k_tbd k) (k_threadIds k)
    (k_sems k) (k_locks k) l (k_slists k) (k_randoms k) (k_prio k).
Definition k_set_slists (l : list SynchList) (k : Kernel) : Kernel :=
  mkKernel (k_hw k) (k_threads k) (k_current k) (k_ready k) (k_lastSwitchTick k) (k_tbd k) (k_threadIds k)
    (k_sems k) (k_locks k) (k_conds k) l (k_randoms k) (k_prio k).
Definition k_set_randoms (l : list N) (k : Kernel) : Kernel :=
  mkKernel (k_hw k) (k_threads k) (k_current k) (k_ready k) (k_lastSwitchTick k) (k_tbd k) (k_threadIds k)
    (k_sems k) (k_locks k) (k_conds k) (k_slists k) l (k_prio k).

Definition thread (k : Kernel) (t : tid) : result Thread := deref (k_threads k !! t).

Definition set_thread (t : tid) (th : Thread) (k : Kernel) : Kernel :=
  k_set_threads (<[t := th]> (k_threads k)) k.

Definition set_status (t : tid) (st : ThreadStatus) (k : Kernel) : result Kernel :=
  th ← thread k t;
  Ok (set_thread t (mkThread st (th_threadId th) (th_priority th) (th_stack th)) k).

Definition set_stack (t : tid) (fs : list frame) (k : Kernel) : result Kernel :=
  th ← thread k t;
  Ok (set_thread t (mkThread (th_status th) (th_threadId th) (th_priority th) fs) k).

(** A call leaves the caller's frames on the stack of the current thread. *)
Definition push (fs : list frame) (k : Kernel) : result Kernel :=
  th ← thread k (k_current k);
  set_stack (k_current k) (fs ++ th_stack th) k.

Definition level (k : Kernel) : IntStatus := hw_level (k_hw k).

Definition get_sem (r : sem_ref) (k : Kernel) : result Semaphore :=
  match r with
  | SUser s => deref (k_sems k !! s)
  | SLock l => lk ← deref (k_locks k !! l); Ok (lk_sem lk)
  end.

Definition set_sem (r : sem_ref) (sm : Semaphore) (k : Kernel) : result Kernel :=
  match r with
  | SUser s => Ok (k_set_sems (<[s := sm]> (k_sems k)) k)
  | SLock l => lk ← deref (k_locks k !! l);
               Ok (k_set_locks (<[l := mkLock sm (lk_owner lk)]> (k_locks k)) k)
  end.

(** ** scheduler.cc *)

Definition Scheduler_ReadyToRun (t : tid) (k : Kernel) : result Kernel :=
  k ← set_status t READY k;
  th ← thread k t;
  Ok (k_set_ready (if k_prio k then sl_SortedInsert t (th_priority th) (k_ready k)
                   else sl_Append t (k_ready k)) k).

Definition Scheduler_FindNextToRun (bySleep : bool) (k : Kernel) : result (option tid * Kernel) :=
  let ticks := systemTicks (hw_stats (k_hw k)) in
  if bySleep then
    let k := k_set_switch ticks k in
    match sl_SortedRemove (k_ready k) with
    | None => Ok (None, k)
    | Some ((_, next), rest) => Ok (Some next, k_set_ready rest k)
    end
  else if sl_IsEmpty (k_ready k) then Ok (None, k)
  else
    match sl_SortedRemove (k_ready k) with
    | None => Ok (None, k)
    | Some ((_, next), rest) =>
        if k_prio k then
          n ← thread k next;
          c ← thread k (k_current k);
          if th_priority n <? th_priority c
          then Ok (Some next, k_set_ready rest (k_set_switch ticks k))
          else Ok (None, k_set_ready (sl_SortedInsert next (th_priority n) rest) k)
        else Ok (Some next, k_set_ready rest (k_set_switch ticks k))
    end.

(** [Scheduler::Run] up to [SWITCH]: the old thread resumes at [FRun].  The test for an overflow
    of the stack of the old thread, [CheckOverflow], is modelled with the stacks in Switch.v. *)
Definition Scheduler_Run (next : tid) (k : Kernel) : result Kernel :=
  k ← push [FRun] k;
  set_status next RUNNING (k_set_current next k).

(** [Thread::~Thread]. *)
Definition Thread_delete (t : tid) (k : Kernel) : result Kernel :=
  th ← thread k t;
  let k := k_set_ids (<[Z.to_nat (th_threadId th) := 0]> (k_threadIds k)) k in
  ASSERT (bool_decide (t <> k_current k)) ;;
  Ok (k_set_threads (delete t (k_threads k)) k).

(** [Scheduler::Run] behind [SWITCH]. *)
Definition Scheduler_Run_done (k : Kernel) : result Kernel :=
  match k_tbd k with
  | Some t => k ← Thread_delete t k; Ok (k_set_tbd None k)
  | None => Ok k
  end.

(** ** Semaphore::V, and the interrupt handlers *)

Definition Semaphore_V_body (r : sem_ref) (k : Kernel) : result Kernel :=
  sm ← get_sem r k;
  k ← match sl_SortedRemove (sem_queue sm) with
      | Some ((_, t), q) => k ← set_sem r (mkSem (sem_value sm) q) k; Scheduler_ReadyToRun t k
      | None => Ok k
      end;
  sm ← get_sem r k;
  set_sem r (mkSem (i32 (sem_value sm + 1)) (sem_queue sm)) k.

Definition Random (k : Kernel) : Z * Kernel :=
  match k_randoms k with
  | [] => (0, k)
  | r :: rs => (Z.of_N r, k_set_randoms rs k)
  end.

Definition Timer_TimeOfNextInterrupt (randomize : bool) (k : Kernel) : Z * Kernel :=
  if randomize then let '(r, k) := Random k in (1 + r `rem` (TimerTicks * 2), k)
  else (TimerTicks, k).

Definition TimerInterruptHandler (k : Kernel) : result Kernel :=
  if decide (hw_status (k_hw k) <> IdleMode)
  then hw ← Interrupt_YieldOnReturn (k_hw k); Ok (k_set_hw hw k)
  else Ok k.

Definition Timer_TimerExpired (randomize : bool) (k : Kernel) : result Kernel :=
  let '(delay, k) := Timer_TimeOfNextInterrupt randomize k in
  hw ← Interrupt_Schedule (HTimer randomize) delay TimerInt (k_hw k);
  TimerInterruptHandler (k_set_hw hw k).

(** The call of the handler of an interrupt; [V] in a handler runs with interrupts off. *)
Definition call_handler (h : handler) (k : Kernel) : result (Kernel * list event) :=
  match h with
  | HTimer randomize => k ← Timer_TimerExpired randomize k; Ok (k, [])
  | HDevice s => k ← Semaphore_V_body (SUser s) k; Ok (k, [EvV (SUser s)])
  end.

(** [Interrupt::CheckIfDue]: whether a handler ran. *)
Definition Interrupt_CheckIfDue (advanceClock : bool) (k : Kernel) : result (bool * Kernel * list event) :=
  let old := hw_status (k_hw k) in
  '(fire, hw) ← CheckIfDue_pick advanceClock (k_hw k);
  let k := k_set_hw hw k in
  match fire with
  | None => Ok (false, k, [])
  | Some p =>
      '(k, evs) ← call_handler (pi_handler p) k;
      Ok (true, k_set_hw (CheckIfDue_done old (k_hw k)) k, evs)
  end.

(** [while (CheckIfDue(FALSE)) ;] *)
Fixpoint check_loop (fuel : nat) (k : Kernel) : result (Kernel * list event) :=
  match fuel with
  | O => Err OutOfFuel
  | S fuel =>
      '(b, k, evs) ← Interrupt_CheckIfDue false k;
      if (b : bool) then '(k, evs') ← check_loop fuel k; Ok (k, evs ++ evs') else Ok (k, evs)
  end.

(** Every round removes a due interrupt, and handlers add none that is due. *)
Definition loop_fuel (k : Kernel) : nat := S (length (hw_pending (k_hw k))).

(** ** thread.cc and the rest of interrupt.cc *)

(** [Thread::Yield] up to [SWITCH]; the final [SetLevel(oldLevel)] waits in the frame, also
    when no other thread is to run. *)
Definition Thread_Yield (k : Kernel) : result Kernel :=
  let oldLevel := level k in
  let k := k_set_hw (Interrupt_ChangeLevel IntOff (k_hw k)) k in
  '(next, k) ← Scheduler_FindNextToRun false k;
  k ← push [FYield oldLevel] k;
  match next with
  | Some next => k ← Scheduler_ReadyToRun (k_current k) k; Scheduler_Run next k
  | None => Ok k
  end.

(** [Interrupt::OneTick]; [level k] is [IntOn]. *)
Definition Interrupt_OneTick (k : Kernel) : result (Kernel * list event) :=
  let old := hw_status (k_hw k) in
  let k := k_set_hw (advance_time (k_hw k)) k in
  let k := k_set_hw (Interrupt_ChangeLevel IntOff (k_hw k)) k in
  '(k, evs) ← check_loop (loop_fuel k) k;
  let k := k_set_hw (Interrupt_ChangeLevel IntOn (k_hw k)) k in
  if hw_yieldOnReturn (k_hw k) then
    let k := k_set_hw (hw_set_status SystemMode (hw_set_yield false (k_hw k))) k in
    k ← push [FOneTick old] k;
    k ← Thread_Yield k;
    Ok (k, evs)
  else Ok (k, evs).

(** [Interrupt::SetLevel]; the old level is the caller's [level k]. *)
Definition Interrupt_SetLevel (now : IntStatus) (k : Kernel) : result (Kernel * list event) :=
  let old := level k in
  ASSERT (bool_decide (now = IntOff) || negb (hw_inHandler (k_hw k))) ;;
  let k := k_set_hw (Interrupt_ChangeLevel now (k_hw k)) k in
  if decide (now = IntOn /\ old = IntOff) then Interrupt_OneTick k else Ok (k, []).

(** [SetLevel(IntOff)]: no time passes. *)
Definition disable (k : Kernel) : Kernel := k_set_hw (Interrupt_ChangeLevel IntOff (k_hw k)) k.

Inductive outcome := Running (k : Kernel) | Halted (k : Kernel).

(** [Interrupt::Idle] *)
Definition Interrupt_Idle (k : Kernel) : result (outcome * list event) :=
  let k := k_set_hw (hw_set_status IdleMode (k_hw k)) k in
  '(b, k, evs) ← Interrupt_CheckIfDue true k;
  if (b : bool) then
    '(k, evs') ← check_loop (loop_fuel k) k;
    Ok (Running (k_set_hw (hw_set_status SystemMode (hw_set_yield false (k_hw k))) k), evs ++ evs')
  else Ok (Halted k, evs).

(** [Thread::Sleep] up to its loop. *)
Definition Thread_Sleep (k : Kernel) : result Kernel :=
  ASSERT (bool_decide (level k = IntOff)) ;;
  k ← set_status (k_current k) BLOCKED k;
  push [FSleep] k.

(** One round of the loop of [Sleep]. *)
Definition Sleep_loop (k : Kernel) : result (outcome * list event) :=
  '(next, k) ← Scheduler_FindNextToRun true k;
  match next with
  | Some next => k ← Scheduler_Run next k; Ok (Running k, [])
  | None => k ← push [FSleep] k; Interrupt_Idle k
  end.

Definition Thread_Finish (k : Kernel) : result Kernel :=
  let k := disable k in
  Thread_Sleep (k_set_tbd (Some (k_current k)) k).

Fixpoint find_id (i : nat) (ids : list Z) : option nat :=
  match ids with
  | [] => None
  | x :: ids => if x =? 0 then Some i else find_id (S i) ids
  end.

Definition allocatedThreadID (k : Kernel) : Z * Kernel :=
  match find_id 0 (k_threadIds k) with
  | Some i => (Z.of_nat i, k_set_ids (<[i := 1]> (k_threadIds k)) k)
  | None => (-1, k)
  end.

(** [Thread::Thread]: [pri] is assigned back to the parameter when it is out of range, the
    field then keeps the [garbage] of the allocation. *)
Definition Thread_priority (garbage pri : Z) : Z :=
  if pri <? 0 then garbage else if 10 <? pri then garbage else pri.

Definition Thread_new (garbage pri : Z) (fs : list frame) (k : Kernel) : result (tid * Kernel) :=
  let '(id, k) := allocatedThreadID k in
  ASSERT (negb (id =? -1)) ;;
  let t := fresh (dom (k_threads k)) in
  Ok (t, set_thread t (mkThread JUST_CREATED id (Thread_priority garbage pri) fs) k).

(** [Thread::Fork]: the stack of the new thread starts in [ThreadRoot]. *)
Definition Thread_Fork (garbage pri : Z) (body : list op) (k : Kernel) : result (Kernel * list event) :=
  '(t, k) ← Thread_new garbage pri (FEnable :: map FOp body ++ [FFinish]) k;
  let oldLevel := level k in
  k ← Scheduler_ReadyToRun t (disable k);
  Interrupt_SetLevel oldLevel k.

(** ** synch.cc and synchlist.cc *)

Definition Semaphore_P (r : sem_ref) (k : Kernel) : result Kernel :=
  push [FPLoop r (level k)] (disable k).

(** The loop of [P] from its test on. *)
Definition Semaphore_P_loop (r : sem_ref) (oldLevel : IntStatus) (k : Kernel) : result (Kernel * list event) :=
  sm ← get_sem r k;
  if sem_value sm =? 0 then
    k ← set_sem r (mkSem (sem_value sm) (sl_Append (k_current k) (sem_queue sm))) k;
    k ← push [FPLoop r oldLevel] k;
    k ← Thread_Sleep k;
    Ok (k, [])
  else
    let t := k_current k in
    k ← set_sem r (mkSem (i32 (sem_value sm - 1)) (sem_queue sm)) k;
    '(k, evs) ← Interrupt_SetLevel oldLevel k;
    Ok (k, EvP r t :: evs).

Definition Semaphore_V (r : sem_ref) (k : Kernel) : result (Kernel * list event) :=
  let oldLevel := level k in
  k ← Semaphore_V_body r (disable k);
  '(k, evs) ← Interrupt_SetLevel oldLevel k;
  Ok (k, EvV r :: evs).

Definition set_owner (l : nat) (o : option tid) (k : Kernel) : result Kernel :=
  lk ← deref (k_locks k !! l);
  Ok (k_set_locks (<[l := mkLock (lk_sem lk) o]> (k_locks k)) k).

Definition Lock_isHeldByCurrentThread (l : nat) (k : Kernel) : result bool :=
  lk ← deref (k_locks k !! l); Ok (bool_decide (lk_owner lk = Some (k_current k))).

Definition Lock_Acquire (l : nat) (k : Kernel) : result Kernel :=
  let prev := level k in
  k ← push [FAcquire l prev] (disable k);
  Semaphore_P (SLock l) k.

Definition Lock_Acquire_done (l : nat) (prev : IntStatus) (k : Kernel) : result (Kernel * list event) :=
  let t := k_current k in
  k ← set_owner l (Some t) k;
  '(k, evs) ← Interrupt_SetLevel prev k;
  Ok (k, EvAcquire l t :: evs).

Definition Lock_Release (l : nat) (k : Kernel) : result (Kernel * list event) :=
  let prev := level k in
  let t := k_current k in
  let k := disable k in
  held ← Lock_isHeldByCurrentThread l k;
  ASSERT held ;;
  '(k, evs) ← Semaphore_V (SLock l) k;
  k ← set_owner l None k;
  '(k, evs') ← Interrupt_SetLevel prev k;
  Ok (k, evs ++ EvRelease l t :: evs').

Definition Condition_Wait (c l : nat) (k : Kernel) : result (Kernel * list event) :=
  let prev := level k in
  let k := disable k in
  held ← Lock_isHeldByCurrentThread l k;
  ASSERT held ;;
  '(k, evs) ← Lock_Release l k;
  cv ← deref (k_conds k !! c);
  let k := k_set_conds (<[c := mkCond (sl_Append (k_current k) (cv_queue cv))]> (k_conds k)) k in
  k ← push [FWait c l prev] k;
  k ← Thread_Sleep k;
  Ok (k, evs).

Definition Condition_Wait_done (l : nat) (prev : IntStatus) (k : Kernel) : result Kernel :=
  k ← push [FWaitEnd prev] k;
  Lock_Acquire l k.

(** The body of [Signal] between its two [SetLevel] calls. *)
Definition Condition_Signal_body (c l : nat) (k : Kernel) : result Kernel :=
  held ← Lock_isHeldByCurrentThread l k;
  ASSERT held ;;
  cv ← deref (k_conds k !! c);
  match sl_SortedRemove (cv_queue cv) with
  | Some ((_, t), q) => Scheduler_ReadyToRun t (k_set_conds (<[c := mkCond q]> (k_conds k)) k)
  | None => Ok k
  end.

Definition Condition_Signal (c l : nat) (k : Kernel) : result (Kernel * list event) :=
  let prev := level k in
  k ← Condition_Signal_body c l (disable k);
  Interrupt_SetLevel prev k.

(** [while (!queue->IsEmpty()) Signal(conditionLock);]; one round per queued thread. *)
Fixpoint Broadcast_loop (fuel : nat) (c l : nat) (k : Kernel) : result (Kernel * list event) :=
  cv ← deref (k_conds k !! c);
  if sl_IsEmpty (cv_queue cv) then Ok (k, [])
  else match fuel with
       | O => Err OutOfFuel
       | S fuel => '(k, evs) ← Condition_Signal c l k;
                   '(k, evs') ← Broadcast_loop fuel c l k;
                   Ok (k, evs ++ evs')
       end.

Definition Condition_Broadcast (c l : nat) (k : Kernel) : result (Kernel * list event) :=
  let prev := level k in
  let k := disable k in
  held ← Lock_isHeldByCurrentThread l k;
  ASSERT held ;;
  cv ← deref (k_conds k !! c);
  '(k, evs) ← Broadcast_loop (length (cv_queue cv)) c l k;
  '(k, evs') ← Interrupt_SetLevel prev k;
  Ok (k, evs ++ evs').

Definition SynchList_Append (q : nat) (item : Z) (k : Kernel) : result Kernel :=
  sq ← deref (k_slists k !! q);
  k ← push [FListAppend q item] k;
  Lock_Acquire (sq_lock sq) k.

Definition SynchList_Append_done (q : nat) (item : Z) (k : Kernel) : result (Kernel * list event) :=
  sq ← deref (k_slists k !! q);
  let k := k_set_slists (<[q := mkSynchList (sl_Append item (sq_list sq)) (sq_lock sq) (sq_listEmpty sq)]>
                           (k_slists k)) k in
  k ← push [FOp (OpRelease (sq_lock sq))] k;
  '(k, evs) ← Condition_Signal (sq_listEmpty sq) (sq_lock sq) k;
  Ok (k, EvAppended q item :: evs).

Definition SynchList_Remove (q : nat) (k : Kernel) : result Kernel :=
  sq ← deref (k_slists k !! q);
  k ← push [FListRemove q] k;
  Lock_Acquire (sq_lock sq) k.

(** The loop of [Remove] and what follows it; [ASSERT(item != NULL)] fails for item 0. *)
Definition SynchList_Remove_loop (q : nat) (k : Kernel) : result (Kernel * list event) :=
  sq ← deref (k_slists k !! q);
  match sl_SortedRemove (sq_list sq) with
  | None =>
      k ← push [FListRemove q] k;
      Condition_Wait (sq_listEmpty sq) (sq_lock sq) k
  | Some ((_, item), rest) =>
      let k := k_set_slists (<[q := mkSynchList rest (sq_lock sq) (sq_listEmpty sq)]> (k_slists k)) k in
      ASSERT (negb (item =? 0)) ;;
      '(k, evs) ← Lock_Release (sq_lock sq) k;
      Ok (k, EvRemoved q item :: evs)
  end.

(** ** One step of the current thread *)

Definition exec_op (o : op) (k : Kernel) : result (Kernel * list event) :=
  let quiet (r : result Kernel) := k ← r; Ok (k, []) in
  match o with
  | OpP s => quiet (Semaphore_P (SUser s) k)
  | OpV s => Semaphore_V (SUser s) k
  | OpAcquire l => quiet (Lock_Acquire l k)
  | OpRelease l => Lock_Release l k
  | OpWait c l => Condition_Wait c l k
  | OpSignal c l => Condition_Signal c l k
  | OpBroadcast c l => Condition_Broadcast c l k
  | OpListAppend q item => quiet (SynchList_Append q item k)
  | OpListRemove q => quiet (SynchList_Remove q k)
  | OpYield => quiet (Thread_Yield k)
  | OpSlice =>
      if TimerSlice <=? i32 (systemTicks (hw_stats (k_hw k)) - k_lastSwitchTick k) then quiet (Thread_Yield k) else Ok (k, [])
  | OpFork garbage pri body => Thread_Fork garbage pri body k
  | OpRequest s ticks =>
      hw ← Interrupt_Schedule (HDevice s) ticks DiskInt (k_hw k); Ok (k_set_hw hw k, [])
  | OpTick => Interrupt_OneTick k
  end.

Definition exec_frame (f : frame) (k : Kernel) : result (outcome * list event) :=
  let run (r : result (Kernel * list event)) := '(k, evs) ← r; Ok (Running k, evs) in
  let quiet (r : result Kernel) := k ← r; Ok (Running k, []) in
  match f with
  | FOp o => run (exec_op o k)
  | FEnable => run (Interrupt_SetLevel IntOn k)
  | FFinish => quiet (Thread_Finish k)
  | FPLoop r old => run (Semaphore_P_loop r old k)
  | FAcquire l prev => run (Lock_Acquire_done l prev k)
  | FWait _ l prev => quiet (Condition_Wait_done l prev k)
  | FWaitEnd prev => run (Interrupt_SetLevel prev k)
  | FListAppend q item => run (SynchList_Append_done q item k)
  | FListRemove q => run (SynchList_Remove_loop q k)
  | FYield old => run (Interrupt_SetLevel old k)
  | FSleep => Sleep_loop k
  | FRun => quiet (Scheduler_Run_done k)
  | FOneTick old => Ok (Running (k_set_hw (hw_set_status old (k_hw k)) k), [])
  end.

(** The current thread continues with its topmost frame. *)
Definition kstep (k : Kernel) : result (outcome * list event) :=
  th ← thread k (k_current k);
  match th_stack th with
  | [] => Err MemFault
  | f :: fs => k ← set_stack (k_current k) fs k; exec_frame f k
  end.

(** ** Starting up (system.cc, [Initialize]) *)

Definition Initialize (prio : bool) (timer : option bool) (randoms : list N) (sems : list Z)
    (nlocks nconds : nat) (slists : list (nat * nat)) (main : list op) : result Kernel :=
  let k := mkKernel Interrupt_new ∅ 1%positive [] 0 None (replicate maxThreadsCount 0)
             (map (fun v => mkSem v []) sems)
             (replicate nlocks (mkLock (mkSem 1 []) None))
             (replicate nconds (mkCond []))
             (map (fun '(l, c) => mkSynchList [] l c) slists) randoms prio in
  k ← match timer with
      | Some randomize =>
          let '(delay, k) := Timer_TimeOfNextInterrupt randomize k in
          hw ← Interrupt_Schedule (HTimer randomize) delay TimerInt (k_hw k);
          Ok (k_set_hw hw k)
      | None => Ok k
      end;
  '(t, k) ← Thread_new 0 6 (FEnable :: map FOp main ++ [FFinish]) k;
  set_status t RUNNING (k_set_current t k).

(** Running the machine for at most [fuel] steps: the state and the events so far. *)
Fixpoint krun (fuel : nat) (k : Kernel) : result (outcome * list event) :=
  match fuel with
  | O => Ok (Running k, [])
  | S fuel =>
      '(o, evs) ← kstep k;
      match o with
      | Halted k => Ok (Halted k, evs)
      | Running k => '(o, evs') ← krun fuel k; Ok (o, evs ++ evs')
      end
  end.
