(* ===== verification/KernelInv.v ===== *)
(** * The invariants of the thread kernel

    Every thread is in exactly one place (running, on the ready list, in one waiting queue,
    or finished), the stacks of suspended threads can be resumed with interrupts off, a
    lock's semaphore and its owner agree.  [kstep_safe] shows that the step function keeps
    this and that the assertions inside the kernel cannot fail, whatever the threads do and
    whenever interrupts come; only misuse of the interface by a thread is reported. *)

From S2P Require Import Prelude SList Interrupt Kernel.

(** ** Outcomes: a weakest precondition for [result] *)

Definition wp {A} (E : error -> Prop) (r : result A) (Q : A -> Prop) : Prop :=
  match r with Ok a => Q a | Err e => E e end.

Lemma wp_bind {A B} (E : error -> Prop) (r : result A) (f : A -> result B) Q :
  wp E r (fun a => wp E (f a) Q) -> wp E (r ≫= f) Q.
Proof. by destruct r. Qed.

Lemma wp_mono {A} (E E' : error -> Prop) (r : result A) (Q Q' : A -> Prop) :
  wp E r Q -> (forall e, E e -> E' e) -> (forall a, Q a -> Q' a) -> wp E' r Q'.
Proof. destruct r; simpl; auto. Qed.

Lemma wp_Ok {A} E (r : result A) a (Q : A -> Prop) : r = Ok a -> Q a -> wp E r Q.
Proof. by intros ->. Qed.

(** ** Views of the state *)

Definition stack_of (k : Kernel) (t : tid) : option (list frame) := th_stack <$> k_threads k !! t.
Definition status_of (k : Kernel) (t : tid) : option ThreadStatus := th_status <$> k_threads k !! t.

Definition waiters (k : Kernel) : list tid :=
  (k_sems k ≫= fun s => (sem_queue s).*2)
  ++ (k_locks k ≫= fun l => (sem_queue (lk_sem l)).*2)
  ++ (k_conds k ≫= fun c => (cv_queue c).*2).

Definition queued (k : Kernel) : list tid := (k_ready k).*2 ++ waiters k.

(** The numbers of objects, and the lock and condition of each synchronised list. *)
Record sizes := mkSizes { z_sems : nat; z_locks : nat; z_conds : nat; z_lists : list (nat * nat) }.

Definition sized (z : sizes) (k : Kernel) : Prop :=
  length (k_sems k) = z_sems z /\ length (k_locks k) = z_locks z /\ length (k_conds k) = z_conds z
  /\ map (fun q => (sq_lock q, sq_listEmpty q)) (k_slists k) = z_lists z
  /\ Forall (fun p => p.1 < z_locks z /\ p.2 < z_conds z)%nat (z_lists z).

Definition sem_ok (z : sizes) (r : sem_ref) : Prop :=
  match r with SUser s => (s < z_sems z)%nat | SLock l => (l < z_locks z)%nat end.

Fixpoint op_ok (z : sizes) (o : op) : Prop :=
  match o with
  | OpP s | OpV s | OpRequest s _ => (s < z_sems z)%nat
  | OpAcquire l | OpRelease l => (l < z_locks z)%nat
  | OpWait c l | OpSignal c l | OpBroadcast c l => (c < z_conds z)%nat /\ (l < z_locks z)%nat
  | OpListAppend q _ | OpListRemove q => (q < length (z_lists z))%nat
  | OpYield | OpSlice | OpTick => True
  | OpFork _ _ body => foldr (fun o P => op_ok z o /\ P) True body
  end.

Definition frame_ok (z : sizes) (f : frame) : Prop :=
  match f with
  | FOp o => op_ok z o
  | FPLoop r _ => sem_ok z r
  | FAcquire l _ => (l < z_locks z)%nat
  | FWait c l _ => (c < z_conds z)%nat /\ (l < z_locks z)%nat
  | FListAppend q _ | FListRemove q => (q < length (z_lists z))%nat
  | _ => True
  end.

(** ** Stacks *)

(** The interrupt level a frame is resumed at, and the level it leaves behind. *)
Definition entry (f : frame) : IntStatus :=
  match f with
  | FOp _ | FFinish | FListAppend _ _ | FListRemove _ | FOneTick _ => IntOn
  | _ => IntOff
  end.

Definition leave (f : frame) : IntStatus :=
  match f with
  | FPLoop _ l | FAcquire _ l | FWait _ _ l | FWaitEnd l | FYield l => l
  | FSleep | FRun => IntOff
  | _ => IntOn
  end.

Fixpoint lvl_ok (lvl : IntStatus) (stk : list frame) : Prop :=
  match stk with
  | [] => True
  | f :: stk => lvl = entry f /\ lvl_ok (leave f) stk
  end.

(** The frames below the topmost one: [ThreadFinish] at the bottom, and [lock->P()] is
    called by [Acquire] only, with interrupts off. *)
Fixpoint shape (stk : list frame) : Prop :=
  match stk with
  | [] => False
  | FFinish :: rest => rest = []
  | FPLoop (SLock l) old :: rest =>
      old = IntOff /\ match rest with FAcquire l' _ :: rest' => l' = l /\ shape rest' | _ => False end
  | FAcquire _ _ :: _ | FSleep :: _ | FRun :: _ => False
  | _ :: rest => shape rest
  end.

Definition code_ok (z : sizes) (stk : list frame) : Prop := Forall (frame_ok z) stk /\ shape stk.

(** A suspended thread: finished, or inside [Run], or not yet started. *)
Definition parked (z : sizes) (stk : list frame) : Prop :=
  stk = [FRun]
  \/ exists f rest, stk = f :: rest /\ (f = FRun \/ f = FEnable) /\ code_ok z rest
       /\ lvl_ok IntOff stk.

Definition handler_ok (z : sizes) (h : handler) : Prop :=
  match h with HTimer _ => True | HDevice s => (s < z_sems z)%nat end.

(** ** The invariant, apart from the current thread's own stack and the locks *)

Record core (z : sizes) (k : Kernel) : Prop := {
  c_nodup : NoDup (queued k);
  c_ready : forall t, t ∈ (k_ready k).*2 -> status_of k t = Some READY;
  c_wait : forall t, t ∈ waiters k -> status_of k t = Some BLOCKED;
  c_live : forall t stk, t ∈ queued k -> stack_of k t = Some stk -> stk <> [FRun] /\ stk <> [FSleep];
  c_lost : forall t stk, stack_of k t = Some stk -> t ∈ queued k \/ t = k_current k \/ stk = [FRun];
  c_park : forall t stk, stack_of k t = Some stk -> t <> k_current k -> parked z stk;
  c_cur : is_Some (stack_of k (k_current k));
  c_tbd : forall t, k_tbd k = Some t -> (t ∉ queued k) /\ exists stk, stack_of k t = Some stk
            /\ (t <> k_current k -> stk = [FRun]);
  c_pend : pending_ok (k_hw k) /\ Forall (fun x => handler_ok z (pi_handler x.2)) (hw_pending (k_hw k));
  c_size : sized z k
}.

(** ** Small lemmas on the views *)

Lemma bind_insert {A B} (f : A -> list B) (l : list A) i x :
  l !! i = Some x ->
  exists rest, l ≫= f ≡ₚ f x ++ rest /\ forall y, <[i := y]> l ≫= f ≡ₚ f y ++ rest.
Proof.
  intros Hi. pose proof (lookup_lt_Some _ _ _ Hi) as Hl.
  exists ((take i l ≫= f) ++ (drop (S i) l ≫= f)). split.
  - rewrite <-(take_drop_middle _ _ _ Hi) at 1. rewrite bind_app, bind_cons.
    rewrite !(assoc_L (++)). apply Permutation_app_tail, Permutation_app_comm.
  - intros y. rewrite insert_take_drop by done. rewrite bind_app, bind_cons.
    rewrite !(assoc_L (++)). apply Permutation_app_tail, Permutation_app_comm.
Qed.

Lemma set_thread_views t th k t' :
  stack_of (set_thread t th k) t' = (if decide (t' = t) then Some (th_stack th) else stack_of k t')
  /\ status_of (set_thread t th k) t' = (if decide (t' = t) then Some (th_status th) else status_of k t').
Proof.
  unfold stack_of, status_of, set_thread. simpl. case_decide as He.
  - subst. by rewrite lookup_insert_eq.
  - by rewrite lookup_insert_ne.
Qed.

Lemma stack_thread k t stk : stack_of k t = Some stk -> exists th, k_threads k !! t = Some th /\ th_stack th = stk.
Proof. unfold stack_of. intros (th & ? & ?)%fmap_Some. eauto. Qed.

Lemma status_thread k t st : status_of k t = Some st -> exists th, k_threads k !! t = Some th /\ th_status th = st.
Proof. unfold status_of. intros (th & ? & ?)%fmap_Some. eauto. Qed.

(** Everything but one field of the threads is as before. *)
Definition same_env (k k' : Kernel) : Prop :=
  k_hw k' = k_hw k /\ k_current k' = k_current k /\ k_tbd k' = k_tbd k
  /\ k_sems k' = k_sems k /\ k_locks k' = k_locks k /\ k_conds k' = k_conds k
  /\ k_slists k' = k_slists k /\ k_prio k' = k_prio k /\ k_threadIds k' = k_threadIds k.

Lemma set_status_ok t st k :
  is_Some (stack_of k t) ->
  exists k', set_status t st k = Ok k' /\ same_env k k' /\ k_ready k' = k_ready k
    /\ (forall t', stack_of k' t' = stack_of k t')
    /\ (forall t', status_of k' t' = if decide (t' = t) then Some st else status_of k t').
Proof.
  intros [stk Hs]. destruct (stack_thread _ _ _ Hs) as (th & Ht & <-).
  unfold set_status, thread. rewrite Ht. cbn [deref mbind result_bind].
  eexists. split; [done|]. split; [done|]. split; [done|]. split; intros t'.
  - rewrite (proj1 (set_thread_views _ _ _ _)). case_decide; [by subst|done].
  - by rewrite (proj2 (set_thread_views _ _ _ _)).
Qed.

Lemma push_ok fs k stk :
  stack_of k (k_current k) = Some stk ->
  exists k', push fs k = Ok k' /\ same_env k k' /\ k_ready k' = k_ready k
    /\ (forall t', stack_of k' t' = if decide (t' = k_current k) then Some (fs ++ stk) else stack_of k t')
    /\ (forall t', status_of k' t' = status_of k t').
Proof.
  intros Hs. destruct (stack_thread _ _ _ Hs) as (th & Ht & <-).
  unfold push, set_stack, thread. rewrite Ht. cbn [deref mbind result_bind].
  eexists. split; [done|]. split; [done|]. split; [done|].
  split; intros t'; [by rewrite (proj1 (set_thread_views _ _ _ _))|].
  rewrite (proj2 (set_thread_views _ _ _ _)). case_decide; [|done]. subst. unfold status_of. by rewrite Ht.
Qed.

Lemma waiters_env k k' : same_env k k' -> waiters k' = waiters k.
Proof. intros (_ & _ & _ & Hs & Hl & Hc & _). unfold waiters. by rewrite Hs, Hl, Hc. Qed.

(** The queue of a semaphore within all waiting queues. *)
Lemma get_sem_ok z k r :
  sized z k -> sem_ok z r ->
  exists sm rest, get_sem r k = Ok sm /\ waiters k ≡ₚ (sem_queue sm).*2 ++ rest
    /\ forall sm', exists k', set_sem r sm' k = Ok k' /\ waiters k' ≡ₚ (sem_queue sm').*2 ++ rest
         /\ get_sem r k' = Ok sm' /\ k_hw k' = k_hw k /\ k_threads k' = k_threads k
         /\ k_current k' = k_current k /\ k_ready k' = k_ready k /\ k_tbd k' = k_tbd k
         /\ sized z k' /\ k_slists k' = k_slists k
         /\ (forall r', r' <> r -> get_sem r' k' = get_sem r' k)
         /\ (forall l lk, k_locks k !! l = Some lk ->
               k_locks k' !! l = Some (if decide (r = SLock l) then mkLock sm' (lk_owner lk) else lk)).
Proof.
  intros (Hs & Hl & Hc & Hq & Hqs) Hr. destruct r as [s|l]; simpl in *.
  - destruct (lookup_lt_is_Some_2 (k_sems k) s) as [sm Hsm]; [lia|].
    destruct (bind_insert (fun s => (sem_queue s).*2) _ _ _ Hsm) as (rest & Hp & Hp').
    eexists sm, (rest ++ _). rewrite Hsm. split; [done|]. split.
    { unfold waiters. rewrite Hp. by rewrite <-(assoc_L (++)). }
    intros sm'. eexists. split; [done|]. split_and!; try done.
    + unfold waiters. simpl. rewrite Hp'. by rewrite <-(assoc_L (++)).
    + simpl. by rewrite list_lookup_insert_eq by lia.
    + unfold sized. simpl. by rewrite length_insert.
    + intros [s'|l'] Hne; [|done]. simpl. rewrite list_lookup_insert_ne; [done|congruence].
  - destruct (lookup_lt_is_Some_2 (k_locks k) l) as [lk Hlk]; [lia|].
    destruct (bind_insert (fun l => (sem_queue (lk_sem l)).*2) _ _ _ Hlk) as (rest & Hp & Hp').
    eexists (lk_sem lk), ((k_sems k ≫= fun s => (sem_queue s).*2) ++ rest ++ _). rewrite Hlk.
    cbn [deref mbind result_bind]. split; [done|]. split.
    { unfold waiters. rewrite Hp, <-(assoc_L (++)). apply Permutation_app_swap_app. }
    intros sm'. eexists. split; [done|]. split_and!; try done.
    + unfold waiters. simpl. rewrite Hp', <-(assoc_L (++)). apply Permutation_app_swap_app.
    + simpl. by rewrite list_lookup_insert_eq by lia.
    + unfold sized. simpl. by rewrite length_insert.
    + intros [s'|l'] Hne; [done|]. simpl. rewrite list_lookup_insert_ne; [done|congruence].
    + intros l' lk' Hl'. simpl. case_decide as Hd.
      * injection Hd as ->. rewrite Hlk in Hl'. injection Hl' as <-. by apply list_lookup_insert_eq; lia.
      * rewrite list_lookup_insert_ne; [done|congruence].
Qed.

(** ** The events of a trace and the objects *)

Definition sem_val (k : Kernel) (r : sem_ref) : Z :=
  match get_sem r k with Ok sm => sem_value sm | Err _ => 0 end.

Definition owner_of (k : Kernel) (l : nat) : option tid := k_locks k !! l ≫= lk_owner.

Definition sem_event (r : sem_ref) (v : Z) (e : event) : Z :=
  match e with
  | EvP r' _ => if decide (r' = r) then i32 (v - 1) else v
  | EvV r' => if decide (r' = r) then i32 (v + 1) else v
  | _ => v
  end.

Definition sem_after (r : sem_ref) (v : Z) (evs : list event) : Z := foldl (sem_event r) v evs.

(** [P] returns only when the value is not zero. *)
Fixpoint sem_legal (r : sem_ref) (v : Z) (evs : list event) : Prop :=
  match evs with
  | [] => True
  | e :: evs => (match e with EvP r' _ => r' = r -> v <> 0 | _ => True end)
                /\ sem_legal r (sem_event r v e) evs
  end.

Definition lock_event (l : nat) (o : option tid) (e : event) : option tid :=
  match e with
  | EvAcquire l' t => if decide (l' = l) then Some t else o
  | EvRelease l' _ => if decide (l' = l) then None else o
  | _ => o
  end.

Definition lock_after (l : nat) (o : option tid) (evs : list event) : option tid :=
  foldl (lock_event l) o evs.

(** [Acquire] returns only when nobody holds the lock; only the holder releases it. *)
Fixpoint lock_legal (l : nat) (o : option tid) (evs : list event) : Prop :=
  match evs with
  | [] => True
  | e :: evs => (match e with
                 | EvAcquire l' _ => l' = l -> o = None
                 | EvRelease l' t => l' = l -> o = Some t
                 | _ => True
                 end) /\ lock_legal l (lock_event l o e) evs
  end.

Lemma sem_legal_app r v e1 e2 :
  sem_legal r v e1 -> sem_legal r (sem_after r v e1) e2 -> sem_legal r v (e1 ++ e2).
Proof. revert v. induction e1 as [|e e1 IH]; intros v; simpl; [done|]. intros [? ?] ?. auto. Qed.

Lemma lock_legal_app l o e1 e2 :
  lock_legal l o e1 -> lock_legal l (lock_after l o e1) e2 -> lock_legal l o (e1 ++ e2).
Proof. revert o. induction e1 as [|e e1 IH]; intros o; simpl; [done|]. intros [? ?] ?. auto. Qed.

(** The items in a synchronised list, and the traffic of a trace on it. *)
Definition items (k : Kernel) (q : nat) : list Z :=
  match k_slists k !! q with Some sq => (sq_list sq).*2 | None => [] end.

Definition appended (q : nat) (evs : list event) : list Z :=
  omap (fun e => match e with EvAppended q' x => if decide (q' = q) then Some x else None | _ => None end) evs.

Definition removed (q : nat) (evs : list event) : list Z :=
  omap (fun e => match e with EvRemoved q' x => if decide (q' = q) then Some x else None | _ => None end) evs.

(** The events between two states account for the change of every object. *)
Definition explains (z : sizes) (k : Kernel) (evs : list event) (k' : Kernel) : Prop :=
  (forall r, sem_ok z r -> sem_legal r (sem_val k r) evs /\ sem_val k' r = sem_after r (sem_val k r) evs)
  /\ (forall l, (l < z_locks z)%nat ->
        lock_legal l (owner_of k l) evs /\ owner_of k' l = lock_after l (owner_of k l) evs)
  /\ (forall q, items k q ++ appended q evs = removed q evs ++ items k' q).

Lemma explains_refl z k k' :
  k_sems k' = k_sems k -> k_locks k' = k_locks k -> k_slists k' = k_slists k -> explains z k [] k'.
Proof.
  intros Hs Hl Hq. split; [|split].
  - intros r _. split; [done|]. unfold sem_val, get_sem. by rewrite Hs, Hl.
  - intros l _. split; [done|]. unfold owner_of. by rewrite Hl.
  - intros q. unfold items. cbn. by rewrite Hq, app_nil_r.
Qed.

Lemma explains_trans z k e1 k1 e2 k2 :
  explains z k e1 k1 -> explains z k1 e2 k2 -> explains z k (e1 ++ e2) k2.
Proof.
  intros (Hs1 & Hl1 & Hq1) (Hs2 & Hl2 & Hq2). split; [|split].
  - intros r Hr. destruct (Hs1 r Hr) as [? Hv1]. destruct (Hs2 r Hr) as [? Hv2]. rewrite Hv1 in *.
    split; [by apply sem_legal_app|]. unfold sem_after. by rewrite foldl_app.
  - intros l Hl. destruct (Hl1 l Hl) as [? Hv1]. destruct (Hl2 l Hl) as [? Hv2]. rewrite Hv1 in *.
    split; [by apply lock_legal_app|]. unfold lock_after. by rewrite foldl_app.
  - intros q. unfold appended, removed. rewrite !omap_app, (assoc_L (++)). fold (appended q e1) (removed q e1).
    rewrite Hq1, <-(assoc_L (++)). fold (appended q e2) (removed q e2). by rewrite Hq2, (assoc_L (++)).
Qed.

(** ** Waking a thread *)

Lemma ReadyToRun_ok t k :
  is_Some (stack_of k t) ->
  exists k', Scheduler_ReadyToRun t k = Ok k' /\ same_env k k'
    /\ (k_ready k').*2 ≡ₚ t :: (k_ready k).*2
    /\ (forall t', stack_of k' t' = stack_of k t')
    /\ (forall t', status_of k' t' = if decide (t' = t) then Some READY else status_of k t').
Proof.
  intros Hs. destruct (set_status_ok t READY k Hs) as (k1 & HS & Henv & Hr & Hst & Hstat).
  unfold Scheduler_ReadyToRun. rewrite HS. cbn [mbind result_bind].
  rewrite <-Hst in Hs. destruct Hs as [stk Hs]. destruct (stack_thread _ _ _ Hs) as (th & Ht & _).
  unfold thread. rewrite Ht. cbn [deref mbind result_bind]. eexists. split; [done|].
  split; [done|]. split; [|done]. simpl. rewrite Hr. destruct (k_prio k1).
  - rewrite sl_SortedInsert_perm. by rewrite fmap_cons.
  - unfold sl_Append. rewrite fmap_app. simpl. symmetry. apply Permutation_cons_append.
Qed.

Lemma core_move z k k' t :
  core z k -> waiters k ≡ₚ t :: waiters k' -> (k_ready k').*2 ≡ₚ t :: (k_ready k).*2 ->
  (forall t', stack_of k' t' = stack_of k t') ->
  (forall t', status_of k' t' = if decide (t' = t) then Some READY else status_of k t') ->
  k_hw k' = k_hw k -> k_current k' = k_current k -> k_tbd k' = k_tbd k -> sized z k' ->
  core z k' /\ queued k' ≡ₚ queued k.
Proof.
  intros Hc Hw Hr Hst Hstat Hhw Hcur Htbd Hsz.
  assert (Hq : queued k' ≡ₚ queued k).
  { unfold queued. rewrite Hr, Hw. simpl. apply Permutation_middle. }
  split; [|done]. pose proof (c_nodup _ _ Hc) as Hnd. rewrite <-Hq in Hnd.
  constructor; rewrite ?Hhw, ?Hcur, ?Htbd; try apply Hc; try done.
  - intros t' Ht'. rewrite Hstat. case_decide as Hd; [done|]. apply (c_ready _ _ Hc).
    rewrite Hr in Ht'. set_solver.
  - intros t' Ht'. rewrite Hstat. case_decide as Hd.
    + subst. exfalso. unfold queued in Hnd. apply NoDup_app in Hnd as (_ & Hdis & _).
      apply (Hdis t); [rewrite Hr; left|done].
    + apply (c_wait _ _ Hc). rewrite Hw. by right.
  - intros t' stk Ht'. rewrite Hq in Ht'. rewrite Hst. by apply (c_live _ _ Hc).
  - intros t' stk. rewrite Hst, Hq. apply (c_lost _ _ Hc).
  - intros t' stk. rewrite Hst. apply (c_park _ _ Hc).
  - rewrite Hst. apply (c_cur _ _ Hc).
  - intros t' Ht'. destruct (c_tbd _ _ Hc t' Ht') as [Hni (stk & Hs & Hf)]. rewrite Hq. split; [done|].
    exists stk. by rewrite Hst.
Qed.

Lemma queued_stack z k t : core z k -> t ∈ queued k -> is_Some (stack_of k t).
Proof.
  intros Hc Ht. unfold queued in Ht. apply elem_of_app in Ht as [Ht|Ht].
  - apply (c_ready _ _ Hc) in Ht. destruct (status_thread _ _ _ Ht) as (th & Hth & _).
    unfold stack_of. rewrite Hth. by eexists.
  - apply (c_wait _ _ Hc) in Ht. destruct (status_thread _ _ _ Ht) as (th & Hth & _).
    unfold stack_of. rewrite Hth. by eexists.
Qed.

(** The current thread's registers, the stacks and all objects but the semaphores are
    untouched; threads may have been moved from a waiting queue to the ready list. *)
Definition calm (k k' : Kernel) : Prop :=
  k_current k' = k_current k /\ k_tbd k' = k_tbd k
  /\ (forall t, stack_of k' t = stack_of k t) /\ queued k' ≡ₚ queued k
  /\ (forall t, t ∉ queued k -> status_of k' t = status_of k t)
  /\ k_slists k' = k_slists k.

Lemma calm_trans k k1 k2 : calm k k1 -> calm k1 k2 -> calm k k2.
Proof.
  intros (? & ? & Hs & Hq & Hst & ?) (? & ? & Hs' & Hq' & Hst' & ?).
  split; [congruence|]. split; [congruence|]. split; [intros t; by rewrite Hs', Hs|].
  split; [by rewrite Hq', Hq|]. split; [|congruence].
  intros t Ht. rewrite Hst' by (by rewrite Hq). by apply Hst.
Qed.

Lemma calm_hw k hw : calm k (k_set_hw hw k).
Proof. by split_and!. Qed.

Lemma core_hw z k hw :
  core z k -> pending_ok hw -> Forall (fun x => handler_ok z (pi_handler x.2)) (hw_pending hw) ->
  core z (k_set_hw hw k).
Proof. intros [] ? ?. by constructor. Qed.

(** A change that keeps the threads and only reorders queues. *)
Lemma core_same_queues z k k' :
  core z k -> k_threads k' = k_threads k -> (k_ready k').*2 ≡ₚ (k_ready k).*2 -> waiters k' ≡ₚ waiters k ->
  k_current k' = k_current k -> k_tbd k' = k_tbd k -> k_hw k' = k_hw k -> sized z k' -> core z k'.
Proof.
  intros Hc Hth Hrd Hw Hcur Htbd Hhw Hsz.
  assert (Hq : queued k' ≡ₚ queued k) by (unfold queued; by rewrite Hrd, Hw).
  assert (Hst : forall t, stack_of k' t = stack_of k t) by (intros; unfold stack_of; by rewrite Hth).
  assert (Hstat : forall t, status_of k' t = status_of k t) by (intros; unfold status_of; by rewrite Hth).
  constructor; rewrite ?Hcur, ?Htbd, ?Hhw; try apply Hc; try done.
  - rewrite Hq. apply Hc.
  - intros t. rewrite Hstat, Hrd. apply Hc.
  - intros t. rewrite Hstat, Hw. apply Hc.
  - intros t stk. rewrite Hst, Hq. apply Hc.
  - intros t stk. rewrite Hst, Hq. apply Hc.
  - intros t stk. rewrite Hst. apply Hc.
  - rewrite Hst. apply Hc.
  - intros t Ht. rewrite Hq, Hst. by apply Hc.
Qed.

(** [Semaphore::V] wakes the first waiter, if any, and adds one. *)
(** The first waiting thread is moved to the ready list. *)
Lemma V_wake_ok z r k sm :
  core z k -> sem_ok z r -> get_sem r k = Ok sm ->
  exists k1, (match sl_SortedRemove (sem_queue sm) with
      | Some ((_, t), q) => k ← set_sem r (mkSem (sem_value sm) q) k; Scheduler_ReadyToRun t k
      | None => Ok k end) = Ok k1
    /\ core z k1 /\ calm k k1 /\ k_hw k1 = k_hw k
    /\ (forall r', sem_ok z r' -> sem_val k1 r' = sem_val k r')
    /\ (forall l lk, k_locks k !! l = Some lk -> exists lk', k_locks k1 !! l = Some lk'
          /\ lk_owner lk' = lk_owner lk).
Proof.
  intros Hc Hr Hsm. destruct (get_sem_ok z k r (c_size _ _ Hc) Hr) as (sm' & rest & HG & Hw & Hset).
  rewrite Hsm in HG. injection HG as <-. rename Hsm into HG.
  destruct (sem_queue sm) as [|[key t] q] eqn:Hq; cbn [sl_SortedRemove].
  { exists k. split_and!; eauto. by split_and!. }
  destruct (Hset (mkSem (sem_value sm) q)) as
    (k1 & -> & Hw1 & HG1 & Hhw1 & Hth1 & Hcur1 & Hrd1 & Htbd1 & Hsz1 & Hsl1 & Hoth & Hlk1).
  cbn [mbind result_bind].
  assert (Hst1 : forall t', stack_of k1 t' = stack_of k t') by (intros; unfold stack_of; by rewrite Hth1).
  assert (Hin : t ∈ queued k) by (unfold queued; rewrite Hw, elem_of_app, elem_of_app; right; left; left).
  destruct (ReadyToRun_ok t k1) as (k2 & HR & Henv & Hrd2 & Hst2 & Hstat2);
    [rewrite Hst1; by apply (queued_stack z)|].
  pose proof Henv as (Hhw2 & Hcur2 & Htbd2 & Hs2 & Hl2 & Hc2 & Hsl2 & _).
  destruct (core_move z k k2 t) as [Hcore Hq2].
  1: done.
  1: by rewrite (waiters_env _ _ Henv), Hw1, Hw.
  1: by rewrite Hrd2, Hrd1.
  1: intros t'; by rewrite Hst2, Hst1.
  1: intros t'; rewrite Hstat2; unfold status_of; by rewrite Hth1.
  1-3: congruence.
  1: unfold sized in *; by rewrite Hs2, Hl2, Hc2, Hsl2.
  exists k2. split; [done|]. split; [done|]. split; [|split; [congruence|split]].
  - split; [congruence|]. split; [congruence|]. split; [intros; by rewrite Hst2, Hst1|].
    split; [done|]. split; [|congruence]. intros t' Ht'. rewrite Hstat2.
    case_decide; [by subst|]. unfold status_of. by rewrite Hth1.
  - intros r' Hr'. unfold sem_val. replace (get_sem r' k2) with (get_sem r' k1)
      by (unfold get_sem; by rewrite Hs2, Hl2).
    destruct (decide (r' = r)) as [->|Hne]; [by rewrite HG1, HG|by rewrite Hoth].
  - intros l lk Hlk. rewrite Hl2. rewrite (Hlk1 l lk Hlk). eexists. split; [done|]. by case_decide.
Qed.

Lemma V_body_ok z r k :
  core z k -> sem_ok z r ->
  exists k', Semaphore_V_body r k = Ok k' /\ core z k' /\ calm k k' /\ k_hw k' = k_hw k
    /\ explains z k [EvV r] k'
    /\ (forall l lk, k_locks k !! l = Some lk -> exists lk', k_locks k' !! l = Some lk'
          /\ lk_owner lk' = lk_owner lk).
Proof.
  intros Hc Hr. pose proof (c_size _ _ Hc) as Hsz.
  destruct (get_sem_ok z k r Hsz Hr) as (sm & rest & HG & Hw & Hset).
  unfold Semaphore_V_body. rewrite HG. cbn [mbind result_bind].
  destruct (V_wake_ok z r k sm Hc Hr HG) as (k1 & -> & Hc1 & Hcalm1 & Hhw1 & Hv1 & Hlo1). cbn [mbind result_bind].
  destruct (get_sem_ok z k1 r (c_size _ _ Hc1) Hr) as (sm1 & rest1 & HG1 & Hw1 & Hset1).
  rewrite HG1. cbn [mbind result_bind].
  destruct (Hset1 (mkSem (i32 (sem_value sm1 + 1)) (sem_queue sm1))) as
    (k2 & -> & Hw2 & HG2 & Hhw2 & Hth2 & Hcur2 & Hrd2 & Htbd2 & Hsz2 & Hsl2 & Hoth & Hlk2).
  assert (Hwe : waiters k2 ≡ₚ waiters k1) by by rewrite Hw2, Hw1.
  exists k2. split; [done|]. split; [apply (core_same_queues z k1); rewrite ?Hrd2; done|].
  split; [|split; [congruence|split]].
  - apply (calm_trans _ k1); [done|]. split; [done|]. split; [done|].
    split; [intros; unfold stack_of; by rewrite Hth2|].
    split; [unfold queued; by rewrite Hrd2, Hwe|]. split; [|done].
    intros t _. unfold status_of. by rewrite Hth2.
  - assert (Hvr : sem_val k r = sem_value sm1) by (rewrite <-(Hv1 r Hr); unfold sem_val; by rewrite HG1).
    split; [|split].
    + intros r' Hr'. split; [done|]. cbn [sem_after foldl sem_event]. unfold sem_val at 1.
      case_decide as Hd; [subst r'; by rewrite HG2, Hvr|].
      rewrite Hoth by done. apply Hv1. done.
    + intros l Hl. split; [done|]. cbn [lock_after foldl lock_event]. unfold owner_of.
      destruct (lookup_lt_is_Some_2 (k_locks k) l) as [lk Hlk]; [destruct Hsz as (_ & -> & _); lia|].
      destruct (Hlo1 l lk Hlk) as (lk1 & Hlk1 & Ho1). rewrite Hlk, (Hlk2 l lk1 Hlk1). simpl.
      case_decide; done.
    + intros q. destruct Hcalm1 as (_ & _ & _ & _ & _ & Hsl1). unfold items. cbn. by rewrite Hsl2, Hsl1, app_nil_r.
  - intros l lk Hlk. destruct (Hlo1 l lk Hlk) as (lk1 & Hlk1 & Ho1). rewrite (Hlk2 l lk1 Hlk1).
    eexists. split; [done|]. by case_decide.
Qed.

(** ** Interrupts *)

Definition user_V (e : event) : Prop := exists s, e = EvV (SUser s).

Lemma explains_hw z k hw : explains z k [] (k_set_hw hw k).
Proof. by apply explains_refl. Qed.

Lemma TimeOfNext_ok randomize k :
  exists delay rs, Timer_TimeOfNextInterrupt randomize k = (delay, k_set_randoms rs k) /\ 0 < delay <= 20.
Proof.
  unfold Timer_TimeOfNextInterrupt, Random, TimerTicks. destruct randomize.
  - destruct (k_randoms k) as [|r rs] eqn:Hr.
    + exists 1, []. split; [|lia]. f_equal. unfold k_set_randoms. rewrite <-Hr. by destruct k.
    + exists (1 + Z.of_N r `rem` 20), rs. split; [done|].
      pose proof (Z.rem_bound_pos (Z.of_N r) 20 ltac:(lia) ltac:(lia)). lia.
  - exists 10, (k_randoms k). split; [|lia]. f_equal. by destruct k.
Qed.

Lemma core_randoms z rs k : core z k -> core z (k_set_randoms rs k) /\ calm k (k_set_randoms rs k)
  /\ explains z k [] (k_set_randoms rs k).
Proof.
  intros Hc. split; [by destruct Hc; constructor|]. split; [by split_and!|]. by apply explains_refl.
Qed.

(** Any interrupt handler: threads may wake up, new interrupts lie in the future. *)
Lemma call_handler_ok z h k :
  core z k -> handler_ok z h -> hw_inHandler (k_hw k) = true ->
  exists k' evs, call_handler h k = Ok (k', evs) /\ core z k' /\ calm k k' /\ explains z k evs k'
    /\ Forall user_V evs /\ level k' = level k /\ hw_inHandler (k_hw k') = true
    /\ hw_stats (k_hw k') = hw_stats (k_hw k)
    /\ (hw_pending (k_hw k') = hw_pending (k_hw k)
        \/ exists p delay, 0 < delay <= 20
             /\ hw_pending (k_hw k') ≡ₚ (i32 (totalTicks (hw_stats (k_hw k)) + delay), p) :: hw_pending (k_hw k)).
Proof.
  intros Hc Hh Hin. destruct h as [rnd|s]; cbn [call_handler].
  - unfold Timer_TimerExpired. destruct (TimeOfNext_ok rnd k) as (delay & rs & -> & Hd).
    destruct (core_randoms z rs k Hc) as (Hc1 & Hcalm1 & Hex1).
    set (k1 := k_set_randoms rs k) in *. destruct (c_pend _ _ Hc1) as [Hpo Hph].
    destruct (Schedule_ok (HTimer rnd) delay TimerInt (k_hw k1) Hpo) as (hw & HS & Hpo' & Hst & Hperm); [lia|].
    rewrite HS. cbn [mbind result_bind].
    assert (Hhw : hw_level hw = level k /\ hw_inHandler hw = true /\ hw_status hw = hw_status (k_hw k)).
    { unfold Interrupt_Schedule in HS. destruct (ASSERT _); [|done]. cbn in HS. by injection HS as <-. }
    destruct Hhw as (Hl & Hi & Hstat).
    assert (Hph' : Forall (fun x => handler_ok z (pi_handler x.2)) (hw_pending hw)).
    { rewrite Hperm. by constructor. }
    assert (Hex : exists b, TimerInterruptHandler (k_set_hw hw k1) = Ok (k_set_hw (hw_set_yield b hw) k1)).
    { unfold TimerInterruptHandler. cbn [k_hw k_set_hw]. case_decide.
      - unfold Interrupt_YieldOnReturn. rewrite Hi. by exists true.
      - exists (hw_yieldOnReturn hw). by destruct hw, k1. }
    destruct Hex as [b ->]. cbn [mbind result_bind]. eexists _, []. split; [done|].
    split; [by apply core_hw|]. split; [by apply (calm_trans _ k1), calm_hw|].
    split; [by apply (explains_trans z k [] k1 []), explains_hw|]. split; [constructor|].
    split; [done|]. split; [done|]. split; [done|]. right. eauto.
  - destruct (V_body_ok z (SUser s) k Hc Hh) as (k' & -> & Hc' & Hcalm & Hhw & Hex & _).
    cbn [mbind result_bind]. eexists _, _. split; [done|]. unfold level. rewrite Hhw.
    split_and!; try done; [|by left]. repeat constructor. by exists s.
Qed.

(** The state between two interrupts: interrupts off, no handler running. *)
Definition quiet (k : Kernel) : Prop := level k = IntOff /\ hw_inHandler (k_hw k) = false.

Lemma CheckIfDue_ok z adv k :
  core z k -> quiet k ->
  exists b k' evs, Interrupt_CheckIfDue adv k = Ok (b, k', evs) /\ core z k' /\ calm k k'
    /\ explains z k evs k' /\ Forall user_V evs /\ quiet k'
    /\ hw_status (k_hw k') = hw_status (k_hw k)
    /\ (adv = false -> hw_stats (k_hw k') = hw_stats (k_hw k))
    /\ (forall B, ticks_below B (k_hw k) -> totalTicks (hw_stats (k_hw k)) <= totalTicks (hw_stats (k_hw k')) < B)
    /\ (adv = false -> b = true -> 0 <= totalTicks (hw_stats (k_hw k)) < 2 ^ 31 - 20 -> (due (k_hw k') < due (k_hw k))%nat)
    /\ (b = false -> k_ready k' = k_ready k
          /\ (adv = true -> Forall (fun x => pi_type x.2 = TimerInt) (hw_pending (k_hw k')))).
Proof.
  intros Hc [Hl Hi]. destruct (c_pend _ _ Hc) as [Hpo Hph]. unfold Interrupt_CheckIfDue.
  destruct (CheckIfDue_pick_cases adv (k_hw k) Hpo Hl) as (r & hw & HC & Hpo' & _ & Hl' & Hy & Hr).
  pose proof (fun B => CheckIfDue_pick_ticks adv _ _ _ B HC) as HT.
  rewrite HC. cbn [mbind result_bind]. destruct r as [p|].
  - destruct Hr as (Hpe & Hst & Hih & Htt & Hle). rewrite Hpe in Hph. apply Forall_cons in Hph as [Hhp Hph].
    destruct (call_handler_ok z (pi_handler p) (k_set_hw hw k)) as
      (k1 & evs & -> & Hc1 & Hcalm1 & Hex1 & Hu & Hl1 & Hi1 & Hst1 & Hpend1); [by apply core_hw|done|done|].
    cbn [mbind result_bind]. destruct (c_pend _ _ Hc1) as [Hpo1 Hph1].
    eexists true, _, evs. split; [done|]. split; [by apply core_hw|].
    split; [apply (calm_trans _ (k_set_hw hw k)); [apply calm_hw|]; apply (calm_trans _ k1); [done|apply calm_hw]|].
    cbn [k_hw k_set_hw] in Hst1, Hpend1.
    split; [|split; [done|split; [|split; [done|split; [|split; [|split]]]]]].
    + apply (explains_trans z k [] (k_set_hw hw k)); [apply explains_hw|].
      rewrite <-(app_nil_r evs). apply (explains_trans z _ evs k1); [done|apply explains_hw].
    + split; [|done]. unfold level in *. simpl in *. congruence.
    + intros ->. cbn. rewrite Hst1. by apply (CheckIfDue_pick_stats (k_hw k) (Some p)).
    + intros B HB. cbn. rewrite Hst1. by apply HT.
    + intros -> _ HB. unfold due. cbn. rewrite Hst1, Hpe, Htt. rewrite filter_cons_True by (simpl; lia). simpl.
      apply Nat.lt_succ_r. destruct Hpend1 as [->|(q & d & Hd & ->)]; [done|].
      rewrite filter_cons_False; [done|]. rewrite Htt. cbn [fst]. rewrite i32_id by (unfold in_i32; lia). lia.
    + done.
  - destruct Hr as (Hperm & Hst & Hih & Hsame). eexists false, _, []. split; [done|].
    assert (Hph' : Forall (fun x => handler_ok z (pi_handler x.2)) (hw_pending hw)) by by rewrite Hperm.
    split; [by apply core_hw|]. split; [apply calm_hw|]. split; [apply explains_hw|].
    split; [constructor|]. split; [unfold quiet, level; simpl; split; congruence|].
    split; [done|]. split; [done|]. split; [done|]. split; [done|]. intros _. split; [done|].
    intros ->. by apply (CheckIfDue_pick_idle (k_hw k)).
Qed.

Lemma check_loop_ok z fuel : forall k,
  core z k -> quiet k ->
  wp (fun e => e = OutOfFuel /\ ~ (0 <= totalTicks (hw_stats (k_hw k)) < 2 ^ 31 - 20 /\ (due (k_hw k) < fuel)%nat))
    (check_loop fuel k) (fun '(k', evs) =>
    core z k' /\ calm k k' /\ explains z k evs k' /\ Forall user_V evs /\ quiet k'
    /\ hw_status (k_hw k') = hw_status (k_hw k)).
Proof.
  induction fuel as [|fuel IH]; intros k Hc Hq; [split; [done|lia]|]. cbn [check_loop].
  destruct (CheckIfDue_ok z false k Hc Hq) as
    (b & k1 & evs & -> & Hc1 & Hcalm & Hex & Hu & Hq1 & Hs1 & Hst & _ & Hdue & _).
  cbn [mbind result_bind]. destruct b; [|done].
  apply wp_bind. eapply wp_mono; [by apply IH|..].
  { intros e [-> Hn]. split; [done|]. intros [HB Hf]. apply Hn. rewrite Hst by done. specialize (Hdue eq_refl eq_refl HB).
    split; [done|lia]. }
  intros [k2 evs2] (Hc2 & Hcalm2 & Hex2 & Hu2 & Hq2 & Hs2).
  simpl. split_and!; try done; [by apply (calm_trans _ k1)|by apply (explains_trans z _ _ k1)|
    by apply Forall_app|congruence].
Qed.

(** ** Pushing frames *)

(** Frames that may lie on any code. *)
Definition simple (f : frame) : bool :=
  match f with
  | FPLoop (SLock _) _ | FAcquire _ _ | FSleep | FRun | FFinish => false
  | _ => true
  end.

Lemma shape_simple f stk : simple f = true -> shape (f :: stk) = shape stk.
Proof. by destruct f as [| | |[]| | | | | | | | |]. Qed.

Lemma code_ok_cons z f stk : simple f = true -> frame_ok z f -> code_ok z stk -> code_ok z (f :: stk).
Proof. intros Hs Hf [Hfr Hsh]. split; [by constructor|]. by rewrite shape_simple. Qed.

Lemma code_ok_lock z l p stk : (l < z_locks z)%nat -> code_ok z stk ->
  code_ok z (FPLoop (SLock l) IntOff :: FAcquire l p :: stk).
Proof. intros Hl [Hfr Hsh]. split; [by repeat constructor|done]. Qed.

Lemma code_ok_inv z f stk : code_ok z (f :: stk) ->
  frame_ok z f /\ ((f = FFinish /\ stk = [])
    \/ (simple f = true /\ code_ok z stk)
    \/ exists l p rest, f = FPLoop (SLock l) IntOff /\ stk = FAcquire l p :: rest /\ code_ok z rest).
Proof.
  intros [[Hf Hfr]%Forall_cons Hsh]. split; [done|].
  destruct f as [o| | |[s|l] old|l p| | | | | | | |]; try (right; left; split; [done|by split]); try done.
  - by left.
  - right. right. destruct Hsh as [-> Ha]. destruct stk as [|[] stk]; try done. destruct Ha as [-> Ha].
    apply Forall_cons in Hfr as [_ Hfr]. eexists _, _, stk. split; [done|]. by split.
Qed.

Lemma code_ok_nonempty z stk : code_ok z stk -> stk <> [] /\ stk <> [FRun] /\ stk <> [FSleep].
Proof. intros [_ Hsh]. split_and!; by intros ->. Qed.

(** ** The locks *)

Definition lock_state (window : Prop) (v : Z) (o : option tid) : Prop :=
  (v = 1 /\ o = None /\ ~ window) \/ (v = 0 /\ o = None /\ window) \/ (v = 0 /\ is_Some o /\ ~ window).

(** [w] is the lock whose semaphore the current thread has just taken. *)
Definition locks_ok (z : sizes) (w : option nat) (k : Kernel) : Prop :=
  forall l, (l < z_locks z)%nat -> lock_state (w = Some l) (sem_val k (SLock l)) (owner_of k l).

Lemma locks_ok_same z w k k' :
  locks_ok z w k -> k_locks k' = k_locks k -> locks_ok z w k'.
Proof. intros Hl He l Hlt. unfold sem_val, get_sem, owner_of. rewrite He. by apply Hl. Qed.

Lemma user_V_locks evs l v o : Forall user_V evs ->
  sem_after (SLock l) v evs = v /\ lock_after l o evs = o.
Proof.
  induction 1 as [|e evs [s ->] _ IH]; [done|]. cbn [sem_after lock_after foldl sem_event lock_event].
  case_decide; [done|]. exact IH.
Qed.

Lemma locks_ok_user_V z w k evs k' :
  locks_ok z w k -> explains z k evs k' -> Forall user_V evs -> locks_ok z w k'.
Proof.
  intros Hl (Hs & Ho & _) Hu l Hlt.
  destruct (Hs (SLock l) Hlt) as [_ ->]. destruct (Ho l Hlt) as [_ ->].
  destruct (user_V_locks evs l (sem_val k (SLock l)) (owner_of k l) Hu) as [-> ->]. by apply Hl.
Qed.

(** ** The state in the middle of a step, and between steps *)

Record mid (z : sizes) (k : Kernel) (stk : list frame) : Prop := {
  m_core : core z k;
  m_stk : stack_of k (k_current k) = Some stk;
  m_run : status_of k (k_current k) = Some RUNNING;
  m_nq : k_current k ∉ queued k;
  m_hand : hw_inHandler (k_hw k) = false
}.

Definition awake_stack (z : sizes) (stk : list frame) : Prop :=
  code_ok z stk \/ exists f rest, stk = f :: rest /\ (f = FRun \/ exists l p, f = FAcquire l p)
    /\ frame_ok z f /\ code_ok z rest.

Definition window (stk : list frame) : option nat :=
  match stk with FAcquire l _ :: _ => Some l | _ => None end.

Definition asleep (z : sizes) (k : Kernel) (rest : list frame) : Prop :=
  core z k /\ stack_of k (k_current k) = Some (FSleep :: rest) /\ quiet k
  /\ ((rest = [] /\ k_tbd k = Some (k_current k))
      \/ (code_ok z rest /\ lvl_ok IntOff rest /\ k_current k ∈ queued k /\ k_tbd k <> Some (k_current k))).

Definition kinv (z : sizes) (k : Kernel) : Prop :=
  (exists stk, mid z k stk /\ awake_stack z stk /\ lvl_ok (level k) stk /\ locks_ok z (window stk) k
     /\ k_tbd k <> Some (k_current k))
  \/ (exists rest, asleep z k rest /\ locks_ok z None k).

Lemma window_code z stk : code_ok z stk -> window stk = None.
Proof. intros [_ Ha]. by destruct stk as [|[]]. Qed.

(** A step may end with code on the stack. *)
Lemma kinv_code z k stk :
  mid z k stk -> code_ok z stk -> lvl_ok (level k) stk -> locks_ok z None k ->
  k_tbd k <> Some (k_current k) -> kinv z k.
Proof.
  intros Hm Hc Hl Hlk Ht. left. exists stk. rewrite (window_code z) by done. split_and!; try done. by left.
Qed.

Lemma core_stack z k k' stk0 stk :
  core z k -> stack_of k (k_current k) = Some stk0 -> same_env k k' -> k_ready k' = k_ready k ->
  (forall t, stack_of k' t = if decide (t = k_current k) then Some stk else stack_of k t) ->
  (forall t, status_of k' t = status_of k t) ->
  (k_current k ∈ queued k -> stk <> [FRun] /\ stk <> [FSleep]) -> core z k' /\ queued k' = queued k.
Proof.
  intros Hc Hs0 Henv Hrd Hst Hstat Hcq. pose proof Henv as (Hhw & Hcur & Htbd & Hs & Hl & Hcd & Hsl & _).
  assert (Hw : waiters k' = waiters k) by by apply waiters_env.
  assert (Hq : queued k' = queued k) by (unfold queued; by rewrite Hrd, Hw).
  split; [|done]. constructor; rewrite ?Hq, ?Hhw, ?Hcur, ?Htbd, ?Hrd, ?Hw; try apply Hc.
  - intros t Ht. rewrite Hstat. by apply Hc.
  - intros t Ht. rewrite Hstat. by apply Hc.
  - intros t stk' Ht. rewrite Hst. case_decide; [|by apply Hc]. intros [= <-]. subst. auto.
  - intros t stk'. rewrite Hst. case_decide; [auto|apply Hc].
  - intros t stk'. rewrite Hst. intros Ht Hne. rewrite decide_False in Ht by done. by apply (c_park _ _ Hc t).
  - rewrite Hst, decide_True by done. by eexists.
  - intros t Ht. destruct (c_tbd _ _ Hc t Ht) as [Hni (stk' & Hs' & Hf)]. split; [done|].
    rewrite Hst. case_decide; [by exists stk|]. eauto.
  - unfold sized. rewrite Hs, Hl, Hcd, Hsl. apply (c_size _ _ Hc).
Qed.

Lemma push_mid z k stk fs :
  mid z k stk -> exists k', push fs k = Ok k' /\ mid z k' (fs ++ stk) /\ same_env k k' /\ queued k' = queued k
    /\ k_ready k' = k_ready k.
Proof.
  intros [Hc Hs Hr Hn Hh]. destruct (push_ok fs k stk Hs) as (k' & HP & Henv & Hrd & Hst & Hstat).
  destruct (core_stack z k k' stk (fs ++ stk) Hc Hs Henv Hrd Hst Hstat) as [Hc' Hq]; [done|].
  exists k'. split; [done|]. pose proof Henv as (Hhw & Hcur & _). split; [|done].
  constructor; rewrite ?Hcur, ?Hq, ?Hhw; try done.
  - by rewrite Hst, decide_True.
  - by rewrite Hstat.
Qed.

(** ** Switching threads *)

Lemma FindNext_ok z bySleep k :
  core z k ->
  exists r R s, Scheduler_FindNextToRun bySleep k = Ok (r, k_set_ready R (k_set_switch s k))
    /\ match r with
       | Some next => (k_ready k).*2 ≡ₚ next :: R.*2
       | None => R.*2 ≡ₚ (k_ready k).*2 /\ (bySleep = true -> R = [])
       end.
Proof.
  intros Hc.
  assert (Hsame : k = k_set_ready (k_ready k) (k_set_switch (k_lastSwitchTick k) k)) by by destruct k.
  unfold Scheduler_FindNextToRun. cbn [k_ready k_set_switch].
  destruct (k_ready k) as [|[key next] R] eqn:Hr; cbn [sl_SortedRemove sl_IsEmpty].
  { destruct bySleep.
    - eexists None, [], _. split; [|done]. do 2 f_equal. unfold k_set_switch. rewrite <-Hr at 1. done.
    - exists None, [], (k_lastSwitchTick k). split; [|done]. by rewrite <-Hsame. }
  assert (Hsn : is_Some (stack_of k next)).
  { apply (queued_stack z); [done|]. unfold queued. rewrite Hr. left. }
  destruct bySleep; [by eexists (Some next), R, _|].
  destruct (k_prio k); [|by eexists (Some next), R, _].
  destruct Hsn as [sn Hsn]. destruct (stack_thread _ _ _ Hsn) as (n & Hn & _).
  destruct (c_cur _ _ Hc) as [sc Hsc]. destruct (stack_thread _ _ _ Hsc) as (c & Hcu & _).
  unfold thread. rewrite Hn, Hcu. cbn [deref mbind result_bind].
  case_match; [by eexists (Some next), R, _|].
  eexists None, _, (k_lastSwitchTick k). split; [by f_equal; f_equal; destruct k|].
  split; [|done]. by rewrite sl_SortedInsert_perm.
Qed.

Lemma Run_ok k next stk :
  stack_of k (k_current k) = Some stk -> is_Some (stack_of k next) ->
  exists k', Scheduler_Run next k = Ok k' /\ same_env (k_set_current next k) k' /\ k_ready k' = k_ready k
    /\ (forall t, stack_of k' t = if decide (t = k_current k) then Some (FRun :: stk) else stack_of k t)
    /\ (forall t, status_of k' t = if decide (t = next) then Some RUNNING else status_of k t).
Proof.
  intros Hs Hn. unfold Scheduler_Run.
  destruct (push_ok [FRun] k stk Hs) as (k1 & -> & Henv & Hrd & Hst & Hstat). cbn [mbind result_bind].
  destruct (set_status_ok next RUNNING (k_set_current next k1)) as (k2 & HS & Henv2 & Hrd2 & Hst2 & Hstat2).
  { change (is_Some (stack_of k1 next)). rewrite Hst. by case_decide. }
  exists k2. split; [done|]. unfold same_env in *. simpl in *. destruct_and! Henv. destruct_and! Henv2.
  split; [split_and!; congruence|]. split; [congruence|]. split; intros t.
  - rewrite Hst2. change (stack_of k1 t = if decide (t = k_current k) then Some (FRun :: stk) else stack_of k t).
    apply Hst.
  - rewrite Hstat2. case_decide; [done|]. apply Hstat.
Qed.

(** [next] leaves the ready list and becomes the current thread; the old one stays behind in
    [Run], on the ready list if [yields], and otherwise wherever it was. *)
Section Switch.
Context (z : sizes) (k k' : Kernel) (next : tid) (stk : list frame) (yields : bool) (R : list tid).
Let me := if yields then [k_current k] else [].

Lemma switch_me t : t ∈ me <-> yields = true /\ t = k_current k.
Proof. unfold me. destruct yields; set_solver. Qed.

Context (Hc : core z k) (Hr : (k_ready k).*2 ≡ₚ next :: R)
  (Hr' : (k_ready k').*2 ≡ₚ me ++ R) (Hw : waiters k' = waiters k)
  (Hst : forall t, stack_of k' t = if decide (t = k_current k) then Some (FRun :: stk) else stack_of k t)
  (Hstat : forall t, status_of k' t = if decide (t = next) then Some RUNNING
      else if decide (yields = true /\ t = k_current k) then Some READY else status_of k t)
  (Hcur : k_current k' = next) (Htbd : k_tbd k' = k_tbd k) (Hhw : k_hw k' = k_hw k) (Hsz : sized z k')
  (Hy : if yields then k_current k ∉ queued k else stk = [] \/ k_current k ∈ queued k)
  (Ht : k_tbd k = Some (k_current k) -> stk = []) (Hq1 : k_current k ∈ queued k -> stk <> [])
  (Hq2 : yields = true -> stk <> []) (Hpark : parked z (FRun :: stk)).

Lemma switch_queued : queued k ≡ₚ next :: R ++ waiters k.
Proof. unfold queued. by rewrite Hr. Qed.

Lemma switch_queued' : queued k' ≡ₚ me ++ R ++ waiters k.
Proof. unfold queued. by rewrite Hr', Hw, <-(assoc_L (++)). Qed.

Lemma switch_nodup : (next ∉ R ++ waiters k) /\ NoDup (R ++ waiters k).
Proof. pose proof (c_nodup _ _ Hc) as Hnd. rewrite switch_queued in Hnd. by apply NoDup_cons in Hnd. Qed.

Lemma switch_next : next ∉ queued k'.
Proof.
  rewrite switch_queued', elem_of_app, switch_me. intros [[E1 E2]|?]; [|by apply switch_nodup].
  rewrite E1 in Hy. apply Hy. rewrite switch_queued, <-E2. left.
Qed.

Lemma switch_in t : t ∈ queued k' -> t ∈ me \/ t ∈ queued k.
Proof. rewrite switch_queued', switch_queued, elem_of_app, elem_of_cons. intros [?|?]; auto. Qed.

Lemma switch_stays t : t ∈ queued k -> t <> next -> t ∈ queued k'.
Proof.
  intros Hq Hne. rewrite switch_queued in Hq. rewrite switch_queued'.
  apply elem_of_cons in Hq as [?|Hq]; [done|]. apply elem_of_app. by right.
Qed.

Lemma switch_status t : t ∈ queued k' -> status_of k' t = if decide (yields = true /\ t = k_current k) then Some READY else status_of k t.
Proof. intros Hq. rewrite Hstat, decide_False; [done|]. intros ->. by apply switch_next. Qed.

Lemma switch_core_inv : core z k'.
Proof.
  constructor; rewrite ?Hhw; try apply Hc; try done.
  - rewrite switch_queued'. apply NoDup_app. split; [unfold me; destruct yields; [apply NoDup_singleton|constructor]|].
    split; [|by apply switch_nodup]. intros t [E ->]%switch_me Hin'. rewrite E in Hy. apply Hy. rewrite switch_queued. by right.
  - intros t Ht'. rewrite switch_status by (unfold queued; by apply elem_of_app; left).
    destruct (decide (yields = true /\ t = k_current k)) as [?|Hd]; [done|].
    apply (c_ready _ _ Hc). rewrite Hr', elem_of_app, switch_me in Ht'. rewrite Hr. destruct Ht' as [?|?]; [done|]. by right.
  - intros t Ht'. rewrite switch_status by (unfold queued; by apply elem_of_app; right).
    rewrite Hw in Ht'. rewrite decide_False; [by apply (c_wait _ _ Hc)|].
    intros [E ->]. rewrite E in Hy. apply Hy. unfold queued. by apply elem_of_app; right.
  - intros t stk' Hq. rewrite Hst. intros Hs'. case_decide as Hd; [subst t; injection Hs' as <-|revert Hs'].
    + split; [|done]. intros [= ->]. destruct (switch_in _ Hq) as [[? _]%switch_me|?]; [by apply Hq2|by apply Hq1].
    + apply (c_live _ _ Hc). destruct (switch_in _ Hq) as [[_ ?]%switch_me|?]; done.
  - intros t stk'. rewrite Hst, Hcur. intros Hs'. destruct (decide (t = next)) as [?|Hne]; [by right; left|].
    case_decide as Hd; [subst t; injection Hs' as <-|].
    + destruct (decide (yields = true)) as [Ey|Ey]; [left; rewrite switch_queued'; apply elem_of_app; left; by apply switch_me|].
      apply not_true_is_false in Ey. rewrite Ey in Hy. destruct Hy as [E|Hq]; [right; right; by rewrite E|left; by apply switch_stays].
    + destruct (c_lost _ _ Hc _ _ Hs') as [Hq|[?|?]]; [left; by apply switch_stays|done|by right; right].
  - intros t stk' Hs' _. rewrite Hst in Hs'. case_decide as Hd; [by simplify_eq|]. by apply (c_park _ _ Hc t).
  - rewrite Hcur, Hst. destruct (decide (next = k_current k)); [by eexists|]. apply (queued_stack z); [done|]. rewrite switch_queued. left.
  - intros t Ht'. rewrite Htbd in Ht'. destruct (c_tbd _ _ Hc t Ht') as [Hnq (stk' & Hs' & Hf)]. split.
    { intros Hq. destruct (switch_in _ Hq) as [[Hy' ->]%switch_me|?]; [|done]. by apply Hq2, Ht. }
    rewrite Hst. destruct (decide (t = k_current k)) as [Hd|Hd]; [|by eauto]. subst t. eexists. split; [done|]. intros _. by rewrite (Ht Ht').
Qed.

(** The stack [next] was suspended with. *)
Lemma switch_resumes :
  exists f rest, stack_of k' next = Some (f :: rest) /\ (f = FRun \/ f = FEnable) /\ code_ok z rest /\ lvl_ok IntOff (f :: rest).
Proof.
  assert (HnR : next ∈ queued k) by (rewrite switch_queued; left).
  assert (exists stk', stack_of k' next = Some stk' /\ parked z stk' /\ stk' <> [FRun]) as (stk' & -> & Hp & Hl).
  { rewrite Hst. destruct (decide (next = k_current k)) as [Hd|Hd].
    - eexists. split_and!; [done|done|]. intros [= E]. rewrite Hd in HnR. by apply Hq1.
    - destruct (queued_stack z k next Hc HnR) as [stk' Hs']. exists stk'. split_and!; [done|by apply (c_park _ _ Hc next)|by apply (c_live _ _ Hc next)]. }
  destruct Hp as [?|(f & rest & -> & Hf & Hco & Hlv)]; [done|]. eauto 10.
Qed.

Lemma switch_core :
  core z k' /\ (next ∉ queued k') /\ status_of k' next = Some RUNNING /\ k_tbd k' <> Some next
    /\ exists f rest, stack_of k' next = Some (f :: rest) /\ (f = FRun \/ f = FEnable)
         /\ code_ok z rest /\ lvl_ok IntOff (f :: rest).
Proof.
  split; [exact switch_core_inv|]. split; [exact switch_next|]. split; [by rewrite Hstat, decide_True|].
  split; [|exact switch_resumes]. rewrite Htbd. intros Ht'. destruct (c_tbd _ _ Hc next Ht') as [Hnq _].
  apply Hnq. rewrite switch_queued. left.
Qed.

End Switch.

(** After a switch the new thread can be resumed. *)
Lemma kinv_switched z k next f rest :
  core z k -> k_current k = next -> (next ∉ queued k) -> status_of k next = Some RUNNING ->
  k_tbd k <> Some next -> stack_of k next = Some (f :: rest) -> f = FRun \/ f = FEnable -> code_ok z rest ->
  lvl_ok IntOff (f :: rest) -> quiet k -> locks_ok z None k -> kinv z k.
Proof.
  intros Hc <- Hn Hr Ht Hs Hf Hco Hl [Hlv Hi] Hlk. left. exists (f :: rest).
  split; [by constructor|]. split.
  { destruct Hf as [->| ->]; [|left; by apply code_ok_cons]. right. exists FRun, rest. split_and!; try done. by left. }
  rewrite Hlv. split; [done|]. split; [by destruct Hf as [->| ->]|done].
Qed.

(** ** Time and preemption *)

Lemma mid_calm z k k' stk :
  mid z k stk -> core z k' -> calm k k' -> hw_inHandler (k_hw k') = false -> mid z k' stk.
Proof.
  intros [Hc Hs Hr Hn Hh] Hc' (Hcur & Htbd & Hst & Hq & Hstat & _) Hh'.
  constructor; rewrite ?Hcur, ?Hst, ?Hq; try done. by rewrite Hstat.
Qed.

Lemma mid_hw z k stk hw :
  mid z k stk -> hw_pending hw = hw_pending (k_hw k) -> hw_inHandler hw = false -> mid z (k_set_hw hw k) stk.
Proof.
  intros Hm Hp Hi. apply (mid_calm z k); [done| |apply calm_hw|done].
  destruct (c_pend _ _ (m_core _ _ _ Hm)) as [Hpo Hh]. apply core_hw; [apply Hm| |by rewrite Hp].
  unfold pending_ok. by rewrite Hp.
Qed.

(** A thread that runs code of its own, at the given level. *)
Record at_code (z : sizes) (k : Kernel) (lvl : IntStatus) (stk : list frame) : Prop := {
  a_mid : mid z k stk;
  a_code : code_ok z stk;
  a_lvl : lvl_ok lvl stk;
  a_locks : locks_ok z None k;
  a_tbd : k_tbd k <> Some (k_current k)
}.

Lemma at_code_kinv z k stk : at_code z k (level k) stk -> kinv z k.
Proof. intros []. by apply (kinv_code z k stk). Qed.

Lemma at_code_hw z k lvl stk hw :
  at_code z k lvl stk -> hw_pending hw = hw_pending (k_hw k) -> hw_inHandler hw = false ->
  at_code z (k_set_hw hw k) lvl stk.
Proof. intros [Hm ? ? ? ?] Hp Hi. by constructor; [apply mid_hw|..]. Qed.

Lemma mid_push z k stk fs lvl :
  mid z k stk -> code_ok z (fs ++ stk) -> lvl_ok lvl (fs ++ stk) -> locks_ok z None k ->
  k_tbd k <> Some (k_current k) ->
  exists k', push fs k = Ok k' /\ at_code z k' lvl (fs ++ stk) /\ same_env k k'.
Proof.
  intros Hm Hc Hl Hlk Ht. destruct (push_mid z k stk fs Hm) as (k' & HP & Hm' & Henv & _).
  exists k'. split; [done|]. split; [|done]. pose proof Henv as (_ & Hcur & Htbd & _ & Hlo & _).
  constructor; try done; [by apply (locks_ok_same z _ k)|by rewrite Hcur, Htbd].
Qed.

Lemma at_code_push z k lvl stk f :
  at_code z k (leave f) stk -> simple f = true -> frame_ok z f -> lvl = entry f ->
  exists k', push [f] k = Ok k' /\ at_code z k' lvl (f :: stk) /\ same_env k k'.
Proof.
  intros [Hm Hc Hl Hlk Ht] Hs Hf ->. apply (mid_push z k stk [f]); try done. by apply code_ok_cons.
Qed.

Lemma at_code_same_queues z k k' lvl stk :
  at_code z k lvl stk -> k_threads k' = k_threads k -> (k_ready k').*2 ≡ₚ (k_ready k).*2 ->
  waiters k' ≡ₚ waiters k -> k_current k' = k_current k -> k_tbd k' = k_tbd k -> k_hw k' = k_hw k ->
  sized z k' -> locks_ok z None k' -> at_code z k' lvl stk.
Proof.
  intros [[Hc Hs Hr Hn Hh] ? ? ? ?] Hth Hrd Hw Hcur Htbd Hhw Hsz Hlk.
  constructor; try done; [|congruence].
  constructor; rewrite ?Hcur, ?Hhw; unfold stack_of, status_of in *; rewrite ?Hth; try done.
  - by apply (core_same_queues z k).
  - unfold queued in *. by rewrite Hrd, Hw.
Qed.

(** [Thread::Yield]: never fails, and whoever continues can do so. *)
(** [Yield] with a thread to switch to. *)
Lemma yield_switch_ok k f next stk :
  stack_of k (k_current k) = Some stk -> is_Some (stack_of k next) ->
  exists k', (k ← push [f] k; k ← Scheduler_ReadyToRun (k_current k) k; Scheduler_Run next k) = Ok k'
    /\ same_env (k_set_current next k) k' /\ (k_ready k').*2 ≡ₚ k_current k :: (k_ready k).*2
    /\ (forall t, stack_of k' t = if decide (t = k_current k) then Some (FRun :: f :: stk) else stack_of k t)
    /\ (forall t, status_of k' t = if decide (t = next) then Some RUNNING
          else if decide (t = k_current k) then Some READY else status_of k t).
Proof.
  intros Hs Hn. destruct (push_ok [f] k stk Hs) as (k2 & -> & Henv2 & Hrd2 & Hst2 & Hstat2). cbn [mbind result_bind].
  assert (Hcur2 : k_current k2 = k_current k) by apply Henv2.
  destruct (ReadyToRun_ok (k_current k2) k2) as (k3 & -> & Henv3 & Hrd3 & Hst3 & Hstat3).
  { rewrite Hst2, Hcur2, decide_True by done. by eexists. }
  cbn [mbind result_bind]. assert (Hcur3 : k_current k3 = k_current k) by (rewrite <-Hcur2; apply Henv3).
  destruct (Run_ok k3 next (f :: stk)) as (k4 & -> & Henv4 & Hrd4 & Hst4 & Hstat4).
  { rewrite Hst3, Hst2, Hcur3, decide_True; done. }
  { rewrite Hst3, Hst2. by case_decide. }
  exists k4. split; [done|]. unfold same_env in *. simpl in *. destruct_and! Henv2. destruct_and! Henv3. destruct_and! Henv4.
  split; [split_and!; congruence|]. split; [by rewrite Hrd4, Hrd3, Hrd2, Hcur2|]. split; intros t.
  - rewrite Hst4, Hcur3. case_decide; [done|]. rewrite Hst3, Hst2. by rewrite decide_False.
  - rewrite Hstat4. destruct (decide (t = next)); [done|]. by rewrite Hstat3, Hcur2, Hstat2.
Qed.

Lemma Yield_ok z k stk :
  at_code z k IntOn stk -> level k = IntOn ->
  exists k', Thread_Yield k = Ok k' /\ kinv z k' /\ explains z k [] k'.
Proof.
  intros Ha Hl. unfold Thread_Yield. rewrite Hl.
  set (k0 := k_set_hw _ k). assert (Ha0 : at_code z k0 IntOn stk) by (apply at_code_hw; try done; apply Ha).
  pose proof (m_core _ _ _ (a_mid _ _ _ _ Ha0)) as Hc0.
  destruct (FindNext_ok z false k0 Hc0) as (r & R & s & -> & Hr). cbn [mbind result_bind].
  set (k1 := k_set_ready R (k_set_switch s k0)).
  destruct r as [next|].
  - assert (Hin : next ∈ queued k0) by (unfold queued; rewrite Hr; left).
    destruct (yield_switch_ok k1 (FYield IntOn) next stk) as (k4 & -> & Henv & Hrd4 & Hst4 & Hstat4).
    { exact (m_stk _ _ _ (a_mid _ _ _ _ Ha0)). }
    { exact (queued_stack z k0 next Hc0 Hin). }
    pose proof Henv as (Hhw & Hcur & Htbd & Hse & Hlo & Hco & Hsls & _). simpl in Hhw, Hcur, Htbd, Hse, Hlo, Hco, Hsls.
    exists k4. split; [done|]. split; [|by apply explains_refl].
    destruct Ha0 as [[_ Hs0 Hr0 Hn0 Hh0] Hcode Hlv Hlk Htb].
    destruct (switch_core z k0 k4 next (FYield IntOn :: stk) true R.*2) as
      (Hc' & Hn' & Hr' & Ht' & f & rest & Hs' & Hf & Hcf & Hlf); try done.
    + unfold waiters. by rewrite Hlo, Hse, Hco.
    + intros t. rewrite Hstat4. destruct (decide (t = next)); [done|]. change (k_current k1) with (k_current k0).
      destruct (decide (t = k_current k0)); [by rewrite decide_True|]. rewrite decide_False; [done|tauto].
    + unfold sized. rewrite Hlo, Hse, Hco, Hsls. apply (c_size _ _ Hc0).
    + right. exists FRun, (FYield IntOn :: stk). split; [done|]. split; [by left|].
      split; [by apply code_ok_cons|done].
    + apply (kinv_switched z k4 next f rest); try done; [|by apply (locks_ok_same z None k)].
      unfold quiet, level. rewrite Hhw. done.
  - destruct Hr as [Hr _]. assert (Ha1 : at_code z k1 IntOn stk).
    { apply (at_code_same_queues z k0); try done; [apply (c_size _ _ Hc0)|].
      apply (locks_ok_same z None k); [apply Ha|done]. }
    destruct (at_code_push z k1 IntOff stk (FYield IntOn)) as (k2 & -> & Ha2 & Henv); try done.
    cbn [mbind result_bind]. exists k2. split; [done|].
    destruct Henv as (Hhw & _ & _ & Hs & Hlk & _ & Hsl & _).
    split; [|by apply explains_refl].
    apply (at_code_kinv z k2 (FYield IntOn :: stk)). unfold level. by rewrite Hhw.
Qed.

(** The clock is far enough from the end of its range. *)
Definition clock_room {H} (hw : Hardware H) : Prop :=
  0 <= totalTicks (hw_stats hw) < 2 ^ 31 - 30 /\ Forall (fun x => x.1 < 2 ^ 31 - 20) (hw_pending hw).

Definition fuel_err {H} (hw : Hardware H) (e : error) : Prop := e = OutOfFuel /\ ~ clock_room hw.

Lemma advance_time_same {H} (hw : Hardware H) :
  hw_pending (advance_time hw) = hw_pending hw /\ hw_level (advance_time hw) = hw_level hw
  /\ hw_inHandler (advance_time hw) = hw_inHandler hw
  /\ (clock_room hw -> 0 <= totalTicks (hw_stats (advance_time hw)) < 2 ^ 31 - 20).
Proof.
  unfold advance_time, clock_room, SystemTick, UserTick. case_decide; cbn; split_and!; try done;
    intros [? _]; rewrite i32_id; unfold in_i32; lia.
Qed.

Lemma at_code_calm z k k' lvl stk evs :
  at_code z k lvl stk -> core z k' -> calm k k' -> explains z k evs k' -> Forall user_V evs ->
  hw_inHandler (k_hw k') = false -> at_code z k' lvl stk.
Proof.
  intros [Hm Hco Hl Hlk Ht] Hc Hcalm Hex Hu Hi. constructor; try done.
  - by apply (mid_calm z k).
  - by apply (locks_ok_user_V z None k evs).
  - destruct Hcalm as (-> & -> & _). done.
Qed.

(** [Interrupt::OneTick]: time passes, interrupts happen, the thread may lose the processor. *)
Lemma OneTick_ok z k stk :
  at_code z k IntOn stk -> level k = IntOn ->
  wp (fuel_err (k_hw k)) (Interrupt_OneTick k) (fun '(k', evs) => kinv z k' /\ explains z k evs k').
Proof.
  intros Ha Hl. unfold Interrupt_OneTick.
  destruct (advance_time_same (k_hw k)) as (Hp & _ & Hi & Hroom).
  set (k1 := k_set_hw (Interrupt_ChangeLevel IntOff _) _).
  assert (Hh : hw_inHandler (k_hw k) = false) by apply Ha.
  assert (Ha1 : at_code z k1 IntOn stk).
  { unfold k1. apply at_code_hw; try done; [apply at_code_hw; try done|]; cbn; congruence. }
  assert (Hex1 : explains z k [] k1) by by apply explains_refl.
  apply wp_bind. eapply wp_mono; [apply (check_loop_ok z); [apply Ha1|]|..].
  { split; [done|]. apply Ha1. }
  { intros e [-> Hn]. split; [done|]. intros Hr. apply Hn. split; [by apply Hroom|].
    unfold loop_fuel. pose proof (due_length (k_hw k1)). lia. }
  intros [k2 evs] (Hc2 & Hcalm2 & Hex2 & Hu2 & [_ Hi2] & _). cbn beta iota.
  assert (Ha2 : at_code z k2 IntOn stk) by by apply (at_code_calm z k1 k2 _ _ evs).
  assert (Hex : explains z k evs k2) by by apply (explains_trans z k [] k1 evs).
  set (k3 := k_set_hw (Interrupt_ChangeLevel IntOn _) k2).
  assert (Ha3 : at_code z k3 IntOn stk) by by apply at_code_hw.
  assert (Hex3 : explains z k evs k3).
  { rewrite <-(app_nil_r evs). by apply (explains_trans z k evs k2), explains_refl. }
  destruct (hw_yieldOnReturn (k_hw k3)).
  - set (k4 := k_set_hw _ k3). assert (Ha4 : at_code z k4 IntOn stk) by by apply at_code_hw.
    destruct (at_code_push z k4 IntOn stk (FOneTick (hw_status (k_hw k)))) as (k5 & -> & Ha5 & Henv); try done.
    cbn [mbind result_bind]. destruct Henv as (Hhw & _ & _ & Hs & Hlo & _ & Hsl & _).
    destruct (Yield_ok z k5 _ Ha5) as (k6 & -> & Hk & Hex6); [unfold level; by rewrite Hhw|].
    cbn [mbind result_bind wp]. split; [done|]. rewrite <-(app_nil_r evs).
    apply (explains_trans z k evs k3); [done|]. apply (explains_trans z k3 [] k5 []); [|done].
    by apply explains_refl.
  - cbn [wp]. split; [|done]. by apply (at_code_kinv z k3 stk).
Qed.

Lemma set_hw_same k hw : hw = k_hw k -> k_set_hw hw k = k.
Proof. intros ->. by destruct k. Qed.

Lemma SetLevel_off k : level k = IntOff -> Interrupt_SetLevel IntOff k = Ok (k, []).
Proof.
  intros Hl. unfold Interrupt_SetLevel. rewrite ASSERT_true by done. cbn [mbind result_bind].
  rewrite decide_False by (by intros [??]). rewrite set_hw_same; [done|].
  unfold level in Hl. destruct (k_hw k); simpl in *. by rewrite Hl.
Qed.

(** [Interrupt::SetLevel] at the end of a critical section. *)
Lemma SetLevel_ok z now k stk :
  at_code z k now stk -> level k = IntOff ->
  wp (fuel_err (k_hw k)) (Interrupt_SetLevel now k) (fun '(k', evs) => kinv z k' /\ explains z k evs k').
Proof.
  intros Ha Hl. assert (Hh : hw_inHandler (k_hw k) = false) by apply Ha. destruct now.
  - rewrite SetLevel_off by done. split; [|by apply explains_refl].
    apply (at_code_kinv z k stk). by rewrite Hl.
  - unfold Interrupt_SetLevel. rewrite ASSERT_true by by rewrite Hh. cbn [mbind result_bind].
    rewrite decide_True by done. set (k1 := k_set_hw _ k).
    assert (Ha1 : at_code z k1 IntOn stk) by by apply at_code_hw.
    eapply wp_mono; [by apply (OneTick_ok z k1 stk)|done|].
    intros [k2 evs] [Hk Hex]. split; [done|]. by apply (explains_trans z k [] k1 evs), Hex; apply explains_refl.
Qed.

(** With the events that precede it. *)
Lemma SetLevel_tail z k0 evs0 now k stk (e : error -> Prop) :
  at_code z k now stk -> level k = IntOff -> explains z k0 evs0 k ->
  (forall x, fuel_err (k_hw k) x -> e x) ->
  wp e (Interrupt_SetLevel now k) (fun '(k', evs) => kinv z k' /\ explains z k0 (evs0 ++ evs) k').
Proof.
  intros Ha Hl Hex He. eapply wp_mono; [by apply (SetLevel_ok z now k stk)|done|].
  intros [k2 evs] [Hk Hex2]. split; [done|]. by apply (explains_trans z k0 evs0 k).
Qed.
