(* ===== verification/KernelOps.v ===== *)
(** * Every step of the thread kernel keeps its invariant

    One lemma per kernel function, from the state in which its caller runs it to the state
    in which the processor is handed back to some thread's stack; [kstep_safe] and
    [krun_safe] put them together. *)

From S2P Require Import Prelude SList Interrupt Kernel KernelInv.

(** ** Sleeping *)

Lemma set_stack_ok t fs k :
  is_Some (stack_of k t) ->
  exists k', set_stack t fs k = Ok k' /\ same_env k k' /\ k_ready k' = k_ready k
    /\ (forall t', stack_of k' t' = if decide (t' = t) then Some fs else stack_of k t')
    /\ (forall t', status_of k' t' = status_of k t').
Proof.
  intros [stk Hs]. destruct (stack_thread _ _ _ Hs) as (th & Ht & <-).
  unfold set_stack, thread. rewrite Ht. cbn [deref mbind result_bind].
  eexists. split; [done|]. split; [done|]. split; [done|].
  split; intros t'; [by rewrite (proj1 (set_thread_views _ _ _ _))|].
  rewrite (proj2 (set_thread_views _ _ _ _)). case_decide; [|done]. subst. unfold status_of. by rewrite Ht.
Qed.

Lemma same_env_trans k1 k2 k3 : same_env k1 k2 -> same_env k2 k3 -> same_env k1 k3.
Proof. unfold same_env. intuition congruence. Qed.

(** The thread blocks, and the frame [FSleep] goes on its stack. *)
Lemma Thread_Sleep_ok k stk :
  stack_of k (k_current k) = Some stk -> level k = IntOff ->
  exists k', Thread_Sleep k = Ok k' /\ same_env k k' /\ k_ready k' = k_ready k
    /\ (forall t, stack_of k' t = if decide (t = k_current k) then Some (FSleep :: stk) else stack_of k t)
    /\ (forall t, status_of k' t = if decide (t = k_current k) then Some BLOCKED else status_of k t).
Proof.
  intros Hs Hl. unfold Thread_Sleep. rewrite ASSERT_true by by rewrite bool_decide_eq_true. cbn [mbind result_bind].
  destruct (set_status_ok (k_current k) BLOCKED k) as (k1 & -> & Henv1 & Hrd1 & Hst1 & Hstat1); [by eexists|].
  cbn [mbind result_bind]. pose proof Henv1 as (_ & Hcur1 & _).
  destruct (push_ok [FSleep] k1 stk) as (k2 & -> & Henv2 & Hrd2 & Hst2 & Hstat2); [by rewrite Hst1, Hcur1|].
  exists k2. split; [done|]. split; [by apply (same_env_trans _ k1)|]. split; [congruence|].
  split; intros t; [|by rewrite Hstat2]. rewrite Hst2, Hcur1. by rewrite Hst1.
Qed.

Lemma queue_sleep_ok z k k1 stk f :
  mid z k stk -> k_threads k1 = k_threads k -> k_ready k1 = k_ready k ->
  waiters k1 ≡ₚ k_current k :: waiters k -> k_current k1 = k_current k -> k_tbd k1 = k_tbd k ->
  k_hw k1 = k_hw k -> sized z k1 -> code_ok z (f :: stk) -> lvl_ok IntOff (f :: stk) ->
  level k = IntOff -> k_tbd k <> Some (k_current k) ->
  exists k', (k2 ← push [f] k1; Thread_Sleep k2) = Ok k' /\ asleep z k' (f :: stk)
    /\ k_sems k' = k_sems k1 /\ k_locks k' = k_locks k1 /\ k_slists k' = k_slists k1.
Proof.
  intros [Hc Hs Hr Hn Hh] Hth Hrd Hw Hcur Htbd Hhw Hsz Hco Hlv Hl Ht.
  destruct (push_ok [f] k1 stk) as (k2 & -> & Henv2 & Hrd2 & Hst2 & Hstat2).
  { unfold stack_of in *. by rewrite Hcur, Hth. }
  cbn [mbind result_bind]. pose proof Henv2 as (Hhw2 & Hcur2 & _).
  destruct (Thread_Sleep_ok k2 (f :: stk)) as (k3 & -> & Henv3 & Hrd3 & Hst3 & Hstat3).
  { by rewrite Hst2, Hcur2, decide_True. }
  { unfold level in *. congruence. }
  exists k3. split; [done|]. pose proof (same_env_trans _ _ _ Henv2 Henv3) as Henv.
  pose proof Henv as (Hhw3 & Hcur3 & Htbd3 & Hs3 & Hl3 & Hc3 & Hsl3 & _).
  split; [|done].
  assert (Hst : forall t, stack_of k3 t = if decide (t = k_current k) then Some (FSleep :: f :: stk) else stack_of k t).
  { intros t. rewrite Hst3, Hcur2, Hcur. case_decide; [done|]. rewrite Hst2, Hcur, decide_False by done.
    unfold stack_of. by rewrite Hth. }
  assert (Hstat : forall t, status_of k3 t = if decide (t = k_current k) then Some BLOCKED else status_of k t).
  { intros t. rewrite Hstat3, Hcur2, Hcur. case_decide; [done|]. rewrite Hstat2. unfold status_of. by rewrite Hth. }
  assert (Hw3 : waiters k3 ≡ₚ k_current k :: waiters k) by by rewrite (waiters_env _ _ Henv).
  assert (Hrdy : k_ready k3 = k_ready k) by congruence.
  assert (Hq : queued k3 ≡ₚ k_current k :: queued k).
  { unfold queued. rewrite Hw3, Hrdy. symmetry. apply Permutation_middle. }
  split; [|split; [by rewrite Hst, Hcur3, Hcur, decide_True|split; [by unfold quiet, level in *; rewrite Hhw3, Hhw|]]].
  - constructor; rewrite ?Hrdy, ?Hcur3, ?Hcur, ?Htbd3, ?Htbd, ?Hhw3, ?Hhw.
    + rewrite Hq. apply NoDup_cons. split; [done|apply Hc].
    + intros t Ht'. rewrite Hstat. rewrite decide_False; [by apply Hc|]. intros ->. apply Hn. unfold queued.
      by apply elem_of_app; left.
    + intros t. rewrite Hw3, Hstat, elem_of_cons. intros Ht'. case_decide; [done|]. apply Hc. by destruct Ht'.
    + intros t stk'. rewrite Hq, Hst, elem_of_cons. intros Ht' Hs'. case_decide; [by injection Hs' as <-|].
      apply (c_live _ _ Hc t); [by destruct Ht'|done].
    + intros t stk'. rewrite Hq, Hst, elem_of_cons. intros Hs'. case_decide; [by left; left|].
      destruct (c_lost _ _ Hc t stk' Hs') as [?|[?|?]]; auto.
    + intros t stk'. rewrite Hst. intros Hs' Hne. rewrite decide_False in Hs' by done. by apply (c_park _ _ Hc t).
    + rewrite Hst, decide_True by done. by eexists.
    + intros t Ht'. destruct (c_tbd _ _ Hc t Ht') as [Hni (stk' & Hs' & Hf)]. rewrite Hq, Hst, elem_of_cons.
      assert (t <> k_current k) by congruence. split; [by intros [?|?]|]. rewrite decide_False by done. eauto.
    + apply Hc.
    + unfold sized. rewrite Hs3, Hl3, Hc3, Hsl3. exact Hsz.
  - right. split; [done|]. split; [done|]. rewrite Hcur3, Hcur, Hq, Htbd3, Htbd. split; [left|done].
Qed.

(** A sleeping thread, its topmost frame already taken off. *)
Definition drowsy (z : sizes) (k : Kernel) (rest : list frame) : Prop :=
  core z k /\ stack_of k (k_current k) = Some rest /\ quiet k
  /\ ((rest = [] /\ k_tbd k = Some (k_current k) /\ k_current k ∉ queued k)
      \/ (code_ok z rest /\ lvl_ok IntOff rest /\ k_current k ∈ queued k /\ k_tbd k <> Some (k_current k))).

Lemma drowsy_push z k rest :
  drowsy z k rest -> exists k', push [FSleep] k = Ok k' /\ asleep z k' rest /\ same_env k k'
    /\ k_ready k' = k_ready k.
Proof.
  intros (Hc & Hs & Hq & Hr). destruct (push_ok [FSleep] k rest Hs) as (k' & HP & Henv & Hrd & Hst & Hstat).
  exists k'. split; [done|]. split; [|done].
  destruct (core_stack z k k' rest (FSleep :: rest) Hc Hs Henv Hrd Hst Hstat) as [Hc' Hqu].
  { intros Hin. destruct Hr as [(_ & _ & ?)|(Hco & _)]; [done|]. split; [done|].
    intros [= ->]. destruct (code_ok_nonempty z [] Hco). done. }
  destruct Henv as (Hhw & Hcur & Htbd & _). split; [done|].
  split; [by rewrite Hst, Hcur, decide_True|]. split; [by unfold quiet, level in *; rewrite Hhw|].
  rewrite Hcur, Htbd, Hqu. destruct Hr as [(-> & ? & ?)|?]; [by left|by right].
Qed.

Lemma asleep_pop z k rest :
  asleep z k rest -> exists k', set_stack (k_current k) rest k = Ok k' /\ drowsy z k' rest /\ same_env k k'.
Proof.
  intros (Hc & Hs & Hq & Hr).
  destruct (set_stack_ok (k_current k) rest k) as (k' & HP & Henv & Hrd & Hst & Hstat); [by eexists|].
  exists k'. split; [done|]. split; [|done].
  destruct (core_stack z k k' _ rest Hc Hs Henv Hrd Hst Hstat) as [Hc' Hqu].
  { intros Hin. destruct Hr as [[-> Ht]|(Hco & _)]; [done|]. destruct (code_ok_nonempty z _ Hco) as (_ & ? & ?). done. }
  destruct Henv as (Hhw & Hcur & Htbd & _). split; [done|].
  split; [by rewrite Hst, Hcur, decide_True|]. split; [by unfold quiet, level in *; rewrite Hhw|].
  rewrite Hcur, Htbd, Hqu. destruct Hr as [[-> Ht]|?]; [left|by right].
  split; [done|]. split; [done|]. by destruct (c_tbd _ _ Hc _ Ht).
Qed.

Lemma asleep_calm z k k' rest :
  asleep z k rest -> core z k' -> calm k k' -> quiet k' -> asleep z k' rest.
Proof.
  intros (Hc & Hs & Hq & Hr) Hc' (Hcur & Htbd & Hst & Hqu & _) Hq'. split; [done|].
  rewrite Hst, Hcur, Htbd, Hqu. done.
Qed.

(** [Interrupt::Idle], called by a thread that sleeps. *)
Lemma Idle_ok z k rest :
  asleep z k rest -> locks_ok z None k ->
  wp (fuel_err (k_hw k)) (Interrupt_Idle k) (fun '(o, evs) =>
    match o with
    | Running k' => kinv z k' /\ explains z k evs k'
    | Halted k' => asleep z k' rest /\ locks_ok z None k' /\ explains z k evs k' /\ k_ready k' = k_ready k
        /\ Forall (fun x => pi_type x.2 = TimerInt) (hw_pending (k_hw k'))
    end).
Proof.
  intros Ha Hlk. unfold Interrupt_Idle. set (k0 := k_set_hw _ k).
  assert (Hex0 : explains z k [] k0) by by apply explains_refl.
  assert (Hc0 : core z k0).
  { destruct Ha as [Hc _]. destruct (c_pend _ _ Hc). by apply core_hw. }
  assert (Ha0 : asleep z k0 rest) by (apply (asleep_calm z k); [done|done|apply calm_hw|apply Ha]).
  destruct (CheckIfDue_ok z true k0 Hc0) as
    (b & k1 & evs & -> & Hc1 & Hcalm1 & Hex1 & Hu1 & Hq1 & _ & _ & HB & _ & Hfalse); [apply Ha|].
  cbn [mbind result_bind].
  assert (Ha1 : asleep z k1 rest) by by apply (asleep_calm z k0).
  assert (Hex : explains z k evs k1) by by apply (explains_trans z k [] k0).
  assert (Hlk1 : locks_ok z None k1) by by apply (locks_ok_user_V z None k evs).
  destruct b.
  - apply wp_bind. eapply wp_mono; [by apply (check_loop_ok z)|..].
    { intros e [-> Hn]. split; [done|]. intros [Ht Hp]. apply Hn.
      destruct (HB (2 ^ 31 - 20)) as [? ?]; [split; [cbn; lia|done]|]. cbn in H. split; [lia|].
      unfold loop_fuel. pose proof (due_length (k_hw k1)). lia. }
    intros [k2 evs2] (Hc2 & Hcalm2 & Hex2 & Hu2 & Hq2 & _). cbn [wp].
    assert (Hlk2 : locks_ok z None k2) by by apply (locks_ok_user_V z None k1 evs2).
    split.
    + right. exists rest. split; [|done]. apply (asleep_calm z k1); [done| |
        apply (calm_trans _ k2); [done|apply calm_hw]|done].
      destruct (c_pend _ _ Hc2). by apply core_hw.
    + rewrite <-(app_nil_r evs2). apply (explains_trans z k evs k1); [done|].
      by apply (explains_trans z k1 evs2 k2), explains_refl.
  - cbn [wp]. destruct (Hfalse eq_refl) as [Hrd Ht]. split; [done|]. split; [done|]. split; [done|].
    split; [exact Hrd|by apply Ht].
Qed.

(** One round of the loop of [Sleep]. *)
Lemma Sleep_loop_ok z k rest :
  drowsy z k rest -> locks_ok z None k ->
  wp (fuel_err (k_hw k)) (Sleep_loop k) (fun '(o, evs) =>
    match o with
    | Running k' => kinv z k' /\ explains z k evs k'
    | Halted k' => asleep z k' rest /\ locks_ok z None k' /\ explains z k evs k' /\ k_ready k' = []
        /\ Forall (fun x => pi_type x.2 = TimerInt) (hw_pending (k_hw k'))
    end).
Proof.
  intros Hd Hlk. pose proof Hd as (Hc & Hs & Hq & Hr). unfold Sleep_loop.
  destruct (FindNext_ok z true k Hc) as (r & R & s & -> & HR). cbn [mbind result_bind].
  set (k1 := k_set_ready R (k_set_switch s k)). destruct r as [next|].
  - assert (Hin : next ∈ queued k) by (unfold queued; rewrite HR; left).
    destruct (queued_stack z k next Hc Hin) as [sn Hsn].
    destruct (Run_ok k1 next rest) as (k2 & -> & Henv2 & Hrd2 & Hst2 & Hstat2); [done|by exists sn|].
    cbn [mbind result_bind wp]. destruct Henv2 as (Hhw2 & Hcur2 & Htbd2 & Hs2 & Hl2 & Hc2 & Hsl2 & _).
    simpl in Hhw2, Hcur2, Htbd2, Hs2, Hl2, Hc2, Hsl2.
    split; [|by apply explains_refl].
    destruct (switch_core z k k2 next rest false R.*2) as
      (Hc' & Hn' & Hr' & Ht' & f & rest' & Hs' & Hf & Hcf & Hlf); try done.
    + by rewrite Hrd2.
    + unfold waiters. by rewrite Hs2, Hl2, Hc2.
    + unfold sized. rewrite Hs2, Hl2, Hc2, Hsl2. apply (c_size _ _ Hc).
    + destruct Hr as [(-> & _)|(_ & _ & ? & _)]; [by left|by right].
    + destruct Hr as [(-> & _)|(_ & _ & _ & ?)]; [done|done].
    + destruct Hr as [(-> & _ & ?)|(Hco & _)]; [done|]. intros _. apply (code_ok_nonempty z _ Hco).
    + destruct Hr as [(-> & _)|(Hco & Hl & _)]; [by left|]. right. exists FRun, rest. split; [done|].
      split; [by left|]. by split.
    + apply (kinv_switched z k2 next f rest'); try done; [|by apply (locks_ok_same z None k)].
      unfold quiet, level in *. by rewrite Hhw2.
  - destruct HR as [HR HE]. specialize (HE eq_refl).
    assert (Hq1 : queued k1 ≡ₚ queued k) by (unfold queued; cbn; by rewrite HR).
    assert (Hd1 : drowsy z k1 rest).
    { split; [by apply (core_same_queues z k); [..|apply (c_size _ _ Hc)]|].
      split; [done|]. split; [done|]. rewrite Hq1. exact Hr. }
    destruct (drowsy_push z k1 rest Hd1) as (k2 & -> & Ha2 & Henv & Hrd2). cbn [mbind result_bind].
    destruct Henv as (Hhw & _ & _ & Hs2 & Hl2 & _ & Hsl2 & _).
    assert (Hex2 : explains z k [] k2) by by apply explains_refl.
    eapply wp_mono; [apply (Idle_ok z k2 rest); [done|by apply (locks_ok_same z None k)]|..].
    { rewrite Hhw. done. }
    intros [[k3|k3] evs]; cbn beta iota.
    + intros [Hk Hex]. split; [done|]. by apply (explains_trans z k [] k2).
    + intros (Hk & Hlk3 & Hex & Hrd3 & Ht). split; [done|]. split; [done|]. split; [by apply (explains_trans z k [] k2)|].
      split; [|done]. rewrite Hrd3, Hrd2. exact HE.
Qed.

(** ** The operations *)

(** What a step promises: the invariant, and events that account for every change. *)
Definition post (z : sizes) (k0 : Kernel) (r : Kernel * list event) : Prop :=
  kinv z r.1 /\ explains z k0 r.2 r.1.

Lemma disable_ok z k lvl stk :
  at_code z k lvl stk -> at_code z (disable k) lvl stk /\ level (disable k) = IntOff
    /\ (forall e, fuel_err (k_hw (disable k)) e -> fuel_err (k_hw k) e).
Proof. intros Ha. split; [apply at_code_hw; try done; apply Ha|done]. Qed.

Lemma SetLevel_post z k0 evs0 evs1 now k stk (E : error -> Prop) :
  at_code z k now stk -> level k = IntOff -> explains z k0 evs0 k -> evs1 = evs0 ->
  (forall x, fuel_err (k_hw k) x -> E x) ->
  wp E ('(k, evs) ← Interrupt_SetLevel now k; Ok (k, evs1 ++ evs)) (post z k0).
Proof.
  intros Ha Hl Hex -> He. apply wp_bind. eapply wp_mono; [by apply (SetLevel_tail z k0 evs0 now k stk E)|done|].
  intros [k2 evs] [Hk Hex2]. by split.
Qed.

Lemma P_ok z k lvl stk r :
  at_code z k lvl stk -> level k = lvl -> sem_ok z r ->
  code_ok z (FPLoop r lvl :: stk) ->
  exists k', Semaphore_P r k = Ok k' /\ kinv z k' /\ explains z k [] k'.
Proof.
  intros Ha Hl Hr Hc. unfold Semaphore_P. destruct (disable_ok z k lvl stk Ha) as (Hd & Hld & _).
  destruct Hd as [Hm Hco Hlv Hlk Ht]. rewrite Hl.
  destruct (mid_push z (disable k) stk [FPLoop r lvl] IntOff Hm Hc) as (k' & HP & Ha' & Henv); try done.
  exists k'. split; [done|]. destruct Henv as (Hhw & _ & _ & Hs & Hlo & _ & Hsl & _).
  split; [|by apply explains_refl]. apply (at_code_kinv z k' (FPLoop r lvl :: stk)). unfold level. by rewrite Hhw.
Qed.

Lemma Semaphore_V_ok z k stk s :
  at_code z k IntOn stk -> level k = IntOn -> (s < z_sems z)%nat ->
  wp (fuel_err (k_hw k)) (Semaphore_V (SUser s) k) (post z k).
Proof.
  intros Ha Hl Hs. unfold Semaphore_V. destruct (disable_ok z k IntOn stk Ha) as (Hd & Hld & He).
  destruct (V_body_ok z (SUser s) (disable k)) as (k1 & -> & Hc1 & Hcalm1 & Hhw1 & Hex1 & _); [apply Hd|done|].
  cbn [mbind result_bind]. rewrite Hl.
  assert (Hu : Forall user_V [EvV (SUser s)]) by (repeat constructor; by exists s).
  assert (Ha1 : at_code z k1 IntOn stk).
  { apply (at_code_calm z (disable k) k1 _ _ _ Hd Hc1 Hcalm1 Hex1 Hu). rewrite Hhw1. apply Hd. }
  apply (SetLevel_post z k [EvV (SUser s)] [EvV (SUser s)] IntOn k1 stk); try done.
  - unfold level. by rewrite Hhw1.
  - rewrite Hhw1. done.
Qed.

Lemma Lock_Acquire_ok z k lvl stk l :
  at_code z k lvl stk -> level k = lvl -> (l < z_locks z)%nat ->
  exists k', Lock_Acquire l k = Ok k' /\ kinv z k' /\ explains z k [] k'.
Proof.
  intros Ha Hl Hlt. unfold Lock_Acquire. destruct (disable_ok z k lvl stk Ha) as ([Hm Hco Hlv Hlk Ht] & Hld & _).
  rewrite Hl. destruct (push_mid z (disable k) stk [FAcquire l lvl] Hm) as (k1 & -> & Hm1 & Henv1 & _).
  cbn [mbind result_bind]. unfold Semaphore_P. pose proof Henv1 as (Hhw1 & Hcur1 & Htbd1 & Hs1 & Hlo1 & _ & Hsl1 & _).
  assert (Hl1 : level k1 = IntOff) by (unfold level; by rewrite Hhw1).
  assert (Hm1' : mid z (disable k1) (FAcquire l lvl :: stk)) by (apply mid_hw; [done|done|apply Hm1]).
  destruct (mid_push z (disable k1) (FAcquire l lvl :: stk) [FPLoop (SLock l) (level k1)] IntOff Hm1') as
    (k2 & -> & Ha2 & Henv2).
  - rewrite Hl1. by apply code_ok_lock.
  - rewrite Hl1. done.
  - apply (locks_ok_same z None k); [apply Ha|]. exact Hlo1.
  - change (k_tbd k1 <> Some (k_current k1)). rewrite Htbd1, Hcur1. done.
  - exists k2. split; [done|]. destruct Henv2 as (Hhw2 & _ & _ & Hs2 & Hlo2 & _ & Hsl2 & _).
    split; [|by apply explains_refl; [rewrite Hs2|rewrite Hlo2|rewrite Hsl2]].
    eapply (at_code_kinv z k2). unfold level. rewrite Hhw2. exact Ha2.
Qed.

(** *** Locks *)

Lemma lock_lookup z k l : core z k -> (l < z_locks z)%nat ->
  exists lk, k_locks k !! l = Some lk /\ sem_val k (SLock l) = sem_value (lk_sem lk) /\ owner_of k l = lk_owner lk.
Proof.
  intros Hc Hl. destruct (c_size _ _ Hc) as (_ & Hlen & _).
  destruct (lookup_lt_is_Some_2 (k_locks k) l) as [lk Hlk]; [lia|]. exists lk. split; [done|].
  unfold sem_val, owner_of. simpl. by rewrite Hlk.
Qed.

Lemma set_owner_ok z k l o :
  core z k -> (l < z_locks z)%nat ->
  exists k', set_owner l o k = Ok k' /\ core z k' /\ calm k k' /\ k_hw k' = k_hw k
    /\ (forall r, sem_val k' r = sem_val k r)
    /\ (forall l', owner_of k' l' = if decide (l' = l) then o else owner_of k l').
Proof.
  intros Hc Hl. destruct (lock_lookup z k l Hc Hl) as (lk & Hlk & _). unfold set_owner. rewrite Hlk.
  cbn [deref mbind result_bind]. eexists. split; [done|].
  destruct (bind_insert (fun l => (sem_queue (lk_sem l)).*2) _ _ _ Hlk) as (rest & Hp & Hp').
  assert (Hw : waiters (k_set_locks (<[l:=mkLock (lk_sem lk) o]> (k_locks k)) k) ≡ₚ waiters k).
  { unfold waiters. cbn. by rewrite Hp', Hp. }
  assert (Hlt : (l < length (k_locks k))%nat) by by apply (lookup_lt_Some _ _ lk).
  split; [|split; [|split; [done|split]]].
  - apply (core_same_queues z k); try done. destruct (c_size _ _ Hc) as (? & ? & ? & ? & ?).
    unfold sized. cbn. by rewrite length_insert.
  - split; [done|]. split; [done|]. split; [done|]. split; [|done]. unfold queued. by rewrite Hw.
  - intros [s|l']; [done|]. unfold sem_val. cbn.
    destruct (decide (l' = l)) as [->|Hne]; [|by rewrite list_lookup_insert_ne].
    by rewrite list_lookup_insert_eq, Hlk.
  - intros l'. unfold owner_of. cbn. case_decide; [subst; by rewrite list_lookup_insert_eq|].
    by rewrite list_lookup_insert_ne.
Qed.

Lemma held_ok z k l : core z k -> (l < z_locks z)%nat ->
  Lock_isHeldByCurrentThread l k = Ok (bool_decide (owner_of k l = Some (k_current k))).
Proof.
  intros Hc Hl. destruct (lock_lookup z k l Hc Hl) as (lk & Hlk & _ & Ho). unfold Lock_isHeldByCurrentThread.
  rewrite Hlk, Ho. done.
Qed.

Lemma Release_body_ok z k lvl stk l :
  at_code z k lvl stk -> (l < z_locks z)%nat -> owner_of k l = Some (k_current k) ->
  exists k1 k2, Semaphore_V_body (SLock l) k = Ok k1 /\ set_owner l None k1 = Ok k2
    /\ at_code z k2 lvl stk /\ k_hw k1 = k_hw k /\ k_hw k2 = k_hw k /\ calm k k2
    /\ explains z k [EvV (SLock l); EvRelease l (k_current k)] k2.
Proof.
  intros Ha Hl Ho. assert (Hc : core z k) by apply Ha.
  destruct (V_body_ok z (SLock l) k Hc Hl) as (k1 & HV & Hc1 & Hcalm1 & Hhw1 & (Hs1 & Ho1 & Hq1) & _).
  destruct (set_owner_ok z k1 l None Hc1 Hl) as (k2 & HO & Hc2 & Hcalm2 & Hhw2 & Hs2 & Ho2).
  exists k1, k2. split; [done|]. split; [done|].
  assert (Hcalm : calm k k2) by by apply (calm_trans _ k1).
  assert (Hex : explains z k [EvV (SLock l); EvRelease l (k_current k)] k2).
  { split; [|split].
    - intros r Hr. destruct (Hs1 r Hr) as [_ Hv]. rewrite Hs2, Hv. done.
    - intros l' Hl'. destruct (Ho1 l' Hl') as [_ Hv]. rewrite Ho2, Hv. cbn. split.
      + split; [done|]. split; [by intros <-|done].
      + destruct (decide (l' = l)) as [->|]; [by rewrite decide_True|by rewrite decide_False].
    - intros q. specialize (Hq1 q). unfold items in *. destruct Hcalm2 as (_ & _ & _ & _ & _ & ->). exact Hq1. }
  split; [|split; [done|split; [congruence|done]]].
  destruct Ha as [Hm Hco Hlv Hlk Ht]. constructor; try done.
  - apply (mid_calm z k); try done. rewrite Hhw2, Hhw1. apply Hm.
  - intros l' Hl'. destruct Hex as (Hs & Hoo & _). destruct (Hs (SLock l') Hl') as [_ ->]. destruct (Hoo l' Hl') as [_ ->].
    specialize (Hlk l' Hl'). cbn. destruct (decide (l = l')) as [<-|Hne].
    + rewrite decide_True by done. left. split; [|done].
      destruct Hlk as [(_ & Hn & _)|[(_ & Hn & _)|(-> & _)]]; [congruence|congruence|done].
    + rewrite decide_False by congruence. done.
  - destruct Hcalm as (-> & -> & _). done.
Qed.

Lemma V_quiet r k k1 :
  level k = IntOff -> Semaphore_V_body r (disable k) = Ok k1 -> k_hw k1 = k_hw (disable k) ->
  Semaphore_V r k = Ok (k1, [EvV r]).
Proof.
  intros Hl HV Hhw. unfold Semaphore_V. rewrite HV, Hl. cbn [mbind result_bind].
  rewrite SetLevel_off; [done|]. unfold level. by rewrite Hhw.
Qed.

(** [Lock::Release] by the holder, as an equation up to its last [SetLevel]. *)
Lemma Lock_Release_eq z k lvl stk l :
  at_code z k lvl stk -> (l < z_locks z)%nat -> owner_of k l = Some (k_current k) ->
  exists k2, Lock_Release l k = ('(k', evs) ← Interrupt_SetLevel (level k) k2;
                                 Ok (k', [EvV (SLock l); EvRelease l (k_current k)] ++ evs))
    /\ at_code z k2 lvl stk /\ k_hw k2 = k_hw (disable k) /\ calm k k2
    /\ explains z k [EvV (SLock l); EvRelease l (k_current k)] k2.
Proof.
  intros Ha Hl Ho. destruct (disable_ok z k lvl stk Ha) as (Hd & Hld & _).
  destruct (Release_body_ok z (disable k) lvl stk l Hd Hl Ho) as (k1 & k2 & HV & HO & Ha2 & Hhw1 & Hhw2 & Hcalm & Hex).
  exists k2. split; [|done].
  unfold Lock_Release. rewrite (held_ok z) by (done || apply Hd). cbn [mbind result_bind].
  rewrite ASSERT_true by (by apply bool_decide_eq_true_2). cbn [mbind result_bind].
  rewrite (V_quiet (SLock l) (disable k) k1) by done. cbn [mbind result_bind]. rewrite HO. done.
Qed.

Lemma Lock_Release_ok z k stk l (E : error -> Prop) :
  at_code z k IntOn stk -> level k = IntOn -> (l < z_locks z)%nat ->
  (forall e, fuel_err (k_hw k) e -> E e) -> (owner_of k l <> Some (k_current k) -> E AssertFailed) ->
  wp E (Lock_Release l k) (post z k).
Proof.
  intros Ha Hl Hlt HE HA. destruct (decide (owner_of k l = Some (k_current k))) as [Ho|Hn].
  - destruct (Lock_Release_eq z k IntOn stk l Ha Hlt Ho) as (k2 & -> & Ha2 & Hhw2 & _ & Hex). rewrite Hl.
    eapply (SetLevel_post z k); try done; [unfold level; by rewrite Hhw2|]. rewrite Hhw2. done.
  - destruct (disable_ok z k IntOn stk Ha) as (Hd & _ & _). unfold Lock_Release.
    rewrite (held_ok z) by (done || apply Hd). cbn [mbind result_bind].
    rewrite bool_decide_eq_false_2 by done. by apply HA.
Qed.

(** *** Conditions *)

Lemma app_front {T} (a b x r : list T) : a ++ b ++ x ++ r ≡ₚ x ++ r ++ a ++ b.
Proof. rewrite (assoc_L (++) a b), (Permutation_app_comm (a ++ b)). by rewrite <-(assoc_L (++)). Qed.

Lemma cond_ok z k c :
  core z k -> (c < z_conds z)%nat ->
  exists cv rest, k_conds k !! c = Some cv /\ waiters k ≡ₚ (cv_queue cv).*2 ++ rest
    /\ forall q, let k' := k_set_conds (<[c := mkCond q]> (k_conds k)) k in
         waiters k' ≡ₚ q.*2 ++ rest /\ sized z k' /\ k_conds k' !! c = Some (mkCond q).
Proof.
  intros Hc Hlt. destruct (c_size _ _ Hc) as (? & ? & Hlen & ? & ?).
  destruct (lookup_lt_is_Some_2 (k_conds k) c) as [cv Hcv]; [lia|].
  destruct (bind_insert (fun c => (cv_queue c).*2) _ _ _ Hcv) as (rest & Hp & Hp').
  eexists cv, _. split; [done|]. split; [unfold waiters; rewrite Hp; apply app_front|].
  intros q. split; [|split].
  - unfold waiters. cbn [k_sems k_locks k_conds k_set_conds]. rewrite Hp'. apply app_front.
  - unfold sized. cbn. by rewrite length_insert.
  - cbn. apply list_lookup_insert_eq. lia.
Qed.

(** [Condition::Wait] by the holder of the lock releases it and sleeps; the frame waits. *)
Lemma Condition_Wait_ok z k stk c l (E : error -> Prop) :
  at_code z k IntOn stk -> level k = IntOn -> (c < z_conds z)%nat -> (l < z_locks z)%nat ->
  (owner_of k l <> Some (k_current k) -> E AssertFailed) ->
  wp E (Condition_Wait c l k) (post z k).
Proof.
  intros Ha Hl Hc Hlt HA. destruct (disable_ok z k IntOn stk Ha) as (Hd & Hld & _).
  unfold Condition_Wait. rewrite Hl, (held_ok z) by (done || apply Hd). cbn [mbind result_bind].
  destruct (decide (owner_of k l = Some (k_current k))) as [Ho|Hn].
  2: { rewrite bool_decide_eq_false_2 by done. by apply HA. }
  rewrite ASSERT_true by (by apply bool_decide_eq_true_2). cbn [mbind result_bind].
  destruct (Lock_Release_eq z (disable k) IntOn stk l Hd Hlt Ho) as (k2 & -> & Ha2 & Hhw2 & Hcalm & Hex).
  assert (Hl2 : level k2 = IntOff) by (unfold level; by rewrite Hhw2).
  rewrite Hld, SetLevel_off by done. cbn [mbind result_bind app].
  destruct (cond_ok z k2 c) as (cv & rest & Hcv & Hw & Hset); [apply Ha2|done|].
  rewrite Hcv. cbn [deref mbind result_bind].
  destruct (Hset (sl_Append (k_current k2) (cv_queue cv))) as (Hw' & Hsz' & _).
  set (k3 := k_set_conds _ k2) in *.
  destruct (queue_sleep_ok z k2 k3 stk (FWait c l IntOn)) as (k4 & HS & Has & Hs4 & Hlo4 & Hsl4); try done; try apply Ha2.
  - rewrite Hw', Hw. unfold sl_Append. rewrite fmap_app, <-(assoc_L (++)). symmetry. apply Permutation_middle.
  - apply code_ok_cons; [done|done|apply Ha2].
  - split; [done|apply Ha2].
  - destruct (push [FWait c l IntOn] k3) as [k3'|]; [|done]. cbn [mbind result_bind] in *. rewrite HS.
    cbn [mbind result_bind wp]. split.
    + right. exists (FWait c l IntOn :: stk). split; [done|]. apply (locks_ok_same z None k2); [apply Ha2|done].
    + cbn. rewrite <-(app_nil_r [_; _]). apply (explains_trans z k _ k2); [exact Hex|].
      by apply explains_refl.
Qed.

(** [Condition::Signal] by the holder: the first waiter becomes ready. *)
Lemma Signal_body_ok z k lvl stk c l :
  at_code z k lvl stk -> (c < z_conds z)%nat -> (l < z_locks z)%nat -> owner_of k l = Some (k_current k) ->
  exists k' cv cv', Condition_Signal_body c l k = Ok k' /\ at_code z k' lvl stk /\ k_hw k' = k_hw k
    /\ k_sems k' = k_sems k /\ k_locks k' = k_locks k /\ k_slists k' = k_slists k /\ k_current k' = k_current k
    /\ k_conds k !! c = Some cv /\ k_conds k' !! c = Some cv' /\ cv_queue cv' = tail (cv_queue cv).
Proof.
  intros Ha Hc Hl Ho. unfold Condition_Signal_body. rewrite (held_ok z) by (done || apply Ha).
  cbn [mbind result_bind]. rewrite ASSERT_true by (by apply bool_decide_eq_true_2). cbn [mbind result_bind].
  destruct (cond_ok z k c) as (cv & rest & Hcv & Hw & Hset); [apply Ha|done|]. rewrite Hcv.
  cbn [deref mbind result_bind]. destruct (cv_queue cv) as [|[key t] q] eqn:Hq; cbn [sl_SortedRemove].
  { exists k, cv, cv. split_and!; try done. by rewrite Hq. }
  destruct (Hset q) as (Hw1 & Hsz1 & Hcv1). set (k1 := k_set_conds _ k) in *.
  assert (Hin : t ∈ queued k) by (unfold queued; rewrite Hw, elem_of_app, elem_of_app; right; left; left).
  destruct (ReadyToRun_ok t k1) as (k2 & -> & Henv & Hrd2 & Hst2 & Hstat2).
  { apply (queued_stack z k); [apply Ha|done]. }
  pose proof Henv as (Hhw2 & Hcur2 & Htbd2 & Hs2 & Hl2 & Hc2 & Hsl2 & _).
  exists k2, cv, (mkCond q). split; [done|].
  destruct (core_move z k k2 t) as [Hcore Hq2]; try done.
  { apply Ha. }
  { by rewrite (waiters_env _ _ Henv), Hw1, Hw. }
  { unfold sized in *. by rewrite Hs2, Hl2, Hc2, Hsl2. }
  assert (Hcalm : calm k k2).
  { split; [done|]. split; [done|]. split; [done|]. split; [done|]. split; [|done].
    intros t' Ht'. rewrite Hstat2. rewrite decide_False; [done|]. intros ->. done. }
  split; [|split_and!; try done; [by rewrite Hc2|by rewrite Hq]].
  apply (at_code_calm z k k2 lvl stk []); try done.
  - by apply explains_refl.
  - rewrite Hhw2. apply Ha.
Qed.

Lemma Condition_Signal_ok z k stk c l (E : error -> Prop) :
  at_code z k IntOn stk -> level k = IntOn -> (c < z_conds z)%nat -> (l < z_locks z)%nat ->
  (forall e, fuel_err (k_hw k) e -> E e) -> (owner_of k l <> Some (k_current k) -> E AssertFailed) ->
  wp E (Condition_Signal c l k) (post z k).
Proof.
  intros Ha Hl Hc Hlt HE HA. destruct (disable_ok z k IntOn stk Ha) as (Hd & Hld & _).
  unfold Condition_Signal. destruct (decide (owner_of k l = Some (k_current k))) as [Ho|Hn].
  - destruct (Signal_body_ok z (disable k) IntOn stk c l Hd Hc Hlt Ho) as
      (k1 & cv & cv' & -> & Ha1 & Hhw & Hs & Hlo & Hsl & _). cbn [mbind result_bind]. rewrite Hl.
    eapply wp_mono; [apply (SetLevel_tail z k [] IntOn k1 stk E); try done|done|].
    + unfold level. by rewrite Hhw.
    + by apply explains_refl; [rewrite Hs|rewrite Hlo|rewrite Hsl].
    + rewrite Hhw. done.
    + intros [k2 evs] [Hk Hex]. by split.
  - unfold Condition_Signal_body. rewrite (held_ok z) by (done || apply Hd). cbn [mbind result_bind].
    rewrite bool_decide_eq_false_2 by done. by apply HA.
Qed.

Lemma Broadcast_loop_ok z lvl stk c l fuel : forall k,
  at_code z k lvl stk -> level k = IntOff -> (c < z_conds z)%nat -> (l < z_locks z)%nat ->
  owner_of k l = Some (k_current k) ->
  (forall cv, k_conds k !! c = Some cv -> (length (cv_queue cv) <= fuel)%nat) ->
  exists k', Broadcast_loop fuel c l k = Ok (k', []) /\ at_code z k' lvl stk /\ k_hw k' = k_hw k
    /\ k_sems k' = k_sems k /\ k_locks k' = k_locks k /\ k_slists k' = k_slists k.
Proof.
  induction fuel as [|fuel IH]; intros k Ha Hl Hc Hlt Ho Hf;
    (destruct (cond_ok z k c) as (cv & rest & Hcv & _); [apply Ha|done|]); specialize (Hf cv Hcv);
    cbn [Broadcast_loop]; rewrite Hcv; cbn [deref mbind result_bind].
  { destruct (cv_queue cv); [|simpl in Hf; lia]. by exists k. }
  destruct (cv_queue cv) as [|x q] eqn:Hq; cbn [sl_IsEmpty]; [by exists k|].
  assert (Hdis : disable k = k).
  { unfold disable. apply set_hw_same. unfold level in Hl. destruct (k_hw k); simpl in *. by rewrite Hl. }
  destruct (Signal_body_ok z k lvl stk c l Ha Hc Hlt Ho) as
      (k1 & cv1 & cv' & HS & Ha1 & Hhw & Hs & Hlo & Hsl & Hcur & Hcv1 & Hcv' & Hq').
  unfold Condition_Signal. rewrite Hdis, HS. cbn [mbind result_bind]. rewrite Hl.
  assert (Hl1 : level k1 = IntOff) by (unfold level; by rewrite Hhw).
  rewrite SetLevel_off by done. cbn [mbind result_bind].
  destruct (IH k1) as (k2 & -> & Ha2 & Hhw2 & Hs2 & Hlo2 & Hsl2); try done.
  - unfold owner_of. by rewrite Hlo, Hcur.
  - intros cv2. rewrite Hcv'. intros [= <-]. rewrite Hq'. replace cv1 with cv by congruence. rewrite Hq. simpl in *. lia.
  - cbn [mbind result_bind app]. exists k2. split_and!; try done; congruence.
Qed.

Lemma Condition_Broadcast_ok z k stk c l (E : error -> Prop) :
  at_code z k IntOn stk -> level k = IntOn -> (c < z_conds z)%nat -> (l < z_locks z)%nat ->
  (forall e, fuel_err (k_hw k) e -> E e) -> (owner_of k l <> Some (k_current k) -> E AssertFailed) ->
  wp E (Condition_Broadcast c l k) (post z k).
Proof.
  intros Ha Hl Hc Hlt HE HA. destruct (disable_ok z k IntOn stk Ha) as (Hd & Hld & _).
  unfold Condition_Broadcast. rewrite (held_ok z) by (done || apply Hd). cbn [mbind result_bind].
  destruct (decide (owner_of k l = Some (k_current k))) as [Ho|Hn].
  2: { rewrite bool_decide_eq_false_2 by done. by apply HA. }
  rewrite ASSERT_true by (by apply bool_decide_eq_true_2). cbn [mbind result_bind].
  destruct (cond_ok z (disable k) c) as (cv & rest & Hcv & _); [apply Hd|done|].
  rewrite Hcv. cbn [deref mbind result_bind].
  destruct (Broadcast_loop_ok z IntOn stk c l (length (cv_queue cv)) (disable k)) as
    (k1 & -> & Ha1 & Hhw & Hs & Hlo & Hsl); try done.
  { intros cv'. rewrite Hcv. by intros [= <-]. }
  cbn [mbind result_bind]. rewrite Hl. apply (SetLevel_post z k [] [] IntOn k1 stk); try done.
  - unfold level. by rewrite Hhw.
  - by apply explains_refl; [rewrite Hs|rewrite Hlo|rewrite Hsl].
  - rewrite Hhw. done.
Qed.

(** *** Threads *)

Lemma op_ok_body z body : foldr (fun o P => op_ok z o /\ P) True body -> Forall (frame_ok z) (map FOp body).
Proof. induction body; simpl; [constructor|]. intros [? ?]. constructor; auto. Qed.

Lemma thread_root_ok z body :
  Forall (frame_ok z) (map FOp body) ->
  code_ok z (map FOp body ++ [FFinish]) /\ lvl_ok IntOn (map FOp body ++ [FFinish]).
Proof.
  intros Hb. split; [split|].
  - apply Forall_app. by repeat constructor.
  - clear. induction body; simpl; done.
  - clear. induction body; simpl; done.
Qed.

(** A new thread, made ready. *)
Lemma new_ready_core z k k' t stk :
  core z k -> stack_of k t = None -> parked z stk -> stk <> [FRun] -> stk <> [FSleep] ->
  (k_ready k').*2 ≡ₚ t :: (k_ready k).*2 -> waiters k' = waiters k ->
  (forall t', stack_of k' t' = if decide (t' = t) then Some stk else stack_of k t') ->
  (forall t', status_of k' t' = if decide (t' = t) then Some READY else status_of k t') ->
  k_hw k' = k_hw k -> k_current k' = k_current k -> k_tbd k' = k_tbd k -> sized z k' ->
  core z k' /\ queued k' ≡ₚ t :: queued k.
Proof.
  intros Hc Hnew Hp Hn1 Hn2 Hr Hw Hst Hstat Hhw Hcur Htbd Hsz.
  assert (Hq : queued k' ≡ₚ t :: queued k) by (unfold queued; by rewrite Hr, Hw).
  assert (Hnq : t ∉ queued k).
  { intros Hin. destruct (queued_stack z k t Hc Hin) as [? ?]. congruence. }
  assert (Hold : forall t' stk', stack_of k t' = Some stk' -> t' <> t) by (intros t' stk' ? ->; congruence).
  destruct (c_cur _ _ Hc) as [sc Hsc].
  split; [|done]. constructor; rewrite ?Hhw, ?Hcur, ?Htbd, ?Hw; try apply Hc; try done.
  - rewrite Hq. apply NoDup_cons. split; [done|apply Hc].
  - intros t'. rewrite Hr, Hstat, elem_of_cons. intros Ht'. case_decide; [done|]. apply Hc. by destruct Ht'.
  - intros t' Ht'. rewrite Hstat, decide_False; [by apply Hc|]. intros ->. apply Hnq. by apply elem_of_app; right.
  - intros t' stk'. rewrite Hq, Hst, elem_of_cons. intros Ht' Hs'. case_decide; [by injection Hs' as <-|].
    apply (c_live _ _ Hc t'); [by destruct Ht'|done].
  - intros t' stk'. rewrite Hq, Hst, elem_of_cons. intros Hs'. case_decide; [by left; left|].
    destruct (c_lost _ _ Hc t' stk' Hs') as [?|[?|?]]; auto.
  - intros t' stk'. rewrite Hst. intros Hs' Hne. case_decide; [by injection Hs' as <-|]. by apply (c_park _ _ Hc t').
  - rewrite Hst, decide_False by (by apply (Hold _ sc)). by eexists.
  - intros t' Ht'. destruct (c_tbd _ _ Hc t' Ht') as [Hni (stk' & Hs' & Hf)].
    assert (t' <> t) by by apply (Hold _ stk'). rewrite Hq, Hst, elem_of_cons.
    split; [by intros [?|?]|]. rewrite decide_False by done. eauto.
Qed.

Lemma Thread_new_ok garbage pri fs k :
  match find_id 0 (k_threadIds k) with
  | None => Thread_new garbage pri fs k = Err AssertFailed
  | Some i => exists t k', Thread_new garbage pri fs k = Ok (t, k') /\ stack_of k t = None
      /\ k' = set_thread t (mkThread JUST_CREATED (Z.of_nat i) (Thread_priority garbage pri) fs)
                (k_set_ids (<[i := 1]> (k_threadIds k)) k)
  end.
Proof.
  unfold Thread_new, allocatedThreadID. destruct (find_id 0 (k_threadIds k)) as [i|]; [|done].
  rewrite ASSERT_true by (apply negb_true_iff, Z.eqb_neq; lia). cbn [mbind result_bind k_threads k_set_ids]. eexists _, _. split; [done|].
  split; [|done]. unfold stack_of. rewrite (proj1 (not_elem_of_dom _ _)); [done|]. apply is_fresh.
Qed.

Lemma Thread_Fork_ok z k stk garbage pri body (E : error -> Prop) :
  at_code z k IntOn stk -> level k = IntOn -> Forall (frame_ok z) (map FOp body) ->
  (forall e, fuel_err (k_hw k) e -> E e) -> (find_id 0 (k_threadIds k) = None -> E AssertFailed) ->
  wp E (Thread_Fork garbage pri body k) (post z k).
Proof.
  intros Ha Hl Hb HE HA. unfold Thread_Fork.
  pose proof (Thread_new_ok garbage pri (FEnable :: map FOp body ++ [FFinish]) k) as HN.
  destruct (find_id 0 (k_threadIds k)) as [i|]; [|rewrite HN; by apply HA].
  destruct HN as (t & k1 & -> & Hnew & Hk1). cbn [mbind result_bind].
  assert (Hl1 : level k1 = IntOn) by by rewrite Hk1.
  assert (Hv1 : forall t', stack_of (disable k1) t' = (if decide (t' = t) then Some (FEnable :: map FOp body ++ [FFinish])
                   else stack_of k t')
              /\ status_of (disable k1) t' = if decide (t' = t) then Some JUST_CREATED else status_of k t').
  { intros t'. rewrite Hk1. split; [exact (proj1 (set_thread_views _ _ (k_set_ids _ k) t'))|].
    exact (proj2 (set_thread_views _ _ (k_set_ids _ k) t')). }
  destruct (ReadyToRun_ok t (disable k1)) as (k2 & -> & Henv & Hrd2 & Hst2 & Hstat2).
  { rewrite (proj1 (Hv1 t)), decide_True by done. by eexists. }
  cbn [mbind result_bind]. rewrite Hl1. pose proof Henv as (Hhw2 & Hcur2 & Htbd2 & Hs2 & Hlo2 & Hc2 & Hsl2 & _).
  destruct (thread_root_ok z body Hb) as [Hcb Hlb].
  destruct (disable_ok z k IntOn stk Ha) as (Hd & _ & _).
  destruct (new_ready_core z (disable k) k2 t (FEnable :: map FOp body ++ [FFinish])) as [Hc' Hq']; try done.
  { apply Hd. }
  { right. eexists FEnable, _. split; [done|]. split; [by right|]. done. }
  { rewrite Hrd2, Hk1. done. }
  { rewrite (waiters_env _ _ Henv), Hk1. done. }
  { intros t'. rewrite Hst2, (proj1 (Hv1 t')). done. }
  { intros t'. rewrite Hstat2. case_decide; [done|]. rewrite (proj2 (Hv1 t')), decide_False by done. done. }
  { rewrite Hhw2, Hk1. done. }
  { rewrite Hcur2, Hk1. done. }
  { rewrite Htbd2, Hk1. done. }
  { unfold sized. rewrite Hs2, Hlo2, Hc2, Hsl2, Hk1. apply (c_size z k), Ha. }
  assert (Hcur : k_current k2 = k_current k) by (rewrite Hcur2, Hk1; done).
  assert (Hne : k_current k <> t).
  { intros <-. destruct Hd as [[_ Hs _ _ _] _ _ _ _]. change (stack_of k (k_current k) = Some stk) in Hs. congruence. }
  assert (Ha2 : at_code z k2 IntOn stk).
  { destruct Hd as [[Hc Hs Hr Hn Hh] Hco Hlv Hlk Ht]. constructor; try done.
    - constructor; rewrite ?Hcur; try done.
      + rewrite Hst2, (proj1 (Hv1 _)), decide_False by done. exact Hs.
      + rewrite Hstat2, decide_False, (proj2 (Hv1 _)), decide_False by done. exact Hr.
      + rewrite Hq', elem_of_cons. intros [?|?]; done.
      + rewrite Hhw2, Hk1. exact Hh.
    - apply (locks_ok_same z None k); [exact Hlk|]. rewrite Hlo2, Hk1. done.
    - rewrite Htbd2, Hcur, Hk1. exact Ht. }
  eapply wp_mono; [apply (SetLevel_tail z k [] IntOn k2 stk E Ha2)|done|].
  - unfold level. by rewrite Hhw2.
  - by apply explains_refl; [rewrite Hs2, Hk1|rewrite Hlo2, Hk1|rewrite Hsl2, Hk1].
  - rewrite Hhw2, Hk1. done.
  - intros [k3 evs] [Hk Hex]. by split.
Qed.

(** [Thread::Finish] of a thread whose code is finished. *)
Lemma Thread_Finish_ok z k :
  mid z k [] -> locks_ok z None k ->
  exists k', Thread_Finish k = Ok k' /\ kinv z k' /\ explains z k [] k'.
Proof.
  intros [Hc Hs Hr Hn Hh] Hlk. unfold Thread_Finish. set (k0 := k_set_tbd _ (disable k)).
  destruct (Thread_Sleep_ok k0 []) as (k1 & -> & Henv & Hrd & Hst & Hstat); [done|done|].
  exists k1. split; [done|]. pose proof Henv as (Hhw & Hcur & Htbd & Hs1 & Hlo & Hcd & Hsl & _).
  split; [|by apply explains_refl]. right. exists []. split; [|by apply (locks_ok_same z None k)].
  assert (Hq : queued k1 = queued k) by (unfold queued; by rewrite Hrd, (waiters_env _ _ Henv)).
  assert (Hw : waiters k1 = waiters k) by by rewrite (waiters_env _ _ Henv).
  split; [|split; [by rewrite Hst, Hcur, decide_True|split; [by unfold quiet, level; rewrite Hhw|left; by rewrite Htbd, Hcur]]].
  constructor; rewrite ?Hq, ?Hw, ?Hcur, ?Htbd, ?Hhw, ?Hrd.
  - apply Hc.
  - intros t Ht. rewrite Hstat, decide_False; [by apply Hc|]. intros ->. apply Hn. by apply elem_of_app; left.
  - intros t Ht. rewrite Hstat, decide_False; [by apply Hc|]. intros ->. apply Hn. by apply elem_of_app; right.
  - intros t stk Ht. rewrite Hst, decide_False by (by intros ->). by apply Hc.
  - intros t stk. rewrite Hst. intros Hs'. case_decide; [by right; left|]. by apply Hc.
  - intros t stk. rewrite Hst. intros Hs' Hne. rewrite decide_False in Hs' by done. by apply (c_park _ _ Hc t).
  - rewrite Hst, decide_True by done. by eexists.
  - intros t [= <-]. split; [done|]. eexists. split; [by rewrite Hst, decide_True|done].
  - destruct (c_pend _ _ Hc). done.
  - unfold sized. rewrite Hs1, Hlo, Hcd, Hsl. apply (c_size _ _ Hc).
Qed.

(** Behind [SWITCH]: the finished thread, if any, is deallocated. *)
Lemma Run_done_ok z k stk :
  at_code z k (level k) stk ->
  exists k', Scheduler_Run_done k = Ok k' /\ kinv z k' /\ explains z k [] k'.
Proof.
  intros Ha. unfold Scheduler_Run_done. destruct (k_tbd k) as [t|] eqn:Ht.
  2: { exists k. split; [done|]. split; [by apply (at_code_kinv z k stk)|by apply explains_refl]. }
  destruct Ha as [[Hc Hs Hr Hn Hh] Hco Hlv Hlk Htb]. rewrite Ht in Htb.
  assert (Hne : t <> k_current k) by congruence.
  destruct (c_tbd _ _ Hc t Ht) as [Hnq (st & Hst & Hf)]. rewrite (Hf Hne) in Hst.
  destruct (stack_thread _ _ _ Hst) as (th & Hth & _).
  unfold Thread_delete, thread. rewrite Hth. cbn [deref mbind result_bind k_current k_set_ids].
  rewrite ASSERT_true by (by apply bool_decide_eq_true_2). cbn [mbind result_bind].
  set (k' := k_set_tbd None _). exists k'. split; [done|]. split; [|by apply explains_refl].
  assert (Hst' : forall t', stack_of k' t' = if decide (t' = t) then None else stack_of k t').
  { intros t'. unfold stack_of. cbn. case_decide; [subst; by rewrite lookup_delete_eq|by rewrite lookup_delete_ne]. }
  assert (Hstat' : forall t', t' <> t -> status_of k' t' = status_of k t').
  { intros t' ?. unfold status_of. cbn. by rewrite lookup_delete_ne. }
  assert (Hq : forall t', t' ∈ queued k -> t' <> t) by (intros t' ? ->; done).
  assert (Hqr : forall t', t' ∈ (k_ready k).*2 -> t' <> t) by (intros; apply Hq; by apply elem_of_app; left).
  assert (Hqw : forall t', t' ∈ waiters k -> t' <> t) by (intros; apply Hq; by apply elem_of_app; right).
  apply (at_code_kinv z k' stk). constructor; try done. constructor; try done.
  - constructor; try done; try apply Hc.
    + intros t' Ht'. rewrite Hstat' by by apply Hqr. by apply Hc.
    + intros t' Ht'. rewrite Hstat' by by apply Hqw. by apply Hc.
    + intros t' stk' Ht'. rewrite Hst', decide_False by by apply Hq. by apply Hc.
    + intros t' stk'. rewrite Hst'. intros Hs'. case_decide; [done|]. by apply Hc.
    + intros t' stk'. rewrite Hst'. intros Hs' ?. case_decide; [done|]. by apply (c_park _ _ Hc t').
    + rewrite Hst', decide_False; [apply Hc|]. intros E. by apply Hne.
  - change (k_current k') with (k_current k). rewrite Hst', decide_False by congruence. done.
  - change (k_current k') with (k_current k). rewrite Hstat' by congruence. done.
Qed.

(** *** Semaphores *)

Lemma set_sem_ok z k r :
  sized z k -> sem_ok z r ->
  exists sm rest, get_sem r k = Ok sm /\ waiters k ≡ₚ (sem_queue sm).*2 ++ rest /\ sem_val k r = sem_value sm
    /\ forall sm', exists k', set_sem r sm' k = Ok k' /\ waiters k' ≡ₚ (sem_queue sm').*2 ++ rest
         /\ k_hw k' = k_hw k /\ k_threads k' = k_threads k
         /\ k_current k' = k_current k /\ k_ready k' = k_ready k /\ k_tbd k' = k_tbd k /\ sized z k'
         /\ k_slists k' = k_slists k
         /\ (forall r', sem_val k' r' = if decide (r' = r) then sem_value sm' else sem_val k r')
         /\ (forall l, (l < z_locks z)%nat -> owner_of k' l = owner_of k l).
Proof.
  intros Hsz Hr. destruct (get_sem_ok z k r Hsz Hr) as (sm & rest & HG & Hw & Hset).
  exists sm, rest. split; [done|]. split; [done|]. split; [unfold sem_val; by rewrite HG|].
  intros sm'. destruct (Hset sm') as (k' & HS & Hw' & HG' & Hhw & Hth & Hcur & Hrd & Htbd & Hsz' & Hsl & Hoth & Hlk).
  exists k'. repeat (split; [done|]). split.
  - intros r'. unfold sem_val. case_decide; [subst; by rewrite HG'|by rewrite Hoth].
  - intros l Hl. unfold owner_of. destruct Hsz as (_ & Hlen & _).
    destruct (lookup_lt_is_Some_2 (k_locks k) l) as [lk Hlk0]; [lia|].
    rewrite Hlk0, (Hlk l lk Hlk0). cbn. by case_decide.
Qed.

Lemma explains_vals z k evs k' :
  (forall r, sem_ok z r -> sem_legal r (sem_val k r) evs /\ sem_val k' r = sem_after r (sem_val k r) evs) ->
  (forall l, (l < z_locks z)%nat -> owner_of k' l = owner_of k l) ->
  k_slists k' = k_slists k ->
  Forall (fun e => match e with EvP _ _ | EvV _ => True | _ => False end) evs ->
  explains z k evs k'.
Proof.
  intros Hs Ho Hq Hev. split; [done|]. split.
  - intros l Hl. rewrite (Ho l Hl). clear Hs Ho.
    induction Hev as [|e evs He _ IH]; [done|]. destruct IH as [IH1 IH2]. by destruct e.
  - intros q. unfold items. rewrite Hq. clear Hs. rewrite <-(app_nil_l (match _ with Some _ => _ | None => _ end)) at 2.
    rewrite <-(app_nil_r (match _ with Some _ => _ | None => _ end)) at 1.
    assert (He : appended q evs = [] /\ removed q evs = []).
    { induction Hev as [|e evs He _ [IH1 IH2]]; [done|]. by destruct e. }
    destruct He as [-> ->]. by rewrite !app_nil_r.
Qed.

(** The loop of [P], at its test: the value is taken, or the thread queues and sleeps. *)
Lemma P_loop_ok z k r old stk :
  mid z k stk -> code_ok z (FPLoop r old :: stk) -> lvl_ok old stk -> level k = IntOff ->
  locks_ok z None k -> k_tbd k <> Some (k_current k) ->
  wp (fuel_err (k_hw k)) (Semaphore_P_loop r old k) (post z k).
Proof.
  intros Hm Hco Hlv Hl Hlk Ht. destruct (code_ok_inv _ _ _ Hco) as [Hr Hcase].
  pose proof (m_core _ _ _ Hm) as Hc.
  destruct (set_sem_ok z k r (c_size _ _ Hc) Hr) as (sm & rest & HG & Hw & Hval & Hset).
  unfold Semaphore_P_loop. rewrite HG. cbn [mbind result_bind]. destruct (Z.eqb_spec (sem_value sm) 0) as [H0|Hne].
  - destruct (Hset (mkSem (sem_value sm) (sl_Append (k_current k) (sem_queue sm)))) as
      (k1 & -> & Hw1 & Hhw & Hth & Hcur & Hrd & Htbd & Hsz1 & Hsl1 & Hv1 & Ho1). cbn [mbind result_bind].
    destruct (queue_sleep_ok z k k1 stk (FPLoop r old)) as (k2 & HS & Has & Hs2 & Hlo2 & Hsl2); try done.
    { rewrite Hw1, Hw. cbn. unfold sl_Append. rewrite fmap_app, <-(assoc_L (++)). symmetry. apply Permutation_middle. }
    destruct (push [FPLoop r old] k1) as [k1'|]; [|done]. cbn [mbind result_bind] in *. rewrite HS.
    cbn [mbind result_bind wp].
    assert (Hv2 : forall r', sem_val k2 r' = sem_val k r').
    { intros r'. unfold sem_val at 1, get_sem. rewrite Hs2, Hlo2. change (sem_val k1 r' = sem_val k r').
      rewrite Hv1. case_decide; [subst; by rewrite Hval|done]. }
    assert (Ho2 : forall l, (l < z_locks z)%nat -> owner_of k2 l = owner_of k l).
    { intros l Hlt. unfold owner_of at 1. rewrite Hlo2. by apply Ho1. }
    split; [|cbn [fst snd]; apply explains_vals; try congruence; try done; intros r' _; by rewrite Hv2].
    right. exists (FPLoop r old :: stk). split; [done|]. cbn [fst]. intros l Hlt. rewrite Hv2, (Ho2 l Hlt). by apply Hlk.
  - destruct (Hset (mkSem (i32 (sem_value sm - 1)) (sem_queue sm))) as
      (k1 & -> & Hw1 & Hhw & Hth & Hcur & Hrd & Htbd & Hsz1 & Hsl1 & Hv1 & Ho1). cbn [mbind result_bind].
    cbn [sem_value sem_queue] in Hw1, Hv1.
    assert (Hm1 : mid z k1 stk).
    { destruct Hm as [_ Hs Hrn Hn Hh]. constructor; rewrite ?Hcur, ?Hhw; unfold stack_of, status_of in *; rewrite ?Hth; try done.
      - apply (core_same_queues z k); rewrite ?Hrd; try done. by rewrite Hw1, Hw.
      - unfold queued in *. by rewrite Hrd, Hw1, <-Hw. }
    assert (Hex : explains z k [EvP r (k_current k)] k1).
    { apply explains_vals; [|done|done|by repeat constructor]. intros r' _. cbn. rewrite Hv1. split.
      - split; [|done]. intros <-. by rewrite Hval.
      - destruct (decide (r' = r)) as [->|]; [by rewrite decide_True, Hval|by rewrite decide_False]. }
    assert (Hl1 : level k1 = IntOff) by (unfold level; by rewrite Hhw).
    destruct Hcase as [[? _]|[[Hsi Hcs]|(l & p & rest' & [= -> ->] & -> & Hcr)]]; [done| |].
    + destruct r as [s|l]; [|done].
      apply (SetLevel_post z k [EvP (SUser s) (k_current k)] [EvP (SUser s) (k_current k)] old k1 stk); try done.
      * constructor; try done; [|by rewrite Hcur, Htbd].
        intros l Hlt. rewrite Hv1, (Ho1 l Hlt). by apply Hlk.
      * by rewrite Hhw.
    + rewrite SetLevel_off by done. cbn [mbind result_bind wp]. split; [|done]. left.
      exists (FAcquire l p :: rest'). split; [done|]. split; [right; by eauto 10|].
      cbn [fst]. rewrite Hl1. split; [done|]. split; [|by rewrite Hcur, Htbd].
      intros l' Hlt. specialize (Hlk l' Hlt). rewrite Hv1, (Ho1 l' Hlt). cbn [window].
      destruct (decide (SLock l' = SLock l)) as [[= ->]|Hd].
      * right. left. destruct Hlk as [(Hv & -> & _)|[(_ & _ & ?)|(Hv & _)]]; [|done|congruence].
        rewrite Hval in Hv. rewrite Hv. done.
      * assert (Hw' : ~ Some l = Some l') by congruence. unfold lock_state in *. naive_solver.
Qed.

(** [Acquire], when [lock->P()] has returned. *)
Lemma Acquire_done_ok z k l prev stk :
  mid z k stk -> code_ok z stk -> lvl_ok prev stk -> level k = IntOff -> (l < z_locks z)%nat ->
  locks_ok z (Some l) k -> k_tbd k <> Some (k_current k) ->
  wp (fuel_err (k_hw k)) (Lock_Acquire_done l prev k) (post z k).
Proof.
  intros Hm Hco Hlv Hl Hlt Hlk Ht. pose proof (m_core _ _ _ Hm) as Hc. unfold Lock_Acquire_done.
  destruct (set_owner_ok z k l (Some (k_current k)) Hc Hlt) as (k1 & -> & Hc1 & Hcalm & Hhw & Hs & Ho).
  cbn [mbind result_bind].
  assert (Hst : sem_val k (SLock l) = 0 /\ owner_of k l = None).
  { destruct (Hlk l Hlt) as [(_ & _ & ?)|[(? & ? & _)|(_ & _ & ?)]]; done. }
  destruct Hst as [Hv0 Ho0].
  apply (SetLevel_post z k [EvAcquire l (k_current k)] [EvAcquire l (k_current k)] prev k1 stk); try done.
  - constructor; try done.
    + apply (mid_calm z k); try done. rewrite Hhw. apply Hm.
    + intros l' Hlt'. rewrite Hs, Ho. specialize (Hlk l' Hlt'). case_decide as Hd.
      * subst l'. rewrite Hv0. right. right. split; [done|]. split; [by eexists|done].
      * assert (~ Some l = Some l') by congruence. unfold lock_state in *. naive_solver.
    + destruct Hcalm as (-> & -> & _). done.
  - unfold level. by rewrite Hhw.
  - split; [intros r _; by rewrite Hs|]. split.
    + intros l' Hlt'. rewrite Ho. cbn. split; [split; [by intros <-|done]|].
      destruct (decide (l' = l)) as [->|]; [by rewrite decide_True|by rewrite decide_False].
    + intros q. destruct Hcalm as (_ & _ & _ & _ & _ & Hsl). unfold items. cbn. by rewrite Hsl, app_nil_r.
  - by rewrite Hhw.
Qed.

Lemma list_lookup_map {A B} (f : A -> B) (l : list A) i : map f l !! i = f <$> l !! i.
Proof. apply list_lookup_fmap. Qed.

Lemma map_insert {A B} (f : A -> B) (l : list A) i x : map f (<[i := x]> l) = <[i := f x]> (map f l).
Proof. apply list_fmap_insert. Qed.

(** *** Synchronised lists *)

Lemma slist_lookup z k q : core z k -> (q < length (z_lists z))%nat ->
  exists sq, k_slists k !! q = Some sq /\ (sq_lock sq < z_locks z)%nat /\ (sq_listEmpty sq < z_conds z)%nat
    /\ forall xs, sized z (k_set_slists (<[q := mkSynchList xs (sq_lock sq) (sq_listEmpty sq)]> (k_slists k)) k).
Proof.
  intros Hc Hq. destruct (c_size _ _ Hc) as (? & ? & ? & Hm & Hall).
  destruct (lookup_lt_is_Some_2 (z_lists z) q Hq) as [p Hp]. pose proof Hp as Hp'. rewrite <-Hm in Hp'.
  rewrite list_lookup_map in Hp'. destruct (k_slists k !! q) as [sq|] eqn:Hsq; [|done].
  injection Hp' as Hp'. exists sq. split; [done|].
  destruct (Forall_lookup_1 _ _ _ _ Hall Hp) as [Hp1 Hp2]. rewrite <-Hp' in Hp1, Hp2. cbn in Hp1, Hp2.
  split; [done|]. split; [done|]. intros xs. unfold sized. cbn. repeat (split; [done|]). split; [|done].
  rewrite map_insert, Hm. cbn. apply list_insert_id. by rewrite Hp, <-Hp'.
Qed.

(** A list changes: nothing else notices. *)
Lemma slists_ok z k lvl stk sls :
  at_code z k lvl stk -> sized z (k_set_slists sls k) -> at_code z (k_set_slists sls k) lvl stk.
Proof. intros Ha Hsz. apply (at_code_same_queues z k); try done. apply Ha. Qed.

(** One item goes into a list, or comes out of it. *)
Lemma list_event z k e k' :
  match e with EvAppended _ _ | EvRemoved _ _ => True | _ => False end ->
  k_sems k' = k_sems k -> k_locks k' = k_locks k ->
  (forall q, items k q ++ appended q [e] = removed q [e] ++ items k' q) -> explains z k [e] k'.
Proof.
  intros He Hs Hl Hq. split; [intros r _|split; [intros l _|done]].
  - unfold sem_val, get_sem. rewrite Hs, Hl. by destruct e.
  - unfold owner_of. rewrite Hl. by destruct e.
Qed.

Lemma items_insert k q q' sq sq' :
  k_slists k !! q = Some sq ->
  items (k_set_slists (<[q := sq']> (k_slists k)) k) q' = if decide (q = q') then (sq_list sq').*2 else items k q'.
Proof.
  intros Hq. unfold items. cbn. case_decide.
  - subst. by rewrite list_lookup_insert_eq by by apply (lookup_lt_Some _ _ sq).
  - by rewrite list_lookup_insert_ne.
Qed.

Lemma post_event z k0 k e r : explains z k0 [e] k -> post z k r -> post z k0 (r.1, e :: r.2).
Proof. intros Hex [Hk Hr]. split; [done|]. by apply (explains_trans z k0 [e] k r.2). Qed.

Lemma post_quiet z k0 k r : explains z k0 [] k -> post z k r -> post z k0 r.
Proof. intros Hex [Hk Hr]. split; [done|]. by apply (explains_trans z k0 [] k). Qed.

Section Lists.
Context (z : sizes) (k : Kernel) (stk : list frame) (q : nat).
Context (Ha : at_code z k IntOn stk) (Hl : level k = IntOn) (Hq : (q < length (z_lists z))%nat).

Lemma acquire_for_list f :
  simple f = true -> entry f = IntOn -> leave f = IntOn -> frame_ok z f ->
  exists k1, push [f] k = Ok k1 /\ forall l, (l < z_locks z)%nat -> exists k', Lock_Acquire l k1 = Ok k'
    /\ kinv z k' /\ explains z k [] k'.
Proof.
  intros Hs He Hlv Hf. destruct (at_code_push z k IntOn stk f) as (k1 & -> & Ha1 & Henv); try done; [by rewrite Hlv|].
  exists k1. split; [done|]. intros l Hlt.
  pose proof Henv as (Hhw & _ & _ & Hs1 & Hl1 & _ & Hsl1 & _).
  destruct (Lock_Acquire_ok z k1 IntOn (f :: stk) l Ha1) as (k' & -> & Hk & Hex);
    [unfold level; by rewrite Hhw|done|].
  exists k'. split; [done|]. split; [done|]. by apply (explains_trans z k [] k1 []), Hex; apply explains_refl.
Qed.

Lemma SynchList_Append_ok item :
  exists k', SynchList_Append q item k = Ok k' /\ kinv z k' /\ explains z k [] k'.
Proof.
  destruct (slist_lookup z k q) as (sq & Hsq & Hlk & _); [apply Ha|done|]. unfold SynchList_Append. rewrite Hsq.
  destruct (acquire_for_list (FListAppend q item)) as (k1 & HP & HA); try done.
  cbn [deref mbind result_bind]. rewrite HP. by apply HA.
Qed.

Lemma SynchList_Remove_ok :
  exists k', SynchList_Remove q k = Ok k' /\ kinv z k' /\ explains z k [] k'.
Proof.
  destruct (slist_lookup z k q) as (sq & Hsq & Hlk & _); [apply Ha|done|]. unfold SynchList_Remove. rewrite Hsq.
  destruct (acquire_for_list (FListRemove q)) as (k1 & HP & HA); try done.
  cbn [deref mbind result_bind]. rewrite HP. by apply HA.
Qed.

(** The lock of the list is not held, or the item to be returned is the null pointer. *)
Definition list_misuse (null : bool) : Prop :=
  exists sq, k_slists k !! q = Some sq
    /\ (owner_of k (sq_lock sq) <> Some (k_current k)
        \/ (null = true /\ exists key rest, sq_list sq = (key, 0) :: rest)).

Lemma SynchList_Append_done_ok item (E : error -> Prop) :
  (forall e, fuel_err (k_hw k) e -> E e) -> (list_misuse false -> E AssertFailed) ->
  wp E (SynchList_Append_done q item k) (post z k).
Proof.
  intros HE HA. destruct (slist_lookup z k q) as (sq & Hsq & Hlk & Hcd & Hsz); [apply Ha|done|].
  unfold SynchList_Append_done. rewrite Hsq. cbn [deref mbind result_bind].
  set (k1 := k_set_slists _ k). assert (Ha1 : at_code z k1 IntOn stk) by by apply slists_ok.
  destruct (at_code_push z k1 IntOn stk (FOp (OpRelease (sq_lock sq)))) as (k2 & -> & Ha2 & Henv); try done.
  cbn [mbind result_bind]. destruct Henv as (Hhw & Hcur & _ & Hs2 & Hl2 & _ & Hsl2 & _).
  assert (Hex1 : explains z k [EvAppended q item] k1).
  { apply list_event; try done. intros q'. unfold k1. rewrite (items_insert k q q' sq _ Hsq). cbn. case_decide.
    - subst. unfold items, sl_Append. by rewrite Hsq, fmap_app.
    - by rewrite app_nil_r. }
  apply wp_bind. eapply wp_mono; [apply (Condition_Signal_ok z k2 _ _ _ E Ha2)|done|]; try done.
  - unfold level. by rewrite Hhw.
  - rewrite Hhw. done.
  - intros Hn. apply HA. exists sq. split; [done|]. left. unfold owner_of in Hn. by rewrite Hl2, Hcur in Hn.
  - intros [k3 evs] Hp. cbn. apply (post_event z k k1 (EvAppended q item) (k3, evs)); [done|].
    by apply (post_quiet z k1 k2); [apply explains_refl|].
Qed.

Lemma SynchList_Remove_loop_ok (E : error -> Prop) :
  (forall e, fuel_err (k_hw k) e -> E e) -> (list_misuse true -> E AssertFailed) ->
  wp E (SynchList_Remove_loop q k) (post z k).
Proof.
  intros HE HA. destruct (slist_lookup z k q) as (sq & Hsq & Hlk & Hcd & Hsz); [apply Ha|done|].
  unfold SynchList_Remove_loop. rewrite Hsq. cbn [deref mbind result_bind].
  destruct (sq_list sq) as [|[key item] rest] eqn:Hxs; cbn [sl_SortedRemove].
  - destruct (at_code_push z k IntOn stk (FListRemove q)) as (k2 & -> & Ha2 & Henv); try done.
    cbn [mbind result_bind]. destruct Henv as (Hhw & Hcur & _ & Hs2 & Hl2 & _ & Hsl2 & _).
    eapply wp_mono; [apply (Condition_Wait_ok z k2 _ (sq_listEmpty sq) (sq_lock sq) E Ha2)|done|]; try done.
    + unfold level. by rewrite Hhw.
    + intros Hn. apply HA. exists sq. split; [done|]. left. unfold owner_of in Hn. by rewrite Hl2, Hcur in Hn.
    + intros r. apply post_quiet. by apply explains_refl.
  - set (k1 := k_set_slists _ k). assert (Ha1 : at_code z k1 IntOn stk) by by apply slists_ok.
    destruct (Z.eqb_spec item 0) as [->|Hne]; cbn [negb].
    { apply HA. exists sq. split; [done|]. right. rewrite Hxs. eauto. }
    rewrite ASSERT_true by done. cbn [mbind result_bind].
    apply wp_bind. eapply wp_mono; [apply (Lock_Release_ok z k1 stk (sq_lock sq) E Ha1)|done|]; try done.
    + intros Hn. apply HA. exists sq. split; [done|]. by left.
    + intros [k3 evs] Hp. cbn. apply (post_event z k k1 (EvRemoved q item) (k3, evs)); [|done].
      apply list_event; try done. intros q'. unfold k1. rewrite (items_insert k q q' sq _ Hsq). cbn.
      rewrite app_nil_r. case_decide; [|done]. subst. unfold items. by rewrite Hsq, Hxs.
Qed.
End Lists.

(** ** The step function *)

(** The ways in which a thread can break the rules of the interface. *)
Definition misuse (f : frame) (k : Kernel) : Prop :=
  match f with
  | FOp (OpRelease l) | FOp (OpWait _ l) | FOp (OpSignal _ l) | FOp (OpBroadcast _ l) =>
      owner_of k l <> Some (k_current k)
  | FOp (OpFork _ _ _) => find_id 0 (k_threadIds k) = None
  | FOp (OpRequest _ ticks) => ticks <= 0
  | FListAppend q _ => list_misuse k q false
  | FListRemove q => list_misuse k q true
  | _ => False
  end.

Definition step_err (f : frame) (k : Kernel) (e : error) : Prop :=
  fuel_err (k_hw k) e \/ (e = AssertFailed /\ misuse f k).

Lemma quiet_post {z k} (r : result Kernel) (E : error -> Prop) :
  (exists k', r = Ok k' /\ kinv z k' /\ explains z k [] k') ->
  wp E (k ← r; Ok (k, ([] : list event))) (post z k).
Proof. intros (k' & -> & Hk & Hex). by split. Qed.

Lemma Request_ok z k stk s ticks :
  at_code z k IntOn stk -> level k = IntOn -> (s < z_sems z)%nat ->
  wp (step_err (FOp (OpRequest s ticks)) k) (exec_op (OpRequest s ticks) k) (post z k).
Proof.
  intros Ha Hl Hs. cbn [exec_op]. destruct (c_pend z k) as [Hp Hh]; [apply Ha|].
  destruct (decide (0 < ticks)) as [Ht|Ht].
  - destruct (Schedule_ok (HDevice s) ticks DiskInt (k_hw k) Hp Ht) as (hw & HS & Hp' & Hst & Hperm).
    rewrite HS. cbn [mbind result_bind wp].
    assert (Hsame : hw_level hw = hw_level (k_hw k) /\ hw_inHandler hw = hw_inHandler (k_hw k)).
    { unfold Interrupt_Schedule in HS. destruct (ASSERT _); [|done]. cbn in HS. by injection HS as <-. }
    destruct Hsame as [Hlv Hi]. split; [|by apply explains_refl]. apply (at_code_kinv z _ stk).
    unfold level in *. cbn [fst k_hw k_set_hw]. rewrite Hlv, Hl.
    destruct Ha as [Hm Hco Hlo Hlk Htb]. constructor; try done.
    apply (mid_calm z k); [done| |apply calm_hw|].
    + apply core_hw; [apply Hm|done|]. rewrite Hperm. by constructor.
    + cbn. rewrite Hi. apply Hm.
  - unfold Interrupt_Schedule. destruct (Z.ltb_spec 0 ticks); [lia|]. right. split; [done|]. cbn. lia.
Qed.

Lemma exec_op_ok z k stk o :
  at_code z k IntOn stk -> level k = IntOn -> op_ok z o ->
  wp (step_err (FOp o) k) (exec_op o k) (post z k).
Proof.
  intros Ha Hl Ho. assert (HF : forall e, fuel_err (k_hw k) e -> step_err (FOp o) k e) by (by left).
  assert (HP : forall P : Prop, (P -> misuse (FOp o) k) -> P -> step_err (FOp o) k AssertFailed).
  { intros P HPm p. right. split; [done|auto]. }
  destruct o as [s|s|l|l|c l|c l|c l|q item|q| | |garbage pri body|s ticks|]; cbn [exec_op].
  - apply quiet_post. apply (P_ok z k IntOn stk); try done. apply code_ok_cons; [done|done|apply Ha].
  - eapply wp_mono; [by apply (Semaphore_V_ok z k stk)|done|done].
  - apply quiet_post. by apply (Lock_Acquire_ok z k IntOn stk).
  - apply (Lock_Release_ok z k stk); try done. apply HP. done.
  - destruct Ho. apply (Condition_Wait_ok z k stk); try done. apply HP. done.
  - destruct Ho. apply (Condition_Signal_ok z k stk); try done. apply HP. done.
  - destruct Ho. apply (Condition_Broadcast_ok z k stk); try done. apply HP. done.
  - apply quiet_post. by apply (SynchList_Append_ok z k stk).
  - apply quiet_post. by apply (SynchList_Remove_ok z k stk).
  - apply quiet_post. by apply (Yield_ok z k stk).
  - case_match; [apply quiet_post; by apply (Yield_ok z k stk)|].
    split; [apply (at_code_kinv z k stk); by rewrite Hl|by apply explains_refl].
  - apply (Thread_Fork_ok z k stk); try done; [by apply op_ok_body|]. apply HP. done.
  - by apply (Request_ok z k stk).
  - eapply wp_mono; [by apply (OneTick_ok z k stk)|done|]. by intros [].
Qed.

Definition step_post (z : sizes) (k0 : Kernel) (r : outcome * list event) : Prop :=
  match r.1 with
  | Running k => post z k0 (k, r.2)
  | Halted k => post z k0 (k, r.2) /\ (exists rest, asleep z k rest) /\ k_ready k = []
      /\ Forall (fun x => pi_type x.2 = TimerInt) (hw_pending (k_hw k))
  end.

Lemma run_post {z k E} (r : result (Kernel * list event)) :
  wp E r (post z k) -> wp E ('(k', evs) ← r; Ok (Running k', evs)) (step_post z k).
Proof. by destruct r as [[k' evs]|]. Qed.

Lemma quiet_step {z k E} (r : result Kernel) :
  (exists k', r = Ok k' /\ kinv z k' /\ explains z k [] k') ->
  wp E (k' ← r; Ok (Running k', [])) (step_post z k).
Proof. intros (k' & -> & Hk & Hex). by split. Qed.

(** The current thread takes off its topmost frame. *)
Lemma pop_ok z k f rest :
  mid z k (f :: rest) ->
  exists k', set_stack (k_current k) rest k = Ok k' /\ mid z k' rest /\ same_env k k'.
Proof.
  intros [Hc Hs Hr Hn Hh].
  destruct (set_stack_ok (k_current k) rest k) as (k' & HP & Henv & Hrd & Hst & Hstat); [by eexists|].
  exists k'. split; [done|]. split; [|done].
  destruct (core_stack z k k' _ rest Hc Hs Henv Hrd Hst Hstat) as [Hc' Hq]; [done|].
  destruct Henv as (Hhw & Hcur & _). constructor; rewrite ?Hcur, ?Hhw, ?Hq; try done.
  - by rewrite Hst, decide_True.
  - by rewrite Hstat.
Qed.

Lemma misuse_env f k k' : same_env k k' -> misuse f k' -> misuse f k.
Proof.
  intros (_ & Hcur & _ & _ & Hlo & _ & Hsl & _ & Hids). unfold misuse, owner_of, list_misuse, owner_of.
  rewrite Hcur, Hlo, Hsl, Hids. done.
Qed.

(** Frames of user code and of the kernel, each resumed at its level. *)
Lemma exec_simple z k f rest :
  simple f = true -> frame_ok z f -> at_code z k (leave f) rest -> level k = entry f ->
  wp (step_err f k) (exec_frame f k) (step_post z k).
Proof.
  intros Hsi Hf Ha Hl. assert (HF : forall e, fuel_err (k_hw k) e -> step_err f k e) by (by left).
  assert (Hset : forall now, leave f = now -> level k = IntOff ->
            wp (step_err f k) (Interrupt_SetLevel now k) (post z k)).
  { intros now <- Hoff. eapply wp_mono; [by apply (SetLevel_ok z (leave f) k rest)|done|]. by intros []. }
  destruct f as [o| | |[s|l] old|l p|c l p|p|q item|q|old| | |old]; try done; cbn [exec_frame].
  - apply run_post. by apply (exec_op_ok z k rest).
  - apply run_post. by apply Hset.
  - apply run_post. eapply wp_mono; [apply (P_loop_ok z k (SUser s) old rest); try done|done|done].
    all: try apply Ha. by apply code_ok_cons; [..|apply Ha].
  - apply quiet_step. unfold Condition_Wait_done.
    destruct (at_code_push z k IntOff rest (FWaitEnd p)) as (k1 & -> & Ha1 & Henv); try done.
    cbn [mbind result_bind]. destruct Henv as (Hhw & _ & _ & Hs1 & Hl1 & _ & Hsl1 & _).
    destruct (Lock_Acquire_ok z k1 IntOff (FWaitEnd p :: rest) l) as (k2 & -> & Hk & Hex); try done;
      [unfold level; by rewrite Hhw|apply Hf|].
    exists k2. split; [done|]. split; [done|]. by apply (explains_trans z k [] k1 []), Hex; apply explains_refl.
  - apply run_post. by apply Hset.
  - apply run_post. apply (SynchList_Append_done_ok z k rest); try done. by right.
  - apply run_post. apply (SynchList_Remove_loop_ok z k rest); try done. by right.
  - apply run_post. by apply Hset.
  - cbn [wp]. split; [|by apply explains_refl]. apply (at_code_kinv z _ rest). cbn [fst].
    change (level (k_set_hw (hw_set_status old (k_hw k)) k)) with (level k). rewrite Hl.
    apply at_code_hw; try done. apply Ha.
Qed.

Definition top (k : Kernel) : option frame := stack_of k (k_current k) ≫= head.

Definition kstep_err (k : Kernel) (e : error) : Prop := exists f, top k = Some f /\ step_err f k e.

Lemma step_post_env z k k1 r : same_env k k1 -> step_post z k1 r -> step_post z k r.
Proof.
  intros (_ & _ & _ & Hs & Hl & _ & Hsl & _) Hp. assert (Hex : explains z k [] k1) by by apply explains_refl.
  unfold step_post in *. destruct (r.1); [by apply (post_quiet z k k1)|].
  destruct Hp as [Hp ?]. split; [by apply (post_quiet z k k1)|done].
Qed.

Lemma step_err_env f k k1 e : same_env k k1 -> step_err f k1 e -> step_err f k e.
Proof.
  intros Henv [He|[-> Hm]]; [left; destruct Henv as (<- & _); done|]. right. split; [done|].
  by apply (misuse_env f k k1).
Qed.

Lemma kstep_eq k f rest k1 :
  stack_of k (k_current k) = Some (f :: rest) -> set_stack (k_current k) rest k = Ok k1 ->
  kstep k = exec_frame f k1.
Proof.
  intros Hs HP. destruct (stack_thread _ _ _ Hs) as (th & Hth & Hst). unfold kstep, thread.
  rewrite Hth. cbn [deref mbind result_bind]. rewrite Hst, HP. done.
Qed.

(** A step from a frame on code. *)
Lemma kstep_frame z k f rest k1 :
  stack_of k (k_current k) = Some (f :: rest) -> set_stack (k_current k) rest k = Ok k1 -> same_env k k1 ->
  wp (step_err f k1) (exec_frame f k1) (step_post z k1) -> wp (kstep_err k) (kstep k) (step_post z k).
Proof.
  intros Hs HP Henv Hwp. rewrite (kstep_eq k f rest k1) by done. eapply wp_mono; [done|..].
  - intros e He. exists f. unfold top. rewrite Hs. split; [done|]. by apply (step_err_env f k k1).
  - intros r. by apply step_post_env.
Qed.

Lemma kstep_awake z k stk :
  mid z k stk -> awake_stack z stk -> lvl_ok (level k) stk -> locks_ok z (window stk) k ->
  k_tbd k <> Some (k_current k) -> wp (kstep_err k) (kstep k) (step_post z k).
Proof.
  intros Hm Hst Hlv Hlk Ht.
  assert (exists f rest, stk = f :: rest) as (f & rest & ->).
  { destruct Hst as [[_ Hsh]|(f & rest & -> & _)]; [|by eauto]. destruct stk; [done|eauto]. }
  destruct (pop_ok z k f rest Hm) as (k1 & HP & Hm1 & Henv).
  pose proof Henv as (Hhw & Hcur & Htbd & Hs1 & Hl1 & _).
  destruct Hlv as [Hent Hlv]. assert (Hlev : level k1 = entry f) by (unfold level in *; by rewrite Hhw).
  assert (Ht1 : k_tbd k1 <> Some (k_current k1)) by by rewrite Hcur, Htbd.
  assert (Hlk1 : locks_ok z (window (f :: rest)) k1) by by apply (locks_ok_same z _ k).
  apply (kstep_frame z k f rest k1 (m_stk _ _ _ Hm) HP Henv).
  destruct Hst as [Hco|(f' & rest' & [= <- <-] & Hf & Hfo & Hco)].
  - destruct (code_ok_inv _ _ _ Hco) as [Hf [[-> ->]|[[Hsi Hcr]|(l & p & rest' & -> & -> & Hcr)]]].
    + cbn [exec_frame]. apply quiet_step. by apply Thread_Finish_ok.
    + apply (exec_simple z k1 f rest); try done. rewrite (window_code z) in Hlk1 by done. by constructor.
    + cbn [exec_frame]. apply run_post. eapply wp_mono; [by apply (P_loop_ok z k1 _ _ (FAcquire l p :: rest'))|by left|done].
  - destruct Hf as [->|(l & p & ->)]; cbn [exec_frame].
    + apply quiet_step. apply (Run_done_ok z k1 rest). rewrite Hlev. by constructor.
    + apply run_post. eapply wp_mono; [by apply (Acquire_done_ok z k1 l p rest)|by left|done].
Qed.

Lemma kstep_asleep z k rest :
  asleep z k rest -> locks_ok z None k -> wp (kstep_err k) (kstep k) (step_post z k).
Proof.
  intros Ha Hlk. destruct (asleep_pop z k rest Ha) as (k1 & HP & Hd & Henv).
  apply (kstep_frame z k FSleep rest k1); [apply Ha|done|done|]. cbn [exec_frame].
  eapply wp_mono; [apply (Sleep_loop_ok z k1 rest Hd); apply (locks_ok_same z None k); [done|apply Henv]|by left|].
  intros [[k2|k2] evs]; unfold step_post; cbn; [by intros [? ?]|].
  intros (Has & Hlk2 & Hex & Hr & Hp). split; [|by eauto]. split; [|done]. right. by exists rest.
Qed.

Lemma kstep_safe z k : kinv z k -> wp (kstep_err k) (kstep k) (step_post z k).
Proof.
  intros [(stk & Hm & Hst & Hlv & Hlk & Ht)|(rest & Ha & Hlk)].
  - by apply (kstep_awake z k stk).
  - by apply (kstep_asleep z k rest).
Qed.

Lemma krun_safe z fuel : forall k, kinv z k ->
  match krun fuel k with
  | Ok (Running k', evs) => post z k (k', evs)
  | Ok (Halted k', evs) => step_post z k (Halted k', evs)
  | Err e => exists n k1 evs1, krun n k = Ok (Running k1, evs1) /\ kinv z k1 /\ kstep k1 = Err e /\ kstep_err k1 e
  end.
Proof.
  induction fuel as [|fuel IH]; intros k Hk; cbn [krun].
  { split; [done|]. by apply explains_refl. }
  pose proof (kstep_safe z k Hk) as Hs. destruct (kstep k) as [[o evs]|e] eqn:HK; cbn [mbind result_bind].
  2: { exists O, k, []. done. }
  destruct o as [k1|k1]; [|done]. destruct Hs as [Hk1 Hex1]. cbn in Hk1, Hex1. specialize (IH k1 Hk1).
  destruct (krun fuel k1) as [[[k2|k2] evs2]|e] eqn:HR; cbn [mbind result_bind].
  - destruct IH as [Hk2 Hex2]. split; [done|]. by apply (explains_trans z k evs k1).
  - destruct IH as [[Hk2 Hex2] Hh]. split; [|done]. split; [done|]. by apply (explains_trans z k evs k1).
  - destruct IH as (n & k2 & evs2 & HR2 & Hk2 & He). exists (S n), k2, (evs ++ evs2). split; [|done].
    cbn [krun]. rewrite HK. cbn [mbind result_bind]. by rewrite HR2.
Qed.
