(* ===== verification/KernelSafe.v ===== *)
(** * What the thread kernel guarantees to its threads

    Theorems about whole runs of the machine, from [Initialize] on, for any program of the
    threads, any interrupts and any random time slices: the kernel's own assertions hold,
    no thread is lost, locks exclude each other, semaphores count, synchronised lists
    deliver in order, and the machine halts only when nothing can happen any more. *)

From S2P Require Import Prelude SList Interrupt Kernel KernelInv KernelOps.

(** ** Traces *)

Definition count_P (r : sem_ref) (evs : list event) : Z :=
  foldr (fun e n => (match e with EvP r' _ => if decide (r' = r) then 1 else 0 | _ => 0 end) + n) 0 evs.
Definition count_V (r : sem_ref) (evs : list event) : Z :=
  foldr (fun e n => (match e with EvV r' => if decide (r' = r) then 1 else 0 | _ => 0 end) + n) 0 evs.

Lemma count_nonneg r evs : 0 <= count_P r evs /\ 0 <= count_V r evs.
Proof.
  induction evs as [|e evs IH]; [done|]. cbn [count_P count_V foldr]. fold (count_P r evs) (count_V r evs).
  destruct e; try case_decide; lia.
Qed.

(** A legal trace of a semaphore never takes more than there is. *)
Lemma sem_legal_counts r evs : forall v,
  0 <= v -> v + count_V r evs < 2 ^ 31 -> sem_legal r v evs ->
  sem_after r v evs = v + count_V r evs - count_P r evs /\ 0 <= sem_after r v evs.
Proof.
  induction evs as [|e evs IH]; intros v Hv Hb Hl; [cbn; lia|].
  pose proof (count_nonneg r evs). cbn [count_P count_V foldr] in *. fold (count_P r evs) (count_V r evs) in *.
  destruct Hl as [He Hl]. change (sem_after r v (e :: evs)) with (sem_after r (sem_event r v e) evs).
  assert (Hstep : 0 <= sem_event r v e /\ sem_event r v e + count_V r evs < 2 ^ 31
     /\ sem_event r v e = v + (match e with EvV r' => if decide (r' = r) then 1 else 0 | _ => 0 end)
                            - (match e with EvP r' _ => if decide (r' = r) then 1 else 0 | _ => 0 end)).
  { destruct e as [r' t|r'| | | |]; cbn in *; try lia; case_decide; try lia.
    - specialize (He ltac:(done)). rewrite i32_id by (unfold in_i32; lia). lia.
    - rewrite i32_id by (unfold in_i32; lia). lia. }
  destruct Hstep as (Hs1 & Hs2 & Hs3). destruct (IH _ Hs1 Hs2 Hl) as [-> ?]. rewrite Hs3. lia.
Qed.

Lemma sem_legal_prefix r v e1 e2 : sem_legal r v (e1 ++ e2) -> sem_legal r v e1.
Proof. revert v. induction e1 as [|e e1 IH]; intros v; [done|]. intros [? ?]. split; [done|]. eauto. Qed.

Lemma count_V_app r e1 e2 : count_V r (e1 ++ e2) = count_V r e1 + count_V r e2.
Proof.
  induction e1 as [|e e1 IH]; [done|]. cbn [app count_V foldr]. fold (count_V r (e1 ++ e2)) (count_V r e1). lia.
Qed.

Lemma lock_legal_suffix l o e1 e2 : lock_legal l o (e1 ++ e2) -> lock_legal l (lock_after l o e1) e2.
Proof. revert o. induction e1 as [|e e1 IH]; intros o; [done|]. intros [_ ?]. by apply IH. Qed.

(** Between two acquisitions lies the release by the first owner. *)
Lemma lock_legal_release l t t' e2 e3 :
  lock_legal l (Some t) (e2 ++ EvAcquire l t' :: e3) -> EvRelease l t ∈ e2.
Proof.
  induction e2 as [|e e2 IH]; cbn [app lock_legal].
  { intros [He _]. specialize (He eq_refl). done. }
  intros [He Hl]. destruct e as [| |l' t2|l' t2| |]; cbn in Hl; try (right; by apply IH).
  - case_decide; [by specialize (He ltac:(done))|]. right. by apply IH.
  - case_decide; [subst l'; specialize (He eq_refl); injection He as ->; left|]. right. by apply IH.
Qed.

(** ** The state after [Initialize] *)

Definition boot_sizes (sems : list Z) (nlocks nconds : nat) (slists : list (nat * nat)) : sizes :=
  mkSizes (length sems) nlocks nconds slists.

(** The program of the first thread uses objects that exist. *)
Definition program_ok (sems : list Z) (nlocks nconds : nat) (slists : list (nat * nat)) (main : list op) : Prop :=
  Forall (op_ok (boot_sizes sems nlocks nconds slists)) main
  /\ Forall (fun p => p.1 < nlocks /\ p.2 < nconds)%nat slists.

Lemma bind_nil {A B} (f : A -> list B) (l : list A) : (forall x, x ∈ l -> f x = []) -> l ≫= f = [].
Proof.
  induction l as [|x l IH]; intros Hl; [done|]. rewrite bind_cons, (Hl x) by left.
  apply IH. intros y Hy. apply Hl. by right.
Qed.

Lemma waiters_new sems nlocks nconds k :
  k_sems k = map (fun v => mkSem v []) sems -> k_locks k = replicate nlocks (mkLock (mkSem 1 []) None) ->
  k_conds k = replicate nconds (mkCond []) -> waiters k = [].
Proof.
  intros Hs Hl Hc. unfold waiters. rewrite Hs, Hl, Hc.
  rewrite !bind_nil; [done|..].
  - intros c Hin. apply elem_of_replicate in Hin as [-> _]. done.
  - intros l Hin. apply elem_of_replicate in Hin as [-> _]. done.
  - intros x Hin. apply list_elem_of_In, in_map_iff in Hin as (v & <- & _). done.
Qed.

Section Booted.
Context (prio : bool) (timer : option bool) (randoms : list N) (sems : list Z) (nlocks nconds : nat).
Context (slists : list (nat * nat)) (main : list op).

Abbreviation booted k := (Initialize prio timer randoms sems nlocks nconds slists main = Ok k).
Abbreviation z := (boot_sizes sems nlocks nconds slists).

(** The timer is started. *)
Lemma timer_ok k0 : k_hw k0 = Interrupt_new ->
  exists hw rs, match timer with
      | Some randomize => let '(delay, k) := Timer_TimeOfNextInterrupt randomize k0 in
          hw ← Interrupt_Schedule (HTimer randomize) delay TimerInt (k_hw k); Ok (k_set_hw hw k)
      | None => Ok k0 end = Ok (k_set_hw hw (k_set_randoms rs k0))
    /\ pending_ok hw /\ Forall (fun x => handler_ok z (pi_handler x.2)) (hw_pending hw)
    /\ hw_level hw = IntOff /\ hw_inHandler hw = false /\ clock_room hw.
Proof.
  intros H0. destruct timer as [rnd|].
  - destruct (TimeOfNext_ok rnd k0) as (delay & rs & -> & Hd). set (k1 := k_set_randoms rs k0).
    assert (H1 : k_hw k1 = Interrupt_new) by exact H0. rewrite H1.
    assert (Hp0 : pending_ok (Interrupt_new : Hardware handler)) by (split; constructor).
    destruct (Schedule_ok (HTimer rnd) delay TimerInt _ Hp0) as (hw & HS & Hp & Hst & Hperm); [lia|].
    rewrite HS. cbn [mbind result_bind]. exists hw, rs. split; [done|]. split; [done|].
    assert (Hsame : hw_level hw = IntOff /\ hw_inHandler hw = false).
    { unfold Interrupt_Schedule in HS. destruct (ASSERT _); [|done]. cbn in HS. by injection HS as <-. }
    split; [rewrite Hperm; by repeat constructor|]. split; [apply Hsame|]. split; [apply Hsame|].
    unfold clock_room. rewrite Hperm, Hst. split; [cbn; lia|]. constructor; [|constructor].
    cbn [fst]. change (totalTicks (hw_stats Interrupt_new)) with 0. rewrite i32_id by (unfold in_i32; lia). lia.
  - exists (k_hw k0), (k_randoms k0). rewrite H0. split; [by destruct k0; simpl in H0; subst|].
    split; [split; constructor|]. split; [constructor|]. split; [done|]. split; [done|]. split; [cbn; lia|constructor].
Qed.

(** A kernel with one thread and objects nobody waits for. *)
Record only_thread (k : Kernel) (t : tid) (stk : list frame) : Prop := {
  o_stacks : forall t', stack_of k t' = if decide (t' = t) then Some stk else None;
  o_status : status_of k t = Some RUNNING;
  o_cur : k_current k = t;
  o_tbd : k_tbd k = None;
  o_ready : k_ready k = [];
  o_sems : k_sems k = map (fun v => mkSem v []) sems;
  o_locks : k_locks k = replicate nlocks (mkLock (mkSem 1 []) None);
  o_conds : k_conds k = replicate nconds (mkCond []);
  o_slists : k_slists k = map (fun '(l, c) => mkSynchList [] l c) slists;
  o_pending : pending_ok (k_hw k);
  o_handlers : Forall (fun x => handler_ok z (pi_handler x.2)) (hw_pending (k_hw k));
  o_handler : hw_inHandler (k_hw k) = false
}.

Lemma only_thread_core k t stk :
  Forall (fun p => p.1 < nlocks /\ p.2 < nconds)%nat slists -> only_thread k t stk -> core z k /\ queued k = [].
Proof.
  intros Hsl [Hst Hstat Hcur Htbd Hrd Hs Hlo Hcd Hsq Hp Hh Hi].
  assert (Hw : waiters k = []) by by apply (waiters_new sems nlocks nconds).
  assert (Hq : queued k = []) by (unfold queued; by rewrite Hw, Hrd).
  split; [|done]. constructor; rewrite ?Hw, ?Hq, ?Hrd, ?Hcur, ?Htbd; try done.
  - constructor.
  - intros t' []%elem_of_nil.
  - intros t' []%elem_of_nil.
  - intros t' ? []%elem_of_nil.
  - intros t' stk'. rewrite Hst. case_decide; [by right; left|done].
  - intros t' stk'. rewrite Hst. intros Hs' ?. by rewrite decide_False in Hs'.
  - rewrite Hst, decide_True by done. by eexists.
  - unfold sized. rewrite Hs, Hlo, Hcd, Hsq, length_map, !length_replicate, map_map.
    repeat (split; [done|]). split; [|done]. rewrite <-(map_id slists) at 2. apply map_ext. by intros [].
Qed.

(** The first thread, about to enable interrupts. *)
Lemma Initialize_ok :
  program_ok sems nlocks nconds slists main ->
  exists k, booted k /\ kinv z k /\ k_sems k = map (fun v => mkSem v []) sems
    /\ k_locks k = replicate nlocks (mkLock (mkSem 1 []) None)
    /\ (forall q, items k q = []) /\ clock_room (k_hw k).
Proof.
  intros [Hm Hsl]. unfold Initialize. set (k0 := mkKernel _ _ _ _ _ _ _ _ _ _ _ _ _).
  destruct (timer_ok k0 eq_refl) as (hw & rs & -> & Hp & Hh & Hl & Hi & Hr). cbn [mbind result_bind].
  set (k1 := k_set_hw hw (k_set_randoms rs k0)).
  pose proof (Thread_new_ok 0 6 (FEnable :: map FOp main ++ [FFinish]) k1) as HN.
  change (find_id 0 (k_threadIds k1)) with (Some 0%nat) in HN. cbn match in HN.
  destruct HN as (t & k2 & -> & _ & Hk2). cbn [mbind result_bind].
  set (stk := FEnable :: map FOp main ++ [FFinish]) in *.
  assert (Hv : forall t', stack_of k2 t' = if decide (t' = t) then Some stk else None).
  { intros t'. rewrite Hk2. exact (proj1 (set_thread_views t _ (k_set_ids _ k1) t')). }
  destruct (set_status_ok t RUNNING (k_set_current t k2)) as (k3 & -> & Henv & Hrd & Hst & Hstat).
  { change (is_Some (stack_of k2 t)). rewrite Hv, decide_True by done. by eexists. }
  exists k3. split; [done|]. destruct Henv as (Hhw & Hcur & Htbd & Hs & Hlo & Hcd & Hsq & _).
  rewrite Hk2 in Hhw, Htbd, Hs, Hlo, Hcd, Hsq, Hrd. cbn in Hhw, Hcur, Htbd, Hs, Hlo, Hcd, Hsq, Hrd.
  assert (Hone : only_thread k3 t stk).
  { constructor; rewrite ?Hhw; try done; [intros t'; rewrite Hst; exact (Hv t')|by rewrite Hstat, decide_True]. }
  destruct (only_thread_core k3 t stk Hsl Hone) as [Hcore Hq]. destruct Hone as [Hst3 Hstat3 _ _ _ _ _ _ _ _ _ Hi3].
  destruct (thread_root_ok z main) as [Hco Hlv]; [by apply Forall_map|].
  split; [|split; [done|split; [done|split; [|by rewrite Hhw]]]].
  - left. exists stk. split; [constructor; rewrite ?Hcur, ?Hq; try done; [by rewrite Hst3, decide_True|by intros []%elem_of_nil]|].
    split; [left; by apply code_ok_cons|]. unfold level. rewrite Hhw, Hl. split; [done|].
    split; [|by rewrite Htbd]. intros l Hlt. left.
    assert (Hlk : k_locks k3 !! l = Some (mkLock (mkSem 1 []) None)) by (rewrite Hlo; by apply lookup_replicate_2).
    unfold sem_val, owner_of. cbn. by rewrite Hlk.
  - intros q. unfold items. rewrite Hsq, list_lookup_map. by destruct (slists !! q) as [[]|].
Qed.

(** Everything about a run that starts from [Initialize]. *)
Lemma run_ok n k o evs :
  program_ok sems nlocks nconds slists main -> booted k -> krun n k = Ok (o, evs) ->
  let k' := match o with Running k' | Halted k' => k' end in
  kinv z k' /\ explains z k evs k' /\ k_sems k = map (fun v => mkSem v []) sems
  /\ k_locks k = replicate nlocks (mkLock (mkSem 1 []) None) /\ (forall q, items k q = [])
  /\ step_post z k (o, evs).
Proof.
  intros Hok Hb HR. destruct (Initialize_ok Hok) as (k0 & Hb0 & Hk & Hs & Hl & Hq & _).
  rewrite Hb in Hb0. injection Hb0 as <-. pose proof (krun_safe z n k Hk) as Hrun. rewrite HR in Hrun.
  destruct o as [k'|k']; cbn.
  - destruct Hrun as [Hk' Hex]. by split_and!.
  - pose proof Hrun as [[Hk' Hex] _]. split_and!; try done; apply Hrun.
Qed.

(** ** Theorems *)

(** C1.  The kernel does not crash.  Whatever the threads do, a run from [Initialize] stops
    with an error only (a) at a step in which the running thread breaks a rule of the
    interface ([misuse]: it releases, waits on, signals or broadcasts under a lock it does
    not hold, forks when all 128 thread ids are taken, asks for an interrupt in the past,
    or takes a null item from a list), and then at the [ASSERT] the code has for it, or (b)
    because the clock has reached the end of its 32 bits ([clock_room]), where the loop
    over due interrupts need not end.  It never dereferences a thread, semaphore, lock,
    condition or list that does not exist, and no other assertion of the kernel fails. *)
Theorem kernel_faults n k e :
  program_ok sems nlocks nconds slists main -> booted k -> krun n k = Err e ->
  exists m k1 evs1 f, krun m k = Ok (Running k1, evs1) /\ top k1 = Some f /\ kstep k1 = Err e
    /\ ((e = AssertFailed /\ misuse f k1) \/ (e = OutOfFuel /\ ~ clock_room (k_hw k1))).
Proof.
  intros Hok Hb HR. destruct (Initialize_ok Hok) as (k0 & Hb0 & Hk & _). rewrite Hb in Hb0. injection Hb0 as <-.
  pose proof (krun_safe z n k Hk) as Hrun. rewrite HR in Hrun.
  destruct Hrun as (m & k1 & evs1 & HR1 & Hk1 & Hstep & f & Ht & He). exists m, k1, evs1, f.
  split_and!; try done. destruct He as [He|He]; [right|left]; done.
Qed.

(** C2.  Locks exclude each other: in the trace of any run, between two returns of
    [Lock::Acquire] on the same lock the first owner has released it; a release is always
    by the owner ([lock_legal]), and the [owner] field is the last acquirer. *)
Theorem lock_mutual_exclusion n k o evs l :
  program_ok sems nlocks nconds slists main -> booted k -> krun n k = Ok (o, evs) -> (l < nlocks)%nat ->
  (forall e1 e2 e3 t t', evs = e1 ++ EvAcquire l t :: e2 ++ EvAcquire l t' :: e3 -> EvRelease l t ∈ e2)
  /\ lock_legal l None evs
  /\ owner_of (match o with Running k' | Halted k' => k' end) l = lock_after l None evs.
Proof.
  intros Hok Hb HR Hl. destruct (run_ok n k o evs Hok Hb HR) as (_ & (_ & Ho & _) & _ & Hlk & _).
  assert (H0 : owner_of k l = None) by (unfold owner_of; rewrite Hlk, lookup_replicate_2; done).
  destruct (Ho l Hl) as [Hleg Haft]. rewrite H0 in Hleg, Haft. split; [|done].
  intros e1 e2 e3 t t' ->. apply lock_legal_suffix in Hleg. destruct Hleg as [_ Hleg]. cbn in Hleg.
  rewrite decide_True in Hleg by done. by apply (lock_legal_release l t t' e2 e3).
Qed.

(** C4.  Semaphores count: as long as the number of [V]s cannot overflow an [int], the value
    after any run is the initial value plus the [V]s minus the completed [P]s, and at no
    point of the trace have more [P]s completed than the initial value and the [V]s so far
    allow. *)
Theorem semaphore_accounting n k o evs s v :
  program_ok sems nlocks nconds slists main -> booted k -> krun n k = Ok (o, evs) ->
  sems !! s = Some v -> 0 <= v -> v + count_V (SUser s) evs < 2 ^ 31 ->
  sem_val (match o with Running k' | Halted k' => k' end) (SUser s)
    = v + count_V (SUser s) evs - count_P (SUser s) evs
  /\ forall pre, pre `prefix_of` evs -> count_P (SUser s) pre <= v + count_V (SUser s) pre.
Proof.
  intros Hok Hb HR Hs Hv Hlim. destruct (run_ok n k o evs Hok Hb HR) as (_ & (Hse & _) & Hsm & _).
  assert (H0 : sem_val k (SUser s) = v) by (unfold sem_val; cbn; by rewrite Hsm, list_lookup_map, Hs).
  destruct (Hse (SUser s)) as [Hleg Haft]; [by apply (lookup_lt_Some _ _ v)|]. rewrite H0 in Hleg, Haft.
  rewrite Haft. split; [by apply sem_legal_counts|]. intros pre [rest ->].
  apply sem_legal_prefix in Hleg. rewrite count_V_app in Hlim. pose proof (count_nonneg (SUser s) rest).
  destruct (sem_legal_counts (SUser s) pre v Hv) as [Heq ?]; [lia|done|]. lia.
Qed.

(** C15.  A synchronised list is a queue: the items removed so far, followed by what is in the
    list, are exactly the items appended, in the order of the appends.  No item is lost,
    duplicated or overtaken, whichever threads append and remove. *)
Theorem synchlist_fifo n k o evs q :
  program_ok sems nlocks nconds slists main -> booted k -> krun n k = Ok (o, evs) ->
  appended q evs = removed q evs ++ items (match o with Running k' | Halted k' => k' end) q.
Proof.
  intros Hok Hb HR. destruct (run_ok n k o evs Hok Hb HR) as (_ & (_ & _ & Hq) & _ & _ & H0 & _).
  specialize (Hq q). by rewrite H0 in Hq.
Qed.

(** C3.  No thread is lost.  After any number of steps every thread is in exactly one place:
    the current thread, once on the ready list (then its status is READY), once in one
    waiting queue of one semaphore, lock or condition (then it is BLOCKED), or finished,
    its stack waiting for deallocation inside [Scheduler::Run]. *)
Theorem threads_accounted n k k' evs :
  program_ok sems nlocks nconds slists main -> booted k -> krun n k = Ok (Running k', evs) ->
  NoDup ((k_ready k').*2 ++ waiters k')
  /\ (forall t, t ∈ (k_ready k').*2 -> status_of k' t = Some READY)
  /\ (forall t, t ∈ waiters k' -> status_of k' t = Some BLOCKED)
  /\ (forall t stk, stack_of k' t = Some stk ->
        t ∈ (k_ready k').*2 ++ waiters k' \/ t = k_current k' \/ stk = [FRun]).
Proof.
  intros Hok Hb HR. destruct (run_ok n k _ evs Hok Hb HR) as (Hk & _).
  assert (Hc : core z k') by (destruct Hk as [(stk & [? _ _ _ _] & _)|(rest & [? _] & _)]; done).
  split; [apply Hc|]. split; [apply Hc|]. split; [apply Hc|apply Hc].
Qed.

(** C20.  The machine halts only when nothing can happen any more: the ready list is empty, no
    device will interrupt (at most the timer is pending), and every thread that still
    exists is in a waiting queue or has finished. *)
Theorem halt_is_final n k k' evs :
  program_ok sems nlocks nconds slists main -> booted k -> krun n k = Ok (Halted k', evs) ->
  k_ready k' = [] /\ Forall (fun x => pi_type x.2 = TimerInt) (hw_pending (k_hw k'))
  /\ forall t stk, stack_of k' t = Some stk -> t ∈ waiters k' \/ stk = [FRun] \/ stk = [FSleep].
Proof.
  intros Hok Hb HR. destruct (run_ok n k _ evs Hok Hb HR) as (_ & _ & _ & _ & _ & Hp).
  destruct Hp as (_ & (rest & Hc & Hs & _ & Hr) & Hrd & Hti). split; [done|]. split; [done|].
  assert (Hq : queued k' = waiters k') by (unfold queued; by rewrite Hrd).
  intros t stk Ht. destruct (c_lost _ _ Hc t stk Ht) as [Hin|[->|Hf]]; [left; by rewrite <-Hq| |by right; left].
  rewrite Hs in Ht. injection Ht as <-.
  destruct Hr as [[-> _]|(_ & _ & Hin & _)]; [by right; right|left; by rewrite <-Hq].
Qed.
End Booted.

(** ** A run *)

(** Two threads that use a lock, a semaphore and a synchronised list, preempted by the timer. *)
Definition demo_main : list op :=
  [OpFork 0 5 [OpAcquire 0; OpYield; OpRelease 0; OpV 0; OpListAppend 0 7];
   OpAcquire 0; OpYield; OpRelease 0; OpP 0; OpListAppend 0 8; OpListRemove 0; OpListRemove 0].
Definition demo_boot : result Kernel :=
  Initialize false (Some true) (replicate 60 19%N) [0] 2 1 [(1%nat, 0%nat)] demo_main.

Lemma demo_ok : program_ok [0] 2 1 [(1%nat, 0%nat)] demo_main.
Proof. unfold program_ok. split; repeat constructor; cbn; lia. Qed.

Lemma kernel_faults_witness :
  exists k e, Initialize false None [] [] 1 0 [] [OpRelease 0] = Ok k /\ krun 5 k = Err e
    /\ exists m k1 evs1 f, krun m k = Ok (Running k1, evs1) /\ top k1 = Some f /\ kstep k1 = Err e
         /\ ((e = AssertFailed /\ misuse f k1) \/ (e = OutOfFuel /\ ~ clock_room (k_hw k1))).
Proof.
  eexists _, _. split; [vm_compute; reflexivity|]. split; [vm_compute; reflexivity|].
  eapply (kernel_faults false None [] [] 1 0 [] [OpRelease 0] 5).
  - split; repeat constructor.
  - vm_compute. reflexivity.
  - vm_compute. reflexivity.
Defined.

Lemma lock_mutual_exclusion_witness :
  exists k o evs, demo_boot = Ok k /\ krun 300 k = Ok (o, evs)
    /\ (forall e1 e2 e3 t t', evs = e1 ++ EvAcquire 0 t :: e2 ++ EvAcquire 0 t' :: e3 -> EvRelease 0 t ∈ e2)
    /\ lock_legal 0 None evs
    /\ owner_of (match o with Running k' | Halted k' => k' end) 0 = lock_after 0 None evs.
Proof.
  eexists _, _, _. split; [vm_compute; reflexivity|]. split; [vm_compute; reflexivity|].
  eapply (lock_mutual_exclusion false (Some true) (replicate 60 19%N) [0] 2 1 [(1%nat, 0%nat)] demo_main 300).
  - exact demo_ok.
  - vm_compute. reflexivity.
  - vm_compute. reflexivity.
  - lia.
Defined.

Lemma semaphore_accounting_witness :
  exists k o evs, demo_boot = Ok k /\ krun 300 k = Ok (o, evs)
    /\ sem_val (match o with Running k' | Halted k' => k' end) (SUser 0)
         = 0 + count_V (SUser 0) evs - count_P (SUser 0) evs
    /\ forall pre, pre `prefix_of` evs -> count_P (SUser 0) pre <= 0 + count_V (SUser 0) pre.
Proof.
  eexists _, _, _. split; [vm_compute; reflexivity|]. split; [vm_compute; reflexivity|].
  eapply (semaphore_accounting false (Some true) (replicate 60 19%N) [0] 2 1 [(1%nat, 0%nat)] demo_main 300).
  - exact demo_ok.
  - vm_compute. reflexivity.
  - vm_compute. reflexivity.
  - reflexivity.
  - lia.
  - vm_compute. reflexivity.
Defined.

Lemma synchlist_fifo_witness :
  exists k o evs, demo_boot = Ok k /\ krun 300 k = Ok (o, evs)
    /\ appended 0 evs = removed 0 evs ++ items (match o with Running k' | Halted k' => k' end) 0.
Proof.
  eexists _, _, _. split; [vm_compute; reflexivity|]. split; [vm_compute; reflexivity|].
  eapply (synchlist_fifo false (Some true) (replicate 60 19%N) [0] 2 1 [(1%nat, 0%nat)] demo_main 300).
  - exact demo_ok.
  - vm_compute. reflexivity.
  - vm_compute. reflexivity.
Defined.

Lemma threads_accounted_witness :
  exists k k' evs, demo_boot = Ok k /\ krun 20 k = Ok (Running k', evs)
    /\ NoDup ((k_ready k').*2 ++ waiters k')
    /\ (forall t, t ∈ (k_ready k').*2 -> status_of k' t = Some READY)
    /\ (forall t, t ∈ waiters k' -> status_of k' t = Some BLOCKED)
    /\ (forall t stk, stack_of k' t = Some stk ->
          t ∈ (k_ready k').*2 ++ waiters k' \/ t = k_current k' \/ stk = [FRun]).
Proof.
  eexists _, _, _. split; [vm_compute; reflexivity|]. split; [vm_compute; reflexivity|].
  eapply (threads_accounted false (Some true) (replicate 60 19%N) [0] 2 1 [(1%nat, 0%nat)] demo_main 20).
  - exact demo_ok.
  - vm_compute. reflexivity.
  - vm_compute. reflexivity.
Defined.

Lemma halt_is_final_witness :
  exists k k' evs, demo_boot = Ok k /\ krun 300 k = Ok (Halted k', evs)
    /\ k_ready k' = [] /\ Forall (fun x => pi_type x.2 = TimerInt) (hw_pending (k_hw k'))
    /\ forall t stk, stack_of k' t = Some stk -> t ∈ waiters k' \/ stk = [FRun] \/ stk = [FSleep].
Proof.
  eexists _, _, _. split; [vm_compute; reflexivity|]. split; [vm_compute; reflexivity|].
  eapply (halt_is_final false (Some true) (replicate 60 19%N) [0] 2 1 [(1%nat, 0%nat)] demo_main 300).
  - exact demo_ok.
  - vm_compute. reflexivity.
  - vm_compute. reflexivity.
Defined.

(** Finished threads can leak.  [Thread::Finish] leaves the deallocation of its thread to
    the code behind [SWITCH] in [Scheduler::Run], but a thread that runs for the first time
    starts in [ThreadRoot] and not there; if it finishes itself, [threadToBeDestroyed] is
    overwritten.  The main thread forks two threads that return at once and finishes: the
    machine halts with three finished threads, of which only the last is still recorded
    for deallocation; the objects and the ids of the other two are never given back. *)
Theorem finished_threads_leak :
  exists k k' evs,
    Initialize false None [] [] 0 0 [] [OpFork 0 5 []; OpFork 0 5 []] = Ok k
    /\ krun 40 k = Ok (Halted k', evs)
    /\ stack_of k' 1%positive = Some [FRun] /\ stack_of k' 2%positive = Some [FRun]
    /\ k_tbd k' = Some 3%positive /\ take 4 (k_threadIds k') = [1; 1; 1; 0].
Proof.
  eexists _, _, _. split; [vm_compute; reflexivity|]. split; [vm_compute; reflexivity|].
  split_and!; vm_compute; reflexivity.
Qed.
