(* ===== verification/KernelTest.v ===== *)
(** * threads/threadtest.cc: the tests of Yield, of priorities and of the number of threads

    [SimpleThread], [ThreadTest1] and [ThreadPriorityTest] as code of the kernel of
    [Kernel.v]; they are run by evaluation, and [schedule] shows which thread has the
    processor.  [ThreadCountLimitTest] only creates threads; how many can be created is
    settled for every state of the kernel. *)

From S2P Require Import Prelude SList Interrupt Kernel.

(** The default of [pri] in thread.h. *)
Definition default_priority : Z := 6.

Definition SimpleThread : list op := replicate 5 OpSlice.

Definition ThreadTest1 (garbage : Z) : list op := OpFork garbage default_priority SimpleThread :: SimpleThread.

Definition ThreadPriorityTest (garbage : Z) : list op :=
  map (fun pri => OpFork garbage pri SimpleThread) [1; 2; 3; 4] ++ OpYield :: SimpleThread.

(** [new Thread("fork thread")], [n] times. *)
Definition create_threads (garbage : Z) (n : nat) (k : Kernel) : result Kernel :=
  result_fold (fun _ k => '(_, k) ← Thread_new garbage default_priority [] k; Ok k) (seq 0 n) k.

Definition ThreadCountLimitTest (garbage : Z) (k : Kernel) : result Kernel :=
  create_threads garbage (S maxThreadsCount) k.

(** ** The number of threads *)

Definition free_ids (k : Kernel) : nat := length (filter (fun x => x = 0) (k_threadIds k)).

Lemma find_id_spec ids : forall i,
  match find_id i ids with
  | Some j => exists n, j = (i + n)%nat /\ ids !! n = Some 0
  | None => filter (fun x => x = 0) ids = []
  end.
Proof.
  induction ids as [|x ids IH]; intros i; cbn [find_id]; [done|]. rewrite filter_cons. destruct (Z.eqb_spec x 0) as [->|Hx].
  - exists 0%nat. by rewrite Nat.add_0_r.
  - specialize (IH (S i)). destruct (find_id (S i) ids) as [j|]; [|by rewrite decide_False].
    destruct IH as (n & -> & Hn). exists (S n). split; [lia|done].
Qed.

Lemma filter_take_id (ids : list Z) n : ids !! n = Some 0 ->
  length (filter (fun x => x = 0) ids) = S (length (filter (fun x => x = 0) (<[n := 1]> ids))).
Proof.
  intros Hn. rewrite insert_take_drop by (by eapply lookup_lt_Some). rewrite <-(take_drop_middle ids n 0 Hn) at 1.
  rewrite !filter_app, !filter_cons, !length_app, decide_True, decide_False by done. cbn. lia.
Qed.

Lemma Thread_new_ids garbage pri fs k :
  match free_ids k with
  | O => Thread_new garbage pri fs k = Err AssertFailed
  | S m => exists t k', Thread_new garbage pri fs k = Ok (t, k') /\ free_ids k' = m
  end.
Proof.
  unfold free_ids, Thread_new, allocatedThreadID. pose proof (find_id_spec (k_threadIds k) 0) as Hf.
  destruct (find_id 0 (k_threadIds k)) as [i|].
  - destruct Hf as (n & -> & Hn). rewrite (filter_take_id _ _ Hn).
    rewrite ASSERT_true by (apply negb_true_iff, Z.eqb_neq; lia). cbn. by eexists _, _.
  - by rewrite Hf.
Qed.

(** Exactly as many threads can be created as there are unused ids, whatever has happened
    before; the next one fails at the assertion in the constructor. *)
Theorem create_threads_limit garbage n k :
  if decide (n <= free_ids k)%nat
  then exists k', create_threads garbage n k = Ok k' /\ free_ids k' = (free_ids k - n)%nat
  else create_threads garbage n k = Err AssertFailed.
Proof.
  unfold create_threads. generalize 0%nat. revert k. induction n as [|n IH]; intros k i; cbn [seq result_fold].
  { rewrite decide_True by lia. exists k. split; [done|lia]. }
  pose proof (Thread_new_ids garbage default_priority [] k) as H. destruct (free_ids k) as [|m] eqn:Hm.
  - by rewrite H.
  - destruct H as (t & k' & -> & <-). cbn [mbind result_bind]. specialize (IH k' (S i)).
    destruct (decide (n <= free_ids k')%nat), (decide (S n <= S (free_ids k'))%nat); (done || lia).
Qed.

(** The test therefore always ends at that assertion. *)
Corollary ThreadCountLimitTest_fails garbage k :
  length (k_threadIds k) = maxThreadsCount -> ThreadCountLimitTest garbage k = Err AssertFailed.
Proof.
  intros Hl. pose proof (create_threads_limit garbage (S maxThreadsCount) k) as H.
  rewrite decide_False in H; [done|]. unfold free_ids. rewrite <-Hl.
  pose proof (length_filter (fun x : Z => x = 0) (k_threadIds k)). lia.
Qed.

(** The main thread has an id too: 127 can be added to it. *)
Example thread_count_boot :
  match Initialize false None [] [] 0 0 [] [] with
  | Ok k => free_ids k = 127%nat /\ ThreadCountLimitTest 0 k = Err AssertFailed
  | Err _ => False
  end.
Proof. by vm_compute. Qed.

(** ** Who runs *)

(** The threads that get the processor in a run, until the machine halts. *)
Fixpoint schedule (fuel : nat) (k : Kernel) : result (list tid) :=
  match fuel with
  | O => Err OutOfFuel
  | S fuel =>
      '(o, _) ← kstep k;
      match o with
      | Halted _ => Ok [k_current k]
      | Running k' =>
          ts ← schedule fuel k';
          Ok (if decide (head ts = Some (k_current k)) then ts else k_current k :: ts)
      end
  end.

Definition test_schedule (prio : bool) (timer : option bool) (randoms : list N) (main : list op) : result (list tid) :=
  k ← Initialize prio timer randoms [] 0 0 [] main; schedule 400 k.

(** Without a timer [ThreadTest1] changes the processor twice: the main thread uses up its
    slice with the calls of [Fork] and yields, the other one does not and finishes. *)
Example ThreadTest1_schedule : test_schedule false None [] (ThreadTest1 0) = Ok [1; 2; 1]%positive.
Proof. by vm_compute. Qed.

(** The four threads run in the order of their priorities, which is also that of their
    creation; the main thread, of the lowest priority, comes last. *)
Example ThreadPriorityTest_schedule :
  test_schedule false None [] (ThreadPriorityTest 0) = Ok [1; 2; 3; 4; 5; 1]%positive
  /\ test_schedule true None [] (ThreadPriorityTest 0) = Ok [1; 2; 3; 4; 5; 1]%positive.
Proof. by vm_compute. Qed.

(** With priorities the order of creation does not matter; without, nothing else does. *)
Example priority_order :
  let main := map (fun pri => OpFork 0 pri SimpleThread) [4; 3; 2; 1] ++ [OpYield] in
  test_schedule true None [] main = Ok [1; 5; 4; 3; 2; 1]%positive
  /\ test_schedule false None [] main = Ok [1; 2; 3; 4; 5; 1]%positive.
Proof. by vm_compute. Qed.
