(* ===== verification/SyncProg.v ===== *)
(** * Threads that synchronise

    The interface between the synchronisation primitives of threads/synch.cc and the code
    that uses them: what one call does, atomically, to the calling thread and to the others.
    [Kernel.v] models how the primitives are implemented; [semaphore_accounting] and
    [lock_mutual_exclusion] of [KernelSafe.v] are what justifies the atomic steps below.

    The code of a thread is a table from its program points to the statements of the source
    ([instr]); [sync_step] executes the statement of any thread that is not blocked, so
    every interleaving is covered, also those that the time-slice timer never produces. *)

From S2P Require Import Prelude.

Inductive instr (V PC : Type) :=
  | IP (s : nat) (next : PC)
  | IV (s : nat) (next : PC)
  | IAcquire (l : nat) (next : PC)
  | IRelease (l : nat) (next : PC)
  | IWait (c l : nat) (next : PC)
  | ISignal (c l : nat) (next : PC)
  | IBroadcast (c l : nat) (next : PC)
  | IDo (f : V -> V * PC)
  | IAct (f : V -> result (option (V * PC)))   (* may block or fail an assertion *)
  | IStop.
Arguments IP {V PC}. Arguments IV {V PC}. Arguments IAcquire {V PC}. Arguments IRelease {V PC}. Arguments IWait {V PC}.
Arguments ISignal {V PC}. Arguments IBroadcast {V PC}. Arguments IDo {V PC}. Arguments IAct {V PC}. Arguments IStop {V PC}.

(** A thread runs, sleeps in the queue of a condition, or has been woken and must get the
    lock back before [Wait] returns. *)
Inductive status (PC : Type) :=
  | Run (pc : PC)
  | Asleep (c l : nat) (pc : PC)
  | Woken (l : nat) (pc : PC).
Arguments Run {PC}. Arguments Asleep {PC}. Arguments Woken {PC}.

#[global] Instance status_eq_dec {PC} `{EqDecision PC} : EqDecision (status PC).
Proof. solve_decision. Defined.

Record Sys (V PC : Type) := mkSys {
  sy_vars : V;
  sy_sems : list Z;
  sy_locks : list (option nat);
  sy_conds : list (list nat);
  sy_threads : list (status PC)
}.
Arguments mkSys {V PC}. Arguments sy_vars {V PC}. Arguments sy_sems {V PC}. Arguments sy_locks {V PC}.
Arguments sy_conds {V PC}. Arguments sy_threads {V PC}.

Section Step.
Context {V PC : Type} (code : PC -> instr V PC).

Definition wake (j : nat) (ts : list (status PC)) : list (status PC) :=
  match ts !! j with Some (Asleep _ l pc) => <[j := Woken l pc]> ts | _ => ts end.

(** [Ok None] when the thread cannot run, [Err] when an assertion fails. *)
Definition sync_step (i : nat) (s : Sys V PC) : result (option (Sys V PC)) :=
  let '(mkSys v sems locks conds ts) := s in
  let goto pc := <[i := Run pc]> ts in
  match ts !! i with
  | None | Some (Asleep _ _ _) => Ok None
  | Some (Woken l pc) =>
      o ← deref (locks !! l);
      match o with
      | None => Ok (Some (mkSys v sems (<[l := Some i]> locks) conds (goto pc)))
      | Some _ => Ok None
      end
  | Some (Run pc) =>
      match code pc with
      | IP x next =>
          value ← deref (sems !! x);
          if value =? 0 then Ok None else Ok (Some (mkSys v (<[x := value - 1]> sems) locks conds (goto next)))
      | IV x next =>
          value ← deref (sems !! x);
          Ok (Some (mkSys v (<[x := value + 1]> sems) locks conds (goto next)))
      | IAcquire l next =>
          o ← deref (locks !! l);
          match o with
          | None => Ok (Some (mkSys v sems (<[l := Some i]> locks) conds (goto next)))
          | Some _ => Ok None
          end
      | IRelease l next =>
          o ← deref (locks !! l);
          ASSERT (bool_decide (o = Some i)) ;;
          Ok (Some (mkSys v sems (<[l := None]> locks) conds (goto next)))
      | IWait c l next =>
          o ← deref (locks !! l);
          ASSERT (bool_decide (o = Some i)) ;;
          q ← deref (conds !! c);
          Ok (Some (mkSys v sems (<[l := None]> locks) (<[c := q ++ [i]]> conds) (<[i := Asleep c l next]> ts)))
      | ISignal c l next =>
          o ← deref (locks !! l);
          ASSERT (bool_decide (o = Some i)) ;;
          q ← deref (conds !! c);
          Ok (Some (match q with
                    | [] => mkSys v sems locks conds (goto next)
                    | j :: q => mkSys v sems locks (<[c := q]> conds) (wake j (goto next))
                    end))
      | IBroadcast c l next =>
          o ← deref (locks !! l);
          ASSERT (bool_decide (o = Some i)) ;;
          q ← deref (conds !! c);
          Ok (Some (mkSys v sems locks (<[c := []]> conds) (foldr wake (goto next) q)))
      | IDo f => let '(v, next) := f v in Ok (Some (mkSys v sems locks conds (goto next)))
      | IAct f =>
          r ← f v;
          match r with
          | Some (v, next) => Ok (Some (mkSys v sems locks conds (goto next)))
          | None => Ok None
          end
      | IStop => Ok None
      end
  end.

Definition sync_run (sched : list nat) (s : Sys V PC) : result (Sys V PC) :=
  result_fold (fun i s => r ← sync_step i s; Ok (default s r)) sched s.

(** The same, for schedules in which every thread can run when it is its turn. *)
Definition strict_run (sched : list nat) (s : Sys V PC) : result (Sys V PC) :=
  result_fold (fun i s => r ← sync_step i s; deref r) sched s.

Inductive sstep : Sys V PC -> Sys V PC -> Prop :=
  | SStep i s s' : sync_step i s = Ok (Some s') -> sstep s s'.

Lemma strict_run_nsteps sched s s' : strict_run sched s = Ok s' -> nsteps sstep (length sched) s s'.
Proof.
  unfold strict_run. revert s. induction sched as [|i sched IH]; intros s; cbn [result_fold length].
  - intros [= <-]. constructor.
  - destruct (sync_step i s) as [[s1|]|e] eqn:E; cbn [mbind result_bind deref]; try done.
    intros H. econstructor; [by econstructor|by apply IH].
Qed.

Lemma strict_run_exists sched s :
  match strict_run sched s with Ok _ => true | Err _ => false end = true -> exists s', nsteps sstep (length sched) s s'.
Proof. destruct (strict_run sched s) as [s'|e] eqn:E; [|done]. exists s'. by apply strict_run_nsteps. Qed.

(** No thread can run although not all have finished. *)
Definition finished (st : status PC) : Prop := match st with Run pc => code pc = IStop | _ => False end.

Definition can_step (s : Sys V PC) : Prop := exists i s', sync_step i s = Ok (Some s').

(** The shape of the correctness proofs: an invariant of the initial state that every step
    keeps, and under which no assertion fails. *)
Lemma reachable_inv (I : Sys V PC -> Prop) s0 s :
  I s0 -> (forall i s r, I s -> sync_step i s = r -> match r with Ok (Some s') => I s' | Ok None => True | Err _ => False end) ->
  rtc sstep s0 s -> I s.
Proof.
  intros H0 Hstep Hr. apply (rtc_ind_r (R := sstep) I s0); [done| |done].
  intros y z _ [i y' z' Hs] Hy. by apply (Hstep i y' _ Hy) in Hs.
Qed.

Lemma no_assertion_fails (I : Sys V PC -> Prop) s0 s :
  I s0 -> (forall i s r, I s -> sync_step i s = r -> match r with Ok (Some s') => I s' | Ok None => True | Err _ => False end) ->
  rtc sstep s0 s -> forall i e, sync_step i s <> Err e.
Proof. intros H0 Hstep Hr i e He. by apply (Hstep i s _ (reachable_inv I s0 s H0 Hstep Hr)) in He. Qed.

Lemma can_step_by (I : Sys V PC -> Prop) s i :
  I s -> (forall i s r, I s -> sync_step i s = r -> match r with Ok (Some s') => I s' | Ok None => True | Err _ => False end) ->
  sync_step i s <> Ok None -> can_step s.
Proof.
  intros HI Hstep Hn. destruct (sync_step i s) as [[s'|]|e] eqn:E; [by exists i, s'|done|]. by apply (Hstep i s _ HI) in E.
Qed.

End Step.

(** ** Counting threads *)

Fixpoint cnt {A} (p : A -> bool) (l : list A) : Z :=
  match l with [] => 0 | x :: l => (if p x then 1 else 0) + cnt p l end.

Section Counting.
Context {A : Type}.
Implicit Types (p q r : A -> bool) (l : list A).

Lemma cnt_nonneg p l : 0 <= cnt p l.
Proof. induction l as [|x l IH]; cbn; [lia|]. destruct (p x); lia. Qed.

Lemma cnt_insert p l i x y : l !! i = Some x ->
  cnt p (<[i := y]> l) = cnt p l - (if p x then 1 else 0) + (if p y then 1 else 0).
Proof.
  revert i. induction l as [|z l IH]; intros [|i] Hi; cbn in Hi; simplify_eq; simpl; [lia|]. rewrite (IH _ Hi). lia.
Qed.

Lemma cnt_at p l i x : l !! i = Some x -> p x = true -> 1 <= cnt p l.
Proof.
  intros Hi Hp. revert i Hi. induction l as [|z l IH]; intros [|i] Hi; cbn in Hi; simplify_eq; cbn.
  - rewrite Hp. pose proof (cnt_nonneg p l). lia.
  - pose proof (IH _ Hi). destruct (p z); lia.
Qed.

Lemma cnt_two p l i j x y : l !! i = Some x -> l !! j = Some y -> p x = true -> p y = true -> i <> j -> 2 <= cnt p l.
Proof.
  revert i j. induction l as [|z l IH]; intros [|i] [|j] Hi Hj Hx Hy Hne; cbn in Hi, Hj; simplify_eq; cbn; rewrite ?Hx, ?Hy.
  - pose proof (cnt_at p l j y Hj Hy). lia.
  - pose proof (cnt_at p l i x Hi Hx). lia.
  - pose proof (IH i j Hi Hj Hx Hy ltac:(congruence)). destruct (p z); lia.
Qed.

Lemma cnt_ex p l : 0 < cnt p l -> exists i x, l !! i = Some x /\ p x = true.
Proof.
  induction l as [|z l IH]; cbn; [lia|]. destruct (p z) eqn:Hz; intros H.
  - by exists 0%nat, z.
  - destruct (IH ltac:(lia)) as (i & x & Hi & Hx). by exists (S i), x.
Qed.

Lemma cnt_zero p l : (forall i x, l !! i = Some x -> p x = false) -> cnt p l = 0.
Proof.
  intros H. destruct (Z.eq_dec (cnt p l) 0) as [|Hn]; [done|]. pose proof (cnt_nonneg p l).
  destruct (cnt_ex p l ltac:(lia)) as (i & x & Hi & Hx). rewrite (H i x Hi) in Hx. done.
Qed.

Lemma cnt_all p l : (forall x, x ∈ l -> p x = true) -> cnt p l = Z.of_nat (length l).
Proof.
  induction l as [|z l IH]; intros H; cbn; [done|]. rewrite (H z) by constructor. rewrite IH; [lia|].
  intros x Hx. apply H. by constructor.
Qed.

Lemma cnt_ext p q l : (forall x, x ∈ l -> p x = q x) -> cnt p l = cnt q l.
Proof.
  induction l as [|z l IH]; intros H; cbn; [done|]. rewrite (H z) by constructor. rewrite IH; [done|].
  intros x Hx. apply H. by constructor.
Qed.

Lemma cnt_app p l l' : cnt p (l ++ l') = cnt p l + cnt p l'.
Proof. induction l as [|x l IH]; cbn; [done|]. rewrite IH. lia. Qed.

Lemma cnt_replicate p n x : cnt p (replicate n x) = if p x then Z.of_nat n else 0.
Proof. induction n as [|n IH]; cbn; [by destruct (p x)|]. rewrite IH. destruct (p x); lia. Qed.

Lemma cnt_sum p q r l : (forall x, (if r x then 1 else 0) = (if p x then 1 else 0) + (if q x then 1 else 0)) ->
  cnt r l = cnt p l + cnt q l.
Proof. intros H. induction l as [|x l IH]; cbn; [done|]. rewrite H, IH. lia. Qed.
End Counting.

Lemma cnt_fmap_eq {A} (p : A -> bool) l l' : p <$> l = p <$> l' -> cnt p l = cnt p l'.
Proof.
  revert l'. induction l as [|x l IH]; intros [|y l'] E; cbn in E; try discriminate; [done|]. injection E as Hx Hl. cbn.
  by rewrite Hx, (IH l' Hl).
Qed.

Lemma cnt_le_length {A} (p : A -> bool) l : cnt p l <= Z.of_nat (length l).
Proof. induction l as [|x l IH]; cbn; [lia|]. destruct (p x); lia. Qed.

Lemma cnt_lt_length {A} (p : A -> bool) l i x : l !! i = Some x -> p x = false -> cnt p l < Z.of_nat (length l).
Proof.
  revert i. induction l as [|z l IH]; intros [|i] Hi Hp; cbn in Hi; simplify_eq; cbn.
  - rewrite Hp. pose proof (cnt_le_length p l). lia.
  - pose proof (IH i Hi Hp). destruct (p z); lia.
Qed.

(** Sums over the threads. *)
Lemma sum_insert {A} (f : A -> nat) l i x y : l !! i = Some x ->
  (sum_list_with f (<[i := y]> l) + f x = sum_list_with f l + f y)%nat.
Proof. revert i. induction l as [|z l IH]; intros [|i] Hi; cbn in Hi; simplify_eq; simpl; [lia|]. pose proof (IH _ Hi). lia. Qed.

(** ** Locks

    A lock whose holder is the only thread at a program point where it should be held. *)
Section Locks.
Context {PC : Type} (locked : status PC -> Prop) `{forall st, Decision (locked st)}.
Implicit Types (ts : list (status PC)) (st : status PC).

Definition locks_ok (o : option nat) (ts : list (status PC)) : Prop :=
  (forall i st, ts !! i = Some st -> locked st <-> o = Some i) /\ forall i, o = Some i -> is_Some (ts !! i).

Lemma locks_insert o o' ts i st st' :
  locks_ok o ts -> ts !! i = Some st -> o = Some i \/ o = None ->
  o' = (if decide (locked st') then Some i else None) -> locks_ok o' (<[i := st']> ts).
Proof.
  intros [Hl Ho] Hi Ho0 ->. pose proof (lookup_lt_Some _ _ _ Hi) as Hlt. split.
  - intros j st1 Hj. apply list_lookup_insert_Some in Hj as [(-> & <- & _)|[Hne Hj]].
    + case_decide; [done|]. split; [done|discriminate].
    + rewrite (Hl j st1 Hj). case_decide; destruct Ho0; subst o; split; congruence.
  - intros j Hj. case_decide; [|done]. injection Hj as <-. apply lookup_lt_is_Some_2. by rewrite length_insert.
Qed.

Lemma locks_same o ts ts' :
  locks_ok o ts -> length ts' = length ts ->
  (forall i st', ts' !! i = Some st' -> exists st, ts !! i = Some st /\ (locked st' <-> locked st)) -> locks_ok o ts'.
Proof.
  intros [Hl Ho] Hlen Hsame. split.
  - intros i st' Hi. destruct (Hsame i st' Hi) as (st & Hst & ->). by apply Hl.
  - intros i Hi. apply lookup_lt_is_Some_2. rewrite Hlen. apply lookup_lt_is_Some_1. by apply Ho.
Qed.

Lemma locks_outside o ts i st st' :
  locks_ok o ts -> ts !! i = Some st -> ~ locked st -> ~ locked st' -> locks_ok o (<[i := st']> ts).
Proof.
  intros Hl Hi Hst Hst'. apply (locks_same o ts); [done|by rewrite length_insert|]. intros j stj Hj.
  apply list_lookup_insert_Some in Hj as [(<- & <- & _)|[_ Hj]]; [exists st; tauto|by exists stj].
Qed.

Lemma locks_free ts i st : locks_ok None ts -> ts !! i = Some st -> ~ locked st.
Proof. intros [Hl _] Hi Hst. by apply (Hl i st) in Hst. Qed.

Lemma locks_unique o ts i j st st' :
  locks_ok o ts -> ts !! i = Some st -> ts !! j = Some st' -> locked st -> locked st' -> i = j.
Proof. intros [Hl _] Hi Hj Hst Hst'. apply (Hl i st Hi) in Hst. apply (Hl j st' Hj) in Hst'. congruence. Qed.
End Locks.

(** ** Waking all sleepers *)

Lemma wake_sleeper {PC} (ts : list (status PC)) j c l k :
  ts !! j = Some (Asleep c l k) -> wake j ts = <[j := Woken l k]> ts.
Proof. intros Hj. unfold wake. by rewrite Hj. Qed.

Lemma length_wakes {PC} (q : list nat) (ts : list (status PC)) : length (foldr wake ts q) = length ts.
Proof.
  induction q as [|j q IH]; [done|]. cbn [foldr]. unfold wake at 1. destruct (foldr wake ts q !! j) as [[]|]; rewrite ?length_insert; done.
Qed.

Lemma lookup_wakes {PC} (q : list nat) (ts : list (status PC)) c l k i :
  NoDup q -> (forall j, j ∈ q -> ts !! j = Some (Asleep c l k)) ->
  foldr wake ts q !! i = if decide (i ∈ q) then Some (Woken l k) else ts !! i.
Proof.
  intros Hnd. revert i. induction q as [|j q IH]; intros i Hq; cbn [foldr].
  { rewrite decide_False by apply not_elem_of_nil. done. }
  apply NoDup_cons in Hnd as [Hj Hnd].
  assert (Hq' : forall x, x ∈ q -> ts !! x = Some (Asleep c l k)) by (intros x Hx; apply Hq; by constructor).
  assert (Hsl : foldr wake ts q !! j = Some (Asleep c l k)).
  { rewrite (IH Hnd j Hq'), decide_False by done. apply Hq. constructor. }
  rewrite (wake_sleeper _ _ _ _ _ Hsl). destruct (decide (i = j)) as [->|Hne].
  - rewrite list_lookup_insert_eq by by eapply lookup_lt_Some. rewrite decide_True by constructor. done.
  - rewrite list_lookup_insert_ne by done. rewrite (IH Hnd i Hq').
    destruct (decide (i ∈ q)); [rewrite decide_True by (by constructor)|rewrite decide_False by (by rewrite elem_of_cons; intros [|])]; done.
Qed.

(** Waking makes a measure that ranks sleepers above the woken no larger. *)
Lemma wakes_measure {PC} (f : status PC -> nat) (q : list nat) ts :
  (forall c l k, (f (Woken l k) <= f (Asleep c l k))%nat) -> (sum_list_with f (foldr wake ts q) <= sum_list_with f ts)%nat.
Proof.
  intros Hf. induction q as [|j q IH]; cbn [foldr]; [done|]. unfold wake at 1.
  destruct (foldr wake ts q !! j) as [[k|c l k|l k]|] eqn:E; [done| |done|done].
  pose proof (sum_insert f _ _ _ (Woken l k) E). specialize (Hf c l k). lia.
Qed.
