(* ===== verification/SynchDisk.v ===== *)
(** * filesys/synchdisk.cc: many threads on one disk

    [SynchDisk::ReadSector] and [WriteSector] serialise the threads that use the disk with
    a lock and wait for the completion interrupt with a semaphore.  Each thread makes a
    sequence of calls; the device is one more thread of the system, whose steps are the
    interrupt ([Disk::HandleInterrupt]) and the handler the synchronous disk installed
    ([RequestDone], which calls [V]).  Every interleaving is covered.  The clock is
    arbitrary.  A history variable records the requests in the order the device got
    them. *)

From S2P Require Import Prelude SyncProg Disk.

Inductive sd_pt := AtAcquire | AtRequest | AtP | AtRelease.
#[global] Instance sd_pt_eq_dec : EqDecision sd_pt.
Proof. solve_decision. Defined.

(** A thread inside the call for the first request of [todo] (or between two calls), with
    the answers it has so far; the device waiting for its interrupt or in the handler. *)
Inductive sd_pc :=
  | Client (k : sd_pt) (i : nat) (todo : list disk_op) (got : list (option (list Z)))
  | DeviceIdle
  | DeviceDone.

Record sd_event := mkEvent { ev_thread : nat; ev_op : disk_op; ev_answer : option (list Z) }.

Record sd_vars := mkVars { sv_disk : Disk; sv_pending : bool; sv_log : list sd_event }.

Definition Disk_Request (d : Disk) (now : Z) (op : disk_op) : result (option (list Z) * Disk * Z) :=
  match op with
  | DRead s => '(data, d, ticks) ← Disk_ReadRequest d now s; Ok (Some data, d, ticks)
  | DWrite s data => '(d, ticks) ← Disk_WriteRequest d now s data; Ok (None, d, ticks)
  end.

Section SynchDisk.
(** The time at which the device gets its [n]-th request. *)
Context (clock : nat -> Z).

(** The request leaves a [DiskInt] interrupt pending. *)
Definition request_step (i : nat) (op : disk_op) (next : option (list Z) -> sd_pc) (v : sd_vars)
    : result (option (sd_vars * sd_pc)) :=
  '(r, d, _) ← Disk_Request (sv_disk v) (clock (length (sv_log v))) op;
  Ok (Some (mkVars d true (sv_log v ++ [mkEvent i op r]), next r)).

(** [ReadSector] and [WriteSector] have the same body but for the request. *)
Definition SynchDisk_call (op : disk_op) (k : sd_pt) (i : nat) (todo : list disk_op) (got : list (option (list Z)))
    : instr sd_vars sd_pc :=
  match k with
  | AtAcquire => IAcquire 0 (Client AtRequest i (op :: todo) got)
  | AtRequest => IAct (request_step i op (fun r => Client AtP i (op :: todo) (got ++ [r])))
  | AtP => IP 0 (Client AtRelease i (op :: todo) got)
  | AtRelease => IRelease 0 (Client AtAcquire i todo got)
  end.

(** [Disk::HandleInterrupt] and [SynchDisk::RequestDone]. *)
Definition device_step (v : sd_vars) : result (option (sd_vars * sd_pc)) :=
  Ok (if sv_pending v
      then Some (mkVars (Disk_HandleInterrupt (sv_disk v)) false (sv_log v), DeviceDone) else None).

Definition sd_code (k : sd_pc) : instr sd_vars sd_pc :=
  match k with
  | Client _ _ [] _ => IStop
  | Client k i (op :: todo) got => SynchDisk_call op k i todo got
  | DeviceIdle => IAct device_step
  | DeviceDone => IV 0 DeviceIdle
  end.

(** [SynchDisk::SynchDisk], then one thread per program. *)
Definition SynchDisk_start (d : Disk) (progs : list (list disk_op)) : Sys sd_vars sd_pc :=
  mkSys (mkVars d false []) [0] [None] []
    (imap (fun i p => Run (Client AtAcquire i p [])) progs ++ [Run DeviceIdle]).

(** ** The invariant *)

Definition sd_locked (st : status sd_pc) : Prop :=
  match st with Run (Client k _ _ _) => k <> AtAcquire | _ => False end.

#[global] Instance sd_locked_dec st : Decision (sd_locked st).
Proof. destruct st as [[]| |]; apply _. Defined.

Definition sd_waits (st : status sd_pc) : bool := match st with Run (Client AtP _ _ _) => true | _ => false end.
Definition sd_handler (st : status sd_pc) : bool := match st with Run DeviceDone => true | _ => false end.

Definition op_valid (op : disk_op) : Prop :=
  op_ok op /\ valid_sector (match op with DRead s => s | DWrite s _ => s end).

(** The events of thread [i]. *)
Definition own (i : nat) (log : list sd_event) : list sd_event := filter (fun e => ev_thread e = i) log.

(** The requests the thread has not yet made. *)
Definition sd_rest (k : sd_pt) (todo : list disk_op) : list disk_op :=
  match k with AtAcquire | AtRequest => todo | AtP | AtRelease => tail todo end.

Definition client_ok (progs : list (list disk_op)) (log : list sd_event) (i : nat) (st : status sd_pc) : Prop :=
  match st with
  | Run (Client k i' todo got) => i' = i /\ (k <> AtAcquire -> todo <> [])
      /\ (exists p, progs !! i = Some p /\ p = (ev_op <$> own i log) ++ sd_rest k todo)
      /\ ev_answer <$> own i log = got
  | Run _ => i = length progs
  | _ => False
  end.

Definition b2z (b : bool) : Z := if b then 1 else 0.

Record sd_inv (a0 : Z -> list Z) (progs : list (list disk_op)) (s : Sys sd_vars sd_pc) : Prop := {
  sdi_lock : exists o, sy_locks s = [o] /\ locks_ok sd_locked o (sy_threads s);
  sdi_threads : forall i st, sy_threads s !! i = Some st -> client_ok progs (sv_log (sy_vars s)) i st;
  sdi_len : length (sy_threads s) = S (length progs);
  sdi_sem : exists v, sy_sems s = [v] /\ 0 <= v
    /\ v + b2z (sv_pending (sy_vars s)) + cnt sd_handler (sy_threads s) = cnt sd_waits (sy_threads s);
  sdi_active : dk_active (sv_disk (sy_vars s)) = sv_pending (sy_vars s);
  sdi_disk : disk_ok (mkSynchDisk (Disk_HandleInterrupt (sv_disk (sy_vars s))) 0);
  sdi_log : exists a, run_ops array_exec (ev_op <$> sv_log (sy_vars s)) a0 = Ok (ev_answer <$> sv_log (sy_vars s), a)
    /\ forall n, valid_sector n -> a n = disk_sector (mkSynchDisk (sv_disk (sy_vars s)) 0) n
}.


(** ** Requests *)

Lemma disk_exec_request op d now :
  disk_exec op (mkSynchDisk d now)
  = '(r, d', ticks) ← Disk_Request d now op; Ok (r, mkSynchDisk (Disk_HandleInterrupt d') (i32 (now + ticks))).
Proof.
  destruct op as [n|n data]; cbn [disk_exec Disk_Request]; unfold SynchDisk_ReadSector, SynchDisk_WriteSector;
    cbn [sy_disk sy_now].
  - by destruct (Disk_ReadRequest d now n) as [[[data d'] t]|e].
  - by destruct (Disk_WriteRequest d now n data) as [[d' t]|e].
Qed.

Lemma Request_active op d now r d' t : Disk_Request d now op = Ok (r, d', t) -> dk_active d' = true.
Proof.
  destruct op as [n|n data]; cbn [Disk_Request]; unfold Disk_ReadRequest, Disk_WriteRequest, Disk_UpdateLast, ASSERT.
  - destruct (negb _); [|done]. cbn [mbind result_bind]. destruct (_ && _); [|done]. cbn [mbind result_bind].
    destruct (sysdep_Read _ _ _); [|done]. cbn [mbind result_bind]. destruct (Disk_TimeToSeek _ _ _).
    destruct (0 <? _); [|done]. by intros [= <- <- <-].
  - destruct (negb _); [|done]. cbn [mbind result_bind]. destruct (_ && _); [|done]. cbn [mbind result_bind].
    destruct (sysdep_WriteFile _ _ _); [|done]. cbn [mbind result_bind]. destruct (Disk_TimeToSeek _ _ _).
    destruct (0 <? _); [|done]. by intros [= <- <- <-].
Qed.

Lemma idle_disk d now : dk_active d = false -> disk_ok (mkSynchDisk (Disk_HandleInterrupt d) 0) -> disk_ok (mkSynchDisk d now).
Proof. intros Ha (_ & Hrest). by split. Qed.

Lemma Disk_Request_ok op d now a :
  dk_active d = false -> disk_ok (mkSynchDisk (Disk_HandleInterrupt d) 0) -> op_valid op ->
  (forall n, valid_sector n -> a n = disk_sector (mkSynchDisk d 0) n) ->
  exists r d' t a', Disk_Request d now op = Ok (r, d', t) /\ array_exec op a = Ok (r, a')
    /\ dk_active d' = true /\ disk_ok (mkSynchDisk (Disk_HandleInterrupt d') 0)
    /\ forall n, valid_sector n -> a' n = disk_sector (mkSynchDisk d' 0) n.
Proof.
  intros Hact Hok [Hop Hv] Ha. pose proof (disk_exec_refines op (mkSynchDisk d now) a (idle_disk d now Hact Hok) Hop Ha) as Hr.
  assert (Hx : exists r a', array_exec op a = Ok (r, a'))
    by (destruct op; cbn [array_exec]; rewrite decide_True by done; by eexists _, _).
  destruct Hx as (r & a' & Hx). rewrite Hx in Hr. destruct Hr as (d1 & HE & Hok' & Ha').
  rewrite disk_exec_request in HE. destruct (Disk_Request d now op) as [[[r' d'] t]|e] eqn:ER; [|done].
  injection HE as -> <-. exists r, d', t, a'. split_and!; try done. by apply (Request_active op d now r d' t).
Qed.

(** ** Every step keeps the invariant *)

Lemma sd_waits_locked o ts : locks_ok sd_locked o ts -> cnt sd_waits ts <= 1.
Proof.
  intros Hl. destruct (Z.le_gt_cases (cnt sd_waits ts) 1) as [|Hgt]; [done|]. exfalso.
  destruct (cnt_ex sd_waits ts ltac:(lia)) as (i & st & Hi & Hst).
  assert (Hc : 0 < cnt sd_waits (<[i := Run DeviceIdle]> ts)).
  { rewrite (cnt_insert _ _ _ _ _ Hi), Hst. cbn. lia. }
  destruct (cnt_ex _ _ Hc) as (j & st' & Hj & Hst').
  apply list_lookup_insert_Some in Hj as [(_ & <- & _)|[Hne Hj]]; [done|]. apply Hne.
  apply (locks_unique sd_locked o ts i j st st' Hl Hi Hj).
  - by destruct st as [[[] | |] | |].
  - by destruct st' as [[[] | |] | |].
Qed.

(** A thread in the critical section that is not waiting: nobody waits, and the device is idle. *)
Lemma sd_quiet a0 progs s i st :
  sd_inv a0 progs s -> sy_threads s !! i = Some st -> sd_locked st -> sd_waits st = false ->
  sv_pending (sy_vars s) = false /\ cnt sd_waits (sy_threads s) = 0 /\ sy_sems s = [0]
  /\ cnt sd_handler (sy_threads s) = 0.
Proof.
  intros Hinv Hi Hl Hw. destruct (sdi_lock _ _ _ Hinv) as (o & _ & Hlk).
  assert (Hz : cnt sd_waits (sy_threads s) = 0).
  { apply cnt_zero. intros j st' Hj. destruct (sd_waits st') eqn:Hw'; [|done]. exfalso.
    assert (i = j) as ->; [|congruence]. apply (locks_unique sd_locked o _ i j st st' Hlk Hi Hj Hl).
    by destruct st' as [[[] | |] | |]. }
  destruct (sdi_sem _ _ _ Hinv) as (v & Hs & Hv & Hacc). pose proof (cnt_nonneg sd_handler (sy_threads s)).
  rewrite Hz in Hacc. unfold b2z in Hacc. destruct (sv_pending (sy_vars s)); [lia|].
  split_and!; try done; [rewrite Hs; f_equal; lia|lia].
Qed.

Lemma own_snoc i log e : own i (log ++ [e]) = own i log ++ (if decide (ev_thread e = i) then [e] else []).
Proof.
  unfold own. rewrite filter_app. by f_equal.
Qed.

Lemma client_insert progs log log' (ts : list (status sd_pc)) i st' :
  (forall j st, ts !! j = Some st -> client_ok progs log j st) ->
  (forall j, j <> i -> own j log' = own j log) -> client_ok progs log' i st' ->
  forall j st, <[i := st']> ts !! j = Some st -> client_ok progs log' j st.
Proof.
  intros Hts Hown Hst j st Hj. apply list_lookup_insert_Some in Hj as [(<- & <- & _)|[Hne Hj]]; [done|].
  pose proof (Hts j st Hj) as Hc. unfold client_ok in *. by rewrite Hown.
Qed.

(** A step of thread [i] that leaves the disk and the history alone. *)
Lemma sd_inv_quiet a0 progs disk pending log sems o conds (ts : list (status sd_pc)) i st st' v' o' :
  let s := mkSys (mkVars disk pending log) sems [o] conds ts in
  sd_inv a0 progs s -> ts !! i = Some st ->
  client_ok progs log i st' -> locks_ok sd_locked o' (<[i := st']> ts) ->
  0 <= v' -> v' + b2z pending + cnt sd_handler (<[i := st']> ts) = cnt sd_waits (<[i := st']> ts) ->
  sd_inv a0 progs (mkSys (mkVars disk pending log) [v'] [o'] conds (<[i := st']> ts)).
Proof.
  intros s Hinv Hi Hst Hl Hv Hacc. constructor; cbn [sy_vars sy_sems sy_locks sy_threads sv_log sv_pending sv_disk].
  - by exists o'.
  - apply (client_insert progs log log); [apply Hinv|done|done].
  - rewrite length_insert. apply Hinv.
  - by exists v'.
  - apply Hinv.
  - apply Hinv.
  - apply Hinv.
Qed.

Lemma request_inv a0 progs s i op todo got :
  sd_inv a0 progs s -> Forall (Forall op_valid) progs ->
  sy_threads s !! i = Some (Run (Client AtRequest i (op :: todo) got)) ->
  exists s', sync_step sd_code i s = Ok (Some s') /\ sd_inv a0 progs s'.
Proof.
  intros Hinv Hvalid Hi. destruct (sd_quiet a0 progs s i _ Hinv Hi) as (Hp & Hw & Hs & Hh); [done|done|].
  destruct (sdi_lock _ _ _ Hinv) as (o & Ho & Hlk). destruct (sdi_log _ _ _ Hinv) as (a & Hrun & Ha).
  pose proof (sdi_threads _ _ _ Hinv i _ Hi) as (_ & _ & (p & Hprog & Hpe) & Hgot).
  pose proof (sdi_active _ _ _ Hinv) as Hact. rewrite Hp in Hact. pose proof (sdi_disk _ _ _ Hinv) as Hok.
  assert (Hopv : op_valid op).
  { apply (proj1 (Forall_lookup _ _) Hvalid) in Hprog. rewrite Hpe in Hprog. apply Forall_app in Hprog as [_ Hf].
    by apply Forall_cons in Hf as [? _]. }
  pose proof (sdi_threads _ _ _ Hinv) as Hts. pose proof (sdi_len _ _ _ Hinv) as Hlen.
  destruct s as [[disk pending log] sems locks conds ts]. cbn [sy_vars sy_sems sy_locks sy_threads sv_log sv_pending sv_disk] in *.
  subst pending sems locks.
  destruct (Disk_Request_ok op disk (clock (length log)) a Hact Hok Hopv Ha) as (r & d' & t & a' & HR & HA & Hact' & Hok' & Ha').
  eexists. cbn [sync_step]. rewrite Hi. cbn [sd_code SynchDisk_call]. unfold request_step. cbn [sv_disk sv_log].
  rewrite HR. cbn [mbind result_bind]. split; [done|].
  constructor; cbn [sy_vars sy_sems sy_locks sy_threads sv_log sv_pending sv_disk]; try done.
  - exists o. split; [done|]. destruct Hlk as [Hl1 Hl2]. apply (locks_insert sd_locked o o ts i _ _ (conj Hl1 Hl2) Hi); [left; by apply (Hl1 i _ Hi)|].
    rewrite decide_True by done. by apply (Hl1 i _ Hi).
  - apply (client_insert progs log _ ts i); [done| |].
    + intros j Hj. rewrite own_snoc. cbn [ev_thread]. rewrite decide_False by congruence. by rewrite app_nil_r.
    + cbn [client_ok]. rewrite own_snoc. cbn [ev_thread]. rewrite decide_True, !fmap_app, Hgot by done.
      split_and!; [done|done| |done]. exists p. split; [done|]. rewrite Hpe. cbn [sd_rest tail fmap list_fmap ev_op].
      by rewrite <-(assoc_L (++)).
  - by rewrite length_insert.
  - exists 0. rewrite !(cnt_insert _ _ _ _ _ Hi), Hw, Hh. cbn. split_and!; done || lia.
  - exists a'. rewrite !fmap_app. cbn [fmap list_fmap ev_op ev_answer].
    by rewrite (run_ops_snoc _ _ _ _ _ _ Hrun), HA.
Qed.

Lemma device_inv a0 progs disk log sems locks conds (ts : list (status sd_pc)) i :
  sd_inv a0 progs (mkSys (mkVars disk true log) sems locks conds ts) -> ts !! i = Some (Run DeviceIdle) ->
  sd_inv a0 progs (mkSys (mkVars (Disk_HandleInterrupt disk) false log) sems locks conds (<[i := Run DeviceDone]> ts)).
Proof.
  intros [(o & Ho & Hlk) Hts Hlen (v & Hs & Hv & Hacc) Hact Hdisk (a & Hrun & Ha)] Hi.
  cbn [sy_vars sy_sems sy_locks sy_threads sv_log sv_pending sv_disk] in *.
  constructor; cbn [sy_vars sy_sems sy_locks sy_threads sv_log sv_pending sv_disk]; try done.
  - exists o. split; [done|]. apply (locks_outside sd_locked o ts i _ _ Hlk Hi); by intros [].
  - apply (client_insert progs log log); [done|done|]. exact (Hts i _ Hi).
  - by rewrite length_insert.
  - exists v. rewrite !(cnt_insert _ _ _ _ _ Hi). cbn in *. split_and!; done || lia.
  - by exists a.
Qed.

Lemma sd_inv_step a0 progs i s r :
  Forall (Forall op_valid) progs -> sd_inv a0 progs s -> sync_step sd_code i s = r ->
  match r with Ok (Some s') => sd_inv a0 progs s' | Ok None => True | Err _ => False end.
Proof.
  intros Hvalid Hinv <-. pose proof (request_inv a0 progs s i) as Hreq.
  pose proof (sdi_lock _ _ _ Hinv) as (o & Ho & Hlk). pose proof (sdi_sem _ _ _ Hinv) as (v & Hs & Hv & Hacc).
  pose proof (sdi_threads _ _ _ Hinv i) as Hts.
  destruct s as [[disk pending log] sems locks conds ts]. cbn [sy_vars sy_sems sy_locks sy_threads sv_log sv_pending sv_disk] in *.
  subst sems locks. destruct (ts !! i) as [st|] eqn:Hi; [|by cbn [sync_step]; rewrite Hi].
  pose proof (Hts st eq_refl) as Hc. destruct st as [[k i' [|op todo] got| |]|? ? ?|? ?]; try done.
  - cbn [sync_step]. by rewrite Hi.
  - destruct Hc as (-> & Hk & Hp & Hg).
    assert (Hh : forall k got', cnt sd_handler (<[i := Run (Client k i (op :: todo) got')]> ts) = cnt sd_handler ts
      /\ cnt sd_handler (<[i := Run (Client k i todo got')]> ts) = cnt sd_handler ts)
      by (intros; rewrite !(cnt_insert _ _ _ _ _ Hi); destruct k; cbn; lia).
    destruct k; [| |clear Hreq|clear Hreq].
    + cbn [sync_step]. rewrite Hi. cbn [sd_code SynchDisk_call lookup list_lookup deref mbind result_bind].
      destruct o as [j|]; [done|]. cbn [insert list_insert].
      apply (sd_inv_quiet a0 progs disk pending log [v] None conds ts i _ _ v (Some i) Hinv Hi); try done.
      * apply (locks_insert sd_locked None _ ts i _ _ Hlk Hi); [by right|]. by rewrite decide_True.
      * rewrite (proj1 (Hh _ _)), (cnt_insert _ _ _ _ _ Hi). cbn. lia.
    + destruct (Hreq op todo got Hinv Hvalid eq_refl) as (s' & -> & Hs'). done.
    + cbn [sync_step]. rewrite Hi. cbn [sd_code SynchDisk_call lookup list_lookup deref mbind result_bind].
      destruct (Z.eqb_spec v 0); [done|]. cbn [insert list_insert]. destruct Hlk as [Hl1 Hl2].
      apply (sd_inv_quiet a0 progs disk pending log [v] o conds ts i _ _ (v - 1) o Hinv Hi); [done| |lia|].
      * apply (locks_insert sd_locked o _ ts i _ _ (conj Hl1 Hl2) Hi); [left; by apply (Hl1 i _ Hi)|].
        rewrite decide_True by done. by apply (Hl1 i _ Hi).
      * rewrite (proj1 (Hh _ _)), (cnt_insert _ _ _ _ _ Hi). cbn. lia.
    + cbn [sync_step]. rewrite Hi. cbn [sd_code SynchDisk_call lookup list_lookup deref mbind result_bind].
      assert (o = Some i) as -> by by apply (proj1 Hlk i _ Hi).
      rewrite ASSERT_true by by apply bool_decide_eq_true. cbn [mbind result_bind insert list_insert].
      apply (sd_inv_quiet a0 progs disk pending log [v] (Some i) conds ts i _ _ v None Hinv Hi); [|  |done|].
      * done.
      * apply (locks_insert sd_locked (Some i) _ ts i _ _ Hlk Hi); [by left|]. rewrite decide_False; [done|]. by intros [].
      * rewrite (proj2 (Hh _ _)), (cnt_insert _ _ _ _ _ Hi). cbn. lia.
  - cbn [sync_step]. rewrite Hi. cbn [sd_code device_step sv_pending sv_disk sv_log mbind result_bind].
    destruct pending; [|done]. by apply device_inv.
  - cbn [sync_step]. rewrite Hi. cbn [sd_code lookup list_lookup deref mbind result_bind insert list_insert].
    apply (sd_inv_quiet a0 progs disk pending log [v] o conds ts i _ _ (v + 1) o Hinv Hi); [done| |lia|].
    + apply (locks_outside sd_locked o ts i _ _ Hlk Hi); by intros [].
    + rewrite !(cnt_insert _ _ _ _ _ Hi). cbn. lia.
Qed.

Lemma start_lookup d progs i st :
  sy_threads (SynchDisk_start d progs) !! i = Some st ->
  (exists p, progs !! i = Some p /\ st = Run (Client AtAcquire i p [])) \/ (i = length progs /\ st = Run DeviceIdle).
Proof.
  cbn [SynchDisk_start sy_threads]. intros [Hi|[Hl Hi]]%lookup_app_Some.
  - rewrite list_lookup_imap in Hi. destruct (progs !! i) as [p|] eqn:E; [|done]. injection Hi as <-. left. by exists p.
  - rewrite length_imap in *. apply list_lookup_singleton_Some in Hi as [Hz <-]. right. split; [lia|done].
Qed.

Lemma sd_inv_start d progs :
  disk_ok (mkSynchDisk d 0) -> sd_inv (disk_sector (mkSynchDisk d 0)) progs (SynchDisk_start d progs).
Proof.
  intros Hok. pose proof (start_lookup d progs) as Hlk. constructor.
  - exists None. split; [done|]. split; [|done]. intros i st Hi.
    destruct (Hlk i st Hi) as [(p & _ & ->)|[_ ->]]; split; try done; by intros [].
  - intros i st Hi. destruct (Hlk i st Hi) as [(p & Hp & ->)|[-> ->]]; [|done].
    cbn. split_and!; try done. by exists p.
  - cbn. rewrite length_app, length_imap. cbn. lia.
  - exists 0. split_and!; [done|done|]. rewrite !cnt_zero; [done| |];
      intros i st Hi; by destruct (Hlk i st Hi) as [(p & _ & ->)|[_ ->]].
  - apply Hok.
  - destruct Hok as (_ & Hrest). by split.
  - by exists (disk_sector (mkSynchDisk d 0)).
Qed.

(** A client with requests left. *)
Definition sd_unfinished (st : status sd_pc) : Prop :=
  match st with Run (Client _ _ (_ :: _) _) => True | _ => False end.

#[global] Instance sd_unfinished_dec st : Decision (sd_unfinished st).
Proof. destruct st as [[? ? [|? ?] ?| |]| |]; apply _. Defined.

(** As long as a client has requests left, the device, the holder of the lock or that
    client can run. *)
Lemma sd_no_deadlock a0 progs s i st :
  Forall (Forall op_valid) progs -> sd_inv a0 progs s ->
  sy_threads s !! i = Some st -> sd_unfinished st -> can_step sd_code s.
Proof.
  intros Hvalid Hinv Hi Hun.
  assert (Hgo : forall j, sync_step sd_code j s <> Ok None -> can_step sd_code s).
  { intros j. apply (can_step_by sd_code (sd_inv a0 progs) s j Hinv). intros ? ? ? ?. by apply sd_inv_step. }
  pose proof (sdi_lock _ _ _ Hinv) as (o & Ho & Hl1 & Hl2). pose proof (sdi_sem _ _ _ Hinv) as (v & Hs & Hv & Hacc).
  pose proof (sdi_threads _ _ _ Hinv) as Hts. pose proof (sdi_len _ _ _ Hinv) as Hlen.
  destruct s as [[disk pending log] sems locks conds ts]. cbn [sy_vars sy_sems sy_locks sy_threads sv_log sv_pending sv_disk] in *.
  subst sems locks. destruct (lookup_lt_is_Some_2 ts (length progs)) as [dst Hd]; [lia|].
  pose proof (Hts _ _ Hd) as Hdc. destruct dst as [[k j todo got| |]|? ? ?|? ?]; try done.
  { destruct Hdc as (-> & _ & (p & Hp & _) & _). apply lookup_lt_Some in Hp. lia. }
  2: { apply (Hgo (length progs)). cbn [sync_step]. rewrite Hd. done. }
  destruct pending; [apply (Hgo (length progs)); cbn [sync_step]; rewrite Hd; done|].
  assert (Hhz : cnt sd_handler ts = 0).
  { apply cnt_zero. intros j stj Hj. pose proof (Hts j stj Hj) as Hc. destruct stj as [[]| |]; try done.
    cbn in Hc. subst j. rewrite Hd in Hj. by injection Hj as [=]. }
  destruct o as [j|].
  - destruct (Hl2 j eq_refl) as [stj Hj]. pose proof (proj2 (Hl1 j stj Hj) eq_refl) as Hlj.
    apply (Hgo j). cbn [sync_step]. rewrite Hj. pose proof (Hts j stj Hj) as Hc.
    destruct stj as [[[] j' [|op todo] got| |]| |]; try done; destruct Hc as (-> & Hk & _); try (by destruct Hk).
    + cbn [sd_code SynchDisk_call]. unfold request_step. by destruct (Disk_Request _ _ _) as [[[]]|].
    + cbn [sd_code SynchDisk_call lookup list_lookup deref mbind result_bind].
      pose proof (cnt_at sd_waits ts j _ Hj eq_refl). cbn in Hacc. by destruct (Z.eqb_spec v 0); [lia|].
    + cbn [sd_code SynchDisk_call lookup list_lookup deref mbind result_bind]. by rewrite ASSERT_true by by apply bool_decide_eq_true.
  - apply (Hgo i). cbn [sync_step]. rewrite Hi. destruct st as [[k j' [|op todo] got| |]| |]; try done.
    destruct k; [done|..]; by specialize (proj1 (Hl1 i _ Hi) ltac:(done)).
Qed.

(** ** Termination *)

Definition sd_weight (st : status sd_pc) : nat :=
  match st with
  | Run (Client AtAcquire _ todo _) => 8 * length todo
  | Run (Client AtRequest _ todo _) => 8 * length todo - 1
  | Run (Client AtP _ todo _) => 8 * length todo - 4
  | Run (Client AtRelease _ todo _) => 8 * length todo - 5
  | Run DeviceDone => 1
  | _ => 0
  end.

Definition sd_measure (s : Sys sd_vars sd_pc) : nat :=
  (sum_list_with sd_weight (sy_threads s) + if sv_pending (sy_vars s) then 2 else 0)%nat.

Lemma sd_decreases a0 progs i s s' :
  sd_inv a0 progs s -> sync_step sd_code i s = Ok (Some s') -> (sd_measure s' < sd_measure s)%nat.
Proof.
  intros Hinv. pose proof (sd_quiet a0 progs s i) as Hq. pose proof (sdi_threads _ _ _ Hinv i) as Hts.
  destruct s as [[disk pending log] sems locks conds ts]. unfold sd_measure.
  cbn [sync_step sy_vars sy_threads sv_pending sv_log] in *. destruct (ts !! i) as [st|] eqn:Hi; [|done].
  pose proof (Hts st eq_refl) as Hc. pose proof (fun st' => sum_insert sd_weight ts i st st' Hi) as Hsum.
  destruct st as [[k i' [|op todo] got| |]|? ? ?|? ?]; try done.
  - destruct k; cbn [sd_code SynchDisk_call].
    + destruct (deref _) as [[j|]|]; cbn [mbind result_bind]; try done. intros [= <-].
      cbn [sy_vars sy_threads sv_pending]. specialize (Hsum (Run (Client AtRequest i' (op :: todo) got))).
      cbn [sd_weight length] in Hsum. lia.
    + unfold request_step. destruct (Disk_Request _ _ _) as [[[r d'] t]|]; cbn [mbind result_bind]; [|done].
      intros [= <-]. cbn [sy_vars sy_threads sv_pending]. destruct (Hq _ Hinv eq_refl) as (-> & _); [done|done|].
      specialize (Hsum (Run (Client AtP i' (op :: todo) (got ++ [r])))). cbn [sd_weight length] in Hsum. lia.
    + destruct (deref _) as [v|]; cbn [mbind result_bind]; [|done]. destruct (v =? 0); [done|]. intros [= <-].
      cbn [sy_vars sy_threads sv_pending]. specialize (Hsum (Run (Client AtRelease i' (op :: todo) got))).
      cbn [sd_weight length] in Hsum. lia.
    + destruct (deref _) as [o|]; cbn [mbind result_bind]; [|done]. unfold ASSERT.
      destruct (bool_decide _); cbn [mbind result_bind]; [|done]. intros [= <-].
      cbn [sy_vars sy_threads sv_pending]. specialize (Hsum (Run (Client AtAcquire i' todo got))).
      cbn [sd_weight length] in Hsum. lia.
  - cbn [sd_code device_step sv_pending mbind result_bind]. destruct pending; [|done]. intros [= <-].
    cbn [sy_vars sy_threads sv_pending]. specialize (Hsum (Run DeviceDone)). cbn [sd_weight] in Hsum. lia.
  - cbn [sd_code]. destruct (deref _) as [v|]; cbn [mbind result_bind]; [|done]. intros [= <-].
    cbn [sy_vars sy_threads sv_pending]. specialize (Hsum (Run DeviceIdle)). cbn [sd_weight] in Hsum. lia.
Qed.

Lemma sd_reach d progs n s :
  disk_ok (mkSynchDisk d 0) -> Forall (Forall op_valid) progs ->
  nsteps (sstep sd_code) n (SynchDisk_start d progs) s ->
  sd_inv (disk_sector (mkSynchDisk d 0)) progs s
  /\ (n + sd_measure s <= sd_measure (SynchDisk_start d progs))%nat.
Proof.
  intros Hok Hvalid Hn. pose proof (sd_inv_start d progs Hok) as H0. revert H0.
  generalize (disk_sector (mkSynchDisk d 0)). intros a0 H0.
  induction Hn as [s0|n s0 s1 s Hst Hn IH]; [split; [done|lia]|]. destruct Hst as [i s0 s1 Hs].
  pose proof (sd_inv_step a0 progs i s0 _ Hvalid H0 Hs) as H1. cbn in H1.
  pose proof (sd_decreases a0 progs i s0 s1 H0 Hs). destruct (IH H1) as [? ?]. split; [done|lia].
Qed.

Lemma start_measure d progs :
  sd_measure (SynchDisk_start d progs) = (8 * sum_list_with length progs)%nat.
Proof.
  unfold sd_measure, SynchDisk_start. cbn [sy_threads sy_vars sv_pending]. rewrite sum_list_with_app. cbn [sum_list_with sd_weight].
  assert (Hs : forall (l : list (list disk_op)) (f : nat -> nat),
    sum_list_with sd_weight (imap (fun i p => Run (Client AtAcquire (f i) p [])) l) = (8 * sum_list_with length l)%nat).
  { induction l as [|p l IH]; intros f; [done|]. cbn [imap sum_list_with sd_weight].
    change (imap _ l) with (imap (fun i p => Run (Client AtAcquire (f (S i)) p [])) l). rewrite (IH (fun i => f (S i))). lia. }
  rewrite (Hs progs (fun i => i)). lia.
Qed.

Lemma progs_client a0 progs s i p :
  sd_inv a0 progs s -> progs !! i = Some p -> exists k todo got,
    sy_threads s !! i = Some (Run (Client k i todo got)) /\ (k <> AtAcquire -> todo <> []).
Proof.
  intros Hinv Hp. pose proof (sdi_len _ _ _ Hinv) as Hlen. pose proof (lookup_lt_Some _ _ _ Hp) as Hlt.
  destruct (lookup_lt_is_Some_2 (sy_threads s) i) as [st Hi]; [lia|].
  pose proof (sdi_threads _ _ _ Hinv i st Hi) as Hc.
  destruct st as [[k i' todo got| |]|? ? ?|? ?]; try done; [|cbn in Hc; lia..]. destruct Hc as (-> & Hk & _). eauto.
Qed.

(** C11.  Any number of threads may use the synchronous disk at once, in any interleaving
    with each other and with the disk's interrupts.  The disk never gets a request while
    one is in progress (no assertion fails); the requests take effect in one order that
    respects the order of each thread, and every thread gets the answers an array of
    sectors gives in that order; no interleaving has more than eight steps per request;
    and it only ends when every thread has all its answers. *)
Theorem synchdisk_linearizable (progs : list (list disk_op)) (d : Disk) (n : nat) (s : Sys sd_vars sd_pc) :
  disk_ok (mkSynchDisk d 0) -> Forall (Forall op_valid) progs ->
  nsteps (sstep sd_code) n (SynchDisk_start d progs) s ->
  let log := sv_log (sy_vars s) in
  (forall i e, sync_step sd_code i s <> Err e)
  /\ (exists a, run_ops array_exec (ev_op <$> log) (disk_sector (mkSynchDisk d 0)) = Ok (ev_answer <$> log, a))
  /\ (forall i k j todo got, sy_threads s !! i = Some (Run (Client k j todo got)) ->
        got = ev_answer <$> own i log /\ progs !! i = Some ((ev_op <$> own i log) ++ sd_rest k todo))
  /\ (n <= 8 * sum_list_with length progs)%nat
  /\ (can_step sd_code s \/ forall i p, progs !! i = Some p ->
        exists got, sy_threads s !! i = Some (Run (Client AtAcquire i [] got))).
Proof.
  intros Hok Hvalid Hn log. destruct (sd_reach d progs n s Hok Hvalid Hn) as [Hinv Hm]. rewrite start_measure in Hm.
  split_and!.
  - intros i e He. by apply (sd_inv_step _ progs i s _ Hvalid Hinv) in He.
  - destruct (sdi_log _ _ _ Hinv) as (a & Hrun & _). by exists a.
  - intros i k j todo got Hi. destruct (sdi_threads _ _ _ Hinv i _ Hi) as (_ & _ & (p & Hp & Hpe) & Hg).
    split; [by symmetry|]. by rewrite Hp, Hpe.
  - lia.
  - destruct (decide (Exists sd_unfinished (sy_threads s))) as [He|He].
    + left. apply Exists_exists in He as (st & Hin & Hun). apply list_elem_of_lookup in Hin as [i Hi].
      by apply (sd_no_deadlock _ progs s i st Hvalid Hinv).
    + right. intros i p Hp. destruct (progs_client _ progs s i p Hinv Hp) as (k & todo & got & Hi & Hk).
      assert (todo = []) as ->.
      { destruct todo; [done|]. destruct He. apply Exists_exists. eexists. split; [by eapply list_elem_of_lookup_2|done]. }
      exists got. destruct k; [done|by destruct Hk..].
Qed.
End SynchDisk.

(** Two threads: one writes sector 7 and reads it back, the other reads it. *)
Definition two_programs : list (list disk_op) := [[DWrite 7 (replicate 128 1); DRead 7]; [DRead 7]].

Lemma two_programs_ok : Forall (Forall op_valid) two_programs.
Proof. repeat (constructor || apply Forall_replicate); done. Qed.

(** Thread 0 gets the lock, writes and waits; the interrupt; thread 0 goes on, thread 1
    reads, thread 0 reads. *)
Definition two_schedule : list nat := [0; 0; 2; 2; 0; 0; 1; 1; 2; 2; 1; 1; 0; 0; 2; 2; 0; 0]%nat.

Definition blank_file : Disk := sy_disk blank_disk.

Lemma blank_file_ok : disk_ok (mkSynchDisk blank_file 0).
Proof. exact blank_disk_ok. Qed.

Definition two_run : result (Sys sd_vars sd_pc) :=
  strict_run (sd_code (fun n => 1000 * Z.of_nat n)) two_schedule (SynchDisk_start blank_file two_programs).

Example two_run_answers :
  (s ← two_run; Ok (sy_threads s))
  = Ok [Run (Client AtAcquire 0 [] [None; Some (replicate 128 1)]);
        Run (Client AtAcquire 1 [] [Some (replicate 128 1)]); Run DeviceIdle].
Proof. vm_compute. reflexivity. Qed.

Lemma two_run_steps : exists s,
  nsteps (sstep (sd_code (fun n => 1000 * Z.of_nat n))) (length two_schedule) (SynchDisk_start blank_file two_programs) s.
Proof. apply strict_run_exists. vm_compute. reflexivity. Qed.

Lemma synchdisk_linearizable_witness : exists (s : Sys sd_vars sd_pc) a,
  run_ops array_exec (ev_op <$> sv_log (sy_vars s)) (disk_sector (mkSynchDisk blank_file 0))
    = Ok (ev_answer <$> sv_log (sy_vars s), a)
  /\ (length two_schedule <= 8 * sum_list_with length two_programs)%nat.
Proof.
  destruct two_run_steps as [s Hs].
  destruct (synchdisk_linearizable _ two_programs blank_file (length two_schedule) s
    blank_file_ok two_programs_ok Hs) as (_ & [a Ha] & _ & Hn & _).
  exists s, a. split; [exact Ha|exact Hn].
Defined.
