(* ===== verification/ThreadTest.v ===== *)
(** * threads/threadtest.cc: the classical synchronisation problems

    Producers and consumers with semaphores and with condition variables, the barrier, and
    readers and writers, as programs of [SyncProg.v], for any number of threads (the barrier
    for its five).  The theorems hold for every interleaving.  Statements that only print
    are left out, and so are the Unix sleeps. *)

From S2P Require Import Prelude SyncProg.

Definition N : Z := 1024.

(** ** Producers and consumers with semaphores *)

(** The program points of [Producer] and [Customer]: before [empty->P()], and so on. *)
Inductive sb_pc := PEmpty | PMutex | PBody | PVMutex | PVFull | CFull | CMutex | CBody | CVMutex | CVEmpty.
#[global] Instance sb_pc_eq_dec : EqDecision sb_pc.
Proof. solve_decision. Defined.

(** Semaphores: 0 is [empty], 1 [mutex], 2 [full]; the variable is [msgQueue]. *)
Definition Producer (k : sb_pc) : instr Z sb_pc :=
  match k with
  | PEmpty => IP 0 PMutex
  | PMutex => IP 1 PBody
  | PBody => IDo (fun msgQueue => (if N <=? msgQueue then msgQueue else i32 (msgQueue + 1), PVMutex))
  | PVMutex => IV 1 PVFull
  | PVFull => IV 2 PEmpty
  | _ => IStop
  end.

Definition Customer (k : sb_pc) : instr Z sb_pc :=
  match k with
  | CFull => IP 2 CMutex
  | CMutex => IP 1 CBody
  | CBody => IDo (fun msgQueue => (if msgQueue <=? 0 then msgQueue else i32 (msgQueue - 1), CVMutex))
  | CVMutex => IV 1 CVEmpty
  | CVEmpty => IV 0 CFull
  | _ => IStop
  end.

Definition sb_is_producer (k : sb_pc) : bool :=
  match k with PEmpty | PMutex | PBody | PVMutex | PVFull => true | _ => false end.

Definition sb_code (k : sb_pc) : instr Z sb_pc := if sb_is_producer k then Producer k else Customer k.

(** The test itself forks two producers and one consumer. *)
Definition ThreadProducerConsumerTest (producers consumers : nat) : Sys Z sb_pc :=
  mkSys 0 [N; 1; 0] [] [] (replicate producers (Run PEmpty) ++ replicate consumers (Run CFull)).

Definition sb_pcn (k : sb_pc) : nat :=
  match k with
  | PEmpty => 0 | PMutex => 1 | PBody => 2 | PVMutex => 3 | PVFull => 4
  | CFull => 5 | CMutex => 6 | CBody => 7 | CVMutex => 8 | CVEmpty => 9
  end.

Definition sb_at (n : nat) (st : status sb_pc) : bool := match st with Run k => Nat.eqb (sb_pcn k) n | _ => false end.

Definition sb_in_body (st : status sb_pc) : bool :=
  match st with Run (PBody | PVMutex | CBody | CVMutex) => true | _ => false end.

Definition sb_producer (st : status sb_pc) : bool := match st with Run k => sb_is_producer k | _ => false end.
Definition sb_consumer (st : status sb_pc) : bool := match st with Run k => negb (sb_is_producer k) | _ => false end.

(** The accounts of the three semaphores, in terms of how many threads are where. *)
Record sb_inv (p c : Z) (s : Sys Z sb_pc) : Prop := {
  sb_p : cnt sb_producer (sy_threads s) = p;
  sb_c : cnt sb_consumer (sy_threads s) = c;
  sb_run : forall i st, sy_threads s !! i = Some st -> exists k, st = Run k;
  sb_sems : exists empty mutex full, sy_sems s = [empty; mutex; full] /\ 0 <= empty /\ 0 <= mutex /\ 0 <= full
    /\ mutex + cnt (sb_at 2) (sy_threads s) + cnt (sb_at 3) (sy_threads s) + cnt (sb_at 7) (sy_threads s) + cnt (sb_at 8) (sy_threads s) = 1
    /\ empty + full + cnt (sb_at 1) (sy_threads s) + cnt (sb_at 2) (sy_threads s) + cnt (sb_at 3) (sy_threads s) + cnt (sb_at 4) (sy_threads s)
       + cnt (sb_at 6) (sy_threads s) + cnt (sb_at 7) (sy_threads s) + cnt (sb_at 8) (sy_threads s) + cnt (sb_at 9) (sy_threads s) = N
    /\ sy_vars s = full + cnt (sb_at 3) (sy_threads s) + cnt (sb_at 4) (sy_threads s) + cnt (sb_at 6) (sy_threads s) + cnt (sb_at 7) (sy_threads s)
}.

Lemma sb_inv_start p c : sb_inv (Z.of_nat p) (Z.of_nat c) (ThreadProducerConsumerTest p c).
Proof.
  constructor; cbn; [rewrite cnt_app, !cnt_replicate; cbn; lia..| |].
  - intros i st Hi. apply lookup_app_Some in Hi as [Hi|[_ Hi]]; apply lookup_replicate in Hi as [-> _]; by eexists.
  - exists N, 1, 0. rewrite !cnt_app, !cnt_replicate. cbn. unfold N. repeat split; lia.
Qed.

Lemma sb_counts ts : forall n, 0 <= cnt (sb_at n) ts.
Proof. intros. apply cnt_nonneg. Qed.

(** What the counts say about the thread that runs. *)
Lemma sb_body_room p c s i : sb_inv p c s -> sy_threads s !! i = Some (Run PBody) -> 0 <= sy_vars s < N.
Proof.
  intros [_ _ _ (e & m & f & _ & He & Hm & Hf & Hmx & HN & Hv)] Hi. pose proof (sb_counts (sy_threads s)) as Hc.
  pose proof (cnt_at (sb_at 2) _ _ _ Hi eq_refl).
  pose proof (Hc 1%nat); pose proof (Hc 3%nat); pose proof (Hc 4%nat); pose proof (Hc 6%nat); pose proof (Hc 7%nat);
    pose proof (Hc 8%nat); pose proof (Hc 9%nat). lia.
Qed.

Lemma sb_body_item p c s i : sb_inv p c s -> sy_threads s !! i = Some (Run CBody) -> 0 < sy_vars s <= N.
Proof.
  intros [_ _ _ (e & m & f & _ & He & Hm & Hf & Hmx & HN & Hv)] Hi. pose proof (sb_counts (sy_threads s)) as Hc.
  pose proof (cnt_at (sb_at 7) _ _ _ Hi eq_refl).
  pose proof (Hc 1%nat); pose proof (Hc 2%nat); pose proof (Hc 3%nat); pose proof (Hc 4%nat); pose proof (Hc 6%nat);
    pose proof (Hc 8%nat); pose proof (Hc 9%nat). lia.
Qed.

Lemma sb_run_insert (ts : list (status sb_pc)) i k :
  (forall j st, ts !! j = Some st -> exists k', st = Run k') ->
  forall j st, <[i := Run k]> ts !! j = Some st -> exists k', st = Run k'.
Proof. intros H j st Hj. apply list_lookup_insert_Some in Hj as [(_ & <- & _)|[_ Hj]]; [by eexists|by apply (H j)]. Qed.

Lemma sb_inv_step p c i s r : sb_inv p c s -> sync_step sb_code i s = r -> match r with Ok (Some s') => sb_inv p c s' | Ok None => True | Err _ => False end.
Proof.
  intros Hinv <-. pose proof (sb_body_room p c s i Hinv) as HP. pose proof (sb_body_item p c s i Hinv) as HC.
  destruct Hinv as [Hpp Hcc Hrun (e & m & f & Hs & He & Hm & Hf & Hmx & HN & Hv)].
  destruct s as [v sems locks conds ts]. cbn [sy_sems sy_threads sy_vars] in *. subst sems. cbn [sync_step].
  destruct (ts !! i) as [st|] eqn:Hi; [|done]. destruct (Hrun i st Hi) as [k ->].
  destruct k; cbn [sb_code sb_is_producer Producer Customer lookup list_lookup deref mbind result_bind];
    try (match goal with |- context [?x =? 0] => destruct (Z.eqb_spec x 0) end; [exact I|]);
    try specialize (HP eq_refl); try specialize (HC eq_refl);
    try (destruct (Z.leb_spec N v); [lia|]); try (destruct (Z.leb_spec v 0); [lia|]); cbv beta iota.
  all: constructor; cbn [sy_threads sy_sems sy_vars];
    [rewrite (cnt_insert _ _ _ _ _ Hi); cbn [sb_producer sb_consumer sb_is_producer negb]; lia..|by apply sb_run_insert|].
  all: cbn [insert list_insert]; do 3 eexists; split; [reflexivity|].
  all: rewrite !(cnt_insert _ _ _ _ _ Hi); cbn [sb_at sb_pcn Nat.eqb]; rewrite ?i32_id by (unfold in_i32, N in *; lia).
  all: repeat split; lia.
Qed.

Lemma sb_reachable p c s : rtc (sstep sb_code) (ThreadProducerConsumerTest p c) s -> sb_inv (Z.of_nat p) (Z.of_nat c) s.
Proof. apply (reachable_inv sb_code); [apply sb_inv_start|apply sb_inv_step]. Qed.

Lemma sb_in_body_cnt ts : cnt sb_in_body ts = cnt (sb_at 2) ts + cnt (sb_at 3) ts + cnt (sb_at 7) ts + cnt (sb_at 8) ts.
Proof. induction ts as [|[[]|c l k|l k] ts IH]; cbn; rewrite ?IH; lia. Qed.

(** Between the semaphores. *)
Definition sb_midway (st : status sb_pc) : bool := match st with Run (PMutex | PVFull | CMutex | CVEmpty) => true | _ => false end.

Lemma sb_midway_cnt ts : cnt sb_midway ts = cnt (sb_at 1) ts + cnt (sb_at 4) ts + cnt (sb_at 6) ts + cnt (sb_at 9) ts.
Proof. induction ts as [|[[]|c l k|l k] ts IH]; cbn; rewrite ?IH; lia. Qed.

(** A thread that is not waiting for a semaphore can run. *)
Lemma sb_runs p c s i k : sb_inv p c s -> sy_threads s !! i = Some (Run k) ->
  match k, sy_sems s with
  | PEmpty, [e; _; _] => e <> 0 | CFull, [_; _; f] => f <> 0 | (PMutex | CMutex), [_; m; _] => m <> 0 | _, _ => True
  end -> can_step sb_code s.
Proof.
  intros Hinv Hi Hk. apply (can_step_by sb_code (sb_inv p c) s i Hinv); [apply sb_inv_step|].
  destruct Hinv as [_ _ _ (e & m & f & Hs & _)]. destruct s as [v sems locks conds ts]. cbn [sy_sems sy_threads] in *. subst sems.
  cbn [sync_step]. rewrite Hi.
  destruct k; cbn [sb_code sb_is_producer Producer Customer lookup list_lookup deref mbind result_bind];
    try (match goal with |- context [?x =? 0] => destruct (Z.eqb_spec x 0) end); done.
Qed.

Lemma sb_no_deadlock p c s : sb_inv p c s -> 0 < p -> 0 < c -> can_step sb_code s.
Proof.
  intros Hinv Hp Hcs. pose proof Hinv as [Hpp Hcc Hrun (e & m & f & Hs & He & Hm & Hf & Hmx & HN & Hv)].
  assert (Hat : forall q, 0 < cnt q (sy_threads s) -> exists i k, sy_threads s !! i = Some (Run k) /\ q (Run k) = true).
  { intros q Hq. destruct (cnt_ex _ _ Hq) as (n & st & Hn & Hst). destruct (Hrun n st Hn) as [k ->]. by exists n, k. }
  pose proof (cnt_nonneg sb_in_body (sy_threads s)) as Hb0. pose proof (sb_in_body_cnt (sy_threads s)) as Hbc.
  destruct (decide (0 < cnt sb_in_body (sy_threads s))) as [Hb|Hb].
  { destruct (Hat _ Hb) as (n & k & Hn & Hk). apply (sb_runs p c s n k Hinv Hn). by destruct k. }
  destruct (Hat sb_producer) as (i & k & Hi & Hk); [lia|]. destruct (Hat sb_consumer) as (j & k' & Hj & Hk'); [lia|].
  destruct (decide (e = 0)) as [He0|He0]; [|apply (sb_runs p c s i k Hinv Hi); rewrite Hs; destruct k; done || lia].
  destruct (decide (f = 0)) as [Hf0|Hf0]; [|apply (sb_runs p c s j k' Hinv Hj); rewrite Hs; destruct k'; done || lia].
  assert (Hm1 : m <> 0) by lia.
  destruct (decide (k = PEmpty)) as [->|]; [|apply (sb_runs p c s i k Hinv Hi); rewrite Hs; destruct k; done].
  destruct (decide (0 < cnt sb_midway (sy_threads s))) as [Hw|Hw].
  { destruct (Hat _ Hw) as (n & kn & Hn & Hkn). apply (sb_runs p c s n kn Hinv Hn). rewrite Hs. by destruct kn. }
  pose proof (sb_midway_cnt (sy_threads s)). unfold N in HN. lia.
Qed.

(** C16.  Producers and consumers with semaphores, for any number of both and any
    interleaving: [msgQueue] stays between 0 and N; at most one thread is between the
    two calls on [mutex]; a producer in the body always finds room and a consumer always
    an item (the branches that report a full or an empty buffer are never taken); and as
    long as there are a producer and a consumer, some thread can run. *)
Theorem producer_consumer (producers consumers : nat) (s : Sys Z sb_pc) :
  rtc (sstep sb_code) (ThreadProducerConsumerTest producers consumers) s ->
  0 <= sy_vars s <= N
  /\ cnt sb_in_body (sy_threads s) <= 1
  /\ (forall i, sy_threads s !! i = Some (Run PBody) -> sy_vars s < N)
  /\ (forall i, sy_threads s !! i = Some (Run CBody) -> 0 < sy_vars s)
  /\ ((0 < producers)%nat -> (0 < consumers)%nat -> can_step sb_code s).
Proof.
  intros Hr. pose proof (sb_reachable _ _ _ Hr) as Hinv.
  pose proof Hinv as [_ _ Hrun (e & m & f & Hs & He & Hm & Hf & Hmx & HN & Hv)].
  pose proof (sb_counts (sy_threads s)) as Hc. split; [|split; [|split; [|split]]].
  - pose proof (Hc 1%nat); pose proof (Hc 2%nat); pose proof (Hc 3%nat); pose proof (Hc 4%nat); pose proof (Hc 6%nat);
      pose proof (Hc 7%nat); pose proof (Hc 8%nat); pose proof (Hc 9%nat). lia.
  - rewrite sb_in_body_cnt. lia.
  - intros i Hi. by apply (sb_body_room _ _ s i Hinv).
  - intros i Hi. by apply (sb_body_item _ _ s i Hinv).
  - intros Hp Hcs. apply (sb_no_deadlock _ _ s Hinv); lia.
Qed.

(** Two producers and a consumer; a schedule that leads into the body of a producer. *)
Lemma producer_consumer_witness :
  let s := mkSys 0 [1022; 0; 0] [] [] [Run PBody; Run PMutex; Run CFull] in
  0 <= sy_vars s <= N
  /\ cnt sb_in_body (sy_threads s) <= 1
  /\ (forall i, sy_threads s !! i = Some (Run PBody) -> sy_vars s < N)
  /\ (forall i, sy_threads s !! i = Some (Run CBody) -> 0 < sy_vars s)
  /\ ((0 < 2)%nat -> (0 < 1)%nat -> can_step sb_code s).
Proof.
  apply (producer_consumer 2 1). eapply rtc_l; [by apply (SStep sb_code 0)|]. eapply rtc_l; [by apply (SStep sb_code 1)|].
  eapply rtc_l; [by apply (SStep sb_code 0)|]. apply rtc_refl.
Defined.

(** ** Producers and consumers with condition variables *)

Inductive cb_pt := AtAcquire | AtWhile | AtWait | AtBody | AtSignal | AtRelease.
#[global] Instance cb_pt_eq_dec : EqDecision cb_pt.
Proof. solve_decision. Defined.

(** A program point of a producer ([true]) or consumer ([false]). *)
Abbreviation cb_pc := (bool * cb_pt)%type.

(** Lock 0 is [pcLock], condition 0 [condc], condition 1 [condp]; the variable is [shareNum]. *)
Definition Producer1 (k : cb_pt) : instr Z cb_pc :=
  match k with
  | AtAcquire => IAcquire 0 (true, AtWhile)
  | AtWhile => IDo (fun shareNum => (shareNum, (true, if N <=? shareNum then AtWait else AtBody)))
  | AtWait => IWait 1 0 (true, AtWhile)
  | AtBody => IDo (fun shareNum => (i32 (shareNum + 1), (true, AtSignal)))
  | AtSignal => ISignal 0 0 (true, AtRelease)
  | AtRelease => IRelease 0 (true, AtAcquire)
  end.

Definition Customer1 (k : cb_pt) : instr Z cb_pc :=
  match k with
  | AtAcquire => IAcquire 0 (false, AtWhile)
  | AtWhile => IDo (fun shareNum => (shareNum, (false, if shareNum <=? 0 then AtWait else AtBody)))
  | AtWait => IWait 0 0 (false, AtWhile)
  | AtBody => IDo (fun shareNum => (i32 (shareNum - 1), (false, AtSignal)))
  | AtSignal => ISignal 1 0 (false, AtRelease)
  | AtRelease => IRelease 0 (false, AtAcquire)
  end.

Definition cb_code (k : cb_pc) : instr Z cb_pc := if k.1 then Producer1 k.2 else Customer1 k.2.

(** The test itself forks two of each. *)
Definition ThreadProducerConsumerTest1 (producers consumers : nat) : Sys Z cb_pc :=
  mkSys 0 [] [None] [[]; []] (replicate producers (Run (true, AtAcquire)) ++ replicate consumers (Run (false, AtAcquire))).

(** The two sides are mirror images. *)
Definition cb_cond (b : bool) : nat := if b then 1 else 0.
Definition cb_full (b : bool) (n : Z) : bool := if b then N <=? n else n <=? 0.
Definition cb_side (st : status cb_pc) : bool := match st with Run k | Asleep _ _ k | Woken _ k => k.1 end.
Definition cb_asleep (b : bool) : status cb_pc := Asleep (cb_cond b) 0 (b, AtWhile).

Definition cb_locked (st : status cb_pc) : Prop := match st with Run (_, k) => k <> AtAcquire | _ => False end.

#[global] Instance cb_locked_dec st : Decision (cb_locked st).
Proof. destruct st as [[]| |]; apply _. Defined.

Definition cb_status_ok (n : Z) (st : status cb_pc) : Prop :=
  match st with
  | Run (b, AtWait) => cb_full b n = true
  | Run (b, AtBody) => cb_full b n = false
  | Run _ => True
  | Asleep c l (b, k) => c = cb_cond b /\ l = 0%nat /\ k = AtWhile
  | Woken l (_, k) => l = 0%nat /\ k = AtWhile
  end.

Abbreviation cb_locks_ok := (locks_ok cb_locked).

Definition cb_queues_ok (cs : list (list nat)) (ts : list (status cb_pc)) : Prop :=
  length cs = 2%nat /\ forall b q, cs !! cb_cond b = Some q -> NoDup q /\ forall i, i ∈ q <-> ts !! i = Some (cb_asleep b).

(** When all threads of a side sleep (and there are some), the buffer is full for them, or
    a thread of the other side is about to signal. *)
Definition cb_wakeup_ok (n : Z) (ts : list (status cb_pc)) : Prop :=
  forall b i, ts !! i = Some (cb_asleep b) ->
    (forall j st, ts !! j = Some st -> cb_side st = b -> st = cb_asleep b) ->
    cb_full b n = true \/ exists j, ts !! j = Some (Run (negb b, AtSignal)).

Record cb_inv (sides : list bool) (s : Sys Z cb_pc) : Prop := {
  cb_sides : cb_side <$> sy_threads s = sides;
  cb_range : 0 <= sy_vars s <= N;
  cb_wf : forall i st, sy_threads s !! i = Some st -> cb_status_ok (sy_vars s) st;
  cb_lock : exists o, sy_locks s = [o] /\ cb_locks_ok o (sy_threads s);
  cb_queues : cb_queues_ok (sy_conds s) (sy_threads s);
  cb_wakeup : cb_wakeup_ok (sy_vars s) (sy_threads s)
}.

Section CondSteps.
Context (sides : list bool) (n : Z) (sems : list Z) (cs : list (list nat)) (ts : list (status cb_pc)) (i : nat).
Implicit Types (st : status cb_pc) (b : bool) (k : cb_pt).

Lemma cb_side_insert st st' : ts !! i = Some st -> cb_side st' = cb_side st -> cb_side <$> <[i := st']> ts = cb_side <$> ts.
Proof.
  intros Hi Hs. rewrite list_fmap_insert, Hs. apply list_insert_id. by rewrite list_lookup_fmap, Hi.
Qed.

Lemma cb_wf_insert n' st' :
  (forall j st, ts !! j = Some st -> cb_status_ok n st) -> cb_status_ok n' st' ->
  (n' = n \/ forall j st, ts !! j = Some st -> j <> i -> ~ cb_locked st) ->
  forall j st, <[i := st']> ts !! j = Some st -> cb_status_ok n' st.
Proof.
  intros Hwf Hst Hn j st Hj. apply list_lookup_insert_Some in Hj as [(_ & <- & _)|[Hne Hj]]; [done|].
  pose proof (Hwf j st Hj) as Hok. destruct Hn as [->|Hn]; [done|]. pose proof (Hn j st Hj ltac:(congruence)) as Hl.
  destruct st as [[b []]|c l [b k]|l [b k]]; cbn in *; try done; exfalso; by apply Hl.
Qed.

Lemma cb_asleep_insert st st' b j :
  ts !! i = Some st -> (forall b', st <> cb_asleep b') -> (forall b', st' <> cb_asleep b') ->
  <[i := st']> ts !! j = Some (cb_asleep b) <-> ts !! j = Some (cb_asleep b).
Proof.
  intros Hi Hst Hst'. pose proof (lookup_lt_Some _ _ _ Hi). destruct (decide (j = i)) as [->|Hne].
  - rewrite list_lookup_insert_eq by done. rewrite Hi. split; intros [=E]; exfalso; [by apply (Hst' b)|by apply (Hst b)].
  - by rewrite list_lookup_insert_ne by done.
Qed.

Lemma cb_queues_insert st st' :
  cb_queues_ok cs ts -> ts !! i = Some st -> (forall b', st <> cb_asleep b') -> (forall b', st' <> cb_asleep b') ->
  cb_queues_ok cs (<[i := st']> ts).
Proof.
  intros [Hl Hq] Hi Hst Hst'. split; [done|]. intros b q Hb. destruct (Hq b q Hb) as [Hnd Hin]. split; [done|].
  intros j. by rewrite Hin, (cb_asleep_insert st st').
Qed.

(** The other side's view of a step of thread [i]. *)
Lemma cb_wakeup_other b st st' :
  cb_wakeup_ok n ts -> ts !! i = Some st -> cb_side st = b -> cb_side st' = b ->
  forall j, <[i := st']> ts !! j = Some (cb_asleep (negb b)) ->
  (forall x sx, <[i := st']> ts !! x = Some sx -> cb_side sx = negb b -> sx = cb_asleep (negb b)) ->
  cb_full (negb b) n = true \/ exists x, ts !! x = Some (Run (b, AtSignal)).
Proof.
  intros Hw Hi Hs Hs' j Hj Hall. pose proof (lookup_lt_Some _ _ _ Hi).
  assert (Hji : j <> i). { intros ->. rewrite list_lookup_insert_eq in Hj by done. injection Hj as ->. by destruct b. }
  rewrite list_lookup_insert_ne in Hj by done. destruct (Hw (negb b) j Hj) as [Hf|Hx].
  - intros x sx Hx Hsx. apply (Hall x sx); [|done]. rewrite list_lookup_insert_ne; [done|]. intros <-. rewrite Hi in Hx.
    injection Hx as ->. rewrite Hs in Hsx. by destruct b.
  - by left.
  - right. by rewrite negb_involutive in Hx.
Qed.
End CondSteps.

Lemma cb_holder sides n sems o cs ts i st :
  cb_inv sides (mkSys n sems [o] cs ts) -> ts !! i = Some st -> cb_locked st -> o = Some i.
Proof. intros [_ _ _ (o' & [= <-] & Hl & _) _ _] Hi Hst. by apply (Hl i st). Qed.

Lemma cb_others sides n sems o cs ts i st :
  cb_inv sides (mkSys n sems [o] cs ts) -> ts !! i = Some st -> cb_locked st ->
  forall j st', ts !! j = Some st' -> j <> i -> ~ cb_locked st'.
Proof.
  intros Hinv Hi Hst j st' Hj Hne Hl. pose proof (cb_holder _ _ _ _ _ _ _ _ Hinv Hi Hst).
  pose proof (cb_holder _ _ _ _ _ _ _ _ Hinv Hj Hl). congruence.
Qed.

(** The thread that holds the lock moves on, without sleeping or waking anybody. *)
Lemma cb_move sides n n' sems o cs ts i b k k' :
  cb_inv sides (mkSys n sems [o] cs ts) -> ts !! i = Some (Run (b, k)) -> k <> AtAcquire -> 0 <= n' <= N ->
  cb_status_ok n' (Run (b, k')) ->
  (k' = AtSignal \/ (n' = n /\ k <> AtSignal) \/ forall j, ts !! j <> Some (cb_asleep (negb b))) ->
  cb_inv sides (mkSys n' sems [if decide (k' = AtAcquire) then None else o] cs (<[i := Run (b, k')]> ts)).
Proof.
  intros Hinv Hi Hk Hr Hst Hwake. pose proof (cb_others _ _ _ _ _ _ _ _ Hinv Hi Hk) as Hoth.
  pose proof (cb_holder _ _ _ _ _ _ _ _ Hinv Hi Hk) as Ho.
  destruct Hinv as [Hs _ Hwf (o' & [= <-] & Hl) Hq Hw]. cbn [sy_vars sy_threads sy_locks sy_conds] in *.
  constructor; cbn [sy_vars sy_threads sy_locks sy_conds].
  - by rewrite (cb_side_insert ts i (Run (b, k))).
  - done.
  - apply (cb_wf_insert n); [done|done|]. right. exact Hoth.
  - eexists. split; [reflexivity|]. apply (locks_insert cb_locked o _ ts i (Run (b, k))); [done|done|by left|].
    cbn. rewrite Ho. destruct (decide (k' = AtAcquire)), (decide (k' <> AtAcquire)); congruence || tauto.
  - by apply (cb_queues_insert cs ts i (Run (b, k))).
  - intros b' j Hj Hall. destruct (decide (b' = b)) as [->|Hb].
    { pose proof (Hall i (Run (b, k'))) as Hx. rewrite list_lookup_insert_eq in Hx by by eapply lookup_lt_Some.
      by specialize (Hx eq_refl eq_refl). }
    assert (b' = negb b) as -> by by destruct b, b'. rewrite negb_involutive.
    destruct Hwake as [->|[[-> Hns]|Hno]].
    + right. exists i. by rewrite list_lookup_insert_eq by by eapply lookup_lt_Some.
    + destruct (cb_wakeup_other n ts i b (Run (b, k)) (Run (b, k')) Hw Hi eq_refl eq_refl j Hj Hall) as [Hf|[x Hx]]; [by left|].
      exfalso. destruct (decide (x = i)) as [->|Hne]; [congruence|]. by apply (Hoth x _ Hx Hne).
    + exfalso. apply (Hno j). by apply (cb_asleep_insert ts i (Run (b, k)) (Run (b, k'))) in Hj.
Qed.

(** A thread gets the lock, at [Acquire] or at the end of [Wait]. *)
Lemma cb_enter sides n sems cs ts i b st :
  cb_inv sides (mkSys n sems [None] cs ts) -> ts !! i = Some st -> st = Run (b, AtAcquire) \/ st = Woken 0 (b, AtWhile) ->
  cb_inv sides (mkSys n sems [Some i] cs (<[i := Run (b, AtWhile)]> ts)).
Proof.
  intros Hinv Hi Hst. destruct Hinv as [Hs Hr Hwf (o' & [= <-] & Hl) Hq Hw]. cbn [sy_vars sy_threads sy_locks sy_conds] in *.
  constructor; cbn [sy_vars sy_threads sy_locks sy_conds]; [|done| | | |].
  - rewrite (cb_side_insert ts i st); [done|done|]. by destruct Hst; subst st.
  - apply (cb_wf_insert n); [done|done|by left].
  - eexists. split; [reflexivity|]. by apply (locks_insert cb_locked None _ ts i st); [| |right|].
  - apply (cb_queues_insert cs ts i st); [done|done| |done]. intros b'. by destruct Hst; subst st.
  - intros b' j Hj Hall. destruct (decide (b' = b)) as [->|Hb].
    { pose proof (Hall i (Run (b, AtWhile))) as Hx. rewrite list_lookup_insert_eq in Hx by by eapply lookup_lt_Some.
      by specialize (Hx eq_refl eq_refl). }
    assert (b' = negb b) as -> by by destruct b, b'.
    assert (Hside : cb_side st = b) by by destruct Hst; subst st.
    destruct (cb_wakeup_other n ts i b st (Run (b, AtWhile)) Hw Hi Hside eq_refl j Hj Hall) as [Hf|[x Hx]]; [by left|].
    exfalso. destruct Hl as [Hl _]. assert (None = Some x) by by apply (Hl x _ Hx). done.
Qed.

Lemma cb_cond_inj b b' : cb_cond b = cb_cond b' -> b = b'.
Proof. by destruct b, b'. Qed.

(** [Wait]: the thread joins the queue of its side and gives the lock back. *)
Lemma cb_wait sides n sems o cs ts i b q :
  cb_inv sides (mkSys n sems [o] cs ts) -> ts !! i = Some (Run (b, AtWait)) -> cs !! cb_cond b = Some q ->
  cb_inv sides (mkSys n sems [None] (<[cb_cond b := q ++ [i]]> cs) (<[i := cb_asleep b]> ts)).
Proof.
  intros Hinv Hi Hb. assert (Hlk : cb_locked (Run (b, AtWait))) by done.
  pose proof (cb_others _ _ _ _ _ _ _ _ Hinv Hi Hlk) as Hoth. pose proof (cb_holder _ _ _ _ _ _ _ _ Hinv Hi Hlk) as Ho.
  destruct Hinv as [Hs Hr Hwf (o' & [= <-] & Hl) [Hlen Hq] Hw]. cbn [sy_vars sy_threads sy_locks sy_conds] in *.
  pose proof (lookup_lt_Some _ _ _ Hi) as Hlt. pose proof (lookup_lt_Some _ _ _ Hb) as Hltb.
  constructor; cbn [sy_vars sy_threads sy_locks sy_conds]; [|done| | | |].
  - by rewrite (cb_side_insert ts i (Run (b, AtWait))).
  - apply (cb_wf_insert n); [done|done|by left].
  - eexists. split; [reflexivity|]. by apply (locks_insert cb_locked o _ ts i (Run (b, AtWait))); [| |left|].
  - split; [by rewrite length_insert|]. intros b' q' Hb'.
    assert (Hneq : forall x, x <> i -> forall y, <[i := cb_asleep b]> ts !! x = Some y <-> ts !! x = Some y)
      by (intros x Hx y; by rewrite list_lookup_insert_ne).
    destruct (decide (b' = b)) as [->|Hne].
    + rewrite list_lookup_insert_eq in Hb' by done. injection Hb' as <-. destruct (Hq b q Hb) as [Hnd Hin]. split.
      * apply NoDup_app. split; [done|]. split; [|apply NoDup_singleton]. intros x Hx ->%list_elem_of_singleton.
        apply Hin in Hx. rewrite Hi in Hx. discriminate.
      * intros x. rewrite elem_of_app, list_elem_of_singleton, Hin. destruct (decide (x = i)) as [->|Hx].
        -- rewrite list_lookup_insert_eq by done. tauto.
        -- rewrite Hneq by done. tauto.
    + rewrite list_lookup_insert_ne in Hb' by (intros E; by apply Hne, cb_cond_inj). destruct (Hq b' q' Hb') as [Hnd Hin].
      split; [done|]. intros x. rewrite Hin. destruct (decide (x = i)) as [->|Hx]; [|by rewrite Hneq].
      rewrite list_lookup_insert_eq by done. rewrite Hi. split; [discriminate|]. intros [= E]. by destruct b, b'.
  - intros b' j Hj Hall. destruct (decide (b' = b)) as [->|Hb'].
    { left. exact (Hwf i _ Hi). }
    assert (b' = negb b) as -> by by destruct b, b'.
    destruct (cb_wakeup_other n ts i b (Run (b, AtWait)) (cb_asleep b) Hw Hi eq_refl eq_refl j Hj Hall) as [Hf|[x Hx]]; [by left|].
    exfalso. destruct (decide (x = i)) as [->|Hne]; [congruence|]. by apply (Hoth x _ Hx Hne).
Qed.

(** [Signal] wakes the first thread of the other side's queue. *)
Lemma cb_signal sides n sems o cs ts i b j q :
  cb_inv sides (mkSys n sems [o] cs ts) -> ts !! i = Some (Run (b, AtSignal)) -> cs !! cb_cond (negb b) = Some (j :: q) ->
  cb_inv sides (mkSys n sems [o] (<[cb_cond (negb b) := q]> cs) (<[j := Woken 0 (negb b, AtWhile)]> (<[i := Run (b, AtRelease)]> ts))).
Proof.
  intros Hinv Hi Hb. assert (Hlk : cb_locked (Run (b, AtSignal))) by done.
  pose proof (cb_others _ _ _ _ _ _ _ _ Hinv Hi Hlk) as Hoth. pose proof (cb_holder _ _ _ _ _ _ _ _ Hinv Hi Hlk) as Ho.
  destruct Hinv as [Hs Hr Hwf (o' & [= <-] & Hl) [Hlen Hq] Hw]. cbn [sy_vars sy_threads sy_locks sy_conds] in *.
  pose proof (lookup_lt_Some _ _ _ Hi) as Hlt. pose proof (lookup_lt_Some _ _ _ Hb) as Hltb.
  destruct (Hq _ _ Hb) as [Hnd Hin]. apply NoDup_cons in Hnd as [Hjq Hnd].
  assert (Hj : ts !! j = Some (cb_asleep (negb b))) by (apply Hin; constructor).
  assert (Hji : j <> i) by (intros ->; rewrite Hi in Hj; discriminate). pose proof (lookup_lt_Some _ _ _ Hj) as Hltj.
  set (ts1 := <[i := Run (b, AtRelease)]> ts). assert (Hj1 : ts1 !! j = Some (cb_asleep (negb b))) by by unfold ts1; rewrite list_lookup_insert_ne.
  assert (Hwf1 : forall x st, ts1 !! x = Some st -> cb_status_ok n st) by by apply (cb_wf_insert n); [| |left].
  assert (Hl1 : cb_locks_ok o ts1) by (by apply (locks_insert cb_locked o _ ts i (Run (b, AtSignal))); [| |left|]).
  constructor; cbn [sy_vars sy_threads sy_locks sy_conds]; [|done| | | |].
  - rewrite (cb_side_insert ts1 j (cb_asleep (negb b))) by done. unfold ts1. by rewrite (cb_side_insert ts i (Run (b, AtSignal))).
  - apply (cb_wf_insert n); [done|done|by left].
  - eexists. split; [reflexivity|]. destruct Hl1 as [Hl1 Hd1]. split.
    + intros x st Hx. apply list_lookup_insert_Some in Hx as [(-> & <- & _)|[_ Hx]]; [|by apply Hl1].
      split; [done|]. intros E. congruence.
    + intros x Hx. apply lookup_lt_is_Some_2. unfold ts1. rewrite !length_insert. apply lookup_lt_is_Some_1. by apply Hl.
  - split; [by rewrite length_insert|]. intros b' q' Hb'. destruct (decide (b' = negb b)) as [->|Hne].
    + rewrite list_lookup_insert_eq in Hb' by done. injection Hb' as <-. split; [done|]. intros x.
      destruct (decide (x = j)) as [->|Hxj].
      { rewrite list_lookup_insert_eq by (unfold ts1; by rewrite length_insert). split; [done|discriminate]. }
      rewrite list_lookup_insert_ne by done. unfold ts1. rewrite (cb_asleep_insert ts i (Run (b, AtSignal))) by done.
      rewrite <-Hin, elem_of_cons. tauto.
    + rewrite list_lookup_insert_ne in Hb' by (intros E; by apply Hne, cb_cond_inj). destruct (Hq b' q' Hb') as [Hnd' Hin'].
      split; [done|]. intros x. rewrite Hin'. destruct (decide (x = j)) as [->|Hxj].
      { rewrite list_lookup_insert_eq by (unfold ts1; by rewrite length_insert). rewrite Hj. split; [|discriminate].
        intros [= E]. by destruct b, b'. }
      rewrite list_lookup_insert_ne by done. unfold ts1. by rewrite (cb_asleep_insert ts i (Run (b, AtSignal))).
  - intros b' x Hx Hall. exfalso. destruct (decide (b' = b)) as [->|Hne].
    + pose proof (Hall i (Run (b, AtRelease))) as Hy. rewrite list_lookup_insert_ne in Hy by done. unfold ts1 in Hy.
      rewrite list_lookup_insert_eq in Hy by done. by specialize (Hy eq_refl eq_refl).
    + pose proof (Hall j (Woken 0 (negb b, AtWhile))) as Hy.
      rewrite list_lookup_insert_eq in Hy by (unfold ts1; by rewrite length_insert). specialize (Hy eq_refl).
      assert (b' = negb b) as -> by by destruct b, b'. by specialize (Hy eq_refl).
Qed.

(** The code of both sides at once. *)
Lemma cb_code_eq b k :
  cb_code (b, k) =
  match k with
  | AtAcquire => IAcquire 0 (b, AtWhile)
  | AtWhile => IDo (fun n => (n, (b, if cb_full b n then AtWait else AtBody)))
  | AtWait => IWait (cb_cond b) 0 (b, AtWhile)
  | AtBody => IDo (fun n => (i32 (if b then n + 1 else n - 1), (b, AtSignal)))
  | AtSignal => ISignal (cb_cond (negb b)) 0 (b, AtRelease)
  | AtRelease => IRelease 0 (b, AtAcquire)
  end.
Proof. by destruct b, k. Qed.

Lemma cb_inv_step sides i s r :
  cb_inv sides s -> sync_step cb_code i s = r -> match r with Ok (Some s') => cb_inv sides s' | Ok None => True | Err _ => False end.
Proof.
  intros Hinv <-. destruct s as [n sems locks cs ts].
  pose proof Hinv as [_ Hr Hwf (o & Hlk & _) [Hlen Hq] _]. cbn [sy_vars sy_threads sy_locks sy_conds] in *. subst locks.
  assert (Hcs : forall b, exists q, cs !! cb_cond b = Some q) by (intros b; apply lookup_lt_is_Some_2; destruct b; cbn; lia).
  cbn [sync_step]. destruct (ts !! i) as [[[b k]|c l [b k]|l [b k]]|] eqn:Hi; [|done| |done]; pose proof (Hwf i _ Hi) as Hst.
  - rewrite cb_code_eq. pose proof (fun H => cb_holder _ _ _ _ _ _ _ _ Hinv Hi H) as Ho.
    destruct k; cbn [lookup list_lookup deref mbind result_bind].
    + destruct o; [done|]. by apply (cb_enter sides n sems cs ts i b (Run (b, AtAcquire))); [| |left].
    + rewrite (Ho ltac:(done)) in Hinv |- *. destruct (cb_full b n) eqn:E; [apply (cb_move sides n n sems (Some i) cs ts i b AtWhile AtWait) in Hinv
                                     |apply (cb_move sides n n sems (Some i) cs ts i b AtWhile AtBody) in Hinv]; try done; right; by left.
    + rewrite (Ho ltac:(done)) in Hinv |- *. rewrite bool_decide_eq_true_2 by done. cbn [ASSERT mbind result_bind].
      destruct (Hcs b) as [q Hb]. rewrite Hb. by apply (cb_wait sides n sems (Some i) cs ts i b q).
    + cbn in Hst. rewrite i32_id by (unfold in_i32, N in *; destruct b; lia).
      assert (Hn' : 0 <= (if b then n + 1 else n - 1) <= N) by (destruct b; cbn in Hst; lia).
      by apply (cb_move sides n _ sems o cs ts i b AtBody AtSignal); [| | | | |left].
    + rewrite (Ho ltac:(done)) in Hinv |- *. rewrite bool_decide_eq_true_2 by done. cbn [ASSERT mbind result_bind].
      destruct (Hcs (negb b)) as [[|j q] Hb]; rewrite Hb; cbn [deref mbind result_bind].
      * apply (cb_move sides n n sems (Some i) cs ts i b AtSignal AtRelease) in Hinv; try done. right. right.
        intros j Hj. apply (Hq _ _ Hb) in Hj. by apply elem_of_nil in Hj.
      * assert (Hj : ts !! j = Some (cb_asleep (negb b))) by (apply (Hq _ _ Hb); constructor).
        unfold wake. rewrite list_lookup_insert_ne by (intros ->; rewrite Hi in Hj; discriminate). rewrite Hj.
        by apply (cb_signal sides n sems (Some i) cs ts i b j q).
    + rewrite (Ho ltac:(done)) in Hinv |- *. rewrite bool_decide_eq_true_2 by done. cbn [ASSERT mbind result_bind].
      apply (cb_move sides n n sems (Some i) cs ts i b AtRelease AtAcquire) in Hinv; try done. right. left. done.
  - destruct Hst as [-> ->]. cbn [lookup list_lookup deref mbind result_bind].
    destruct o; [done|]. by apply (cb_enter sides n sems cs ts i b (Woken 0 (b, AtWhile))); [| |right].
Qed.

Lemma cb_inv_start p c : cb_inv (replicate p true ++ replicate c false) (ThreadProducerConsumerTest1 p c).
Proof.
  assert (Hrun : forall i st, sy_threads (ThreadProducerConsumerTest1 p c) !! i = Some st -> exists b, st = Run (b, AtAcquire)).
  { intros i st Hi. apply lookup_app_Some in Hi as [Hi|[_ Hi]]; apply lookup_replicate in Hi as [-> _]; by eexists. }
  constructor; cbn [sy_vars sy_threads sy_locks sy_conds ThreadProducerConsumerTest1].
  - by rewrite fmap_app, !fmap_replicate.
  - unfold N. lia.
  - intros i st Hi. by destruct (Hrun i st Hi) as [b ->].
  - exists None. split; [done|]. split; [|done]. intros i st Hi. destruct (Hrun i st Hi) as [b ->]. done.
  - split; [done|]. intros b q Hb. assert (q = []) as -> by (destruct b; cbn in Hb; congruence). split; [constructor|].
    intros i. split; [by intros ?%elem_of_nil|]. intros Hi. destruct (Hrun i _ Hi) as [b' Hb']. discriminate.
  - intros b i Hi _. destruct (Hrun i _ Hi) as [b' Hb']. discriminate.
Qed.

Definition cb_awake (st : status cb_pc) : bool := match st with Asleep _ _ _ => false | _ => true end.

Lemma cb_no_deadlock sides s : cb_inv sides s -> true ∈ sides -> false ∈ sides -> can_step cb_code s.
Proof.
  intros Hinv Ht Hf. destruct s as [n sems locks cs ts].
  pose proof Hinv as [Hs Hr Hwf (o & Hlk & Hl & Hd) [Hlen Hq] Hw]. cbn [sy_vars sy_threads sy_locks sy_conds] in *. subst locks.
  assert (Hrun : forall i st, ts !! i = Some st -> cb_awake st = true -> o = None \/ o = Some i -> can_step cb_code (mkSys n sems [o] cs ts)).
  { intros i st Hi Ha Ho. apply (can_step_by cb_code (cb_inv sides) _ i Hinv); [apply cb_inv_step|].
    cbn [sync_step]. rewrite Hi. pose proof (Hl i st Hi) as Hli. pose proof (Hwf i st Hi) as Hst. destruct st as [[b k]|c l [b k]|l [b k]]; [|done|].
    - rewrite cb_code_eq. destruct Ho as [->| ->]; destruct k; cbn in Hli |- *; try done; try (exfalso; intuition discriminate).
      + rewrite bool_decide_eq_true_2 by done. cbn. by destruct (cs !! cb_cond b).
      + rewrite bool_decide_eq_true_2 by done. cbn. by destruct (cs !! cb_cond (negb b)).
      + by rewrite bool_decide_eq_true_2.
    - destruct Hst as [-> ->]. destruct Ho as [->| ->]; [done|]. exfalso. by apply Hli. }
  destruct o as [i|].
  { destruct (Hd i eq_refl) as [st Hi]. apply (Hrun i st Hi); [|by right]. pose proof (proj2 (Hl i st Hi) eq_refl) as Hlk.
    by destruct st as [[b k]| |]. }
  destruct (decide (0 < cnt cb_awake ts)) as [Hc|Hc].
  { destruct (cnt_ex _ _ Hc) as (i & st & Hi & Ha). apply (Hrun i st Hi Ha). by left. }
  assert (Hall : forall j st, ts !! j = Some st -> st = cb_asleep (cb_side st)).
  { intros j st Hj. destruct (cb_awake st) eqn:Ha; [pose proof (cnt_at _ _ _ _ Hj Ha); lia|].
    pose proof (Hwf j st Hj) as Hst. destruct st as [|c l [b k]|]; try done. by destruct Hst as (-> & -> & ->). }
  assert (Hfull : forall b, b ∈ sides -> cb_full b n = true).
  { intros b Hb. rewrite <-Hs in Hb. apply list_elem_of_fmap in Hb as (st & -> & Hin). apply list_elem_of_lookup in Hin as [j Hj].
    destruct (Hw (cb_side st) j) as [|[x Hx]]; [|intros y sy Hy <-; by apply (Hall y)|done|].
    - rewrite Hj. f_equal. by apply (Hall j).
    - apply Hall in Hx. discriminate. }
  pose proof (Hfull true Ht) as H1. pose proof (Hfull false Hf) as H2. cbn in H1, H2. unfold N in *. lia.
Qed.

(** C17.  Producers and consumers with condition variables, for any number of both and any
    interleaving: no assertion of the lock or the conditions fails; [shareNum] stays between
    0 and N, a producer adds only when there is room and a consumer takes only when there is
    an item; at most one thread is in the critical section; and no wakeup is lost: as long
    as there are a producer and a consumer, some thread can run. *)
Theorem producer_consumer_conditions (producers consumers : nat) (s : Sys Z cb_pc) :
  rtc (sstep cb_code) (ThreadProducerConsumerTest1 producers consumers) s ->
  (forall i e, sync_step cb_code i s <> Err e)
  /\ 0 <= sy_vars s <= N
  /\ (forall i, sy_threads s !! i = Some (Run (true, AtBody)) -> sy_vars s < N)
  /\ (forall i, sy_threads s !! i = Some (Run (false, AtBody)) -> 0 < sy_vars s)
  /\ (forall i j st st', sy_threads s !! i = Some st -> sy_threads s !! j = Some st' -> cb_locked st -> cb_locked st' -> i = j)
  /\ ((0 < producers)%nat -> (0 < consumers)%nat -> can_step cb_code s).
Proof.
  intros Hr. pose proof (reachable_inv cb_code _ _ s (cb_inv_start producers consumers) (cb_inv_step _) Hr) as Hinv.
  split; [by apply (no_assertion_fails cb_code _ _ s (cb_inv_start producers consumers) (cb_inv_step _))|].
  pose proof Hinv as [_ Hn Hwf (o & Hlk & Hl & _) _ _]. split; [done|]. split; [|split; [|split]].
  - intros i Hi. pose proof (Hwf i _ Hi) as H. cbn in H. lia.
  - intros i Hi. pose proof (Hwf i _ Hi) as H. cbn in H. lia.
  - intros i j st st' Hi Hj Hst Hst'. apply (Hl i st Hi) in Hst. apply (Hl j st' Hj) in Hst'. congruence.
  - intros Hp Hc. apply (cb_no_deadlock _ s Hinv); apply elem_of_app; [left|right]; apply elem_of_replicate; split; done || lia.
Qed.

(** A producer and a consumer that waits for the first item. *)
Lemma producer_consumer_conditions_witness :
  let s : Sys Z cb_pc := mkSys 0 [] [None] [[1%nat]; []] [Run (true, AtAcquire); Asleep 0 0 (false, AtWhile)] in
  (forall i e, sync_step cb_code i s <> Err e)
  /\ 0 <= sy_vars s <= N
  /\ (forall i, sy_threads s !! i = Some (Run (true, AtBody)) -> sy_vars s < N)
  /\ (forall i, sy_threads s !! i = Some (Run (false, AtBody)) -> 0 < sy_vars s)
  /\ (forall i j st st', sy_threads s !! i = Some st -> sy_threads s !! j = Some st' -> cb_locked st -> cb_locked st' -> i = j)
  /\ ((0 < 1)%nat -> (0 < 1)%nat -> can_step cb_code s).
Proof.
  apply (producer_consumer_conditions 1 1). do 3 (eapply rtc_l; [by apply (SStep cb_code 1)|]). apply rtc_refl.
Defined.

(** ** The barrier *)

Definition barrierThreadNum : Z := 5.

Inductive ba_pc := BAcquire | BCount | BTest | BBroadcast | BWait | BRelease | BPast.
#[global] Instance ba_pc_eq_dec : EqDecision ba_pc.
Proof. solve_decision. Defined.

(** Lock 0 is [barrLock], condition 0 [barrCond]; the variable is [barrierCnt]. *)
Definition barrierFun (k : ba_pc) : instr Z ba_pc :=
  match k with
  | BAcquire => IAcquire 0 BCount
  | BCount => IDo (fun barrierCnt => (i32 (barrierCnt + 1), BTest))
  | BTest => IDo (fun barrierCnt => (barrierCnt, if barrierCnt =? barrierThreadNum then BBroadcast else BWait))
  | BBroadcast => IBroadcast 0 0 BRelease
  | BWait => IWait 0 0 BRelease
  | BRelease => IRelease 0 BPast
  | BPast => IStop
  end.

Definition barrierThreadTest : Sys Z ba_pc :=
  mkSys 0 [] [None] [[]] (replicate (Z.to_nat barrierThreadNum) (Run BAcquire)).

Definition ba_asleep : status ba_pc := Asleep 0 0 BRelease.

Definition ba_locked (st : status ba_pc) : Prop := match st with Run (BAcquire | BPast) => False | Run _ => True | _ => False end.
#[global] Instance ba_locked_dec st : Decision (ba_locked st).
Proof. destruct st as [[]| |]; apply _. Defined.

Definition ba_arrived (st : status ba_pc) : bool := match st with Run (BAcquire | BCount) => false | _ => true end.
Definition ba_released (st : status ba_pc) : Prop := match st with Run (BRelease | BPast) | Woken _ _ => True | _ => False end.

Definition ba_status_ok (n : Z) (st : status ba_pc) : Prop :=
  match st with
  | Run BBroadcast => n = barrierThreadNum
  | Run BWait => n <> barrierThreadNum
  | Run _ => True
  | Asleep c l k => c = 0%nat /\ l = 0%nat /\ k = BRelease
  | Woken l k => l = 0%nat /\ k = BRelease
  end.

Definition ba_queue_ok (cs : list (list nat)) (ts : list (status ba_pc)) : Prop :=
  exists q, cs = [q] /\ NoDup q /\ forall i, i ∈ q <-> ts !! i = Some ba_asleep.

(** The barrier is open only when all have arrived, and then nobody sleeps. *)
Definition ba_open_ok (n : Z) (ts : list (status ba_pc)) : Prop :=
  forall i st, ts !! i = Some st -> ba_released st -> n = barrierThreadNum /\ forall j, ts !! j <> Some ba_asleep.

(** When all have arrived, the last one opens the barrier or has opened it. *)
Definition ba_last_ok (n : Z) (ts : list (status ba_pc)) : Prop :=
  n = barrierThreadNum -> exists i st, ts !! i = Some st /\ (ba_released st \/ st = Run BTest \/ st = Run BBroadcast).

Record ba_inv (s : Sys Z ba_pc) : Prop := {
  ba_len : length (sy_threads s) = Z.to_nat barrierThreadNum;
  ba_cnt : sy_vars s = cnt ba_arrived (sy_threads s);
  ba_wf : forall i st, sy_threads s !! i = Some st -> ba_status_ok (sy_vars s) st;
  ba_lock : exists o, sy_locks s = [o] /\ locks_ok ba_locked o (sy_threads s);
  ba_queue : ba_queue_ok (sy_conds s) (sy_threads s);
  ba_open : ba_open_ok (sy_vars s) (sy_threads s);
  ba_last : ba_last_ok (sy_vars s) (sy_threads s)
}.

Section BarrierSteps.
Context (n : Z) (sems : list Z) (o : option nat) (cs : list (list nat)) (ts : list (status ba_pc)) (i : nat).
Hypothesis Hinv : ba_inv (mkSys n sems [o] cs ts).

Lemma ba_locks : locks_ok ba_locked o ts.
Proof. by destruct (ba_lock _ Hinv) as (o' & [= <-] & Hl). Qed.

Lemma ba_holder st : ts !! i = Some st -> ba_locked st -> o = Some i.
Proof. intros Hi. by apply ba_locks. Qed.

(** Facts about other threads survive a change of thread [i]. *)
Lemma ba_other_asleep st' j :
  (forall b, ts !! b <> Some ba_asleep) -> st' <> ba_asleep -> <[i := st']> ts !! j <> Some ba_asleep.
Proof. intros Hno Hst Hj. apply list_lookup_insert_Some in Hj as [(_ & E & _)|[_ Hj]]; [by apply Hst|by apply (Hno j)]. Qed.

(** Thread [i] goes on at another point, and nobody goes to sleep or is woken. *)
Lemma ba_move n' o' st k' :
  ts !! i = Some st -> st <> ba_asleep ->
  o = Some i \/ o = None -> o' = (if decide (ba_locked (Run k')) then Some i else None) ->
  n' = n + (if ba_arrived (Run k') then 1 else 0) - (if ba_arrived st then 1 else 0) ->
  ba_status_ok n' (Run k') ->
  (forall j stj, ts !! j = Some stj -> j <> i -> ba_status_ok n' stj) ->
  (n' <> n -> forall j stj, ts !! j = Some stj -> ~ ba_released stj) ->
  (ba_released (Run k') -> ba_released st) ->
  (n' = barrierThreadNum -> (k' = BTest \/ k' = BBroadcast \/ ba_released (Run k'))
     \/ (n' = n /\ ~ (ba_released st \/ st = Run BTest \/ st = Run BBroadcast))) ->
  ba_inv (mkSys n' sems [o'] cs (<[i := Run k']> ts)).
Proof.
  intros Hi Hns Ho Ho' Hn' Hst Hoth Hrel Hback Hlast. pose proof ba_locks as Hl. pose proof (lookup_lt_Some _ _ _ Hi) as Hlt.
  destruct Hinv as [Hlen Hc Hwf _ Hq Hop Hla]. cbn [sy_vars sy_threads sy_locks sy_conds] in *.
  constructor; cbn [sy_vars sy_threads sy_locks sy_conds].
  - by rewrite length_insert.
  - rewrite (cnt_insert _ _ _ _ _ Hi). lia.
  - intros j stj Hj. apply list_lookup_insert_Some in Hj as [(_ & <- & _)|[Hne Hj]]; [done|]. by apply (Hoth j).
  - exists o'. split; [done|]. by apply (locks_insert ba_locked o o' ts i st).
  - destruct Hq as (q & -> & Hnd & Hin). exists q. split; [done|]. split; [done|]. intros j. rewrite Hin.
    destruct (decide (j = i)) as [->|Hne]; [|by rewrite list_lookup_insert_ne].
    rewrite list_lookup_insert_eq by done. rewrite Hi. split; intros E; exfalso; [apply Hns; congruence|discriminate E].
  - intros j stj Hj Hr.
    assert (Hold : exists x sx, ts !! x = Some sx /\ ba_released sx).
    { apply list_lookup_insert_Some in Hj as [(_ & <- & _)|[Hne Hj]]; [exists i, st; by split; [|apply Hback]|by exists j, stj]. }
    destruct Hold as (x & sx & Hx & Hsx). destruct (decide (n' = n)) as [->|Hnn]; [|by destruct (Hrel Hnn x sx Hx)].
    destruct (Hop x sx Hx Hsx) as [Hn5 Hno]. split; [done|]. intros y. by apply ba_other_asleep.
  - intros H5. destruct (Hlast H5) as [Hk|[-> Hnot]].
    + exists i, (Run k'). rewrite list_lookup_insert_eq by done. split; [done|]. intuition congruence.
    + destruct (Hla H5) as (x & sx & Hx & Hsx). exists x, sx. split; [|done]. rewrite list_lookup_insert_ne; [done|].
      intros <-. rewrite Hi in Hx. injection Hx as ->. by apply Hnot.
Qed.
End BarrierSteps.

Lemma ba_wait n sems o q ts i :
  ba_inv (mkSys n sems [o] [q] ts) -> ts !! i = Some (Run BWait) ->
  ba_inv (mkSys n sems [None] [q ++ [i]] (<[i := ba_asleep]> ts)).
Proof.
  intros Hinv Hi. pose proof (ba_locks _ _ _ _ _ Hinv) as Hl. pose proof (lookup_lt_Some _ _ _ Hi) as Hlt.
  assert (Ho : o = Some i) by (by apply (ba_holder _ _ _ _ _ i Hinv _ Hi)).
  destruct Hinv as [Hlen Hc Hwf _ (q' & [= <-] & Hnd & Hin) Hop Hla]. cbn [sy_vars sy_threads sy_locks sy_conds] in *.
  pose proof (Hwf i _ Hi) as Hn. cbn in Hn. constructor; cbn [sy_vars sy_threads sy_locks sy_conds].
  - by rewrite length_insert.
  - rewrite (cnt_insert _ _ _ _ _ Hi). cbn. lia.
  - intros j stj Hj. apply list_lookup_insert_Some in Hj as [(_ & <- & _)|[_ Hj]]; [done|by apply (Hwf j)].
  - exists None. split; [done|]. by apply (locks_insert ba_locked o None ts i (Run BWait)); [| |left|].
  - eexists. split; [done|]. split.
    + apply NoDup_app. split; [done|]. split; [|apply NoDup_singleton]. intros x Hx ->%list_elem_of_singleton.
      apply Hin in Hx. rewrite Hi in Hx. discriminate.
    + intros x. rewrite elem_of_app, list_elem_of_singleton, Hin. destruct (decide (x = i)) as [->|Hne].
      * rewrite list_lookup_insert_eq by done. tauto.
      * rewrite list_lookup_insert_ne by done. tauto.
  - intros j stj Hj Hr. exfalso. apply Hn. apply list_lookup_insert_Some in Hj as [(_ & <- & _)|[_ Hj]]; [done|].
    by destruct (Hop j stj Hj Hr).
  - intros E. by destruct Hn.
Qed.

Lemma ba_broadcast n sems o q ts i :
  ba_inv (mkSys n sems [o] [q] ts) -> ts !! i = Some (Run BBroadcast) ->
  ba_inv (mkSys n sems [o] [[]] (foldr wake (<[i := Run BRelease]> ts) q)).
Proof.
  intros Hinv Hi. pose proof (ba_locks _ _ _ _ _ Hinv) as Hl. pose proof (lookup_lt_Some _ _ _ Hi) as Hlt.
  destruct Hinv as [Hlen Hc Hwf _ (q' & [= <-] & Hnd & Hin) Hop Hla]. cbn [sy_vars sy_threads sy_locks sy_conds] in *.
  set (ts1 := <[i := Run BRelease]> ts). set (ts' := foldr wake ts1 q).
  assert (Hiq : i ∉ q) by (intros Hx; apply Hin in Hx; rewrite Hi in Hx; discriminate).
  assert (Hq1 : forall j, j ∈ q -> ts1 !! j = Some ba_asleep).
  { intros j Hj. unfold ts1. rewrite list_lookup_insert_ne by (intros ->; done). by apply Hin. }
  assert (Hlk : forall j, ts' !! j = if decide (j ∈ q) then Some (Woken 0 BRelease) else ts1 !! j)
    by (intros j; by apply (lookup_wakes q ts1 0 0 BRelease)).
  assert (Hi' : ts' !! i = Some (Run BRelease)) by (rewrite Hlk, decide_False by done; by apply list_lookup_insert_eq).
  assert (Hcase : forall j st', ts' !! j = Some st' -> (j = i /\ st' = Run BRelease)
    \/ (ts !! j = Some ba_asleep /\ st' = Woken 0 BRelease) \/ (ts !! j = Some st' /\ st' <> ba_asleep)).
  { intros j st' Hj. rewrite Hlk in Hj. case_decide as Hjq; [right; left; split; [by apply Hin|congruence]|].
    apply list_lookup_insert_Some in Hj as [(-> & <- & _)|[_ Hj]]; [by left|]. right. right. split; [done|].
    intros ->. by apply Hjq, Hin. }
  constructor; cbn [sy_vars sy_threads sy_locks sy_conds].
  - unfold ts', ts1. by rewrite length_wakes, length_insert.
  - rewrite Hc. apply cnt_fmap_eq. apply list_eq. intros j. rewrite !list_lookup_fmap.
    destruct (ts' !! j) as [st'|] eqn:Hj.
    + destruct (Hcase j st' Hj) as [[-> ->]|[[Hj0 ->]|[Hj0 _]]]; [by rewrite Hi|by rewrite Hj0|by rewrite Hj0].
    + apply lookup_ge_None in Hj. unfold ts', ts1 in Hj. rewrite length_wakes, length_insert in Hj. by rewrite (proj2 (lookup_ge_None _ _) Hj).
  - intros j st' Hj. destruct (Hcase j st' Hj) as [[-> ->]|[[Hj0 ->]|[Hj0 _]]]; [done|done|by apply (Hwf j)].
  - exists o. split; [done|]. apply (locks_same ba_locked o ts ts'); [done|unfold ts', ts1; by rewrite length_wakes, length_insert|].
    intros j st' Hj. destruct (Hcase j st' Hj) as [[-> ->]|[[Hj0 ->]|[Hj0 _]]]; eexists; (split; [done|]); done.
  - exists []. split; [done|]. split; [constructor|]. intros j. split; [by intros ?%elem_of_nil|]. intros Hj.
    destruct (Hcase j _ Hj) as [[_ E]|[[_ E]|[_ E]]]; done.
  - intros j st' Hj _. split; [exact (Hwf i _ Hi)|]. intros x Hx. destruct (Hcase x _ Hx) as [[_ E]|[[_ E]|[_ E]]]; done.
  - intros _. exists i, (Run BRelease). split; [done|]. by left.
Qed.

Lemma ba_inv_step i s r :
  ba_inv s -> sync_step barrierFun i s = r -> match r with Ok (Some s') => ba_inv s' | Ok None => True | Err _ => False end.
Proof.
  intros Hinv <-. destruct s as [n sems locks cs ts].
  pose proof Hinv as [Hlen Hc Hwf (o & Hlk & Hl) (q & Hcs & _) Hop Hla]. cbn [sy_vars sy_threads sy_locks sy_conds] in *. subst locks cs.
  cbn [sync_step]. destruct (ts !! i) as [st|] eqn:Hi; [|done]. pose proof (Hwf i _ Hi) as Hst.
  pose proof (ba_holder _ _ _ _ _ i Hinv st Hi) as Ho.
  assert (Hothers : ba_locked st -> forall n' j stj, ts !! j = Some stj -> j <> i -> ba_status_ok n' stj).
  { intros Hlk n' j stj Hj Hne. pose proof (Hwf j _ Hj) as Hok. destruct stj as [[]| |]; cbn in Hok |- *; try done.
    all: exfalso; apply Hne; by apply (locks_unique ba_locked o ts j i _ st Hl Hj Hi). }
  assert (Hcnt : 0 <= n <= 5).
  { pose proof (cnt_nonneg ba_arrived ts). pose proof (cnt_le_length ba_arrived ts) as Hle. rewrite Hlen in Hle.
    change (Z.of_nat (Z.to_nat barrierThreadNum)) with 5 in Hle. lia. }
  destruct st as [[]|c l k|l k]; cbn [barrierFun lookup list_lookup deref mbind result_bind]; try done.
  - destruct o; [done|]. apply (ba_move n sems None [q] ts i Hinv n (Some i) (Run BAcquire)); try done; [by right|cbn; lia| |].
    + intros j stj Hj _. by apply (Hwf j).
    + intros _. right. split; [done|]. by intros [|[|]].
  - rewrite i32_id by (unfold in_i32; lia). specialize (Ho I). subst o.
    pose proof (cnt_lt_length ba_arrived ts i _ Hi eq_refl) as Hlt. rewrite Hlen, <-Hc in Hlt.
    change (Z.of_nat (Z.to_nat barrierThreadNum)) with 5 in Hlt.
    apply (ba_move n sems (Some i) [q] ts i Hinv (n + 1) (Some i) (Run BCount)); try done; [by left|cbn; lia|by apply Hothers| |].
    + intros _ j stj Hj Hr. destruct (Hop j stj Hj Hr) as [H5 _]. unfold barrierThreadNum in H5. lia.
    + intros _. left. by left.
  - specialize (Ho I). subst o. destruct (Z.eqb_spec n barrierThreadNum) as [H5|H5].
    + apply (ba_move n sems (Some i) [q] ts i Hinv n (Some i) (Run BTest)); try done; [by left|cbn; lia|by apply Hothers|].
      intros _. left. right. by left.
    + apply (ba_move n sems (Some i) [q] ts i Hinv n (Some i) (Run BTest)); try done; [by left|cbn; lia|by apply Hothers].
  - specialize (Ho I). subst o. rewrite bool_decide_eq_true_2 by done. cbn [ASSERT mbind result_bind].
    by apply (ba_broadcast n sems (Some i) q ts i).
  - specialize (Ho I). subst o. rewrite bool_decide_eq_true_2 by done. cbn [ASSERT mbind result_bind].
    by apply (ba_wait n sems (Some i) q ts i).
  - specialize (Ho I). subst o. rewrite bool_decide_eq_true_2 by done. cbn [ASSERT mbind result_bind].
    apply (ba_move n sems (Some i) [q] ts i Hinv n None (Run BRelease)); try done; [by left|cbn; lia|by apply Hothers|].
    intros _. left. right. by right.
  - destruct Hst as [-> ->]. destruct o; [done|]. cbn [lookup list_lookup deref mbind result_bind].
    apply (ba_move n sems None [q] ts i Hinv n (Some i) (Woken 0 BRelease)); try done; [by right|cbn; lia| |].
    + intros j stj Hj _. by apply (Hwf j).
    + intros _. left. right. by right.
Qed.

Lemma ba_inv_start : ba_inv barrierThreadTest.
Proof.
  assert (Hrun : forall i st, sy_threads barrierThreadTest !! i = Some st -> st = Run BAcquire)
    by (intros i st Hi; by apply lookup_replicate in Hi as [-> _]).
  constructor; cbn [sy_vars sy_threads sy_locks sy_conds barrierThreadTest].
  - apply length_replicate.
  - by rewrite cnt_replicate.
  - intros i st Hi. by rewrite (Hrun i st Hi).
  - exists None. split; [done|]. split; [|done]. intros i st Hi. by rewrite (Hrun i st Hi).
  - exists []. split; [done|]. split; [constructor|]. intros i. split; [by intros ?%elem_of_nil|]. intros Hi. by apply Hrun in Hi.
  - intros i st Hi. by rewrite (Hrun i st Hi).
  - done.
Qed.

(** How far a thread is from the end. *)
Definition ba_rank (st : status ba_pc) : nat :=
  match st with
  | Run BAcquire => 7 | Run BCount => 6 | Run BTest => 5 | Run BBroadcast => 4 | Run BWait => 4
  | Asleep _ _ _ => 3 | Woken _ _ => 2 | Run BRelease => 1 | Run BPast => 0
  end.

Lemma ba_decreases i s s' : ba_inv s -> sync_step barrierFun i s = Ok (Some s') ->
  (sum_list_with ba_rank (sy_threads s') < sum_list_with ba_rank (sy_threads s))%nat.
Proof.
  intros [_ _ Hwf (o & Hlk & _) (q & Hcs & _) _ _] Hs. destruct s as [n sems locks cs ts].
  cbn [sy_vars sy_threads sy_locks sy_conds] in *. subst locks cs. cbn [sync_step] in Hs.
  destruct (ts !! i) as [st|] eqn:Hi; [|done]. pose proof (Hwf i _ Hi) as Hst.
  pose proof (fun y => sum_insert ba_rank ts i st y Hi) as Hsum.
  pose proof (wakes_measure ba_rank q (<[i := Run BRelease]> ts) ltac:(intros; cbn; lia)) as Hw.
  destruct st as [[]|c l k|l k]; cbn [barrierFun lookup list_lookup deref mbind result_bind] in Hs; try done.
  all: cbn [ba_status_ok] in Hst; try (match type of Hst with _ /\ _ => destruct Hst as [-> ->] end);
    cbn [lookup list_lookup deref mbind result_bind] in Hs.
  all: try (destruct o; [discriminate|]).
  all: try (unfold ASSERT in Hs; case_bool_decide; [|discriminate]).
  all: cbn [lookup list_lookup deref mbind result_bind] in Hs; injection Hs as <-; cbn [sy_threads].
  all: try (match goal with |- context [Run (if ?b then _ else _)] => destruct b end).
  all: match goal with |- context [<[_ := ?y]> _] => pose proof (Hsum y) as Hy end; cbn [ba_rank] in Hy; lia.
Qed.

Lemma ba_no_deadlock s : ba_inv s -> can_step barrierFun s \/ Forall (fun st => st = Run BPast) (sy_threads s).
Proof.
  intros Hinv. destruct s as [n sems locks cs ts].
  pose proof Hinv as [Hlen Hc Hwf (o & Hlk & Hl) (q & Hcs & _) Hop Hla]. cbn [sy_vars sy_threads sy_locks sy_conds] in *. subst locks cs.
  assert (Hrun : forall i st, ts !! i = Some st -> st <> ba_asleep -> st <> Run BPast -> o = None \/ o = Some i -> can_step barrierFun (mkSys n sems [o] [q] ts)).
  { intros i st Hi Ha Hp Ho. apply (can_step_by barrierFun ba_inv _ i Hinv); [apply ba_inv_step|].
    pose proof (proj1 Hl i st Hi) as Hli. pose proof (Hwf i st Hi) as Hst. cbn [sync_step]. rewrite Hi.
    destruct st as [k|c l k|l k]; [|destruct Hst as (-> & -> & ->); done|destruct Hst as [-> ->]].
    - destruct Ho as [->| ->]; destruct k; cbn in Hli |- *; try done; try (exfalso; intuition discriminate).
      all: rewrite bool_decide_eq_true_2; done.
    - destruct Ho as [->| ->]; [done|]. exfalso. by apply Hli. }
  destruct o as [i|].
  { left. destruct (proj2 Hl i eq_refl) as [st Hi]. pose proof (proj2 (proj1 Hl i st Hi) eq_refl) as Hst.
    apply (Hrun i st Hi); [| |by right]; intros ->; done. }
  destruct (decide (Exists (fun st => st <> ba_asleep /\ st <> Run BPast) ts)) as [He|He].
  { left. apply Exists_exists in He as (st & Hin & Hst). apply list_elem_of_lookup in Hin as [i Hi]. apply (Hrun i st Hi); [apply Hst..|by left]. }
  right. assert (Hall : forall st, st ∈ ts -> st = ba_asleep \/ st = Run BPast).
  { intros st Hin. destruct (decide (st = ba_asleep)); [by left|]. destruct (decide (st = Run BPast)); [by right|].
    exfalso. apply He, Exists_exists. by exists st. }
  assert (H5 : n = barrierThreadNum).
  { rewrite Hc, cnt_all, Hlen; [done|]. intros st Hin. by destruct (Hall st Hin) as [->| ->]. }
  destruct (Hla H5) as (x & sx & Hx & Hsx). pose proof (list_elem_of_lookup_2 _ _ _ Hx) as Hin.
  destruct (Hall sx Hin) as [->| ->]; [exfalso; destruct Hsx as [[]|[|]]; done|].
  destruct (Hop x _ Hx I) as [_ Hno]. apply Forall_forall. intros st Hst. destruct (Hall st Hst) as [->|]; [|done].
  apply list_elem_of_lookup in Hst as [y Hy]. by destruct (Hno y).
Qed.

(** C18.  The barrier holds five threads, for any interleaving: no assertion fails; no thread is
    past the barrier before all five have arrived; every run ends, after at most 35 steps,
    and it ends only when all five threads are past the barrier. *)
Theorem barrier_holds (k : nat) (s : Sys Z ba_pc) :
  nsteps (sstep barrierFun) k barrierThreadTest s ->
  (forall i e, sync_step barrierFun i s <> Err e)
  /\ (Run BPast ∈ sy_threads s -> sy_vars s = barrierThreadNum /\ Forall (fun st => ba_arrived st = true) (sy_threads s))
  /\ (k <= 35)%nat
  /\ (can_step barrierFun s \/ Forall (fun st => st = Run BPast) (sy_threads s)).
Proof.
  intros Hk. assert (Hr : rtc (sstep barrierFun) barrierThreadTest s) by (apply rtc_nsteps; by exists k).
  pose proof (reachable_inv barrierFun ba_inv _ s ba_inv_start ba_inv_step Hr) as Hinv.
  split; [by apply (no_assertion_fails barrierFun ba_inv _ s ba_inv_start ba_inv_step)|]. split; [|split; [|by apply ba_no_deadlock]].
  - intros Hin. apply list_elem_of_lookup in Hin as [i Hi]. destruct (ba_open _ Hinv i _ Hi I) as [H5 _]. split; [done|].
    apply Forall_forall. intros st Hst. destruct (ba_arrived st) eqn:Ha; [done|exfalso].
    apply list_elem_of_lookup in Hst as [j Hj]. pose proof (cnt_lt_length _ _ _ _ Hj Ha) as Hlt.
    rewrite (ba_len _ Hinv), <-(ba_cnt _ Hinv), H5 in Hlt. unfold barrierThreadNum in Hlt. lia.
  - assert (Hb : (sum_list_with ba_rank (sy_threads s) + k <= 35)%nat); [|lia]. clear Hr Hinv.
    remember barrierThreadTest as s0 eqn:E. assert (H0 : ba_inv s0) by (subst; apply ba_inv_start).
    assert (Hm : (sum_list_with ba_rank (sy_threads s0) <= 35)%nat) by (by subst; vm_compute). clear E.
    revert Hm. generalize 35%nat as m. induction Hk as [|k s0 s1 s2 [i s0' s1' Hs] Hk IH]; intros m Hm; [lia|].
    pose proof (ba_decreases i s0' s1' H0 Hs). pose proof (ba_inv_step i s0' _ H0 Hs) as H1. cbn in H1.
    specialize (IH H1 (m - 1)%nat ltac:(lia)). lia.
Qed.

(** Thread 2 has the lock. *)
Lemma barrier_holds_witness :
  let s := mkSys 0 [] [Some 2%nat] [[]] [Run BAcquire; Run BAcquire; Run BCount; Run BAcquire; Run BAcquire] in
  (forall i e, sync_step barrierFun i s <> Err e)
  /\ (Run BPast ∈ sy_threads s -> sy_vars s = barrierThreadNum /\ Forall (fun st => ba_arrived st = true) (sy_threads s))
  /\ (1 <= 35)%nat
  /\ (can_step barrierFun s \/ Forall (fun st => st = Run BPast) (sy_threads s)).
Proof. apply (barrier_holds 1). apply nsteps_once. by apply (SStep barrierFun 2). Defined.

(** ** Readers and writers *)

Inductive rw_pc :=
  | RAcquire1 | RCount | RTest1 | RP | RRelease1 | RRead | RAcquire2 | RUncount | RTest2 | RV | RRelease2 | RYield
  | WP | WBody | WV | WYield.
#[global] Instance rw_pc_eq_dec : EqDecision rw_pc.
Proof. solve_decision. Defined.

(** Lock 0 is [rLock], semaphore 0 [wLock]; the variables are [rCnt] and [bufSize]. *)
Definition readFunc (k : rw_pc) : instr (Z * Z) rw_pc :=
  match k with
  | RAcquire1 => IAcquire 0 RCount
  | RCount => IDo (fun '(rCnt, bufSize) => ((i32 (rCnt + 1), bufSize), RTest1))
  | RTest1 => IDo (fun '(rCnt, bufSize) => ((rCnt, bufSize), if rCnt =? 1 then RP else RRelease1))
  | RP => IP 0 RRelease1
  | RRelease1 => IRelease 0 RRead
  | RRead => IDo (fun v => (v, RAcquire2))
  | RAcquire2 => IAcquire 0 RUncount
  | RUncount => IDo (fun '(rCnt, bufSize) => ((i32 (rCnt - 1), bufSize), RTest2))
  | RTest2 => IDo (fun '(rCnt, bufSize) => ((rCnt, bufSize), if rCnt =? 0 then RV else RRelease2))
  | RV => IV 0 RRelease2
  | RRelease2 => IRelease 0 RYield
  | RYield => IDo (fun v => (v, RAcquire1))
  | _ => IStop
  end.

Definition writeFunc (k : rw_pc) : instr (Z * Z) rw_pc :=
  match k with
  | WP => IP 0 WBody
  | WBody => IDo (fun '(rCnt, bufSize) => ((rCnt, i32 (bufSize + 1)), WV))
  | WV => IV 0 WYield
  | WYield => IDo (fun v => (v, WP))
  | _ => IStop
  end.

Definition rw_code (k : rw_pc) : instr (Z * Z) rw_pc :=
  match k with WP | WBody | WV | WYield => writeFunc k | _ => readFunc k end.

(** The test itself forks three readers and two writers. *)
Definition readWriteThreadTest (readers writers : nat) : Sys (Z * Z) rw_pc :=
  mkSys (0, 0) [1] [None] [] (replicate readers (Run RAcquire1) ++ replicate writers (Run WP)).

Definition rw_pcn (k : rw_pc) : nat :=
  match k with
  | RAcquire1 => 0 | RCount => 1 | RTest1 => 2 | RP => 3 | RRelease1 => 4 | RRead => 5 | RAcquire2 => 6 | RUncount => 7
  | RTest2 => 8 | RV => 9 | RRelease2 => 10 | RYield => 11 | WP => 12 | WBody => 13 | WV => 14 | WYield => 15
  end.

Definition rw_at (k : rw_pc) (st : status rw_pc) : bool := match st with Run k' => Nat.eqb (rw_pcn k') (rw_pcn k) | _ => false end.

Definition rw_locked (st : status rw_pc) : Prop :=
  match st with Run (RCount | RTest1 | RP | RRelease1 | RUncount | RTest2 | RV | RRelease2) => True | _ => False end.
#[global] Instance rw_locked_dec st : Decision (rw_locked st).
Proof. destruct st as [[]| |]; apply _. Defined.

(** Counted in [rCnt]. *)
Definition rw_inside (st : status rw_pc) : bool :=
  match st with Run (RTest1 | RP | RRelease1 | RRead | RAcquire2 | RUncount) => true | _ => false end.
Definition rw_writing (st : status rw_pc) : bool := match st with Run (WBody | WV) => true | _ => false end.

(** Whether the readers together hold [wLock]: when they are counted, except the first one
    until it has passed [P], and the last one until it has passed [V]. *)
Definition rw_held (r : Z) (ts : list (status rw_pc)) : Z :=
  (if 0 <? r then 1 else 0) - cnt (rw_at RP) ts - (if r =? 1 then cnt (rw_at RTest1) ts else 0)
  + cnt (rw_at RV) ts + (if r =? 0 then cnt (rw_at RTest2) ts else 0).

Definition rw_status_ok (r : Z) (st : status rw_pc) : Prop :=
  match st with Run RP => r = 1 | Run RV => r = 0 | Run _ => True | _ => False end.

Record rw_inv (s : Sys (Z * Z) rw_pc) : Prop := {
  rw_len : Z.of_nat (length (sy_threads s)) < 2 ^ 31;
  rw_cnt : (sy_vars s).1 = cnt rw_inside (sy_threads s);
  rw_wf : forall i st, sy_threads s !! i = Some st -> rw_status_ok (sy_vars s).1 st;
  rw_lock : exists o, sy_locks s = [o] /\ locks_ok rw_locked o (sy_threads s);
  rw_sem : exists w, sy_sems s = [w] /\ 0 <= w /\ w + cnt rw_writing (sy_threads s) + rw_held (sy_vars s).1 (sy_threads s) = 1
}.

Lemma rw_run r st : rw_status_ok r st -> exists k, st = Run k.
Proof. destruct st; cbn; [by eexists|done|done]. Qed.

Lemma rw_at_eq k st : rw_at k st = true -> st = Run k.
Proof. destruct st as [k'| |]; cbn; [|done|done]. intros E%Nat.eqb_eq. by destruct k, k'. Qed.

(** The other points under the lock are empty while a thread is at one of them. *)
Lemma rw_alone o ts i k k' :
  locks_ok rw_locked o ts -> ts !! i = Some (Run k) -> rw_locked (Run k) -> rw_locked (Run k') -> k' <> k -> cnt (rw_at k') ts = 0.
Proof.
  intros Hl Hi Hk Hk' Hne. apply cnt_zero. intros j st Hj. destruct (rw_at k' st) eqn:E; [exfalso|done].
  apply rw_at_eq in E as ->. pose proof (locks_unique rw_locked o ts i j _ _ Hl Hi Hj Hk Hk') as ->. congruence.
Qed.

Lemma rw_one o ts i k :
  locks_ok rw_locked o ts -> ts !! i = Some (Run k) -> rw_locked (Run k) -> cnt (rw_at k) ts = 1.
Proof.
  intros Hl Hi Hk. pose proof (cnt_insert (rw_at k) ts i (Run k) (Asleep 0 0 k) Hi) as Hc.
  rewrite cnt_zero in Hc.
  - cbn in Hc. rewrite Nat.eqb_refl in Hc. lia.
  - intros j st Hj. apply list_lookup_insert_Some in Hj as [(_ & <- & _)|[Hne Hj]]; [done|].
    destruct (rw_at k st) eqn:E; [exfalso|done]. apply rw_at_eq in E as ->.
    by apply Hne, (locks_unique rw_locked o ts i j (Run k) (Run k)).
Qed.

Lemma rw_none ts k : locks_ok rw_locked None ts -> rw_locked (Run k) -> cnt (rw_at k) ts = 0.
Proof.
  intros Hl Hk. apply cnt_zero. intros j st Hj. destruct (rw_at k st) eqn:E; [exfalso|done].
  apply rw_at_eq in E as ->. by apply (locks_free rw_locked ts j _ Hl Hj).
Qed.

(** Thread [i] goes from [k] to [k']. *)
Lemma rw_move r r' bs bs' w w' o o' cs ts i k k' :
  rw_inv (mkSys (r, bs) [w] [o] cs ts) -> ts !! i = Some (Run k) -> locks_ok rw_locked o' (<[i := Run k']> ts) ->
  r' = r + (if rw_inside (Run k') then 1 else 0) - (if rw_inside (Run k) then 1 else 0) -> rw_status_ok r' (Run k') ->
  r' = r \/ rw_locked (Run k) -> 0 <= w' ->
  w' + (if rw_writing (Run k') then 1 else 0) + rw_held r' (<[i := Run k']> ts)
    = w + (if rw_writing (Run k) then 1 else 0) + rw_held r ts ->
  rw_inv (mkSys (r', bs') [w'] [o'] cs (<[i := Run k']> ts)).
Proof.
  intros [Hlen Hc Hwf (o0 & [= <-] & Hl) (w0 & [= <-] & Hw & Hs)] Hi Ho' Hr Hst Hsame Hw' Hs'.
  cbn [sy_vars sy_threads sy_locks sy_sems fst] in *. constructor; cbn [sy_vars sy_threads sy_locks sy_sems fst].
  - by rewrite length_insert.
  - rewrite (cnt_insert _ _ _ _ _ Hi). lia.
  - intros j st Hj. apply list_lookup_insert_Some in Hj as [(_ & <- & _)|[Hne Hj]]; [done|]. pose proof (Hwf j st Hj) as Hok.
    destruct Hsame as [->|Hk]; [done|]. destruct st as [kj| |]; [|done|done].
    assert (Hn : ~ rw_locked (Run kj)) by (intros Hkj; by apply Hne, (locks_unique rw_locked o ts i j (Run k) (Run kj))).
    destruct kj; done || (exfalso; by apply Hn).
  - by exists o'.
  - exists w'. split; [done|]. split; [done|]. rewrite (cnt_insert _ _ _ _ _ Hi). lia.
Qed.

Lemma rw_held_insert r ts i k k' : ts !! i = Some (Run k) ->
  rw_held r (<[i := Run k']> ts)
  = (if 0 <? r then 1 else 0)
    - (cnt (rw_at RP) ts - (if rw_at RP (Run k) then 1 else 0) + (if rw_at RP (Run k') then 1 else 0))
    - (if r =? 1 then cnt (rw_at RTest1) ts - (if rw_at RTest1 (Run k) then 1 else 0) + (if rw_at RTest1 (Run k') then 1 else 0) else 0)
    + (cnt (rw_at RV) ts - (if rw_at RV (Run k) then 1 else 0) + (if rw_at RV (Run k') then 1 else 0))
    + (if r =? 0 then cnt (rw_at RTest2) ts - (if rw_at RTest2 (Run k) then 1 else 0) + (if rw_at RTest2 (Run k') then 1 else 0) else 0).
Proof. intros Hi. unfold rw_held. by rewrite !(cnt_insert _ _ _ _ _ Hi). Qed.

(** Compares what the readers hold before and after a step of a thread at a known point. *)
Ltac rw_account Hl Hi :=
  rewrite (rw_held_insert _ _ _ _ _ Hi); unfold rw_held; cbn [rw_at rw_pcn Nat.eqb rw_writing];
  try (pose proof (rw_one _ _ _ _ Hl Hi I));
  try (pose proof (rw_alone _ _ _ _ RP Hl Hi I I ltac:(discriminate)));
  try (pose proof (rw_alone _ _ _ _ RTest1 Hl Hi I I ltac:(discriminate)));
  try (pose proof (rw_alone _ _ _ _ RV Hl Hi I I ltac:(discriminate)));
  try (pose proof (rw_alone _ _ _ _ RTest2 Hl Hi I I ltac:(discriminate)));
  repeat match goal with
  | |- context [0 <? ?x] => destruct (Z.ltb_spec 0 x)
  | |- context [?x =? ?y] => destruct (Z.eqb_spec x y)
  end; lia.

Lemma rw_inv_step i s r :
  rw_inv s -> sync_step rw_code i s = r -> match r with Ok (Some s') => rw_inv s' | Ok None => True | Err _ => False end.
Proof.
  intros Hinv <-. destruct s as [[rc bs] sems locks cs ts].
  pose proof Hinv as [Hlen Hc Hwf (o & Hlk & Hl) (w & Hsm & Hw & Hs)]. cbn [sy_vars sy_threads sy_locks sy_sems fst] in *. subst locks sems.
  cbn [sync_step]. destruct (ts !! i) as [st|] eqn:Hi; [|done]. pose proof (Hwf i _ Hi) as Hst. destruct (rw_run _ _ Hst) as [k ->].
  pose proof (proj1 (proj1 Hl i _ Hi)) as Ho.
  pose proof (cnt_nonneg rw_inside ts). pose proof (cnt_le_length rw_inside ts).
  assert (Hin : rw_inside (Run k) = true -> 1 <= rc) by (intros E; pose proof (cnt_at _ _ _ _ Hi E); lia).
  assert (Hout : rw_inside (Run k) = false -> rc < 2 ^ 31 - 1) by (intros E; pose proof (cnt_lt_length _ _ _ _ Hi E); lia).
  destruct k; cbn [rw_code readFunc writeFunc lookup list_lookup deref mbind result_bind]; cbn [rw_status_ok] in Hst.
  all: try (specialize (Ho I); subst o); try (specialize (Hin eq_refl)); try (specialize (Hout eq_refl)).
  all: try (match goal with |- context [match ?x with Some _ => Ok None | None => _ end] => destruct x; [exact I|] end).
  all: try (rewrite bool_decide_eq_true_2 by done; cbn [ASSERT mbind result_bind]).
  all: try (match goal with |- context [if ?x =? 0 then Ok None else _] => destruct (Z.eqb_spec x 0); [exact I|] end).
  all: try (rewrite i32_id by (unfold in_i32; lia)).
  all: try (match goal with |- context [Run (if ?x =? ?y then _ else _)] => destruct (Z.eqb_spec x y) end).
  all: cbn [insert list_insert].
  all: apply (rw_move rc _ bs _ w _ _ _ cs ts i _ _ Hinv Hi);
    try (by apply (locks_insert rw_locked _ _ ts i _ _ Hl Hi); [left|]); try (by apply (locks_insert rw_locked _ _ ts i _ _ Hl Hi); [right|]);
    try (by apply (locks_outside rw_locked _ ts i _ _ Hl Hi); intros []); try done; try (by left); try (by right); try (cbn; lia).
  all: rw_account Hl Hi.
Qed.

Lemma rw_inv_start readers writers :
  Z.of_nat (readers + writers) < 2 ^ 31 -> rw_inv (readWriteThreadTest readers writers).
Proof.
  intros Hn.
  assert (Hrun : forall i st, sy_threads (readWriteThreadTest readers writers) !! i = Some st -> st = Run RAcquire1 \/ st = Run WP).
  { intros i st Hi. apply lookup_app_Some in Hi as [Hi|[_ Hi]]; apply lookup_replicate in Hi as [-> _]; auto. }
  constructor; cbn [sy_vars sy_threads sy_locks sy_sems fst readWriteThreadTest].
  - by rewrite length_app, !length_replicate.
  - by rewrite cnt_app, !cnt_replicate.
  - intros i st Hi. by destruct (Hrun i st Hi) as [->| ->].
  - exists None. split; [done|]. split; [|done]. intros i st Hi. by destruct (Hrun i st Hi) as [->| ->].
  - exists 1. split; [done|]. split; [done|]. unfold rw_held. by rewrite !cnt_app, !cnt_replicate.
Qed.

(** While somebody reads, the readers hold [wLock]. *)
Lemma rw_reading s i : rw_inv s -> sy_threads s !! i = Some (Run RRead) -> 1 <= rw_held (sy_vars s).1 (sy_threads s).
Proof.
  intros [_ Hc Hwf _ _] Hi. pose proof (cnt_at rw_inside _ _ _ Hi eq_refl) as Hr. unfold rw_held.
  pose proof (cnt_nonneg (rw_at RV) (sy_threads s)). pose proof (cnt_nonneg (rw_at RTest2) (sy_threads s)).
  assert (Hx : forall k, k = RP \/ (k = RTest1 /\ (sy_vars s).1 = 1) -> cnt (rw_at k) (sy_threads s) = 0).
  { intros k Hk. apply cnt_zero. intros j st Hj. destruct (rw_at k st) eqn:E; [exfalso|done]. apply rw_at_eq in E as ->.
    assert (H1 : (sy_vars s).1 = 1) by (destruct Hk as [->|[_ ?]]; [exact (Hwf j _ Hj)|done]).
    assert (i <> j) by (intros ->; rewrite Hi in Hj; destruct Hk as [->|[-> _]]; discriminate).
    pose proof (cnt_two rw_inside _ i j _ _ Hi Hj eq_refl ltac:(by destruct Hk as [->|[-> _]])). lia. }
  rewrite (Hx RP) by by left. destruct (Z.ltb_spec 0 (sy_vars s).1); [|lia].
  destruct (Z.eqb_spec (sy_vars s).1 1); [rewrite (Hx RTest1) by by right|]; destruct (_ =? 0); lia.
Qed.

Lemma rw_held_nonneg s : rw_inv s -> 0 <= rw_held (sy_vars s).1 (sy_threads s).
Proof.
  intros [_ Hc Hwf (o & _ & Hl) _]. unfold rw_held. set (r := (sy_vars s).1) in *. set (ts := sy_threads s) in *.
  pose proof (cnt_nonneg (rw_at RV) ts). pose proof (cnt_nonneg (rw_at RTest2) ts).
  assert (H2 : 0 <= (if r =? 0 then cnt (rw_at RTest2) ts else 0)) by (destruct (r =? 0); lia).
  destruct (decide (0 < cnt (rw_at RP) ts)) as [HP|HP]; [|destruct (decide (0 < cnt (rw_at RTest1) ts)) as [HT|HT]].
  - destruct (cnt_ex _ _ HP) as (i & st & Hi & Hst). apply rw_at_eq in Hst as ->. pose proof (Hwf i _ Hi) as H1. cbn in H1.
    rewrite (rw_one _ _ _ _ Hl Hi I), (rw_alone _ _ _ _ RTest1 Hl Hi I I ltac:(discriminate)).
    destruct (Z.ltb_spec 0 r), (Z.eqb_spec r 1); lia.
  - destruct (cnt_ex _ _ HT) as (i & st & Hi & Hst). apply rw_at_eq in Hst as ->. pose proof (cnt_at rw_inside _ _ _ Hi eq_refl).
    rewrite (rw_one _ _ _ _ Hl Hi I), (rw_alone _ _ _ _ RP Hl Hi I I ltac:(discriminate)).
    destruct (Z.ltb_spec 0 r), (Z.eqb_spec r 1); lia.
  - pose proof (cnt_nonneg (rw_at RP) ts). pose proof (cnt_nonneg (rw_at RTest1) ts).
    destruct (Z.ltb_spec 0 r), (Z.eqb_spec r 1); lia.
Qed.

(** A thread can run unless it waits for the lock or for [wLock]. *)
Lemma rw_runs v w o cs ts i k : rw_inv (mkSys v [w] [o] cs ts) -> ts !! i = Some (Run k) ->
  match k with RAcquire1 | RAcquire2 => o = None | RP | WP => w <> 0 | _ => True end ->
  can_step rw_code (mkSys v [w] [o] cs ts).
Proof.
  intros Hinv Hi Hk. apply (can_step_by rw_code rw_inv _ i Hinv); [apply rw_inv_step|]. cbn [sync_step]. rewrite Hi.
  destruct v as [r b]. destruct k; cbn [rw_code readFunc writeFunc lookup list_lookup deref mbind result_bind]; subst; try done.
  all: try (destruct (Z.eqb_spec w 0); done).
  all: unfold ASSERT; case_bool_decide; done.
Qed.

Lemma rw_no_deadlock s : rw_inv s -> sy_threads s <> [] -> can_step rw_code s.
Proof.
  intros Hinv Hne. destruct s as [[r b] sems locks cs ts].
  pose proof Hinv as [_ Hc Hwf (o & Hlk & Hl) (w & Hsm & Hw & Hs)]. cbn [sy_vars sy_threads sy_locks sy_sems fst] in *. subst locks sems.
  destruct (decide (0 < cnt rw_writing ts)) as [Hwr|Hwr].
  { destruct (cnt_ex _ _ Hwr) as (i & st & Hi & Hst). destruct (rw_run _ _ (Hwf i st Hi)) as [k ->].
    apply (rw_runs _ _ _ _ _ i k Hinv Hi). by destruct k. }
  destruct o as [i|].
  - destruct (proj2 Hl i eq_refl) as [st Hi]. destruct (rw_run _ _ (Hwf i st Hi)) as [k ->].
    pose proof (proj2 (proj1 Hl i _ Hi) eq_refl) as Hk. apply (rw_runs _ _ _ _ _ i k Hinv Hi).
    destruct k; try done. pose proof (Hwf i _ Hi) as H1. cbn in H1. unfold rw_held in Hs.
    rewrite (rw_one _ _ _ _ Hl Hi I), (rw_alone _ _ _ _ RTest1 Hl Hi I I ltac:(discriminate)),
      (rw_alone _ _ _ _ RV Hl Hi I I ltac:(discriminate)), H1 in Hs.
    change (0 <? 1) with true in Hs. change (1 =? 1) with true in Hs. change (1 =? 0) with false in Hs. cbn iota in Hs. lia.
  - destruct ts as [|st ts']; [done|]. set (ts := st :: ts') in *. assert (Hi : ts !! 0%nat = Some st) by done.
    destruct (rw_run _ _ (Hwf _ st Hi)) as [k ->]. pose proof (locks_free rw_locked ts 0 _ Hl Hi) as Hn.
    destruct (decide (k = WP)) as [->|Hk].
    2:{ apply (rw_runs _ _ _ _ _ 0 k Hinv Hi). destruct k; try done; by destruct Hn. }
    destruct (decide (0 < cnt rw_inside ts)) as [Hin|Hin].
    + destruct (cnt_ex _ _ Hin) as (j & st & Hj & Hst). destruct (rw_run _ _ (Hwf j st Hj)) as [k ->].
      pose proof (locks_free rw_locked ts j _ Hl Hj) as Hn'. apply (rw_runs _ _ _ _ _ j k Hinv Hj).
      destruct k; try done; by destruct Hn'.
    + apply (rw_runs _ _ _ _ _ 0 WP Hinv Hi). pose proof (cnt_nonneg rw_inside ts). assert (r = 0) as -> by lia.
      unfold rw_held in Hs. rewrite !(rw_none ts _ Hl) in Hs by done.
      change (0 <? 0) with false in Hs. change (0 =? 1) with false in Hs. change (0 =? 0) with true in Hs. cbn iota in Hs. lia.
Qed.

(** C19.  Readers and writers, for any number of both (below 2^31) and any interleaving: no
    assertion of [rLock] fails; at most one writer is between the two calls on [wLock], and
    none while a reader reads; [rCnt] is the number of readers that have entered and not
    left; and some thread can always run. *)
Theorem readers_writers (readers writers : nat) (s : Sys (Z * Z) rw_pc) :
  Z.of_nat (readers + writers) < 2 ^ 31 -> rtc (sstep rw_code) (readWriteThreadTest readers writers) s ->
  (forall i e, sync_step rw_code i s <> Err e)
  /\ cnt rw_writing (sy_threads s) <= 1
  /\ (Run RRead ∈ sy_threads s -> cnt rw_writing (sy_threads s) = 0)
  /\ (sy_vars s).1 = cnt rw_inside (sy_threads s)
  /\ (sy_threads s <> [] -> can_step rw_code s).
Proof.
  intros Hn Hr. pose proof (rw_inv_start readers writers Hn) as H0.
  pose proof (reachable_inv rw_code rw_inv _ s H0 rw_inv_step Hr) as Hinv.
  split; [by apply (no_assertion_fails rw_code rw_inv _ s H0 rw_inv_step)|].
  pose proof Hinv as [_ Hc Hwf (o & Hlk & Hl) (w & Hsm & Hw & Hs)]. pose proof (cnt_nonneg rw_writing (sy_threads s)).
  split; [|split; [|split; [done|by apply rw_no_deadlock]]].
  - pose proof (rw_held_nonneg s Hinv). lia.
  - intros Hin. apply list_elem_of_lookup in Hin as [i Hi]. pose proof (rw_reading s i Hinv Hi). lia.
Qed.

(** A reader reads, a second one has the lock, a writer waits. *)
Lemma readers_writers_witness :
  let s := mkSys (1, 0) [0] [Some 1%nat] [] [Run RRead; Run RCount; Run WP] in
  (forall i e, sync_step rw_code i s <> Err e)
  /\ cnt rw_writing (sy_threads s) <= 1
  /\ (Run RRead ∈ sy_threads s -> cnt rw_writing (sy_threads s) = 0)
  /\ (sy_vars s).1 = cnt rw_inside (sy_threads s)
  /\ (sy_threads s <> [] -> can_step rw_code s).
Proof.
  apply (readers_writers 2 1); [done|]. do 5 (eapply rtc_l; [by apply (SStep rw_code 0)|]).
  eapply rtc_l; [by apply (SStep rw_code 1)|]. apply rtc_refl.
Defined.
