(* ===== verification/Machine.v ===== *)
(** * machine/machine.cc, machine/translate.cc and userprog/exception.cc: the user machine

    Registers, main memory, the page table or TLB, address translation, and the kernel's
    reaction to exceptions.  The tables of translation entries live in a store of arrays
    ([m_tables]), because [machine->tlb], [machine->pageTable] and the page tables of
    address spaces may point to the same array.  [interrupt->status] is the field
    [m_status].  An exception may not return to the interrupted instruction (the program
    halts the machine or exits), so the routines run in the monad [user]. *)

From S2P Require Import Prelude BitMap Interrupt.

Definition PageSize : Z := 128.
Definition NumPhysPages : Z := 32.
Definition MemorySize : Z := NumPhysPages * PageSize.
Definition TLBSize : nat := 4.

Definition StackReg : Z := 29.
Definition RetAddrReg : Z := 31.
Definition NumGPRegs : Z := 32.
Definition HiReg : Z := 32.
Definition LoReg : Z := 33.
Definition PCReg : Z := 34.
Definition NextPCReg : Z := 35.
Definition PrevPCReg : Z := 36.
Definition LoadReg : Z := 37.
Definition LoadValueReg : Z := 38.
Definition BadVAddrReg : Z := 39.
Definition NumTotalRegs : nat := 40.

Inductive ExceptionType :=
  | NoException | SyscallException | PageFaultException | ReadOnlyException
  | BusErrorException | AddressErrorException | OverflowException | IllegalInstrException.

#[global] Instance ExceptionType_eq_dec : EqDecision ExceptionType.
Proof. solve_decision. Defined.

Definition SC_Halt : Z := 0.
Definition SC_Exit : Z := 1.

Record TranslationEntry := mkTE {
  te_virtualPage : Z; te_physicalPage : Z;
  te_valid : bool; te_readOnly : bool; te_use : bool; te_dirty : bool;
  te_hitRate : Z
}.

(** The compile-time switches. *)
Record Flags := mkFlags { USE_TLB : bool; TLB_LRU : bool; MULTI_THREAD : bool }.

Record Machine := mkMachine {
  m_registers : list Z;
  m_mainMemory : list Z;                       (* bytes *)
  m_tables : gmap positive (list TranslationEntry);
  m_tlb : option positive;
  m_pageTable : option positive;
  m_pageTableSize : Z;                         (* unsigned int *)
  m_bitMap : BitMap;
  m_status : MachineStatus
}.

Definition m_set_registers (r : list Z) (m : Machine) : Machine :=
  mkMachine r (m_mainMemory m) (m_tables m) (m_tlb m) (m_pageTable m) (m_pageTableSize m) (m_bitMap m) (m_status m).
Definition m_set_memory (mem : list Z) (m : Machine) : Machine :=
  mkMachine (m_registers m) mem (m_tables m) (m_tlb m) (m_pageTable m) (m_pageTableSize m) (m_bitMap m) (m_status m).
Definition m_set_tables (ts : gmap positive (list TranslationEntry)) (m : Machine) : Machine :=
  mkMachine (m_registers m) (m_mainMemory m) ts (m_tlb m) (m_pageTable m) (m_pageTableSize m) (m_bitMap m) (m_status m).
Definition m_set_tlb (p : option positive) (m : Machine) : Machine :=
  mkMachine (m_registers m) (m_mainMemory m) (m_tables m) p (m_pageTable m) (m_pageTableSize m) (m_bitMap m) (m_status m).
Definition m_set_pageTable (p : option positive) (m : Machine) : Machine :=
  mkMachine (m_registers m) (m_mainMemory m) (m_tables m) (m_tlb m) p (m_pageTableSize m) (m_bitMap m) (m_status m).
Definition m_set_pageTableSize (n : Z) (m : Machine) : Machine :=
  mkMachine (m_registers m) (m_mainMemory m) (m_tables m) (m_tlb m) (m_pageTable m) n (m_bitMap m) (m_status m).
Definition m_set_bitMap (b : BitMap) (m : Machine) : Machine :=
  mkMachine (m_registers m) (m_mainMemory m) (m_tables m) (m_tlb m) (m_pageTable m) (m_pageTableSize m) b (m_status m).
Definition m_set_status (s : MachineStatus) (m : Machine) : Machine :=
  mkMachine (m_registers m) (m_mainMemory m) (m_tables m) (m_tlb m) (m_pageTable m) (m_pageTableSize m) (m_bitMap m) s.

(** ** The monad: a result, or the user program does not continue *)

Inductive stop := HaltMachine | ExitThread.
Inductive flow (A : Type) := Next (a : A) (m : Machine) | Stop (why : stop) (m : Machine).
Arguments Next {A} a m.
Arguments Stop {A} why m.

Definition user (A : Type) : Type := Machine -> result (flow A).

#[global] Instance user_ret : MRet user := fun A a m => Ok (Next a m).
#[global] Instance user_bind : MBind user := fun A B f x m =>
  match x m with
  | Ok (Next a m) => f a m
  | Ok (Stop why m) => Ok (Stop why m)
  | Err e => Err e
  end.

Definition gets {A} (f : Machine -> A) : user A := fun m => Ok (Next (f m) m).
Definition modify (f : Machine -> Machine) : user unit := fun m => Ok (Next tt (f m)).
Definition lift {A} (r : result A) : user A := fun m =>
  match r with Ok a => Ok (Next a m) | Err e => Err e end.
Definition stop_with {A} (why : stop) : user A := fun m => Ok (Stop why m).
Definition ASSERT_u (b : bool) : user unit := lift (ASSERT b).

(** ** Registers *)

(** [registers[i]], as the simulator itself accesses it. *)
Definition reg (i : Z) : user Z := fun m =>
  if 0 <=? i then r ← deref (m_registers m !! Z.to_nat i); Ok (Next r m) else Err MemFault.

Definition set_reg (i v : Z) : user unit := fun m =>
  if 0 <=? i then _ ← deref (m_registers m !! Z.to_nat i);
                  Ok (Next tt (m_set_registers (<[Z.to_nat i := v]> (m_registers m)) m))
  else Err MemFault.

Definition Machine_ReadRegister (num : Z) : user Z :=
  ASSERT_u ((0 <=? num) && (num <? Z.of_nat NumTotalRegs)) ;; reg num.

Definition Machine_WriteRegister (num value : Z) : user unit :=
  ASSERT_u ((0 <=? num) && (num <? Z.of_nat NumTotalRegs)) ;; set_reg num value.

(** [registers[registers[LoadReg]] = ...] *)
Definition Machine_DelayedLoad (nextReg nextValue : Z) : user unit :=
  r ← reg LoadReg;
  v ← reg LoadValueReg;
  set_reg r v ;;
  set_reg LoadReg nextReg ;;
  set_reg LoadValueReg nextValue ;;
  set_reg 0 0.

(** ** Translation tables *)

(** [p[i]] for a pointer to a table. *)
Definition table_entry (p : option positive) (i : nat) : user TranslationEntry := fun m =>
  p ← deref p; t ← deref (m_tables m !! p); e ← deref (t !! i); Ok (Next e m).

Definition set_entry (p : option positive) (i : nat) (e : TranslationEntry) : user unit := fun m =>
  p ← deref p; t ← deref (m_tables m !! p); _ ← deref (t !! i);
  Ok (Next tt (m_set_tables (<[p := <[i := e]> t]> (m_tables m)) m)).

(** The search of the TLB: the index of the first valid entry for the page. *)
Fixpoint tlb_search (p : option positive) (vpn : Z) (idxs : list nat) : user (option nat) :=
  match idxs with
  | [] => mret None
  | i :: idxs =>
      e ← table_entry p i;
      if te_valid e && (u32 (te_virtualPage e) =? vpn) then
        set_entry p i (mkTE (te_virtualPage e) (te_physicalPage e) (te_valid e) (te_readOnly e) (te_use e)
                            (te_dirty e) (i32 (te_hitRate e + 1))) ;;
        mret (Some i)
      else tlb_search p vpn idxs
  end.

(** [Machine::Translate]: the physical address, or the exception. *)
Definition Machine_Translate (virtAddr size : Z) (writing : bool) : user (ExceptionType * Z) :=
  if ((size =? 4) && negb (Z.land virtAddr 3 =? 0)) || ((size =? 2) && negb (Z.land virtAddr 1 =? 0))
  then mret (AddressErrorException, 0)
  else
  tlb ← gets m_tlb;
  pageTable ← gets m_pageTable;
  pageTableSize ← gets m_pageTableSize;
  ASSERT_u (bool_decide (tlb = None) || bool_decide (pageTable = None)) ;;
  ASSERT_u (bool_decide (tlb <> None) || bool_decide (pageTable <> None)) ;;
  let vpn := u32 virtAddr `div` PageSize in
  let offset := u32 virtAddr `mod` PageSize in
  found ← match tlb with
          | None =>
              if pageTableSize <=? vpn then mret (inl AddressErrorException)
              else e ← table_entry pageTable (Z.to_nat vpn);
                   if negb (te_valid e) then mret (inl PageFaultException)
                   else mret (inr (pageTable, Z.to_nat vpn))
          | Some _ =>
              i ← tlb_search tlb vpn (seq 0 TLBSize);
              match i with
              | None => mret (inl PageFaultException)
              | Some i => mret (inr (tlb, i))
              end
          end;
  match found with
  | inl ex => mret (ex, 0)
  | inr (p, i) =>
      e ← table_entry p i;
      if te_readOnly e && writing then mret (ReadOnlyException, 0)
      else
        let pageFrame := u32 (te_physicalPage e) in
        if NumPhysPages <=? pageFrame then mret (BusErrorException, 0)
        else
          set_entry p i (mkTE (te_virtualPage e) (te_physicalPage e) (te_valid e) (te_readOnly e) true
                              (if writing then true else te_dirty e) (te_hitRate e)) ;;
          let physAddr := pageFrame * PageSize + offset in
          ASSERT_u ((0 <=? physAddr) && (physAddr + size <=? MemorySize)) ;;
          mret (NoException, physAddr)
  end.

(** ** machine.cc: the TLB, the frames *)

Section Kernel.
Context (flags : Flags).

(** The first entry that is not valid. *)
Fixpoint tlb_free (p : option positive) (idxs : list nat) : user (option nat) :=
  match idxs with
  | [] => mret None
  | i :: idxs => e ← table_entry p i; if negb (te_valid e) then mret (Some i) else tlb_free p idxs
  end.

(** The valid entry with the smallest number of hits. *)
Fixpoint tlb_least (p : option positive) (idxs : list nat) (min : Z) (swapI : option nat) : user (option nat) :=
  match idxs with
  | [] => mret swapI
  | i :: idxs =>
      e ← table_entry p i;
      if te_valid e && (te_hitRate e <? min) then tlb_least p idxs (te_hitRate e) (Some i)
      else tlb_least p idxs min swapI
  end.

(** [tlb[i] = tlb[i+1]] for all but the last entry. *)
Fixpoint tlb_shift (p : option positive) (idxs : list nat) : user unit :=
  match idxs with
  | [] => mret tt
  | i :: idxs => e ← table_entry p (S i); set_entry p i e ;; tlb_shift p idxs
  end.

Definition Machine_tlbSwap (vaddr : Z) : user unit :=
  tlb ← gets m_tlb;
  pageTable ← gets m_pageTable;
  ASSERT_u (bool_decide (tlb <> None)) ;;
  free ← tlb_free tlb (seq 0 TLBSize);
  let vpn := vaddr `quot` PageSize in
  swapI ← match free with
          | Some i => mret (Some i)
          | None =>
              if TLB_LRU flags then tlb_least tlb (seq 0 TLBSize) (i32 (i32 (Z.shiftl 1 31) - 1)) None
              else
                tlb_shift tlb (seq 0 (TLBSize - 1)) ;;
                (if vpn <? 0 then lift (Err MemFault) else mret tt) ;;
                pe ← table_entry pageTable (Z.to_nat vpn);
                e ← table_entry tlb (TLBSize - 1);
                set_entry tlb (TLBSize - 1)
                  (mkTE (te_virtualPage e) (te_physicalPage pe) (te_valid e) (te_readOnly e) (te_use e)
                        (te_dirty e) (te_hitRate e)) ;;
                mret (Some (TLBSize - 1)%nat)
          end;
  swapI ← lift (deref swapI);
  e ← table_entry tlb swapI;
  set_entry tlb swapI (mkTE vpn (te_physicalPage e) true false false false 0).

(** [Machine::Find]: a free frame. *)
Definition Machine_Find : user Z :=
  bm ← gets m_bitMap;
  '(tmp, bm) ← lift (BitMap_Find bm);
  modify (m_set_bitMap bm) ;;
  ASSERT_u (negb (tmp =? -1)) ;;
  mret tmp.

Definition Machine_Clear (num : Z) : user unit :=
  bm ← gets m_bitMap;
  t ← lift (BitMap_Test bm num);
  if (t : bool) then bm ← lift (BitMap_Clear bm num); modify (m_set_bitMap bm) else mret tt.

Fixpoint ClearAll_loop (p : option positive) (idxs : list nat) : user unit :=
  match idxs with
  | [] => mret tt
  | i :: idxs => e ← table_entry p i; Machine_Clear (te_physicalPage e) ;; ClearAll_loop p idxs
  end.

Definition Machine_ClearAll : user unit :=
  n ← gets m_pageTableSize;
  p ← gets (if USE_TLB flags then m_tlb else m_pageTable);
  ClearAll_loop p (seq 0 (Z.to_nat n)).

(** ** userprog/exception.cc *)

Definition IncrementPCRegs : user unit :=
  pc ← Machine_ReadRegister NextPCReg; Machine_WriteRegister PCReg pc.

(** [interrupt->Halt()] and [currentThread->Finish()] do not return. *)
Definition ExceptionHandler (which : ExceptionType) : user unit :=
  type ← Machine_ReadRegister 2;
  if bool_decide (which = SyscallException) && (type =? SC_Halt) then
    Machine_ClearAll ;; stop_with HaltMachine
  else if bool_decide (which = SyscallException) && (type =? SC_Exit) then
    Machine_ClearAll ;; Machine_ReadRegister 4 ;; IncrementPCRegs ;; stop_with ExitThread
  else if bool_decide (which = PageFaultException) then
    vaddr ← Machine_ReadRegister BadVAddrReg;
    tlb ← gets m_tlb;
    match tlb with Some _ => Machine_tlbSwap vaddr | None => mret tt end
  else ASSERT_u false.

Definition Machine_RaiseException (which : ExceptionType) (badVAddr : Z) : user unit :=
  set_reg BadVAddrReg badVAddr ;;
  Machine_DelayedLoad 0 0 ;;
  modify (m_set_status SystemMode) ;;
  ExceptionHandler which ;;
  modify (m_set_status UserMode).

(** ** translate.cc: memory *)

(** The bytes at a physical address. *)
Definition load (pa : Z) (n : nat) : user (list Z) := fun m =>
  if (0 <=? pa) && (pa + Z.of_nat n <=? Z.of_nat (length (m_mainMemory m)))
  then Ok (Next (slice (m_mainMemory m) (Z.to_nat pa) n) m) else Err MemFault.

Definition store (pa : Z) (bs : list Z) : user unit := fun m =>
  if (0 <=? pa) && (pa + Z.of_nat (length bs) <=? Z.of_nat (length (m_mainMemory m)))
  then Ok (Next tt (m_set_memory (splice (m_mainMemory m) (Z.to_nat pa) bs) m)) else Err MemFault.

(** The translation both routines start with.  [garbage] is what [physicalAddress] holds
    before it is assigned: when the page is still missing after the exception has been
    handled, the result of the second translation is not looked at. *)
Definition translate_retry (garbage addr size : Z) (writing : bool) : user (option Z) :=
  '(ex, pa) ← Machine_Translate addr size writing;
  if decide (ex = NoException) then mret (Some pa)
  else
    Machine_RaiseException ex addr ;;
    if decide (ex = PageFaultException) then
      '(ex, pa) ← Machine_Translate addr size true;
      mret (Some (if decide (ex = NoException) then pa else garbage))
    else mret None.

Definition Machine_ReadMem (garbage addr size : Z) : user (option Z) :=
  pa ← translate_retry garbage addr size false;
  match pa with
  | None => mret None
  | Some pa =>
      if size =? 1 then bs ← load pa 1; mret (Some (i8 (le_dec bs)))
      else if size =? 2 then bs ← load pa 2; mret (Some (le_dec bs))
      else if size =? 4 then bs ← load pa 4; mret (Some (int_of_bytes bs))
      else ASSERT_u false ;; mret None
  end.

Definition Machine_WriteMem (garbage addr size value : Z) : user bool :=
  pa ← translate_retry garbage addr size true;
  match pa with
  | None => mret false
  | Some pa =>
      (if size =? 1 then store pa (le_enc 1 value)
       else if size =? 2 then store pa (le_enc 2 value)
       else if size =? 4 then store pa (le_enc 4 value)
       else ASSERT_u false) ;;
      mret true
  end.
End Kernel.

(** The constructor, with a TLB or without; the words of the bitmap start as [garbage] and
    so do the fields of the TLB entries that are not set and [pageTableSize]. *)
Definition Machine_new (flags : Flags) (garbage : list Z) (tes : list TranslationEntry) (pts : Z) : result Machine :=
  bm ← BitMap_new garbage NumPhysPages;
  let tlb := map (fun e => mkTE (te_virtualPage e) (te_physicalPage e) false (te_readOnly e) (te_use e)
                                (te_dirty e) 0) (take TLBSize tes) in
  Ok (mkMachine (replicate NumTotalRegs 0) (replicate (Z.to_nat MemorySize) 0)
        (if USE_TLB flags then {[ 1%positive := tlb ]} else ∅)
        (if USE_TLB flags then Some 1%positive else None) None pts bm SystemMode).
