(* ===== verification/Mips.v ===== *)
(** * machine/mipssim.cc and mipssim.h: the instruction set

    Decoding and execution of one instruction of a user program, with the delayed load and
    the branch delay slot of the MIPS R2000, in the monad of [Machine.v]. *)

From S2P Require Import Prelude BitMap Interrupt Machine.

Inductive OpCode :=
  | OP_ADD | OP_ADDI | OP_ADDIU | OP_ADDU | OP_AND | OP_ANDI | OP_BEQ | OP_BGEZ | OP_BGEZAL
  | OP_BGTZ | OP_BLEZ | OP_BLTZ | OP_BLTZAL | OP_BNE | OP_DIV | OP_DIVU | OP_J | OP_JAL
  | OP_JALR | OP_JR | OP_LB | OP_LBU | OP_LH | OP_LHU | OP_LUI | OP_LW | OP_LWL | OP_LWR
  | OP_MFHI | OP_MFLO | OP_MTHI | OP_MTLO | OP_MULT | OP_MULTU | OP_NOR | OP_OR | OP_ORI
  | OP_RFE | OP_SB | OP_SH | OP_SLL | OP_SLLV | OP_SLT | OP_SLTI | OP_SLTIU | OP_SLTU
  | OP_SRA | OP_SRAV | OP_SRL | OP_SRLV | OP_SUB | OP_SUBU | OP_SW | OP_SWL | OP_SWR | OP_XOR
  | OP_XORI | OP_SYSCALL | OP_UNIMP | OP_RES
  | SPECIAL | BCOND.

#[global] Instance OpCode_eq_dec : EqDecision OpCode.
Proof. solve_decision. Defined.

Inductive Format := IFMT | JFMT | RFMT.

#[global] Instance Format_eq_dec : EqDecision Format.
Proof. solve_decision. Defined.

Definition opTable : list (OpCode * Format) :=
  [ (SPECIAL, RFMT); (BCOND, IFMT); (OP_J, JFMT); (OP_JAL, JFMT);
    (OP_BEQ, IFMT); (OP_BNE, IFMT); (OP_BLEZ, IFMT); (OP_BGTZ, IFMT);
    (OP_ADDI, IFMT); (OP_ADDIU, IFMT); (OP_SLTI, IFMT); (OP_SLTIU, IFMT);
    (OP_ANDI, IFMT); (OP_ORI, IFMT); (OP_XORI, IFMT); (OP_LUI, IFMT);
    (OP_UNIMP, IFMT); (OP_UNIMP, IFMT); (OP_UNIMP, IFMT); (OP_UNIMP, IFMT);
    (OP_RES, IFMT); (OP_RES, IFMT); (OP_RES, IFMT); (OP_RES, IFMT);
    (OP_RES, IFMT); (OP_RES, IFMT); (OP_RES, IFMT); (OP_RES, IFMT);
    (OP_RES, IFMT); (OP_RES, IFMT); (OP_RES, IFMT); (OP_RES, IFMT);
    (OP_LB, IFMT); (OP_LH, IFMT); (OP_LWL, IFMT); (OP_LW, IFMT);
    (OP_LBU, IFMT); (OP_LHU, IFMT); (OP_LWR, IFMT); (OP_RES, IFMT);
    (OP_SB, IFMT); (OP_SH, IFMT); (OP_SWL, IFMT); (OP_SW, IFMT);
    (OP_RES, IFMT); (OP_RES, IFMT); (OP_SWR, IFMT); (OP_RES, IFMT);
    (OP_UNIMP, IFMT); (OP_UNIMP, IFMT); (OP_UNIMP, IFMT); (OP_UNIMP, IFMT);
    (OP_RES, IFMT); (OP_RES, IFMT); (OP_RES, IFMT); (OP_RES, IFMT);
    (OP_UNIMP, IFMT); (OP_UNIMP, IFMT); (OP_UNIMP, IFMT); (OP_UNIMP, IFMT);
    (OP_RES, IFMT); (OP_RES, IFMT); (OP_RES, IFMT); (OP_RES, IFMT) ].

Definition specialTable : list OpCode :=
  [ OP_SLL; OP_RES; OP_SRL; OP_SRA; OP_SLLV; OP_RES; OP_SRLV; OP_SRAV;
    OP_JR; OP_JALR; OP_RES; OP_RES; OP_SYSCALL; OP_UNIMP; OP_RES; OP_RES;
    OP_MFHI; OP_MTHI; OP_MFLO; OP_MTLO; OP_RES; OP_RES; OP_RES; OP_RES;
    OP_MULT; OP_MULTU; OP_DIV; OP_DIVU; OP_RES; OP_RES; OP_RES; OP_RES;
    OP_ADD; OP_ADDU; OP_SUB; OP_SUBU; OP_AND; OP_OR; OP_XOR; OP_NOR;
    OP_RES; OP_RES; OP_SLT; OP_SLTU; OP_RES; OP_RES; OP_RES; OP_RES;
    OP_RES; OP_RES; OP_RES; OP_RES; OP_RES; OP_RES; OP_RES; OP_RES;
    OP_RES; OP_RES; OP_RES; OP_RES; OP_RES; OP_RES; OP_RES; OP_RES ].

Record Instruction := mkInstr {
  in_opCode : OpCode; in_rs : Z; in_rt : Z; in_rd : Z; in_extra : Z
}.

(** The second level of decoding, for SPECIAL and BCOND. *)
Definition Decode_op (op : OpCode) (value : Z) : result OpCode :=
  if decide (op = SPECIAL) then deref (specialTable !! Z.to_nat (Z.land value 0x3f))
  else if decide (op = BCOND) then
    let i := Z.land value 0x1f0000 in
    Ok (if i =? 0 then OP_BLTZ
        else if i =? 0x10000 then OP_BGEZ
        else if i =? 0x100000 then OP_BLTZAL
        else if i =? 0x110000 then OP_BGEZAL
        else OP_UNIMP)
  else Ok op.

(** [Instruction::Decode]; [value] is an [unsigned int]. *)
Definition Instruction_Decode (value : Z) : result Instruction :=
  let rs := Z.land (Z.shiftr value 21) 0x1f in
  let rt := Z.land (Z.shiftr value 16) 0x1f in
  let rd := Z.land (Z.shiftr value 11) 0x1f in
  '(op, format) ← deref (opTable !! Z.to_nat (Z.land (Z.shiftr value 26) 0x3f));
  let extra :=
    match format with
    | IFMT => let e := Z.land value 0xffff in
              if negb (Z.land e 0x8000 =? 0) then i32 (Z.lor e 0xffff0000) else e
    | RFMT => Z.land (Z.shiftr value 6) 0x1f
    | JFMT => Z.land value 0x3ffffff
    end in
  op ← Decode_op op value;
  Ok (mkInstr op rs rt rd extra).

(** ** Multiplication *)

(** The loop of [Mult]: [n] is the number of rounds left. *)
Fixpoint Mult_loop (n : nat) (a bLo bHi lo hi : Z) : Z * Z :=
  match n with
  | O => (hi, lo)
  | S n =>
      let odd := negb (Z.land a 1 =? 0) in
      let lo' := if odd then u32 (lo + bLo) else lo in
      let hi' := if odd then u32 ((if lo' <? bLo then u32 (hi + 1) else hi) + bHi) else hi in
      if odd && (Z.land (u32 a) 0xfffffffe =? 0) then (hi', lo')
      else
        let bHi' := u32 (Z.shiftl bHi 1) in
        let bHi' := if negb (Z.land bLo 0x80000000 =? 0) then Z.lor bHi' 1 else bHi' in
        Mult_loop n (Z.shiftr a 1) (u32 (Z.shiftl bLo 1)) bHi' lo' hi'
  end.

(** The contents of Hi and Lo. *)
Definition Mult (a b : Z) (signedArith : bool) : Z * Z :=
  if (a =? 0) || (b =? 0) then (0, 0)
  else
    let negative := signedArith && xorb (a <? 0) (b <? 0) in
    let a' := if signedArith && (a <? 0) then i32 (- a) else a in
    let b' := if signedArith && (b <? 0) then i32 (- b) else b in
    let '(hi, lo) := Mult_loop 32 a' (u32 b') 0 0 0 in
    if negative then
      let hi := u32 (Z.lnot hi) in
      let lo := u32 (Z.lnot lo + 1) in
      (i32 (if lo =? 0 then u32 (hi + 1) else hi), i32 lo)
    else (i32 hi, i32 lo).

(** ** One instruction *)

Definition IndexToAddr (x : Z) : Z := i32 (Z.shiftl x 2).
Definition R31 : Z := 31.

(** [x & SIGN_BIT] as a condition. *)
Definition sign (x : Z) : bool := negb (Z.land (u32 x) 0x80000000 =? 0).

(** What an instruction leaves for the end of [OneInstruction]: the next program counter
    and the delayed load; [None] when the routine returns early. *)
Definition done := option (Z * (Z * Z)).

Section Run.
Context (flags : Flags) (garbage : Z).

Definition raise (which : ExceptionType) (badVAddr : Z) : user done :=
  Machine_RaiseException flags which badVAddr ;; mret None.

(** The routine goes on only when the memory access succeeded. *)
Definition if_read (addr size : Z) (k : Z -> user done) : user done :=
  v ← Machine_ReadMem flags garbage addr size;
  match v with Some v => k v | None => mret None end.

Definition if_written (addr size value : Z) (k : user done) : user done :=
  b ← Machine_WriteMem flags garbage addr size value;
  if (b : bool) then k else mret None.

(** The unaligned accesses: only the aligned case passes the assertion before them. *)
Definition LWL_merge (tmp old value : Z) : Z :=
  let c := Z.land tmp 3 in
  if c =? 0 then value
  else if c =? 1 then i32 (Z.lor (Z.land old 0xff) (i32 (Z.shiftl value 8)))
  else if c =? 2 then i32 (Z.lor (Z.land old 0xffff) (i32 (Z.shiftl value 16)))
  else i32 (Z.lor (Z.land old 0xffffff) (i32 (Z.shiftl value 24))).

Definition LWR_merge (tmp old value : Z) : Z :=
  let c := Z.land tmp 3 in
  if c =? 0 then i32 (Z.lor (Z.land (u32 old) 0xffffff00) (Z.land (Z.shiftr value 24) 0xff))
  else if c =? 1 then i32 (Z.lor (Z.land (u32 old) 0xffff0000) (Z.land (Z.shiftr value 16) 0xffff))
  else if c =? 2 then i32 (Z.lor (Z.land (u32 old) 0xff000000) (Z.land (Z.shiftr value 8) 0xffffff))
  else value.

Definition SWL_merge (tmp value reg : Z) : Z :=
  let c := Z.land tmp 3 in
  if c =? 0 then reg
  else if c =? 1 then i32 (Z.lor (Z.land (u32 value) 0xff000000) (Z.land (Z.shiftr reg 8) 0xffffff))
  else if c =? 2 then i32 (Z.lor (Z.land (u32 value) 0xffff0000) (Z.land (Z.shiftr reg 16) 0xffff))
  else i32 (Z.lor (Z.land (u32 value) 0xffffff00) (Z.land (Z.shiftr reg 24) 0xff)).

Definition SWR_merge (tmp value reg : Z) : Z :=
  let c := Z.land tmp 3 in
  if c =? 0 then i32 (Z.lor (Z.land value 0xffffff) (i32 (Z.shiftl reg 24)))
  else if c =? 1 then i32 (Z.lor (Z.land value 0xffff) (i32 (Z.shiftl reg 16)))
  else if c =? 2 then i32 (Z.lor (Z.land value 0xff) (i32 (Z.shiftl reg 8)))
  else reg.

(** The old value of the register an unaligned load merges into. *)
Definition merge_base (rt : Z) : user Z :=
  lr ← reg LoadReg;
  if lr =? rt then reg LoadValueReg else reg rt.

(** [C++] division on the host: the quotient that does not fit traps. *)
Definition host_div (a b : Z) : user (Z * Z) :=
  if (a =? - 2 ^ 31) && (b =? -1) then lift (Err MemFault) else mret (a `quot` b, a `rem` b).

(** The cases of the [switch] of [OneInstruction] from OP_MFHI to OP_SUBU. *)
Definition execute_from_MFHI (i : Instruction) (pcAfter : Z) : user done :=
  let extra := in_extra i in
  let ok : user done := mret (Some (pcAfter, (0, 0))) in
  let set_rd v : user done := set_reg (in_rd i) v ;; ok in
  let set_rt v : user done := set_reg (in_rt i) v ;; ok in
  let set_hilo hi lo : user done := set_reg LoReg lo ;; set_reg HiReg hi ;; ok in
  match in_opCode i with
  | OP_MFHI => a ← reg HiReg; set_rd a
  | OP_MFLO => a ← reg LoReg; set_rd a
  | OP_MTHI => a ← reg (in_rs i); set_reg HiReg a ;; ok
  | OP_MTLO => a ← reg (in_rs i); set_reg LoReg a ;; ok
  | OP_MULT => a ← reg (in_rs i); b ← reg (in_rt i); let '(hi, lo) := Mult a b true in set_hilo hi lo
  | OP_MULTU => a ← reg (in_rs i); b ← reg (in_rt i); let '(hi, lo) := Mult a b false in set_hilo hi lo
  | OP_NOR => a ← reg (in_rs i); b ← reg (in_rt i); set_rd (Z.lnot (Z.lor a b))
  | OP_OR => a ← reg (in_rs i); a' ← reg (in_rs i); set_rd (Z.lor a a')
  | OP_ORI => a ← reg (in_rs i); set_rt (Z.lor a (Z.land extra 0xffff))
  | OP_SB => a ← reg (in_rs i); v ← reg (in_rt i); if_written (i32 (a + extra)) 1 v ok
  | OP_SH => a ← reg (in_rs i); v ← reg (in_rt i); if_written (i32 (a + extra)) 2 v ok
  | OP_SLL => b ← reg (in_rt i); set_rd (i32 (Z.shiftl b extra))
  | OP_SLLV => b ← reg (in_rt i); a ← reg (in_rs i); set_rd (i32 (Z.shiftl b (Z.land a 0x1f)))
  | OP_SLT => a ← reg (in_rs i); b ← reg (in_rt i); set_rd (if a <? b then 1 else 0)
  | OP_SLTI => a ← reg (in_rs i); set_rt (if a <? extra then 1 else 0)
  | OP_SLTIU => a ← reg (in_rs i); set_rt (if u32 a <? u32 extra then 1 else 0)
  | OP_SLTU => a ← reg (in_rs i); b ← reg (in_rt i); set_rd (if u32 a <? u32 b then 1 else 0)
  | OP_SRA => b ← reg (in_rt i); set_rd (Z.shiftr b extra)
  | OP_SRAV => b ← reg (in_rt i); a ← reg (in_rs i); set_rd (Z.shiftr b (Z.land a 0x1f))
  | OP_SRL => b ← reg (in_rt i); set_rd (Z.shiftr b extra)
  | OP_SRLV => b ← reg (in_rt i); a ← reg (in_rs i); set_rd (Z.shiftr b (Z.land a 0x1f))
  | OP_SUB =>
      a ← reg (in_rs i); b ← reg (in_rt i);
      let diff := i32 (a - b) in
      if sign (Z.lxor a b) && sign (Z.lxor a diff) then raise OverflowException 0 else set_rd diff
  | OP_SUBU => a ← reg (in_rs i); b ← reg (in_rt i); set_rd (i32 (a - b))
  | _ => ASSERT_u false ;; mret None
  end.

(** The [switch] of [OneInstruction]. *)
Definition execute (i : Instruction) (pcAfter : Z) : user done :=
  let extra := in_extra i in
  let ok : user done := mret (Some (pcAfter, (0, 0))) in
  let set_rd v : user done := set_reg (in_rd i) v ;; ok in
  let set_rt v : user done := set_reg (in_rt i) v ;; ok in
  let set_hilo hi lo : user done := set_reg LoReg lo ;; set_reg HiReg hi ;; ok in
  let branch (b : bool) : user done :=
    if b then np ← reg NextPCReg; mret (Some (i32 (np + IndexToAddr extra), (0, 0))) else ok in
  let link r : user unit := np ← reg NextPCReg; set_reg r (i32 (np + 4)) in
  let load_to v : user done := mret (Some (pcAfter, (in_rt i, v))) in
  match in_opCode i with
  | OP_ADD =>
      a ← reg (in_rs i); b ← reg (in_rt i);
      let sum := i32 (a + b) in
      if negb (sign (Z.lxor a b)) && sign (Z.lxor a sum) then raise OverflowException 0 else set_rd sum
  | OP_ADDI =>
      a ← reg (in_rs i);
      let sum := i32 (a + extra) in
      if negb (sign (Z.lxor a extra)) && sign (Z.lxor extra sum) then raise OverflowException 0 else set_rt sum
  | OP_ADDIU => a ← reg (in_rs i); set_rt (i32 (a + extra))
  | OP_ADDU => a ← reg (in_rs i); b ← reg (in_rt i); set_rd (i32 (a + b))
  | OP_AND => a ← reg (in_rs i); b ← reg (in_rt i); set_rd (Z.land a b)
  | OP_ANDI => a ← reg (in_rs i); set_rt (Z.land a (Z.land extra 0xffff))
  | OP_BEQ => a ← reg (in_rs i); b ← reg (in_rt i); branch (a =? b)
  | OP_BGEZAL => link R31 ;; a ← reg (in_rs i); branch (negb (sign a))
  | OP_BGEZ => a ← reg (in_rs i); branch (negb (sign a))
  | OP_BGTZ => a ← reg (in_rs i); branch (0 <? a)
  | OP_BLEZ => a ← reg (in_rs i); branch (a <=? 0)
  | OP_BLTZAL => link R31 ;; a ← reg (in_rs i); branch (sign a)
  | OP_BLTZ => a ← reg (in_rs i); branch (sign a)
  | OP_BNE => a ← reg (in_rs i); b ← reg (in_rt i); branch (negb (a =? b))
  | OP_DIV =>
      b ← reg (in_rt i);
      if b =? 0 then set_hilo 0 0
      else a ← reg (in_rs i); '(q, r) ← host_div a b; set_hilo r q
  | OP_DIVU =>
      a ← reg (in_rs i); b ← reg (in_rt i);
      if u32 b =? 0 then set_hilo 0 0
      else set_hilo (i32 (u32 a `mod` u32 b)) (i32 (u32 a `div` u32 b))
  | OP_JAL =>
      link R31 ;;
      mret (Some (i32 (Z.lor (Z.land (u32 pcAfter) 0xf0000000) (IndexToAddr extra)), (0, 0)))
  | OP_J => mret (Some (i32 (Z.lor (Z.land (u32 pcAfter) 0xf0000000) (IndexToAddr extra)), (0, 0)))
  | OP_JALR => link (in_rd i) ;; a ← reg (in_rs i); mret (Some (a, (0, 0)))
  | OP_JR => a ← reg (in_rs i); mret (Some (a, (0, 0)))
  | OP_LB | OP_LBU =>
      a ← reg (in_rs i);
      if_read (i32 (a + extra)) 1 (fun value =>
        load_to (if negb (Z.land value 0x80 =? 0) && bool_decide (in_opCode i = OP_LB)
                 then i32 (Z.lor (u32 value) 0xffffff00) else Z.land value 0xff))
  | OP_LH | OP_LHU =>
      a ← reg (in_rs i);
      let tmp := i32 (a + extra) in
      if negb (Z.land tmp 1 =? 0) then raise AddressErrorException tmp
      else if_read tmp 2 (fun value =>
        load_to (if negb (Z.land value 0x8000 =? 0) && bool_decide (in_opCode i = OP_LH)
                 then i32 (Z.lor (u32 value) 0xffff0000) else Z.land value 0xffff))
  | OP_LUI => set_rt (i32 (Z.shiftl extra 16))
  | OP_LW =>
      a ← reg (in_rs i);
      let tmp := i32 (a + extra) in
      if negb (Z.land tmp 3 =? 0) then raise AddressErrorException tmp
      else if_read tmp 4 (fun value => load_to value)
  | OP_LWL =>
      a ← reg (in_rs i);
      let tmp := i32 (a + extra) in
      ASSERT_u (Z.land tmp 3 =? 0) ;;
      if_read tmp 4 (fun value => old ← merge_base (in_rt i); load_to (LWL_merge tmp old value))
  | OP_LWR =>
      a ← reg (in_rs i);
      let tmp := i32 (a + extra) in
      ASSERT_u (Z.land tmp 3 =? 0) ;;
      if_read tmp 4 (fun value => old ← merge_base (in_rt i); load_to (LWR_merge tmp old value))
  | OP_MFHI | OP_MFLO | OP_MTHI | OP_MTLO | OP_MULT | OP_MULTU | OP_NOR | OP_OR | OP_ORI | OP_SB
  | OP_SH | OP_SLL | OP_SLLV | OP_SLT | OP_SLTI | OP_SLTIU | OP_SLTU | OP_SRA | OP_SRAV | OP_SRL
  | OP_SRLV | OP_SUB | OP_SUBU => execute_from_MFHI i pcAfter
  | OP_SW => a ← reg (in_rs i); v ← reg (in_rt i); if_written (i32 (a + extra)) 4 v ok
  | OP_SWL =>
      a ← reg (in_rs i);
      let tmp := i32 (a + extra) in
      ASSERT_u (Z.land tmp 3 =? 0) ;;
      if_read (Z.land tmp (Z.lnot 3)) 4 (fun value =>
        v ← reg (in_rt i); if_written (Z.land tmp (Z.lnot 3)) 4 (SWL_merge tmp value v) ok)
  | OP_SWR =>
      a ← reg (in_rs i);
      let tmp := i32 (a + extra) in
      ASSERT_u (Z.land tmp 3 =? 0) ;;
      if_read (Z.land tmp (Z.lnot 3)) 4 (fun value =>
        v ← reg (in_rt i); if_written (Z.land tmp (Z.lnot 3)) 4 (SWR_merge tmp value v) ok)
  | OP_SYSCALL => raise SyscallException 0
  | OP_XOR => a ← reg (in_rs i); b ← reg (in_rt i); set_rd (Z.lxor a b)
  | OP_XORI => a ← reg (in_rs i); set_rt (Z.lxor a (Z.land extra 0xffff))
  | OP_RES | OP_UNIMP => raise IllegalInstrException 0
  | OP_RFE | SPECIAL | BCOND => ASSERT_u false ;; mret None
  end.

Definition Machine_OneInstruction : user unit :=
  pc ← reg PCReg;
  raw ← Machine_ReadMem flags garbage pc 4;
  match raw with
  | None => mret tt
  | Some raw =>
      instr ← lift (Instruction_Decode (u32 raw));
      np ← reg NextPCReg;
      r ← execute instr (i32 (np + 4));
      match r with
      | None => mret tt
      | Some (pcAfter, (nextLoadReg, nextLoadValue)) =>
          Machine_DelayedLoad nextLoadReg nextLoadValue ;;
          pc ← reg PCReg; set_reg PrevPCReg pc ;;
          np ← reg NextPCReg; set_reg PCReg np ;;
          set_reg NextPCReg pcAfter
      end
  end.

(** The first [n] rounds of the loop of [Machine::Run], between which [OneTick] only
    advances the clock (no other thread is switched in). *)
Fixpoint Run_loop (n : nat) : user unit :=
  match n with
  | O => mret tt
  | S n => Machine_OneInstruction ;; Run_loop n
  end.

Definition Machine_Run (n : nat) : user unit := modify (m_set_status UserMode) ;; Run_loop n.

End Run.

(** ** Multiplication is exact *)

Lemma land_1_odd a : negb (Z.land a 1 =? 0) = Z.odd a.
Proof.
  change 1 with (Z.ones 1). rewrite Z.land_ones by lia. change (2 ^ 1) with 2. rewrite Zmod_odd.
  by destruct (Z.odd a).
Qed.

Lemma testbit_31 x : in_u32 x -> Z.testbit x 31 = (2 ^ 31 <=? x).
Proof.
  intros Hx. rewrite Z.testbit_odd, Z.shiftr_div_pow2 by lia. unfold in_u32 in Hx. zpow.
  destruct (Z.leb_spec 2147483648 x).
  - replace (x `div` 2147483648) with 1; [done|]. Z.div_mod_to_equations. lia.
  - rewrite Z.div_small by lia. done.
Qed.

Lemma land_msb x : in_u32 x -> negb (Z.land x 0x80000000 =? 0) = (2 ^ 31 <=? x).
Proof. intros. change 0x80000000 with (2 ^ 31). rewrite land_pow2_zero by lia. by apply testbit_31. Qed.

Lemma sign_neg x : in_i32 x -> sign x = (x <? 0).
Proof.
  intros Hx. unfold sign. rewrite land_msb by apply u32_range.
  destruct (Z.leb_spec (2 ^ 31) (u32 x)), (Z.ltb_spec x 0); try done; wrap_lia.
Qed.

(** The shifted multiplicand as one number. *)
Lemma shift_pair bLo bHi :
  in_u32 bLo -> in_u32 bHi ->
  let bHi' := u32 (Z.shiftl bHi 1) in
  let bHi'' := if negb (Z.land bLo 0x80000000 =? 0) then Z.lor bHi' 1 else bHi' in
  let bLo' := u32 (Z.shiftl bLo 1) in
  in_u32 bHi'' /\ in_u32 bLo' /\ exists k, bHi'' * 2 ^ 32 + bLo' = 2 * (bHi * 2 ^ 32 + bLo) - k * 2 ^ 64.
Proof.
  intros Hl Hh. cbv zeta. rewrite land_msb by done. rewrite !Z.shiftl_mul_pow2 by lia. change (2 ^ 1) with 2.
  assert (Hor : Z.lor (u32 (bHi * 2)) 1 = u32 (bHi * 2) + 1).
  { assert (Hd : u32 (bHi * 2) = 2 * (u32 (bHi * 2) `div` 2)) by wrap_lia.
    symmetry. apply Z.add_nocarry_lor. rewrite Hd. change 1 with (Z.ones 1). rewrite Z.land_ones by lia.
    change (2 ^ 1) with 2. Z.div_mod_to_equations. lia. }
  change (2 ^ 64) with (4294967296 * 4294967296).
  destruct (Z.leb_spec (2 ^ 31) bLo).
  - rewrite Hor. split; [wrap_lia|]. split; [wrap_lia|]. exists ((bHi * 2) `div` 4294967296). wrap_lia.
  - split; [wrap_lia|]. split; [wrap_lia|]. exists ((bHi * 2) `div` 4294967296). wrap_lia.
Qed.

(** One partial product added to the accumulator. *)
Lemma add_pair lo hi bLo bHi :
  in_u32 lo -> in_u32 hi -> in_u32 bLo -> in_u32 bHi ->
  let lo' := u32 (lo + bLo) in
  let hi' := u32 ((if lo' <? bLo then u32 (hi + 1) else hi) + bHi) in
  in_u32 lo' /\ in_u32 hi'
  /\ exists k, hi' * 2 ^ 32 + lo' = (hi * 2 ^ 32 + lo) + (bHi * 2 ^ 32 + bLo) - k * 2 ^ 64.
Proof.
  intros Hl Hh Hbl Hbh. cbv zeta. split; [apply u32_range|]. split; [apply u32_range|].
  change (2 ^ 64) with (4294967296 * 4294967296).
  destruct (Z.ltb_spec (u32 (lo + bLo)) bLo).
  - exists ((hi + 1 + bHi) `div` 4294967296). wrap_lia.
  - exists ((hi + bHi) `div` 4294967296). wrap_lia.
Qed.

(** Only the lowest bit of [a] is left. *)
Lemma no_more_bits a n :
  (n <= 31)%nat -> Z.land (u32 a) 0xfffffffe = 0 -> (a `div` 2) `mod` 2 ^ Z.of_nat n = 0.
Proof.
  intros Hn Hz. assert (Hx : (u32 a `div` 2) `mod` 2 ^ 31 = 0).
  { rewrite <-Z.land_ones, <-Z.div2_div, Z.div2_spec by lia. change (Z.ones 31) with (Z.shiftr 0xfffffffe 1).
    by rewrite <-Z.shiftr_land, Hz. }
  assert (Ha : a `div` 2 = (a `div` 2 ^ 32) * 2 ^ (31 - Z.of_nat n) * 2 ^ Z.of_nat n).
  { rewrite <-Z.mul_assoc, <-Z.pow_add_r by lia. replace (31 - Z.of_nat n + Z.of_nat n) with 31 by lia.
    wrap_lia. }
  rewrite Ha. apply Z.mod_mul. lia.
Qed.

Lemma Mult_loop_ok n : forall a bLo bHi lo hi,
  (n <= 32)%nat -> in_u32 bLo -> in_u32 bHi -> in_u32 lo -> in_u32 hi ->
  exists k hi' lo', Mult_loop n a bLo bHi lo hi = (hi', lo') /\ in_u32 hi' /\ in_u32 lo'
    /\ hi' * 2 ^ 32 + lo'
       = (hi * 2 ^ 32 + lo) + (a `mod` 2 ^ Z.of_nat n) * (bHi * 2 ^ 32 + bLo) - k * 2 ^ 64.
Proof.
  induction n as [|n IH]; intros a bLo bHi lo hi Hn Hbl Hbh Hl Hh; cbn [Mult_loop].
  { exists 0, hi, lo. rewrite Z.mod_1_r. split_and!; try done; lia. }
  destruct (add_pair lo hi bLo bHi Hl Hh Hbl Hbh) as (Hl1 & Hh1 & k1 & Hk1).
  destruct (shift_pair bLo bHi Hbl Hbh) as (Hbh2 & Hbl2 & k2 & Hk2).
  rewrite land_1_odd, <-Z.div2_spec, Z.div2_div.
  assert (Hm : a `mod` 2 ^ Z.of_nat (S n) = (if Z.odd a then 1 else 0) + 2 * ((a `div` 2) `mod` 2 ^ Z.of_nat n)).
  { rewrite Nat2Z.inj_succ, Z.pow_succ_r by lia. rewrite Z.rem_mul_r by lia. by rewrite Zmod_odd. }
  set (m := (a `div` 2) `mod` 2 ^ Z.of_nat n) in *. rewrite Hm. destruct (Z.odd a) eqn:Hodd; cbn [andb].
  - destruct (Z.eqb_spec (Z.land (u32 a) 0xfffffffe) 0) as [Hz|Hz].
    + exists k1. eexists _, _. split; [done|]. split; [done|]. split; [done|]. rewrite Hk1.
      assert (m = 0) as ->; [|lia]. apply no_more_bits; [lia|done].
    + destruct (IH (a `div` 2) _ _ _ _ ltac:(lia) Hbl2 Hbh2 Hl1 Hh1) as (k & hi' & lo' & HM & ? & ? & Heq).
      exists (k + k1 + m * k2), hi', lo'. split; [exact HM|]. split; [done|]. split; [done|].
      rewrite Heq, Hk1, Hk2. fold m. ring.
  - destruct (IH (a `div` 2) _ _ _ _ ltac:(lia) Hbl2 Hbh2 Hl Hh) as (k & hi' & lo' & HM & ? & ? & Heq).
    exists (k + m * k2), hi', lo'. split; [exact HM|]. split; [done|]. split; [done|].
    rewrite Heq, Hk2. fold m. ring.
Qed.

Lemma pair_mod k hi lo x :
  in_u32 hi -> in_u32 lo -> hi * 2 ^ 32 + lo = x - k * 2 ^ 64 -> hi * 2 ^ 32 + lo = x `mod` 2 ^ 64.
Proof.
  intros Hh Hl Heq. replace x with (hi * 2 ^ 32 + lo + k * 2 ^ 64) by lia. rewrite Z.mod_add by done.
  symmetry. apply Z.mod_small. unfold in_u32 in *. change (2 ^ 64) with (4294967296 * 4294967296). zpow. nia.
Qed.

(** The two's complement of a double word. *)
Lemma negate_pair hi lo :
  in_u32 hi -> in_u32 lo ->
  let hi' := u32 (Z.lnot hi) in
  let lo' := u32 (Z.lnot lo + 1) in
  let hi'' := if lo' =? 0 then u32 (hi' + 1) else hi' in
  exists k, u32 hi'' * 2 ^ 32 + u32 lo' = - (hi * 2 ^ 32 + lo) - k * 2 ^ 64.
Proof.
  intros Hh Hl. cbv zeta. unfold Z.lnot. change (2 ^ 64) with (4294967296 * 4294967296).
  destruct (Z.eqb_spec (u32 (Z.pred (- lo) + 1)) 0).
  - assert (lo = 0) by wrap_lia. subst lo. exists (if hi =? 0 then 0 else -1). destruct (Z.eqb_spec hi 0); wrap_lia.
  - exists (-1). wrap_lia.
Qed.

(** The loop on the operands as unsigned numbers. *)
Lemma Mult_loop_product a b :
  exists k hi lo, Mult_loop 32 a (u32 b) 0 0 0 = (hi, lo) /\ in_u32 hi /\ in_u32 lo
    /\ hi * 2 ^ 32 + lo = u32 a * u32 b - k * 2 ^ 64.
Proof.
  destruct (Mult_loop_ok 32 a (u32 b) 0 0 0) as (k & hi & lo & -> & Hh & Hl & Heq);
    try lia; try apply u32_range; try (unfold in_u32; lia).
  exists k, hi, lo. by split_and!.
Qed.

(** The operand made positive. *)
Lemma u32_abs (s : bool) a : in_i32 a ->
  u32 (if s && (a <? 0) then i32 (- a) else a) = if s then Z.abs a else u32 a.
Proof. intros Ha. destruct s; cbn [andb]; [|done]. destruct (Z.ltb_spec a 0); wrap_lia. Qed.

(** [Mult] computes the exact 64-bit product: for any two register values, Hi and Lo hold
    the upper and the lower half of the signed product (MULT) or of the product of the
    values as unsigned numbers (MULTU), although the loop works with 32-bit words, shifts
    the signed multiplier arithmetically and stops early. *)
Theorem Mult_exact (a b : Z) (signedArith : bool) :
  in_i32 a -> in_i32 b ->
  let '(hi, lo) := Mult a b signedArith in
  in_i32 hi /\ in_i32 lo
  /\ u32 hi * 2 ^ 32 + u32 lo = (if signedArith then a * b else u32 a * u32 b) `mod` 2 ^ 64.
Proof.
  intros Ha Hb. unfold Mult.
  destruct (Z.eqb_spec a 0) as [->|Hza]; [by destruct signedArith|].
  destruct (Z.eqb_spec b 0) as [->|Hzb].
  { cbn [orb]. split_and!; [done|done|]. destruct signedArith; by rewrite Z.mul_0_r. }
  cbn [orb]. set (a' := if signedArith && (a <? 0) then _ else _). set (b' := if signedArith && (b <? 0) then _ else _).
  destruct (Mult_loop_product a' b') as (k & hi & lo & -> & Hh & Hl & Heq).
  unfold a', b' in Heq. rewrite !u32_abs in Heq by done.
  destruct (signedArith && xorb (a <? 0) (b <? 0)) eqn:Hneg; (split; [apply i32_range|]; split; [apply i32_range|]).
  - destruct (negate_pair hi lo Hh Hl) as [k' Hk]. cbv zeta in Hk. destruct signedArith; [|done]. cbn [andb] in Hneg.
    rewrite !u32_i32. apply (pair_mod (k' - k)); [apply u32_range|apply u32_range|]. rewrite Hk, Heq.
    destruct (Z.ltb_spec a 0), (Z.ltb_spec b 0); try done;
      rewrite ?(Z.abs_neq a), ?(Z.abs_eq a), ?(Z.abs_neq b), ?(Z.abs_eq b) by lia; ring.
  - rewrite !u32_i32, !u32_id by done. apply (pair_mod k); [done|done|]. rewrite Heq.
    destruct signedArith; [|done]. cbn [andb] in Hneg.
    destruct (Z.ltb_spec a 0), (Z.ltb_spec b 0); try done;
      rewrite ?(Z.abs_neq a), ?(Z.abs_eq a), ?(Z.abs_neq b), ?(Z.abs_eq b) by lia; ring.
Qed.

Lemma Mult_exact_witness :
  let '(hi, lo) := Mult (- 2 ^ 31) 123456789 true in
  in_i32 hi /\ in_i32 lo /\ u32 hi * 2 ^ 32 + u32 lo = (- 2 ^ 31 * 123456789) `mod` 2 ^ 64.
Proof. apply (Mult_exact (- 2 ^ 31) 123456789 true); unfold in_i32; lia. Defined.

(** ** Decoding *)

(** A field of an instruction word. *)
Lemma field_eq v k w : 0 <= k -> 0 <= w -> Z.land (Z.shiftr v k) (Z.ones w) = (v `div` 2 ^ k) `mod` 2 ^ w.
Proof. intros. rewrite Z.land_ones, Z.shiftr_div_pow2 by done. done. Qed.

(** Sign extension of a 16-bit immediate. *)
Definition sext16 (imm : Z) : Z := if imm <? 2 ^ 15 then imm else imm - 2 ^ 16.

Lemma sext16_ok v :
  let e := Z.land v 0xffff in
  (if negb (Z.land e 0x8000 =? 0) then i32 (Z.lor e 0xffff0000) else e) = sext16 (v `mod` 2 ^ 16).
Proof.
  cbv zeta. assert (He : Z.land v 0xffff = v `mod` 2 ^ 16) by (change 0xffff with (Z.ones 16); by rewrite Z.land_ones).
  change 0x8000 with (2 ^ 15). rewrite land_pow2_zero by lia.
  assert (Hor : Z.lor (Z.land v 0xffff) 0xffff0000 = Z.land v 0xffff + 0xffff0000).
  { symmetry. apply Z.add_nocarry_lor. by rewrite <-Z.land_assoc, Z.land_0_r. }
  rewrite Hor, He. set (e := v `mod` 2 ^ 16). assert (0 <= e < 2 ^ 16) by (apply Z.mod_pos_bound; lia).
  rewrite Z.testbit_odd, Z.shiftr_div_pow2 by lia. unfold sext16.
  destruct (Z.ltb_spec e (2 ^ 15)).
  - rewrite Z.div_small by lia. done.
  - replace (e `div` 2 ^ 15) with 1; [cbn; wrap_lia|]. Z.div_mod_to_equations. lia.
Qed.

(** Every executable operation has a case in [OneInstruction]. *)
Definition executable (op : OpCode) : Prop := op <> SPECIAL /\ op <> BCOND /\ op <> OP_RFE.

Lemma special_ops : Forall executable specialTable.
Proof. repeat constructor; done. Qed.

Lemma op_table_ops :
  Forall (fun p => p.1 <> OP_RFE /\ p.1 <> OP_SLL /\ p.1 <> OP_SRL /\ p.1 <> OP_SRA
                   /\ (p.1 = SPECIAL -> p.2 = RFMT)) opTable.
Proof. repeat constructor; done. Qed.

Lemma jump_ops : Forall (fun p => p.1 = BCOND -> p.2 = IFMT) opTable.
Proof. repeat constructor; done. Qed.

Lemma table_lookup {A} (l : list A) (P : A -> Prop) i :
  Forall P l -> 0 <= i < Z.of_nat (length l) -> exists x, deref (l !! Z.to_nat i) = Ok x /\ P x.
Proof.
  intros Hl Hi. destruct (lookup_lt_is_Some_2 l (Z.to_nat i)) as [x Hx]; [lia|].
  exists x. rewrite Hx. split; [done|]. by apply (Forall_lookup_1 _ _ _ _ Hl Hx).
Qed.

Lemma land_range x w : 0 <= w -> 0 <= Z.land x (Z.ones w) < 2 ^ w.
Proof. intros. rewrite Z.land_ones by done. apply Z.mod_pos_bound. lia. Qed.

(** The decoder on any word. *)
Lemma Decode_ok v :
  exists i, Instruction_Decode v = Ok i
    /\ 0 <= in_rs i < 32 /\ 0 <= in_rt i < 32 /\ 0 <= in_rd i < 32 /\ in_i32 (in_extra i)
    /\ executable (in_opCode i)
    /\ (in_opCode i = OP_SLL \/ in_opCode i = OP_SRL \/ in_opCode i = OP_SRA -> 0 <= in_extra i < 32).
Proof.
  unfold Instruction_Decode.
  destruct (table_lookup opTable _ (Z.land (Z.shiftr v 26) 0x3f) op_table_ops) as ([op fmt] & -> & Hop);
    [exact (land_range (Z.shiftr v 26) 6 ltac:(lia))|]. cbn [fst snd] in Hop. destruct Hop as (Hrfe & Hsll & Hsrl & Hsra & Hspec).
  cbn [mbind result_bind]. rewrite sext16_ok.
  set (extra := match fmt with IFMT => _ | JFMT => _ | RFMT => _ end).
  assert (Hx : in_i32 extra /\ (fmt = RFMT -> 0 <= extra < 32)).
  { unfold extra. destruct fmt; split; try done.
    - pose proof (Z.mod_pos_bound v (2 ^ 16) ltac:(lia)). unfold sext16, in_i32. case_match; lia.
    - pose proof (land_range v 26 ltac:(lia)) as Hr. change (Z.ones 26) with 0x3ffffff in Hr. unfold in_i32. lia.
    - pose proof (land_range (Z.shiftr v 6) 5 ltac:(lia)) as Hr. change (Z.ones 5) with 0x1f in Hr. unfold in_i32. lia.
    - intros _. exact (land_range (Z.shiftr v 6) 5 ltac:(lia)). }
  clearbody extra. destruct Hx as [Hx Hxr].
  assert (Hop : exists op', Decode_op op v = Ok op' /\ executable op'
    /\ (op' = OP_SLL \/ op' = OP_SRL \/ op' = OP_SRA -> 0 <= extra < 32)).
  { unfold Decode_op. case_decide as Hs; [|case_decide as Hb].
    - destruct (table_lookup specialTable _ (Z.land v 0x3f) special_ops) as (op' & -> & He);
        [exact (land_range v 6 ltac:(lia))|]. exists op'. split; [done|]. split; [done|]. auto.
    - eexists. split; [reflexivity|]. split; [unfold executable; by repeat case_match|].
      cbv zeta. repeat case_match; naive_solver.
    - exists op. split; [done|]. split; [done|]. naive_solver. }
  destruct Hop as (op' & -> & He & Hsh). cbn [mbind result_bind]. eexists. split; [done|]. cbn.
  split; [exact (land_range (Z.shiftr v 21) 5 ltac:(lia))|].
  split; [exact (land_range (Z.shiftr v 16) 5 ltac:(lia))|].
  split; [exact (land_range (Z.shiftr v 11) 5 ltac:(lia))|]. done.
Qed.

(** The MIPS instruction formats. *)
Definition encode_I (o rs rt imm : Z) : Z := o * 2 ^ 26 + rs * 2 ^ 21 + rt * 2 ^ 16 + imm.
Definition encode_R (rs rt rd shamt funct : Z) : Z := rs * 2 ^ 21 + rt * 2 ^ 16 + rd * 2 ^ 11 + shamt * 2 ^ 6 + funct.
Definition encode_J (o target : Z) : Z := o * 2 ^ 26 + target.

(** The fields in arithmetic. *)
Lemma Decode_eq v op fmt :
  opTable !! Z.to_nat ((v `div` 2 ^ 26) `mod` 2 ^ 6) = Some (op, fmt) ->
  Instruction_Decode v =
    (op ← Decode_op op v;
     Ok (mkInstr op ((v `div` 2 ^ 21) `mod` 2 ^ 5) ((v `div` 2 ^ 16) `mod` 2 ^ 5) ((v `div` 2 ^ 11) `mod` 2 ^ 5)
           (match fmt with
            | IFMT => sext16 (v `mod` 2 ^ 16)
            | JFMT => v `mod` 2 ^ 26
            | RFMT => (v `div` 2 ^ 6) `mod` 2 ^ 5
            end))).
Proof.
  intros Hop. unfold Instruction_Decode. rewrite sext16_ok.
  change 0x3f with (Z.ones 6). change 0x1f with (Z.ones 5). change 0x3ffffff with (Z.ones 26).
  rewrite !field_eq, Z.land_ones by lia. rewrite Hop. done.
Qed.

Ltac field_lia :=
  change (2 ^ 26) with 67108864 in *; change (2 ^ 21) with 2097152 in *; change (2 ^ 16) with 65536 in *;
  change (2 ^ 11) with 2048 in *; change (2 ^ 6) with 64 in *; change (2 ^ 5) with 32 in *;
  Z.div_mod_to_equations; lia.

(** [Decode] inverts the MIPS instruction formats: for a word that is assembled from its
    fields it returns the operation of the opcode table (of the function table for a
    register instruction), the register numbers, and the immediate sign-extended, the
    shift amount or the jump target; and whatever the word is, the operation it returns
    has a case in [OneInstruction]. *)
Theorem Decode_encode (o rs rt rd shamt funct imm target : Z) (op : OpCode) :
  0 <= o < 64 -> 0 <= rs < 32 -> 0 <= rt < 32 -> 0 <= rd < 32 -> 0 <= shamt < 32 -> 0 <= funct < 64 ->
  0 <= imm < 2 ^ 16 -> 0 <= target < 2 ^ 26 ->
  (opTable !! Z.to_nat o = Some (op, IFMT) -> op <> BCOND ->
     exists d, Instruction_Decode (encode_I o rs rt imm) = Ok (mkInstr op rs rt d (sext16 imm)))
  /\ (specialTable !! Z.to_nat funct = Some op ->
     Instruction_Decode (encode_R rs rt rd shamt funct) = Ok (mkInstr op rs rt rd shamt))
  /\ (opTable !! Z.to_nat o = Some (op, JFMT) ->
     exists s t d, Instruction_Decode (encode_J o target) = Ok (mkInstr op s t d target))
  /\ (forall v, exists i, Instruction_Decode v = Ok i /\ executable (in_opCode i)).
Proof.
  intros Ho Hs Ht Hd Hsh Hf Hi Hta.
  split; [|split; [|split]].
  - intros Hop Hb. set (v := encode_I o rs rt imm). unfold encode_I in v.
    assert (Ho' : (v `div` 2 ^ 26) `mod` 2 ^ 6 = o) by (unfold v; field_lia).
    assert (Hne : op <> SPECIAL).
    { intros ->. destruct (proj1 (Forall_lookup _ _) op_table_ops _ _ Hop) as (_ & _ & _ & _ & Hr). by specialize (Hr eq_refl). }
    rewrite (Decode_eq v op IFMT) by by rewrite Ho'. unfold Decode_op. rewrite !decide_False by done.
    eexists. cbn [mbind result_bind]. do 2 f_equal; unfold v; [field_lia|field_lia|f_equal; field_lia].
  - intros Hop. set (v := encode_R rs rt rd shamt funct). unfold encode_R in v.
    assert (Ho' : (v `div` 2 ^ 26) `mod` 2 ^ 6 = 0) by (unfold v; field_lia).
    assert (Hf' : Z.land v 0x3f = funct) by (change 0x3f with (Z.ones 6); rewrite Z.land_ones by lia; unfold v; field_lia).
    rewrite (Decode_eq v SPECIAL RFMT) by by rewrite Ho'. unfold Decode_op. rewrite decide_True, Hf', Hop by done.
    cbn [deref mbind result_bind]. do 2 f_equal; unfold v; field_lia.
  - intros Hop. set (v := encode_J o target). unfold encode_J in v.
    assert (Ho' : (v `div` 2 ^ 26) `mod` 2 ^ 6 = o) by (unfold v; field_lia).
    assert (Hne : op <> SPECIAL).
    { intros ->. destruct (proj1 (Forall_lookup _ _) op_table_ops _ _ Hop) as (_ & _ & _ & _ & Hr). by specialize (Hr eq_refl). }
    assert (Hnb : op <> BCOND).
    { intros ->. by specialize (proj1 (Forall_lookup _ _) jump_ops _ _ Hop eq_refl). }
    rewrite (Decode_eq v op JFMT) by by rewrite Ho'. unfold Decode_op. rewrite !decide_False by done.
    eexists _, _, _. cbn [mbind result_bind]. do 2 f_equal. unfold v. field_lia.
  - intros v. destruct (Decode_ok v) as (i & -> & _ & _ & _ & _ & He & _). eauto.
Qed.

Lemma Decode_encode_witness :
  Instruction_Decode (encode_R 3 4 5 0 32) = Ok (mkInstr OP_ADD 3 4 5 0).
Proof.
  refine (proj1 (proj2 (Decode_encode 0 3 4 5 0 32 0 0 OP_ADD _ _ _ _ _ _ _ _)) _); try lia. reflexivity.
Defined.

(** ** Bit operations keep the width *)

Lemma in_i32_shiftr z : in_i32 z <-> Z.shiftr z 31 = 0 \/ Z.shiftr z 31 = -1.
Proof. rewrite Z.shiftr_div_pow2 by lia. unfold in_i32. zpow. Z.div_mod_to_equations. lia. Qed.

Lemma in_i32_land a b : in_i32 a -> in_i32 b -> in_i32 (Z.land a b).
Proof. rewrite !in_i32_shiftr, Z.shiftr_land. intros [->| ->] [->| ->]; auto. Qed.

Lemma in_i32_lor a b : in_i32 a -> in_i32 b -> in_i32 (Z.lor a b).
Proof. rewrite !in_i32_shiftr, Z.shiftr_lor. intros [->| ->] [->| ->]; auto. Qed.

Lemma in_i32_lxor a b : in_i32 a -> in_i32 b -> in_i32 (Z.lxor a b).
Proof. rewrite !in_i32_shiftr, Z.shiftr_lxor. intros [->| ->] [->| ->]; auto. Qed.

Lemma in_i32_lnot a : in_i32 a -> in_i32 (Z.lnot a).
Proof. unfold in_i32, Z.lnot. lia. Qed.

Lemma in_i32_land_u16 a w : 0 <= w <= 31 -> in_i32 (Z.land a (Z.ones w)).
Proof.
  intros Hw. pose proof (land_range a w ltac:(lia)).
  pose proof (Z.pow_le_mono_r 2 w 31 ltac:(lia) ltac:(lia)). unfold in_i32. lia.
Qed.

Lemma in_i32_sra a n : in_i32 a -> 0 <= n -> in_i32 (Z.shiftr a n).
Proof.
  intros Ha Hn. rewrite Z.shiftr_div_pow2 by done. pose proof (Z.pow_pos_nonneg 2 n ltac:(lia) Hn).
  unfold in_i32 in *. zpow. Z.div_mod_to_equations. nia.
Qed.

#[export] Hint Resolve in_i32_land in_i32_lor in_i32_lxor in_i32_lnot in_i32_sra : nachos.

Lemma sign_lxor a b : in_i32 a -> in_i32 b -> sign (Z.lxor a b) = xorb (a <? 0) (b <? 0).
Proof.
  intros Ha Hb. rewrite sign_neg by by apply in_i32_lxor. pose proof (Z.lxor_nonneg a b).
  destruct (Z.ltb_spec (Z.lxor a b) 0), (Z.ltb_spec a 0), (Z.ltb_spec b 0); cbn; try done; lia.
Qed.

(** The sign tests detect exactly the results that do not fit. *)
Lemma add_overflow_test a b : in_i32 a -> in_i32 b ->
  negb (sign (Z.lxor a b)) && sign (Z.lxor a (i32 (a + b))) = negb (bool_decide (in_i32 (a + b))).
Proof.
  intros Ha Hb. rewrite !sign_lxor by (done || apply i32_range).
  destruct (Z.ltb_spec a 0), (Z.ltb_spec b 0), (Z.ltb_spec (i32 (a + b)) 0), (bool_decide_reflect (in_i32 (a + b)));
    cbn; try done; wrap_lia.
Qed.

Lemma sub_overflow_test a b : in_i32 a -> in_i32 b ->
  sign (Z.lxor a b) && sign (Z.lxor a (i32 (a - b))) = negb (bool_decide (in_i32 (a - b))).
Proof.
  intros Ha Hb. rewrite !sign_lxor by (done || apply i32_range).
  destruct (Z.ltb_spec a 0), (Z.ltb_spec b 0), (Z.ltb_spec (i32 (a - b)) 0), (bool_decide_reflect (in_i32 (a - b)));
    cbn; try done; wrap_lia.
Qed.

Lemma reg_eq i m v : 0 <= i -> m_registers m !! Z.to_nat i = Some v -> reg i m = Ok (Next v m).
Proof. intros Hi Hv. unfold reg. destruct (Z.leb_spec 0 i); [|lia]. by rewrite Hv. Qed.

Lemma set_reg_eq i m v :
  0 <= i < Z.of_nat (length (m_registers m)) ->
  set_reg i v m = Ok (Next tt (m_set_registers (<[Z.to_nat i := v]> (m_registers m)) m)).
Proof.
  intros Hi. unfold set_reg. destruct (Z.leb_spec 0 i); [|lia].
  destruct (lookup_lt_is_Some_2 (m_registers m) (Z.to_nat i)) as [w Hw]; [lia|]. by rewrite Hw.
Qed.

Lemma user_bind_Ok {A B} (x : user A) (f : A -> user B) m a m' :
  x m = Ok (Next a m') -> (x ≫= f) m = f a m'.
Proof. unfold mbind, user_bind. by intros ->. Qed.

(** What an arithmetic instruction should do with a result: store it in its register, or
    trap when it does not fit. *)
Definition trap_or_set (flags : Flags) (rd x pcAfter : Z) : user done :=
  if decide (in_i32 x) then set_reg rd x ;; mret (Some (pcAfter, (0, 0))) else raise flags OverflowException 0.

(** ADD, ADDI and SUB trap exactly when the mathematical sum or difference does not fit
    in 32 bits, and store it otherwise: the tests on the sign bits of the wrapped results
    are exact. *)
Theorem overflow_exact (flags : Flags) (garbage : Z) (m : Machine) (rs rt rd extra pcAfter a b : Z) :
  0 <= rs -> 0 <= rt -> m_registers m !! Z.to_nat rs = Some a -> m_registers m !! Z.to_nat rt = Some b ->
  in_i32 a -> in_i32 b -> in_i32 extra ->
  execute flags garbage (mkInstr OP_ADD rs rt rd extra) pcAfter m = trap_or_set flags rd (a + b) pcAfter m
  /\ execute flags garbage (mkInstr OP_SUB rs rt rd extra) pcAfter m = trap_or_set flags rd (a - b) pcAfter m
  /\ execute flags garbage (mkInstr OP_ADDI rs rt rd extra) pcAfter m = trap_or_set flags rt (a + extra) pcAfter m.
Proof.
  intros Hs Ht Hrs Hrt Ha Hb Hx. unfold trap_or_set, execute, execute_from_MFHI. cbn [in_opCode in_rs in_rt in_rd in_extra]. cbv zeta.
  split; [|split].
  - rewrite (user_bind_Ok _ _ m a m) by by apply reg_eq. rewrite (user_bind_Ok _ _ m b m) by by apply reg_eq.
    rewrite add_overflow_test by done. case_decide as Hd.
    + rewrite bool_decide_eq_true_2, i32_id by done. done.
    + by rewrite bool_decide_eq_false_2.
  - rewrite (user_bind_Ok _ _ m a m) by by apply reg_eq. rewrite (user_bind_Ok _ _ m b m) by by apply reg_eq.
    rewrite sub_overflow_test by done. case_decide as Hd.
    + rewrite bool_decide_eq_true_2, i32_id by done. done.
    + by rewrite bool_decide_eq_false_2.
  - rewrite (user_bind_Ok _ _ m a m) by by apply reg_eq.
    rewrite (Z.lxor_comm a extra), (Z.add_comm a extra), add_overflow_test by done. case_decide as Hd.
    + rewrite bool_decide_eq_true_2, i32_id by done. done.
    + by rewrite bool_decide_eq_false_2.
Qed.

(** A machine with the given values in registers 1 and 2. *)
Definition demo_machine (a b : Z) : Machine :=
  mkMachine (0 :: a :: b :: replicate 37 0) (replicate 4096 0) ∅ None None 0 (mkBitMap 0 0 []) UserMode.

Lemma overflow_exact_witness :
  let m := demo_machine (2 ^ 31 - 1) 1 in
  let f := mkFlags false false false in
  execute f 0 (mkInstr OP_ADD 1 2 3 7) 8 m = trap_or_set f 3 (2 ^ 31 - 1 + 1) 8 m
  /\ execute f 0 (mkInstr OP_SUB 1 2 3 7) 8 m = trap_or_set f 3 (2 ^ 31 - 1 - 1) 8 m
  /\ execute f 0 (mkInstr OP_ADDI 1 2 3 7) 8 m = trap_or_set f 2 (2 ^ 31 - 1 + 7) 8 m.
Proof.
  apply (overflow_exact (mkFlags false false false) 0 (demo_machine (2 ^ 31 - 1) 1) 1 2 3 7 8 (2 ^ 31 - 1) 1);
    try reflexivity; try (unfold in_i32; lia).
Defined.
