(* ===== verification/MachineSafe.v ===== *)
(** * Safety of the user machine with a linear page table

    A rule per primitive of the monad [user], composed by [uwp_bind], for the invariant
    that the registers hold 32-bit values, the page table maps to existing frames, and
    only bytes of frames that the page table maps have changed. *)

From S2P Require Import Prelude BitMap Interrupt Machine Mips.

(** ** Outcomes of user computations *)

Definition uwp {A} (E : error -> Prop) (S : Machine -> Prop) (x : user A) (Q : A -> Machine -> Prop)
    (m : Machine) : Prop :=
  match x m with Ok (Next a m') => Q a m' | Ok (Stop _ m') => S m' | Err e => E e end.

Lemma uwp_bind {A B} E S (x : user A) (f : A -> user B) Q m :
  uwp E S x (fun a m' => uwp E S (f a) Q m') m -> uwp E S (x ≫= f) Q m.
Proof. unfold uwp, mbind, user_bind. by destruct (x m) as [[]|]. Qed.

Lemma uwp_mono {A} E S (x : user A) (Q Q' : A -> Machine -> Prop) m :
  uwp E S x Q m -> (forall a m', Q a m' -> Q' a m') -> uwp E S x Q' m.
Proof. unfold uwp. destruct (x m) as [[]|]; auto. Qed.

Lemma uwp_ret {A} E S (a : A) (Q : A -> Machine -> Prop) m : Q a m -> uwp E S (mret a) Q m.
Proof. done. Qed.

Lemma uwp_gets {A} E S (f : Machine -> A) (Q : A -> Machine -> Prop) m : Q (f m) m -> uwp E S (gets f) Q m.
Proof. done. Qed.

Lemma uwp_modify E S (f : Machine -> Machine) (Q : unit -> Machine -> Prop) m : Q tt (f m) -> uwp E S (modify f) Q m.
Proof. done. Qed.

Lemma uwp_eq {A} E S (x : user A) (Q : A -> Machine -> Prop) m a m' :
  x m = Ok (Next a m') -> Q a m' -> uwp E S x Q m.
Proof. unfold uwp. by intros ->. Qed.

Lemma uwp_assert_true E S b (Q : unit -> Machine -> Prop) m : b = true -> Q tt m -> uwp E S (ASSERT_u b) Q m.
Proof. by intros ->. Qed.

(** ** The invariant *)

Definition te_ok (e : TranslationEntry) : Prop := te_valid e = true /\ 0 <= te_physicalPage e < NumPhysPages.

Definition table (m : Machine) : list TranslationEntry :=
  match m_pageTable m with Some p => default [] (m_tables m !! p) | None => [] end.

(** The frames of the running program. *)
Definition frames (m : Machine) : list Z := te_physicalPage <$> table m.

Record mwf (m : Machine) : Prop := {
  w_regs : length (m_registers m) = NumTotalRegs;
  w_i32 : Forall in_i32 (m_registers m);
  w_load : exists r, m_registers m !! 37%nat = Some r /\ 0 <= r < 32;
  w_mem : Z.of_nat (length (m_mainMemory m)) = MemorySize;
  w_bytes : Forall is_byte (m_mainMemory m);
  w_tlb : m_tlb m = None;
  w_table : exists p, m_pageTable m = Some p /\ m_tables m !! p = Some (table m);
  w_size : m_pageTableSize m = Z.of_nat (length (table m));
  w_ok : Forall te_ok (table m);
  w_bm : bm_wf (m_bitMap m) /\ bm_numBits (m_bitMap m) = NumPhysPages
}.

(** Nothing outside the frames of the program has changed. *)
Definition confined (m0 m : Machine) : Prop :=
  frames m = frames m0
  /\ forall a, (Z.of_nat a `div` PageSize ∉ frames m0) -> m_mainMemory m !! a = m_mainMemory m0 !! a.

Definition minv (m0 m : Machine) : Prop := mwf m /\ confined m0 m.

Lemma minv_refl m : mwf m -> minv m m.
Proof. intros. split; [done|]. by split. Qed.

Section Rules.
Context (m0 : Machine) (E : error -> Prop) (S : Machine -> Prop).
Abbreviation U := (uwp E S).

Lemma reg_wp i (Q : Z -> Machine -> Prop) m :
  minv m0 m -> 0 <= i < 40 ->
  (forall v, in_i32 v -> m_registers m !! Z.to_nat i = Some v -> Q v m) -> U (reg i) Q m.
Proof.
  intros [Hw _] Hi HQ. unfold uwp.
  destruct (lookup_lt_is_Some_2 (m_registers m) (Z.to_nat i)) as [v Hv]; [rewrite (w_regs _ Hw); unfold NumTotalRegs; lia|].
  rewrite (reg_eq i m v) by (done || lia). apply HQ; [|done]. by apply (Forall_lookup_1 _ _ _ _ (w_i32 _ Hw) Hv).
Qed.

(** A register changes; the target of a delayed load must be a general register. *)
Lemma set_reg_inv i v m :
  minv m0 m -> 0 <= i < 40 -> in_i32 v -> (i = LoadReg -> 0 <= v < 32) ->
  minv m0 (m_set_registers (<[Z.to_nat i := v]> (m_registers m)) m).
Proof.
  intros [Hw Hc] Hi Hv Hl. split; [|exact Hc].
  destruct Hw as [Hr H32 (r & Hlr & Hrr) ? ? ? ? ? ? ?]. constructor; cbn; try done.
  - by rewrite length_insert.
  - by apply Forall_insert.
  - destruct (decide (i = LoadReg)) as [->|Hne].
    + exists v. split; [|auto]. apply list_lookup_insert_eq. rewrite Hr. unfold NumTotalRegs, LoadReg. lia.
    + exists r. split; [|done]. rewrite list_lookup_insert_ne; [done|]. unfold LoadReg in Hne. lia.
Qed.

Lemma set_reg_wp i v (Q : unit -> Machine -> Prop) m :
  minv m0 m -> 0 <= i < 40 -> in_i32 v -> (i = LoadReg -> 0 <= v < 32) ->
  (minv m0 (m_set_registers (<[Z.to_nat i := v]> (m_registers m)) m) ->
   Q tt (m_set_registers (<[Z.to_nat i := v]> (m_registers m)) m)) -> U (set_reg i v) Q m.
Proof.
  intros Hm Hi Hv Hl HQ. unfold uwp. rewrite set_reg_eq.
  - apply HQ. by apply set_reg_inv.
  - destruct Hm as [Hw _]. rewrite (w_regs _ Hw). unfold NumTotalRegs. lia.
Qed.

Lemma assert_wp b (Q : unit -> Machine -> Prop) m :
  E AssertFailed -> (b = true -> Q tt m) -> U (ASSERT_u b) Q m.
Proof. intros HE HQ. unfold uwp, ASSERT_u, lift. destruct b; [by apply HQ|done]. Qed.

(** [DelayedLoad] leaves register 0 at zero. *)
Lemma DelayedLoad_wp r v (Q : unit -> Machine -> Prop) m :
  minv m0 m -> 0 <= r < 32 -> in_i32 v ->
  (forall m', minv m0 m' -> m_registers m' !! 0%nat = Some 0 -> Q tt m') -> U (Machine_DelayedLoad r v) Q m.
Proof.
  intros Hm Hr Hv HQ. unfold Machine_DelayedLoad.
  eapply uwp_bind, reg_wp; [done|unfold LoadReg; lia|]. intros lr Hlr Hlr'.
  assert (Hlr2 : 0 <= lr < 32).
  { destruct Hm as [Hw _]. destruct (w_load _ Hw) as (x & Hx & ?). unfold LoadReg in Hlr'.
    change (Z.to_nat 37) with 37%nat in Hlr'. by simplify_eq. }
  eapply uwp_bind, reg_wp; [done|unfold LoadValueReg; lia|]. intros lv Hlv _.
  eapply uwp_bind, set_reg_wp; [done|lia|done|unfold LoadReg; lia|]. intros H1.
  eapply uwp_bind, set_reg_wp; [done|unfold LoadReg; lia|unfold in_i32; lia|done|]. intros H2.
  eapply uwp_bind, set_reg_wp; [done|unfold LoadValueReg; lia|done|done|]. intros H3.
  eapply set_reg_wp; [done|lia|unfold in_i32; lia|unfold LoadReg; lia|]. intros H4. apply HQ; [done|].
  cbn. apply list_lookup_insert_eq. rewrite !length_insert. destruct Hm as [Hw _]. rewrite (w_regs _ Hw). unfold NumTotalRegs. lia.
Qed.
End Rules.

(** ** Translation *)

Lemma table_entry_eq m i e : mwf m -> table m !! i = Some e -> table_entry (m_pageTable m) i m = Ok (Next e m).
Proof.
  intros Hw He. destruct (w_table _ Hw) as (p & Hp & Ht). unfold table_entry. rewrite Hp. cbn [deref mbind result_bind].
  rewrite Ht. cbn [deref mbind result_bind]. by rewrite He.
Qed.

(** The machine after an entry of its page table was replaced. *)
Definition with_entry (i : nat) (e : TranslationEntry) (m : Machine) : Machine :=
  match m_pageTable m with
  | Some p => m_set_tables (<[p := <[i := e]> (table m)]> (m_tables m)) m
  | None => m
  end.

Lemma table_with_entry m i e : mwf m -> table (with_entry i e m) = <[i := e]> (table m).
Proof.
  intros Hw. destruct (w_table _ Hw) as (p & Hp & Ht). unfold with_entry, table at 1. rewrite Hp. cbn. rewrite Hp.
  by rewrite lookup_insert_eq.
Qed.

Lemma set_entry_eq m i e : mwf m -> (i < length (table m))%nat ->
  set_entry (m_pageTable m) i e m = Ok (Next tt (with_entry i e m)).
Proof.
  intros Hw Hi. destruct (w_table _ Hw) as (p & Hp & Ht). unfold set_entry, with_entry. rewrite Hp.
  cbn [deref mbind result_bind]. rewrite Ht. cbn [deref mbind result_bind].
  destruct (lookup_lt_is_Some_2 (table m) i Hi) as [e0 ->]. done.
Qed.

(** Changing the flags of an entry. *)
Lemma with_entry_inv m0 m i e e0 :
  minv m0 m -> table m !! i = Some e0 -> te_physicalPage e = te_physicalPage e0 -> te_valid e = te_valid e0 ->
  minv m0 (with_entry i e m) /\ m_registers (with_entry i e m) = m_registers m
  /\ m_mainMemory (with_entry i e m) = m_mainMemory m.
Proof.
  intros [Hw [Hf Hc]] He Hp Hv. pose proof (table_with_entry m i e Hw) as Ht.
  pose proof (lookup_lt_Some _ _ _ He) as Hlt.
  destruct (w_table _ Hw) as (p & Hpt & Htt).
  assert (Hrest : m_registers (with_entry i e m) = m_registers m /\ m_mainMemory (with_entry i e m) = m_mainMemory m
    /\ m_tlb (with_entry i e m) = m_tlb m /\ m_pageTable (with_entry i e m) = m_pageTable m
    /\ m_pageTableSize (with_entry i e m) = m_pageTableSize m /\ m_bitMap (with_entry i e m) = m_bitMap m)
    by (unfold with_entry; by rewrite Hpt).
  destruct Hrest as (Hr & Hm & Htl & Hpp & Hsz & Hbm).
  assert (Hfr : frames (with_entry i e m) = frames m).
  { unfold frames. rewrite Ht, list_fmap_insert, Hp. apply list_insert_id. by rewrite list_lookup_fmap, He. }
  split; [|done]. split.
  - destruct Hw. constructor; rewrite ?Hr, ?Hm, ?Htl, ?Hpp, ?Hsz, ?Hbm, ?Ht; try done.
    + exists p. split; [done|]. unfold with_entry. rewrite Hpt. cbn. by rewrite lookup_insert_eq.
    + by rewrite length_insert.
    + apply Forall_insert; [done|]. pose proof (Forall_lookup_1 _ _ _ _ w_ok0 He) as [? ?].
      split; [congruence|]. by rewrite Hp.
  - split; [congruence|]. by rewrite Hm.
Qed.

(** What a successful translation promises. *)
Definition translated (m : Machine) (size pa : Z) : Prop :=
  exists frame off, frame ∈ frames m /\ 0 <= frame < NumPhysPages /\ pa = frame * PageSize + off
    /\ 0 <= off /\ off + size <= PageSize.

Lemma aligned_fits x size :
  0 <= x -> size = 1 \/ (size = 2 /\ Z.land x 1 = 0) \/ (size = 4 /\ Z.land x 3 = 0) ->
  x `mod` 128 + size <= 128.
Proof.
  intros Hx [->|[[-> H]|[-> H]]].
  - pose proof (Z.mod_pos_bound x 128). lia.
  - change 1 with (Z.ones 1) in H. rewrite Z.land_ones in H by lia. change (2 ^ 1) with 2 in H. Z.div_mod_to_equations. lia.
  - change 3 with (Z.ones 2) in H. rewrite Z.land_ones in H by lia. change (2 ^ 2) with 4 in H. Z.div_mod_to_equations. lia.
Qed.

Lemma land_u32_low x k : 0 <= k <= 32 -> Z.land (u32 x) (Z.ones k) = Z.land x (Z.ones k).
Proof.
  intros. rewrite !Z.land_ones by lia. unfold u32. apply Z.mod_mod_divide.
  exists (2 ^ (32 - k)). rewrite <-Z.pow_add_r by lia. f_equal. lia.
Qed.

(** [Translate] with a linear page table. *)
Lemma Translate_wp m0 E addr size writing (Q : ExceptionType * Z -> Machine -> Prop) m :
  minv m0 m -> size = 1 \/ size = 2 \/ size = 4 ->
  (forall ex pa m', minv m0 m' -> m_registers m' = m_registers m -> m_mainMemory m' = m_mainMemory m ->
     ex <> PageFaultException -> (ex = NoException -> translated m size pa) -> Q (ex, pa) m') ->
  uwp E (minv m0) (Machine_Translate addr size writing) Q m.
Proof.
  intros Hm Hsize HQ. pose proof Hm as [Hw [Hf _]]. unfold Machine_Translate.
  destruct (((size =? 4) && _) || _) eqn:Hal; [by apply HQ|].
  assert (Hfit : u32 addr `mod` 128 + size <= 128).
  { apply aligned_fits; [apply u32_range|]. rewrite orb_false_iff, !andb_false_iff in Hal.
    pose proof (land_u32_low addr 1 ltac:(lia)) as H1. pose proof (land_u32_low addr 2 ltac:(lia)) as H3.
    change (Z.ones 1) with 1 in H1. change (Z.ones 2) with 3 in H3. rewrite H1, H3.
    destruct Hsize as [->|[->| ->]]; [by left| |].
    - right. left. split; [done|]. destruct Hal as [_ [?|Hb]]; [done|]. apply negb_false_iff in Hb. lia.
    - right. right. split; [done|]. destruct Hal as [[?|Hb] _]; [done|]. apply negb_false_iff in Hb. lia. }
  destruct (w_table _ Hw) as (p & Hp & Ht).
  do 3 (apply uwp_bind, uwp_gets). rewrite (w_tlb _ Hw).
  apply uwp_bind, uwp_assert_true; [done|]. apply uwp_bind, uwp_assert_true; [by rewrite Hp|].
  set (vpn := u32 addr `div` PageSize). pose proof (u32_range addr) as Hu. unfold in_u32 in Hu.
  apply uwp_bind. destruct (Z.leb_spec (m_pageTableSize m) vpn) as [Hbig|Hvpn]; [by apply uwp_ret, HQ|].
  rewrite (w_size _ Hw) in Hvpn. assert (0 <= vpn) by (apply Z.div_pos; unfold PageSize; lia).
  destruct (lookup_lt_is_Some_2 (table m) (Z.to_nat vpn)) as [e He]; [lia|].
  pose proof (Forall_lookup_1 _ _ _ _ (w_ok _ Hw) He) as [Hv Hph].
  apply uwp_bind. eapply uwp_eq; [by apply table_entry_eq|]. rewrite Hv. apply uwp_ret.
  apply uwp_bind. eapply uwp_eq; [by apply table_entry_eq|].
  destruct (te_readOnly e && writing); [by apply uwp_ret, HQ|].
  rewrite u32_id by (unfold in_u32, NumPhysPages in *; lia).
  destruct (Z.leb_spec NumPhysPages (te_physicalPage e)); [lia|].
  set (e' := mkTE _ _ _ _ _ _ _).
  destruct (with_entry_inv m0 m (Z.to_nat vpn) e' e Hm He eq_refl eq_refl) as (Hm' & Hr' & Hme').
  apply uwp_bind. eapply uwp_eq; [apply set_entry_eq; [done|by apply (lookup_lt_Some _ _ e)]|].
  pose proof (Z.mod_pos_bound (u32 addr) PageSize ltac:(unfold PageSize; lia)) as Hoff.
  apply uwp_bind, uwp_assert_true.
  { unfold MemorySize, NumPhysPages, PageSize in *. apply andb_true_iff. lia. }
  apply uwp_ret, HQ; [done|done|done|done|]. intros _. exists (te_physicalPage e), (u32 addr `mod` PageSize).
  split; [apply list_elem_of_fmap; exists e; split; [done|by apply (list_elem_of_lookup_2 _ (Z.to_nat vpn))]|].
  unfold PageSize in *. split_and!; try done; lia.
Qed.

(** ** Exceptions *)

Lemma minv_hw m0 m m' :
  minv m0 m -> m_registers m' = m_registers m -> m_mainMemory m' = m_mainMemory m -> m_tables m' = m_tables m ->
  m_tlb m' = m_tlb m -> m_pageTable m' = m_pageTable m -> m_pageTableSize m' = m_pageTableSize m ->
  bm_wf (m_bitMap m') -> bm_numBits (m_bitMap m') = NumPhysPages -> minv m0 m'.
Proof.
  intros [Hw [Hf Hc]] Hr Hm Ht Htl Hp Hs Hb Hn.
  assert (Htab : table m' = table m) by (unfold table; by rewrite Hp, Ht).
  split; [|split; [unfold frames; by rewrite Htab|by rewrite Hm]].
  destruct Hw. constructor; rewrite ?Hr, ?Hm, ?Htl, ?Hp, ?Hs, ?Htab, ?Ht; done.
Qed.

Lemma Clear_wp m0 E n (Q : unit -> Machine -> Prop) m :
  minv m0 m -> 0 <= n < NumPhysPages -> (forall m', minv m0 m' -> table m' = table m -> m_pageTable m' = m_pageTable m -> Q tt m') ->
  uwp E (minv m0) (Machine_Clear n) Q m.
Proof.
  intros Hm Hn HQ. pose proof Hm as [Hw _]. destruct (w_bm _ Hw) as [Hb Hnb]. unfold Machine_Clear.
  apply uwp_bind, uwp_gets. apply uwp_bind.
  eapply uwp_eq; [unfold lift; rewrite BitMap_Test_spec by (done || lia); done|].
  destruct (bm_bit (m_bitMap m) n); [|by apply uwp_ret, HQ].
  destruct (BitMap_Clear_spec (m_bitMap m) n Hb) as (bm' & HB & Hb' & Hn' & _); [lia|].
  apply uwp_bind. eapply uwp_eq; [unfold lift; rewrite HB; done|]. apply uwp_modify, HQ; [|done|done].
  apply (minv_hw m0 m); try done. cbn. congruence.
Qed.

Lemma ClearAll_loop_wp m0 E idxs (Q : unit -> Machine -> Prop) : forall m,
  minv m0 m -> Forall (fun i => i < length (table m))%nat idxs -> (forall m', minv m0 m' -> Q tt m') ->
  uwp E (minv m0) (ClearAll_loop (m_pageTable m) idxs) Q m.
Proof.
  induction idxs as [|i idxs IH]; intros m Hm Hi HQ; cbn [ClearAll_loop]; [by apply uwp_ret, HQ|].
  apply Forall_cons in Hi as [Hi Hidx]. pose proof Hm as [Hw _].
  destruct (lookup_lt_is_Some_2 (table m) i Hi) as [e He].
  apply uwp_bind. eapply uwp_eq; [by apply table_entry_eq|].
  destruct (Forall_lookup_1 _ _ _ _ (w_ok _ Hw) He) as [_ Hph].
  apply uwp_bind, Clear_wp; [done|done|]. intros m' Hm' Ht Hp. rewrite <-Hp. apply IH; [done|by rewrite Ht|done].
Qed.

Section Linear.
Context (flags : Flags) (garbage : Z) (Hflags : USE_TLB flags = false).
Context (m0 : Machine) (E : error -> Prop) (HE : E AssertFailed).
Abbreviation U := (uwp E (minv m0)).

Lemma ClearAll_wp (Q : unit -> Machine -> Prop) m :
  minv m0 m -> (forall m', minv m0 m' -> Q tt m') -> U (Machine_ClearAll flags) Q m.
Proof.
  intros Hm HQ. pose proof Hm as [Hw _]. unfold Machine_ClearAll. rewrite Hflags.
  do 2 apply uwp_bind, uwp_gets. apply ClearAll_loop_wp; [done| |done].
  rewrite (w_size _ Hw), Nat2Z.id. apply Forall_forall. intros i Hi. apply elem_of_seq in Hi. lia.
Qed.

Lemma ReadRegister_wp i (Q : Z -> Machine -> Prop) m :
  minv m0 m -> 0 <= i < 40 -> (forall v, in_i32 v -> Q v m) -> U (Machine_ReadRegister i) Q m.
Proof.
  intros Hm Hi HQ. unfold Machine_ReadRegister. apply uwp_bind, uwp_assert_true.
  { change (Z.of_nat NumTotalRegs) with 40. apply andb_true_iff. lia. }
  eapply reg_wp; eauto.
Qed.

(** Only a page fault returns from the handler. *)
Lemma ExceptionHandler_wp which (Q : unit -> Machine -> Prop) m :
  minv m0 m -> which <> PageFaultException -> U (ExceptionHandler flags which) Q m.
Proof.
  intros Hm Hwh. unfold ExceptionHandler. apply uwp_bind, ReadRegister_wp; [done|lia|]. intros type _.
  rewrite (bool_decide_eq_false_2 (which = PageFaultException)) by done.
  destruct (bool_decide (which = SyscallException) && (type =? SC_Halt)).
  { apply uwp_bind, ClearAll_wp; [done|]. intros m' Hm'. exact Hm'. }
  destruct (bool_decide (which = SyscallException) && (type =? SC_Exit)).
  { apply uwp_bind, ClearAll_wp; [done|]. intros m' Hm'. apply uwp_bind, ReadRegister_wp; [done|lia|]. intros _ _.
    unfold IncrementPCRegs. apply uwp_bind. apply uwp_bind, ReadRegister_wp; [done|unfold NextPCReg; lia|]. intros pc Hpc.
    unfold Machine_WriteRegister. apply uwp_bind, uwp_assert_true; [done|].
    eapply set_reg_wp; [done|unfold PCReg; lia|done|done|]. intros Hm2. exact Hm2. }
  by apply assert_wp.
Qed.

Lemma RaiseException_wp which badVAddr (Q : unit -> Machine -> Prop) m :
  minv m0 m -> which <> PageFaultException -> in_i32 badVAddr ->
  U (Machine_RaiseException flags which badVAddr) Q m.
Proof.
  intros Hm Hwh Hb. unfold Machine_RaiseException.
  eapply uwp_bind, set_reg_wp; [done|unfold BadVAddrReg; lia|done|done|]. intros H1.
  eapply uwp_bind, DelayedLoad_wp; [done|lia|unfold in_i32; lia|]. intros m2 H2 _.
  apply uwp_bind, uwp_modify. apply uwp_bind, ExceptionHandler_wp; [|done].
  destruct H2 as [Hw2 Hc2]. apply (minv_hw m0 m2); try done; try apply Hw2.
Qed.

(** ** Memory *)

Lemma translate_retry_wp addr size writing (Q : option Z -> Machine -> Prop) m :
  minv m0 m -> in_i32 addr -> size = 1 \/ size = 2 \/ size = 4 ->
  (forall pa m', minv m0 m' -> m_registers m' = m_registers m -> m_mainMemory m' = m_mainMemory m ->
     translated m size pa -> Q (Some pa) m') ->
  U (translate_retry flags garbage addr size writing) Q m.
Proof.
  intros Hm Ha Hs HQ. unfold translate_retry. apply uwp_bind, Translate_wp; [done|done|].
  intros ex pa m' Hm' Hr' Hme' Hpf Ht. case_decide as Hd; [by apply uwp_ret, HQ; auto|].
  apply uwp_bind. by apply RaiseException_wp.
Qed.

Lemma translated_range m size pa : translated m size pa -> 0 <= pa /\ pa + size <= MemorySize.
Proof. intros (f & off & _ & Hf & -> & ? & ?). unfold MemorySize, NumPhysPages, PageSize in *. lia. Qed.

Lemma load_eq m n pa :
  mwf m -> 0 <= pa -> pa + Z.of_nat n <= MemorySize ->
  load pa n m = Ok (Next (slice (m_mainMemory m) (Z.to_nat pa) n) m)
  /\ length (slice (m_mainMemory m) (Z.to_nat pa) n) = n /\ Forall is_byte (slice (m_mainMemory m) (Z.to_nat pa) n).
Proof.
  intros Hw H0 Hn. pose proof (w_mem _ Hw) as Hl. unfold load.
  destruct (Z.leb_spec 0 pa); [|lia]. destruct (Z.leb_spec (pa + Z.of_nat n) (Z.of_nat (length (m_mainMemory m)))); [|lia].
  split; [done|]. split; [apply length_slice; lia|]. apply Forall_slice, Hw.
Qed.

Lemma le_dec_range bs : Forall is_byte bs -> 0 <= le_dec bs < 256 ^ Z.of_nat (length bs).
Proof.
  induction 1 as [|b bs Hb _ IH]; [cbn; lia|]. cbn [le_dec length]. rewrite Nat2Z.inj_succ, Z.pow_succ_r by lia.
  unfold is_byte in Hb. lia.
Qed.

(** The value a load of [size] bytes gives. *)
Definition load_value (size : Z) (bs : list Z) : Z :=
  if size =? 1 then i8 (le_dec bs) else if size =? 2 then le_dec bs else int_of_bytes bs.

Lemma load_value_range size bs :
  size = 1 \/ size = 2 \/ size = 4 -> Forall is_byte bs -> length bs = Z.to_nat size -> in_i32 (load_value size bs).
Proof.
  intros Hs Hb Hl. pose proof (le_dec_range _ Hb) as Hr. rewrite Hl in Hr.
  destruct Hs as [->|[->| ->]]; cbv [load_value Z.eqb Pos.eqb].
  - clear. wrap_lia.
  - change (256 ^ Z.of_nat (Z.to_nat 2)) with 65536 in Hr. unfold in_i32. lia.
  - apply i32_range.
Qed.

Lemma ReadMem_wp addr size (Q : option Z -> Machine -> Prop) m :
  minv m0 m -> in_i32 addr -> size = 1 \/ size = 2 \/ size = 4 ->
  (forall pa m', minv m0 m' -> m_registers m' = m_registers m -> translated m size pa ->
     let v := load_value size (slice (m_mainMemory m) (Z.to_nat pa) (Z.to_nat size)) in
     in_i32 v -> Q (Some v) m') ->
  U (Machine_ReadMem flags garbage addr size) Q m.
Proof.
  intros Hm Ha Hs HQ. unfold Machine_ReadMem. apply uwp_bind, translate_retry_wp; [done|done|done|].
  intros pa m' Hm' Hr' Hme' Ht. destruct (translated_range _ _ _ Ht) as [H0 H1]. pose proof Hm' as [Hw' _].
  destruct (load_eq m' (Z.to_nat size) pa Hw' H0) as (HL & Hlen & Hb); [lia|].
  specialize (HQ pa m' Hm' Hr' Ht). rewrite <-Hme' in HQ.
  pose proof (load_value_range size _ Hs Hb Hlen) as Hv. specialize (HQ Hv).
  destruct Hs as [->|[->| ->]]; apply uwp_bind; (eapply uwp_eq; [exact HL|]); by apply uwp_ret.
Qed.

(** A store to a translated address stays within the frames of the program. *)
Lemma store_inv m size pa bs :
  minv m0 m -> translated m size pa -> Z.of_nat (length bs) = size -> Forall is_byte bs ->
  store pa bs m = Ok (Next tt (m_set_memory (splice (m_mainMemory m) (Z.to_nat pa) bs) m))
  /\ minv m0 (m_set_memory (splice (m_mainMemory m) (Z.to_nat pa) bs) m).
Proof.
  intros [Hw [Hf Hc]] Ht Hlen Hb. destruct (translated_range _ _ _ Ht) as [H0 H1]. pose proof (w_mem _ Hw) as Hl.
  unfold store. destruct (Z.leb_spec 0 pa); [|lia].
  destruct (Z.leb_spec (pa + Z.of_nat (length bs)) (Z.of_nat (length (m_mainMemory m)))); [|lia].
  split; [done|]. assert (Hls : length (splice (m_mainMemory m) (Z.to_nat pa) bs) = length (m_mainMemory m))
    by (apply length_splice; lia).
  split; [|split; [done|]].
  - destruct Hw. constructor; cbn; try done; [by rewrite Hls|by apply Forall_splice].
  - intros a Ha. cbn. rewrite lookup_splice by lia. rewrite decide_False; [by apply Hc|].
    intros Hin. apply Ha. destruct Ht as (f & off & Hfr & Hfn & -> & Ho & Hfit). rewrite <-Hf.
    unfold PageSize in *. replace (Z.of_nat a `div` 128) with f; [done|]. Z.div_mod_to_equations. lia.
Qed.

Lemma WriteMem_wp addr size value (Q : bool -> Machine -> Prop) m :
  minv m0 m -> in_i32 addr -> size = 1 \/ size = 2 \/ size = 4 ->
  (forall pa m', minv m0 m' -> m_registers m' = m_registers m -> translated m size pa ->
     m_mainMemory m' = splice (m_mainMemory m) (Z.to_nat pa) (le_enc (Z.to_nat size) value) -> Q true m') ->
  U (Machine_WriteMem flags garbage addr size value) Q m.
Proof.
  intros Hm Ha Hs HQ. unfold Machine_WriteMem. apply uwp_bind, translate_retry_wp; [done|done|done|].
  intros pa m' Hm' Hr' Hme' Ht.
  assert (Ht' : translated m' size pa).
  { destruct Ht as (f & off & Hfr & Hrest). exists f, off. split; [|done].
    destruct Hm as [_ [Hf _]], Hm' as [_ [Hf' _]]. by rewrite Hf', <-Hf. }
  destruct (store_inv m' size pa (le_enc (Z.to_nat size) value) Hm' Ht') as [HS Hm2];
    [rewrite length_le_enc; lia|apply le_enc_bytes|].
  specialize (HQ pa _ Hm2 Hr' Ht). rewrite <-Hme' in HQ. specialize (HQ eq_refl).
  destruct Hs as [->|[->| ->]]; apply uwp_bind; (eapply uwp_eq; [exact HS|]); by apply uwp_ret.
Qed.

(** ** Instructions *)

Lemma raise_wp which badVAddr (Q : done -> Machine -> Prop) m :
  minv m0 m -> which <> PageFaultException -> in_i32 badVAddr -> U (raise flags which badVAddr) Q m.
Proof. intros. unfold raise. apply uwp_bind. by apply RaiseException_wp. Qed.

Lemma if_read_wp addr size k (Q : done -> Machine -> Prop) m :
  minv m0 m -> in_i32 addr -> size = 1 \/ size = 2 \/ size = 4 ->
  (forall v m', minv m0 m' -> in_i32 v -> U (k v) Q m') -> U (if_read flags garbage addr size k) Q m.
Proof. intros Hm Ha Hs HQ. unfold if_read. apply uwp_bind, ReadMem_wp; auto. Qed.

Lemma if_written_wp addr size value k (Q : done -> Machine -> Prop) m :
  minv m0 m -> in_i32 addr -> size = 1 \/ size = 2 \/ size = 4 ->
  (forall m', minv m0 m' -> U k Q m') -> U (if_written flags garbage addr size value k) Q m.
Proof. intros Hm Ha Hs HQ. unfold if_written. apply uwp_bind, WriteMem_wp; auto. Qed.

Lemma merge_base_wp rt (Q : Z -> Machine -> Prop) m :
  minv m0 m -> 0 <= rt < 32 -> (forall v, in_i32 v -> Q v m) -> U (merge_base rt) Q m.
Proof.
  intros Hm Hr HQ. unfold merge_base. eapply uwp_bind, reg_wp; [done|unfold LoadReg; lia|]. intros lr _ _.
  destruct (lr =? rt); eapply reg_wp; eauto; unfold LoadValueReg; lia.
Qed.

Lemma i32_in z : in_i32 (i32 z).
Proof. apply i32_range. Qed.

Lemma in_i32_small z : 0 <= z < 2 ^ 31 -> in_i32 z.
Proof. unfold in_i32. lia. Qed.

Lemma Mult_range a b s : in_i32 (Mult a b s).1 /\ in_i32 (Mult a b s).2.
Proof.
  unfold Mult. destruct ((a =? 0) || (b =? 0)); [split; unfold in_i32; cbn; lia|].
  destruct (Mult_loop _ _ _ _ _ _) as [hi lo]. destruct (s && _); split; apply i32_range.
Qed.

Lemma quot_range a b : in_i32 a -> in_i32 b -> b <> 0 -> ~ (a = - 2 ^ 31 /\ b = -1) ->
  in_i32 (a `quot` b) /\ in_i32 (a `rem` b).
Proof.
  unfold in_i32. intros Ha Hb Hz Hn. pose proof (Z.quot_rem a b Hz) as Hqr.
  pose proof (Z.rem_bound_abs a b Hz) as Hr.
  destruct (decide (b = 1)) as [->|]; [|destruct (decide (b = -1)) as [->|]]; [lia|lia|].
  split; [|lia]. destruct (Z.eq_dec (a `quot` b) 0); [lia|]. nia.
Qed.

(** The values instructions compute fit their registers. *)
Lemma merge_range tmp old value : in_i32 old -> in_i32 value ->
  in_i32 (LWL_merge tmp old value) /\ in_i32 (LWR_merge tmp old value).
Proof.
  intros. unfold LWL_merge, LWR_merge.
  split; repeat match goal with |- context [if ?b then _ else _] => destruct b end; done || apply i32_range.
Qed.

Lemma sext8_range b z : in_i32 (if (b : bool) then i32 (Z.lor (u32 z) 0xffffff00) else Z.land z 0xff).
Proof. destruct b; [apply i32_range|]. by apply (in_i32_land_u16 z 8). Qed.

Lemma sext16_range b z : in_i32 (if (b : bool) then i32 (Z.lor (u32 z) 0xffff0000) else Z.land z 0xffff).
Proof. destruct b; [apply i32_range|]. by apply (in_i32_land_u16 z 16). Qed.

Lemma bool_range (b : bool) : in_i32 (if b then 1 else 0).
Proof. unfold in_i32. destruct b; lia. Qed.

Lemma ones16_range z : in_i32 (Z.land z 0xffff).
Proof. by apply (in_i32_land_u16 z 16). Qed.

Lemma sll5_range a : 0 <= Z.land a 0x1f.
Proof. exact (proj1 (land_range a 5 ltac:(lia))). Qed.

Lemma align_range a : in_i32 a -> in_i32 (Z.land a (Z.lnot 3)).
Proof. intros. apply in_i32_land; [done|]. change (Z.lnot 3) with (-4). unfold in_i32. lia. Qed.

Hint Resolve i32_in bool_range sext8_range sext16_range ones16_range sll5_range align_range : nachos.

(** One step through the [switch]. *)
Ltac range := first [done | lia | solve [auto with nachos] | (unfold in_i32; lia)].

Ltac istep :=
  match goal with
  | |- uwp _ _ (mbind _ _) _ _ => apply uwp_bind
  | |- uwp _ _ (mret _) _ _ => apply uwp_ret
  | |- uwp _ _ (reg _) _ _ => eapply reg_wp; [done|unfold NextPCReg, HiReg, LoReg; lia|intros ? ? ?]
  | |- uwp _ _ (set_reg _ _) _ _ =>
      eapply set_reg_wp; [done|unfold LoReg, HiReg, R31; lia|range|unfold LoadReg, LoReg, HiReg, R31; lia|intros ?]
  | |- uwp _ _ (raise _ _ _) _ _ => apply raise_wp; [done|done|range]
  | |- uwp _ _ (ASSERT_u _) _ _ => apply assert_wp; [done|intros ?]
  | |- uwp _ _ (if_read _ _ _ _ _) _ _ => apply if_read_wp; [done|range|lia|intros ? ? ? ?]
  | |- uwp _ _ (if_written _ _ _ _ _ _) _ _ => apply if_written_wp; [done|range|lia|intros ? ?]
  | |- uwp _ _ (merge_base _) _ _ => apply merge_base_wp; [done|done|intros ? ?]
  | |- uwp _ _ (match ?b with true => _ | false => _ end) _ _ => destruct b eqn:?
  end.

Lemma execute_wp i pcAfter (Q : done -> Machine -> Prop) m :
  minv m0 m -> 0 <= in_rs i < 32 -> 0 <= in_rt i < 32 -> 0 <= in_rd i < 32 -> in_i32 (in_extra i) ->
  executable (in_opCode i) ->
  (in_opCode i = OP_SLL \/ in_opCode i = OP_SRL \/ in_opCode i = OP_SRA -> 0 <= in_extra i < 32) ->
  in_i32 pcAfter ->
  (in_opCode i = OP_DIV -> m_registers m !! Z.to_nat (in_rs i) = Some (- 2 ^ 31) ->
     m_registers m !! Z.to_nat (in_rt i) = Some (-1) -> E MemFault) ->
  (forall pc r v m', minv m0 m' -> in_i32 pc -> 0 <= r < 32 -> in_i32 v -> Q (Some (pc, (r, v))) m') ->
  U (execute flags garbage i pcAfter) Q m.
Proof.
  intros Hm Hs Ht Hd Hx (Hn1 & Hn2 & Hn3) Hsh Hpc HM HQ. unfold execute, execute_from_MFHI. cbv zeta.
  destruct (in_opCode i) eqn:Hop; try done;
    try (solve [repeat istep; apply HQ; range]).
  - (* DIV *)
    istep. istep. istep; [solve [repeat istep; apply HQ; range]|]. istep. istep. istep.
    match goal with |- uwp _ _ (host_div ?a ?b) _ _ =>
      assert (Hq : ~ (a = - 2 ^ 31 /\ b = -1) -> in_i32 (a `quot` b) /\ in_i32 (a `rem` b))
        by (apply quot_range; lia || done)
    end.
    unfold host_div. destruct ((_ =? - 2 ^ 31) && _) eqn:Hov.
    + apply andb_true_iff in Hov as [Ha Hb]. apply Z.eqb_eq in Ha as ->, Hb as ->. by apply HM.
    + apply andb_false_iff in Hov. destruct Hq as [Hq1 Hq2]; [lia|].
      istep. repeat istep. apply HQ; range.
  - repeat istep. apply HQ; [done|done|done|]. by apply merge_range.
  - repeat istep. apply HQ; [done|done|done|]. by apply merge_range.
  - do 4 istep. match goal with |- context [Mult ?a ?b ?s] => destruct (Mult_range a b s); destruct (Mult a b s) end.
    repeat istep. apply HQ; range.
  - do 4 istep. match goal with |- context [Mult ?a ?b ?s] => destruct (Mult_range a b s); destruct (Mult a b s) end.
    repeat istep. apply HQ; range.
  - assert (0 <= in_extra i) by (apply Hsh; auto). repeat istep. apply HQ; range.
  - assert (0 <= in_extra i) by (apply Hsh; auto). repeat istep. apply HQ; range.
Qed.

(** The instruction at the program counter divides the smallest integer by -1. *)
Definition div_overflow (m : Machine) : Prop :=
  exists pa i, translated m 4 pa
    /\ Instruction_Decode (u32 (int_of_bytes (slice (m_mainMemory m) (Z.to_nat pa) 4))) = Ok i
    /\ in_opCode i = OP_DIV
    /\ m_registers m !! Z.to_nat (in_rs i) = Some (- 2 ^ 31) /\ m_registers m !! Z.to_nat (in_rt i) = Some (-1).

Lemma OneInstruction_wp (Q : unit -> Machine -> Prop) m :
  minv m0 m -> (div_overflow m -> E MemFault) ->
  (forall m', minv m0 m' -> m_registers m' !! 0%nat = Some 0 -> Q tt m') ->
  U (Machine_OneInstruction flags garbage) Q m.
Proof.
  intros Hm HM HQ. unfold Machine_OneInstruction.
  eapply uwp_bind, reg_wp; [done|unfold PCReg; lia|]. intros pc Hpc _.
  apply uwp_bind, ReadMem_wp; [done|done|lia|]. intros pa m1 Hm1 Hr1 Ht v Hv.
  destruct (Decode_ok (u32 v)) as (i & Hi & Hrs & Hrt & Hrd & Hx & Hop & Hsh).
  apply uwp_bind. eapply uwp_eq; [unfold lift; by rewrite Hi|].
  eapply uwp_bind, reg_wp; [done|unfold NextPCReg; lia|]. intros np _ _.
  apply uwp_bind, execute_wp; try done; [apply i32_range| |].
  - rewrite Hr1. intros H1 H2 H3. apply HM. by exists pa, i.
  - intros pcA r lv m2 Hm2 HpcA Hr Hlv.
    eapply uwp_bind, DelayedLoad_wp; [done|done|done|]. intros m3 Hm3 H0.
    eapply uwp_bind, reg_wp; [done|unfold PCReg; lia|]. intros pc3 Hpc3 _.
    eapply uwp_bind, set_reg_wp; [done|unfold PrevPCReg; lia|done|done|]. intros Hm4.
    eapply uwp_bind, reg_wp; [done|unfold NextPCReg; lia|]. intros np4 Hnp4 _.
    eapply uwp_bind, set_reg_wp; [done|unfold PCReg; lia|done|done|]. intros Hm5.
    eapply set_reg_wp; [done|unfold NextPCReg; lia|done|done|]. intros Hm6.
    apply HQ; [done|]. cbn. by rewrite !list_lookup_insert_ne by done.
Qed.

Lemma Run_loop_wp n (Q : unit -> Machine -> Prop) : forall m,
  minv m0 m -> (forall m', minv m0 m' -> div_overflow m' -> E MemFault) -> (forall m', minv m0 m' -> Q tt m') ->
  U (Run_loop flags garbage n) Q m.
Proof.
  induction n as [|n IH]; intros m Hm HM HQ; cbn [Run_loop]; [by apply uwp_ret, HQ|].
  apply uwp_bind, OneInstruction_wp; [done|by apply HM|]. intros m' Hm' _. by apply IH.
Qed.
End Linear.

(** C23.  One instruction of a user program on a machine with a linear page table: whatever
    word the program counter points at, the simulator does not touch memory it does not
    own, the registers keep 32-bit values with register 0 at zero, and no byte of main
    memory outside the frames of the program's page table changes, also when the kernel
    halts the machine or ends the thread; the only other outcomes are an assertion (an
    exception the kernel does not handle) and the division of the smallest integer by -1,
    which traps in the simulator itself. *)
Theorem OneInstruction_safe (flags : Flags) (garbage : Z) (m : Machine) :
  USE_TLB flags = false -> mwf m ->
  match Machine_OneInstruction flags garbage m with
  | Ok (Next _ m') => mwf m' /\ confined m m' /\ m_registers m' !! 0%nat = Some 0
  | Ok (Stop _ m') => mwf m' /\ confined m m'
  | Err e => e = AssertFailed \/ (e = MemFault /\ div_overflow m)
  end.
Proof.
  intros Hf Hm.
  apply (OneInstruction_wp flags garbage Hf m (fun e => e = AssertFailed \/ (e = MemFault /\ div_overflow m))
           (or_introl eq_refl) (fun _ m' => mwf m' /\ confined m m' /\ m_registers m' !! 0%nat = Some 0)).
  - by apply minv_refl.
  - auto.
  - by intros m' [? ?].
Qed.

(** A program of two pages, in frames 3 and 5, that starts with the given instruction. *)
Definition two_pages (instr : Z) : Machine :=
  mkMachine (<[35%nat := 4]> (replicate 40 0)) (splice (replicate 4096 0) 384 (le_enc 4 instr))
    {[ 1%positive := [mkTE 0 3 true false false false 0; mkTE 1 5 true false false false 0] ]}
    None (Some 1%positive) 2 (mkBitMap 32 1 [2 ^ 3 + 2 ^ 5]) UserMode.

Lemma two_pages_wf instr : mwf (two_pages instr).
Proof.
  constructor; cbn [two_pages m_registers m_mainMemory m_tlb m_pageTable m_pageTableSize m_bitMap m_tables].
  - reflexivity.
  - apply Forall_insert; [|unfold in_i32; lia]. apply Forall_replicate. unfold in_i32; lia.
  - exists 0. split; [reflexivity|lia].
  - rewrite length_splice by (rewrite length_le_enc, length_replicate; lia). by rewrite length_replicate.
  - apply Forall_splice; [|apply le_enc_bytes]. apply Forall_replicate. unfold is_byte; lia.
  - done.
  - by exists 1%positive.
  - done.
  - repeat constructor; unfold NumPhysPages; cbn; lia.
  - split; [|done]. by apply (bm_wf_example 32 [2 ^ 3 + 2 ^ 5]).
Qed.

(** A store to the second page. *)
Lemma OneInstruction_safe_witness :
  let m := two_pages (encode_I 43 0 2 132) in
  match Machine_OneInstruction (mkFlags false false false) 0 m with
  | Ok (Next _ m') => mwf m' /\ confined m m' /\ m_registers m' !! 0%nat = Some 0
  | Ok (Stop _ m') => mwf m' /\ confined m m'
  | Err e => e = AssertFailed \/ (e = MemFault /\ div_overflow m)
  end.
Proof.
  apply (OneInstruction_safe (mkFlags false false false) 0 (two_pages (encode_I 43 0 2 132))); [reflexivity|].
  apply two_pages_wf.
Defined.
