(* ===== verification/Alu.v ===== *)
(** * The register instructions of machine/mipssim.cc against the MIPS architecture

    The simulator computes with signed C [int]s.  Here the results of the shift, logic,
    comparison and non-trapping arithmetic instructions are compared with their definition
    on 32-bit words (naturals below 2^32), as the architecture gives it. *)

From S2P Require Import Prelude BitMap Interrupt Machine Mips MachineSafe.

(** ** The architecture *)

(** The instructions considered; ADD, ADDI and SUB can trap, MULT and DIV write HI and LO. *)
Definition is_alu (op : OpCode) : bool :=
  match op with
  | OP_ADDIU | OP_ADDU | OP_AND | OP_ANDI | OP_LUI | OP_NOR | OP_OR | OP_ORI | OP_SLL | OP_SLLV | OP_SLT | OP_SLTI
  | OP_SLTIU | OP_SLTU | OP_SRA | OP_SRAV | OP_SRL | OP_SRLV | OP_SUBU | OP_XOR | OP_XORI => true
  | _ => false
  end.

Definition immediate (op : OpCode) : bool :=
  match op with
  | OP_ADDIU | OP_ANDI | OP_LUI | OP_ORI | OP_SLTI | OP_SLTIU | OP_XORI => true
  | _ => false
  end.

(** Words read as two's complement numbers. *)
Definition signed (w : Z) : Z := if w <? 2 ^ 31 then w else w - 2 ^ 32.

(** The result of an instruction whose operand registers hold the words [s] and [t]; [x] is
    the sign-extended immediate or the shift amount. *)
Definition mips_word (op : OpCode) (s t x : Z) : Z :=
  let truncate z := z `mod` 2 ^ 32 in
  let zext := x `mod` 2 ^ 16 in
  let flag (b : bool) := if b then 1 else 0 in
  match op with
  | OP_ADDU => truncate (s + t)
  | OP_ADDIU => truncate (s + truncate x)
  | OP_SUBU => truncate (s - t)
  | OP_AND => Z.land s t
  | OP_ANDI => Z.land s zext
  | OP_OR => Z.lor s t
  | OP_ORI => Z.lor s zext
  | OP_XOR => Z.lxor s t
  | OP_XORI => Z.lxor s zext
  | OP_NOR => Z.lxor (Z.lor s t) (Z.ones 32)
  | OP_LUI => zext * 2 ^ 16
  | OP_SLL => truncate (t * 2 ^ x)
  | OP_SLLV => truncate (t * 2 ^ (s `mod` 32))
  | OP_SRL => t `div` 2 ^ x
  | OP_SRLV => t `div` 2 ^ (s `mod` 32)
  | OP_SRA => truncate (signed t `div` 2 ^ x)
  | OP_SRAV => truncate (signed t `div` 2 ^ (s `mod` 32))
  | OP_SLT => flag (signed s <? signed t)
  | OP_SLTI => flag (signed s <? x)
  | OP_SLTU => flag (s <? t)
  | OP_SLTIU => flag (s <? truncate x)
  | _ => 0
  end.

(** What [Decode] leaves in [extra]. *)
Definition extra_ok (op : OpCode) (x : Z) : Prop :=
  if immediate op then - 2 ^ 15 <= x < 2 ^ 15 else 0 <= x < 32.

(** ** Words and signed numbers *)

Lemma signed_u32 z : in_i32 z -> signed (u32 z) = z.
Proof. intros H. unfold signed. destruct (Z.ltb_spec (u32 z) (2 ^ 31)); wrap_lia. Qed.

Lemma u32_inj a b : in_i32 a -> in_i32 b -> u32 a = u32 b -> a = b.
Proof. intros Ha Hb H. by rewrite <-(signed_u32 a Ha), <-(signed_u32 b Hb), H. Qed.

Lemma u32_bits z n : 0 <= n -> Z.testbit (u32 z) n = (n <? 32) && Z.testbit z n.
Proof.
  intros Hn. unfold u32. destruct (Z.ltb_spec n 32).
  - by rewrite Z.mod_pow2_bits_low.
  - by rewrite Z.mod_pow2_bits_high by lia.
Qed.

Ltac bitwise :=
  apply Z.bits_inj'; intros n Hn;
  rewrite ?u32_bits, ?Z.land_spec, ?Z.lor_spec, ?Z.lxor_spec, ?Z.lnot_spec, ?u32_bits by lia;
  destruct (n <? 32); cbn [andb]; try done.

Lemma u32_land a b : u32 (Z.land a b) = Z.land (u32 a) (u32 b).
Proof. bitwise. Qed.
Lemma u32_lor a b : u32 (Z.lor a b) = Z.lor (u32 a) (u32 b).
Proof. bitwise. Qed.
Lemma u32_lxor a b : u32 (Z.lxor a b) = Z.lxor (u32 a) (u32 b).
Proof. bitwise. Qed.
Lemma u32_lnot a : u32 (Z.lnot a) = Z.lxor (u32 a) (Z.ones 32).
Proof.
  apply Z.bits_inj'. intros n Hn. rewrite Z.lxor_spec, !u32_bits, Z.lnot_spec by lia.
  destruct (Z.ltb_spec n 32); cbn [andb].
  - rewrite Z.ones_spec_low by lia. by rewrite xorb_true_r.
  - by rewrite Z.ones_spec_high by lia.
Qed.

Lemma zext_u32 x : u32 (Z.land x 0xffff) = x `mod` 2 ^ 16.
Proof. change 0xffff with (Z.ones 16). rewrite Z.land_ones by lia. wrap_lia. Qed.

Lemma u32_mod32 a : u32 a `mod` 32 = Z.land a 0x1f.
Proof. change 0x1f with (Z.ones 5). rewrite Z.land_ones by lia. unfold u32. by rewrite Z.mod_mod_divide by (exists (2 ^ 27); lia). Qed.

Lemma u32_shiftl b n : 0 <= n -> u32 (i32 (Z.shiftl b n)) = (u32 b * 2 ^ n) `mod` 2 ^ 32.
Proof. intros. rewrite u32_i32, Z.shiftl_mul_pow2 by lia. unfold u32. by rewrite Z.mul_mod_idemp_l by lia. Qed.

Lemma u32_shiftr b n : in_i32 b -> 0 <= n -> u32 (Z.shiftr b n) = (signed (u32 b) `div` 2 ^ n) `mod` 2 ^ 32.
Proof. intros. by rewrite signed_u32, Z.shiftr_div_pow2. Qed.

(** An arithmetic shift is the logical one exactly on non-negative numbers and for shifts by
    nothing. *)
Lemma srl_iff b n : in_i32 b -> 0 <= n -> u32 (Z.shiftr b n) = u32 b `div` 2 ^ n <-> ~ (b < 0 /\ n <> 0).
Proof.
  intros Hb Hn. pose proof (in_i32_sra b n Hb Hn) as Hr. destruct (decide (n = 0)) as [->|Hn0].
  { rewrite Z.shiftr_0_r. change (2 ^ 0) with 1. rewrite Z.div_1_r. tauto. }
  pose proof (u32_range b) as Hu. unfold in_u32, in_i32 in *.
  assert (Hpow : 2 <= 2 ^ n) by (change 2 with (2 ^ 1) at 1; apply Z.pow_le_mono_r; lia).
  assert (Hlow : u32 b `div` 2 ^ n < 2 ^ 31) by (apply Z.div_lt_upper_bound; [lia|]; nia).
  destruct (Z.lt_ge_cases b 0) as [Hneg|Hpos].
  - split; [|lia]. intros E. apply Z.shiftr_neg with (n := n) in Hneg.
    exfalso. revert E. unfold u32 at 1. rewrite <-(Z.mod_unique (Z.shiftr b n) (2 ^ 32) (-1) (Z.shiftr b n + 2 ^ 32)) by lia. lia.
  - split; [lia|]. intros _. rewrite (u32_id b) by (unfold in_u32; lia). rewrite u32_id.
    + by apply Z.shiftr_div_pow2.
    + unfold in_u32. apply Z.shiftr_nonneg with (n := n) in Hpos. lia.
Qed.

(** ** The simulator *)

(** The value the simulator stores, for operands [a] and [b]. *)
Definition alu_value (op : OpCode) (a b x : Z) : Z :=
  let flag (b : bool) := if b then 1 else 0 in
  match op with
  | OP_ADDU => i32 (a + b)
  | OP_ADDIU => i32 (a + x)
  | OP_SUBU => i32 (a - b)
  | OP_AND => Z.land a b
  | OP_ANDI => Z.land a (Z.land x 0xffff)
  | OP_OR => a
  | OP_ORI => Z.lor a (Z.land x 0xffff)
  | OP_XOR => Z.lxor a b
  | OP_XORI => Z.lxor a (Z.land x 0xffff)
  | OP_NOR => Z.lnot (Z.lor a b)
  | OP_LUI => i32 (Z.shiftl x 16)
  | OP_SLL => i32 (Z.shiftl b x)
  | OP_SLLV => i32 (Z.shiftl b (Z.land a 0x1f))
  | OP_SRA | OP_SRL => Z.shiftr b x
  | OP_SRAV | OP_SRLV => Z.shiftr b (Z.land a 0x1f)
  | OP_SLT => flag (a <? b)
  | OP_SLTI => flag (a <? x)
  | OP_SLTU => flag (u32 a <? u32 b)
  | OP_SLTIU => flag (u32 a <? u32 x)
  | _ => 0
  end.

Lemma execute_alu flags garbage m op rs rt rd x pcAfter a b :
  is_alu op = true -> 0 <= rs -> 0 <= rt -> m_registers m !! Z.to_nat rs = Some a -> m_registers m !! Z.to_nat rt = Some b ->
  execute flags garbage (mkInstr op rs rt rd x) pcAfter m
  = (set_reg (if immediate op then rt else rd) (alu_value op a b x) ;; mret (Some (pcAfter, (0, 0)))) m.
Proof.
  intros Hop Hs Ht Hrs Hrt. unfold execute, execute_from_MFHI. cbn [in_opCode in_rs in_rt in_rd in_extra]. cbv zeta.
  destruct op; try discriminate Hop; cbn [immediate alu_value];
    repeat first [rewrite (user_bind_Ok (reg rs) _ m a m) by by apply reg_eq | rewrite (user_bind_Ok (reg rt) _ m b m) by by apply reg_eq];
    rewrite ?Z.lor_diag; reflexivity.
Qed.

Lemma alu_value_range op a b x : in_i32 a -> in_i32 b -> extra_ok op x -> in_i32 (alu_value op a b x).
Proof.
  intros Ha Hb Hx. assert (H0 : in_i32 0) by (unfold in_i32; lia).
  destruct op; cbn [alu_value immediate extra_ok] in *; unfold extra_ok in *; cbn [immediate] in *;
    auto using in_i32_land, in_i32_lor, in_i32_lxor, in_i32_lnot, ones16_range, i32_in, bool_range.
  all: apply in_i32_sra; [done|]; auto using sll5_range; lia.
Qed.

(** The three instructions that are simulated wrongly, and the operands that show it. *)
Definition alu_defect (op : OpCode) (a b x : Z) : Prop :=
  match op with
  | OP_OR => Z.lor a b <> a
  | OP_SRL => b < 0 /\ x <> 0
  | OP_SRLV => b < 0 /\ Z.land a 0x1f <> 0
  | _ => False
  end.

Lemma or_iff a b : in_i32 a -> in_i32 b -> u32 a = Z.lor (u32 a) (u32 b) <-> ~ (Z.lor a b <> a).
Proof.
  intros Ha Hb. rewrite <-u32_lor. pose proof (in_i32_lor a b Ha Hb) as Hl. split.
  - intros E ?. apply u32_inj in E; done.
  - intros E. destruct (Z.eq_dec (Z.lor a b) a) as [->|]; tauto.
Qed.

Lemma alu_value_spec op a b x : is_alu op = true -> in_i32 a -> in_i32 b -> extra_ok op x ->
  u32 (alu_value op a b x) = mips_word op (u32 a) (u32 b) x <-> ~ alu_defect op a b x.
Proof.
  intros Hop Ha Hb Hx. pose proof (sll5_range a) as H5.
  destruct op; try discriminate Hop; unfold extra_ok in Hx; cbn [immediate] in Hx;
    cbn [alu_value mips_word alu_defect]; cbv zeta; rewrite ?u32_mod32, ?zext_u32, ?u32_land, ?u32_lxor, ?signed_u32 by done.
  all: try (split; [by intros _ []|intros _]).
  all: try done.
  all: try (repeat case_match; reflexivity).
  all: try (by apply or_iff); try (apply srl_iff; [done|lia]); try (apply u32_shiftl; lia).
  all: rewrite ?u32_lnot, ?u32_lor, ?zext_u32, ?u32_i32; try done.
  all: try (unfold u32; rewrite ?Z.add_mod_idemp_l, ?Z.add_mod_idemp_r, ?Zminus_mod_idemp_l, ?Zminus_mod_idemp_r by lia; done).
  all: try (by rewrite Z.shiftr_div_pow2 by lia).
  - by rewrite <-(u32_land x), zext_u32.
  - rewrite Z.shiftl_mul_pow2 by lia. unfold u32. change (2 ^ 32) with (2 ^ 16 * 2 ^ 16). by apply Zmult_mod_distr_r.
  - change (x `mod` 2 ^ 32) with (u32 x). by destruct (u32 a <? u32 x).
Qed.

(** C26.  The shift, logic, comparison and non-trapping arithmetic instructions store, into the
    register the architecture names, a 32-bit value, and it is the word that the
    architecture defines in all cases but these: OR when the second operand has a bit the
    first has not (its second operand is never read), SRL and SRLV when a negative number
    is shifted by a positive amount (they shift arithmetically). *)
Theorem alu_refines_mips (flags : Flags) (garbage : Z) (m : Machine) (op : OpCode) (rs rt rd x pcAfter a b : Z) :
  is_alu op = true -> 0 <= rs -> 0 <= rt -> m_registers m !! Z.to_nat rs = Some a -> m_registers m !! Z.to_nat rt = Some b ->
  in_i32 a -> in_i32 b -> extra_ok op x ->
  exists v, execute flags garbage (mkInstr op rs rt rd x) pcAfter m
              = (set_reg (if immediate op then rt else rd) v ;; mret (Some (pcAfter, (0, 0)))) m
    /\ in_i32 v /\ (u32 v = mips_word op (u32 a) (u32 b) x <-> ~ alu_defect op a b x).
Proof.
  intros Hop Hs Ht Hrs Hrt Ha Hb Hx. exists (alu_value op a b x).
  split; [by apply execute_alu|]. split; [by apply alu_value_range|by apply alu_value_spec].
Qed.

(** OR of 1 and 2, where the defect shows. *)
Lemma alu_refines_mips_witness :
  let m := demo_machine 1 2 in
  exists v, execute (mkFlags false false false) 0 (mkInstr OP_OR 1 2 3 0) 8 m = (set_reg 3 v ;; mret (Some (8, (0, 0)))) m
    /\ in_i32 v /\ (u32 v = mips_word OP_OR (u32 1) (u32 2) 0 <-> ~ alu_defect OP_OR 1 2 0).
Proof.
  apply (alu_refines_mips (mkFlags false false false) 0 (demo_machine 1 2) OP_OR 1 2 3 0 8 1 2);
    try reflexivity; try lia; unfold in_i32, extra_ok; cbn; lia.
Defined.

Example or_defect : alu_defect OP_OR 1 2 0 /\ mips_word OP_OR 1 2 0 = 3 /\ alu_value OP_OR 1 2 0 = 1.
Proof. repeat split; by vm_compute. Qed.

Example srl_defect : alu_defect OP_SRL 0 (-16) 4 /\ mips_word OP_SRL 0 (u32 (-16)) 4 = 0x0fffffff /\ alu_value OP_SRL 0 (-16) 4 = -1.
Proof. repeat split; by vm_compute. Qed.
