(* ===== verification/Interp.v ===== *)
(** * bin/execute.c, bin/system.c, bin/instr.h, bin/encode.h, bin/int.h: the MIPS interpreter

    The stand-alone interpreter for MIPS programs that is kept beside the object file
    converters: it runs on a flat memory of 16 MB at [memoffset], with delayed branches but
    no delayed loads and no traps.  The system calls that the host serves are an argument
    [host_call].  The theorems compare the interpreter with the architecture ([mips_word] of
    [Alu.v]), the reference the simulator of machine/mipssim.cc is compared with. *)

From S2P Require Import Prelude BitMap Interrupt Machine Mips MachineSafe Alu.

(** ** encode.h *)

Definition I_SPECIAL : Z := 0.
Definition I_BCOND : Z := 1.
Definition I_J : Z := 2.
Definition I_JAL : Z := 3.
Definition I_BEQ : Z := 4.
Definition I_BNE : Z := 5.
Definition I_BLEZ : Z := 6.
Definition I_BGTZ : Z := 7.
Definition I_ADDI : Z := 8.
Definition I_ADDIU : Z := 9.
Definition I_SLTI : Z := 10.
Definition I_SLTIU : Z := 11.
Definition I_ANDI : Z := 12.
Definition I_ORI : Z := 13.
Definition I_XORI : Z := 14.
Definition I_LUI : Z := 15.
Definition I_COP0 : Z := 16.
Definition I_COP1 : Z := 17.
Definition I_COP2 : Z := 18.
Definition I_COP3 : Z := 19.
Definition I_LB : Z := 32.
Definition I_LH : Z := 33.
Definition I_LWL : Z := 34.
Definition I_LW : Z := 35.
Definition I_LBU : Z := 36.
Definition I_LHU : Z := 37.
Definition I_LWR : Z := 38.
Definition I_SB : Z := 40.
Definition I_SH : Z := 41.
Definition I_SWL : Z := 42.
Definition I_SW : Z := 43.
Definition I_SWR : Z := 46.
Definition I_LWC0 : Z := 48.
Definition I_LWC1 : Z := 49.
Definition I_LWC2 : Z := 50.
Definition I_LWC3 : Z := 51.
Definition I_SWC0 : Z := 56.
Definition I_SWC1 : Z := 57.
Definition I_SWC2 : Z := 58.
Definition I_SWC3 : Z := 59.
Definition I_SLL : Z := 0.
Definition I_SRL : Z := 2.
Definition I_SRA : Z := 3.
Definition I_SLLV : Z := 4.
Definition I_SRLV : Z := 6.
Definition I_SRAV : Z := 7.
Definition I_JR : Z := 8.
Definition I_JALR : Z := 9.
Definition I_SYSCALL : Z := 12.
Definition I_BREAK : Z := 13.
Definition I_MFHI : Z := 16.
Definition I_MTHI : Z := 17.
Definition I_MFLO : Z := 18.
Definition I_MTLO : Z := 19.
Definition I_MULT : Z := 24.
Definition I_MULTU : Z := 25.
Definition I_DIV : Z := 26.
Definition I_DIVU : Z := 27.
Definition I_ADD : Z := 32.
Definition I_ADDU : Z := 33.
Definition I_SUB : Z := 34.
Definition I_SUBU : Z := 35.
Definition I_AND : Z := 36.
Definition I_OR : Z := 37.
Definition I_XOR : Z := 38.
Definition I_NOR : Z := 39.
Definition I_SLT : Z := 42.
Definition I_SLTU : Z := 43.
Definition I_BLTZ : Z := 0.
Definition I_BGEZ : Z := 1.
Definition I_BLTZAL : Z := 16.
Definition I_BGEZAL : Z := 17.

(** ** instr.h: the fields of an instruction word *)

Definition rd (i : Z) : Z := Z.land (Z.shiftr i 11) 0x1f.
Definition rt (i : Z) : Z := Z.land (Z.shiftr i 16) 0x1f.
Definition rs (i : Z) : Z := Z.land (Z.shiftr i 21) 0x1f.
Definition shamt (i : Z) : Z := Z.land (Z.shiftr i 6) 0x1f.
Definition immed (i : Z) : Z :=
  if negb (Z.land i 0x8000 =? 0) then Z.lor i (- 0x8000) else Z.land i 0x7fff.

(** ** int.h and the state *)

Definition MEMSIZE : Z := 2 ^ 24.
Definition memoffset : Z := 0x10000000.

(** Memory is statically allocated: bytes that were never written are zero. *)
Record Cpu := mkCpu {
  cp_Reg : list Z; cp_HI : Z; cp_LO : Z; cp_pc : Z; cp_npc : Z; cp_mem : gmap Z Z
}.

(** A step goes on, ends the interpreter with a status, or is one C does not define (an
    address outside [mem], a division the host traps, a shift by 32 or more). *)
Inductive outcome (A : Type) := Go (a : A) | Ends (status : Z) | Undefined.
Arguments Go {A} a.
Arguments Ends {A} status.
Arguments Undefined {A}.

#[global] Instance outcome_ret : MRet outcome := fun A a => Go a.
#[global] Instance outcome_bind : MBind outcome := fun A B f m =>
  match m with Go a => f a | Ends st => Ends st | Undefined => Undefined end.

Definition Reg (s : Cpu) (r : Z) : Z := nth (Z.to_nat r) (cp_Reg s) 0.
Definition set_Reg (r v : Z) (s : Cpu) : Cpu :=
  mkCpu (<[Z.to_nat r := v]> (cp_Reg s)) (cp_HI s) (cp_LO s) (cp_pc s) (cp_npc s) (cp_mem s).
Definition set_HILO (hi lo : Z) (s : Cpu) : Cpu := mkCpu (cp_Reg s) hi lo (cp_pc s) (cp_npc s) (cp_mem s).
Definition set_npc (npc : Z) (s : Cpu) : Cpu := mkCpu (cp_Reg s) (cp_HI s) (cp_LO s) (cp_pc s) npc (cp_mem s).
Definition set_mem (mem : gmap Z Z) (s : Cpu) : Cpu := mkCpu (cp_Reg s) (cp_HI s) (cp_LO s) (cp_pc s) (cp_npc s) mem.

Definition mapped (addr size : Z) : bool := (memoffset <=? addr) && (addr + size <=? memoffset + MEMSIZE).

(** The bytes at [addr]; [fetch], [sfetch] and the others read them as numbers. *)
Definition mem_bytes (s : Cpu) (addr : Z) (n : nat) : outcome (list Z) :=
  if mapped addr (Z.of_nat n)
  then Go ((fun k => default 0 (cp_mem s !! k)) <$> seqZ addr (Z.of_nat n)) else Undefined.

Definition fetch (s : Cpu) (addr : Z) : outcome Z := bs ← mem_bytes s addr 4; Go (int_of_bytes bs).
Definition usfetch (s : Cpu) (addr : Z) : outcome Z := bs ← mem_bytes s addr 2; Go (le_dec bs).
Definition sfetch (s : Cpu) (addr : Z) : outcome Z :=
  x ← usfetch s addr; Go (if x <? 2 ^ 15 then x else x - 2 ^ 16).
Definition ucfetch (s : Cpu) (addr : Z) : outcome Z := bs ← mem_bytes s addr 1; Go (le_dec bs).
Definition cfetch (s : Cpu) (addr : Z) : outcome Z := x ← ucfetch s addr; Go (if x <? 2 ^ 7 then x else x - 2 ^ 8).

Definition put_bytes (addr : Z) (bs : list Z) (mem : gmap Z Z) : gmap Z Z :=
  foldl (fun mem '(k, b) => <[k := b]> mem) mem (zip (seqZ addr (Z.of_nat (length bs))) bs).

Definition mem_store (addr : Z) (n : nat) (v : Z) (s : Cpu) : outcome Cpu :=
  if mapped addr (Z.of_nat n) then Go (set_mem (put_bytes addr (le_enc n v) (cp_mem s)) s) else Undefined.

(** [switch]: the first case that matches. *)
Fixpoint switch {A} (x : Z) (cases : list (Z * A)) (default : A) : A :=
  match cases with
  | [] => default
  | (k, a) :: cases => if x =? k then a else switch x cases default
  end.

(** Shift amounts C defines. *)
Definition shift_ok (n : Z) (v : Z) : outcome Z := if (0 <=? n) && (n <? 32) then Go v else Undefined.

Definition flag (b : bool) : Z := if b then 1 else 0.

(** [u()]: unimplemented. *)
Definition u : outcome Cpu := Ends 2.

(** ** Multiplication *)

Definition half_lo (t : Z) : Z := Z.land t 0xffff.
Definition half_hi (t : Z) : Z := Z.land (Z.shiftr t 16) 0xffff.

(** [t1h*t2h + ((t1h*t2l)>>16) + ((t2h*t1l)>>16)] in [int]s. *)
Definition mult_high (t1 t2 : Z) : Z :=
  i32 (i32 (half_hi t1 * half_hi t2) + Z.shiftr (i32 (half_hi t1 * half_lo t2)) 16
       + Z.shiftr (i32 (half_hi t2 * half_lo t1)) 16).

(** [I_MULT]: HI and LO. *)
Definition interp_mult (a b : Z) : Z * Z :=
  let '(t1, neg) := if a <? 0 then (i32 (- a), true) else (a, false) in
  let '(t2, neg) := if b <? 0 then (i32 (- b), negb neg) else (b, neg) in
  let LO := i32 (t1 * t2) in
  let HI := mult_high t1 t2 in
  if neg then
    let LO := i32 (Z.lnot LO + 1) in
    let HI := Z.lnot HI in
    (if LO =? 0 then i32 (HI + 1) else HI, LO)
  else (HI, LO).

(** [I_MULTU] *)
Definition interp_multu (a b : Z) : Z * Z := (mult_high a b, i32 (a * b)).

(** [I_DIV] and [I_DIVU]: the host traps on a zero divisor and on INT_MIN / -1. *)
Definition interp_div (a b : Z) : outcome (Z * Z) :=
  if (b =? 0) || ((a =? - 2 ^ 31) && (b =? -1)) then Undefined else Go (a `rem` b, a `quot` b).
Definition interp_divu (a b : Z) : outcome (Z * Z) :=
  if b =? 0 then Undefined else Go (i32 (u32 a `mod` u32 b), i32 (u32 a `div` u32 b)).

(** ** [ilog2] *)

(** [if ((j = (i & mask)) != 0) { i = j; l += k; }] *)
Definition ilog2_test (mask k : Z) (st : Z * Z) : Z * Z :=
  let '(i, l) := st in
  let j := i32 (Z.land (u32 i) mask) in
  if negb (j =? 0) then (j, i32 (l + k)) else (i, l).

Definition ilog2 (i : Z) : Z :=
  if i =? 0 then 0
  else snd (ilog2_test 0xaaaaaaaa 1 (ilog2_test 0xcccccccc 2 (ilog2_test 0xf0f0f0f0 4
         (ilog2_test 0xff00ff00 8 (ilog2_test 0xffff0000 16 (i, 1)))))).

Section Interpreter.
(** The system calls served by the host: number, three arguments and the memory to the
    result and the memory. *)
Context (host_call : Z -> Z -> Z -> Z -> gmap Z Z -> Z * gmap Z Z).

(** system.c: [system_trap]; [system_break] does the same. *)
Definition SYS_exit : Z := 1.
Definition SYS_read : Z := 3.
Definition SYS_write : Z := 4.
Definition SYS_open : Z := 5.
Definition SYS_close : Z := 6.
Definition SYS_lseek : Z := 19.
Definition SYS_ioctl : Z := 54.
Definition SYS_fstat : Z := 62.
Definition SYS_getpagesize : Z := 64.

Definition system_trap (s : Cpu) : outcome Cpu :=
  let syscallno := Reg s 2 in
  let o0 := Reg s 4 in
  let o1 := Reg s 5 in
  let o2 := Reg s 6 in
  let served o1 := let '(r, mem) := host_call syscallno o0 o1 o2 (cp_mem s) in Go (set_Reg 1 r (set_mem mem s)) in
  switch syscallno
    [(SYS_exit, Ends 0);
     (SYS_read, served o1); (SYS_write, served o1); (SYS_open, served o1);
     (SYS_close, Go (set_Reg 1 0 s));
     (17, Go (set_Reg 1 (i32 ((o0 `quot` 8192 + 1) * 8192)) s));
     (SYS_lseek, served o1);
     (SYS_ioctl,
        let size := Z.land (Z.shiftr o1 16) 0x7f in
        let ioctl_group := Z.land (Z.shiftr o1 8) 0xff in
        let o1 := if (ioctl_group =? 116) && (size =? 8)
                  then Z.lor (Z.land o1 (Z.lnot (Z.shiftl 0x7f 16))) (Z.shiftl 6 16) else o1 in
        s ← served o1; Go (set_Reg 1 0 s));
     (SYS_fstat, served o1); (SYS_getpagesize, served o1)]
    (Ends 2).

(** ** [runprogram]: one instruction *)

(** The instructions of opcode [I_SPECIAL]; [xpc] is the address of the instruction. *)
Definition special (instr xpc : Z) (s : Cpu) : outcome Cpu :=
  let a := Reg s (rs instr) in
  let b := Reg s (rt instr) in
  let to_rd v := Go (set_Reg (rd instr) v s) in
  let shifted v := x ← v; to_rd x in
  switch (Z.land instr 0x3f)
    [(I_SLL, to_rd (i32 (Z.shiftl b (shamt instr))));
     (I_SRL, to_rd (i32 (Z.shiftr (u32 b) (shamt instr))));
     (I_SRA, to_rd (Z.shiftr b (shamt instr)));
     (I_SLLV, shifted (shift_ok a (i32 (Z.shiftl b a))));
     (I_SRLV, shifted (shift_ok a (i32 (Z.shiftr (u32 b) a))));
     (I_SRAV, shifted (shift_ok a (Z.shiftr b a)));
     (I_JR, Go (set_npc a s));
     (I_JALR, Go (set_Reg (rd instr) (i32 (xpc + 8)) (set_npc a s)));
     (I_SYSCALL, system_trap s);
     (I_BREAK, system_trap s);
     (I_MFHI, to_rd (cp_HI s));
     (I_MTHI, Go (set_HILO a (cp_LO s) s));
     (I_MFLO, to_rd (cp_LO s));
     (I_MTLO, Go (set_HILO (cp_HI s) a s));
     (I_MULT, let '(hi, lo) := interp_mult a b in Go (set_HILO hi lo s));
     (I_MULTU, let '(hi, lo) := interp_multu a b in Go (set_HILO hi lo s));
     (I_DIV, '(hi, lo) ← interp_div a b; Go (set_HILO hi lo s));
     (I_DIVU, '(hi, lo) ← interp_divu a b; Go (set_HILO hi lo s));
     (I_ADD, to_rd (i32 (a + b))); (I_ADDU, to_rd (i32 (a + b)));
     (I_SUB, to_rd (i32 (a - b))); (I_SUBU, to_rd (i32 (a - b)));
     (I_AND, to_rd (Z.land a b)); (I_OR, to_rd (Z.lor a b)); (I_XOR, to_rd (Z.lxor a b));
     (I_NOR, to_rd (Z.lnot (Z.lor a b)));
     (I_SLT, to_rd (flag (a <? b))); (I_SLTU, to_rd (flag (u32 a <? u32 b)))]
    u.

(** The target of a branch: [xpc + 4 + (immed(instr) << 2)]. *)
Definition branch_target (instr xpc : Z) : Z := i32 (xpc + 4 + i32 (Z.shiftl (immed instr) 2)).
Definition branch_if (cond : bool) (instr xpc : Z) (s : Cpu) : Cpu :=
  if cond then set_npc (branch_target instr xpc) s else s.

(** The instructions of opcode [I_BCOND]. *)
Definition bcond (instr xpc : Z) (s : Cpu) : outcome Cpu :=
  let linked := set_Reg 31 (i32 (xpc + 8)) s in
  switch (rt instr)
    [(I_BLTZ, Go (branch_if (Reg s (rs instr) <? 0) instr xpc s));
     (I_BGEZ, Go (branch_if (0 <=? Reg s (rs instr)) instr xpc s));
     (I_BLTZAL, Go (branch_if (Reg linked (rs instr) <? 0) instr xpc linked));
     (I_BGEZAL, Go (branch_if (0 <=? Reg linked (rs instr)) instr xpc linked))]
    u.

Definition jump_target (instr xpc : Z) : Z :=
  i32 (Z.lor (Z.land (u32 xpc) 0xf0000000) (Z.shiftl (Z.land instr 0x03ffffff) 2)).

(** [fetch(i & 0xfffffffc)] *)
Definition fetch_word (s : Cpu) (i : Z) : outcome Z := fetch s (i32 (Z.land (u32 i) 0xfffffffc)).

Definition interp_LWL (instr i : Z) (s : Cpu) : outcome Cpu :=
  let r := rt instr in
  let old := Z.land (Reg s r) (Z.shiftr (-1) (8 * Z.land (- i) 0x03)) in
  w ← fetch_word s i; Go (set_Reg r (Z.lor old (i32 (Z.shiftl w (8 * Z.land i 0x03)))) s).

Definition interp_LWR (instr i : Z) (s : Cpu) : outcome Cpu :=
  let r := rt instr in
  let old := Z.land (Reg s r) (i32 (Z.shiftl (-1) (8 * Z.land i 0x03))) in
  let old := if Z.land i 0x03 =? 0 then 0 else old in
  w ← fetch_word s i; Go (set_Reg r (Z.lor old (Z.shiftr w (8 * Z.land (- i) 0x03))) s).

(** The other opcodes. *)
Definition normal (instr xpc : Z) (s : Cpu) : outcome Cpu :=
  let a := Reg s (rs instr) in
  let b := Reg s (rt instr) in
  let addr := i32 (a + immed instr) in
  let to_rt v := Go (set_Reg (rt instr) v s) in
  let loaded v := x ← v; to_rt x in
  switch (Z.land (Z.shiftr instr 26) 0x3f)
    [(I_SPECIAL, special instr xpc s);
     (I_BCOND, bcond instr xpc s);
     (I_J, Go (set_npc (jump_target instr xpc) s));
     (I_JAL, Go (set_npc (jump_target instr xpc) (set_Reg 31 (i32 (xpc + 8)) s)));
     (I_BEQ, Go (branch_if (a =? b) instr xpc s));
     (I_BNE, Go (branch_if (negb (a =? b)) instr xpc s));
     (I_BLEZ, Go (branch_if (a <=? 0) instr xpc s));
     (I_BGTZ, Go (branch_if (0 <? a) instr xpc s));
     (I_ADDI, to_rt (i32 (a + immed instr)));
     (I_ADDIU, to_rt (i32 (a + immed instr)));
     (I_SLTI, to_rt (flag (a <? immed instr)));
     (I_SLTIU, to_rt (flag (u32 a <? u32 (immed instr))));
     (I_ANDI, to_rt (Z.land a (immed instr)));
     (I_ORI, to_rt (Z.lor a (immed instr)));
     (I_XORI, to_rt (Z.lxor a (immed instr)));
     (I_LUI, to_rt (i32 (Z.shiftl instr 16)));
     (I_LB, loaded (cfetch s addr)); (I_LH, loaded (sfetch s addr));
     (I_LWL, interp_LWL instr addr s); (I_LW, loaded (fetch s addr));
     (I_LBU, loaded (ucfetch s addr)); (I_LHU, loaded (usfetch s addr));
     (I_LWR, interp_LWR instr addr s);
     (I_SB, mem_store addr 1 b s); (I_SH, mem_store addr 2 b s);
     (I_SWL, u); (I_SW, mem_store addr 4 b s); (I_SWR, u);
     (I_LWC0, Ends 2); (I_LWC1, Ends 2); (I_LWC2, Ends 2); (I_LWC3, Ends 2);
     (I_SWC0, Ends 2); (I_SWC1, Ends 2); (I_SWC2, Ends 2); (I_SWC3, Ends 2);
     (I_COP0, Ends 2); (I_COP1, Ends 2); (I_COP2, Ends 2); (I_COP3, Ends 2)]
    u.

(** The body of the loop: [pc] and [npc] move on, then the instruction at the old [pc]. *)
Definition interp_step (s : Cpu) : outcome Cpu :=
  let xpc := cp_pc s in
  let s := mkCpu (cp_Reg s) (cp_HI s) (cp_LO s) (cp_npc s) (i32 (cp_npc s + 4)) (cp_mem s) in
  instr ← fetch s xpc;
  let s := set_Reg 0 0 s in
  if negb (instr =? 0) then normal instr xpc s else Go s.

(** [n] rounds of the loop. *)
Fixpoint interp_run (n : nat) (s : Cpu) : outcome Cpu :=
  match n with O => Go s | S n => s ← interp_step s; interp_run n s end.

End Interpreter.

(** The arguments: [argc] at the stack pointer, then a table of 8 pointers at most before the
    strings ([strcpy] does not check). *)
Fixpoint put_args (aci ai : Z) (argv : list (list Z)) (s : Cpu) : outcome Cpu :=
  match argv with
  | [] => Go s
  | arg :: argv =>
      let text := arg ++ [0] in
      s ← (if mapped ai (Z.of_nat (length text)) then Go (set_mem (put_bytes ai text (cp_mem s)) s) else Undefined);
      s ← mem_store aci 4 ai s;
      put_args (aci + 4) (ai + Z.of_nat (length arg) + 1) argv s
  end.

(** [runprogram] before the loop. *)
Definition runprogram_start (startpc : Z) (argv : list (list Z)) (s : Cpu) : outcome Cpu :=
  let i := MEMSIZE - 1024 + memoffset in
  let s := mkCpu (cp_Reg s) (cp_HI s) (cp_LO s) startpc (i32 (startpc + 4)) (cp_mem s) in
  let s := set_Reg 29 i s in
  s ← mem_store i 4 (Z.of_nat (length argv)) s;
  put_args (i + 4) (i + 4 + 32) argv s.

(** ** The arithmetic instructions against the architecture *)

(** Words and [int]s have the same fields. *)
Lemma field_u32 v k w : 0 <= k -> 0 <= w -> k + w <= 32 ->
  Z.land (Z.shiftr (u32 v) k) (Z.ones w) = Z.land (Z.shiftr v k) (Z.ones w).
Proof.
  intros. apply Z.bits_inj'. intros n Hn. rewrite !Z.land_spec, !Z.shiftr_spec by lia.
  destruct (Z.lt_ge_cases n w).
  - rewrite u32_bits by lia. by destruct (Z.ltb_spec (n + k) 32); [|lia].
  - by rewrite Z.ones_spec_high, !andb_false_r by lia.
Qed.

Lemma land_mask_u32 v m : Z.land (Z.ones 32) m = m -> Z.land (u32 v) m = Z.land v m.
Proof. intros Hm. unfold u32. by rewrite <-Z.land_ones, <-Z.land_assoc, Hm by lia. Qed.

Lemma Decode_u32 v : Instruction_Decode (u32 v) = Instruction_Decode v.
Proof.
  unfold Instruction_Decode, Decode_op. change 0x1f with (Z.ones 5). change 0x3f with (Z.ones 6).
  by rewrite !field_u32, !land_mask_u32 by done.
Qed.

(** Both ways to extend an immediate agree. *)
Lemma immed_eq v : immed v = sext16 (v `mod` 2 ^ 16).
Proof.
  unfold immed. change (- 0x8000) with (- 2 ^ 15). change 0x8000 with (2 ^ 15). rewrite land_pow2_zero, Z.testbit_odd, Z.shiftr_div_pow2 by lia.
  change 0x7fff with (Z.ones 15). rewrite Z.land_ones by lia.
  assert (Hor : Z.lor v (- 2 ^ 15) = - 1 - (- 1 - v) `mod` 2 ^ 15).
  { change (- 2 ^ 15) with (Z.lnot (Z.ones 15)). rewrite <-(Z.lnot_involutive v) at 1.
    rewrite <-Z.lnot_land, Z.land_ones by lia. unfold Z.lnot. replace (Z.pred (- v)) with (- 1 - v) by lia. lia. }
  rewrite Hor. unfold sext16. rewrite Zodd_mod. clear Hor.
  assert (Hneg : (- 1 - v) `mod` 2 ^ 15 = 2 ^ 15 - 1 - v `mod` 2 ^ 15)
    by (change (2 ^ 15) with 32768; Z.div_mod_to_equations; lia).
  change (2 ^ 16) with (2 ^ 15 * 2). rewrite Hneg, Z.rem_mul_r by lia.
  pose proof (Z.mod_pos_bound v (2 ^ 15)). pose proof (Z.mod_pos_bound (v `div` 2 ^ 15) 2).
  destruct (Z.eqb_spec ((v `div` 2 ^ 15) `mod` 2) 1), (Z.ltb_spec (v `mod` 2 ^ 15 + 2 ^ 15 * ((v `div` 2 ^ 15) `mod` 2)) (2 ^ 15)); lia.
Qed.

(** The value the interpreter stores, or that C leaves it undefined. *)
Definition interp_value (op : OpCode) (a b x : Z) : outcome Z :=
  match op with
  | OP_OR => Go (Z.lor a b)
  | OP_ANDI => Go (Z.land a x)
  | OP_ORI => Go (Z.lor a x)
  | OP_XORI => Go (Z.lxor a x)
  | OP_SRL => Go (i32 (Z.shiftr (u32 b) x))
  | OP_SLLV => shift_ok a (i32 (Z.shiftl b a))
  | OP_SRLV => shift_ok a (i32 (Z.shiftr (u32 b) a))
  | OP_SRAV => shift_ok a (Z.shiftr b a)
  | _ => Go (alu_value op a b x)
  end.

Lemma i32_lui v : i32 (Z.shiftl v 16) = i32 (Z.shiftl (sext16 (v `mod` 2 ^ 16)) 16).
Proof.
  apply u32_inj; [apply i32_in..|]. rewrite !u32_i32, !Z.shiftl_mul_pow2 by lia. unfold u32.
  change (2 ^ 32) with (2 ^ 16 * 2 ^ 16). rewrite !Z.mul_mod_distr_r by lia. f_equal.
  unfold sext16. case_match; [by rewrite Z.mod_mod|]. change (2 ^ 16) with 65536. Z.div_mod_to_equations. lia.
Qed.

(** What the interpreter does with an arithmetic instruction, the operation numbers one by one. *)
Definition alu_case (host_call : Z -> Z -> Z -> Z -> gmap Z Z -> Z * gmap Z Z) (instr xpc : Z) (st : Cpu) (op : OpCode) (x : Z) : Prop :=
  is_alu op = true ->
  normal host_call instr xpc st
  = (v ← interp_value op (Reg st (rs instr)) (Reg st (rt instr)) x;
     Go (set_Reg (if immediate op then rt instr else rd instr) v st)).

(** One goal for each value of [f] below 64. *)
Ltac cases64 :=
  refine (Z_cases 64 _ _); let l := eval vm_compute in (seqZ 0 64) in change (seqZ 0 64) with l;
  repeat (apply Forall_cons; split); [cbv beta..|by apply Forall_nil].

Lemma special_alu host_call instr xpc st op :
  Z.land (Z.shiftr instr 26) 0x3f = 0 -> specialTable !! Z.to_nat (Z.land instr 0x3f) = Some op ->
  alu_case host_call instr xpc st op (shamt instr).
Proof.
  intros Ho Hop Halu. unfold normal. rewrite Ho. change (switch 0 _ _) with (special host_call instr xpc st).
  unfold special. revert Hop. generalize (land_range instr 6 ltac:(lia) : 0 <= Z.land instr 0x3f < 64).
  generalize (Z.land instr 0x3f) as f. cases64; intros [= <-]; try discriminate Halu; reflexivity.
Qed.

Lemma Decode_op_alu op v op' : op <> SPECIAL -> Decode_op op v = Ok op' -> is_alu op' = true -> op' = op.
Proof.
  intros Hs. unfold Decode_op. rewrite decide_False by done. case_decide; [|by intros [= ->]].
  intros [= <-]. by repeat case_match.
Qed.

Lemma normal_alu host_call instr xpc st op s t d x :
  Instruction_Decode instr = Ok (mkInstr op s t d x) -> alu_case host_call instr xpc st op x.
Proof.
  unfold Instruction_Decode. rewrite sext16_ok, <-immed_eq.
  destruct (decide (Z.land (Z.shiftr instr 26) 0x3f = 0)) as [Ho|Ho].
  - rewrite Ho. change (deref (opTable !! Z.to_nat 0)) with (Ok (SPECIAL, RFMT)). cbn [mbind result_bind].
    unfold Decode_op. rewrite decide_True by done.
    destruct (specialTable !! Z.to_nat (Z.land instr 0x3f)) as [op'|] eqn:Hop; [|done].
    intros [= -> _ _ _ <-]. by apply special_alu.
  - intros Hd Halu. unfold normal. revert Ho Hd.
    generalize (land_range (Z.shiftr instr 26) 6 ltac:(lia) : 0 <= Z.land (Z.shiftr instr 26) 0x3f < 64).
    generalize (Z.land (Z.shiftr instr 26) 0x3f) as o. cases64; intros Ho; try done.
    all: match goal with |- context [opTable !! Z.to_nat ?k] =>
           let o := eval vm_compute in (opTable !! Z.to_nat k) in change (opTable !! Z.to_nat k) with o end.
    all: cbn [deref mbind result_bind].
    all: match goal with |- context [Decode_op ?o ?v] =>
           destruct (Decode_op o v) as [op'|] eqn:Hop; [|done]; intros [= -> _ _ _ <-];
           apply Decode_op_alu in Hop; [|done|done]; subst op; try discriminate Halu end.
    all: try reflexivity.
    transitivity (Go (set_Reg (rt instr) (i32 (Z.shiftl instr 16)) st)); [reflexivity|].
    by rewrite i32_lui, <-immed_eq.
Qed.

Lemma alu_formats :
  Forall (fun p => is_alu p.1 = true -> immediate p.1 = true /\ p.2 = IFMT) opTable /\ Forall (fun op => immediate op = false) specialTable.
Proof. split; repeat constructor; done. Qed.

(** The fields of an arithmetic instruction. *)
Lemma Decode_fields v op s t d x : Instruction_Decode v = Ok (mkInstr op s t d x) -> is_alu op = true ->
  s = rs v /\ t = rt v /\ d = rd v /\ extra_ok op x.
Proof.
  unfold Instruction_Decode. rewrite sext16_ok.
  destruct (opTable !! _) as [[op0 fmt]|] eqn:Htab; [|done]. cbn [deref mbind result_bind].
  destruct (Decode_op op0 v) as [op'|] eqn:Hop; [|done]. intros [= -> <- <- <- <-] Halu. split_and!; [done..|].
  destruct (decide (op0 = SPECIAL)) as [->|Hs].
  - unfold Decode_op in Hop. rewrite decide_True in Hop by done.
    destruct (specialTable !! _) as [op'|] eqn:Hspec; [|done]. injection Hop as ->.
    unfold extra_ok. rewrite (Forall_lookup_1 _ _ _ _ (proj2 alu_formats) Hspec).
    destruct (Forall_lookup_1 _ _ _ _ op_table_ops Htab) as (_ & _ & _ & _ & Hr). cbn in Hr. rewrite (Hr eq_refl).
    exact (land_range (Z.shiftr v 6) 5 ltac:(lia)).
  - apply Decode_op_alu in Hop; [|done..]. subst op0.
    destruct (Forall_lookup_1 _ _ _ _ (proj1 alu_formats) Htab Halu) as [Himm Hfmt]. cbn in Himm, Hfmt. subst fmt.
    unfold extra_ok. rewrite Himm. pose proof (Z.mod_pos_bound v (2 ^ 16)). unfold sext16. case_match; lia.
Qed.

(** *** Immediates that are extended with the sign *)

(** Two numbers with the same low half. *)
Lemma halves_eq y z : y `mod` 2 ^ 16 = z `mod` 2 ^ 16 -> (y = z <-> Z.shiftr y 16 = Z.shiftr z 16).
Proof. rewrite !Z.shiftr_div_pow2 by lia. split; [by intros ->|]. intros. rewrite (Z.div_mod y (2 ^ 16)), (Z.div_mod z (2 ^ 16)) by lia. congruence. Qed.

Lemma high_half z : in_u32 z -> 0 <= Z.shiftr z 16 < 2 ^ 16.
Proof. unfold in_u32. rewrite Z.shiftr_div_pow2 by lia. change (2 ^ 16) with 65536. Z.div_mod_to_equations. lia. Qed.

(** A negative immediate: the word, its low half and its high half. *)
Lemma negative_word x : - 2 ^ 15 <= x < 0 -> Z.shiftr (u32 x) 16 = Z.ones 16 /\ u32 x `mod` 2 ^ 16 = x `mod` 2 ^ 16.
Proof.
  intros Hx. unfold u32. split.
  - rewrite Z.shiftr_div_pow2 by lia. change (Z.ones 16) with 65535. change (2 ^ 16) with 65536. change (2 ^ 32) with 4294967296.
    Z.div_mod_to_equations. lia.
  - rewrite Z.mod_mod_divide; [done|]. by exists (2 ^ 16).
Qed.

Lemma low_zext x : Z.shiftr (x `mod` 2 ^ 16) 16 = 0.
Proof. rewrite Z.shiftr_div_pow2 by lia. apply Z.div_small, Z.mod_pos_bound. lia. Qed.

Section Logical.
Context (w x : Z) (Hw : in_u32 w) (Hx : - 2 ^ 15 <= x < 0).

(** An operation on bits that keeps halves apart. *)
Lemma logical_iff (f : Z -> Z -> Z) (g : bool -> bool -> bool) :
  (forall a b n, Z.testbit (f a b) n = g (Z.testbit a n) (Z.testbit b n)) ->
  (forall a b n, Z.shiftr (f a b) n = f (Z.shiftr a n) (Z.shiftr b n)) ->
  f w (u32 x) = f w (x `mod` 2 ^ 16) <-> f (Z.shiftr w 16) (Z.ones 16) = f (Z.shiftr w 16) 0.
Proof.
  intros Hbit Hsh. destruct (negative_word x Hx) as [Hhi Hlo]. rewrite halves_eq, !Hsh, Hhi, low_zext; [done|].
  apply Z.bits_inj'. intros n Hn. destruct (Z.lt_ge_cases n 16); [|by rewrite !Z.mod_pow2_bits_high by lia].
  rewrite !Z.mod_pow2_bits_low, !Hbit by lia. f_equal.
  rewrite <-(Z.mod_pow2_bits_low (u32 x) 16), Hlo by lia. by rewrite Z.mod_pow2_bits_low by lia.
Qed.

Lemma andi_iff : Z.land w (u32 x) = Z.land w (x `mod` 2 ^ 16) <-> ~ 2 ^ 16 <= w.
Proof.
  rewrite (logical_iff Z.land andb Z.land_spec Z.shiftr_land), Z.land_ones, Z.land_0_r, Z.mod_small by (try apply high_half; done || lia).
  rewrite Z.shiftr_div_pow2, Z.div_small_iff by lia. unfold in_u32 in Hw. lia.
Qed.

Lemma ori_iff : Z.lor w (u32 x) = Z.lor w (x `mod` 2 ^ 16) <-> ~ w < 0xffff0000.
Proof.
  rewrite (logical_iff Z.lor orb Z.lor_spec Z.shiftr_lor), Z.lor_0_r. pose proof (high_half w Hw).
  rewrite Z.lor_ones_low; [|lia|destruct (decide (Z.shiftr w 16 = 0)) as [->|]; [done|]; apply Z.log2_lt_pow2; lia].
  rewrite Z.shiftr_div_pow2 by lia. unfold in_u32 in Hw. change (Z.ones 16) with 65535. change (2 ^ 16) with 65536 in *.
  Z.div_mod_to_equations. lia.
Qed.

Lemma xori_iff : Z.lxor w (u32 x) <> Z.lxor w (x `mod` 2 ^ 16).
Proof.
  rewrite (logical_iff Z.lxor xorb Z.lxor_spec Z.shiftr_lxor), Z.lxor_0_r. intros H.
  apply (f_equal (Z.lxor (Z.shiftr w 16))) in H. rewrite <-Z.lxor_assoc, Z.lxor_nilpotent in H. by vm_compute in H.
Qed.

End Logical.

(** The operands on which the interpreter differs from the architecture: the logical immediates
    are extended with the sign, and a variable shift takes the whole register. *)
Definition interp_defect (op : OpCode) (a x : Z) : Prop :=
  match op with
  | OP_ANDI => x < 0 /\ 2 ^ 16 <= u32 a
  | OP_ORI => x < 0 /\ u32 a < 0xffff0000
  | OP_XORI => x < 0
  | OP_SLLV | OP_SRLV | OP_SRAV => ~ (0 <= a < 32)
  | _ => False
  end.

Definition computes (r : outcome Z) (w : Z) : Prop := exists v, r = Go v /\ in_i32 v /\ u32 v = w.

Lemma computes_Go v w : in_i32 v -> computes (Go v) w <-> u32 v = w.
Proof. intros Hv. split; [by intros (? & [= <-] & _ & H)|]. by exists v. Qed.

Lemma computes_shift n v w : (0 <= n < 32 -> in_i32 v /\ u32 v = w) -> computes (shift_ok n v) w <-> ~ ~ (0 <= n < 32).
Proof.
  intros H. unfold shift_ok. destruct (Z.leb_spec 0 n), (Z.ltb_spec n 32); cbn [andb].
  2-4: (split; [by intros (? & [=] & _)|lia]).
  split; [lia|]. intros _. destruct H; [lia|]. by exists v.
Qed.

Lemma zext_nonneg x : 0 <= x < 2 ^ 15 -> u32 x = x `mod` 2 ^ 16.
Proof. intros. unfold u32. by rewrite !Z.mod_small by lia. Qed.

Lemma in_i32_imm x : - 2 ^ 15 <= x < 2 ^ 15 -> in_i32 x.
Proof. unfold in_i32. lia. Qed.

Lemma u32_srl b n : 0 <= n -> u32 (i32 (Z.shiftr (u32 b) n)) = u32 b `div` 2 ^ n.
Proof.
  intros. rewrite u32_i32, Z.shiftr_div_pow2 by lia. apply u32_id. pose proof (u32_range b) as Hb. unfold in_u32 in *.
  split; [apply Z.div_pos; lia|]. apply Z.div_lt_upper_bound; [lia|]. pose proof (Z.pow_pos_nonneg 2 n). nia.
Qed.

Lemma interp_value_spec op a b x : is_alu op = true -> in_i32 a -> in_i32 b -> extra_ok op x ->
  computes (interp_value op a b x) (mips_word op (u32 a) (u32 b) x) <-> ~ interp_defect op a x.
Proof.
  intros Hop Ha Hb Hx. pose proof (u32_range a) as Hu.
  assert (Hsame : interp_value op a b x = Go (alu_value op a b x) -> alu_defect op a b x = False -> interp_defect op a x = False ->
    computes (interp_value op a b x) (mips_word op (u32 a) (u32 b) x) <-> ~ interp_defect op a x).
  { intros -> Hno ->. rewrite computes_Go by by apply alu_value_range. rewrite alu_value_spec by done. by rewrite Hno. }
  destruct op; try discriminate Hop; try (by apply Hsame); clear Hsame; unfold extra_ok in Hx; cbn [immediate] in Hx;
    cbn [interp_value mips_word interp_defect]; cbv zeta.
  all: try (rewrite computes_Go by auto using in_i32_land, in_i32_lor, in_i32_lxor, in_i32_imm, i32_in).
  all: try (rewrite computes_shift; [tauto|intros Hn; split; [auto using i32_in, in_i32_sra with lia|]]).
  all: try (assert (Hm : u32 a `mod` 32 = a) by (rewrite u32_id by (unfold in_u32; lia); apply Z.mod_small; lia); rewrite Hm).
  all: rewrite ?u32_land, ?u32_lor, ?u32_lxor, ?u32_shiftl, ?u32_shiftr, ?u32_srl by (done || lia); try done; try tauto.
  all: destruct (Z.lt_ge_cases x 0); [|rewrite (zext_nonneg x) by lia; split; [lia|done]].
  - rewrite andi_iff by (done || lia). tauto.
  - rewrite ori_iff by (done || lia). tauto.
  - split; [|tauto]. intros H'. exfalso. revert H'. apply xori_iff; done || lia.
Qed.

(** The state an instruction runs in: [pc] and [npc] moved on, register 0 cleared. *)
Definition advance (s : Cpu) : Cpu :=
  set_Reg 0 0 (mkCpu (cp_Reg s) (cp_HI s) (cp_LO s) (cp_npc s) (i32 (cp_npc s + 4)) (cp_mem s)).

(** C27.  The interpreter against the architecture, for every arithmetic, logical and shift
    instruction that cannot trap: a round of the loop decodes the word as the simulator's
    [Decode] does, and either stores in the destination register the word that the MIPS
    architecture defines or, exactly on the operands of [interp_defect], does not: ANDI,
    ORI and XORI extend a negative immediate with its sign, where the architecture extends
    it with zeros, and SLLV, SRLV and SRAV shift by the whole register, which C leaves
    undefined outside 0 to 31, where the architecture takes its low five bits. *)
Theorem interp_refines_mips (host_call : Z -> Z -> Z -> Z -> gmap Z Z -> Z * gmap Z Z)
    (s : Cpu) (instr : Z) (op : OpCode) (r t d x : Z) :
  fetch s (cp_pc s) = Go instr -> instr <> 0 ->
  Instruction_Decode (u32 instr) = Ok (mkInstr op r t d x) -> is_alu op = true ->
  in_i32 (Reg (advance s) r) -> in_i32 (Reg (advance s) t) ->
  exists res : outcome Z,
    interp_step host_call s = (v ← res; Go (set_Reg (if immediate op then t else d) v (advance s)))
    /\ (computes res (mips_word op (u32 (Reg (advance s) r)) (u32 (Reg (advance s) t)) x)
        <-> ~ interp_defect op (Reg (advance s) r) x).
Proof.
  intros Hfetch Hnz Hdec Halu Ha Hb. rewrite Decode_u32 in Hdec.
  destruct (Decode_fields _ _ _ _ _ _ Hdec Halu) as (-> & -> & -> & Hx).
  exists (interp_value op (Reg (advance s) (rs instr)) (Reg (advance s) (rt instr)) x).
  split; [|by apply interp_value_spec]. unfold interp_step. cbv zeta.
  change (fetch (mkCpu _ _ _ _ _ _) (cp_pc s)) with (fetch s (cp_pc s)). rewrite Hfetch. cbn [mbind outcome_bind].
  rewrite (proj2 (Z.eqb_neq _ _) Hnz). cbn [negb].
  exact (normal_alu host_call instr (cp_pc s) (advance s) op _ _ _ x Hdec Halu).
Qed.

(** [ori $2, $3, 0x8000] with [$3 = 1], at the first word of memory. *)
Definition ori_word : Z := encode_I 13 3 2 0x8000.
Definition demo_cpu : Cpu :=
  mkCpu (<[3%nat := 1]> (replicate 32 0)) 0 0 memoffset (memoffset + 4) (put_bytes memoffset (le_enc 4 ori_word) ∅).
Definition no_host : Z -> Z -> Z -> Z -> gmap Z Z -> Z * gmap Z Z := fun _ _ _ _ mem => (0, mem).

Lemma interp_refines_mips_witness : exists res : outcome Z,
  interp_step no_host demo_cpu = (v ← res; Go (set_Reg 2 v (advance demo_cpu)))
  /\ (computes res (mips_word OP_ORI (u32 (Reg (advance demo_cpu) 3)) (u32 (Reg (advance demo_cpu) 2)) (-0x8000))
      <-> ~ interp_defect OP_ORI (Reg (advance demo_cpu) 3) (-0x8000)).
Proof.
  apply (interp_refines_mips no_host demo_cpu ori_word OP_ORI 3 2 16 (-0x8000)); try (by vm_compute).
  all: unfold in_i32; vm_compute; done.
Defined.

Example ori_defect :
  interp_defect OP_ORI 1 (-0x8000) /\ mips_word OP_ORI 1 0 (-0x8000) = 0x8001 /\ interp_value OP_ORI 1 0 (-0x8000) = Go (-0x7fff).
Proof. repeat split; by vm_compute. Qed.

(** ** Multiplication against the product *)

(** What the columns of the long multiplication carry into the upper word. *)
Definition mult_carry (a b : Z) : Z :=
  ((half_hi a * half_lo b) `mod` 2 ^ 16 + (half_hi b * half_lo a) `mod` 2 ^ 16 + (half_lo a * half_lo b) `div` 2 ^ 16) `div` 2 ^ 16.

(** How many of the two middle products do not fit an [int]. *)
Definition mult_wraps (a b : Z) : Z :=
  flag (2 ^ 31 <=? half_hi a * half_lo b) + flag (2 ^ 31 <=? half_hi b * half_lo a).

(** The halves are those of the unsigned word. *)
Lemma halves a :
  half_hi a = u32 a `div` 2 ^ 16 /\ half_lo a = u32 a `mod` 2 ^ 16 /\ 0 <= half_hi a < 2 ^ 16 /\ 0 <= half_lo a < 2 ^ 16
  /\ u32 a = half_hi a * 2 ^ 16 + half_lo a.
Proof.
  unfold half_hi, half_lo, u32. change 0xffff with (Z.ones 16). rewrite !Z.land_ones, Z.shiftr_div_pow2 by lia.
  change (2 ^ 16) with 65536. change (2 ^ 32) with 4294967296. split_and!; Z.div_mod_to_equations; lia.
Qed.

Lemma columns p q r h : 0 <= p -> 0 <= q -> 0 <= r ->
  (h * 2 ^ 32 + (p + q) * 2 ^ 16 + r) `div` 2 ^ 32
  = h + p `div` 2 ^ 16 + q `div` 2 ^ 16 + (p `mod` 2 ^ 16 + q `mod` 2 ^ 16 + r `div` 2 ^ 16) `div` 2 ^ 16.
Proof.
  intros. change (2 ^ 32) with (2 ^ 16 * 2 ^ 16). rewrite <-Z.div_div by lia.
  replace (h * (2 ^ 16 * 2 ^ 16) + (p + q) * 2 ^ 16 + r) with (r + (h * 2 ^ 16 + p + q) * 2 ^ 16) by ring.
  rewrite Z.div_add by lia. pose proof (Z.div_mod p (2 ^ 16)). pose proof (Z.div_mod q (2 ^ 16)).
  replace (r `div` 2 ^ 16 + (h * 2 ^ 16 + p + q))
    with (p `mod` 2 ^ 16 + q `mod` 2 ^ 16 + r `div` 2 ^ 16 + (h + p `div` 2 ^ 16 + q `div` 2 ^ 16) * 2 ^ 16) by lia.
  rewrite Z.div_add by lia. lia.
Qed.

(** An [int] product of two halves, shifted: what is lost when it does not fit. *)
Lemma shifted_product p : 0 <= p < 2 ^ 32 -> Z.shiftr (i32 p) 16 = p `div` 2 ^ 16 - 2 ^ 16 * flag (2 ^ 31 <=? p).
Proof.
  intros Hp. rewrite Z.shiftr_div_pow2 by lia. unfold i32, flag. change (2 ^ 16) with 65536. change (2 ^ 32) with 4294967296 in *.
  destruct (Z.leb_spec (2 ^ 31) p); Z.div_mod_to_equations; lia.
Qed.

Lemma product_halves a b :
  let h := half_hi a * half_hi b in let p := half_hi a * half_lo b in let q := half_hi b * half_lo a in
  0 <= h <= (2 ^ 16 - 1) * (2 ^ 16 - 1) /\ 0 <= p <= (2 ^ 16 - 1) * (2 ^ 16 - 1) /\ 0 <= q <= (2 ^ 16 - 1) * (2 ^ 16 - 1)
  /\ 0 <= half_lo a * half_lo b <= (2 ^ 16 - 1) * (2 ^ 16 - 1)
  /\ (u32 a * u32 b) `div` 2 ^ 32 = h + p `div` 2 ^ 16 + q `div` 2 ^ 16 + mult_carry a b
  /\ 0 <= mult_carry a b <= 2.
Proof.
  intros h p q. destruct (halves a) as (_ & _ & Hah & Hal & Ea). destruct (halves b) as (_ & _ & Hbh & Hbl & Eb).
  set (r := half_lo a * half_lo b).
  assert (0 <= h <= (2 ^ 16 - 1) * (2 ^ 16 - 1)) by (unfold h; nia). assert (0 <= p <= (2 ^ 16 - 1) * (2 ^ 16 - 1)) by (unfold p; nia).
  assert (0 <= q <= (2 ^ 16 - 1) * (2 ^ 16 - 1)) by (unfold q; nia). assert (0 <= r <= (2 ^ 16 - 1) * (2 ^ 16 - 1)) by (unfold r; nia).
  split_and!; try lia.
  - replace (u32 a * u32 b) with (h * 2 ^ 32 + (p + q) * 2 ^ 16 + r) by (rewrite Ea, Eb; unfold h, p, q, r; ring).
    rewrite columns by lia. reflexivity.
  - unfold mult_carry. fold p q r. change (2 ^ 16) with 65536 in *. Z.div_mod_to_equations. lia.
  - unfold mult_carry. fold p q r. change (2 ^ 16) with 65536 in *. Z.div_mod_to_equations. lia.
Qed.

(** The upper word, in general. *)
Lemma mult_high_lost a b :
  u32 (mult_high a b) = ((u32 a * u32 b) `div` 2 ^ 32 - (mult_carry a b + 2 ^ 16 * mult_wraps a b)) `mod` 2 ^ 32.
Proof.
  destruct (product_halves a b) as (Hh & Hp & Hq & _ & Hd & _). unfold mult_high, mult_wraps in *.
  rewrite !shifted_product by lia. rewrite Hd.
  set (h := half_hi a * half_hi b) in *. set (p := half_hi a * half_lo b) in *. set (q := half_hi b * half_lo a) in *.
  set (c := mult_carry a b). set (fp := flag _). set (fq := flag _). set (dp := p `div` _). set (dq := q `div` _).
  rewrite u32_i32. unfold u32, i32. change (2 ^ 16) with 65536. change (2 ^ 32) with 4294967296. Z.div_mod_to_equations. lia.
Qed.

(** The absolute value as the interpreter computes it, up to that of the smallest [int]. *)
Lemma u32_abs_neg a : in_i32 a -> a < 0 -> u32 (i32 (- a)) = Z.abs a.
Proof. intros Ha Hn. rewrite u32_i32. unfold u32, in_i32 in *. rewrite Z.mod_small; lia. Qed.

(** The pair for two words that stand for [A] and [B], not above 2^31. *)
Lemma mult_magnitude t1 t2 A B :
  u32 t1 = A -> u32 t2 = B -> A <= 2 ^ 31 -> B <= 2 ^ 31 ->
  mult_high t1 t2 * 2 ^ 32 + u32 (i32 (t1 * t2)) = A * B - mult_carry A B * 2 ^ 32
  /\ 0 <= mult_high t1 t2 <= 2 ^ 30 /\ 0 <= mult_carry A B <= 2.
Proof.
  intros H1 H2 HA HB. pose proof (u32_range t1) as R1. pose proof (u32_range t2) as R2. rewrite H1 in R1. rewrite H2 in R2. unfold in_u32 in *.
  assert (Hsame : forall t T, u32 t = T -> 0 <= T < 2 ^ 32 -> half_hi t = half_hi T /\ half_lo t = half_lo T).
  { intros t T Ht HT. destruct (halves t) as (-> & -> & _). destruct (halves T) as (-> & -> & _). by rewrite (u32_id T), Ht. }
  destruct (Hsame t1 A H1 ltac:(lia)) as [Eh1 El1]. destruct (Hsame t2 B H2 ltac:(lia)) as [Eh2 El2].
  destruct (product_halves A B) as (Hh & Hp & Hq & _ & Hd & Hc). rewrite (u32_id A), (u32_id B) in Hd by (unfold in_u32; lia).
  assert (Hhi : forall T, 0 <= T <= 2 ^ 31 -> half_hi T <= 2 ^ 15).
  { intros T HT. destruct (halves T) as (-> & _). rewrite u32_id by (unfold in_u32; lia). apply Z.div_le_upper_bound; lia. }
  pose proof (Hhi A ltac:(lia)) as HhA. pose proof (Hhi B ltac:(lia)) as HhB.
  destruct (halves A) as (_ & _ & HAh & HAl & _). destruct (halves B) as (_ & _ & HBh & HBl & _).
  assert (E : mult_high t1 t2 = half_hi A * half_hi B + (half_hi A * half_lo B) `div` 2 ^ 16 + (half_hi B * half_lo A) `div` 2 ^ 16).
  { unfold mult_high. rewrite Eh1, El1, Eh2, El2, !shifted_product by lia.
    assert (P1 : half_hi A * half_lo B < 2 ^ 31) by nia. assert (P2 : half_hi B * half_lo A < 2 ^ 31) by nia. assert (P3 : half_hi A * half_hi B <= 2 ^ 30) by nia.
    rewrite (proj2 (Z.leb_gt (2 ^ 31) (half_hi A * half_lo B)) P1), (proj2 (Z.leb_gt (2 ^ 31) (half_hi B * half_lo A)) P2). cbn [flag].
    rewrite (i32_id (half_hi A * half_hi B)) by (unfold in_i32; lia). rewrite !Z.mul_0_r, !Z.sub_0_r. apply i32_id. unfold in_i32.
    change (2 ^ 16) with 65536 in *. Z.div_mod_to_equations. lia. }
  assert (El : u32 (i32 (t1 * t2)) = (A * B) `mod` 2 ^ 32) by (rewrite u32_i32; unfold u32 in *; rewrite <-H1, <-H2; apply Zmult_mod).
  pose proof (Z.div_mod (A * B) (2 ^ 32) ltac:(lia)) as Hdm. rewrite Hd in Hdm. split; [rewrite E, El; lia|]. split; [|done].
  rewrite E. split.
  - change (2 ^ 16) with 65536. Z.div_mod_to_equations. lia.
  - assert ((A * B) `div` 2 ^ 32 <= 2 ^ 30) by (apply Z.div_le_upper_bound; [lia|]; nia). lia.
Qed.

(** Complement and increment of a pair is its negation. *)
Lemma negated_pair hi lo : 0 <= hi < 2 ^ 31 ->
  let lo' := i32 (Z.lnot (i32 lo) + 1) in let hi' := if lo' =? 0 then i32 (Z.lnot hi + 1) else Z.lnot hi in
  in_i32 hi' /\ hi' * 2 ^ 32 + u32 lo' = - (hi * 2 ^ 32 + u32 (i32 lo)).
Proof.
  intros Hh lo' hi'. unfold hi', lo'. unfold Z.lnot. rewrite !u32_i32.
  replace (Z.pred (- i32 lo) + 1) with (- i32 lo) by lia. replace (Z.pred (- hi) + 1) with (- hi) by lia.
  unfold in_i32, u32, i32. change (2 ^ 32) with 4294967296. change (2 ^ 31) with 2147483648 in *.
  destruct (Z.eqb_spec ((- ((lo + 2147483648) mod 4294967296 - 2147483648) + 2147483648) mod 4294967296 - 2147483648) 0);
    Z.div_mod_to_equations; lia.
Qed.

(** C30.  The multiplications of the interpreter, for all operands.  I_MULT: the pair HI, LO as a
    64-bit number differs from the product only by what the columns of the long
    multiplication of the absolute values carry into the upper word (0, 1 or 2), which is
    taken off a positive product and added to a negative one.  I_MULTU: LO is the low
    word of the product, and HI is short of the high word by that carry and by 2^16 for each of
    the two middle products that does not fit an [int] (modulo 2^32); the pair is
    the product exactly when there are none. *)
Theorem interp_mult_carry (a b : Z) : in_i32 a -> in_i32 b ->
  (exists hi lo, interp_mult a b = (hi, lo) /\ in_i32 hi
     /\ hi * 2 ^ 32 + u32 lo = a * b - (if xorb (a <? 0) (b <? 0) then -1 else 1) * mult_carry (Z.abs a) (Z.abs b) * 2 ^ 32
     /\ 0 <= mult_carry (Z.abs a) (Z.abs b) <= 2)
  /\ (exists hi lo, interp_multu a b = (hi, lo) /\ u32 lo = (u32 a * u32 b) `mod` 2 ^ 32
     /\ u32 hi = ((u32 a * u32 b) `div` 2 ^ 32 - (mult_carry a b + 2 ^ 16 * mult_wraps a b)) `mod` 2 ^ 32
     /\ (u32 hi * 2 ^ 32 + u32 lo = u32 a * u32 b <-> mult_carry a b = 0 /\ mult_wraps a b = 0)).
Proof.
  intros Ha Hb. split.
  - assert (Habs : forall x, in_i32 x -> 0 <= Z.abs x <= 2 ^ 31) by (unfold in_i32; lia).
    assert (Ht : forall x, in_i32 x -> u32 (if x <? 0 then i32 (- x) else x) = Z.abs x).
    { intros x Hx. destruct (Z.ltb_spec x 0); [by apply u32_abs_neg|]. rewrite u32_id; unfold in_u32, in_i32 in *; lia. }
    destruct (mult_magnitude _ _ _ _ (Ht a Ha) (Ht b Hb)) as (Em & Hm & Hc); [by apply Habs..|].
    set (c := mult_carry (Z.abs a) (Z.abs b)) in *.
    unfold interp_mult. destruct (Z.ltb_spec a 0) as [Na|Na], (Z.ltb_spec b 0) as [Nb|Nb]; cbn [xorb negb].
    all: match type of Em with mult_high ?t1 ?t2 * _ + _ = _ => destruct (negated_pair (mult_high t1 t2) (t1 * t2)) as [Hn En]; [lia|] end.
    all: do 2 eexists; (split; [reflexivity|]); (split; [first [exact Hn|unfold in_i32; lia]|]); (split; [|done]).
    all: first [rewrite En, Em|rewrite Em]; rewrite ?(Z.abs_neq a), ?(Z.abs_neq b), ?(Z.abs_eq a), ?(Z.abs_eq b) by lia; ring.
  - exists (mult_high a b), (i32 (a * b)). split; [done|].
    assert (El : u32 (i32 (a * b)) = (u32 a * u32 b) `mod` 2 ^ 32) by (rewrite u32_i32; unfold u32; apply Zmult_mod).
    split; [done|]. pose proof (mult_high_lost a b) as Eh. split; [done|].
    destruct (product_halves a b) as (Hh & Hp & Hq & _ & Hd & Hc). assert (Hw : 0 <= mult_wraps a b <= 2).
    { unfold mult_wraps, flag. destruct (_ <=? _), (_ <=? _); lia. }
    pose proof (Z.div_mod (u32 a * u32 b) (2 ^ 32) ltac:(lia)) as Hdm. rewrite El, Eh.
    pose proof (u32_range a) as Ra. pose proof (u32_range b) as Rb. unfold in_u32 in Ra, Rb.
    assert (0 <= (u32 a * u32 b) `div` 2 ^ 32 < 2 ^ 32) by (split; [apply Z.div_pos; nia|apply Z.div_lt_upper_bound; nia]).
    set (hw := (u32 a * u32 b) `div` 2 ^ 32) in *. set (w := mult_wraps a b) in *. set (c := mult_carry a b) in *.
    clearbody hw w c. change (2 ^ 16) with 65536. change (2 ^ 32) with 4294967296 in *. Z.div_mod_to_equations. lia.
Qed.

(** Operands of both signs, and with the top bit set. *)
Lemma interp_mult_carry_witness :
  (exists hi lo, interp_mult 0x1ffff (-0x1ffff) = (hi, lo) /\ in_i32 hi
     /\ hi * 2 ^ 32 + u32 lo = 0x1ffff * (-0x1ffff) - (-1) * mult_carry (Z.abs 0x1ffff) (Z.abs (-0x1ffff)) * 2 ^ 32
     /\ 0 <= mult_carry (Z.abs 0x1ffff) (Z.abs (-0x1ffff)) <= 2)
  /\ exists hi lo, interp_multu (-1) (-1) = (hi, lo) /\ u32 lo = (u32 (-1) * u32 (-1)) `mod` 2 ^ 32
     /\ u32 hi = ((u32 (-1) * u32 (-1)) `div` 2 ^ 32 - (mult_carry (-1) (-1) + 2 ^ 16 * mult_wraps (-1) (-1))) `mod` 2 ^ 32
     /\ (u32 hi * 2 ^ 32 + u32 lo = u32 (-1) * u32 (-1) <-> mult_carry (-1) (-1) = 0 /\ mult_wraps (-1) (-1) = 0).
Proof.
  split.
  - apply (interp_mult_carry 0x1ffff (-0x1ffff)); unfold in_i32; lia.
  - apply (interp_mult_carry (-1) (-1)); unfold in_i32; lia.
Defined.

Example multu_wraps : u32 (interp_multu (-1) (-1)).1 = 0xfffdfffd /\ (u32 (-1) * u32 (-1)) `div` 2 ^ 32 = 0xfffffffe.
Proof. by vm_compute. Qed.

Example mult_short : interp_mult 0x1ffff 0x1ffff = (1, i32 (0x1ffff * 0x1ffff)) /\ (0x1ffff * 0x1ffff) `div` 2 ^ 32 = 3.
Proof. by vm_compute. Qed.

(** ** [ilog2] counts bits *)

(** What [i] and [l] are once the highest bit [h] is known up to its block of [s] bits. *)
Definition ilog2_known (h s : Z) (st : Z * Z) : Prop :=
  in_i32 st.1 /\ Z.testbit (u32 st.1) h = true /\ st.2 = 1 + s * (h `div` s)
  /\ forall n, 0 <= n -> Z.testbit (u32 st.1) n = true -> n <= h /\ n `div` s = h `div` s.

Definition mask_of (m t : Z) : Prop := forall n, 0 <= n < 32 -> Z.testbit m n = Z.odd (n `div` t).

Lemma masks : mask_of 0xffff0000 16 /\ mask_of 0xff00ff00 8 /\ mask_of 0xf0f0f0f0 4 /\ mask_of 0xcccccccc 2 /\ mask_of 0xaaaaaaaa 1.
Proof.
  assert (H : forall m t, forallb (fun n => eqb (Z.testbit m n) (Z.odd (n `div` t))) (seqZ 0 32) = true -> mask_of m t).
  { intros m t H n Hn. apply eqb_prop. by apply (Z_forallb 32 _ H). }
  split_and!; by apply H.
Qed.

Lemma half_block n t : 0 < t -> n `div` t = 2 * (n `div` (2 * t)) + Z.b2z (Z.odd (n `div` t)).
Proof. intros. rewrite (Z.mul_comm 2 t), <-Z.div_div by lia. rewrite <-Z.div2_div. apply Z.div2_odd. Qed.

Lemma ilog2_test_ok h s t m st : 0 <= h < 32 -> 0 < t <= 16 -> s = 2 * t -> mask_of m t ->
  ilog2_known h s st -> ilog2_known h t (ilog2_test m t st).
Proof.
  destruct st as [i l]. intros Hh Ht -> Hm (Hi & Hbit & Hl & Hall). cbn in *. unfold ilog2_test.
  set (j := i32 (Z.land (u32 i) m)).
  assert (Hj : forall n, 0 <= n -> Z.testbit (u32 j) n = Z.testbit (u32 i) n && Z.odd (n `div` t)).
  { intros n Hn. unfold j. rewrite u32_i32, u32_bits, Z.land_spec, u32_bits by done.
    destruct (Z.ltb_spec n 32); [|done]. by rewrite Hm by lia. }
  pose proof (half_block h t ltac:(lia)) as Hh2.
  assert (Hsame : forall n, 0 <= n -> Z.testbit (u32 i) n = true -> n <= h /\ n `div` t <= h `div` t
                     /\ n `div` t = 2 * (h `div` (2 * t)) + Z.b2z (Z.odd (n `div` t))).
  { intros n Hn Hset. destruct (Hall n Hn Hset) as [Hle <-]. split; [done|]. split; [apply Z.div_le_mono; lia|]. apply half_block; lia. }
  destruct (Z.odd (h `div` t)) eqn:Hodd; cbn [Z.b2z] in Hh2.
  - assert (Hjh : Z.testbit (u32 j) h = true) by by rewrite Hj, Hbit, Hodd by lia.
    assert (Hj0 : j <> 0) by (intros E; by rewrite E, Z.bits_0 in Hjh).
    rewrite (proj2 (Z.eqb_neq _ _) Hj0). split_and!; cbn; [apply i32_in|done| |].
    + assert (h `div` t * t <= h) by (rewrite Z.mul_comm; apply Z.mul_div_le; lia).
      assert (0 <= h `div` (2 * t)) by (apply Z.div_pos; lia). rewrite i32_id; [nia|unfold in_i32; nia].
    + intros n Hn. rewrite Hj by done. intros [Hset Ho]%andb_prop. destruct (Hsame n Hn Hset) as (? & ? & E). rewrite Ho in E. cbn in E. lia.
  - assert (Hz : forall n, 0 <= n -> Z.testbit (u32 i) n = true -> Z.odd (n `div` t) = false).
    { intros n Hn Hset. destruct (Hsame n Hn Hset) as (_ & ? & E). destruct (Z.odd (n `div` t)); [cbn in E; lia|done]. }
    assert (Hj0 : j = 0).
    { apply u32_inj; [apply i32_in|unfold in_i32; lia|]. apply Z.bits_inj'. intros n Hn. rewrite Hj, Z.bits_0 by done.
      destruct (Z.testbit (u32 i) n) eqn:E; [|done]. by rewrite (Hz n). }
    rewrite Hj0, Z.eqb_refl. cbn [negb]. split_and!; cbn [fst snd]; [done|done|rewrite Hh2, Hl; ring|].
    intros n Hn Hset. destruct (Hsame n Hn Hset) as (? & _ & E). rewrite (Hz n) in E by done. cbn in E. lia.
Qed.

(** [ilog2] is the number of binary digits of its argument, read as unsigned. *)
Theorem ilog2_bits (i : Z) : in_i32 i -> ilog2 i = (if i =? 0 then 0 else Z.log2 (u32 i) + 1).
Proof.
  intros Hi. unfold ilog2. destruct (Z.eqb_spec i 0) as [->|Hi0]; [done|].
  pose proof (u32_range i) as Hu. unfold in_u32 in Hu. assert (0 < u32 i).
  { destruct (decide (u32 i = 0)) as [E|]; [|lia]. by apply (u32_inj i 0) in E. }
  set (h := Z.log2 (u32 i)).
  assert (Hh : 0 <= h < 32) by (split; [apply Z.log2_nonneg|apply Z.log2_lt_pow2; lia]).
  destruct masks as (M16 & M8 & M4 & M2 & M1).
  assert (Hk : ilog2_known h 32 (i, 1)).
  { split_and!; cbn; [done|by apply Z.bit_log2|rewrite Z.div_small; lia|].
    intros n Hn Hset. assert (n <= h).
    { destruct (Z.lt_ge_cases h n); [|lia]. by rewrite Z.bits_above_log2 in Hset by lia. }
    split; [done|]. by rewrite !Z.div_small by lia. }
  apply (ilog2_test_ok h 32 16 _ _ Hh ltac:(lia) eq_refl M16) in Hk.
  apply (ilog2_test_ok h 16 8 _ _ Hh ltac:(lia) eq_refl M8) in Hk.
  apply (ilog2_test_ok h 8 4 _ _ Hh ltac:(lia) eq_refl M4) in Hk.
  apply (ilog2_test_ok h 4 2 _ _ Hh ltac:(lia) eq_refl M2) in Hk.
  apply (ilog2_test_ok h 2 1 _ _ Hh ltac:(lia) eq_refl M1) in Hk.
  destruct Hk as (_ & _ & -> & _). rewrite Z.div_1_r. lia.
Qed.

Lemma ilog2_bits_witness : ilog2 6 = (if 6 =? 0 then 0 else Z.log2 (u32 6) + 1).
Proof. apply (ilog2_bits 6). unfold in_i32. lia. Defined.
