(* ===== verification/Disasm.v ===== *)
(** * bin/d.c, bin/opstrings.c, bin/disasm.c: the disassembler

    [dump_ascii] prints an instruction word.  The text is a [string], with the
    conversions of [Text.v].  The theorem says that the text is enough to know what the
    interpreter of [Interp.v] does with the word, and for which instructions it is not. *)

From Stdlib Require Import Ascii.
From S2P Require Import Prelude Text BitMap Interrupt Machine Mips MachineSafe Alu Interp.

Local Open Scope string_scope.
Local Open Scope Z_scope.

(** ** opstrings.c *)

Definition normalops : list string := [
  "special"; "bcond"; "j"; "jal"; "beq"; "bne"; "blez"; "bgtz"; "addi"; "addiu"; "slti"; "sltiu";
  "andi"; "ori"; "xori"; "lui"; "cop0"; "cop1"; "cop2"; "cop3"; "024"; "025"; "026"; "027"; "030";
  "031"; "032"; "033"; "034"; "035"; "036"; "037"; "lb"; "lh"; "lwl"; "lw"; "lbu"; "lhu"; "lwr";
  "047"; "sb"; "sh"; "swl"; "sw"; "054"; "055"; "swr"; "057"; "lwc0"; "lwc1"; "lwc2"; "lwc3"; "064";
  "065"; "066"; "067"; "swc0"; "swc1"; "swc2"; "swc3"; "074"; "075"; "076"; "077"].

Definition specialops : list string := [
  "sll"; "001"; "srl"; "sra"; "sllv"; "005"; "srlv"; "srav"; "jr"; "jalr"; "012"; "013"; "syscall";
  "break"; "016"; "017"; "mfhi"; "mthi"; "mflo"; "mtlo"; "024"; "025"; "026"; "027"; "mult";
  "multu"; "div"; "divu"; "034"; "035"; "036"; "037"; "add"; "addu"; "sub"; "subu"; "and"; "or";
  "xor"; "nor"; "050"; "051"; "slt"; "sltu"; "054"; "055"; "056"; "057"; "060"; "061"; "062"; "063";
  "064"; "065"; "066"; "067"; "070"; "071"; "072"; "073"; "074"; "075"; "076"; "077"].

(** ** d.c *)

Definition I_NOP : Z := 0.

Definition regstrings : list string := [
  "0"; "r1"; "r2"; "r3"; "r4"; "r5"; "r6"; "r7"; "r8"; "r9"; "r10"; "r11"; "r12"; "r13"; "r14";
  "r15"; "r16"; "r17"; "r18"; "r19"; "r20"; "r21"; "r22"; "r23"; "r24"; "r25"; "r26"; "r27"; "gp";
  "sp"; "r30"; "r31"].

Definition R (i : Z) : string := nth (Z.to_nat i) regstrings "".

Definition off26 (i : Z) : Z := i32 (Z.shiftl (Z.land i (Z.ones 26)) 2).
Definition top4 (i : Z) : Z := Z.land i (Z.lnot (Z.ones 28)).
Definition off16 (i : Z) : Z := i32 (Z.shiftl (immed i) 2).

(** *** The operands *)

Definition special_operands (instruction opcode : Z) : string :=
  let rd_rt_shamt := R (rd instruction) +:+ "," +:+ R (rt instruction) +:+ ",0x" +:+ hex (shamt instruction) in
  let rd_rt_rs := R (rd instruction) +:+ "," +:+ R (rt instruction) +:+ "," +:+ R (rs instruction) in
  let just_rs := R (rs instruction) in
  let just_rd := R (rd instruction) in
  let rs_rt := R (rs instruction) +:+ "," +:+ R (rt instruction) in
  let rd_rs_rt := R (rd instruction) +:+ "," +:+ R (rs instruction) +:+ "," +:+ R (rt instruction) in
  switch opcode
    [(I_SLL, rd_rt_shamt); (I_SRL, rd_rt_shamt); (I_SRA, rd_rt_shamt);
     (I_SLLV, rd_rt_rs); (I_SRLV, rd_rt_rs); (I_SRAV, rd_rt_rs);
     (I_JR, just_rs); (I_JALR, just_rs); (I_MFLO, just_rs); (I_MTLO, just_rs);
     (I_SYSCALL, ""); (I_BREAK, "");
     (I_MFHI, just_rd); (I_MTHI, just_rd);
     (I_MULT, rs_rt); (I_MULTU, rs_rt); (I_DIV, rs_rt); (I_DIVU, rs_rt);
     (I_ADD, rd_rs_rt); (I_ADDU, rd_rs_rt); (I_SUB, rd_rs_rt); (I_SUBU, rd_rs_rt);
     (I_AND, rd_rs_rt); (I_OR, rd_rs_rt); (I_XOR, rd_rs_rt); (I_NOR, rd_rs_rt);
     (I_SLT, rd_rs_rt); (I_SLTU, rd_rs_rt)]
    "".

Definition bcond_name (op : Z) : string :=
  switch op [(I_BLTZ, "bltz"); (I_BGEZ, "bgez"); (I_BLTZAL, "bltzal"); (I_BGEZAL, "bgezal")] "BCOND".

(** [off16(instruction)+pc+4] *)
Definition branch_address (instruction pc : Z) : string := pad8 (i32 (off16 instruction + pc + 4)).

Definition normal_operands (instruction pc opcode : Z) : string :=
  let target := pad8 (Z.lor (top4 pc) (off26 instruction)) in
  let rt_rs_offset := R (rt instruction) +:+ "," +:+ R (rs instruction) +:+ "," +:+ branch_address instruction pc in
  let rt_rs_immed := R (rt instruction) +:+ "," +:+ R (rs instruction) +:+ ",0x" +:+ hex (immed instruction) in
  let rt_immed := R (rt instruction) +:+ ",0x" +:+ hex (immed instruction) in
  let rt_offset_rs := R (rt instruction) +:+ ",0x" +:+ hex (immed instruction) +:+ "(" +:+ R (rs instruction) +:+ ")" in
  switch opcode
    [(I_J, target); (I_JAL, target);
     (I_BEQ, rt_rs_offset); (I_BNE, rt_rs_offset);
     (I_ADDI, rt_rs_immed); (I_ADDIU, rt_rs_immed); (I_SLTI, rt_rs_immed); (I_SLTIU, rt_rs_immed);
     (I_ANDI, rt_rs_immed); (I_ORI, rt_rs_immed); (I_XORI, rt_rs_immed);
     (I_LUI, rt_immed);
     (I_COP0, ""); (I_COP1, ""); (I_COP2, ""); (I_COP3, "");
     (I_LB, rt_offset_rs); (I_LH, rt_offset_rs); (I_LWL, rt_offset_rs); (I_LW, rt_offset_rs);
     (I_LBU, rt_offset_rs); (I_LHU, rt_offset_rs); (I_LWR, rt_offset_rs);
     (I_SB, rt_offset_rs); (I_SH, rt_offset_rs); (I_SWL, rt_offset_rs); (I_SW, rt_offset_rs); (I_SWR, rt_offset_rs);
     (I_LWC0, rt_offset_rs); (I_LWC1, rt_offset_rs); (I_LWC2, rt_offset_rs); (I_LWC3, rt_offset_rs);
     (I_SWC0, rt_offset_rs); (I_SWC1, rt_offset_rs); (I_SWC2, rt_offset_rs); (I_SWC3, rt_offset_rs)]
    "".

Definition dump_ascii (longdis : bool) (instruction pc : Z) : string :=
  let opcode := Z.shiftr (u32 instruction) 26 in
  (if longdis then pad8 pc +:+ ": " +:+ pad8 instruction +:+ "  " else "") +:+ tab +:+
  (if instruction =? I_NOP then "nop"
   else if opcode =? I_SPECIAL then
     let opcode := Z.land instruction 0x3f in
     nth (Z.to_nat opcode) specialops "" +:+ tab +:+ special_operands instruction opcode
   else if opcode =? I_BCOND then
     bcond_name (rt instruction) +:+ tab +:+ R (rs instruction) +:+ "," +:+ branch_address instruction pc
   else nth (Z.to_nat opcode) normalops "" +:+ tab +:+ normal_operands instruction pc opcode).

(** ** disasm.c *)

(** [dis1]: the word at [pc]. *)
Definition dis1 (s : Cpu) (pc : Z) : outcome string :=
  instr ← fetch s pc; Go (dump_ascii true instr pc +:+ newline).

(** The loop of [disasm] over a text section of [size] bytes that is loaded at [memoffset];
    [n] rounds are left. *)
Fixpoint disasm_loop (n : nat) (s : Cpu) (size i pc : Z) : outcome string :=
  match n with
  | O => Undefined
  | S n =>
      if i <? size then
        line ← dis1 s pc; rest ← disasm_loop n s size (i + 4) (pc + 4); Go (line +:+ rest)
      else Go ""
  end.

Definition disasm (n : nat) (s : Cpu) (size : Z) : outcome string := disasm_loop n s size 0 memoffset.

(** ** Registers and numbers are read back *)

Lemma field5_range a k : 0 <= Z.land (Z.shiftr a k) 0x1f < 32.
Proof. exact (land_range (Z.shiftr a k) 5 ltac:(lia)). Qed.

Lemma R_inj a b : 0 <= a < 32 -> 0 <= b < 32 -> R a = R b -> a = b.
Proof.
  assert (H : forallb (fun a => forallb (fun b => implb (R a =? R b)%string (a =? b)) (seqZ 0 32)) (seqZ 0 32) = true) by by vm_compute.
  intros Ha Hb E. apply (Z_forallb 32) with (k := a) in H; [|done]. apply (Z_forallb 32) with (k := b) in H; [|done].
  rewrite E, String.eqb_refl in H. by apply Z.eqb_eq.
Qed.

Lemma free_R c a : separator c = true -> free c (R a) = true.
Proof.
  intros Hc. assert (H : Forall (fun s => free c s = true) regstrings).
  { apply separator_cases in Hc as [Hc|[Hc|[Hc|Hc]]]; subst c; by repeat constructor. }
  unfold R. destruct (nth_in_or_default (Z.to_nat a) regstrings "") as [Hin| ->]; [|done].
  by apply (proj1 (List.Forall_forall _ _) H).
Qed.

Lemma rs_range a : 0 <= rs a < 32.
Proof. apply field5_range. Qed.
Lemma rt_range a : 0 <= rt a < 32.
Proof. apply field5_range. Qed.
Lemma rd_range a : 0 <= rd a < 32.
Proof. apply field5_range. Qed.

Create HintDb text.
#[local] Hint Resolve free_R free_hex free_pad8 rs_range rt_range rd_range R_inj : text.

(** Reading the operands back. *)
Ltac cut_at c H := apply (cut_inj c) in H as [? H]; [|solve [eauto with text]..].

Lemma immed_range a : - 2 ^ 15 <= immed a < 2 ^ 15.
Proof. rewrite immed_eq. pose proof (Z.mod_pos_bound a (2 ^ 16)). unfold sext16. case_match; lia. Qed.

Lemma read_immed a b : hex (immed a) = hex (immed b) -> immed a = immed b.
Proof. intros E. pose proof (immed_range a). pose proof (immed_range b). apply u32_inj; [unfold in_i32; lia..|]. by apply hex_inj. Qed.

Lemma read_rt_rs_immed a b :
  R (rt a) +:+ "," +:+ R (rs a) +:+ ",0x" +:+ hex (immed a) = R (rt b) +:+ "," +:+ R (rs b) +:+ ",0x" +:+ hex (immed b) ->
  rt a = rt b /\ rs a = rs b /\ immed a = immed b.
Proof.
  intros E. cut_at ","%char E. cut_at ","%char E. injection E as E.
  auto using read_immed with text.
Qed.

Lemma read_rt_immed a b :
  R (rt a) +:+ ",0x" +:+ hex (immed a) = R (rt b) +:+ ",0x" +:+ hex (immed b) -> rt a = rt b /\ immed a = immed b.
Proof. intros E. cut_at ","%char E. injection E as E. auto using read_immed with text. Qed.

Lemma read_rt_offset_rs a b :
  R (rt a) +:+ ",0x" +:+ hex (immed a) +:+ "(" +:+ R (rs a) +:+ ")" = R (rt b) +:+ ",0x" +:+ hex (immed b) +:+ "(" +:+ R (rs b) +:+ ")" ->
  rt a = rt b /\ rs a = rs b /\ immed a = immed b.
Proof.
  intros E. cut_at ","%char E. injection E as E. cut_at "("%char E. cut_at ")"%char E. auto using read_immed with text.
Qed.

Lemma read_branch a b pc : branch_address a pc = branch_address b pc -> branch_target a pc = branch_target b pc.
Proof.
  assert (H : forall i, branch_target i pc = i32 (off16 i + pc + 4)) by (intros; unfold branch_target, off16; f_equal; ring).
  rewrite !H. intros E. apply u32_inj; [apply i32_in..|]. by apply pad8_inj.
Qed.

Lemma read_jump a b pc : pad8 (Z.lor (top4 pc) (off26 a)) = pad8 (Z.lor (top4 pc) (off26 b)) -> jump_target a pc = jump_target b pc.
Proof.
  assert (H : forall i, u32 (jump_target i pc) = u32 (Z.lor (top4 pc) (off26 i))).
  { intros i. unfold jump_target, top4, off26. rewrite u32_i32, !u32_lor, !u32_land, u32_i32. by rewrite (u32_id (u32 pc)) by apply u32_range. }
  intros E. apply u32_inj; [apply i32_in..|]. rewrite !H. by apply pad8_inj.
Qed.

Lemma read_rt_rs_offset a b pc :
  R (rt a) +:+ "," +:+ R (rs a) +:+ "," +:+ branch_address a pc = R (rt b) +:+ "," +:+ R (rs b) +:+ "," +:+ branch_address b pc ->
  rt a = rt b /\ rs a = rs b /\ branch_target a pc = branch_target b pc.
Proof. intros E. cut_at ","%char E. cut_at ","%char E. apply read_branch in E. auto with text. Qed.

Lemma read_rs_offset a b pc :
  R (rs a) +:+ "," +:+ branch_address a pc = R (rs b) +:+ "," +:+ branch_address b pc ->
  rs a = rs b /\ branch_target a pc = branch_target b pc.
Proof. intros E. cut_at ","%char E. apply read_branch in E. auto with text. Qed.

Lemma read_rd_rt_shamt a b :
  R (rd a) +:+ "," +:+ R (rt a) +:+ ",0x" +:+ hex (shamt a) = R (rd b) +:+ "," +:+ R (rt b) +:+ ",0x" +:+ hex (shamt b) ->
  rd a = rd b /\ rt a = rt b /\ shamt a = shamt b.
Proof.
  intros E. cut_at ","%char E. cut_at ","%char E. injection E as E. split_and!; auto with text.
  pose proof (field5_range a 6). pose proof (field5_range b 6). fold (shamt a) (shamt b) in *.
  apply u32_inj; [unfold in_i32; lia..|]. by apply hex_inj.
Qed.

Lemma read_two x1 x2 y1 y2 : 0 <= x1 < 32 -> 0 <= x2 < 32 -> 0 <= y1 < 32 -> 0 <= y2 < 32 ->
  R x1 +:+ "," +:+ R y1 = R x2 +:+ "," +:+ R y2 -> x1 = x2 /\ y1 = y2.
Proof. intros ? ? ? ? E. cut_at ","%char E. apply R_inj in E; auto with text. Qed.

Lemma read_three x1 x2 y1 y2 z1 z2 :
  0 <= x1 < 32 -> 0 <= x2 < 32 -> 0 <= y1 < 32 -> 0 <= y2 < 32 -> 0 <= z1 < 32 -> 0 <= z2 < 32 ->
  R x1 +:+ "," +:+ R y1 +:+ "," +:+ R z1 = R x2 +:+ "," +:+ R y2 +:+ "," +:+ R z2 -> x1 = x2 /\ y1 = y2 /\ z1 = z2.
Proof. intros ? ? ? ? ? ? E. cut_at ","%char E. apply read_two in E as [-> ->]; auto with text. Qed.

(** ** The name of an instruction *)

Definition opcode_of (a : Z) : Z := Z.land (Z.shiftr a 26) 0x3f.
Definition funct_of (a : Z) : Z := Z.land a 0x3f.

(** Opcodes below 64, functions of [I_SPECIAL] from 64, conditions of [I_BCOND] from 128. *)
Definition key (a : Z) : Z :=
  if opcode_of a =? I_SPECIAL then 64 + funct_of a else if opcode_of a =? I_BCOND then 128 + rt a else opcode_of a.

Definition name_of (k : Z) : string :=
  if k <? 64 then nth (Z.to_nat k) normalops ""
  else if k <? 128 then nth (Z.to_nat (k - 64)) specialops "" else bcond_name (k - 128).

Definition operands (a pc : Z) : string :=
  if opcode_of a =? I_SPECIAL then special_operands a (funct_of a)
  else if opcode_of a =? I_BCOND then R (rs a) +:+ "," +:+ branch_address a pc
  else normal_operands a pc (opcode_of a).

(** Keys without an instruction: their names are octal numbers, or [BCOND]. *)
Definition reserved (k : Z) : bool :=
  existsb (Z.eqb k) ([20; 21; 22; 23; 24; 25; 26; 27; 28; 29; 30; 31; 39; 44; 45; 47; 52; 53; 54; 55; 60; 61; 62; 63]
    ++ [65; 69; 74; 75; 78; 79; 84; 85; 86; 87; 92; 93; 94; 95; 104; 105] ++ seqZ 108 20 ++ seqZ 130 14 ++ seqZ 146 14).

Lemma opcode_of_range a : 0 <= opcode_of a < 64.
Proof. exact (land_range (Z.shiftr a 26) 6 ltac:(lia)). Qed.

Lemma funct_of_range a : 0 <= funct_of a < 64.
Proof. exact (land_range a 6 ltac:(lia)). Qed.

Lemma key_range a : 0 <= key a < 160.
Proof.
  unfold key. pose proof (opcode_of_range a). pose proof (funct_of_range a). pose proof (rt_range a).
  destruct (_ =? _); [lia|]. destruct (_ =? _); lia.
Qed.

Lemma opcode_u32 a : Z.shiftr (u32 a) 26 = opcode_of a.
Proof.
  unfold opcode_of. change 0x3f with (Z.ones 6). rewrite <-(field_u32 a 26 6) by lia. rewrite Z.land_ones by lia.
  symmetry. apply Z.mod_small. pose proof (u32_range a) as H. unfold in_u32 in H. rewrite Z.shiftr_div_pow2 by lia.
  change (2 ^ 26) with 67108864. change (2 ^ 6) with 64. Z.div_mod_to_equations. lia.
Qed.

Lemma dump_short a pc : a <> 0 -> dump_ascii false a pc = tab +:+ (name_of (key a) +:+ (tab +:+ operands a pc)).
Proof.
  intros Ha. unfold dump_ascii. rewrite opcode_u32. change I_NOP with 0. rewrite (proj2 (Z.eqb_neq _ _) Ha).
  pose proof (opcode_of_range a) as Ho. pose proof (funct_of_range a) as Hf. pose proof (rt_range a) as Hr.
  unfold key, operands, name_of. destruct (opcode_of a =? I_SPECIAL); [|destruct (opcode_of a =? I_BCOND)].
  - destruct (Z.ltb_spec (64 + funct_of a) 64); [lia|]. destruct (Z.ltb_spec (64 + funct_of a) 128); [|lia].
    by rewrite Z.add_simpl_l.
  - destruct (Z.ltb_spec (128 + rt a) 64); [lia|]. destruct (Z.ltb_spec (128 + rt a) 128); [lia|]. by rewrite Z.add_simpl_l.
  - by destruct (Z.ltb_spec (opcode_of a) 64); [|lia].
Qed.

(** No two instructions have the same name, and no name contains a tabulator. *)
Lemma names_distinct k1 k2 : 0 <= k1 < 160 -> 0 <= k2 < 160 -> name_of k1 = name_of k2 ->
  (k1 = k2 /\ reserved k1 = false) \/ (reserved k1 = true /\ reserved k2 = true).
Proof.
  assert (H : forallb (fun k1 => forallb (fun k2 => implb (name_of k1 =? name_of k2)%string
    ((k1 =? k2) && negb (reserved k1) || (reserved k1 && reserved k2))) (seqZ 0 160)) (seqZ 0 160) = true) by by vm_compute.
  intros H1 H2 E. apply (Z_forallb 160) with (k := k1) in H; [|done]. apply (Z_forallb 160) with (k := k2) in H; [|done].
  rewrite E, String.eqb_refl in H. cbn [implb] in H. apply orb_prop in H as [[->%Z.eqb_eq ->%negb_true_iff]%andb_prop|H%andb_prop]; auto.
Qed.

Lemma names_free k : 0 <= k < 160 -> free (ascii_of_nat 9) (name_of k) = true.
Proof. apply (Z_forallb 160 (fun k => free (ascii_of_nat 9) (name_of k))). by vm_compute. Qed.

(** ** What a text says about the instruction *)

(** Choose the case of a [switch] with a known number. *)
Ltac pick :=
  lazy beta iota zeta delta [switch Z.eqb Pos.eqb
       I_SPECIAL I_BCOND I_J I_JAL I_BEQ I_BNE I_BLEZ I_BGTZ I_ADDI I_ADDIU I_SLTI I_SLTIU I_ANDI
       I_ORI I_XORI I_LUI I_COP0 I_COP1 I_COP2 I_COP3 I_LB I_LH I_LWL I_LW I_LBU I_LHU I_LWR I_SB I_SH
       I_SWL I_SW I_SWR I_LWC0 I_LWC1 I_LWC2 I_LWC3 I_SWC0 I_SWC1 I_SWC2 I_SWC3 I_SLL I_SRL I_SRA
       I_SLLV I_SRLV I_SRAV I_JR I_JALR I_SYSCALL I_BREAK I_MFHI I_MTHI I_MFLO I_MTLO I_MULT I_MULTU
       I_DIV I_DIVU I_ADD I_ADDU I_SUB I_SUBU I_AND I_OR I_XOR I_NOR I_SLT I_SLTU I_BLTZ I_BGEZ
       I_BLTZAL I_BGEZAL].

Lemma reserved_ends host_call a pc s : reserved (key a) = true -> normal host_call a pc s = u.
Proof.
  unfold key, normal. fold (opcode_of a). destruct (Z.eqb_spec (opcode_of a) I_SPECIAL) as [Ho|Ho]; [|destruct (Z.eqb_spec (opcode_of a) I_BCOND) as [Hb|Hb]].
  - rewrite Ho. pick. unfold special. fold (funct_of a). generalize (funct_of_range a). generalize (funct_of a).
    cases64; intros Hr; first [discriminate Hr | by pick].
  - rewrite Hb. pick. unfold bcond. generalize (rt_range a). generalize (rt a) as r.
    apply (Z_cases 32 (fun r => reserved (128 + r) = true -> switch r _ _ = u)).
    repeat (apply Forall_cons; split); [cbv beta..|by apply Forall_nil]; intros Hr; first [discriminate Hr | by pick].
  - generalize (opcode_of_range a). generalize (opcode_of a). cases64; intros Hr; first [discriminate Hr | by pick].
Qed.

(** Instructions whose text leaves out an operand: BLEZ and BGTZ (no operands at all), JALR
    (no [rd]), MTHI (shows [rd], reads [rs]) and MFLO (shows [rs], writes [rd]). *)
Definition lossy (k : Z) : bool := existsb (Z.eqb k) [I_BLEZ; I_BGTZ; 64 + I_JALR; 64 + I_MTHI; 64 + I_MFLO].

#[local] Opaque R hex pad8 branch_address rs rt rd immed shamt top4 off26 jump_target branch_target i32 u32 Reg set_Reg.

Section Same.
Context (host_call : Z -> Z -> Z -> Z -> gmap Z Z -> Z * gmap Z Z) (a b pc : Z) (s : Cpu).

(** Whatever the format of the operands, read them back and compare. *)
Ltac read_back E :=
  first [ apply read_rd_rt_shamt in E as (-> & -> & ->)
        | apply read_rt_rs_immed in E as (-> & -> & ->) | apply read_rt_offset_rs in E as (-> & -> & ->)
        | apply read_rt_rs_offset in E as (-> & -> & Ht) | apply read_rt_immed in E as (-> & Hi)
        | apply read_jump in E as ->
        | apply read_three in E as (-> & -> & ->); auto with text
        | apply read_two in E as (-> & ->); auto with text
        | apply R_inj in E as ->; auto with text | idtac ].

Lemma special_same : funct_of a = funct_of b -> lossy (64 + funct_of a) = false ->
  special_operands a (funct_of a) = special_operands b (funct_of a) -> special host_call a pc s = special host_call b pc s.
Proof.
  unfold special, special_operands. fold (funct_of a) (funct_of b). intros <-.
  generalize (funct_of_range a). generalize (funct_of a). cases64; intros Hl; first [discriminate Hl | pick; intros E; read_back E; reflexivity].
Qed.

Lemma normal_same : opcode_of a = opcode_of b -> opcode_of a <> I_SPECIAL -> opcode_of a <> I_BCOND -> lossy (opcode_of a) = false ->
  normal_operands a pc (opcode_of a) = normal_operands b pc (opcode_of a) -> normal host_call a pc s = normal host_call b pc s.
Proof.
  unfold normal, normal_operands, interp_LWL, interp_LWR, branch_if. fold (opcode_of a) (opcode_of b). intros <-.
  generalize (opcode_of_range a). generalize (opcode_of a). cases64; intros Hs Hb Hl;
    first [discriminate Hl | by destruct Hs | by destruct Hb | pick; intros E; read_back E].
  all: try reflexivity; try (by rewrite Ht).
  by rewrite (i32_lui a), (i32_lui b), <-!immed_eq, Hi.
Qed.

Lemma bcond_same : rt a = rt b -> R (rs a) +:+ "," +:+ branch_address a pc = R (rs b) +:+ "," +:+ branch_address b pc ->
  bcond a pc s = bcond b pc s.
Proof. intros Hr [Hrs Ht]%read_rs_offset. unfold bcond, branch_if. by rewrite Hr, Hrs, Ht. Qed.

Lemma key_same : key a = key b -> reserved (key a) = false -> lossy (key a) = false -> operands a pc = operands b pc ->
  normal host_call a pc s = normal host_call b pc s.
Proof.
  unfold key, operands. change I_SPECIAL with 0. change I_BCOND with 1. pose proof (opcode_of_range a). pose proof (opcode_of_range b).
  pose proof (funct_of_range a). pose proof (funct_of_range b). pose proof (rt_range a). pose proof (rt_range b).
  destruct (Z.eqb_spec (opcode_of a) 0) as [Ha|Ha], (Z.eqb_spec (opcode_of b) 0) as [Hb|Hb];
    try (destruct (Z.eqb_spec (opcode_of a) 1) as [Ha'|Ha']); try (destruct (Z.eqb_spec (opcode_of b) 1) as [Hb'|Hb']);
    intros Hk Hr Hl E; try lia.
  - unfold normal. fold (opcode_of a) (opcode_of b). rewrite Ha, Hb. pick. assert (Hf : funct_of a = funct_of b) by lia.
    apply special_same; [done|done|]. by rewrite Hf at 2.
  - unfold normal. fold (opcode_of a) (opcode_of b). rewrite Ha', Hb'. pick. apply bcond_same; [lia|done].
  - apply normal_same; [done..|]. by rewrite Hk at 2.
Qed.
End Same.

(** C29.  The text of the disassembler determines what an instruction does: two words that are
    printed alike at the same address are both the no-op, or the interpreter does the same
    with them in every state (the same registers, memory, branch target or end), unless
    the word is a BLEZ, BGTZ, JALR, MTHI or MFLO, whose text leaves out an operand. *)
Theorem dump_ascii_determines (a b pc : Z) :
  dump_ascii false a pc = dump_ascii false b pc -> lossy (key a) = false ->
  (a = 0 /\ b = 0)
  \/ (a <> 0 /\ b <> 0
      /\ forall (host_call : Z -> Z -> Z -> Z -> gmap Z Z -> Z * gmap Z Z) (s : Cpu),
           normal host_call a pc s = normal host_call b pc s).
Proof.
  assert (Htab : forall t1 t2, tab +:+ t1 = tab +:+ t2 -> t1 = t2) by by intros t1 t2 [=].
  assert (Hnop : forall i, i <> 0 -> dump_ascii false 0 pc <> dump_ascii false i pc).
  { intros i Hi. rewrite (dump_short i) by done. change (dump_ascii false 0 pc) with (tab +:+ "nop").
    intros E%Htab%(f_equal (free (ascii_of_nat 9))). rewrite !free_app, andb_comm in E. discriminate E. }
  intros E Hl. destruct (decide (a = 0)) as [->|Ha], (decide (b = 0)) as [->|Hb];
    [by left|by destruct (Hnop b Hb)|by destruct (Hnop a Ha)|right].
  rewrite !dump_short in E by done. apply Htab in E.
  apply (cut_inj (ascii_of_nat 9)) in E as [En Eo]; [|apply names_free, key_range..].
  split_and!; [done..|]. intros host_call s.
  destruct (names_distinct _ _ (key_range a) (key_range b) En) as [[Hk Hr]|[Ra Rb]].
  - by apply key_same.
  - by rewrite !reserved_ends.
Qed.

(** [addu r2,r3,r4] with and without a shift amount that the instruction ignores. *)
Lemma dump_ascii_determines_witness :
  (encode_R 3 4 2 0 33 = 0 /\ encode_R 3 4 2 7 33 = 0)
  \/ (encode_R 3 4 2 0 33 <> 0 /\ encode_R 3 4 2 7 33 <> 0
      /\ forall (host_call : Z -> Z -> Z -> Z -> gmap Z Z -> Z * gmap Z Z) (s : Cpu),
           normal host_call (encode_R 3 4 2 0 33) memoffset s = normal host_call (encode_R 3 4 2 7 33) memoffset s).
Proof. apply (dump_ascii_determines (encode_R 3 4 2 0 33) (encode_R 3 4 2 7 33) memoffset); by vm_compute. Defined.

(** [mflo r2] and [mflo r3] are printed alike. *)
Example mflo_lossy :
  dump_ascii false (encode_R 0 0 2 0 18) memoffset = dump_ascii false (encode_R 0 0 3 0 18) memoffset
  /\ lossy (key (encode_R 0 0 2 0 18)) = true
  /\ rd (encode_R 0 0 2 0 18) <> rd (encode_R 0 0 3 0 18).
Proof. by vm_compute. Qed.

Example lw_text : dump_ascii true (encode_I 35 29 4 0x8010) 0x10000004 = "10000004: 8fa48010  " +:+ tab +:+ "lw" +:+ tab +:+ "r4,0xffff8010(sp)".
Proof. by vm_compute. Qed.

(** ** [disasm] prints every word of the text section *)

Definition text_words (size : Z) : Z := (size + 3) `div` 4.

Lemma fetch_mapped s pc : memoffset <= pc -> pc + 4 <= memoffset + MEMSIZE -> exists w, fetch s pc = Go w.
Proof.
  intros. unfold fetch, mem_bytes, mapped. destruct (Z.leb_spec memoffset pc); [|lia].
  destruct (Z.leb_spec (pc + Z.of_nat 4) (memoffset + MEMSIZE)); [|lia]. by eexists.
Qed.

(** The lines of [count] words from the [j]-th on. *)
Definition lines (j count : Z) (ws : list Z) : string :=
  foldr String.append "" (zip_with (fun k w => dump_ascii true w (memoffset + 4 * k) +:+ newline) (seqZ j count) ws).
Definition words_at (s : Cpu) (j count : Z) (ws : list Z) : Prop :=
  Forall2 (fun k w => fetch s (memoffset + 4 * k) = Go w) (seqZ j count) ws.

Lemma disasm_loop_lines s size n j : 0 <= size <= MEMSIZE -> 0 <= j <= text_words size -> text_words size - j < Z.of_nat n ->
  exists ws, words_at s j (text_words size - j) ws
    /\ disasm_loop n s size (4 * j) (memoffset + 4 * j) = Go (lines j (text_words size - j) ws).
Proof.
  intros Hs. revert j. induction n as [|n IH]; intros j Hj Hn; [lia|].
  assert (Hlt : 4 * j < size <-> j < text_words size) by (unfold text_words; Z.div_mod_to_equations; lia).
  cbn [disasm_loop]. unfold words_at, lines. destruct (Z.ltb_spec (4 * j) size) as [Hi|Hi].
  - destruct (fetch_mapped s (memoffset + 4 * j)) as [w Hw]; [lia|unfold MEMSIZE in *; lia|].
    destruct (IH (j + 1)) as (ws & Hws & Hloop); [lia|lia|].
    rewrite seqZ_cons by lia. replace (Z.succ j) with (j + 1) by lia.
    replace (Z.pred (text_words size - j)) with (text_words size - (j + 1)) by lia.
    exists (w :: ws). split; [by constructor|]. unfold dis1. rewrite Hw. cbn [mbind outcome_bind].
    replace (4 * j + 4) with (4 * (j + 1)) by lia. replace (memoffset + 4 * j + 4) with (memoffset + 4 * (j + 1)) by lia.
    by rewrite Hloop.
  - exists []. rewrite seqZ_nil by lia. split; [constructor|done].
Qed.

(** [disasm] ends after one round for each word: its output is the lines of the words at
    [memoffset], [memoffset + 4], and so on up to the end of the section. *)
Theorem disasm_lines (s : Cpu) (size : Z) (n : nat) : 0 <= size <= MEMSIZE -> text_words size < Z.of_nat n ->
  exists ws, words_at s 0 (text_words size) ws /\ disasm n s size = Go (lines 0 (text_words size) ws).
Proof.
  intros Hs Hn. assert (0 <= text_words size) by (unfold text_words; apply Z.div_pos; lia).
  destruct (disasm_loop_lines s size n 0 Hs) as (ws & Hws & Hl); [lia|lia|]. rewrite Z.sub_0_r in *. by exists ws.
Qed.
