(* ===== verification/Trace.v ===== *)
(** * What the simulator shows: debug flags, the instruction trace, the debugger

    threads/utility.cc (the debug flags), the trace of machine/mipssim.cc with the table of
    mipssim.h, [Machine::Debugger] and [Machine::DumpState] of machine/machine.cc,
    [Interrupt::DumpState] of machine/interrupt.cc.  Output is a [string]; what is typed at the
    debugger is one too. *)

From Stdlib Require Import Ascii.
From S2P Require Import Prelude Text BitMap Interrupt Machine Mips MachineSafe Alu.

Local Open Scope string_scope.
Local Open Scope Z_scope.

(** ** Debug flags (utility.cc) *)

(** [strchr]: the terminating null is a character of the string, too. *)
Definition strchr (s : string) (c : ascii) : bool := Ascii.eqb c zero || negb (free c s).

Definition DebugInit (flagList : string) : option string := Some flagList.

Definition DebugIsEnabled (enableFlags : option string) (flag : ascii) : bool :=
  match enableFlags with
  | Some flags => strchr flags flag || strchr flags "+"
  | None => false
  end.

Definition DEBUG (enableFlags : option string) (flag : ascii) (format : string) (args : list farg) : string :=
  if DebugIsEnabled enableFlags flag then printf format args else "".

(** ** The trace of instructions (mipssim.h, mipssim.cc) *)

Inductive RegType := NONE | RS | RT | RD | EXTRA.

Record OpString := mkOpString { os_string : string; os_args : RegType * RegType * RegType }.

Definition opStrings : list OpString :=
  [ mkOpString "Shouldn't happen" (NONE, NONE, NONE); mkOpString "ADD r%d,r%d,r%d" (RD, RS, RT);
    mkOpString "ADDI r%d,r%d,%d" (RT, RS, EXTRA); mkOpString "ADDIU r%d,r%d,%d" (RT, RS, EXTRA);
    mkOpString "ADDU r%d,r%d,r%d" (RD, RS, RT); mkOpString "AND r%d,r%d,r%d" (RD, RS, RT);
    mkOpString "ANDI r%d,r%d,%d" (RT, RS, EXTRA); mkOpString "BEQ r%d,r%d,%d" (RS, RT, EXTRA);
    mkOpString "BGEZ r%d,%d" (RS, EXTRA, NONE); mkOpString "BGEZAL r%d,%d" (RS, EXTRA, NONE);
    mkOpString "BGTZ r%d,%d" (RS, EXTRA, NONE); mkOpString "BLEZ r%d,%d" (RS, EXTRA, NONE);
    mkOpString "BLTZ r%d,%d" (RS, EXTRA, NONE); mkOpString "BLTZAL r%d,%d" (RS, EXTRA, NONE);
    mkOpString "BNE r%d,r%d,%d" (RS, RT, EXTRA); mkOpString "Shouldn't happen" (NONE, NONE, NONE);
    mkOpString "DIV r%d,r%d" (RS, RT, NONE); mkOpString "DIVU r%d,r%d" (RS, RT, NONE);
    mkOpString "J %d" (EXTRA, NONE, NONE); mkOpString "JAL %d" (EXTRA, NONE, NONE);
    mkOpString "JALR r%d,r%d" (RD, RS, NONE); mkOpString "JR r%d,r%d" (RD, RS, NONE);
    mkOpString "LB r%d,%d(r%d)" (RT, EXTRA, RS); mkOpString "LBU r%d,%d(r%d)" (RT, EXTRA, RS);
    mkOpString "LH r%d,%d(r%d)" (RT, EXTRA, RS); mkOpString "LHU r%d,%d(r%d)" (RT, EXTRA, RS);
    mkOpString "LUI r%d,%d" (RT, EXTRA, NONE); mkOpString "LW r%d,%d(r%d)" (RT, EXTRA, RS);
    mkOpString "LWL r%d,%d(r%d)" (RT, EXTRA, RS); mkOpString "LWR r%d,%d(r%d)" (RT, EXTRA, RS);
    mkOpString "Shouldn't happen" (NONE, NONE, NONE); mkOpString "MFHI r%d" (RD, NONE, NONE);
    mkOpString "MFLO r%d" (RD, NONE, NONE); mkOpString "Shouldn't happen" (NONE, NONE, NONE);
    mkOpString "MTHI r%d" (RS, NONE, NONE); mkOpString "MTLO r%d" (RS, NONE, NONE);
    mkOpString "MULT r%d,r%d" (RS, RT, NONE); mkOpString "MULTU r%d,r%d" (RS, RT, NONE);
    mkOpString "NOR r%d,r%d,r%d" (RD, RS, RT); mkOpString "OR r%d,r%d,r%d" (RD, RS, RT);
    mkOpString "ORI r%d,r%d,%d" (RT, RS, EXTRA); mkOpString "RFE" (NONE, NONE, NONE);
    mkOpString "SB r%d,%d(r%d)" (RT, EXTRA, RS); mkOpString "SH r%d,%d(r%d)" (RT, EXTRA, RS);
    mkOpString "SLL r%d,r%d,%d" (RD, RT, EXTRA); mkOpString "SLLV r%d,r%d,r%d" (RD, RT, RS);
    mkOpString "SLT r%d,r%d,r%d" (RD, RS, RT); mkOpString "SLTI r%d,r%d,%d" (RT, RS, EXTRA);
    mkOpString "SLTIU r%d,r%d,%d" (RT, RS, EXTRA); mkOpString "SLTU r%d,r%d,r%d" (RD, RS, RT);
    mkOpString "SRA r%d,r%d,%d" (RD, RT, EXTRA); mkOpString "SRAV r%d,r%d,r%d" (RD, RT, RS);
    mkOpString "SRL r%d,r%d,%d" (RD, RT, EXTRA); mkOpString "SRLV r%d,r%d,r%d" (RD, RT, RS);
    mkOpString "SUB r%d,r%d,r%d" (RD, RS, RT); mkOpString "SUBU r%d,r%d,r%d" (RD, RS, RT);
    mkOpString "SW r%d,%d(r%d)" (RT, EXTRA, RS); mkOpString "SWL r%d,%d(r%d)" (RT, EXTRA, RS);
    mkOpString "SWR r%d,%d(r%d)" (RT, EXTRA, RS); mkOpString "XOR r%d,r%d,r%d" (RD, RS, RT);
    mkOpString "XORI r%d,r%d,%d" (RT, RS, EXTRA); mkOpString "SYSCALL" (NONE, NONE, NONE);
    mkOpString "Unimplemented" (NONE, NONE, NONE); mkOpString "Reserved" (NONE, NONE, NONE) ].

(** The number of an operation. *)
Definition opcode_number (op : OpCode) : Z :=
  match op with
  | OP_ADD => 1 | OP_ADDI => 2 | OP_ADDIU => 3 | OP_ADDU => 4 | OP_AND => 5 | OP_ANDI => 6 | OP_BEQ => 7 | OP_BGEZ => 8
  | OP_BGEZAL => 9 | OP_BGTZ => 10 | OP_BLEZ => 11 | OP_BLTZ => 12 | OP_BLTZAL => 13 | OP_BNE => 14
  | OP_DIV => 16 | OP_DIVU => 17 | OP_J => 18 | OP_JAL => 19 | OP_JALR => 20 | OP_JR => 21 | OP_LB => 22 | OP_LBU => 23
  | OP_LH => 24 | OP_LHU => 25 | OP_LUI => 26 | OP_LW => 27 | OP_LWL => 28 | OP_LWR => 29
  | OP_MFHI => 31 | OP_MFLO => 32 | OP_MTHI => 34 | OP_MTLO => 35 | OP_MULT => 36 | OP_MULTU => 37 | OP_NOR => 38
  | OP_OR => 39 | OP_ORI => 40 | OP_RFE => 41 | OP_SB => 42 | OP_SH => 43 | OP_SLL => 44 | OP_SLLV => 45 | OP_SLT => 46
  | OP_SLTI => 47 | OP_SLTIU => 48 | OP_SLTU => 49 | OP_SRA => 50 | OP_SRAV => 51 | OP_SRL => 52 | OP_SRLV => 53
  | OP_SUB => 54 | OP_SUBU => 55 | OP_SW => 56 | OP_SWL => 57 | OP_SWR => 58 | OP_XOR => 59 | OP_XORI => 60
  | OP_SYSCALL => 61 | OP_UNIMP => 62 | OP_RES => 63 | SPECIAL => 100 | BCOND => 101
  end.

Definition MaxOpcode : Z := 63.

Definition TypeToReg (reg : RegType) (instr : Instruction) : Z :=
  match reg with RS => in_rs instr | RT => in_rt instr | RD => in_rd instr | EXTRA => in_extra instr | NONE => -1 end.

Definition trace_args (str : OpString) (instr : Instruction) : list Z :=
  let '(a, b, c) := os_args str in [TypeToReg a instr; TypeToReg b instr; TypeToReg c instr].

(** What [OneInstruction] prints for the decoded instruction at [pc]. *)
Definition trace_instruction (enableFlags : option string) (pc : Z) (instr : Instruction) : result string :=
  if DebugIsEnabled enableFlags "m" then
    ASSERT (opcode_number (in_opCode instr) <=? MaxOpcode) ;;
    str ← deref (opStrings !! Z.to_nat (opcode_number (in_opCode instr)));
    Ok (printf "At PC = 0x%x: " [Num pc] +:+ (printf (os_string str) (map Num (trace_args str instr)) +:+ newline))
  else Ok "".

(** *** Reading a line of the trace *)

#[local] Instance Ok_inj {A} : Inj (=) (=) (@Ok A).
Proof. by intros ? ? [= ->]. Qed.

Definition opString (op : OpCode) : OpString := nth (Z.to_nat (opcode_number op)) opStrings (mkOpString "" (NONE, NONE, NONE)).

Lemma opStrings_ok op : executable op ->
  (opcode_number op <=? MaxOpcode) = true /\ opStrings !! Z.to_nat (opcode_number op) = Some (opString op).
Proof. unfold executable. intros (? & ? & ?). by destruct op. Qed.

(** The operation with a name. *)
Definition named (w : string) : option OpCode :=
  find (fun op => String.eqb (word (os_string (opString op))) w)
    [OP_ADD; OP_ADDI; OP_ADDIU; OP_ADDU; OP_AND; OP_ANDI; OP_BEQ; OP_BGEZ; OP_BGEZAL; OP_BGTZ; OP_BLEZ; OP_BLTZ; OP_BLTZAL; OP_BNE;
     OP_DIV; OP_DIVU; OP_J; OP_JAL; OP_JALR; OP_JR; OP_LB; OP_LBU; OP_LH; OP_LHU; OP_LUI; OP_LW; OP_LWL; OP_LWR; OP_MFHI; OP_MFLO;
     OP_MTHI; OP_MTLO; OP_MULT; OP_MULTU; OP_NOR; OP_OR; OP_ORI; OP_SB; OP_SH; OP_SLL; OP_SLLV; OP_SLT; OP_SLTI; OP_SLTIU; OP_SLTU;
     OP_SRA; OP_SRAV; OP_SRL; OP_SRLV; OP_SUB; OP_SUBU; OP_SW; OP_SWL; OP_SWR; OP_XOR; OP_XORI; OP_SYSCALL; OP_UNIMP; OP_RES].

Lemma opString_named op : executable op ->
  named (word (os_string (opString op))) = Some op /\ free "%" (word (os_string (opString op))) = true
  /\ readable (os_string (opString op)) = true /\ (conversions (os_string (opString op)) <= 3)%nat.
Proof. unfold executable. intros (? & ? & ?). destruct op; try done; (split; [by vm_compute|]; split; [by vm_compute|]; split; [by vm_compute|apply Nat.leb_le; by vm_compute]). Qed.

Lemma trace_args_ok str i : 0 <= in_rs i < 32 -> 0 <= in_rt i < 32 -> 0 <= in_rd i < 32 -> in_i32 (in_extra i) ->
  length (trace_args str i) = 3%nat /\ Forall in_i32 (trace_args str i).
Proof.
  intros. unfold trace_args. destruct (os_args str) as [[a b] c]. split; [done|].
  assert (Hr : forall r, in_i32 (TypeToReg r i)) by (intros []; cbn; unfold in_i32 in *; lia). by rewrite !Forall_cons, Forall_nil.
Qed.

(** The operands that are printed are those the instruction uses. *)
Lemma same_operands i j flags garbage pcAfter :
  executable (in_opCode i) -> in_opCode i = in_opCode j ->
  take (conversions (os_string (opString (in_opCode i)))) (trace_args (opString (in_opCode i)) i)
  = take (conversions (os_string (opString (in_opCode i)))) (trace_args (opString (in_opCode i)) j) ->
  execute flags garbage i pcAfter = execute flags garbage j pcAfter.
Proof.
  destruct i as [op s t d x], j as [op' s' t' d' x']. cbn [in_opCode]. intros (? & ? & ?) <-.
  destruct op; try done; intros E; vm_compute in E; simplify_eq; reflexivity.
Qed.

Lemma pc_text v s : printf "At PC = 0x%x: " [Num v] +:+ s = "At PC = 0x" +:+ (hex v +:+ String ":" (String " " s)).
Proof.
  change (printf "At PC = 0x%x: " [Num v]) with ("At PC = 0x" +:+ (hex v +:+ ": ")).
  by rewrite <-!append_assoc.
Qed.

Lemma read_pc a b s t : printf "At PC = 0x%x: " [Num a] +:+ s = printf "At PC = 0x%x: " [Num b] +:+ t -> u32 a = u32 b /\ s = t.
Proof.
  rewrite !pc_text. intros E%(inj (String.append _)).
  assert (Hf : forall v, free ":" (hex v) = true) by (intros v; rewrite free_all; apply all_trim, all_fixed; [lia|by vm_compute]).
  apply (cut_inj ":"%char) in E as [E1 [= E2]]; [|apply Hf..]. split; [by apply hex_inj|done].
Qed.

(** C28.  The trace of the simulator tells what is executed: for every word there is a line in the
    trace (the assertion on the operation number holds), and when two words give the same line,
    they were at the same address and [OneInstruction] does the same with both, in every state of the machine. *)
Theorem trace_determines (enableFlags : option string) (a b pc pc' : Z) (i j : Instruction) :
  DebugIsEnabled enableFlags "m" = true -> Instruction_Decode a = Ok i -> Instruction_Decode b = Ok j ->
  exists line, trace_instruction enableFlags pc i = Ok line
    /\ (trace_instruction enableFlags pc' j = Ok line ->
        u32 pc = u32 pc' /\ forall flags garbage pcAfter m, execute flags garbage i pcAfter m = execute flags garbage j pcAfter m).
Proof.
  intros Hen Hi Hj. destruct (Decode_ok a) as (i' & Ei & Hi1 & Hi2 & Hi3 & Hi4 & Hie & _). assert (i' = i) as -> by congruence.
  destruct (Decode_ok b) as (j' & Ej & Hj1 & Hj2 & Hj3 & Hj4 & Hje & _). assert (j' = j) as -> by congruence.
  unfold trace_instruction. rewrite Hen. destruct (opStrings_ok _ Hie) as [-> ->], (opStrings_ok _ Hje) as [-> ->].
  cbn [ASSERT deref mbind result_bind]. eexists. split; [reflexivity|]. intros E%(inj Ok). symmetry in E.
  apply read_pc in E as [Epc E]. split; [exact Epc|]. apply snoc_inj in E.
  destruct (opString_named _ Hie) as (Ni & Fi & Ri & Ci), (opString_named _ Hje) as (Nj & Fj & _ & _).
  assert (Hop : in_opCode i = in_opCode j).
  { apply (f_equal word) in E. rewrite !word_printf in E by done. rewrite E, Nj in Ni. by injection Ni. }
  rewrite <-Hop in E. intros flags garbage pcAfter m. rewrite (same_operands i j); try done.
  destruct (trace_args_ok (opString (in_opCode i)) i) as [Li Ai], (trace_args_ok (opString (in_opCode i)) j) as [Lj Aj]; try done.
  apply printf_inj; done || lia.
Qed.

Lemma trace_determines_witness :
  trace_instruction (Some "m") 0x40 (mkInstr OP_JR 31 0 0 0) = Ok ("At PC = 0x40: JR r0,r31" +:+ newline)
  /\ forall flags garbage pcAfter m,
       execute flags garbage (mkInstr OP_JR 31 0 0 0) pcAfter m = execute flags garbage (mkInstr OP_JR 31 0 0 3) pcAfter m.
Proof.
  destruct (trace_determines (Some "m") (encode_R 31 0 0 0 8) (encode_R 31 0 0 3 8) 0x40 0x40 (mkInstr OP_JR 31 0 0 0) (mkInstr OP_JR 31 0 0 3))
    as (line & E & H); [reflexivity..|].
  split; [reflexivity|]. apply H. rewrite <-E. reflexivity.
Defined.

(** ** The registers ([Machine::DumpState]) *)

(** One register of the loop; after every fourth one comes a newline. *)
Definition dump_register (i v : Z) : string :=
  let nl := if i `mod` 4 =? 3 then newline else "" in
  if i =? StackReg then printf (tab +:+ ("SP(%d):" +:+ (tab +:+ "0x%x%s"))) [Num i; Num v; Str nl]
  else if i =? RetAddrReg then printf (tab +:+ ("RA(%d):" +:+ (tab +:+ "0x%x%s"))) [Num i; Num v; Str nl]
  else printf (tab +:+ ("%d:" +:+ (tab +:+ "0x%x%s"))) [Num i; Num v; Str nl].

Fixpoint dump_loop (registers : list Z) (idx : list Z) : result string :=
  match idx with
  | [] => Ok ""
  | i :: idx => v ← deref (registers !! Z.to_nat i); rest ← dump_loop registers idx; Ok (dump_register i v +:+ rest)
  end.

Definition dump_special (registers : list Z) (name : string) (i : Z) (nl : string) : result string :=
  v ← deref (registers !! Z.to_nat i); Ok (printf (tab +:+ (name +:+ (":" +:+ (tab +:+ "0x%x%s")))) [Num v; Str nl]).

Definition Machine_DumpState (registers : list Z) : result string :=
  gp ← dump_loop registers (seqZ 0 NumGPRegs);
  hi ← dump_special registers "Hi" HiReg "";
  lo ← dump_special registers "Lo" LoReg newline;
  pc ← dump_special registers "PC" PCReg "";
  np ← dump_special registers "NextPC" NextPCReg "";
  pp ← dump_special registers "PrevPC" PrevPCReg newline;
  l ← dump_special registers "Load" LoadReg "";
  lv ← dump_special registers "LoadV" LoadValueReg newline;
  Ok ("Machine registers:" +:+ (newline +:+ (gp +:+ (hi +:+ (lo +:+ (pc +:+ (np +:+ (pp +:+ (l +:+ (lv +:+ newline)))))))))).

(** The dump as numbers between fixed texts. *)
Definition before (i : Z) : string :=
  tab +:+ ((if i =? StackReg then "SP(29)" else if i =? RetAddrReg then "RA(31)" else dec i) +:+ (":" +:+ (tab +:+ "0x"))).
Definition after (i : Z) : string := if i `mod` 4 =? 3 then newline else "".

Definition dump_fields : list (string * nat * string) :=
  map (fun i => (before i, Z.to_nat i, after i)) (seqZ 0 NumGPRegs)
  ++ map (fun '(name, i, nl) => (tab +:+ (name +:+ (":" +:+ (tab +:+ "0x"))), Z.to_nat i, nl))
       [("Hi", HiReg, ""); ("Lo", LoReg, newline); ("PC", PCReg, ""); ("NextPC", NextPCReg, ""); ("PrevPC", PrevPCReg, newline);
        ("Load", LoadReg, ""); ("LoadV", LoadValueReg, newline)].

Definition fields_text (registers : list Z) (l : list (string * nat * string)) (last : string) : string :=
  foldr (fun '(p, i, q) s => p +:+ (hex (registers !!! i) +:+ (q +:+ s))) last l.

Lemma dump_register_text i v : 0 <= i < 32 -> dump_register i v = before i +:+ (hex v +:+ after i).
Proof. intros Hi. revert i Hi. refine (Z_cases 32 _ _). repeat (apply Forall_cons; split; [reflexivity|]). by apply Forall_nil_2. Qed.

Lemma dump_loop_fields registers idx last : Forall (fun i => 0 <= i < 32) idx -> length registers = NumTotalRegs ->
  exists s, dump_loop registers idx = Ok s
    /\ s +:+ last = fields_text registers (map (fun i => (before i, Z.to_nat i, after i)) idx) last.
Proof.
  intros Hidx Hl. induction Hidx as [|i idx Hi Hidx (s & E & Hs)]; [by exists ""|]. cbn [dump_loop map].
  rewrite (list_lookup_lookup_total_lt registers (Z.to_nat i)) by (rewrite Hl; unfold NumTotalRegs; lia). cbn [deref mbind result_bind].
  rewrite E. cbn [mbind result_bind]. eexists. split; [reflexivity|]. cbn [fields_text foldr].
  rewrite dump_register_text, <-!append_assoc, Hs by done. done.
Qed.

Lemma dump_special_text name v nl last : free "%" name = true ->
  printf (tab +:+ (name +:+ (":" +:+ (tab +:+ "0x%x%s")))) [Num v; Str nl] +:+ last
  = (tab +:+ (name +:+ (":" +:+ (tab +:+ "0x")))) +:+ (hex v +:+ (nl +:+ last)).
Proof.
  intros Hn. rewrite (printf_app tab), (printf_app name) by done.
  change (printf (":" +:+ _) _) with ((":" +:+ (tab +:+ "0x")) +:+ (hex v +:+ (nl +:+ ""))). by rewrite append_nil_r, <-!append_assoc.
Qed.

Lemma DumpState_text registers : length registers = NumTotalRegs ->
  Machine_DumpState registers = Ok ("Machine registers:" +:+ (newline +:+ fields_text registers dump_fields newline)).
Proof.
  intros Hl. unfold Machine_DumpState, dump_special.
  destruct (dump_loop_fields registers (seqZ 0 NumGPRegs)
    (fields_text registers (drop 32 dump_fields) newline)) as (s & -> & Hs); [|done|].
  { apply Forall_forall. intros i Hi%elem_of_seqZ. unfold NumGPRegs in Hi. lia. }
  rewrite !(list_lookup_lookup_total_lt registers) by (rewrite Hl; by apply Nat.ltb_lt). cbn [deref mbind result_bind]. do 3 f_equal.
  unfold dump_fields at 1, fields_text at 1. rewrite foldr_app. etrans; [|exact Hs].
  by rewrite !dump_special_text by done.
Qed.

Definition hexdigit (c : ascii) : bool := existsb (Ascii.eqb c) hexdigits.

Definition no_digit (s : string) : bool := match s with "" => true | String c _ => negb (hexdigit c) end.

Lemma hex_digits v : all hexdigit (hex v) = true.
Proof. apply all_trim, all_fixed; [lia|by vm_compute]. Qed.

Lemma read_hex a b s t : no_digit s = true -> no_digit t = true -> hex a +:+ s = hex b +:+ t -> u32 a = u32 b /\ s = t.
Proof.
  intros Hs Ht E. apply (span_inj hexdigit) in E as [E ->]; [split; [by apply hex_inj|done]|apply hex_digits..| |].
  - destruct s; [done|]. by apply negb_true_iff.
  - destruct t; [done|]. by apply negb_true_iff.
Qed.

(** No field goes on with a digit. *)
Definition fields_ok (l : list (string * nat * string)) : bool :=
  forallb (fun '(p, _, q) => negb (String.eqb p "") && no_digit p && no_digit q) l.

Lemma fields_no_digit r l last : fields_ok l = true -> no_digit last = true -> no_digit (fields_text r l last) = true.
Proof.
  destruct l as [|[[p i] q] l]; [done|]. cbn. intros [[[Hp Hd]%andb_prop _]%andb_prop _]%andb_prop _. by destruct p.
Qed.

Lemma read_fields r r' l last : fields_ok l = true -> no_digit last = true ->
  fields_text r l last = fields_text r' l last -> forall p i q, (p, i, q) ∈ l -> u32 (r !!! i) = u32 (r' !!! i).
Proof.
  intros Hl Hlast. induction l as [|[[p i] q] l IH]; [by intros _ ? ? ? ?%elem_of_nil|].
  cbn [fields_text foldr]. intros E%(inj (String.append p)) p' i' q'. cbn [fields_ok forallb] in Hl. apply andb_prop in Hl as [[[_ _]%andb_prop Hq]%andb_prop Hl].
  assert (Hn : forall x, no_digit (q +:+ fields_text x l last) = true).
  { intros x. destruct q; [|done]. by apply fields_no_digit. }
  apply read_hex in E as [E Er]; [|apply Hn..]. apply (inj (String.append q)) in Er.
  intros [[= -> -> ->]|Hin]%elem_of_cons; [done|]. by apply (IH Hl Er p' i' q').
Qed.

Lemma dump_indices i : (exists p q, (p, i, q) ∈ dump_fields) <-> (i < 39)%nat.
Proof.
  assert (Hs : dump_fields.*1.*2 = seq 0 39) by by vm_compute. split.
  - intros (p & q & Hin). assert (Hi : i ∈ dump_fields.*1.*2).
    { apply list_elem_of_fmap. exists (p, i). split; [done|]. apply list_elem_of_fmap. by exists (p, i, q). }
    rewrite Hs in Hi. apply elem_of_seq in Hi. lia.
  - intros Hi. assert (Hi' : i ∈ dump_fields.*1.*2) by (rewrite Hs; apply elem_of_seq; lia).
    apply list_elem_of_fmap in Hi' as ([p i'] & -> & Hi'). apply list_elem_of_fmap in Hi' as ([[p' i''] q] & [= -> ->] & Hin). eauto.
Qed.

Lemma fields_text_ext r r' l last : (forall p i q, (p, i, q) ∈ l -> r !!! i = r' !!! i) -> fields_text r l last = fields_text r' l last.
Proof.
  intros H. induction l as [|[[p i] q] l IH]; [done|]. cbn [fields_text foldr]. fold (fields_text r l last) (fields_text r' l last).
  rewrite IH by (intros p' i' q' Hin; apply (H p' i' q'); by right). by rewrite (H p i q) by left.
Qed.

(** The dump of the machine shows every register but the one with the address of an exception. *)
Theorem DumpState_determines (r r' : list Z) :
  length r = NumTotalRegs -> length r' = NumTotalRegs -> Forall in_i32 r -> Forall in_i32 r' ->
  Machine_DumpState r = Machine_DumpState r' <-> take 39 r = take 39 r'.
Proof.
  intros Hr Hr' Fr Fr'. rewrite !DumpState_text by done. split.
  - intros E%(inj Ok)%(inj (String.append _))%(inj (String.append newline)).
    apply list_eq. intros i. destruct (decide (i < 39)%nat) as [Hi|Hi]; [|by rewrite !lookup_take_ge by lia].
    rewrite !lookup_take_lt by done. rewrite !list_lookup_lookup_total_lt by (rewrite ?Hr, ?Hr'; unfold NumTotalRegs; lia). f_equal.
    pose proof (proj2 (dump_indices i) Hi) as Hin.
    destruct Hin as (p & q & Hin). pose proof (read_fields r r' dump_fields newline eq_refl eq_refl E p i q Hin) as Eu.
    rewrite Forall_lookup in Fr, Fr'. apply u32_inj; [eapply Fr|eapply Fr'|done]; apply list_lookup_lookup_total_lt; rewrite ?Hr, ?Hr'; unfold NumTotalRegs; lia.
  - intros E. do 3 f_equal. apply fields_text_ext. intros p i q Hin. assert (Hi : (i < 39)%nat) by (apply dump_indices; eauto).
    apply (f_equal (lookup_total i)) in E. by rewrite !lookup_total_take_lt in E.
Qed.

(** ** Pending interrupts ([Interrupt::DumpState]) *)

Definition intLevelNames : list string := ["off"; "on"].
Definition intTypeNames : list string := ["timer"; "disk"; "console write"; "console read"; "network send"; "network recv"].

Definition IntStatus_number (l : IntStatus) : nat := match l with IntOff => 0 | IntOn => 1 end.
Definition IntType_number (t : IntType) : nat :=
  match t with
  | TimerInt => 0 | DiskInt => 1 | ConsoleWriteInt => 2 | ConsoleReadInt => 3 | ElevatorInt => 4 | NetworkSendInt => 5 | NetworkRecvInt => 6
  end.

Definition PrintPending {H} (pend : PendingInterrupt H) : result string :=
  name ← deref (intTypeNames !! IntType_number (pi_type pend));
  Ok (printf ("Interrupt handler %s, scheduled at %d" +:+ newline) [Str name; Num (pi_when pend)]).

(** [Mapcar] of [PrintPending]. *)
Fixpoint print_pending {H} (l : list (Z * PendingInterrupt H)) : result string :=
  match l with
  | [] => Ok ""
  | (_, p) :: l => s ← PrintPending p; rest ← print_pending l; Ok (s +:+ rest)
  end.

Definition Interrupt_DumpState {H} (hw : Hardware H) : result string :=
  level ← deref (intLevelNames !! IntStatus_number (hw_level hw));
  pending ← print_pending (hw_pending hw);
  Ok (printf ("Time: %d, interrupts %s" +:+ newline) [Num (totalTicks (hw_stats hw)); Str level]
      +:+ (("Pending interrupts:" +:+ newline) +:+ (pending +:+ ("End of pending interrupts" +:+ newline)))).

(** The table of names lacks the elevators: the names of the interrupts behind them are wrong, and for
    the arrival of a packet the name is read behind the end of the table. *)
Theorem pending_names_shifted {H} (handler : H) (when : Z) :
  PrintPending (mkPending handler when ElevatorInt) = Ok (printf ("Interrupt handler network send, scheduled at %d" +:+ newline) [Num when])
  /\ PrintPending (mkPending handler when NetworkSendInt) = Ok (printf ("Interrupt handler network recv, scheduled at %d" +:+ newline) [Num when])
  /\ PrintPending (mkPending handler when NetworkRecvInt) = Err MemFault.
Proof. split_and!; cbv -[dec]; reflexivity. Qed.

(** It is printed exactly when no packet is about to arrive. *)
Lemma print_pending_ok {H} (l : list (Z * PendingInterrupt H)) :
  Forall (fun '(_, p) => pi_type p <> NetworkRecvInt) l -> exists s, print_pending l = Ok s.
Proof.
  induction 1 as [|[w p] l Hp Hl [s IH]]; [by exists ""|]. cbn [print_pending]. unfold PrintPending.
  destruct (pi_type p); try done; cbn [IntType_number]; eexists; cbn; by rewrite IH.
Qed.

(** ** The debugger *)

Record DebugState := mkDebug { singleStep : bool; runUntilTime : Z }.

(** [fgets (buf, n + 1, stdin)]: what is read, and what is left. *)
Fixpoint fgets (n : nat) (input : string) : string * string :=
  match n, input with
  | O, _ => ("", input)
  | _, "" => ("", "")
  | S n, String c input =>
      if Ascii.eqb c "010"%char then (newline, input)
      else let '(s, rest) := fgets n input in (String c s, rest)
  end.

Definition isspace (c : ascii) : bool := let n := nat_of_ascii c in Nat.eqb n 32 || (Nat.leb 9 n && Nat.leb n 13).
Definition isdigit (c : ascii) : bool := let n := nat_of_ascii c in Nat.leb 48 n && Nat.leb n 57.

Fixpoint skip_space (s : string) : string :=
  match s with String c t => if isspace c then skip_space t else s | "" => "" end.

Fixpoint leading_digits (s : string) : string :=
  match s with String c t => if isdigit c then String c (leading_digits t) else "" | "" => "" end.

(** A number that does not fit an [int] is cut to the nearest one. *)
Definition scan_digits (negative : bool) (s : string) : option Z :=
  match leading_digits s with
  | "" => None
  | ds => let v := value 10 0 ds in Some (Z.max (- 2 ^ 31) (Z.min (2 ^ 31 - 1) (if negative then - v else v)))
  end.

(** [sscanf (buf, "%d", &num)] *)
Definition sscanf_int (buf : string) : option Z :=
  match skip_space buf with
  | "" => None
  | String c t =>
      if Ascii.eqb c "-"%char then scan_digits true t
      else if Ascii.eqb c "+"%char then scan_digits false t
      else scan_digits false (String c t)
  end.

Definition debugger_help : string :=
  ("Machine commands:" +:+ newline) +:+ (("    <return>  execute one instruction" +:+ newline)
  +:+ (("    <number>  run until the given timer tick" +:+ newline) +:+ (("    c         run until completion" +:+ newline)
  +:+ ("    ?         print help message" +:+ newline)))).

(** [Machine::Debugger]: the output, the new state and the input that is left.  At the end of the input
    [buf] is not written and holds what was on the heap. *)
Definition Machine_Debugger {H} (heap : string) (hw : Hardware H) (registers : list Z) (d : DebugState) (input : string)
  : result (string * DebugState * string) :=
  out1 ← Interrupt_DumpState hw;
  out2 ← Machine_DumpState registers;
  let out := out1 +:+ (out2 +:+ printf "%d> " [Num (totalTicks (hw_stats hw))]) in
  let '(line, rest) := fgets 79 input in
  let buf := match input with "" => heap | _ => line end in
  Ok (match sscanf_int buf with
      | Some num => (out, mkDebug (singleStep d) num, rest)
      | None =>
          match buf with
          | String c _ =>
              if Ascii.eqb c "c"%char then (out, mkDebug false 0, rest)
              else if Ascii.eqb c "?"%char then (out +:+ debugger_help, mkDebug (singleStep d) 0, rest)
              else (out, mkDebug (singleStep d) 0, rest)
          | "" => (out, mkDebug (singleStep d) 0, rest)
          end
      end).

(** When [Machine::Run] calls the debugger. *)
Definition debugger_due (d : DebugState) (ticks : Z) : bool := singleStep d && (runUntilTime d <=? ticks).

Lemma fgets_line s rest n : free "010"%char s = true -> (String.length s < n)%nat ->
  fgets n (s +:+ (newline +:+ rest)) = (s +:+ newline, rest).
Proof.
  revert s. induction n as [|n IH]; [lia|]. intros [|c s] Hf Hl; [done|]. cbn [free] in Hf. apply andb_prop in Hf as [Hc%negb_true_iff Hf].
  change (String c s +:+ (newline +:+ rest)) with (String c (s +:+ (newline +:+ rest))). cbn [fgets]. rewrite Hc, IH by (done || cbn in Hl; lia). done.
Qed.

Lemma leading_digits_app s t : all isdigit s = true -> match t with "" => True | String c _ => isdigit c = false end ->
  leading_digits (s +:+ t) = s.
Proof.
  intros Hs Ht. induction s as [|c s IH].
  - destruct t as [|c t]; [done|]. change ("" +:+ String c t) with (String c t). cbn [leading_digits]. by rewrite Ht.
  - cbn [all] in Hs. apply andb_prop in Hs as [Hc Hs]. change (String c s +:+ t) with (String c (s +:+ t)). cbn [leading_digits]. by rewrite Hc, IH.
Qed.

Lemma trim_fixed_cons v : exists c t, trim (fixed 10 10 v) = String c t.
Proof.
  assert (H : forall s, s <> "" -> exists c t, trim s = String c t).
  { induction s as [|c s IH]; [done|]. intros _. cbn [trim]. destruct (Ascii.eqb c "0"%char); [|eauto]. destruct s; [eauto|by apply IH]. }
  apply H. cbn [fixed]. destruct (fixed 10 9 (v `div` 10)); done.
Qed.

Lemma length_dec v : (String.length (dec v) <= 11)%nat.
Proof.
  assert (Ht : forall s, (String.length (trim s) <= String.length s)%nat).
  { induction s as [|c s IH]; [done|]. cbn [trim]. destruct (Ascii.eqb c "0"%char); [|done]. destruct s; [done|]. cbn in *. lia. }
  assert (Hf : forall n w, String.length (fixed 10 n w) = n).
  { assert (Ha : forall s c, String.length (s +:+ String c "") = S (String.length s)) by (intros s c; induction s as [|d s IH]; [done|exact (f_equal S IH)]).
    induction n as [|n IH]; intros w; [done|]. cbn [fixed]. by rewrite Ha, IH. }
  unfold dec. destruct (v <? 0); cbn [String.length]; [pose proof (Ht (fixed 10 10 (- v)))|pose proof (Ht (fixed 10 10 v))]; rewrite Hf in *; lia.
Qed.

Lemma scan_digits_ok negative v rest : 0 <= v < 10 ^ 10 -> match rest with "" => True | String c _ => isdigit c = false end ->
  scan_digits negative (trim (fixed 10 10 v) +:+ rest) = Some (Z.max (- 2 ^ 31) (Z.min (2 ^ 31 - 1) (if negative then - v else v))).
Proof.
  intros Hv Hr. unfold scan_digits. rewrite leading_digits_app; [|apply all_trim, all_fixed; [lia|by vm_compute]|done].
  destruct (trim_fixed_cons v) as (c & t & E). rewrite E. cbv zeta. by rewrite <-E, digits_val.
Qed.

Lemma isdigit_plain c : isdigit c = true -> isspace c = false /\ Ascii.eqb c "-"%char = false /\ Ascii.eqb c "+"%char = false.
Proof.
  unfold isdigit, isspace. intros Hc. destruct (Ascii.eqb_spec c "-"%char) as [->|]; [done|]. destruct (Ascii.eqb_spec c "+"%char) as [->|]; [done|].
  split; [|done]. revert Hc. generalize (nat_of_ascii c). intros k [H1%Nat.leb_le H2%Nat.leb_le]%andb_prop.
  rewrite (proj2 (Nat.eqb_neq k 32)), (proj2 (Nat.leb_gt k 13)), andb_false_r by lia. done.
Qed.

(** [sscanf] reads what [printf] has written. *)
Lemma sscanf_dec v rest : in_i32 v -> match rest with "" => True | String c _ => isdigit c = false end -> sscanf_int (dec v +:+ rest) = Some v.
Proof.
  intros Hv Hr. unfold in_i32 in Hv. unfold dec. destruct (Z.ltb_spec v 0).
  - change (sscanf_int _) with (scan_digits true (trim (fixed 10 10 (- v)) +:+ rest)). rewrite scan_digits_ok by (done || lia). f_equal. lia.
  - transitivity (scan_digits false (trim (fixed 10 10 v) +:+ rest)); [|rewrite scan_digits_ok by (done || lia); f_equal; lia].
    assert (Hd : all isdigit (trim (fixed 10 10 v)) = true) by (apply all_trim, all_fixed; [lia|by vm_compute]).
    destruct (trim_fixed_cons v) as (c & t & E). rewrite E in *. cbn [all] in Hd. apply andb_prop in Hd as [Hc _].
    destruct (isdigit_plain c Hc) as (H1 & H2 & H3). unfold sscanf_int. change (String c t +:+ rest) with (String c (t +:+ rest)).
    cbn [skip_space]. by rewrite H1, H2, H3.
Qed.

(** The commands of the debugger, typed as lines.  A number lets the program run to that time without the
    debugger, return executes one more instruction, c lets it run for ever. *)
Theorem debugger_commands {H} (heap : string) (hw : Hardware H) (registers : list Z) (d : DebugState) (rest : string) :
  length registers = NumTotalRegs -> Forall (fun '(_, p) => pi_type p <> NetworkRecvInt) (hw_pending hw) ->
  exists out,
    (forall n, in_i32 n -> Machine_Debugger heap hw registers d (dec n +:+ (newline +:+ rest)) = Ok (out, mkDebug (singleStep d) n, rest))
    /\ Machine_Debugger heap hw registers d (newline +:+ rest) = Ok (out, mkDebug (singleStep d) 0, rest)
    /\ Machine_Debugger heap hw registers d ("c" +:+ (newline +:+ rest)) = Ok (out, mkDebug false 0, rest)
    /\ Machine_Debugger heap hw registers d ("?" +:+ (newline +:+ rest)) = Ok (out +:+ debugger_help, mkDebug (singleStep d) 0, rest)
    /\ (forall n t, t < n -> debugger_due (mkDebug (singleStep d) n) t = false)
    /\ (forall t, debugger_due (mkDebug false 0) t = false).
Proof.
  intros Hr Hp. unfold Machine_Debugger, Interrupt_DumpState. rewrite (DumpState_text registers Hr).
  destruct (print_pending_ok _ Hp) as [pend ->].
  assert (Hl : exists name, intLevelNames !! IntStatus_number (hw_level hw) = Some name) by (destruct (hw_level hw); eauto).
  destruct Hl as [name ->]. cbn [deref mbind result_bind]. eexists. split_and!; try reflexivity.
  - intros n Hn. rewrite fgets_line; [|rewrite free_all; by apply all_dec|pose proof (length_dec n); lia].
    destruct (dec n +:+ (newline +:+ rest)) eqn:E; [by destruct (dec n)|]. by rewrite sscanf_dec.
  - intros n t Ht. unfold debugger_due. cbn. rewrite (proj2 (Z.leb_gt n t)) by done. apply andb_false_r.
Qed.
