(* ===== verification/UserMemory.v ===== *)
(** * The memory a user program sees

    With a linear page table whose frames are distinct, [ReadMem] and [WriteMem] of
    machine/translate.cc behave as accesses to one flat array of bytes, page after page,
    and an access that is misaligned or outside it ends in the kernel's assertion. *)

From S2P Require Import Prelude BitMap Interrupt Machine Mips MachineSafe.

Definition page (mem : list Z) (f : Z) : list Z := slice mem (Z.to_nat (f * PageSize)) (Z.to_nat PageSize).

(** The pages of the given frames as a flat array. *)
Definition space_bytes (mem : list Z) (fs : list Z) : list Z := fs ≫= page mem.

Definition vmem (m : Machine) : list Z := space_bytes (m_mainMemory m) (frames m).

(** ** Pages laid out one after the other *)

Lemma lookup_pages {A} (g : Z -> list A) (fs : list Z) (a k : nat) :
  (0 < k)%nat -> Forall (fun f => length (g f) = k) fs ->
  (fs ≫= g) !! a = (f ← fs !! (a `div` k)%nat; g f !! (a `mod` k)%nat).
Proof.
  intros Hk. revert a. induction fs as [|f fs IH]; intros a Hf; [done|].
  apply Forall_cons in Hf as [Hlen Hf]. rewrite bind_cons.
  destruct (decide (a < k)%nat) as [Hlt|Hge].
  - rewrite lookup_app_l by lia. by rewrite Nat.div_small, Nat.mod_small by done.
  - destruct (Nat.le_exists_sub k a) as (b & -> & _); [lia|]. rewrite lookup_app_r by lia.
    rewrite Hlen, Nat.add_sub, (IH b Hf).
    replace ((b + k) `div` k)%nat with (S (b `div` k)) by (rewrite <-(Nat.mul_1_l k) at 2; rewrite Nat.div_add by lia; lia).
    replace ((b + k) `mod` k)%nat with (b `mod` k)%nat; [done|].
    by rewrite <-(Nat.Div0.mod_add b 1 k), Nat.mul_1_l.
Qed.

Lemma length_pages {A} (g : Z -> list A) (fs : list Z) (k : nat) :
  Forall (fun f => length (g f) = k) fs -> length (fs ≫= g) = (length fs * k)%nat.
Proof. induction 1 as [|f fs Hf _ IH]; [done|]. rewrite bind_cons, length_app, IH, Hf. cbn. lia. Qed.

Definition frame_ok (f : Z) : Prop := 0 <= f < NumPhysPages.

Section Space.
Context (mem fs : list Z) (Hmem : Z.of_nat (length mem) = MemorySize) (Hfs : Forall frame_ok fs).

Lemma length_page f : frame_ok f -> length (page mem f) = 128%nat.
Proof.
  intros Hf. unfold page. change (Z.to_nat PageSize) with 128%nat. apply length_slice.
  unfold frame_ok, MemorySize, NumPhysPages, PageSize in *. lia.
Qed.

Lemma pages_length : Forall (fun f => length (page mem f) = 128%nat) fs.
Proof. eapply Forall_impl; [exact Hfs|]. intros f. apply length_page. Qed.

Lemma length_space : length (space_bytes mem fs) = (length fs * 128)%nat.
Proof. apply length_pages, pages_length. Qed.

Lemma lookup_space a :
  space_bytes mem fs !! a = (f ← fs !! (a `div` 128)%nat; mem !! (Z.to_nat (f * PageSize) + a `mod` 128)%nat).
Proof.
  unfold space_bytes. rewrite (lookup_pages _ _ a 128) by (lia || apply pages_length).
  destruct (fs !! (a `div` 128)%nat) as [f|]; [|done]. cbn [mbind option_bind]. unfold page. rewrite lookup_slice.
  rewrite decide_True; [done|]. exact (Nat.mod_upper_bound a 128 ltac:(lia)).
Qed.

End Space.

(** Bytes written to the frame of a page appear in the flat array. *)
Lemma space_splice mem fs addr f bs :
  Z.of_nat (length mem) = MemorySize -> Forall frame_ok fs -> NoDup fs -> 0 <= addr -> fs !! Z.to_nat (addr `div` 128) = Some f -> addr `mod` 128 + Z.of_nat (length bs) <= 128 ->
  space_bytes (splice mem (Z.to_nat (f * 128 + addr `mod` 128)) bs) fs = splice (space_bytes mem fs) (Z.to_nat addr) bs.
Proof.
  intros Hmem Hfs Hnd Haddr Hf Hfit.
  pose proof (Forall_lookup_1 _ _ _ _ Hfs Hf) as Hfr. unfold frame_ok, MemorySize, NumPhysPages, PageSize in Hfr, Hmem.
  pose proof (Z.mod_pos_bound addr 128 ltac:(lia)) as Hmod. pose proof (lookup_lt_Some _ _ _ Hf) as Hlt.
  assert (Hlen : Z.of_nat (length (splice mem (Z.to_nat (f * 128 + addr `mod` 128)) bs)) = MemorySize)
    by (rewrite length_splice; unfold MemorySize, NumPhysPages, PageSize; lia).
  assert (Hend : (Z.to_nat addr + length bs <= length (space_bytes mem fs))%nat)
    by (rewrite length_space by done; Z.div_mod_to_equations; lia).
  apply list_eq. intros a. rewrite lookup_space, lookup_splice, lookup_space by done.
  pose proof (Nat.div_mod_eq a 128) as Ha. pose proof (Nat.mod_upper_bound a 128 ltac:(lia)) as Ham.
  pose proof (Z.div_mod addr 128 ltac:(lia)) as Hu2. pose proof (Z.div_pos addr 128 ltac:(lia) ltac:(lia)) as Hq0.
  rewrite length_space in Hend by done.
  set (q := (a `div` 128)%nat) in *. set (r := (a `mod` 128)%nat) in *.
  set (q2 := addr `div` 128) in *. set (r2 := addr `mod` 128) in *. clearbody q r q2 r2.
  destruct (fs !! q) as [g|] eqn:Hg; cbn [mbind option_bind].
  2:{ rewrite decide_False; [done|]. apply lookup_ge_None in Hg. lia. }
  pose proof (Forall_lookup_1 _ _ _ _ Hfs Hg) as Hgr. unfold frame_ok, NumPhysPages, PageSize in *.
  rewrite lookup_splice by lia.
  destruct (decide (Z.to_nat addr <= a < Z.to_nat addr + length bs)%nat) as [Hd|Hd].
  - assert (Hv : q = Z.to_nat q2) by lia.
    rewrite Hv, Hf in Hg. injection Hg as <-. rewrite decide_True by lia. f_equal. lia.
  - rewrite decide_False; [done|]. intros He. apply Hd.
    assert (g = f) as -> by lia. assert (Hv : q = Z.to_nat q2) by (eapply NoDup_lookup; eauto). lia.
Qed.

Lemma length_splice_mem (mem : list Z) n bs :
  Z.of_nat (length mem) = MemorySize -> (n + length bs <= length mem)%nat ->
  Z.of_nat (length (splice mem n bs)) = MemorySize.
Proof. intros. by rewrite length_splice. Qed.

Lemma frames_range m : mwf m -> Forall frame_ok (frames m).
Proof. intros Hw. unfold frames. apply Forall_fmap. eapply Forall_impl; [apply (w_ok _ Hw)|]. by intros e [_ ?]. Qed.

Lemma length_vmem m : mwf m -> length (vmem m) = (length (frames m) * 128)%nat.
Proof. intros Hw. apply length_space; [apply Hw|by apply frames_range]. Qed.

(** ** The accesses *)

Definition aligned (addr size : Z) : Prop :=
  size = 1 \/ (size = 2 /\ Z.land addr 1 = 0) \/ (size = 4 /\ Z.land addr 3 = 0).

#[global] Instance aligned_dec addr size : Decision (aligned addr size).
Proof. unfold aligned. apply _. Defined.

(** The page of an address may be written. *)
Definition writable (m : Machine) (addr : Z) : Prop :=
  te_readOnly <$> table m !! Z.to_nat (u32 addr `div` PageSize) = Some false.

#[global] Instance writable_dec m addr : Decision (writable m addr).
Proof. unfold writable. apply _. Defined.

Definition accessible (m : Machine) (addr size : Z) (writing : bool) : Prop :=
  aligned addr size /\ u32 addr < Z.of_nat (length (vmem m)) /\ (writing = true -> writable m addr).

Lemma aligned_test addr size :
  size = 1 \/ size = 2 \/ size = 4 ->
  ((size =? 4) && negb (Z.land addr 3 =? 0)) || ((size =? 2) && negb (Z.land addr 1 =? 0)) = negb (bool_decide (aligned addr size)).
Proof.
  intros Hs. unfold aligned. destruct Hs as [->|[->| ->]].
  - by rewrite bool_decide_eq_true_2 by auto.
  - change (2 =? 4) with false. change (2 =? 2) with true. cbn [andb orb].
    destruct (decide (Z.land addr 1 = 0)) as [H|H].
    + rewrite bool_decide_eq_true_2, H by auto. done.
    + rewrite bool_decide_eq_false_2 by lia. destruct (Z.eqb_spec (Z.land addr 1) 0); done.
  - change (4 =? 4) with true. change (4 =? 2) with false. cbn [andb orb].
    destruct (decide (Z.land addr 3 = 0)) as [H|H].
    + rewrite bool_decide_eq_true_2, H by auto. done.
    + rewrite bool_decide_eq_false_2 by lia. destruct (Z.eqb_spec (Z.land addr 3) 0); done.
Qed.

(** The physical address of a virtual one. *)
Definition phys (m : Machine) (addr : Z) : Z :=
  default 0 (frames m !! Z.to_nat (u32 addr `div` PageSize)) * PageSize + u32 addr `mod` PageSize.

Section Access.
Context (m : Machine) (Hw : mwf m).

Lemma vpn_in_table addr :
  u32 addr < Z.of_nat (length (vmem m)) <-> (u32 addr `div` PageSize < Z.of_nat (length (table m))).
Proof.
  rewrite length_vmem by done. unfold frames. rewrite length_fmap.
  pose proof (u32_range addr) as Hu. unfold in_u32, PageSize in *. zpow. Z.div_mod_to_equations. lia.
Qed.

Lemma Translate_fails addr size writing :
  size = 1 \/ size = 2 \/ size = 4 -> ~ accessible m addr size writing ->
  exists ex, Machine_Translate addr size writing m = Ok (Next (ex, 0) m)
    /\ ex <> NoException /\ ex <> PageFaultException /\ ex <> SyscallException.
Proof.
  intros Hs Hacc. unfold Machine_Translate. rewrite aligned_test by done.
  destruct (bool_decide_reflect (aligned addr size)) as [Hal|Hal]; cbn [negb]; [|by exists AddressErrorException].
  destruct (w_table _ Hw) as (p & Hp & Ht).
  do 3 (rewrite (user_bind_Ok _ _ m _ m) by done). rewrite (w_tlb _ Hw), Hp.
  do 2 (rewrite (user_bind_Ok _ _ m tt m) by done). rewrite (w_size _ Hw), <-Hp.
  pose proof (vpn_in_table addr) as Hvpn.
  destruct (Z.leb_spec (Z.of_nat (length (table m))) (u32 addr `div` PageSize)) as [Hbig|Hlt];
    [exists AddressErrorException; by split|].
  assert (0 <= u32 addr `div` PageSize) by (pose proof (u32_range addr); unfold in_u32 in *; apply Z.div_pos; unfold PageSize; lia).
  destruct (lookup_lt_is_Some_2 (table m) (Z.to_nat (u32 addr `div` PageSize))) as [e He]; [lia|].
  destruct (Forall_lookup_1 _ _ _ _ (w_ok _ Hw) He) as [Hv Hph].
  rewrite (user_bind_Ok _ _ m (inr (m_pageTable m, Z.to_nat (u32 addr `div` PageSize))) m)
    by (rewrite (user_bind_Ok _ _ m e m) by (by apply table_entry_eq); by rewrite Hv).
  rewrite (user_bind_Ok _ _ m e m) by by apply table_entry_eq.
  destruct (te_readOnly e && writing) eqn:Hro; [exists ReadOnlyException; by split|].
  exfalso. apply Hacc. split; [done|]. split; [by apply Hvpn|]. intros ->. unfold writable. rewrite He. cbn. f_equal.
  by rewrite andb_true_r in Hro.
Qed.

Lemma Translate_succeeds addr size writing :
  size = 1 \/ size = 2 \/ size = 4 -> accessible m addr size writing ->
  exists m', Machine_Translate addr size writing m = Ok (Next (NoException, phys m addr) m')
    /\ minv m m' /\ te_readOnly <$> table m' = te_readOnly <$> table m /\ m_mainMemory m' = m_mainMemory m
    /\ translated m size (phys m addr) /\ u32 addr `mod` 128 + size <= 128
    /\ m_registers m' = m_registers m /\ m_bitMap m' = m_bitMap m.
Proof.
  intros Hs (Hal & Hin & Hwr). unfold Machine_Translate. rewrite aligned_test, bool_decide_eq_true_2 by done. cbn [negb].
  destruct (w_table _ Hw) as (p & Hp & Ht).
  do 3 (rewrite (user_bind_Ok _ _ m _ m) by done). rewrite (w_tlb _ Hw), Hp.
  do 2 (rewrite (user_bind_Ok _ _ m tt m) by done). rewrite (w_size _ Hw), <-Hp.
  pose proof (proj1 (vpn_in_table addr) Hin) as Hvpn. pose proof (u32_range addr) as Hu. unfold in_u32 in Hu.
  set (vpn := u32 addr `div` PageSize) in *. assert (0 <= vpn) by (apply Z.div_pos; unfold PageSize; lia).
  destruct (Z.leb_spec (Z.of_nat (length (table m))) vpn) as [Hbig|Hlt]; [lia|].
  destruct (lookup_lt_is_Some_2 (table m) (Z.to_nat vpn)) as [e He]; [lia|].
  destruct (Forall_lookup_1 _ _ _ _ (w_ok _ Hw) He) as [Hv Hph].
  rewrite (user_bind_Ok _ _ m (inr (m_pageTable m, Z.to_nat vpn)) m)
    by (rewrite (user_bind_Ok _ _ m e m) by (by apply table_entry_eq); by rewrite Hv).
  rewrite (user_bind_Ok _ _ m e m) by by apply table_entry_eq.
  assert (Hro : te_readOnly e && writing = false).
  { destruct writing; [|by rewrite andb_false_r]. specialize (Hwr eq_refl). unfold writable in Hwr.
    fold vpn in Hwr. rewrite He in Hwr. injection Hwr as ->. done. }
  rewrite Hro, u32_id by (unfold in_u32, NumPhysPages in *; lia).
  destruct (Z.leb_spec NumPhysPages (te_physicalPage e)); [lia|].
  set (e' := mkTE _ _ _ _ _ _ _).
  destruct (with_entry_inv m m (Z.to_nat vpn) e' e (minv_refl _ Hw) He eq_refl eq_refl) as (Hm' & Hr' & Hme').
  rewrite (user_bind_Ok _ _ m tt (with_entry (Z.to_nat vpn) e' m)) by (apply set_entry_eq; [done|by apply (lookup_lt_Some _ _ e)]).
  assert (Hfit : u32 addr `mod` 128 + size <= 128).
  { apply aligned_fits; [lia|]. pose proof (land_u32_low addr 1 ltac:(lia)) as H1. pose proof (land_u32_low addr 2 ltac:(lia)) as H3.
    change (Z.ones 1) with 1 in H1. change (Z.ones 2) with 3 in H3. by rewrite H1, H3. }
  pose proof (Z.mod_pos_bound (u32 addr) PageSize ltac:(unfold PageSize; lia)) as Hoff.
  assert (Hphys : phys m addr = te_physicalPage e * PageSize + u32 addr `mod` PageSize).
  { unfold phys, frames. fold vpn. rewrite list_lookup_fmap, He. done. }
  rewrite <-Hphys. eexists. split.
  - rewrite (user_bind_Ok _ _ _ tt (with_entry (Z.to_nat vpn) e' m)); [done|]. unfold ASSERT_u, lift.
    rewrite ASSERT_true; [done|]. rewrite Hphys. unfold MemorySize, NumPhysPages, PageSize in *. apply andb_true_iff. lia.
  - split; [done|]. split.
    { rewrite table_with_entry by done. rewrite list_fmap_insert. apply list_insert_id. by rewrite list_lookup_fmap, He. }
    split; [done|]. split; [|split; [done|split; [done|unfold with_entry; by rewrite Hp]]].
    exists (te_physicalPage e), (u32 addr `mod` PageSize).
    split; [apply list_elem_of_fmap; exists e; split; [done|by apply (list_elem_of_lookup_2 _ (Z.to_nat vpn))]|].
    unfold PageSize in *. split_and!; try done; lia.
Qed.
End Access.

(** An exception that is neither a system call nor a page fault ends in the assertion. *)
Lemma RaiseException_fails flags which addr m :
  mwf m -> in_i32 addr -> which <> PageFaultException -> which <> SyscallException ->
  Machine_RaiseException flags which addr m = Err AssertFailed.
Proof.
  intros Hw Ha Hp Hs.
  enough (uwp (fun e => e = AssertFailed) (fun _ => False) (Machine_RaiseException flags which addr) (fun _ _ => False) m) as H.
  { unfold uwp in H. by destruct (Machine_RaiseException flags which addr m) as [[]|]; simplify_eq. }
  unfold Machine_RaiseException.
  eapply uwp_bind, (set_reg_wp m); [by apply minv_refl|unfold BadVAddrReg; lia|done|done|]. intros H1.
  eapply uwp_bind, DelayedLoad_wp; [done|lia|unfold in_i32; lia|]. intros m2 [Hw2 Hc2] _.
  apply uwp_bind, uwp_modify, uwp_bind. unfold ExceptionHandler.
  apply uwp_bind. unfold Machine_ReadRegister. apply uwp_bind, uwp_assert_true; [done|].
  eapply (reg_wp m); [apply (minv_hw m m2); (done || apply Hw2)|lia|]. intros type _ _.
  rewrite !bool_decide_eq_false_2 by done. done.
Qed.

Section Pages.
Context (m : Machine) (Hw : mwf m).

(** An access stays within one page. *)
Lemma page_split addr size i :
  0 <= addr -> addr `mod` 128 + size <= 128 -> Z.of_nat i < size ->
  ((Z.to_nat addr + i) `div` 128)%nat = Z.to_nat (addr `div` 128)
  /\ ((Z.to_nat addr + i) `mod` 128)%nat = (Z.to_nat (addr `mod` 128) + i)%nat.
Proof.
  intros Ha Hf Hi. split; apply Nat2Z.inj; rewrite ?Nat2Z.inj_div, ?Nat2Z.inj_mod, !Nat2Z.inj_add;
    Z.div_mod_to_equations; lia.
Qed.

Lemma vmem_slice addr size :
  accessible m addr size false \/ accessible m addr size true ->
  u32 addr `mod` 128 + size <= 128 ->
  slice (vmem m) (Z.to_nat (u32 addr)) (Z.to_nat size) = slice (m_mainMemory m) (Z.to_nat (phys m addr)) (Z.to_nat size).
Proof.
  intros Hacc Hfit. assert (Hin : u32 addr < Z.of_nat (length (vmem m))) by (destruct Hacc as [(_ & ? & _)|(_ & ? & _)]; done).
  pose proof (u32_range addr) as Hu. unfold in_u32 in Hu.
  apply list_eq. intros i. rewrite !lookup_slice. case_decide as Hi; [|done].
  unfold vmem. rewrite lookup_space by (apply Hw || by apply frames_range). destruct (page_split (u32 addr) size i ltac:(lia) Hfit ltac:(lia)) as [-> ->].
  unfold phys. unfold PageSize in *.
  destruct (lookup_lt_is_Some_2 (frames m) (Z.to_nat (u32 addr `div` 128))) as [f Hf].
  { rewrite length_vmem in Hin by done. Z.div_mod_to_equations. lia. }
  rewrite Hf. cbn. f_equal. pose proof (Forall_lookup_1 _ _ _ _ (frames_range m Hw) Hf).
  pose proof (Z.mod_pos_bound (u32 addr) 128). unfold frame_ok in *. lia.
Qed.

Lemma vmem_splice m' addr bs :
  NoDup (frames m) -> frames m' = frames m ->
  u32 addr < Z.of_nat (length (vmem m)) -> u32 addr `mod` 128 + Z.of_nat (length bs) <= 128 ->
  m_mainMemory m' = splice (m_mainMemory m) (Z.to_nat (phys m addr)) bs ->
  vmem m' = splice (vmem m) (Z.to_nat (u32 addr)) bs.
Proof.
  intros Hnd Hfr Hin Hfit Hmem. pose proof (u32_range addr) as Hu. unfold in_u32 in Hu.
  destruct (lookup_lt_is_Some_2 (frames m) (Z.to_nat (u32 addr `div` 128))) as [f Hf].
  { rewrite length_vmem in Hin by done. Z.div_mod_to_equations. lia. }
  unfold vmem. rewrite Hfr, Hmem. unfold phys, PageSize. rewrite Hf. cbn [default from_option id].
  apply space_splice; [apply Hw|by apply frames_range|done|lia|done|done].
Qed.
End Pages.

(** ** Refinement *)

(** What the program asks of its memory. *)
Inductive access := Load (addr size : Z) | Store (addr size value : Z).

(** The accesses on the machine; a program that stops during an access would be a fault. *)
Definition mem_exec (flags : Flags) (garbage : Z) (a : access) (m : Machine) : result (option Z * Machine) :=
  match a with
  | Load addr size =>
      match Machine_ReadMem flags garbage addr size m with
      | Ok (Next v m') => Ok (v, m') | Ok (Stop _ _) => Err MemFault | Err e => Err e
      end
  | Store addr size value =>
      match Machine_WriteMem flags garbage addr size value m with
      | Ok (Next b m') => Ok (if b then Some 0 else None, m') | Ok (Stop _ _) => Err MemFault | Err e => Err e
      end
  end.

(** The abstract memory: the bytes, and which pages are read-only. *)
Definition amem : Type := list Z * list bool.

Definition amem_exec (a : access) (am : amem) : result (option Z * amem) :=
  match a with
  | Load addr size =>
      if decide (aligned addr size /\ u32 addr < Z.of_nat (length am.1))
      then Ok (Some (load_value size (slice am.1 (Z.to_nat (u32 addr)) (Z.to_nat size))), am)
      else Err AssertFailed
  | Store addr size value =>
      if decide (aligned addr size /\ u32 addr < Z.of_nat (length am.1)
                 /\ am.2 !! Z.to_nat (u32 addr `div` PageSize) = Some false)
      then Ok (Some 0, (splice am.1 (Z.to_nat (u32 addr)) (le_enc (Z.to_nat size) value), am.2))
      else Err AssertFailed
  end.

Definition view (m : Machine) : amem := (vmem m, te_readOnly <$> table m).

Definition access_ok (a : access) : Prop :=
  match a with Load addr size | Store addr size _ => in_i32 addr /\ (size = 1 \/ size = 2 \/ size = 4) end.

Section Refine.
Context (flags : Flags) (garbage : Z).

Lemma translate_retry_eq addr size writing m :
  mwf m -> in_i32 addr -> size = 1 \/ size = 2 \/ size = 4 ->
  (accessible m addr size writing ->
     exists m', translate_retry flags garbage addr size writing m = Ok (Next (Some (phys m addr)) m')
       /\ minv m m' /\ te_readOnly <$> table m' = te_readOnly <$> table m /\ m_mainMemory m' = m_mainMemory m
       /\ translated m size (phys m addr) /\ u32 addr `mod` 128 + size <= 128
       /\ m_registers m' = m_registers m /\ m_bitMap m' = m_bitMap m)
  /\ (~ accessible m addr size writing -> translate_retry flags garbage addr size writing m = Err AssertFailed).
Proof.
  intros Hw Ha Hs. unfold translate_retry. split; intros Hacc.
  - destruct (Translate_succeeds m Hw addr size writing Hs Hacc) as (m' & HT & H). exists m'. split; [|done].
    by rewrite (user_bind_Ok _ _ m _ m' HT).
  - destruct (Translate_fails m Hw addr size writing Hs Hacc) as (ex & HT & H1 & H2 & H3).
    rewrite (user_bind_Ok _ _ m _ m HT). rewrite decide_False by done.
    unfold mbind at 1, user_bind at 1. by rewrite RaiseException_fails.
Qed.

Lemma vmem_same m m' : frames m' = frames m -> m_mainMemory m' = m_mainMemory m -> vmem m' = vmem m.
Proof. unfold vmem. by intros -> ->. Qed.

Lemma mem_exec_refines a m :
  mwf m -> NoDup (frames m) -> access_ok a ->
  match mem_exec flags garbage a m with
  | Ok (r, m') => amem_exec a (view m) = Ok (r, view m') /\ minv m m'
  | Err e => amem_exec a (view m) = Err e
  end.
Proof.
  intros Hw Hnd Ha. destruct a as [addr size|addr size value]; destruct Ha as [Ha Hs]; cbn [mem_exec amem_exec view fst snd].
  - destruct (translate_retry_eq addr size false m Hw Ha Hs) as [Hok Hko].
    destruct (decide (aligned addr size /\ u32 addr < Z.of_nat (length (vmem m)))) as [[Hal Hin]|Hn].
    + assert (Hacc : accessible m addr size false) by by split_and!.
      destruct (Hok Hacc) as (m' & HT & Hm' & Hro & Hmem & Htr & Hfit & _). pose proof Hm' as [Hw' [Hf' _]].
      destruct (translated_range _ _ _ Htr) as [H0 H1].
      destruct (load_eq m' (Z.to_nat size) (phys m addr) Hw' H0) as (HL & _); [lia|].
      rewrite (vmem_slice m Hw addr size (or_introl Hacc) Hfit), <-Hmem.
      assert (HR : Machine_ReadMem flags garbage addr size m
        = Ok (Next (Some (load_value size (slice (m_mainMemory m') (Z.to_nat (phys m addr)) (Z.to_nat size)))) m')).
      { unfold Machine_ReadMem. rewrite (user_bind_Ok _ _ m _ m' HT).
        destruct Hs as [->|[->| ->]]; exact (user_bind_Ok (load _ _) _ m' _ m' HL). }
      rewrite HR. split; [|done]. unfold view. by rewrite Hro, (vmem_same m m' Hf' Hmem).
    + unfold Machine_ReadMem, mbind at 1, user_bind at 1. rewrite Hko; [done|]. intros (? & ? & _). by apply Hn.
  - destruct (translate_retry_eq addr size true m Hw Ha Hs) as [Hok Hko].
    destruct (decide (aligned addr size /\ u32 addr < Z.of_nat (length (vmem m)) /\ _)) as [(Hal & Hin & Hwr)|Hn].
    + assert (Hacc : accessible m addr size true)
        by (split_and!; [done|done|intros _; unfold writable; by rewrite list_lookup_fmap in Hwr]).
      destruct (Hok Hacc) as (m' & HT & Hm' & Hro & Hmem & Htr & Hfit & _). pose proof Hm' as [Hw' [Hf' _]].
      assert (Htr' : translated m' size (phys m addr)).
      { destruct Htr as (f & off & Hfr & Hrest). exists f, off. split; [by rewrite Hf'|done]. }
      destruct (store_inv m m' size (phys m addr) (le_enc (Z.to_nat size) value) Hm' Htr') as [HS Hm2];
        [rewrite length_le_enc; lia|apply le_enc_bytes|].
      set (m2 := m_set_memory _ m') in *.
      assert (HR : Machine_WriteMem flags garbage addr size value m = Ok (Next true m2)).
      { unfold Machine_WriteMem. rewrite (user_bind_Ok _ _ m _ m' HT).
        destruct Hs as [->|[->| ->]]; exact (user_bind_Ok (store _ _) _ m' _ m2 HS). }
      rewrite HR. split; [|done]. unfold view. pose proof Hm2 as [Hw2 [Hf2 _]].
      rewrite (vmem_splice m Hw m2 addr (le_enc (Z.to_nat size) value)); try done.
      * by replace (te_readOnly <$> table m2) with (te_readOnly <$> table m).
      * rewrite length_le_enc. lia.
      * cbn. by rewrite Hmem.
    + unfold Machine_WriteMem, mbind at 1, user_bind at 1. rewrite Hko; [done|]. intros (? & ? & Hwr).
      apply Hn. split_and!; [done|done|]. rewrite list_lookup_fmap. by apply Hwr.
Qed.

(** An aligned word of the program's memory is fetched; nothing but flags of its page
    table changes. *)
Lemma fetch_word addr m :
  mwf m -> in_i32 addr -> accessible m addr 4 false ->
  exists m', Machine_ReadMem flags garbage addr 4 m
      = Ok (Next (Some (int_of_bytes (slice (vmem m) (Z.to_nat (u32 addr)) 4))) m')
    /\ mwf m' /\ frames m' = frames m /\ m_mainMemory m' = m_mainMemory m
    /\ m_registers m' = m_registers m /\ m_bitMap m' = m_bitMap m.
Proof.
  intros Hw Ha Hacc. destruct (translate_retry_eq addr 4 false m Hw Ha ltac:(auto)) as [Hok _].
  destruct (Hok Hacc) as (m' & HT & [Hw' [Hf' _]] & _ & Hmem & Htr & Hfit & Hr & Hb). exists m'.
  destruct (translated_range _ _ _ Htr) as [H0 H1]. destruct (load_eq m' 4 (phys m addr) Hw' H0) as (HL & _); [lia|].
  split; [|done]. unfold Machine_ReadMem. rewrite (user_bind_Ok _ _ m _ m' HT).
  change 4%nat with (Z.to_nat 4). rewrite (vmem_slice m Hw addr 4 (or_introl Hacc) Hfit), <-Hmem.
  exact (user_bind_Ok (load _ 4) _ m' _ m' HL).
Qed.
End Refine.

(** C8.  On a machine without a TLB, the memory of a user program whose (linear) page table is
    well formed and maps distinct frames is a flat array: any sequence of
    loads and stores of 1, 2 or 4 bytes, at any 32-bit addresses, gives the values and
    the contents of the same sequence on one byte array (little-endian, a byte
    sign-extended, a half-word not); it ends in the kernel's assertion exactly at the
    first access that is misaligned, outside the array, or a store to a read-only page. *)
Theorem user_memory_refines_array (flags : Flags) (garbage : Z) (l : list access) (m : Machine) :
  mwf m -> NoDup (frames m) -> Forall access_ok l ->
  match run_ops (mem_exec flags garbage) l m with
  | Ok (rs, m') => run_ops amem_exec l (view m) = Ok (rs, view m') /\ minv m m'
  | Err e => run_ops amem_exec l (view m) = Err e
  end.
Proof.
  intros Hw Hnd Hl.
  assert (Hgen : forall m1, minv m m1 ->
    match run_ops (mem_exec flags garbage) l m1 with
    | Ok (rs, m') => run_ops amem_exec l (view m1) = Ok (rs, view m') /\ minv m m'
    | Err e => run_ops amem_exec l (view m1) = Err e
    end); [|by apply Hgen, minv_refl].
  induction Hl as [|a l Ha _ IH]; intros m1 Hm1; [done|]. cbn [run_ops].
  pose proof Hm1 as [Hw1 [Hf1 Hc1]].
  pose proof (mem_exec_refines flags garbage a m1 Hw1 ltac:(by rewrite Hf1) Ha) as Hstep.
  destruct (mem_exec flags garbage a m1) as [[r m2]|e]; cbn [mbind result_bind]; [|by rewrite Hstep].
  destruct Hstep as [-> [Hw2 [Hf2 Hc2]]]. cbn [mbind result_bind].
  assert (Hm2 : minv m m2).
  { split; [done|]. split; [congruence|]. intros b Hb. rewrite Hc2 by by rewrite Hf1. by apply Hc1. }
  specialize (IH m2 Hm2). destruct (run_ops (mem_exec flags garbage) l m2) as [[rs m3]|e]; cbn [mbind result_bind].
  - by destruct IH as [-> ?].
  - by rewrite IH.
Qed.

Lemma user_memory_refines_array_witness :
  let m := two_pages 0 in
  let l := [Store 132 4 (-2); Load 132 1; Load 132 2; Load 132 4; Load 133 4] in
  match run_ops (mem_exec (mkFlags false false false) 0) l m with
  | Ok (rs, m') => run_ops amem_exec l (view m) = Ok (rs, view m') /\ minv m m'
  | Err e => run_ops amem_exec l (view m) = Err e
  end.
Proof.
  apply (user_memory_refines_array (mkFlags false false false) 0
           [Store 132 4 (-2); Load 132 1; Load 132 2; Load 132 4; Load 133 4] (two_pages 0)).
  - apply two_pages_wf.
  - by apply (bool_decide_unpack _); vm_compute.
  - repeat constructor; unfold in_i32; lia.
Defined.
