(* ===== verification/AddrSpace.v ===== *)
(** * userprog/addrspace.cc and bin/noff.h: address spaces

    The loader of user programs and the operations of a context switch on the user
    machine.  The executable is any file that promises [ReadableFile]: the loader only
    calls [ReadAt]. *)

From S2P Require Import Prelude BitMap Disk FileHdr OpenFile Interrupt Machine Mips MachineSafe UserMemory.

(** ** What the loader needs of a file *)

(** Reading returns the bytes at the position, cut at the end of file, and leaves the
    contents alone. *)
Class ReadableFile (F : Type) := {
  rf_ReadAt : F -> Z -> Z -> result (list Z * F);
  rf_ok : F -> Prop;
  rf_content : F -> list Z;
  rf_bytes f : rf_ok f -> Forall is_byte (rf_content f);
  rf_spec f n pos : rf_ok f -> 0 <= pos -> pos + n < 2 ^ 31 ->
    exists f', rf_ReadAt f n pos = Ok (slice (rf_content f) (Z.to_nat pos) (Z.to_nat n), f')
      /\ rf_ok f' /\ rf_content f' = rf_content f
}.

(** Open files of at most 14 sectors promise it. *)
Definition OpenFile_ReadAt_on {D} `{SectorDevice D} (fd : OpenFile * D) (n pos : Z) : result (list Z * (OpenFile * D)) :=
  '(bs, d) ← OpenFile_ReadAt fd.1 fd.2 n pos; Ok (bs, (fd.1, d)).

#[global] Program Instance OpenFile_readable {D} `{SectorDevice D} : ReadableFile (OpenFile * D) := {|
  rf_ReadAt := OpenFile_ReadAt_on;
  rf_ok fd := direct_file (of_hdr fd.1) /\ sd_valid fd.2;
  rf_content fd := file_content (of_hdr fd.1) fd.2
|}.
Next Obligation. intros D HD [f d] [Hf Hd]. cbn in *. by apply file_content_bytes. Qed.
Next Obligation.
  intros D HD [[h seek hs] d] n pos [Hf Hd] Hp Hn. cbn in *.
  destruct (ReadAt_any h seek hs d n pos Hf Hd Hp Hn) as (d' & HR & Hd' & Hs).
  exists (mkOpenFile h seek hs, d'). unfold OpenFile_ReadAt_on. cbn. rewrite HR. cbn.
  split; [done|]. split; [done|]. symmetry. by apply file_content_same.
Qed.

(** The bytes themselves. *)
#[global] Program Instance bytes_readable : ReadableFile (list Z) := {|
  rf_ReadAt bs n pos := Ok (slice bs (Z.to_nat pos) (Z.to_nat n), bs);
  rf_ok bs := Forall is_byte bs;
  rf_content bs := bs
|}.
Next Obligation. done. Qed.
Next Obligation. intros. by exists f. Qed.

(** ** The object file *)

Definition NOFFMAGIC : Z := 0xbadfad.
Definition UserStackSize : Z := 1024.

Record Segment := mkSegment { sg_virtualAddr : Z; sg_inFileAddr : Z; sg_size : Z }.
Record NoffHeader := mkNoff { noffMagic : Z; nf_code : Segment; nf_initData : Segment; nf_uninitData : Segment }.

(** [sizeof(NoffHeader)] *)
Definition noff_size : Z := 40.

Definition int_at (bs : list Z) (k : nat) : Z := int_of_bytes (slice bs (4 * k) 4).

Definition segment_at (bs : list Z) (k : nat) : Segment :=
  mkSegment (int_at bs k) (int_at bs (k + 1)) (int_at bs (k + 2)).

(** The bytes of the struct, on the host. *)
Definition noff_of_bytes (bs : list Z) : NoffHeader :=
  mkNoff (int_at bs 0) (segment_at bs 1) (segment_at bs 4) (segment_at bs 7).

(** translate.cc; [big] is the compile-time switch HOST_IS_BIG_ENDIAN. *)
Definition WordToHost (big : bool) (word : Z) : Z :=
  if big then
    Z.lor (Z.lor (Z.lor (Z.land (Z.shiftr word 24) 0xff) (Z.land (Z.shiftr word 8) 0xff00))
                 (Z.land (u32 (Z.shiftl word 8)) 0xff0000))
          (Z.land (u32 (Z.shiftl word 24)) 0xff000000)
  else word.

Definition ShortToHost (big : bool) (shortword : Z) : Z :=
  if big then Z.lor (Z.land (Z.shiftl shortword 8) 0xff00) (Z.land (Z.shiftr shortword 8) 0xff) else shortword.

Definition WordToMachine (big : bool) (word : Z) : Z := WordToHost big word.
Definition ShortToMachine (big : bool) (shortword : Z) : Z := ShortToHost big shortword.

Definition swap_int (big : bool) (x : Z) : Z := i32 (WordToHost big (u32 x)).

Definition swap_segment (big : bool) (s : Segment) : Segment :=
  mkSegment (swap_int big (sg_virtualAddr s)) (swap_int big (sg_inFileAddr s)) (swap_int big (sg_size s)).

Definition SwapHeader (big : bool) (h : NoffHeader) : NoffHeader :=
  mkNoff (swap_int big (noffMagic h)) (swap_segment big (nf_code h)) (swap_segment big (nf_initData h))
    (swap_segment big (nf_uninitData h)).

(** ** Address spaces *)

Record AddrSpace := mkSpace { as_pageTable : option positive; as_numPages : Z }.

(** [new TranslationEntry[n]]; every field of every entry is assigned before it is read. *)
Definition new_table (n : nat) : user (option positive) := fun m =>
  let p := fresh (dom (m_tables m)) in
  Ok (Next (Some p) (m_set_tables (<[p := replicate n (mkTE 0 0 false false false false 0)]> (m_tables m)) m)).

(** [delete pageTable] *)
Definition delete_table (p : option positive) : user unit := fun m =>
  p ← deref p; _ ← deref (m_tables m !! p); Ok (Next tt (m_set_tables (delete p (m_tables m)) m)).

(** The translation is set up entry by entry. *)
Fixpoint map_pages (p : option positive) (idxs : list nat) : user unit :=
  match idxs with
  | [] => mret tt
  | i :: idxs =>
      frame ← Machine_Find;
      set_entry p i (mkTE (Z.of_nat i) frame true false false false 0) ;;
      map_pages p idxs
  end.

Section Loader.
Context (flags : Flags) {F : Type} `{ReadableFile F}.

(** A read of no bytes writes nothing. *)
Definition store_read (pa : Z) (bs : list Z) : user unit :=
  match bs with [] => mret tt | _ => store pa bs end.

(** [pageTable[vpn]] for an [int] index. *)
Definition page_entry (p : option positive) (vpn : Z) : user TranslationEntry :=
  if vpn <? 0 then lift (Err MemFault) else table_entry p (Z.to_nat vpn).

(** The byte-by-byte copy of a segment through the page table. *)
Fixpoint load_bytes (p : option positive) (virtualAddr : Z) (js : list Z) (pos : Z) (f : F) : user F :=
  match js with
  | [] => mret f
  | j :: js =>
      let va := i32 (virtualAddr + j) in
      e ← page_entry p (va `quot` PageSize);
      let paddr := i32 (te_physicalPage e * PageSize + va `rem` PageSize) in
      '(bs, f) ← lift (rf_ReadAt f 1 pos);
      store_read paddr bs ;;
      load_bytes p virtualAddr js (i32 (pos + 1)) f
  end.

Definition load_segment (p : option positive) (s : Segment) (f : F) : user F :=
  if 0 <? sg_size s then
    if MULTI_THREAD flags then load_bytes p (sg_virtualAddr s) (seqZ 0 (sg_size s)) (sg_inFileAddr s) f
    else '(bs, f) ← lift (rf_ReadAt f (sg_size s) (sg_inFileAddr s));
         store_read (sg_virtualAddr s) bs ;; mret f
  else mret f.

(** [AddrSpace::AddrSpace], on a little-endian host; [garbage] is what the local variable
    [noffH] holds before it is read. *)
Definition AddrSpace_new (garbage : list Z) (executable : F) : user (AddrSpace * F) :=
  '(bs, f) ← lift (rf_ReadAt executable noff_size 0);
  let noffH := noff_of_bytes (splice (take 40 (garbage ++ replicate 40 0)) 0 bs) in
  let noffH := if negb (noffMagic noffH =? NOFFMAGIC) && (WordToHost false (u32 (noffMagic noffH)) =? NOFFMAGIC)
               then SwapHeader false noffH else noffH in
  ASSERT_u (noffMagic noffH =? NOFFMAGIC) ;;
  let size := u32 (sg_size (nf_code noffH) + sg_size (nf_initData noffH) + sg_size (nf_uninitData noffH) + UserStackSize) in
  let numPages := divRoundUp size PageSize in
  let size := u32 (numPages * PageSize) in
  ASSERT_u (numPages <=? NumPhysPages) ;;
  p ← new_table (Z.to_nat numPages);
  map_pages p (seq 0 (Z.to_nat numPages)) ;;
  store 0 (replicate (Z.to_nat size) 0) ;;
  f ← load_segment p (nf_code noffH) f;
  f ← load_segment p (nf_initData noffH) f;
  mret (mkSpace p numPages, f).
End Loader.

(** [AddrSpace::~AddrSpace] *)
Definition AddrSpace_delete (sp : AddrSpace) : user unit :=
  ClearAll_loop (as_pageTable sp) (seq 0 (Z.to_nat (as_numPages sp))) ;;
  delete_table (as_pageTable sp).

Fixpoint write_zeros (idxs : list nat) : user unit :=
  match idxs with [] => mret tt | i :: idxs => Machine_WriteRegister (Z.of_nat i) 0 ;; write_zeros idxs end.

Definition AddrSpace_InitRegisters (sp : AddrSpace) : user unit :=
  write_zeros (seq 0 NumTotalRegs) ;;
  Machine_WriteRegister PCReg 0 ;;
  Machine_WriteRegister NextPCReg 4 ;;
  Machine_WriteRegister StackReg (i32 (as_numPages sp * PageSize - 16)).

Fixpoint invalidate (p : option positive) (idxs : list nat) : user unit :=
  match idxs with
  | [] => mret tt
  | i :: idxs =>
      e ← table_entry p i;
      set_entry p i (mkTE (te_virtualPage e) (te_physicalPage e) false (te_readOnly e) (te_use e) (te_dirty e) (te_hitRate e)) ;;
      invalidate p idxs
  end.

Definition AddrSpace_SaveState : user unit :=
  p ← gets m_tlb; invalidate p (seq 0 TLBSize).

Definition AddrSpace_RestoreState (flags : Flags) (sp : AddrSpace) : user unit :=
  modify (if USE_TLB flags then m_set_tlb (as_pageTable sp) else m_set_pageTable (as_pageTable sp)) ;;
  modify (m_set_pageTableSize (as_numPages sp)).

(** ** threads/thread.cc, threads/scheduler.cc: the user registers on a context switch *)

Fixpoint read_registers (idxs : list nat) : user (list Z) :=
  match idxs with
  | [] => mret []
  | i :: idxs => v ← Machine_ReadRegister (Z.of_nat i); vs ← read_registers idxs; mret (v :: vs)
  end.

(** [Thread::SaveUserState]: the new contents of [userRegisters]. *)
Definition Thread_SaveUserState : user (list Z) := read_registers (seq 0 NumTotalRegs).

Fixpoint write_registers (i : nat) (vs : list Z) : user unit :=
  match vs with
  | [] => mret tt
  | v :: vs => Machine_WriteRegister (Z.of_nat i) v ;; write_registers (S i) vs
  end.

(** [Thread::RestoreUserState], for the array of [NumTotalRegs] saved values. *)
Definition Thread_RestoreUserState (userRegisters : list Z) : user unit := write_registers 0 userRegisters.

(** [Thread::initUserRegister] *)
Definition Thread_initUserRegister (sp : AddrSpace) : user unit :=
  write_zeros (seq 0 NumTotalRegs) ;;
  Machine_WriteRegister PCReg 0 ;;
  Machine_WriteRegister NextPCReg 4 ;;
  Machine_WriteRegister StackReg (i32 (as_numPages sp * PageSize - 16)).

(** The user part of [Scheduler::Run], before and after the switch. *)
Definition switch_out : user (list Z) := regs ← Thread_SaveUserState; AddrSpace_SaveState ;; mret regs.
Definition switch_in (flags : Flags) (sp : AddrSpace) (regs : list Z) : user unit :=
  Thread_RestoreUserState regs ;; AddrSpace_RestoreState flags sp.

(** ** The page table of a new address space *)

Definition entries (k : nat) (fs : list Z) : list TranslationEntry :=
  imap (fun j f => mkTE (Z.of_nat (k + j)) f true false false false 0) fs.

Lemma entries_cons k f fs : entries k (f :: fs) = mkTE (Z.of_nat k) f true false false false 0 :: entries (S k) fs.
Proof.
  unfold entries. cbn. rewrite Nat.add_0_r. f_equal. apply imap_ext. intros i x _. cbn. do 2 f_equal. lia.
Qed.

Lemma entries_frames k fs : te_physicalPage <$> entries k fs = fs.
Proof. revert k. induction fs as [|f fs IH]; intros k; [done|]. rewrite entries_cons. cbn. by rewrite IH. Qed.

Lemma entries_Forall (P : Z -> Prop) k fs : Forall P fs -> Forall (fun e => P (te_physicalPage e)) (entries k fs).
Proof. intros Hp. revert k. induction Hp as [|f fs Hf _ IH]; intros k; [done|]. rewrite entries_cons. by constructor. Qed.

Lemma length_entries k fs : length (entries k fs) = length fs.
Proof. apply length_imap. Qed.

Lemma entries_lookup k fs i f : fs !! i = Some f ->
  entries k fs !! i = Some (mkTE (Z.of_nat (k + i)) f true false false false 0).
Proof. intros Hf. unfold entries. by rewrite list_lookup_imap, Hf. Qed.

Lemma Find_eq m f rest :
  bm_wf (m_bitMap m) -> bm_free (m_bitMap m) = f :: rest -> 
  exists bm', Machine_Find m = Ok (Next f (m_set_bitMap bm' m)) /\ bm_wf bm'
    /\ bm_numBits bm' = bm_numBits (m_bitMap m) /\ bm_free bm' = rest.
Proof.
  intros Hb Hf. pose proof (BitMap_Find_free _ Hb) as HF. rewrite Hf in HF.
  destruct HF as (bm' & HF & Hb' & Hn & Hr & _). exists bm'. split; [|done].
  assert (f <> -1).
  { assert (Hin : f ∈ bm_free (m_bitMap m)) by (rewrite Hf; apply elem_of_cons; by left).
    apply bm_free_elem in Hin. lia. }
  unfold Machine_Find. rewrite (user_bind_Ok _ _ m (m_bitMap m) m) by done.
  rewrite (user_bind_Ok _ _ m (f, bm') m) by (unfold lift; by rewrite HF).
  rewrite (user_bind_Ok _ _ m tt (m_set_bitMap bm' m)) by done.
  rewrite (user_bind_Ok _ _ _ tt (m_set_bitMap bm' m)); [done|]. unfold ASSERT_u, lift.
  rewrite ASSERT_true; [done|]. destruct (Z.eqb_spec f (-1)); done.
Qed.

Lemma set_entry_at p m t i e : m_tables m !! p = Some t -> (i < length t)%nat ->
  set_entry (Some p) i e m = Ok (Next tt (m_set_tables (<[p := <[i := e]> t]> (m_tables m)) m)).
Proof.
  intros Ht Hi. unfold set_entry. cbn [deref mbind result_bind]. rewrite Ht. cbn [deref mbind result_bind].
  by destruct (lookup_lt_is_Some_2 t i Hi) as [e0 ->].
Qed.

Lemma map_pages_eq p fs rest : forall pre blank m,
  bm_wf (m_bitMap m) -> bm_free (m_bitMap m) = fs ++ rest ->
  m_tables m !! p = Some (pre ++ blank) -> length blank = length fs ->
  exists bm', map_pages (Some p) (seq (length pre) (length fs)) m
      = Ok (Next tt (m_set_bitMap bm' (m_set_tables (<[p := pre ++ entries (length pre) fs]> (m_tables m)) m)))
    /\ bm_wf bm' /\ bm_numBits bm' = bm_numBits (m_bitMap m) /\ bm_free bm' = rest.
Proof.
  induction fs as [|f fs IH]; intros pre blank m Hb Hfree Ht Hl.
  - apply nil_length_inv in Hl as ->. exists (m_bitMap m). split; [|done]. cbn. unfold mret, user_ret.
    rewrite insert_id by done. by destruct m.
  - destruct blank as [|b blank]; [done|]. cbn [length seq map_pages].
    destruct (Find_eq m f (fs ++ rest) Hb Hfree) as (bm1 & HF & Hb1 & Hn1 & Hf1).
    rewrite (user_bind_Ok _ _ m _ _ HF). set (m1 := m_set_bitMap bm1 m).
    set (e := mkTE (Z.of_nat (length pre)) f true false false false 0).
    rewrite (user_bind_Ok _ _ m1 tt (m_set_tables (<[p := pre ++ e :: blank]> (m_tables m)) m1)).
    2:{ rewrite (set_entry_at p m1 (pre ++ b :: blank)) by (done || rewrite length_app; cbn; lia).
        do 3 f_equal. f_equal. replace (length pre) with (length pre + 0)%nat by lia. by rewrite insert_app_r. }
    destruct (IH (pre ++ [e]) blank (m_set_tables (<[p := pre ++ e :: blank]> (m_tables m)) m1)) as (bm' & HM & H');
      [done|done|cbn; rewrite lookup_insert_eq, <-app_assoc; done|by injection Hl|].
    exists bm'. rewrite length_app, Nat.add_1_r in HM. rewrite HM. split; [|by rewrite <-Hn1].
    rewrite entries_cons. unfold m_set_bitMap, m_set_tables. cbn [m_tables]. by rewrite insert_insert_eq, <-app_assoc.
Qed.

(** ** Copying segments into memory *)

(** The bytes appear at the virtual address; frames of other programs are not touched. *)
Definition loaded (fs mem mem' : list Z) (addr : Z) (bs : list Z) : Prop :=
  length mem' = length mem /\ Forall is_byte mem'
  /\ space_bytes mem' fs = splice (space_bytes mem fs) (Z.to_nat addr) bs
  /\ forall a, Z.of_nat a `div` PageSize ∉ fs -> mem' !! a = mem !! a.

Lemma loaded_nil fs mem addr : Forall is_byte mem -> loaded fs mem mem addr [].
Proof. intros. split; [done|]. split; [done|]. by rewrite splice_nil. Qed.

Lemma m_set_memory_id m : m_set_memory (m_mainMemory m) m = m.
Proof. by destruct m. Qed.

Section Copy.
Context {F : Type} `{ReadableFile F} (flags : Flags).
Context (p : positive) (fs : list Z) (Hfs : Forall frame_ok fs) (Hnd : NoDup fs).

(** One byte. *)
Lemma store_byte m addr f b :
  Z.of_nat (length (m_mainMemory m)) = MemorySize -> Forall is_byte (m_mainMemory m) -> is_byte b ->
  0 <= addr -> fs !! Z.to_nat (addr `div` 128) = Some f ->
  exists mem', store (f * PageSize + addr `mod` PageSize) [b] m = Ok (Next tt (m_set_memory mem' m))
    /\ loaded fs (m_mainMemory m) mem' addr [b].
Proof.
  intros Hlen Hb Hbb Ha Hf. pose proof (Forall_lookup_1 _ _ _ _ Hfs Hf) as Hfr.
  unfold frame_ok, NumPhysPages in Hfr. unfold PageSize.
  pose proof (Z.mod_pos_bound addr 128 ltac:(lia)) as Hm. pose proof Hlen as Hlen'. unfold MemorySize, NumPhysPages, PageSize in Hlen'.
  exists (splice (m_mainMemory m) (Z.to_nat (f * 128 + addr `mod` 128)) [b]). split.
  - unfold store. destruct (Z.leb_spec 0 (f * 128 + addr `mod` 128)); [|lia]. cbn [length].
    destruct (Z.leb_spec (f * 128 + addr `mod` 128 + Z.of_nat 1) (Z.of_nat (length (m_mainMemory m)))); [done|lia].
  - split; [apply length_splice; cbn; lia|]. split; [by apply Forall_splice; [|constructor]|].
    split; [apply space_splice; cbn; done || lia|]. intros a Hna. rewrite lookup_splice by (cbn; lia).
    rewrite decide_False; [done|]. cbn [length]. intros Hd. apply Hna.
    replace (Z.of_nat a `div` PageSize) with f; [by apply list_elem_of_lookup_2 in Hf|].
    unfold PageSize. Z.div_mod_to_equations. lia.
Qed.

Lemma slice_cons {A} (l : list A) n k x : l !! n = Some x -> slice l n (S k) = x :: slice l (S n) k.
Proof. intros Hx. unfold slice. by rewrite (drop_S _ x). Qed.

Lemma loaded_cons mem mem1 mem2 addr b bs :
  Z.of_nat (length mem) = MemorySize -> 0 <= addr -> (Z.to_nat addr + S (length bs) <= length fs * 128)%nat ->
  loaded fs mem mem1 addr [b] -> loaded fs mem1 mem2 (addr + 1) bs -> loaded fs mem mem2 addr (b :: bs).
Proof.
  intros Hlen Ha Hfit (H1 & H2 & H3 & H4) (G1 & G2 & G3 & G4).
  split; [congruence|]. split; [done|]. split; [|intros a Hna; by rewrite G4, H4].
  rewrite G3, H3. replace (Z.to_nat (addr + 1)) with (Z.to_nat addr + length [b])%nat by (cbn; lia).
  rewrite splice_app; [done|]. rewrite length_space by done. cbn. lia.
Qed.

Lemma load_bytes_eq va c : forall j pos f m,
  m_tables m !! p = Some (entries 0 fs) ->
  Z.of_nat (length (m_mainMemory m)) = MemorySize -> Forall is_byte (m_mainMemory m) ->
  rf_ok f -> 0 <= va -> 0 <= j -> va + j + Z.of_nat c <= 128 * Z.of_nat (length fs) -> (length fs <= 32)%nat ->
  0 <= pos -> pos + Z.of_nat c <= Z.of_nat (length (rf_content f)) -> pos + Z.of_nat c < 2 ^ 31 - 1 ->
  exists f' mem', load_bytes (Some p) va (seqZ j (Z.of_nat c)) pos f m = Ok (Next f' (m_set_memory mem' m))
    /\ rf_ok f' /\ rf_content f' = rf_content f
    /\ loaded fs (m_mainMemory m) mem' (va + j) (slice (rf_content f) (Z.to_nat pos) c).
Proof.
  induction c as [|c IH]; intros j pos f m Ht Hlen Hb Hf Hva Hj Hfit Hpages Hp Hc Hov.
  - exists f, (m_mainMemory m). cbn [seqZ Z.of_nat]. split; [by rewrite m_set_memory_id|].
    split; [done|]. split; [done|]. by apply loaded_nil.
  - rewrite seqZ_cons by lia. replace (Z.pred (Z.of_nat (S c))) with (Z.of_nat c) by lia. cbn [load_bytes].
    rewrite (i32_id (va + j)) by (unfold in_i32; lia). unfold PageSize.
    rewrite Z.quot_div_nonneg, Z.rem_mod_nonneg by lia.
    destruct (lookup_lt_is_Some_2 fs (Z.to_nat ((va + j) `div` 128))) as [fr Hfr].
    { Z.div_mod_to_equations. lia. }
    pose proof (Forall_lookup_1 _ _ _ _ Hfs Hfr) as Hfok. unfold frame_ok, NumPhysPages in Hfok.
    set (e := mkTE (Z.of_nat (0 + Z.to_nat ((va + j) `div` 128))) fr true false false false 0).
    rewrite (user_bind_Ok _ _ m e m).
    2:{ unfold page_entry. pose proof (Z.div_pos (va + j) 128). destruct (Z.ltb_spec ((va + j) `div` 128) 0); [lia|].
        unfold table_entry. cbn [deref mbind result_bind]. rewrite Ht. cbn [deref mbind result_bind].
        rewrite (entries_lookup 0 fs _ fr Hfr). done. }
    destruct (rf_spec f 1 pos Hf Hp ltac:(lia)) as (f1 & HR & Hf1 & Hc1).
    destruct (lookup_lt_is_Some_2 (rf_content f) (Z.to_nat pos)) as [b Hbb]; [lia|].
    change (Z.to_nat 1) with 1%nat in HR. rewrite (slice_cons _ _ _ b Hbb) in HR. cbn [slice take] in HR.
    rewrite (user_bind_Ok _ _ m ([b], f1) m) by (unfold lift; by rewrite HR).
    pose proof (Z.mod_pos_bound (va + j) 128 ltac:(lia)) as Hmod.
    destruct (store_byte m (va + j) fr b) as (mem1 & HS & HL1); try done; [|lia|].
    { by apply (Forall_lookup_1 _ _ _ _ (rf_bytes f Hf) Hbb). }
    rewrite (user_bind_Ok _ _ m tt (m_set_memory mem1 m)).
    2:{ unfold PageSize in HS. cbn [store_read te_physicalPage e]. rewrite i32_id by (unfold in_i32; lia). exact HS. }
    destruct HL1 as (Hl1 & Hb1 & Hs1 & Ho1).
    rewrite i32_id by (unfold in_i32; lia).
    destruct (IH (Z.succ j) (pos + 1) f1 (m_set_memory mem1 m)) as (f' & mem' & HL & Hf' & Hc' & Hld);
      cbn [m_tables m_set_memory m_mainMemory]; try done; try (by rewrite Hl1); try lia.
    { rewrite Hc1. lia. }
    exists f', mem'. split; [exact HL|]. split; [done|]. split; [congruence|].
    cbn [m_mainMemory m_set_memory] in Hld. rewrite (slice_cons _ _ _ b Hbb).
    rewrite Hc1 in Hld.
    replace (Z.to_nat (pos + 1)) with (S (Z.to_nat pos)) in Hld by lia.
    apply (loaded_cons _ mem1); [done|lia| |done|by replace (va + j + 1) with (va + Z.succ j) by lia].
    rewrite length_slice by lia. lia.
Qed.
End Copy.

(** ** The constructor *)

(** The header stored in a file. *)
Definition file_header (content : list Z) : NoffHeader := noff_of_bytes (take 40 content).

Definition program_pages (h : NoffHeader) : Z :=
  divRoundUp (sg_size (nf_code h) + sg_size (nf_initData h) + sg_size (nf_uninitData h) + UserStackSize) PageSize.

Definition segment_ok (content : list Z) (pages : Z) (s : Segment) : Prop :=
  0 <= sg_size s
  /\ (0 < sg_size s -> 0 <= sg_virtualAddr s /\ sg_virtualAddr s + sg_size s <= 128 * pages
                      /\ 0 <= sg_inFileAddr s /\ sg_inFileAddr s + sg_size s <= Z.of_nat (length content)).

(** A well-formed object file whose program fits into main memory. *)
Record loadable (content : list Z) (h : NoffHeader) : Prop := {
  l_header : h = file_header content;
  l_length : 40 <= Z.of_nat (length content) < 2 ^ 31 - 1;
  l_magic : noffMagic h = NOFFMAGIC;
  l_code : segment_ok content (program_pages h) (nf_code h);
  l_data : segment_ok content (program_pages h) (nf_initData h);
  l_bss : 0 <= sg_size (nf_uninitData h);
  l_total : sg_size (nf_code h) + sg_size (nf_initData h) + sg_size (nf_uninitData h) + UserStackSize <= MemorySize
}.

Definition segment_bytes (content : list Z) (s : Segment) : list Z :=
  slice content (Z.to_nat (sg_inFileAddr s)) (Z.to_nat (sg_size s)).

Lemma loadable_pages content h : loadable content h -> 8 <= program_pages h <= 32.
Proof.
  intros [_ _ _ [Hc _] [Hd _] Hb Ht]. unfold program_pages, UserStackSize, MemorySize, NumPhysPages, PageSize in *.
  set (n := _ + 1024) in *. assert (1024 <= n) by lia. pose proof (divRoundUp_bounds n 128 ltac:(lia) ltac:(lia)). lia.
Qed.

Section New.
Context {F : Type} `{ReadableFile F} (flags : Flags).

(** Where a segment of a program with the frames [fs] is copied: through the page table with
    MULTI_THREAD, and otherwise to the physical addresses that equal the virtual ones, which
    are those of the lowest frames. *)
Definition load_frames (fs : list Z) : list Z := if MULTI_THREAD flags then fs else seqZ 0 (Z.of_nat (length fs)).

Lemma lookup_low_frames mem n a :
  Z.of_nat (length mem) = MemorySize -> 0 <= n <= 32 ->
  space_bytes mem (seqZ 0 n) !! a = if decide (Z.of_nat a < 128 * n) then mem !! a else None.
Proof.
  intros Hl Hn. rewrite lookup_space; [|done|].
  2:{ apply Forall_forall. intros x Hx%elem_of_seqZ. unfold frame_ok, NumPhysPages. lia. }
  pose proof (Nat.div_mod_eq a 128) as Hd. pose proof (Nat.mod_upper_bound a 128 ltac:(lia)) as Hm. case_decide as Ha.
  - rewrite lookup_seqZ_lt by lia. cbn [mbind option_bind]. f_equal. unfold PageSize. lia.
  - by rewrite lookup_seqZ_ge by lia.
Qed.

(** A copy to physical addresses, seen through the lowest frames. *)
Lemma loaded_low n mem va bs :
  Z.of_nat (length mem) = MemorySize -> Forall is_byte mem -> Forall is_byte bs -> 0 <= n <= 32 ->
  0 <= va -> va + Z.of_nat (length bs) <= 128 * n -> loaded (seqZ 0 n) mem (splice mem (Z.to_nat va) bs) va bs.
Proof.
  intros Hl Hb Hbs Hn Hva Hfit. assert (Hin : (Z.to_nat va + length bs <= length mem)%nat)
    by (unfold MemorySize, NumPhysPages, PageSize in Hl; lia).
  assert (Hlen : length (space_bytes mem (seqZ 0 n)) = Z.to_nat (128 * n)).
  { rewrite length_space; [rewrite length_seqZ; lia|done|].
    apply Forall_forall. intros x Hx%elem_of_seqZ. unfold frame_ok, NumPhysPages. lia. }
  split; [by apply length_splice|]. split; [by apply Forall_splice|]. split.
  - apply list_eq. intros a. rewrite lookup_splice by (rewrite Hlen; lia).
    rewrite !lookup_low_frames by (rewrite ?length_splice by done; done). rewrite lookup_splice by done.
    case_decide as Ha; [done|]. by rewrite decide_False by lia.
  - intros a Ha. rewrite lookup_splice by done. rewrite decide_False; [done|]. intros Hr. apply Ha, elem_of_seqZ.
    unfold PageSize. Z.div_mod_to_equations. lia.
Qed.

(** The copy without MULTI_THREAD: one read into physical memory. *)
Lemma load_whole_segment n va size pos f m :
  Z.of_nat (length (m_mainMemory m)) = MemorySize -> Forall is_byte (m_mainMemory m) -> rf_ok f ->
  Z.of_nat (length (rf_content f)) < 2 ^ 31 - 1 -> 0 < size -> 0 <= va -> va + size <= 128 * Z.of_nat n -> Z.of_nat n <= 32 ->
  0 <= pos -> pos + size <= Z.of_nat (length (rf_content f)) ->
  exists f' mem', ('(bs, f) ← lift (rf_ReadAt f size pos); store_read va bs ;; mret f) m = Ok (Next f' (m_set_memory mem' m))
    /\ rf_ok f' /\ rf_content f' = rf_content f
    /\ loaded (seqZ 0 (Z.of_nat n)) (m_mainMemory m) mem' va (slice (rf_content f) (Z.to_nat pos) (Z.to_nat size)).
Proof.
  intros Hlen Hb Hf Hlc Hs Hva Hfit Hn Hpos Hc. destruct (rf_spec f size pos Hf Hpos ltac:(lia)) as (f' & HR & Hf' & Hc').
  set (bs := slice _ _ _) in *. assert (Hl : length bs = Z.to_nat size) by (apply length_slice; lia).
  exists f', (splice (m_mainMemory m) (Z.to_nat va) bs). unfold MemorySize, NumPhysPages, PageSize in Hlen.
  rewrite (user_bind_Ok _ _ m (bs, f') m) by (unfold lift; by rewrite HR).
  rewrite (user_bind_Ok _ _ m tt (m_set_memory (splice (m_mainMemory m) (Z.to_nat va) bs) m)).
  - split; [done|]. split; [done|]. split; [done|]. apply loaded_low; try done; try lia. apply Forall_slice, (rf_bytes f Hf).
  - destruct bs as [|b bs]; [cbn in Hl; lia|]. unfold store_read, store. destruct (Z.leb_spec 0 va); [|lia].
    destruct (Z.leb_spec (va + Z.of_nat (length (b :: bs))) (Z.of_nat (length (m_mainMemory m)))); [done|lia].
Qed.

Lemma load_segment_eq p fs s f m pages :
  Forall frame_ok fs -> NoDup fs -> Z.of_nat (length fs) = pages -> pages <= 32 ->
  m_tables m !! p = Some (entries 0 fs) ->
  Z.of_nat (length (m_mainMemory m)) = MemorySize -> Forall is_byte (m_mainMemory m) ->
  rf_ok f -> Z.of_nat (length (rf_content f)) < 2 ^ 31 - 1 -> segment_ok (rf_content f) pages s ->
  exists f' mem', load_segment flags (Some p) s f m = Ok (Next f' (m_set_memory mem' m))
    /\ rf_ok f' /\ rf_content f' = rf_content f
    /\ loaded (load_frames fs) (m_mainMemory m) mem' (sg_virtualAddr s) (segment_bytes (rf_content f) s).
Proof.
  intros Hfs Hnd Hl H32 Ht Hlen Hb Hf Hlc (H0 & Hs). unfold load_segment, segment_bytes, load_frames.
  destruct (Z.ltb_spec 0 (sg_size s)) as [Hpos|Hz].
  - destruct (Hs Hpos) as (Hva & Hvs & Hif & His). destruct (MULTI_THREAD flags); [|by apply load_whole_segment; try done; lia].
    destruct (load_bytes_eq p fs Hfs Hnd (sg_virtualAddr s) (Z.to_nat (sg_size s)) 0 (sg_inFileAddr s) f m)
      as (f' & mem' & HL & Hf' & Hc' & Hld); try done; try lia.
    rewrite Z2Nat.id in HL by lia. rewrite Z.add_0_r in Hld. eauto 6.
  - exists f, (m_mainMemory m). replace (Z.to_nat (sg_size s)) with 0%nat by lia.
    split; [by rewrite m_set_memory_id|]. split; [done|]. split; [done|]. by apply loaded_nil.
Qed.

(** The memory after [bzero(machine->mainMemory, size)]. *)
Definition zeroed (mem : list Z) (size : Z) : list Z := splice mem 0 (replicate (Z.to_nat size) 0).

Lemma length_zeroed mem size : size <= Z.of_nat (length mem) -> length (zeroed mem size) = length mem.
Proof. intros. unfold zeroed. apply length_splice. rewrite length_replicate. lia. Qed.

Lemma zeroed_bytes mem size : Forall is_byte mem -> Forall is_byte (zeroed mem size).
Proof. intros. unfold zeroed. apply Forall_splice; [done|]. apply Forall_replicate. unfold is_byte. lia. Qed.

(** Constructing an address space with the frames [fs], the segments being copied into the
    frames [tf]: the state of the machine afterwards. *)
Definition space_loaded (m m' : Machine) (sp : AddrSpace) (p : positive) (h : NoffHeader) (content tf fs rest : list Z) : Prop :=
  sp = mkSpace (Some p) (program_pages h)
  /\ m_tables m !! p = None /\ m_tables m' = <[p := entries 0 fs]> (m_tables m)
  /\ m_registers m' = m_registers m /\ m_tlb m' = m_tlb m /\ m_pageTable m' = m_pageTable m
  /\ m_pageTableSize m' = m_pageTableSize m /\ m_status m' = m_status m
  /\ bm_wf (m_bitMap m') /\ bm_numBits (m_bitMap m') = bm_numBits (m_bitMap m) /\ bm_free (m_bitMap m') = rest
  /\ Z.of_nat (length (m_mainMemory m')) = MemorySize /\ Forall is_byte (m_mainMemory m')
  /\ (let mem0 := zeroed (m_mainMemory m) (128 * program_pages h) in
      space_bytes (m_mainMemory m') tf
        = splice (splice (space_bytes mem0 tf) (Z.to_nat (sg_virtualAddr (nf_code h))) (segment_bytes content (nf_code h)))
                 (Z.to_nat (sg_virtualAddr (nf_initData h))) (segment_bytes content (nf_initData h))
      /\ forall a, Z.of_nat a `div` PageSize ∉ tf -> m_mainMemory m' !! a = mem0 !! a).

(** With MULTI_THREAD the segments go to the frames of the program. *)
Definition space_built (m m' : Machine) (sp : AddrSpace) (p : positive) (h : NoffHeader) (content fs rest : list Z) : Prop :=
  space_loaded m m' sp p h content fs fs rest.

Lemma free_frames bm fs rest :
  bm_numBits bm = NumPhysPages -> bm_free bm = fs ++ rest -> Forall frame_ok fs /\ NoDup fs.
Proof.
  intros Hn Hfree. pose proof (bm_free_NoDup bm) as Hnd. rewrite Hfree in Hnd. apply NoDup_app in Hnd as (? & _).
  split; [|done]. apply Forall_forall. intros x Hx. assert (Hx' : x ∈ bm_free bm) by (rewrite Hfree; apply elem_of_app; by left).
  apply bm_free_elem in Hx'. unfold frame_ok. lia.
Qed.

(** The header read into memory that held [garbage]. *)
Lemma header_image garbage content : (40 <= length content)%nat ->
  splice (take 40 (garbage ++ replicate 40 0)) 0 (slice content 0 40) = take 40 content.
Proof.
  intros. unfold slice, splice. rewrite drop_0, take_0, length_take. cbn [app Nat.add].
  rewrite drop_ge by (rewrite length_take; lia). by rewrite app_nil_r.
Qed.

(** [bzero] *)
Lemma store_zeros n m : n <= Z.of_nat (length (m_mainMemory m)) ->
  store 0 (replicate (Z.to_nat n) 0) m = Ok (Next tt (m_set_memory (zeroed (m_mainMemory m) n) m)).
Proof.
  intros. unfold store. rewrite length_replicate.
  destruct (Z.leb_spec (0 + Z.of_nat (Z.to_nat n)) (Z.of_nat (length (m_mainMemory m)))); [done|lia].
Qed.

Lemma AddrSpace_new_loaded garbage f h m fs rest :
  rf_ok f -> loadable (rf_content f) h ->
  Z.of_nat (length (m_mainMemory m)) = MemorySize -> Forall is_byte (m_mainMemory m) ->
  bm_wf (m_bitMap m) -> bm_numBits (m_bitMap m) = NumPhysPages ->
  bm_free (m_bitMap m) = fs ++ rest -> Z.of_nat (length fs) = program_pages h ->
  exists sp p f' m', AddrSpace_new flags garbage f m = Ok (Next (sp, f') m')
    /\ rf_ok f' /\ rf_content f' = rf_content f /\ space_loaded m m' sp p h (rf_content f) (load_frames fs) fs rest.
Proof.
  intros Hf Hld Hlen Hb Hbm Hn Hfree Hfl. pose proof (loadable_pages _ _ Hld) as Hpg.
  destruct Hld as [Hh Hlc Hmagic Hcode Hdata Hbss Htot].
  destruct (free_frames _ _ _ Hn Hfree) as [Hfs Hnd]. unfold AddrSpace_new.
  destruct (rf_spec f noff_size 0 Hf ltac:(lia) ltac:(unfold noff_size; lia)) as (f1 & HR & Hf1 & Hc1).
  rewrite (user_bind_Ok _ _ m (slice (rf_content f) 0 40, f1) m) by (unfold lift; by rewrite HR).
  rewrite header_image by lia. fold (file_header (rf_content f)). rewrite <-Hh. rewrite Hmagic.
  change (negb (NOFFMAGIC =? NOFFMAGIC)) with false. cbn [andb].
  rewrite (user_bind_Ok _ _ m tt m) by (rewrite Hmagic; done).
  destruct Hcode as (Hcs & Hcode), Hdata as (Hds & Hdata). unfold MemorySize, NumPhysPages, PageSize, UserStackSize in Htot.
  rewrite (u32_id (_ + UserStackSize)) by (unfold in_u32, UserStackSize; lia). fold (program_pages h).
  rewrite (user_bind_Ok _ _ m tt m).
  2:{ unfold ASSERT_u, lift. rewrite ASSERT_true; [done|]. unfold NumPhysPages. lia. }
  rewrite u32_id by (unfold in_u32, PageSize; lia).
  set (p := fresh (dom (m_tables m))).
  assert (Hp : m_tables m !! p = None) by (apply not_elem_of_dom, is_fresh).
  set (blank := replicate (Z.to_nat (program_pages h)) (mkTE 0 0 false false false false 0)).
  set (m1 := m_set_tables (<[p := blank]> (m_tables m)) m).
  rewrite (user_bind_Ok _ _ m (Some p) m1) by done.
  destruct (map_pages_eq p fs rest [] blank m1) as (bm' & HM & Hbm' & Hn' & Hf');
    [done|done|cbn; by rewrite lookup_insert_eq|unfold blank; rewrite length_replicate; lia|].
  cbn [length app] in HM. replace (Z.to_nat (program_pages h)) with (length fs) by lia.
  set (m2 := m_set_bitMap bm' _) in HM. rewrite (user_bind_Ok _ _ m1 tt m2 HM).
  assert (Hmem2 : m_mainMemory m2 = m_mainMemory m) by done.
  assert (Htab2 : m_tables m2 = <[p := entries 0 fs]> (m_tables m)) by (cbn; by rewrite insert_insert_eq).
  set (mem0 := zeroed (m_mainMemory m) (128 * program_pages h)).
  unfold MemorySize, NumPhysPages, PageSize in Hlen.
  rewrite (user_bind_Ok _ _ m2 tt (m_set_memory mem0 m2)) by (unfold PageSize; rewrite Z.mul_comm; apply store_zeros; rewrite Hmem2; lia).
  assert (Hl0 : length mem0 = length (m_mainMemory m)) by (apply length_zeroed; lia).
  assert (Hb0 : Forall is_byte mem0) by by apply zeroed_bytes.
  destruct (load_segment_eq p fs (nf_code h) f1 (m_set_memory mem0 m2) (program_pages h)) as (f2 & mem2 & HL2 & Hf2 & Hc2 & Hld2);
    try done; try lia; [by cbn [m_tables m_set_memory]; rewrite Htab2, lookup_insert_eq
      |cbn; rewrite Hl0; done|rewrite Hc1; lia|by rewrite Hc1|].
  rewrite (user_bind_Ok _ _ _ f2 _ HL2). cbn [m_mainMemory m_set_memory] in Hld2. rewrite Hc1 in Hld2, Hc2.
  destruct Hld2 as (Hl2 & Hb2 & Hs2 & Ho2).
  destruct (load_segment_eq p fs (nf_initData h) f2 (m_set_memory mem2 (m_set_memory mem0 m2)) (program_pages h))
    as (f3 & mem3 & HL3 & Hf3 & Hc3 & Hld3);
    try done; try lia; [by cbn [m_tables m_set_memory]; rewrite Htab2, lookup_insert_eq
      |cbn; rewrite Hl2, Hl0; done|rewrite Hc2; lia|by rewrite Hc2|].
  rewrite (user_bind_Ok _ _ _ f3 _ HL3). cbn [m_mainMemory m_set_memory] in Hld3. rewrite Hc2 in Hld3, Hc3.
  destruct Hld3 as (Hl3 & Hb3 & Hs3 & Ho3).
  exists (mkSpace (Some p) (program_pages h)), p, f3. eexists. split; [reflexivity|]. split; [done|]. split; [congruence|].
  split; [done|]. split; [done|]. split; [exact Htab2|]. do 5 (split; [done|]). split; [done|]. split; [done|]. split; [done|].
  split; [cbn; rewrite Hl3, Hl2, Hl0; done|]. split; [done|]. split.
  - cbn [m_mainMemory m_set_memory]. rewrite Hs3, Hs2. done.
  - intros a Ha. cbn [m_mainMemory m_set_memory]. by rewrite Ho3, Ho2.
Qed.

Lemma AddrSpace_new_eq garbage f h m fs rest :
  MULTI_THREAD flags = true -> rf_ok f -> loadable (rf_content f) h ->
  Z.of_nat (length (m_mainMemory m)) = MemorySize -> Forall is_byte (m_mainMemory m) ->
  bm_wf (m_bitMap m) -> bm_numBits (m_bitMap m) = NumPhysPages ->
  bm_free (m_bitMap m) = fs ++ rest -> Z.of_nat (length fs) = program_pages h ->
  exists sp p f' m', AddrSpace_new flags garbage f m = Ok (Next (sp, f') m')
    /\ rf_ok f' /\ rf_content f' = rf_content f /\ space_built m m' sp p h (rf_content f) fs rest.
Proof.
  intros Hmt. unfold space_built. pose proof (AddrSpace_new_loaded garbage f h m fs rest) as HN. unfold load_frames in HN.
  by rewrite Hmt in HN.
Qed.
End New.

(** ** The destructor *)

Lemma Clear_eq m f :
  bm_wf (m_bitMap m) -> 0 <= f < bm_numBits (m_bitMap m) ->
  exists bm', Machine_Clear f m = Ok (Next tt (m_set_bitMap bm' m)) /\ bm_wf bm'
    /\ bm_numBits bm' = bm_numBits (m_bitMap m)
    /\ forall j, 0 <= j -> bm_bit bm' j = if decide (j = f) then false else bm_bit (m_bitMap m) j.
Proof.
  intros Hb Hf. unfold Machine_Clear. rewrite (user_bind_Ok _ _ m (m_bitMap m) m) by done.
  rewrite (user_bind_Ok _ _ m (bm_bit (m_bitMap m) f) m) by (unfold lift; by rewrite BitMap_Test_spec).
  destruct (bm_bit (m_bitMap m) f) eqn:Hbit.
  - destruct (BitMap_Clear_spec _ f Hb Hf) as (bm' & HC & Hb' & Hn & Hbits). exists bm'.
    rewrite (user_bind_Ok _ _ m bm' m) by (unfold lift; by rewrite HC). done.
  - exists (m_bitMap m). split; [by destruct m|]. split; [done|]. split; [done|]. intros j _. case_decide; [by subst|done].
Qed.

Lemma ClearAll_loop_eq p t k c : forall m,
  m_tables m !! p = Some t -> (k + c <= length t)%nat ->
  bm_wf (m_bitMap m) -> Forall (fun e => 0 <= te_physicalPage e < bm_numBits (m_bitMap m)) t ->
  exists bm', ClearAll_loop (Some p) (seq k c) m = Ok (Next tt (m_set_bitMap bm' m)) /\ bm_wf bm'
    /\ bm_numBits bm' = bm_numBits (m_bitMap m)
    /\ forall j, 0 <= j -> bm_bit bm' j = if decide (j ∈ te_physicalPage <$> slice t k c) then false else bm_bit (m_bitMap m) j.
Proof.
  revert k. induction c as [|c IH]; intros k m Ht Hk Hb Hall.
  - exists (m_bitMap m). cbn. split; [by destruct m|]. split; [done|]. split; [done|]. intros j _.
    rewrite decide_False; [done|]. apply not_elem_of_nil.
  - destruct (lookup_lt_is_Some_2 t k) as [e He]; [lia|]. pose proof (Forall_lookup_1 _ _ _ _ Hall He) as Hr.
    cbn [seq ClearAll_loop].
    rewrite (user_bind_Ok _ _ m e m) by (unfold table_entry; cbn [deref mbind result_bind]; rewrite Ht; cbn [deref mbind result_bind]; by rewrite He).
    destruct (Clear_eq m (te_physicalPage e) Hb Hr) as (bm1 & HC & Hb1 & Hn1 & Hbits1).
    rewrite (user_bind_Ok _ _ m tt _ HC).
    destruct (IH (S k) (m_set_bitMap bm1 m)) as (bm' & HL & Hb' & Hn' & Hbits'); cbn [m_tables m_set_bitMap m_bitMap];
      [done|lia|done|by rewrite Hn1|].
    exists bm'. split; [exact HL|]. split; [done|]. cbn [m_bitMap m_set_bitMap] in Hn', Hbits'. split; [congruence|]. intros j Hj.
    rewrite Hbits', Hbits1 by done. rewrite (slice_cons _ _ _ e He). rewrite fmap_cons.
    destruct (decide (j = te_physicalPage e)) as [->|Hne].
    + rewrite (decide_True (P := _ ∈ _ :: _)) by (apply elem_of_cons; by left). by case_decide.
    + destruct (decide (j ∈ te_physicalPage <$> slice t (S k) c)).
      * rewrite decide_True; [done|]. apply elem_of_cons. by right.
      * rewrite decide_False; [done|]. rewrite elem_of_cons. tauto.
Qed.

Lemma AddrSpace_delete_eq m p t :
  m_tables m !! p = Some t -> bm_wf (m_bitMap m) ->
  Forall (fun e => 0 <= te_physicalPage e < bm_numBits (m_bitMap m)) t ->
  exists bm', AddrSpace_delete (mkSpace (Some p) (Z.of_nat (length t))) m
      = Ok (Next tt (m_set_tables (delete p (m_tables m)) (m_set_bitMap bm' m)))
    /\ bm_wf bm' /\ bm_numBits bm' = bm_numBits (m_bitMap m)
    /\ forall j, 0 <= j -> bm_bit bm' j = if decide (j ∈ te_physicalPage <$> t) then false else bm_bit (m_bitMap m) j.
Proof.
  intros Ht Hb Hall. destruct (ClearAll_loop_eq p t 0 (length t) m Ht ltac:(lia) Hb Hall) as (bm' & HL & H').
  unfold slice in H'. rewrite drop_0, firstn_all in H'. exists bm'. split; [|done].
  unfold AddrSpace_delete. cbn [as_pageTable as_numPages]. rewrite Nat2Z.id, (user_bind_Ok _ _ m tt _ HL).
  unfold delete_table. cbn [deref mbind result_bind m_tables m_set_bitMap]. by rewrite Ht.
Qed.

Lemma free_delete bm1 bm2 bm fs rest :
  bm_free bm = fs ++ rest -> bm_free bm1 = rest -> bm_numBits bm1 = bm_numBits bm -> bm_numBits bm2 = bm_numBits bm ->
  (forall j, 0 <= j -> bm_bit bm2 j = if decide (j ∈ fs) then false else bm_bit bm1 j) ->
  bm_free bm2 = bm_free bm.
Proof.
  intros Hf H1 Hn1 Hn2 Hb. apply bm_free_ext; [done|]. intros j. rewrite Hf, elem_of_app, <-H1, !bm_free_elem, Hn1, Hn2.
  assert (Hfs : j ∈ fs -> 0 <= j < bm_numBits bm).
  { intros Hj. assert (Hin : j ∈ bm_free bm) by (rewrite Hf; apply elem_of_app; by left). apply bm_free_elem in Hin. tauto. }
  destruct (decide (0 <= j < bm_numBits bm)) as [Hr|Hr]; [|tauto]. rewrite Hb by lia. case_decide; tauto.
Qed.

(** ** The registers *)

Lemma WriteRegister_eq m (i : nat) v :
  length (m_registers m) = NumTotalRegs -> (i < NumTotalRegs)%nat ->
  Machine_WriteRegister (Z.of_nat i) v m = Ok (Next tt (m_set_registers (<[i := v]> (m_registers m)) m)).
Proof.
  intros Hl Hi. unfold Machine_WriteRegister. rewrite (user_bind_Ok _ _ m tt m).
  - rewrite set_reg_eq by lia. by rewrite Nat2Z.id.
  - unfold ASSERT_u, lift. rewrite ASSERT_true; [done|]. apply andb_true_iff. lia.
Qed.

Lemma ReadRegister_eq m (i : nat) v :
  length (m_registers m) = NumTotalRegs -> m_registers m !! i = Some v ->
  Machine_ReadRegister (Z.of_nat i) m = Ok (Next v m).
Proof.
  intros Hl Hv. pose proof (lookup_lt_Some _ _ _ Hv) as Hi. unfold Machine_ReadRegister. rewrite (user_bind_Ok _ _ m tt m).
  - apply reg_eq; [lia|]. by rewrite Nat2Z.id.
  - unfold ASSERT_u, lift. rewrite ASSERT_true; [done|]. apply andb_true_iff. lia.
Qed.

Lemma write_registers_eq vs : forall pre old m,
  m_registers m = pre ++ old -> length old = length vs -> length (m_registers m) = NumTotalRegs ->
  write_registers (length pre) vs m = Ok (Next tt (m_set_registers (pre ++ vs) m)).
Proof.
  induction vs as [|v vs IH]; intros pre old m Hr Hl Hn; cbn [write_registers].
  - apply nil_length_inv in Hl as ->. rewrite <-Hr. by destruct m.
  - destruct old as [|o old]; [done|]. injection Hl as Hl.
    rewrite (user_bind_Ok _ _ m tt (m_set_registers (pre ++ v :: old) m)).
    2:{ rewrite WriteRegister_eq; [|done|rewrite <-Hn, Hr, length_app; cbn; lia]. do 3 f_equal. rewrite Hr.
        replace (length pre) with (length pre + 0)%nat by lia. by rewrite insert_app_r. }
    specialize (IH (pre ++ [v]) old (m_set_registers (pre ++ v :: old) m)). rewrite length_app, Nat.add_1_r in IH. cbn in IH.
    rewrite IH; [by rewrite <-app_assoc|by rewrite <-app_assoc|done|].
    rewrite Hr, length_app in Hn. rewrite length_app. done.
Qed.

Lemma write_zeros_eq n : forall k, write_zeros (seq k n) = write_registers k (replicate n 0).
Proof. induction n as [|n IH]; intros k; [done|]. cbn [seq write_zeros replicate write_registers]. by rewrite IH. Qed.

Lemma read_registers_eq vs : forall pre m,
  m_registers m = pre ++ vs -> length (m_registers m) = NumTotalRegs ->
  read_registers (seq (length pre) (length vs)) m = Ok (Next vs m).
Proof.
  induction vs as [|v vs IH]; intros pre m Hr Hn; [done|]. cbn [length seq read_registers].
  rewrite (user_bind_Ok _ _ m v m) by (apply ReadRegister_eq; [done|rewrite Hr; apply list_lookup_middle; done]).
  specialize (IH (pre ++ [v]) m). rewrite length_app, Nat.add_1_r in IH.
  rewrite (user_bind_Ok _ _ m vs m); [done|]. apply IH; [by rewrite <-app_assoc|done].
Qed.

Lemma SaveUserState_eq m : length (m_registers m) = NumTotalRegs -> Thread_SaveUserState m = Ok (Next (m_registers m) m).
Proof. intros Hn. unfold Thread_SaveUserState. rewrite <-Hn. by apply (read_registers_eq _ []). Qed.

Lemma RestoreUserState_eq m regs :
  length (m_registers m) = NumTotalRegs -> length regs = NumTotalRegs ->
  Thread_RestoreUserState regs m = Ok (Next tt (m_set_registers regs m)).
Proof. intros Hn Hr. apply (write_registers_eq regs [] (m_registers m)); [done|congruence|done]. Qed.

(** The registers of a program about to start. *)
Definition start_registers (pages : Z) : list Z :=
  <[29%nat := 128 * pages - 16]> (<[35%nat := 4]> (replicate 40 0)).

Lemma InitRegisters_eq m p pages :
  length (m_registers m) = NumTotalRegs -> 0 <= pages <= 32 ->
  AddrSpace_InitRegisters (mkSpace p pages) m = Ok (Next tt (m_set_registers (start_registers pages) m)).
Proof.
  intros Hn Hp. unfold AddrSpace_InitRegisters. rewrite write_zeros_eq. cbn [as_numPages].
  rewrite (user_bind_Ok _ _ m tt (m_set_registers (replicate 40 0) m))
    by (apply (write_registers_eq (replicate 40 0) [] (m_registers m)); rewrite ?length_replicate; done).
  rewrite (user_bind_Ok _ _ _ tt (m_set_registers (replicate 40 0) m)) by done.
  rewrite (user_bind_Ok _ _ _ tt (m_set_registers (<[35%nat := 4]> (replicate 40 0)) m)) by done.
  change StackReg with (Z.of_nat 29). rewrite WriteRegister_eq by (done || unfold NumTotalRegs; lia).
  unfold start_registers. rewrite i32_id by (unfold in_i32, PageSize; lia). unfold PageSize. by rewrite Z.mul_comm.
Qed.
