(* ===== verification/Process.v ===== *)
(** * userprog/progtest.cc: running user programs

    [StartProcess1] and the properties of address spaces in the life of a program: what
    the loader puts into memory, which frames it takes and gives back, what a running
    program can change, and how the translation buffer is used. *)

From S2P Require Import Prelude BitMap Disk FileHdr OpenFile Interrupt Machine Mips MachineSafe UserMemory AddrSpace.

(** [StartProcess1] from the opened executable on, up to the [n]-th instruction of the
    program. *)
Definition StartProcess1 {F} `{ReadableFile F} (flags : Flags) (garbage : list Z) (junk : Z) (executable : F) (n : nat)
    : user unit :=
  '(space, _) ← AddrSpace_new flags garbage executable;
  AddrSpace_InitRegisters space ;;
  AddrSpace_RestoreState flags space ;;
  Machine_Run flags junk n.

(** [StartProcess] from the first opened executable up to [currentThread->Yield()]: two
    address spaces for two threads of the same program, the machine set up for the second.
    [executable1] is the file, opened again. *)
Definition StartProcess {F} `{ReadableFile F} (flags : Flags) (garbage garbage1 : list Z) (executable executable1 : F)
    : user (AddrSpace * AddrSpace) :=
  '(space, _) ← AddrSpace_new flags garbage executable;
  '(space1, _) ← AddrSpace_new flags garbage1 executable1;
  AddrSpace_InitRegisters space1 ;;
  AddrSpace_RestoreState flags space1 ;;
  mret (space, space1).

(** What a freshly loaded program should find in its memory. *)
Definition program_image (h : NoffHeader) (content : list Z) : list Z :=
  splice (splice (replicate (Z.to_nat (128 * program_pages h)) 0)
            (Z.to_nat (sg_virtualAddr (nf_code h))) (segment_bytes content (nf_code h)))
         (Z.to_nat (sg_virtualAddr (nf_initData h))) (segment_bytes content (nf_initData h)).

(** The machine between programs. *)
Record idle_machine (m : Machine) : Prop := {
  i_mem : Z.of_nat (length (m_mainMemory m)) = MemorySize;
  i_bytes : Forall is_byte (m_mainMemory m);
  i_bm : bm_wf (m_bitMap m);
  i_bits : bm_numBits (m_bitMap m) = NumPhysPages
}.

Lemma zeroed_space mem n :
  Z.of_nat (length mem) = MemorySize -> 0 <= n <= 32 ->
  space_bytes (zeroed mem (128 * n)) (seqZ 0 n) = replicate (Z.to_nat (128 * n)) 0.
Proof.
  intros Hl Hn. assert (Hfs : Forall frame_ok (seqZ 0 n)).
  { apply Forall_forall. intros x Hx. apply elem_of_seqZ in Hx. unfold frame_ok, NumPhysPages. lia. }
  assert (Hl0 : length (zeroed mem (128 * n)) = length mem)
    by (apply length_zeroed; rewrite Hl; unfold MemorySize, NumPhysPages, PageSize; lia).
  apply list_eq. intros a. rewrite lookup_space; [|by rewrite Hl0|done].
  destruct (decide (a < Z.to_nat (128 * n))%nat) as [Ha|Ha].
  - rewrite lookup_replicate_2 by done. pose proof (Nat.div_mod_eq a 128) as Hd. pose proof (Nat.mod_upper_bound a 128 ltac:(lia)) as Hm.
    rewrite (lookup_seqZ_lt 0 n (a `div` 128)) by lia. cbn [mbind option_bind]. unfold zeroed.
    unfold MemorySize, NumPhysPages, PageSize in Hl. rewrite lookup_splice by (rewrite length_replicate; lia).
    replace (Z.to_nat ((0 + Z.of_nat (a `div` 128)) * PageSize) + a `mod` 128)%nat with a by (unfold PageSize; lia).
    rewrite length_replicate, decide_True by lia. apply lookup_replicate_2. lia.
  - rewrite (lookup_ge_None_2 (replicate _ 0)) by (rewrite length_replicate; lia). rewrite lookup_seqZ_ge; [done|].
    pose proof (Nat.div_mod_eq a 128) as Hd. pose proof (Nat.mod_upper_bound a 128 ltac:(lia)) as Hm. lia.
Qed.

Lemma zeroed_high mem n a :
  Z.of_nat (length mem) = MemorySize -> 0 <= n <= 32 -> 128 * n <= Z.of_nat a -> zeroed mem (128 * n) !! a = mem !! a.
Proof.
  intros Hl Hn Ha. unfold MemorySize, NumPhysPages, PageSize in Hl. unfold zeroed.
  rewrite lookup_splice, length_replicate by (rewrite length_replicate; lia). rewrite decide_False by lia. done.
Qed.

Lemma seqZ_prefix n fs rest : fs ++ rest = seqZ 0 n -> fs = seqZ 0 (Z.of_nat (length fs)).
Proof.
  intros He. apply list_eq. intros i. destruct (decide (i < length fs)%nat) as [Hi|Hi].
  - rewrite lookup_seqZ_lt by lia.
    assert (Hl : (fs ++ rest) !! i = fs !! i) by by apply lookup_app_l. rewrite <-Hl, He.
    apply lookup_seqZ_lt. assert (Hle : length (fs ++ rest) = Z.to_nat n) by (rewrite He; apply length_seqZ).
    rewrite length_app in Hle. lia.
  - rewrite lookup_ge_None_2, lookup_seqZ_ge by lia. done.
Qed.

Lemma entries_ok k fs : Forall frame_ok fs -> Forall te_ok (entries k fs).
Proof. intros Hp. revert k. induction Hp as [|f fs Hf _ IH]; intros k; [done|]. rewrite entries_cons. by constructor. Qed.

Section Programs.
Context {F : Type} `{ReadableFile F} (flags : Flags).

Lemma load_frames_low (fs : list Z) (n : Z) : fs = seqZ 0 n -> 0 <= n -> load_frames flags fs = fs.
Proof. intros -> Hn. unfold load_frames. destruct (MULTI_THREAD flags); [done|]. f_equal. rewrite length_seqZ. lia. Qed.

Lemma load_program_ok (garbage : list Z) (f : F) (h : NoffHeader) (m : Machine) (fs rest : list Z) :
  rf_ok f -> loadable (rf_content f) h -> idle_machine m ->
  bm_free (m_bitMap m) = fs ++ rest -> Z.of_nat (length fs) = program_pages h ->
  exists sp p f' m', AddrSpace_new flags garbage f m = Ok (Next (sp, f') m')
    /\ rf_content f' = rf_content f /\ space_loaded m m' sp p h (rf_content f) (load_frames flags fs) fs rest
    /\ (bm_free (m_bitMap m) = seqZ 0 NumPhysPages ->
        space_bytes (m_mainMemory m') fs = program_image h (rf_content f)).
Proof.
  intros Hf Hld [Hm Hb Hbm Hn] Hfree Hl.
  destruct (AddrSpace_new_loaded flags garbage f h m fs rest) as (sp & p & f' & m' & HN & Hf' & Hc & Hsb); try done.
  exists sp, p, f', m'. split; [done|]. split; [done|]. split; [done|]. intros Hall. rewrite Hfree in Hall.
  pose proof (seqZ_prefix _ _ _ Hall) as Hseq. rewrite (load_frames_low fs _ Hseq) in Hsb by lia.
  destruct Hsb as (_ & _ & _ & _ & _ & _ & _ & _ & _ & _ & _ & _ & _ & Hsp & _).
  rewrite Hsp. unfold program_image. do 2 f_equal.
  rewrite Hseq, Hl. apply zeroed_space; [done|]. pose proof (loadable_pages _ _ Hld). lia.
Qed.

(** The loader, on any file that keeps its promises and in every build: a well-formed object
    file that fits is loaded, the lowest free frames, in order, become the frames of the
    program and only those are marked as used; the new page table maps page [i] to the
    [i]-th of them and is shared with no other address space; the code and the initialised
    data lie at their virtual addresses in the frames of the program with MULTI_THREAD, and
    in the lowest frames of the machine without; other frames change only where [bzero]
    clears the low end of main memory.  When no frame was in use, the program's memory is
    exactly its image, with zeros in the uninitialised data and the stack. *)
Theorem load_program (garbage : list Z) (f : F) (h : NoffHeader) (m : Machine) (fs rest : list Z) :
  rf_ok f -> loadable (rf_content f) h -> idle_machine m ->
  bm_free (m_bitMap m) = fs ++ rest -> Z.of_nat (length fs) = program_pages h ->
  exists sp p f' m', AddrSpace_new flags garbage f m = Ok (Next (sp, f') m')
    /\ rf_content f' = rf_content f /\ space_loaded m m' sp p h (rf_content f) (load_frames flags fs) fs rest
    /\ (bm_free (m_bitMap m) = seqZ 0 NumPhysPages ->
        space_bytes (m_mainMemory m') fs = program_image h (rf_content f)).
Proof. apply load_program_ok. Qed.

(** Loading a program destroys the memory of the others: the constructor of an address
    space clears main memory from physical address 0 up to the size of the new program,
    although its frames may be elsewhere, so every byte of a frame below that size that
    belongs to another address space is zero afterwards. *)
Theorem loader_wipes_frames (garbage : list Z) (f : F) (h : NoffHeader) (m : Machine) (fs rest : list Z) (a : nat) :
  MULTI_THREAD flags = true -> rf_ok f -> loadable (rf_content f) h -> idle_machine m ->
  bm_free (m_bitMap m) = fs ++ rest -> Z.of_nat (length fs) = program_pages h ->
  Z.of_nat a < 128 * program_pages h -> Z.of_nat a `div` PageSize ∉ fs ->
  exists sp f' m', AddrSpace_new flags garbage f m = Ok (Next (sp, f') m') /\ m_mainMemory m' !! a = Some 0.
Proof.
  intros Hmt Hf Hld [Hm Hb Hbm Hn] Hfree Hl Ha Hna.
  destruct (AddrSpace_new_eq flags garbage f h m fs rest Hmt) as (sp & p & f' & m' & HN & _ & _ & Hsb); try done.
  exists sp, f', m'. split; [done|].
  destruct Hsb as (_ & _ & _ & _ & _ & _ & _ & _ & _ & _ & _ & _ & _ & _ & Ho).
  rewrite (Ho a Hna). pose proof (loadable_pages _ _ Hld). unfold MemorySize, NumPhysPages, PageSize in Hm.
  unfold zeroed. rewrite lookup_splice by (rewrite length_replicate; lia).
  rewrite decide_True by (rewrite length_replicate; lia). apply lookup_replicate_2. lia.
Qed.

(** Frames in which every byte is the same hold the same bytes. *)
Lemma space_bytes_ext mem mem' fs :
  Z.of_nat (length mem) = MemorySize -> Z.of_nat (length mem') = MemorySize -> Forall frame_ok fs ->
  (forall a, Z.of_nat a `div` PageSize ∈ fs -> mem' !! a = mem !! a) -> space_bytes mem' fs = space_bytes mem fs.
Proof.
  intros Hl Hl' Hfs Ha. apply list_eq. intros a. rewrite !lookup_space by done.
  destruct (fs !! (a `div` 128)%nat) as [f|] eqn:Hf; [|done]. cbn [mbind option_bind]. apply Ha.
  pose proof (proj1 (Forall_lookup _ _) Hfs _ _ Hf) as Hr. unfold frame_ok in Hr.
  pose proof (Nat.mod_upper_bound a 128 ltac:(lia)) as Hm.
  replace (Z.of_nat (Z.to_nat (f * PageSize) + a `mod` 128) `div` PageSize) with f; [by eapply list_elem_of_lookup_2|].
  unfold PageSize. set (r := (a `mod` 128)%nat) in *. apply (Z.div_unique_pos _ 128 f (Z.of_nat r)); lia.
Qed.

(** The second space of [StartProcess]: the state of memory when both are built. *)
Lemma second_space (h : NoffHeader) (content : list Z) (m m1 m2 : Machine) (sp sp1 : AddrSpace) (p p1 : positive) (rest rest1 : list Z) :
  let n := program_pages h in
  Z.of_nat (length (m_mainMemory m)) = MemorySize -> 8 <= n <= 16 ->
  space_loaded m m1 sp p h content (load_frames flags (seqZ 0 n)) (seqZ 0 n) rest ->
  space_loaded m1 m2 sp1 p1 h content (load_frames flags (seqZ n n)) (seqZ n n) rest1 ->
  let former := space_bytes (m_mainMemory m) (seqZ n n) in
  (MULTI_THREAD flags = true ->
     space_bytes (m_mainMemory m2) (seqZ 0 n) = replicate (Z.to_nat (128 * n)) 0
     /\ space_bytes (m_mainMemory m2) (seqZ n n)
        = splice (splice former (Z.to_nat (sg_virtualAddr (nf_code h))) (segment_bytes content (nf_code h)))
                 (Z.to_nat (sg_virtualAddr (nf_initData h))) (segment_bytes content (nf_initData h)))
  /\ (MULTI_THREAD flags = false ->
     space_bytes (m_mainMemory m2) (seqZ 0 n) = program_image h content /\ space_bytes (m_mainMemory m2) (seqZ n n) = former).
Proof.
  intros n Hm Hn H1 H2 former. rewrite (load_frames_low (seqZ 0 n) n) in H1 by (done || lia).
  destruct H1 as (_ & _ & _ & _ & _ & _ & _ & _ & _ & _ & _ & Hl1 & _ & _ & Hout1).
  destruct H2 as (_ & _ & _ & _ & _ & _ & _ & _ & _ & _ & _ & Hl2 & _ & Hsp2 & Hout2). fold n in Hout1, Hsp2, Hout2.
  assert (Hok : forall a, 0 <= a -> a + n <= 32 -> Forall frame_ok (seqZ a n))
    by (intros a ? ?; apply Forall_forall; intros x Hx%elem_of_seqZ; unfold frame_ok, NumPhysPages; lia).
  assert (Hz1 : Z.of_nat (length (zeroed (m_mainMemory m1) (128 * n))) = MemorySize)
    by (rewrite length_zeroed; [done|rewrite Hl1; unfold MemorySize, NumPhysPages, PageSize; lia]).
  (* the frames of the second space, before anything is copied *)
  assert (Hhigh : forall a, Z.of_nat a `div` PageSize ∈ seqZ n n -> zeroed (m_mainMemory m1) (128 * n) !! a = m_mainMemory m !! a).
  { intros a Ha%elem_of_seqZ. assert (128 * n <= Z.of_nat a) by (unfold PageSize in Ha; Z.div_mod_to_equations; lia).
    rewrite zeroed_high by (done || lia). rewrite Hout1 by (rewrite elem_of_seqZ; lia). by apply zeroed_high; [|lia|]. }
  unfold load_frames in Hsp2, Hout2. split; intros Hmt; rewrite Hmt in Hsp2, Hout2.
  - split.
    + rewrite <-(zeroed_space (m_mainMemory m1) n) by (done || lia). apply space_bytes_ext; [done|done|apply Hok; lia|].
      intros a Ha%elem_of_seqZ. apply Hout2. rewrite elem_of_seqZ. lia.
    + rewrite Hsp2. do 2 f_equal. by apply space_bytes_ext; [done|done|apply Hok; lia|].
  - rewrite length_seqZ, Z2Nat.id in Hsp2, Hout2 by lia. split.
    + rewrite Hsp2, zeroed_space by (done || lia). done.
    + apply space_bytes_ext; [done|done|apply Hok; lia|]. intros a Ha. rewrite Hout2; [by apply Hhigh|].
      apply elem_of_seqZ in Ha. rewrite elem_of_seqZ. lia.
Qed.


(** C24.  An address space that is built from a well-formed object file, with enough frames free,
    and destroyed gives its frames back, in every build: the free frames are those from
    before, and so are the page tables of the other address spaces. *)
Theorem AddrSpace_roundtrip (garbage : list Z) (f : F) (h : NoffHeader) (m : Machine) (fs rest : list Z) :
  rf_ok f -> loadable (rf_content f) h -> idle_machine m ->
  bm_free (m_bitMap m) = fs ++ rest -> Z.of_nat (length fs) = program_pages h ->
  exists sp f' m1 m2, AddrSpace_new flags garbage f m = Ok (Next (sp, f') m1)
    /\ bm_free (m_bitMap m1) = rest
    /\ AddrSpace_delete sp m1 = Ok (Next tt m2)
    /\ bm_free (m_bitMap m2) = bm_free (m_bitMap m) /\ m_tables m2 = m_tables m /\ idle_machine m2.
Proof.
  intros Hf Hld [Hm Hb Hbm Hn] Hfree Hl.
  destruct (AddrSpace_new_loaded flags garbage f h m fs rest) as (sp & p & f' & m1 & HN & _ & _ & Hsb); try done.
  destruct Hsb as (-> & Hp & Ht & _ & _ & _ & _ & _ & Hbm1 & Hn1 & Hf1 & Hl1 & Hb1 & _).
  destruct (AddrSpace_delete_eq m1 p (entries 0 fs)) as (bm2 & HD & Hbm2 & Hn2 & Hbits).
  { rewrite Ht. apply lookup_insert_eq. }
  { done. }
  { rewrite Hn1. apply (entries_Forall (fun x => 0 <= x < _)). apply Forall_forall. intros x Hx.
    assert (Hx' : x ∈ bm_free (m_bitMap m)) by (rewrite Hfree; apply elem_of_app; by left). apply bm_free_elem in Hx'. lia. }
  rewrite length_entries, Hl in HD. rewrite entries_frames in Hbits.
  eexists _, f', m1, _. split; [exact HN|]. split; [done|]. split; [exact HD|]. cbn [m_bitMap m_set_tables m_set_bitMap m_tables].
  split; [eapply free_delete; eauto; congruence|]. split; [rewrite Ht; by apply delete_insert_id|].
  constructor; cbn; congruence || done.
Qed.

Lemma started_wf m1 m sp p h content tf fs rest :
  space_loaded m m1 sp p h content tf fs rest -> Forall frame_ok fs -> Z.of_nat (length fs) = program_pages h ->
  8 <= program_pages h <= 32 -> bm_numBits (m_bitMap m) = NumPhysPages -> m_tlb m = None ->
  let m2 := m_set_pageTableSize (program_pages h) (m_set_pageTable (Some p) (m_set_registers (start_registers (program_pages h)) m1)) in
  mwf m2 /\ frames m2 = fs /\ vmem m2 = space_bytes (m_mainMemory m1) fs.
Proof.
  intros (_ & Hp & Ht & Hr & Htlb & _ & _ & _ & Hbm & Hnb & _ & Hl & Hb & _) Hfs Hfl Hpg Hn Hno m2.
  assert (Htab : table m2 = entries 0 fs) by (unfold table, m2; cbn; by rewrite Ht, lookup_insert_eq).
  assert (Hfr : frames m2 = fs) by (unfold frames; rewrite Htab; apply entries_frames).
  split; [|split; [done|unfold vmem; by rewrite Hfr]].
  constructor; rewrite ?Htab.
  - reflexivity.
  - unfold m2, start_registers. cbn [m_registers m_set_pageTableSize m_set_pageTable m_set_registers].
    apply Forall_insert; [|unfold in_i32; lia]. apply Forall_insert; [|unfold in_i32; lia].
    apply Forall_replicate. unfold in_i32. lia.
  - exists 0. split; [reflexivity|lia].
  - exact Hl.
  - exact Hb.
  - cbn. by rewrite Htlb.
  - exists p. split; [done|]. cbn. by rewrite Ht, lookup_insert_eq.
  - rewrite length_entries. cbn. lia.
  - by apply entries_ok.
  - split; [done|]. cbn. congruence.
Qed.

(** C7.  A user program is confined to its address space, on a machine without a TLB (the
    filesys and network builds).  A well-formed object file is loaded while enough frames are
    free and then run for any number of instructions, whatever its code does: compared with
    the memory just after the loading, no byte outside the frames that its page table maps
    has changed, until the kernel halts, ends the thread or stops at an assertion, or the
    program divides the smallest integer by -1.  (The loader itself does write elsewhere.) *)
Theorem program_confined (garbage : list Z) (junk : Z) (f : F) (h : NoffHeader) (m : Machine) (fs rest : list Z) (n : nat) :
  USE_TLB flags = false -> rf_ok f -> loadable (rf_content f) h -> idle_machine m ->
  length (m_registers m) = NumTotalRegs -> m_tlb m = None ->
  bm_free (m_bitMap m) = fs ++ rest -> Z.of_nat (length fs) = program_pages h ->
  exists sp f' m1, AddrSpace_new flags garbage f m = Ok (Next (sp, f') m1)
    /\ match StartProcess1 flags garbage junk f n m with
       | Ok (Next _ m') | Ok (Stop _ m') =>
           mwf m' /\ frames m' = fs
           /\ forall a, Z.of_nat a `div` PageSize ∉ fs -> m_mainMemory m' !! a = m_mainMemory m1 !! a
       | Err e => e = AssertFailed \/ (e = MemFault /\ exists m', mwf m' /\ frames m' = fs /\ div_overflow m')
       end.
Proof.
  intros Hno Hf Hld [Hm Hb Hbm Hn] Hregs Htlb Hfree Hl.
  destruct (AddrSpace_new_loaded flags garbage f h m fs rest) as (sp & p & f' & m1 & HN & _ & _ & Hsb); try done.
  exists sp, f', m1. split; [done|]. pose proof (loadable_pages _ _ Hld) as Hpg.
  destruct (free_frames _ _ _ Hn Hfree) as [Hfs _].
  destruct (started_wf m1 m sp p h _ _ fs rest Hsb Hfs Hl Hpg Hn Htlb) as (Hw & Hfr & _).
  destruct Hsb as (-> & _ & _ & Hr1 & _). set (m2 := m_set_pageTableSize _ _) in Hw, Hfr.
  unfold StartProcess1. rewrite (user_bind_Ok _ _ m _ m1 HN).
  rewrite (user_bind_Ok _ _ m1 tt (m_set_registers (start_registers (program_pages h)) m1))
    by (apply InitRegisters_eq; [congruence|lia]).
  unfold AddrSpace_RestoreState. rewrite Hno. cbn [as_pageTable as_numPages].
  rewrite (user_bind_Ok _ _ _ tt m2) by done.
  pose (E := fun e => e = AssertFailed \/ (e = MemFault /\ exists m', mwf m' /\ frames m' = fs /\ div_overflow m')).
  pose (Q := fun (_ : unit) m' => minv m2 m').
  assert (HU : uwp E (minv m2) (Machine_Run flags junk n) Q m2).
  { unfold Machine_Run. apply uwp_bind, uwp_modify. apply Run_loop_wp; try done; [by left| |].
    - apply (minv_hw m2 m2); [by apply minv_refl|done|done|done|done|done|done|apply Hw|apply Hw].
    - intros m' [Hw' [Hf' _]] Hd. right. split; [done|]. exists m'. split; [done|]. split; [congruence|done]. }
  unfold uwp in HU. destruct (Machine_Run flags junk n m2) as [[u m'|why m']|e]; [| |exact HU];
    destruct HU as [Hw' [Hf' Hc']]; (split; [done|]); (split; [congruence|]); intros a Ha; rewrite Hc' by (by rewrite Hfr); done.
Qed.
End Programs.

(** ** Exit and the destructor *)

Lemma ClearAll_eq flags m p t :
  (if USE_TLB flags then m_tlb m else m_pageTable m) = Some p -> m_tables m !! p = Some t ->
  m_pageTableSize m = Z.of_nat (length t) -> bm_wf (m_bitMap m) ->
  Forall (fun e => 0 <= te_physicalPage e < bm_numBits (m_bitMap m)) t ->
  exists bm', Machine_ClearAll flags m = Ok (Next tt (m_set_bitMap bm' m)) /\ bm_wf bm'
    /\ bm_numBits bm' = bm_numBits (m_bitMap m)
    /\ forall j, 0 <= j -> bm_bit bm' j = if decide (j ∈ te_physicalPage <$> t) then false else bm_bit (m_bitMap m) j.
Proof.
  intros Hp Ht Hs Hb Hall. unfold Machine_ClearAll.
  rewrite (user_bind_Ok _ _ m (m_pageTableSize m) m), (user_bind_Ok _ _ m (Some p) m) by (done || unfold gets; destruct (USE_TLB flags); by rewrite Hp).
  rewrite Hs, Nat2Z.id.
  destruct (ClearAll_loop_eq p t 0 (length t) m Ht ltac:(lia) Hb Hall) as (bm' & HL & H').
  unfold slice in H'. rewrite drop_0, firstn_all in H'. eauto.
Qed.

Section Exit.
Context {F : Type} `{ReadableFile F} (flags : Flags).

(** With the memory full, [ClearAll] leaves exactly the frames of the running program free. *)
Lemma ClearAll_frees (m : Machine) (p : positive) (fs : list Z) :
  idle_machine m -> (if USE_TLB flags then m_tlb m else m_pageTable m) = Some p ->
  m_tables m !! p = Some (entries 0 fs) -> m_pageTableSize m = Z.of_nat (length fs) -> Forall frame_ok fs -> bm_free (m_bitMap m) = [] ->
  exists bm, Machine_ClearAll flags m = Ok (Next tt (m_set_bitMap bm m)) /\ bm_wf bm /\ bm_numBits bm = NumPhysPages
    /\ (forall x, x ∈ bm_free bm <-> x ∈ fs).
Proof.
  intros [Hm Hb Hbm Hn] Hp Ht Hs Hfs Hfull.
  destruct (ClearAll_eq flags m p (entries 0 fs)) as (bm & HC & Hbm1 & Hn1 & Hbits); try done.
  { by rewrite length_entries. }
  { rewrite Hn. by apply (entries_Forall frame_ok). }
  rewrite entries_frames in Hbits. exists bm. split; [done|]. split; [done|]. split; [congruence|].
  intros x. rewrite bm_free_elem, Hn1. split.
  - intros [Hx Hbx]. rewrite Hbits in Hbx by lia. case_decide as Hd; [done|exfalso].
    assert (Hx' : x ∈ bm_free (m_bitMap m)) by by apply bm_free_elem. rewrite Hfull in Hx'. by apply elem_of_nil in Hx'.
  - intros Hx. rewrite Forall_forall in Hfs. pose proof (Hfs x Hx) as Hr. unfold frame_ok in Hr. split; [lia|].
    rewrite Hbits by lia. by rewrite decide_True.
Qed.

(** Frames taken from the front of the free list are marked afterwards. *)
Lemma taken_marked (bm bm' : BitMap) (k : nat) :
  bm_numBits bm' = bm_numBits bm -> bm_free bm' = drop k (bm_free bm) ->
  Forall (fun x => bm_bit bm' x = true) (take k (bm_free bm)).
Proof.
  intros Hn Hf. apply Forall_forall. intros x Hx. destruct (bm_bit bm' x) eqn:Hbx; [done|exfalso].
  assert (Hx1 : x ∈ bm_free bm) by (rewrite <-(take_drop k (bm_free bm)); apply elem_of_app; by left).
  assert (Hx2 : x ∈ bm_free bm').
  { apply bm_free_elem. split; [|done]. rewrite Hn. by apply bm_free_elem. }
  rewrite Hf in Hx2. pose proof (bm_free_NoDup bm) as Hnd. rewrite <-(take_drop k (bm_free bm)) in Hnd.
  apply NoDup_app in Hnd as (_ & Hdis & _). by apply (Hdis x).
Qed.

End Exit.

(** ** Examples *)

(** An object file with the given instructions as its code. *)
Definition object_file (code : list Z) : list Z :=
  (([NOFFMAGIC; 0; 40; 4 * Z.of_nat (length code); 0; 0; 0; 0; 0; 0] ++ code) ≫= le_enc 4).

(** An empty loop, and a file of nine pages. *)
Definition tiny_file : list Z := object_file [encode_J 2 0].

(** A machine whose used frames are the bits of [used]. *)
Definition plain_machine (used : Z) : Machine :=
  mkMachine (replicate 40 0) (replicate 4096 0) ∅ None None 0 (mkBitMap 32 1 [used]) SystemMode.

Lemma tiny_file_loadable : loadable tiny_file (file_header tiny_file).
Proof. constructor; vm_compute; intuition congruence. Qed.

Lemma tiny_file_ok : rf_ok tiny_file.
Proof. apply (bool_decide_unpack (Forall is_byte tiny_file)). by vm_compute. Qed.

Lemma plain_machine_idle used : bool_decide (Forall in_u32 [used]) = true -> idle_machine (plain_machine used).
Proof.
  intros Hu. constructor; cbn [plain_machine m_mainMemory m_bitMap].
  - by rewrite length_replicate.
  - apply Forall_replicate. unfold is_byte. lia.
  - by apply (bm_wf_example 32 [used]).
  - done.
Qed.

(** The switches of the Makefiles: userprog; filesys and network, which have none of them. *)
Definition userprog_flags : Flags := mkFlags true true true.
Definition filesys_flags : Flags := mkFlags false false false.

Lemma load_program_witness :
  exists sp p f' m', AddrSpace_new filesys_flags [] tiny_file (plain_machine 0) = Ok (Next (sp, f') m')
    /\ rf_content f' = rf_content tiny_file
    /\ space_loaded (plain_machine 0) m' sp p (file_header tiny_file) (rf_content tiny_file) (load_frames filesys_flags (seqZ 0 9)) (seqZ 0 9) (seqZ 9 23)
    /\ (bm_free (m_bitMap (plain_machine 0)) = seqZ 0 NumPhysPages ->
        space_bytes (m_mainMemory m') (seqZ 0 9) = program_image (file_header tiny_file) (rf_content tiny_file)).
Proof.
  apply (load_program filesys_flags [] tiny_file (file_header tiny_file) (plain_machine 0) (seqZ 0 9) (seqZ 9 23)).
  - exact tiny_file_ok.
  - exact tiny_file_loadable.
  - by apply plain_machine_idle.
  - by vm_compute.
  - by vm_compute.
Defined.

Lemma loader_wipes_frames_witness :
  exists sp f' m', AddrSpace_new userprog_flags [] tiny_file (plain_machine 1) = Ok (Next (sp, f') m') /\ m_mainMemory m' !! 5%nat = Some 0.
Proof.
  apply (loader_wipes_frames userprog_flags [] tiny_file (file_header tiny_file) (plain_machine 1) (seqZ 1 9) (seqZ 10 22) 5).
  - reflexivity.
  - exact tiny_file_ok.
  - exact tiny_file_loadable.
  - by apply plain_machine_idle.
  - by vm_compute.
  - by vm_compute.
  - by vm_compute.
  - by apply (bool_decide_unpack _); vm_compute.
Defined.


Lemma AddrSpace_roundtrip_witness :
  exists sp f' m1 m2, AddrSpace_new userprog_flags [] tiny_file (plain_machine 5) = Ok (Next (sp, f') m1)
    /\ bm_free (m_bitMap m1) = seqZ 11 21
    /\ AddrSpace_delete sp m1 = Ok (Next tt m2)
    /\ bm_free (m_bitMap m2) = bm_free (m_bitMap (plain_machine 5)) /\ m_tables m2 = m_tables (plain_machine 5) /\ idle_machine m2.
Proof.
  apply (AddrSpace_roundtrip userprog_flags [] tiny_file (file_header tiny_file) (plain_machine 5) (1 :: seqZ 3 8) (seqZ 11 21)).
  - exact tiny_file_ok.
  - exact tiny_file_loadable.
  - by apply plain_machine_idle.
  - by vm_compute.
  - by vm_compute.
Defined.

Lemma program_confined_witness :
  exists sp f' m1, AddrSpace_new filesys_flags [] tiny_file (plain_machine 1) = Ok (Next (sp, f') m1)
    /\ match StartProcess1 filesys_flags [] 0 tiny_file 5 (plain_machine 1) with
       | Ok (Next _ m') | Ok (Stop _ m') =>
           mwf m' /\ frames m' = seqZ 1 9
           /\ forall a, Z.of_nat a `div` PageSize ∉ seqZ 1 9 -> m_mainMemory m' !! a = m_mainMemory m1 !! a
       | Err e => e = AssertFailed \/ (e = MemFault /\ exists m', mwf m' /\ frames m' = seqZ 1 9 /\ div_overflow m')
       end.
Proof.
  apply (program_confined filesys_flags [] 0 tiny_file (file_header tiny_file) (plain_machine 1) (seqZ 1 9) (seqZ 10 22) 5).
  - reflexivity.
  - exact tiny_file_ok.
  - exact tiny_file_loadable.
  - by apply plain_machine_idle.
  - reflexivity.
  - reflexivity.
  - by vm_compute.
  - by vm_compute.
Defined.

(** A full machine of the userprog build whose running program owns the frames 0 to 8. *)
Definition full_machine : Machine :=
  mkMachine (replicate 40 0) (replicate 4096 0) {[ 1%positive := entries 0 (seqZ 0 9) ]} (Some 1%positive) None 9
    (mkBitMap 32 1 [2 ^ 32 - 1]) UserMode.

