(* ===== verification/Coff.v ===== *)
(** * bin/coff2noff.c and bin/coff2flat.c: the object file converters

    The tools that turn the MIPS compiler's COFF files into files the loader of
    userprog/addrspace.cc can read.  A file descriptor is a file with a position; a failed
    [open] of the output is [None], and every [write] to it fails.  The structures of
    bin/coff.h are given by the fields the tools read.  The host is little-endian with
    32-bit [long]s, as the layout of the structures requires. *)

From S2P Require Import Prelude BitMap Disk FileHdr OpenFile Interrupt Machine Mips MachineSafe UserMemory AddrSpace Process.

(** How the tools end early: with a message and status 1.  [NegativeCount]: the result of
    [read] for a negative count is left to the host. *)
Inductive tool_error :=
  | Usage | CannotOpen | TooShort | NotMipsel | NotOmagic | BothData | BothBss | UnknownSegment | CannotWrite
  | NegativeCount.

Inductive tool (A : Type) := Done (a : A) | Exit (e : tool_error).
Arguments Done {A} a.
Arguments Exit {A} e.

#[global] Instance tool_ret : MRet tool := fun A a => Done a.
#[global] Instance tool_bind : MBind tool := fun A B f m => match m with Done a => f a | Exit e => Exit e end.

(** ** Files of the host *)

Record fd := mkFd { fd_file : list Z; fd_pos : Z }.

(** [lseek(f, off, 0)]; a negative offset is refused. *)
Definition lseek (f : fd) (off : Z) : fd := if off <? 0 then f else mkFd (fd_file f) off.

(** [Read]: all the bytes or exit. *)
Definition coff_Read (f : fd) (nBytes : Z) : tool (list Z * fd) :=
  if nBytes <? 0 then Exit NegativeCount
  else
    let bs := unix_read (fd_file f) (fd_pos f) nBytes in
    if Z.of_nat (length bs) =? nBytes then Done (bs, mkFd (fd_file f) (fd_pos f + nBytes)) else Exit TooShort.

Definition coff_Write (f : option fd) (data : list Z) : tool (option fd) :=
  match f with
  | Some f => Done (Some (mkFd (unix_write (fd_file f) (fd_pos f) data) (fd_pos f + Z.of_nat (length data))))
  | None => Exit CannotWrite
  end.

(** ** coff.h *)

Definition MIPSELMAGIC : Z := 0x0162.
Definition OMAGIC : Z := 263.  (* 0407 *)

Record filehdr := mkFilehdr { f_magic : Z; f_nscns : Z }.
Definition sizeof_filehdr : Z := 20.

(** [magic] of the optional header. *)
Definition sizeof_aouthdr : Z := 56.

Record scnhdr := mkScnhdr { s_name : list Z; s_paddr : Z; s_size : Z; s_scnptr : Z }.
Definition sizeof_scnhdr : Z := 40.

Definition ushort_at (bs : list Z) (off : nat) : Z := le_dec (slice bs off 2).
Definition long_at (bs : list Z) (off : nat) : Z := int_of_bytes (slice bs off 4).

Definition filehdr_of_bytes (bs : list Z) : filehdr :=
  mkFilehdr (ShortToHost false (ushort_at bs 0)) (ShortToHost false (ushort_at bs 2)).

(** [short]s are signed. *)
Definition i16 (x : Z) : Z := (x + 2 ^ 15) `mod` 2 ^ 16 - 2 ^ 15.

Definition aouthdr_magic (bs : list Z) : Z := i16 (ShortToHost false (ushort_at bs 0)).

(** A section header, with the byte order of the three fields converted. *)
Definition scnhdr_of_bytes (bs : list Z) : scnhdr :=
  mkScnhdr (slice bs 0 8) (swap_int false (long_at bs 8)) (swap_int false (long_at bs 16))
    (swap_int false (long_at bs 20)).

Fixpoint sections_of_bytes (n : nat) (bs : list Z) : list scnhdr :=
  match n with
  | O => []
  | S n => scnhdr_of_bytes (take 40 bs) :: sections_of_bytes n (drop 40 bs)
  end.

(** [!strcmp(s_name, lit)]; the literals with their null fit the eight characters. *)
Definition is_named (s : scnhdr) (lit : list Z) : bool :=
  bool_decide (take (S (length lit)) (s_name s) = lit ++ [0]).

Definition text_name : list Z := [46; 116; 101; 120; 116].
Definition data_name : list Z := [46; 100; 97; 116; 97].
Definition rdata_name : list Z := [46; 114; 100; 97; 116; 97].
Definition bss_name : list Z := [46; 98; 115; 115].
Definition sbss_name : list Z := [46; 115; 98; 115; 115].

(** Both tools start alike: the headers and the section table. *)
Definition read_headers (fdIn : fd) : tool (list scnhdr * fd) :=
  '(bs, fdIn) ← coff_Read fdIn sizeof_filehdr;
  let fileh := filehdr_of_bytes bs in
  if negb (f_magic fileh =? MIPSELMAGIC) then Exit NotMipsel
  else
    '(bs, fdIn) ← coff_Read fdIn sizeof_aouthdr;
    if negb (aouthdr_magic bs =? OMAGIC) then Exit NotOmagic
    else
      let numsections := f_nscns fileh in
      '(bs, fdIn) ← coff_Read fdIn (numsections * sizeof_scnhdr);
      Done (sections_of_bytes (Z.to_nat numsections) bs, fdIn).

(** ** coff2noff *)

(** The bytes of the NOFF header. *)
Definition segment_ints (s : Segment) : list Z := [sg_virtualAddr s; sg_inFileAddr s; sg_size s].
Definition noff_ints (h : NoffHeader) : list Z :=
  noffMagic h :: segment_ints (nf_code h) ++ segment_ints (nf_initData h) ++ segment_ints (nf_uninitData h).
Definition noff_bytes (h : NoffHeader) : list Z := noff_ints h ≫= int_to_bytes.

Record conv := mkConv { cv_hdr : NoffHeader; cv_in : fd; cv_out : option fd; cv_inNoffFile : Z }.

(** Copy one section to the output. *)
Definition copy_section (s : scnhdr) (h : NoffHeader) (c : conv) : tool conv :=
  '(buffer, fdIn) ← coff_Read (lseek (cv_in c) (s_scnptr s)) (s_size s);
  fdOut ← coff_Write (cv_out c) buffer;
  Done (mkConv h fdIn fdOut (i32 (cv_inNoffFile c + s_size s))).

Definition convert_section (s : scnhdr) (c : conv) : tool conv :=
  let h := cv_hdr c in
  let here := mkSegment (s_paddr s) (cv_inNoffFile c) (s_size s) in
  if s_size s =? 0 then Done c
  else if is_named s text_name then
    copy_section s (mkNoff (noffMagic h) here (nf_initData h) (nf_uninitData h)) c
  else if is_named s data_name || is_named s rdata_name then
    if negb (sg_size (nf_initData h) =? 0) then Exit BothData
    else copy_section s (mkNoff (noffMagic h) (nf_code h) here (nf_uninitData h)) c
  else if is_named s bss_name || is_named s sbss_name then
    let u := nf_uninitData h in
    let set u := Done (mkConv (mkNoff (noffMagic h) (nf_code h) (nf_initData h) u) (cv_in c) (cv_out c) (cv_inNoffFile c)) in
    if negb (sg_size u =? 0) then
      if s_paddr s =? i32 (sg_virtualAddr u + sg_size u) then Exit BothBss
      else set (mkSegment (sg_virtualAddr u) (sg_inFileAddr u) (i32 (sg_size u + s_size s)))
    else set (mkSegment (s_paddr s) (sg_inFileAddr u) (s_size s))
  else Exit UnknownSegment.

Fixpoint convert_sections (ss : list scnhdr) (c : conv) : tool conv :=
  match ss with
  | [] => Done c
  | s :: ss => c ← convert_section s c; convert_sections ss c
  end.

(** The header before the loop: sizes of zero, other fields as they were on the stack. *)
Definition empty_segment (g : Segment) : Segment := mkSegment (sg_virtualAddr g) (sg_inFileAddr g) 0.
Definition initial_noff (g : NoffHeader) : NoffHeader :=
  mkNoff NOFFMAGIC (empty_segment (nf_code g)) (empty_segment (nf_initData g)) (empty_segment (nf_uninitData g)).

(** [main] of coff2noff: the input if it can be opened, whether the output can ([fdIn], not
    [fdOut], is tested), the stack memory of [noffH]; the bytes of the NOFF file. *)
Definition coff2noff (argc : Z) (input : option (list Z)) (outOpens : bool) (garbage : NoffHeader) : tool (list Z) :=
  if argc <? 2 then Exit Usage
  else match input with
  | None => Exit CannotOpen
  | Some coff =>
      let fdOut := if outOpens then Some (mkFd [] 0) else None in
      '(sections, fdIn) ← read_headers (mkFd coff 0);
      let fdOut := (fun f => lseek f noff_size) <$> fdOut in
      c ← convert_sections sections (mkConv (initial_noff garbage) fdIn fdOut noff_size);
      fdOut ← coff_Write ((fun f => lseek f 0) <$> cv_out c) (noff_bytes (cv_hdr c));
      match fdOut with Some f => Done (fd_file f) | None => Exit CannotWrite end
  end.

(** ** coff2flat *)

Definition StackSize : Z := 1024.

Definition flatten_section (s : scnhdr) (fdIn : fd) (fdOut : option fd) (top : Z) : tool (fd * option fd * Z) :=
  let endp := i32 (s_paddr s + s_size s) in
  let top := if top <? endp then endp else top in
  if negb (is_named s bss_name) && negb (is_named s sbss_name) then
    '(buffer, fdIn) ← coff_Read (lseek fdIn (s_scnptr s)) (s_size s);
    fdOut ← coff_Write fdOut buffer;
    Done (fdIn, fdOut, top)
  else Done (fdIn, fdOut, top).

Fixpoint flatten_sections (ss : list scnhdr) (fdIn : fd) (fdOut : option fd) (top : Z) : tool (option fd * Z) :=
  match ss with
  | [] => Done (fdOut, top)
  | s :: ss => '(fdIn, fdOut, top) ← flatten_section s fdIn fdOut top; flatten_sections ss fdIn fdOut top
  end.

Definition coff2flat (argc : Z) (input : option (list Z)) (outOpens : bool) : tool (list Z) :=
  if argc <? 2 then Exit Usage
  else match input with
  | None => Exit CannotOpen
  | Some coff =>
      let fdOut := if outOpens then Some (mkFd [] 0) else None in
      '(sections, fdIn) ← read_headers (mkFd coff 0);
      '(fdOut, top) ← flatten_sections sections fdIn fdOut 0;
      fdOut ← coff_Write ((fun f => lseek f (i32 (top + StackSize - 4))) <$> fdOut) (int_to_bytes 0);
      match fdOut with Some f => Done (fd_file f) | None => Exit CannotWrite end
  end.

(** ** What a section is *)

Inductive kind := KText | KData | KBss.
#[global] Instance kind_eq_dec : EqDecision kind.
Proof. solve_decision. Defined.

Definition kind_of (s : scnhdr) : option kind :=
  if is_named s text_name then Some KText
  else if is_named s data_name || is_named s rdata_name then Some KData
  else if is_named s bss_name || is_named s sbss_name then Some KBss
  else None.

(** The sections of one kind that are not empty. *)
Definition of_kind (k : kind) (ss : list scnhdr) : list scnhdr :=
  filter (fun s => s_size s <> 0 /\ kind_of s = Some k) ss.

Definition kind_size (k : kind) (ss : list scnhdr) : Z :=
  match of_kind k ss with [] => 0 | s :: _ => s_size s end.

(** The bytes of a section in the COFF file. *)
Definition section_bytes (coff : list Z) (s : scnhdr) : list Z :=
  slice coff (Z.to_nat (s_scnptr s)) (Z.to_nat (s_size s)).

Definition scn_ok (coff : list Z) (s : scnhdr) : Prop :=
  in_i32 (s_paddr s) /\ in_i32 (s_size s) /\ 0 <= s_size s
  /\ (s_size s <> 0 -> kind_of s <> None)
  /\ (s_size s <> 0 -> kind_of s <> Some KBss ->
      0 <= s_scnptr s /\ s_scnptr s + s_size s <= Z.of_nat (length coff)).

(** A COFF file the tool can handle: known sections that lie in the file, at most one of
    each kind. *)
Record coff_wf (coff : list Z) (ss : list scnhdr) : Prop := {
  cw_scn : Forall (scn_ok coff) ss;
  cw_once : forall k, (length (of_kind k ss) <= 1)%nat;
  cw_small : Z.of_nat (length coff) < 2 ^ 29
}.

(** A segment of the NOFF file holds the section. *)
Definition holds (coff noff : list Z) (l : list scnhdr) (seg : Segment) : Prop :=
  match l with
  | [] => sg_size seg = 0
  | s :: _ => sg_virtualAddr seg = s_paddr s /\ sg_size seg = s_size s
      /\ 40 <= sg_inFileAddr seg /\ sg_inFileAddr seg + sg_size seg <= Z.of_nat (length noff)
      /\ segment_bytes noff seg = section_bytes coff s
  end.

Definition holds_bss (l : list scnhdr) (seg : Segment) : Prop :=
  match l with [] => sg_size seg = 0 | s :: _ => sg_virtualAddr seg = s_paddr s /\ sg_size seg = s_size s end.

(** ** The header *)

Definition seg_i32 (s : Segment) : Prop := in_i32 (sg_virtualAddr s) /\ in_i32 (sg_inFileAddr s) /\ in_i32 (sg_size s).
Definition noff_i32 (h : NoffHeader) : Prop :=
  in_i32 (noffMagic h) /\ seg_i32 (nf_code h) /\ seg_i32 (nf_initData h) /\ seg_i32 (nf_uninitData h).

Lemma length_int_to_bytes x : length (int_to_bytes x) = 4%nat.
Proof. apply length_le_enc. Qed.

Lemma length_noff_bytes h : length (noff_bytes h) = 40%nat.
Proof.
  unfold noff_bytes, noff_ints, segment_ints. cbn [app].
  rewrite !bind_cons, !length_app, !length_int_to_bytes. done.
Qed.

Lemma ints_slice l k x rest : l !! k = Some x -> slice ((l ≫= int_to_bytes) ++ rest) (4 * k) 4 = int_to_bytes x.
Proof.
  revert k. induction l as [|y l IH]; intros [|k] Hk; [done|done| |]; rewrite bind_cons, <-(assoc_L (++)).
  - injection Hk as ->. unfold slice. change (4 * 0)%nat with 0%nat. by rewrite drop_0, take_app_length' by (by rewrite length_int_to_bytes).
  - rewrite <-(IH k Hk) at 1. unfold slice. replace (4 * S k)%nat with (4 + 4 * k)%nat by lia.
    by rewrite <-drop_drop, drop_app_length' by (by rewrite length_int_to_bytes).
Qed.

Lemma noff_int_at h rest k x : noff_ints h !! k = Some x -> in_i32 x -> int_at (noff_bytes h ++ rest) k = x.
Proof. intros Hk Hx. unfold int_at, noff_bytes. rewrite (ints_slice _ _ x) by done. by apply int_roundtrip. Qed.

Lemma noff_roundtrip h rest : noff_i32 h -> file_header (noff_bytes h ++ rest) = h.
Proof.
  intros (Hm & (?&?&?) & (?&?&?) & (?&?&?)). unfold file_header.
  rewrite take_app_length' by (by rewrite length_noff_bytes). rewrite <-(app_nil_r (noff_bytes h)).
  unfold noff_of_bytes, segment_at. cbn [Nat.add].
  rewrite (noff_int_at h [] 0 (noffMagic h)), (noff_int_at h [] 1 (sg_virtualAddr (nf_code h))),
    (noff_int_at h [] 2 (sg_inFileAddr (nf_code h))), (noff_int_at h [] 3 (sg_size (nf_code h))),
    (noff_int_at h [] 4 (sg_virtualAddr (nf_initData h))), (noff_int_at h [] 5 (sg_inFileAddr (nf_initData h))),
    (noff_int_at h [] 6 (sg_size (nf_initData h))), (noff_int_at h [] 7 (sg_virtualAddr (nf_uninitData h))),
    (noff_int_at h [] 8 (sg_inFileAddr (nf_uninitData h))), (noff_int_at h [] 9 (sg_size (nf_uninitData h))) by done.
  by destruct h as [m [] [] []].
Qed.

(** ** Writing *)

Lemma unix_write_end f o data : (length f <= Z.to_nat o)%nat ->
  unix_write f o data = f ++ replicate (Z.to_nat o - length f) 0 ++ data.
Proof.
  intros. unfold unix_write. rewrite take_ge, (drop_ge f) by lia. by rewrite app_nil_r.
Qed.

Lemma slice_app_l {A} (l k : list A) n m : (n + m <= length l)%nat -> slice (l ++ k) n m = slice l n m.
Proof. intros. unfold slice. rewrite drop_app_le by lia. by rewrite take_app_le by (rewrite length_drop; lia). Qed.

Lemma holds_write coff f o data l seg :
  (length f <= Z.to_nat o)%nat -> holds coff f l seg -> holds coff (unix_write f o data) l seg.
Proof.
  intros Ho. rewrite unix_write_end by done. unfold holds. destruct l as [|s l]; [done|].
  intros (Hv & Hs & H40 & Hr & Hb). split_and!; [done|done|done|rewrite length_app; lia|].
  unfold segment_bytes in *. destruct (Z.le_gt_cases 0 (sg_size seg)).
  - by rewrite slice_app_l by lia.
  - replace (Z.to_nat (sg_size seg)) with 0%nat in * by lia. unfold slice in *. by rewrite take_0 in *.
Qed.

(** The header goes over the first 40 bytes. *)
Lemma holds_header coff f hdr l seg :
  length hdr = 40%nat -> holds coff f l seg -> holds coff (unix_write f 0 hdr) l seg.
Proof.
  intros Hh. unfold holds. destruct l as [|s l]; [done|].
  intros (Hv & Hs & H40 & Hr & Hb). assert (Hw : unix_write f 0 hdr = hdr ++ drop 40 f).
  { unfold unix_write. change (Z.to_nat 0) with 0%nat. rewrite take_0, Hh. done. }
  rewrite Hw. split_and!; [done|done|done|rewrite length_app, length_drop, Hh; lia|].
  rewrite <-Hb. unfold segment_bytes, slice. f_equal.
  rewrite drop_app_ge, drop_drop by lia. f_equal. lia.
Qed.

(** ** The loop *)

Lemma of_kind_snoc k ss s :
  of_kind k (ss ++ [s]) = of_kind k ss ++ (if decide (s_size s <> 0 /\ kind_of s = Some k) then [s] else []).
Proof. unfold of_kind. rewrite filter_app. by f_equal. Qed.

Lemma of_kind_other k ss s : s_size s = 0 \/ kind_of s <> Some k -> of_kind k (ss ++ [s]) = of_kind k ss.
Proof. intros Hs. rewrite of_kind_snoc, decide_False by tauto. by rewrite app_nil_r. Qed.

(** The only section of its kind. *)
Lemma of_kind_first coff k ss s rest :
  coff_wf coff (ss ++ s :: rest) -> s_size s <> 0 -> kind_of s = Some k ->
  of_kind k ss = [] /\ of_kind k (ss ++ [s]) = [s].
Proof.
  intros Hwf Hs Hk. rewrite of_kind_snoc, decide_True by done.
  assert (Hn : of_kind k ss = []); [|by rewrite Hn].
  pose proof (cw_once _ _ Hwf k) as Hl. unfold of_kind in *. rewrite filter_app, filter_cons_True, length_app in Hl by done.
  cbn [length] in Hl. apply nil_length_inv. lia.
Qed.

Lemma kind_size_bound coff k ss : Forall (scn_ok coff) ss -> k <> KBss -> 0 <= kind_size k ss <= Z.of_nat (length coff).
Proof.
  intros Hok Hk. unfold kind_size. destruct (of_kind k ss) as [|s l] eqn:E; [lia|].
  assert (Hin : s ∈ of_kind k ss) by (rewrite E; left). apply list_elem_of_filter in Hin as [[Hs Hks] Hin].
  apply (proj1 (Forall_forall _ _) Hok) in Hin as (_ & _ & H0 & _ & Hr).
  destruct Hr as [? ?]; [done|congruence|]. lia.
Qed.

Record conv_inv (coff : list Z) (ss : list scnhdr) (f : list Z) (c : conv) : Prop := {
  ci_in : fd_file (cv_in c) = coff;
  ci_out : cv_out c = Some (mkFd f (cv_inNoffFile c));
  ci_pos : cv_inNoffFile c = 40 + kind_size KText ss + kind_size KData ss;
  ci_len : (length f <= Z.to_nat (cv_inNoffFile c))%nat;
  ci_bytes : Forall is_byte f;
  ci_magic : noffMagic (cv_hdr c) = NOFFMAGIC;
  ci_code : holds coff f (of_kind KText ss) (nf_code (cv_hdr c));
  ci_data : holds coff f (of_kind KData ss) (nf_initData (cv_hdr c));
  ci_bss : holds_bss (of_kind KBss ss) (nf_uninitData (cv_hdr c));
  ci_i32 : noff_i32 (cv_hdr c)
}.

(** Copying a section that lies in the input. *)
Lemma copy_section_ok coff f s h c :
  fd_file (cv_in c) = coff -> cv_out c = Some (mkFd f (cv_inNoffFile c)) ->
  0 <= s_scnptr s -> 0 <= s_size s -> s_scnptr s + s_size s <= Z.of_nat (length coff) ->
  40 <= cv_inNoffFile c -> cv_inNoffFile c + s_size s < 2 ^ 31 ->
  exists c', copy_section s h c = Done c' /\ cv_hdr c' = h /\ fd_file (cv_in c') = coff
    /\ cv_inNoffFile c' = cv_inNoffFile c + s_size s
    /\ cv_out c' = Some (mkFd (unix_write f (cv_inNoffFile c) (section_bytes coff s)) (cv_inNoffFile c')).
Proof.
  intros Hin Hout H0 Hs Hr H40 Hov. unfold copy_section, coff_Read, lseek.
  destruct (Z.ltb_spec (s_scnptr s) 0); [lia|]. cbn [fd_file fd_pos]. rewrite Hin.
  destruct (Z.ltb_spec (s_size s) 0); [lia|].
  assert (Hl : Z.of_nat (length (section_bytes coff s)) = s_size s)
    by (unfold section_bytes; rewrite length_slice by lia; lia).
  change (unix_read coff (s_scnptr s) (s_size s)) with (section_bytes coff s). rewrite Hl.
  destruct (Z.eqb_spec (s_size s) (s_size s)); [|done]. cbn [mbind tool_bind]. rewrite Hout.
  cbn [coff_Write mbind tool_bind fd_file fd_pos]. eexists. split; [done|].
  cbn [cv_hdr cv_in cv_out cv_inNoffFile fd_file]. rewrite Hl, i32_id by (unfold in_i32; lia). done.
Qed.

(** A freshly copied section. *)
Lemma holds_new coff f o s l :
  40 <= o -> (length f <= Z.to_nat o)%nat -> 0 <= s_scnptr s -> 0 <= s_size s ->
  s_scnptr s + s_size s <= Z.of_nat (length coff) ->
  holds coff (unix_write f o (section_bytes coff s)) (s :: l) (mkSegment (s_paddr s) o (s_size s)).
Proof.
  intros H40 Hl H0 Hs Hr. cbn [holds sg_virtualAddr sg_size sg_inFileAddr].
  assert (Hlen : length (section_bytes coff s) = Z.to_nat (s_size s)) by (unfold section_bytes; rewrite length_slice; lia).
  split_and!; [done|done|done|rewrite length_unix_write, Hlen; lia|].
  unfold segment_bytes. cbn [sg_inFileAddr sg_size]. rewrite unix_write_end, (assoc_L (++)) by done. unfold slice.
  rewrite drop_app_length' by (rewrite length_app, length_replicate; lia). by rewrite take_ge by lia.
Qed.

Lemma kind_size_snoc k ss s : of_kind k ss = [] -> of_kind k (ss ++ [s]) = [s] ->
  kind_size k (ss ++ [s]) = kind_size k ss + s_size s.
Proof. intros H1 H2. unfold kind_size. rewrite H1, H2. lia. Qed.

Lemma section_bytes_bytes coff s : Forall is_byte coff -> Forall is_byte (section_bytes coff s).
Proof. apply Forall_slice. Qed.

(** The next section has been copied into the segment [here] of the header [h']. *)
Lemma conv_inv_copied coff ss f c s h' k rest :
  coff_wf coff (ss ++ s :: rest) -> Forall is_byte coff -> conv_inv coff ss f c ->
  s_size s <> 0 -> kind_of s = Some k -> k <> KBss ->
  let here := mkSegment (s_paddr s) (cv_inNoffFile c) (s_size s) in
  noffMagic h' = NOFFMAGIC ->
  nf_code h' = (if decide (k = KText) then here else nf_code (cv_hdr c)) ->
  nf_initData h' = (if decide (k = KData) then here else nf_initData (cv_hdr c)) ->
  nf_uninitData h' = nf_uninitData (cv_hdr c) ->
  exists f' c', copy_section s h' c = Done c' /\ conv_inv coff (ss ++ [s]) f' c'.
Proof.
  intros Hwf Hb [Hin Hout Hpos Hlen Hfb Hmag Hcode Hdata Hbss (Hi0 & Hi1 & Hi2 & Hi3)] Hs Hk Hkb here Hm' Hc' Hd' Hu'.
  destruct (of_kind_first coff k ss s rest Hwf Hs Hk) as [Hnone Hone].
  pose proof (cw_scn _ _ Hwf) as Hscn. apply Forall_app in Hscn as [Hss [Hsok _]%Forall_cons].
  destruct Hsok as (Hpi & Hsi & H0 & _ & Hr). destruct Hr as [Hp0 Hpr]; [done|congruence|].
  pose proof (kind_size_bound coff KText ss Hss ltac:(done)). pose proof (kind_size_bound coff KData ss Hss ltac:(done)).
  pose proof (cw_small _ _ Hwf) as Hsm.
  destruct (copy_section_ok coff f s h' c) as (c' & HC & Hh & Hi' & Hn' & Ho'); [done|done|lia..|].
  eexists _, c'. split; [done|].
  assert (Hother : forall k', k' <> k -> of_kind k' (ss ++ [s]) = of_kind k' ss)
    by (intros k' Hne; apply of_kind_other; right; congruence).
  assert (Hnew : holds coff (unix_write f (cv_inNoffFile c) (section_bytes coff s)) (of_kind k (ss ++ [s])) here)
    by (rewrite Hone; apply holds_new; done || lia).
  assert (Hold : forall l seg, holds coff f l seg -> holds coff (unix_write f (cv_inNoffFile c) (section_bytes coff s)) l seg)
    by (intros; by apply holds_write).
  assert (Hhere : seg_i32 here) by (split_and!; [done|unfold in_i32; cbn [here sg_inFileAddr]; lia|done]).
  constructor; rewrite ?Hh; try done.
  - rewrite Hn', Hpos. destruct k; [| |done].
    + rewrite (kind_size_snoc KText ss s) by done. unfold kind_size at 4. rewrite Hother by done. unfold kind_size. lia.
    + rewrite (kind_size_snoc KData ss s) by done. unfold kind_size at 3. rewrite Hother by done. unfold kind_size. lia.
  - rewrite length_unix_write, Hn'. unfold section_bytes. rewrite length_slice by lia. lia.
  - apply unix_write_bytes; [done|by apply section_bytes_bytes].
  - rewrite Hc'. destruct (decide (k = KText)) as [E|E]; [rewrite E in Hnew; exact Hnew|]. rewrite Hother by done. auto.
  - rewrite Hd'. destruct (decide (k = KData)) as [E|E]; [rewrite E in Hnew; exact Hnew|]. rewrite Hother by done. auto.
  - rewrite Hu', Hother by done. done.
  - unfold noff_i32. rewrite Hm', Hc', Hd', Hu'. split_and!; try done; [by destruct (decide (k = KText))|by destruct (decide (k = KData))].
Qed.

Lemma convert_section_ok coff ss s rest f c :
  coff_wf coff (ss ++ s :: rest) -> Forall is_byte coff -> conv_inv coff ss f c ->
  exists f' c', convert_section s c = Done c' /\ conv_inv coff (ss ++ [s]) f' c'.
Proof.
  intros Hwf Hb Hinv. pose proof (cw_scn _ _ Hwf) as Hscn. apply Forall_app in Hscn as [_ [Hsok _]%Forall_cons].
  destruct Hsok as (Hpi & Hsi & H0 & Hknown & _). unfold convert_section.
  destruct (Z.eqb_spec (s_size s) 0) as [Hz|Hs].
  { exists f, c. split; [done|]. destruct Hinv. unfold kind_size in *.
    constructor; unfold kind_size; rewrite ?of_kind_other by (by left); done. }
  destruct (is_named s text_name) eqn:Et.
  { assert (Hk : kind_of s = Some KText) by (unfold kind_of; by rewrite Et).
    apply (conv_inv_copied coff ss f c s _ KText rest); try done. apply Hinv. }
  destruct (is_named s data_name || is_named s rdata_name) eqn:Ed.
  { assert (Hk : kind_of s = Some KData) by (unfold kind_of; by rewrite Et, Ed).
    destruct (of_kind_first coff KData ss s rest Hwf Hs Hk) as [Hnone _].
    pose proof (ci_data _ _ _ _ Hinv) as Hd. rewrite Hnone in Hd. cbn [holds] in Hd. rewrite Hd. cbn [negb Z.eqb].
    apply (conv_inv_copied coff ss f c s _ KData rest); try done. apply Hinv. }
  destruct (is_named s bss_name || is_named s sbss_name) eqn:Eb.
  2: { exfalso. apply (Hknown Hs). unfold kind_of. by rewrite Et, Ed, Eb. }
  assert (Hk : kind_of s = Some KBss) by (unfold kind_of; by rewrite Et, Ed, Eb).
  destruct (of_kind_first coff KBss ss s rest Hwf Hs Hk) as [Hnone Hone].
  destruct Hinv as [Hin Hout Hpos Hlen Hfb Hmag Hcode Hdata Hbss (Hi0 & Hi1 & Hi2 & Hi3)].
  rewrite Hnone in Hbss. cbn [holds_bss] in Hbss. rewrite Hbss. cbn [negb Z.eqb]. exists f. eexists. split; [done|].
  constructor; unfold kind_size in *; cbn [cv_hdr cv_in cv_out cv_inNoffFile noffMagic nf_code nf_initData nf_uninitData]; try done;
    try (rewrite ?of_kind_other by (right; congruence); done).
  - by rewrite Hone.
  - split_and!; try done. destruct Hi3 as (? & ? & ?). by split_and!.
Qed.

Lemma convert_sections_ok coff rest : Forall is_byte coff -> forall ss f c,
  coff_wf coff (ss ++ rest) -> conv_inv coff ss f c ->
  exists f' c', convert_sections rest c = Done c' /\ conv_inv coff (ss ++ rest) f' c'.
Proof.
  intros Hb. induction rest as [|s rest IH]; intros ss f c Hwf Hinv.
  { exists f, c. by rewrite app_nil_r. }
  destruct (convert_section_ok coff ss s rest f c Hwf Hb Hinv) as (f1 & c1 & HC & Hinv1).
  replace (ss ++ s :: rest) with ((ss ++ [s]) ++ rest) in * by (by rewrite <-(assoc_L (++))).
  destruct (IH (ss ++ [s]) f1 c1 Hwf Hinv1) as (f2 & c2 & HC2 & Hinv2). exists f2, c2.
  cbn [convert_sections]. rewrite HC. done.
Qed.

Lemma coff_Read_inv f n bs f' : coff_Read f n = Done (bs, f') -> fd_file f' = fd_file f.
Proof.
  unfold coff_Read. destruct (n <? 0); [done|]. destruct (_ =? n); [|done]. by intros [= <- <-].
Qed.

Lemma read_headers_inv f ss f' : read_headers f = Done (ss, f') -> fd_file f' = fd_file f.
Proof.
  unfold read_headers. destruct (coff_Read f _) as [[bs1 f1]|e] eqn:E1; [|done]. cbn [mbind tool_bind].
  destruct (negb _); [done|]. destruct (coff_Read f1 _) as [[bs2 f2]|e] eqn:E2; [|done]. cbn [mbind tool_bind].
  destruct (negb _); [done|]. destruct (coff_Read f2 _) as [[bs3 f3]|e] eqn:E3; [|done]. cbn [mbind tool_bind].
  intros [= <- <-]. apply coff_Read_inv in E1, E2, E3. congruence.
Qed.

(** What the produced file promises to the loader. *)
Record noff_for (coff : list Z) (ss : list scnhdr) (noff : list Z) : Prop := {
  nf_bytes : Forall is_byte noff;
  nf_len : (40 <= length noff)%nat /\ Z.of_nat (length noff) < 2 ^ 31 - 1;
  nf_magic : noffMagic (file_header noff) = NOFFMAGIC;
  nf_text : holds coff noff (of_kind KText ss) (nf_code (file_header noff));
  nf_dat : holds coff noff (of_kind KData ss) (nf_initData (file_header noff));
  nf_bss : holds_bss (of_kind KBss ss) (nf_uninitData (file_header noff))
}.

Lemma int_to_bytes_bytes x : Forall is_byte (int_to_bytes x).
Proof. apply le_enc_bytes. Qed.

Lemma noff_bytes_bytes h : Forall is_byte (noff_bytes h).
Proof.
  unfold noff_bytes. induction (noff_ints h) as [|x l IH]; [constructor|].
  rewrite bind_cons. apply Forall_app. split; [apply int_to_bytes_bytes|done].
Qed.

Lemma coff2noff_ok argc coff ss fdIn g :
  2 <= argc -> read_headers (mkFd coff 0) = Done (ss, fdIn) -> Forall is_byte coff -> coff_wf coff ss -> noff_i32 g ->
  exists noff, coff2noff argc (Some coff) true g = Done noff /\ noff_for coff ss noff.
Proof.
  intros Ha HR Hb Hwf (_ & (?&?&?) & (?&?&?) & (?&?&?)). unfold coff2noff.
  destruct (Z.ltb_spec argc 2); [lia|]. rewrite HR. cbn [mbind tool_bind fmap option_fmap option_map].
  change (lseek (mkFd [] 0) noff_size) with (mkFd [] 40). pose proof (read_headers_inv _ _ _ HR) as Hfi. cbn [fd_file] in Hfi.
  destruct (convert_sections_ok coff ss Hb [] [] (mkConv (initial_noff g) fdIn (Some (mkFd [] 40)) noff_size))
    as (f & c & -> & Hinv); [done| |].
  { constructor; try done. unfold noff_i32, initial_noff, seg_i32, empty_segment, in_i32 in *. cbn. unfold NOFFMAGIC. lia. }
  cbn [mbind tool_bind app] in *. destruct Hinv as [Hin Hout Hpos Hlen Hfb Hmag Hcode Hdata Hbss Hi].
  rewrite Hout. cbn [fmap option_fmap option_map coff_Write mbind tool_bind fd_file].
  change (lseek (mkFd f (cv_inNoffFile c)) 0) with (mkFd f 0). cbn [fd_file fd_pos]. eexists. split; [done|].
  assert (Hh : file_header (unix_write f 0 (noff_bytes (cv_hdr c))) = cv_hdr c).
  { unfold unix_write. change (Z.to_nat 0) with 0%nat. rewrite take_0. cbn [Nat.sub replicate app Nat.add].
    by apply noff_roundtrip. }
  pose proof (kind_size_bound coff KText ss (cw_scn _ _ Hwf) ltac:(done)).
  pose proof (kind_size_bound coff KData ss (cw_scn _ _ Hwf) ltac:(done)). pose proof (cw_small _ _ Hwf).
  constructor; rewrite ?Hh; try done.
  - apply unix_write_bytes; [done|apply noff_bytes_bytes].
  - rewrite length_unix_write, length_noff_bytes. change (Z.to_nat 0) with 0%nat. lia.
  - apply holds_header; [apply length_noff_bytes|done].
  - apply holds_header; [apply length_noff_bytes|done].
Qed.

(** ** From the compiler to memory *)

Definition coff_pages (ss : list scnhdr) : Z :=
  divRoundUp (kind_size KText ss + kind_size KData ss + kind_size KBss ss + UserStackSize) PageSize.

(** The program with its stack fits main memory, and its sections lie in its pages. *)
Definition coff_fits (ss : list scnhdr) : Prop :=
  kind_size KText ss + kind_size KData ss + kind_size KBss ss + UserStackSize <= MemorySize
  /\ forall k s, k <> KBss -> s ∈ of_kind k ss -> 0 <= s_paddr s /\ s_paddr s + s_size s <= 128 * coff_pages ss.

(** The section at its address. *)
Definition place (coff : list Z) (l : list scnhdr) (img : list Z) : list Z :=
  match l with [] => img | s :: _ => splice img (Z.to_nat (s_paddr s)) (section_bytes coff s) end.

Definition coff_image (coff : list Z) (ss : list scnhdr) : list Z :=
  place coff (of_kind KData ss) (place coff (of_kind KText ss) (replicate (Z.to_nat (128 * coff_pages ss)) 0)).

Lemma holds_size coff noff k ss seg : holds coff noff (of_kind k ss) seg -> sg_size seg = kind_size k ss.
Proof. unfold holds, kind_size. destruct (of_kind k ss); [done|tauto]. Qed.

Lemma holds_bss_size ss seg : holds_bss (of_kind KBss ss) seg -> sg_size seg = kind_size KBss ss.
Proof. unfold holds_bss, kind_size. destruct (of_kind KBss ss); [done|tauto]. Qed.

Lemma holds_place coff noff l seg img : holds coff noff l seg ->
  splice img (Z.to_nat (sg_virtualAddr seg)) (segment_bytes noff seg) = place coff l img.
Proof.
  unfold holds, place. destruct l as [|s l].
  - intros Hs. unfold segment_bytes, slice. rewrite Hs. by rewrite take_0, splice_nil.
  - by intros (-> & _ & _ & _ & ->).
Qed.

Lemma of_kind_size_pos coff k ss s : Forall (scn_ok coff) ss -> s ∈ of_kind k ss -> 0 < s_size s.
Proof.
  intros Hok [[Hs _] Hin]%list_elem_of_filter. apply (proj1 (Forall_forall _ _) Hok) in Hin as (_ & _ & H0 & _). lia.
Qed.

Lemma kind_size_nonneg coff k ss : Forall (scn_ok coff) ss -> 0 <= kind_size k ss.
Proof.
  intros Hok. unfold kind_size. destruct (of_kind k ss) as [|s l] eqn:E; [done|].
  assert (0 < s_size s); [|lia]. apply (of_kind_size_pos coff k ss); [done|rewrite E; left].
Qed.

Lemma noff_loadable coff ss noff :
  Forall (scn_ok coff) ss -> noff_for coff ss noff -> coff_fits ss ->
  loadable noff (file_header noff) /\ program_pages (file_header noff) = coff_pages ss.
Proof.
  intros Hok Hnf [Htot Hfit]. pose proof (holds_size _ _ _ _ _ (nf_text _ _ _ Hnf)) as Hc.
  pose proof (holds_size _ _ _ _ _ (nf_dat _ _ _ Hnf)) as Hd. pose proof (holds_bss_size _ _ (nf_bss _ _ _ Hnf)) as Hu.
  assert (Hpg : program_pages (file_header noff) = coff_pages ss) by (unfold program_pages, coff_pages; by rewrite Hc, Hd, Hu).
  assert (Hseg : forall k seg, k <> KBss -> holds coff noff (of_kind k ss) seg -> segment_ok noff (coff_pages ss) seg).
  { intros k seg Hk Hh. pose proof (holds_size _ _ _ _ _ Hh) as Hsz. pose proof (kind_size_nonneg coff k ss Hok) as H0.
    split; [lia|]. intros Hpos. unfold holds in Hh. destruct (of_kind k ss) as [|s l] eqn:E; [lia|].
    destruct Hh as (Hv & Hs & H40 & Hr & _). destruct (Hfit k s Hk) as [? ?]; [rewrite E; left|]. lia. }
  split; [|done]. constructor; rewrite ?Hpg; try done.
  - pose proof (nf_len _ _ _ Hnf). lia.
  - apply Hnf.
  - apply (Hseg KText); [done|apply Hnf].
  - apply (Hseg KData); [done|apply Hnf].
  - rewrite Hu. by apply (kind_size_nonneg coff).
  - by rewrite Hc, Hd, Hu.
Qed.

(** C12.  From the compiler to memory: for a COFF file with at most one nonempty section of
    each kind that fits the machine, coff2noff succeeds whatever was on its stack, and on a
    machine with all 32 frames free the loader, in every build, accepts the file it wrote,
    after which the memory of the new program is the text and the data of the COFF file at
    their addresses and zero everywhere else.  (Beside another program it would not be: the
    loader clears other frames than its own.) *)
Theorem coff_to_memory (flags : Flags) (argc : Z) (coff : list Z) (ss : list scnhdr) (fdIn : fd) (g : NoffHeader)
    (garbage : list Z) (m : Machine) :
  2 <= argc ->
  read_headers (mkFd coff 0) = Done (ss, fdIn) -> Forall is_byte coff -> coff_wf coff ss -> coff_fits ss -> noff_i32 g ->
  idle_machine m -> bm_free (m_bitMap m) = seqZ 0 NumPhysPages ->
  exists noff sp f' m', coff2noff argc (Some coff) true g = Done noff
    /\ AddrSpace_new flags garbage noff m = Ok (Next (sp, f') m')
    /\ as_numPages sp = coff_pages ss
    /\ space_bytes (m_mainMemory m') (seqZ 0 (coff_pages ss)) = coff_image coff ss.
Proof.
  intros Ha HR Hb Hwf Hfit Hg Hm Hfree.
  destruct (coff2noff_ok argc coff ss fdIn g Ha HR Hb Hwf Hg) as (noff & HC & Hnf).
  destruct (noff_loadable coff ss noff (cw_scn _ _ Hwf) Hnf Hfit) as [Hld Hpg].
  pose proof (loadable_pages _ _ Hld) as Hp. rewrite Hpg in Hp.
  assert (Hsplit : seqZ 0 NumPhysPages = seqZ 0 (coff_pages ss) ++ seqZ (coff_pages ss) (NumPhysPages - coff_pages ss)).
  { unfold NumPhysPages. rewrite <-seqZ_app by lia. f_equal. lia. }
  destruct (load_program_ok flags garbage noff (file_header noff) m (seqZ 0 (coff_pages ss)) (seqZ (coff_pages ss) (NumPhysPages - coff_pages ss)))
    as (sp & p & f' & m' & HN & _ & Hsb & Himg); try done.
  - apply (nf_bytes _ _ _ Hnf).
  - by rewrite Hfree.
  - rewrite length_seqZ, Hpg. lia.
  - exists noff, sp, f', m'. split_and!; [done|done| |].
    + destruct Hsb as (-> & _). done.
    + rewrite Himg by done. unfold program_image, coff_image. rewrite Hpg.
      rewrite (holds_place coff noff (of_kind KText ss) (nf_code (file_header noff))) by apply Hnf.
      by rewrite (holds_place coff noff (of_kind KData ss)) by apply Hnf.
Qed.

(** ** The defects of coff2noff *)

(** A failed [open] of the output is not noticed, but then no run succeeds: the header
    cannot be written. *)
Lemma copy_section_unopened s h c c' : cv_out c = None -> copy_section s h c <> Done c'.
Proof.
  intros Ho. unfold copy_section. destruct (coff_Read _ _) as [[bs f]|e]; cbn [mbind tool_bind]; [|done]. by rewrite Ho.
Qed.

Lemma convert_unopened ss c c' : cv_out c = None -> convert_sections ss c = Done c' -> cv_out c' = None.
Proof.
  revert c. induction ss as [|s ss IH]; intros c Ho; cbn [convert_sections]; [by intros [= <-]|].
  destruct (convert_section s c) as [c1|e] eqn:E; cbn [mbind tool_bind]; [|done]. apply IH. clear IH.
  unfold convert_section in E. destruct (s_size s =? 0); [congruence|].
  destruct (is_named s text_name); [by apply copy_section_unopened in E|].
  destruct (_ || _); [destruct (negb _); [done|by apply copy_section_unopened in E]|].
  destruct (_ || _); [|done]. destruct (negb _); [destruct (_ =? _); [done|]|]; by injection E as <-.
Qed.

Theorem coff2noff_unopened (argc : Z) (input : option (list Z)) (g : NoffHeader) (noff : list Z) :
  coff2noff argc input false g <> Done noff.
Proof.
  unfold coff2noff. destruct (argc <? 2); [done|]. destruct input as [coff|]; [|done].
  destruct (read_headers _) as [[ss fdIn]|e]; cbn [mbind tool_bind fmap option_fmap option_map]; [|done].
  destruct (convert_sections _ _) as [c|e] eqn:E; cbn [mbind tool_bind]; [|done].
  apply convert_unopened in E; [|done]. by rewrite E.
Qed.

Definition set_bss (u : Segment) (c : conv) : conv :=
  mkConv (mkNoff (noffMagic (cv_hdr c)) (nf_code (cv_hdr c)) (nf_initData (cv_hdr c)) u) (cv_in c) (cv_out c) (cv_inNoffFile c).

Lemma convert_bss s c : kind_of s = Some KBss -> s_size s <> 0 ->
  let u := nf_uninitData (cv_hdr c) in
  convert_section s c =
    if negb (sg_size u =? 0) then
      if s_paddr s =? i32 (sg_virtualAddr u + sg_size u) then Exit BothBss
      else Done (set_bss (mkSegment (sg_virtualAddr u) (sg_inFileAddr u) (i32 (sg_size u + s_size s))) c)
    else Done (set_bss (mkSegment (s_paddr s) (sg_inFileAddr u) (s_size s)) c).
Proof.
  intros Hk Hs. unfold convert_section, set_bss. destruct (Z.eqb_spec (s_size s) 0); [done|]. unfold kind_of in Hk.
  destruct (is_named s text_name); [done|]. destruct (is_named s data_name || is_named s rdata_name); [done|].
  by destruct (is_named s bss_name || is_named s sbss_name).
Qed.

(** C37.  The test for contiguous uninitialised data is inverted: after a first .bss or .sbss
    section, a second one that starts exactly where the first ends is rejected, and one
    that lies anywhere else is accepted, with the header describing one segment at the
    address of the first whose size is the sum, which need not contain the second
    section. *)
Theorem bss_check_inverted (s1 s2 : scnhdr) (c : conv) :
  kind_of s1 = Some KBss -> kind_of s2 = Some KBss -> 0 < s_size s1 < 2 ^ 30 -> 0 < s_size s2 < 2 ^ 30 ->
  0 <= s_paddr s1 < 2 ^ 30 -> sg_size (nf_uninitData (cv_hdr c)) = 0 ->
  (s_paddr s2 = s_paddr s1 + s_size s1 -> convert_sections [s1; s2] c = Exit BothBss)
  /\ (s_paddr s2 <> s_paddr s1 + s_size s1 -> exists c', convert_sections [s1; s2] c = Done c'
        /\ sg_virtualAddr (nf_uninitData (cv_hdr c')) = s_paddr s1
        /\ sg_size (nf_uninitData (cv_hdr c')) = s_size s1 + s_size s2).
Proof.
  intros Hk1 Hk2 Hs1 Hs2 Hp1 Hz. cbn [convert_sections].
  rewrite (convert_bss s1) by (done || lia). cbv zeta. rewrite Hz. change (negb (0 =? 0)) with false. cbn [mbind tool_bind].
  rewrite (convert_bss s2) by (done || lia). unfold set_bss. cbn [cv_hdr nf_uninitData sg_size sg_virtualAddr].
  destruct (Z.eqb_spec (s_size s1) 0); [lia|]. cbn [negb]. rewrite !i32_id by (unfold in_i32; lia).
  destruct (Z.eqb_spec (s_paddr s2) (s_paddr s1 + s_size s1)) as [He|He].
  - split; [done|]. by intros [].
  - split; [done|]. intros _. eexists. split; [done|]. done.
Qed.

(** ** coff2flat *)

Definition is_bss (s : scnhdr) : bool := is_named s bss_name || is_named s sbss_name.

(** The sections coff2flat copies, one after the other. *)
Definition flat_sections (coff : list Z) (ss : list scnhdr) : list Z :=
  ss ≫= fun s => if is_bss s then [] else section_bytes coff s.

Definition flat_top (ss : list scnhdr) (top : Z) : Z :=
  foldl (fun top s => if top <? i32 (s_paddr s + s_size s) then i32 (s_paddr s + s_size s) else top) top ss.

Definition flat_ok (coff : list Z) (s : scnhdr) : Prop :=
  is_bss s = false -> 0 <= s_size s /\ 0 <= s_scnptr s /\ s_scnptr s + s_size s <= Z.of_nat (length coff).

Lemma flatten_sections_ok coff ss : Forall (flat_ok coff) ss -> forall fdIn f top,
  fd_file fdIn = coff ->
  flatten_sections ss fdIn (Some (mkFd f (Z.of_nat (length f)))) top
  = Done (Some (mkFd (f ++ flat_sections coff ss) (Z.of_nat (length (f ++ flat_sections coff ss)))), flat_top ss top).
Proof.
  induction 1 as [|s ss Hs _ IH]; intros fdIn f top Hin.
  { cbn. by rewrite app_nil_r. }
  cbn [flatten_sections flat_top foldl]. unfold flatten_section, flat_sections. rewrite bind_cons. fold (flat_sections coff ss).
  unfold flat_ok, is_bss in *. rewrite <-negb_orb. destruct (is_named s bss_name || is_named s sbss_name); cbn [negb].
  - cbn [mbind tool_bind app]. by apply IH.
  - destruct (Hs eq_refl) as (H0 & Hp & Hr). unfold coff_Read, lseek. destruct (Z.ltb_spec (s_scnptr s) 0); [lia|].
    destruct (Z.ltb_spec (s_size s) 0); [lia|]. cbn [fd_file fd_pos]. rewrite Hin.
    assert (Hl : Z.of_nat (length (section_bytes coff s)) = s_size s)
      by (unfold section_bytes; rewrite length_slice by lia; lia).
    change (unix_read coff (s_scnptr s) (s_size s)) with (section_bytes coff s). rewrite Hl.
    destruct (Z.eqb_spec (s_size s) (s_size s)); [|done]. cbn [mbind tool_bind coff_Write fd_file fd_pos].
    rewrite unix_write_end, Nat2Z.id, Nat.sub_diag by lia. cbn [replicate app].
    rewrite <-Nat2Z.inj_add, <-length_app, (IH _ (f ++ section_bytes coff s)) by done. by rewrite !(assoc_L (++)).
Qed.

(** The pieces are not loaded at their offsets, as the comment at the top of the file says:
    coff2flat writes the sections one after the other, wherever their addresses are, so
    the second section starts where the first one ends. *)
Theorem coff2flat_concatenates (argc : Z) (coff : list Z) (ss : list scnhdr) (fdIn : fd) :
  2 <= argc -> read_headers (mkFd coff 0) = Done (ss, fdIn) -> Forall (flat_ok coff) ss ->
  Z.of_nat (length (flat_sections coff ss)) <= i32 (flat_top ss 0 + StackSize - 4) ->
  exists flat, coff2flat argc (Some coff) true = Done flat
    /\ take (length (flat_sections coff ss)) flat = flat_sections coff ss
    /\ Z.of_nat (length flat) = i32 (flat_top ss 0 + StackSize - 4) + 4.
Proof.
  intros Ha HR Hok Htop. unfold coff2flat. destruct (Z.ltb_spec argc 2); [lia|]. rewrite HR. cbn [mbind tool_bind].
  pose proof (read_headers_inv _ _ _ HR) as Hfi. cbn [fd_file] in Hfi.
  pose proof (flatten_sections_ok coff ss Hok fdIn [] 0 Hfi) as HF. cbn [length app] in HF. change (Z.of_nat 0) with 0 in HF. rewrite HF. clear HF.
  cbn [mbind tool_bind fmap option_fmap option_map coff_Write]. unfold lseek.
  destruct (Z.ltb_spec (i32 (flat_top ss 0 + StackSize - 4)) 0); [lia|]. cbn [fd_file fd_pos].
  eexists. split; [done|]. rewrite unix_write_end by lia. rewrite take_app_length. split; [done|].
  rewrite !length_app, length_replicate, length_int_to_bytes. lia.
Qed.

(** ** A concrete object file *)

Definition coff_section (name : list Z) (paddr size scnptr : Z) : list Z :=
  take 8 (name ++ replicate 8 0) ++ (int_to_bytes paddr ++ int_to_bytes paddr ++ int_to_bytes size ++ int_to_bytes scnptr)
  ++ replicate 16 0.

(** Text of 8 bytes at 0, data of 4 bytes at 128, 100 bytes of .bss. *)
Definition sample_coff : list Z :=
  (le_enc 2 MIPSELMAGIC ++ le_enc 2 3 ++ replicate 16 0) ++ (le_enc 2 OMAGIC ++ replicate 54 0)
  ++ coff_section text_name 0 8 196 ++ coff_section rdata_name 128 4 204 ++ coff_section bss_name 132 100 0
  ++ [1; 2; 3; 4; 5; 6; 7; 8] ++ [21; 22; 23; 24].

Definition sample_sections : list scnhdr :=
  [mkScnhdr (text_name ++ [0; 0; 0]) 0 8 196; mkScnhdr (rdata_name ++ [0; 0]) 128 4 204; mkScnhdr (bss_name ++ replicate 4 0) 132 100 0].

Example sample_noff :
  (noff ← coff2noff 3 (Some sample_coff) true (mkNoff 7 (mkSegment 7 7 7) (mkSegment 7 7 7) (mkSegment 7 7 7));
   Done (file_header noff, drop 40 noff))
  = Done (mkNoff NOFFMAGIC (mkSegment 0 40 8) (mkSegment 128 48 4) (mkSegment 132 7 100), [1; 2; 3; 4; 5; 6; 7; 8; 21; 22; 23; 24]).
Proof. vm_compute. reflexivity. Qed.

Example sample_flat :
  (flat ← coff2flat 3 (Some sample_coff) true; Done (length flat, take 14 flat))
  = Done (1256%nat, [1; 2; 3; 4; 5; 6; 7; 8; 21; 22; 23; 24; 0; 0]).
Proof. vm_compute. reflexivity. Qed.

Lemma sample_headers : read_headers (mkFd sample_coff 0) = Done (sample_sections, mkFd sample_coff 196).
Proof. vm_compute. reflexivity. Qed.

Lemma sample_coff_wf : coff_wf sample_coff sample_sections.
Proof.
  constructor.
  - repeat constructor; try (unfold in_i32; cbn; lia); try (by vm_compute); try (intros; split; by vm_compute).
  - intros []; by vm_compute; lia.
  - by vm_compute.
Qed.

Lemma sample_coff_fits : coff_fits sample_sections.
Proof.
  split; [by vm_compute|]. intros k s Hk Hs. destruct k; [| |done].
  - assert (Hs' : s ∈ [mkScnhdr (text_name ++ [0; 0; 0]) 0 8 196]) by exact Hs.
    apply list_elem_of_singleton in Hs' as ->. by vm_compute.
  - assert (Hs' : s ∈ [mkScnhdr (rdata_name ++ [0; 0]) 128 4 204]) by exact Hs.
    apply list_elem_of_singleton in Hs' as ->. by vm_compute.
Qed.

Lemma sample_coff_bytes : Forall is_byte sample_coff.
Proof. apply (bool_decide_unpack _). by vm_compute. Qed.

Lemma coff_to_memory_witness :
  exists noff sp f' m',
    coff2noff 3 (Some sample_coff) true (mkNoff 0 (mkSegment 0 0 0) (mkSegment 0 0 0) (mkSegment 0 0 0)) = Done noff
    /\ AddrSpace_new userprog_flags [] noff (plain_machine 0) = Ok (Next (sp, f') m')
    /\ as_numPages sp = coff_pages sample_sections
    /\ space_bytes (m_mainMemory m') (seqZ 0 (coff_pages sample_sections)) = coff_image sample_coff sample_sections.
Proof.
  apply (coff_to_memory userprog_flags 3 sample_coff sample_sections (mkFd sample_coff 196)).
  - lia.
  - exact sample_headers.
  - exact sample_coff_bytes.
  - exact sample_coff_wf.
  - exact sample_coff_fits.
  - unfold noff_i32, seg_i32, in_i32. cbn. lia.
  - by apply plain_machine_idle.
  - by vm_compute.
Defined.

(** Contiguous .bss and .sbss. *)
Lemma bss_check_inverted_witness :
  let s1 := mkScnhdr (bss_name ++ replicate 4 0) 256 16 0 in
  let c := mkConv (initial_noff (mkNoff 0 (mkSegment 0 0 0) (mkSegment 0 0 0) (mkSegment 0 0 0))) (mkFd [] 0) None 40 in
  convert_sections [s1; mkScnhdr (sbss_name ++ replicate 3 0) 272 8 0] c = Exit BothBss
  /\ exists c', convert_sections [s1; mkScnhdr (sbss_name ++ replicate 3 0) 512 8 0] c = Done c'.
Proof.
  intros s1 c. split.
  - apply (bss_check_inverted s1 (mkScnhdr (sbss_name ++ replicate 3 0) 272 8 0) c); try done; by cbn; lia.
  - destruct (bss_check_inverted s1 (mkScnhdr (sbss_name ++ replicate 3 0) 512 8 0) c) as [_ H]; try done; try (by cbn; lia).
    destruct H as (c' & HC & _); [by cbn; lia|]. by exists c'.
Defined.
