(* ===== verification/Tlb.v ===== *)
(** * The software-managed TLB

    What [Machine::tlbSwap] and the retry in [ReadMem] do on a TLB miss.  In the builds
    with a TLB [AddrSpace::RestoreState] makes [machine->tlb] point to the page table of
    the address space, so the four TLB entries are the first four entries of that table. *)

From S2P Require Import Prelude BitMap Interrupt Machine Mips MachineSafe.

Section Table.
Context (p : positive) (t : list TranslationEntry).

Lemma table_entry_at m i e : m_tables m !! p = Some t -> t !! i = Some e -> table_entry (Some p) i m = Ok (Next e m).
Proof. intros Ht He. unfold table_entry. cbn [deref mbind result_bind]. rewrite Ht. cbn [deref mbind result_bind]. by rewrite He. Qed.

(** An entry for the page. *)
Definition matches (vpn : Z) (e : TranslationEntry) : bool := te_valid e && (u32 (te_virtualPage e) =? vpn).

(** The entries at the given positions exist and satisfy a predicate. *)
Definition all_at (P : TranslationEntry -> Prop) (idxs : list nat) : Prop :=
  Forall (fun i => exists e, t !! i = Some e /\ P e) idxs.

Lemma tlb_search_miss vpn idxs m :
  m_tables m !! p = Some t -> all_at (fun e => matches vpn e = false) idxs ->
  tlb_search (Some p) vpn idxs m = Ok (Next None m).
Proof.
  intros Ht. induction 1 as [|i idxs (e & He & Hm) _ IH]; [done|]. cbn [tlb_search].
  rewrite (user_bind_Ok _ _ m e m) by by apply table_entry_at. unfold matches in Hm. by rewrite Hm.
Qed.

(** A hit counts. *)
Definition hit (e : TranslationEntry) : TranslationEntry :=
  mkTE (te_virtualPage e) (te_physicalPage e) (te_valid e) (te_readOnly e) (te_use e) (te_dirty e) (i32 (te_hitRate e + 1)).

Lemma tlb_search_hit vpn l1 i l2 e m :
  m_tables m !! p = Some t -> all_at (fun e => matches vpn e = false) l1 -> t !! i = Some e -> matches vpn e = true ->
  tlb_search (Some p) vpn (l1 ++ i :: l2) m
    = Ok (Next (Some i) (m_set_tables (<[p := <[i := hit e]> t]> (m_tables m)) m)).
Proof.
  intros Ht Hl He Hm. induction Hl as [|j l1 (e' & He' & Hm') _ IH]; cbn [app tlb_search].
  - rewrite (user_bind_Ok _ _ m e m) by by apply table_entry_at. unfold matches in Hm. rewrite Hm.
    rewrite (user_bind_Ok _ _ m tt (m_set_tables (<[p := <[i := hit e]> t]> (m_tables m)) m)); [done|].
    unfold set_entry. cbn [deref mbind result_bind]. rewrite Ht. cbn [deref mbind result_bind]. by rewrite He.
  - rewrite (user_bind_Ok _ _ m e' m) by by apply table_entry_at. unfold matches in Hm'. by rewrite Hm'.
Qed.

Lemma tlb_free_none idxs m :
  m_tables m !! p = Some t -> all_at (fun e => te_valid e = true) idxs -> tlb_free (Some p) idxs m = Ok (Next None m).
Proof.
  intros Ht. induction 1 as [|i idxs (e & He & Hv) _ IH]; [done|]. cbn [tlb_free].
  rewrite (user_bind_Ok _ _ m e m) by by apply table_entry_at. by rewrite Hv.
Qed.

(** The victim has the fewest hits among the entries looked at so far. *)
Lemma tlb_least_some idxs m min j ej :
  m_tables m !! p = Some t -> all_at (fun e => te_valid e = true) idxs -> t !! j = Some ej -> te_hitRate ej = min ->
  exists i e, tlb_least (Some p) idxs min (Some j) m = Ok (Next (Some i) m) /\ i ∈ j :: idxs /\ t !! i = Some e
    /\ te_hitRate e <= min /\ forall k ek, k ∈ idxs -> t !! k = Some ek -> te_hitRate e <= te_hitRate ek.
Proof.
  intros Ht Hl. revert min j ej. induction Hl as [|i idxs (e & He & Hv) _ IH]; intros min j ej Hj Hmin; cbn [tlb_least].
  - exists j, ej. split_and!; [done|by left|done|lia|]. by intros k ek Hk%elem_of_nil.
  - rewrite (user_bind_Ok _ _ m e m) by by apply table_entry_at. rewrite Hv. cbn [andb].
    destruct (Z.ltb_spec (te_hitRate e) min) as [Hlt|Hge].
    + destruct (IH (te_hitRate e) i e He eq_refl) as (i' & e' & HT & Hin & He' & Hle & Hmin'). exists i', e'.
      split; [done|]. split; [by right|]. split; [done|]. split; [lia|].
      intros k ek [->|Hk]%elem_of_cons Hek; [by simplify_eq|by eapply Hmin'].
    + destruct (IH min j ej Hj Hmin) as (i' & e' & HT & Hin & He' & Hle & Hmin'). exists i', e'.
      split; [done|]. split; [apply elem_of_cons in Hin as [->|]; [by left|by right; right]|]. split; [done|]. split; [lia|].
      intros k ek [->|Hk]%elem_of_cons Hek; [simplify_eq; lia|by eapply Hmin'].
Qed.
End Table.

(** The entry a miss installs in place of the victim [e]. *)
Definition replaced (vpn : Z) (e : TranslationEntry) : TranslationEntry := mkTE vpn (te_physicalPage e) true false false false 0.

Definition set_table (p : positive) (t : list TranslationEntry) (m : Machine) : Machine :=
  m_set_tables (<[p := t]> (m_tables m)) m.

Definition tlb_full (t : list TranslationEntry) : Prop :=
  all_at t (fun e => te_valid e = true /\ te_hitRate e < 2 ^ 31 - 1) (seq 0 TLBSize).

Lemma all_at_impl t (P Q : TranslationEntry -> Prop) idxs :
  all_at t P idxs -> (forall e, P e -> Q e) -> all_at t Q idxs.
Proof. intros Ha Hi. eapply Forall_impl; [exact Ha|]. intros i (e & He & Hp). exists e. auto. Qed.

Lemma tlbSwap_full flags m p t vaddr :
  TLB_LRU flags = true -> m_tlb m = Some p -> m_tables m !! p = Some t -> tlb_full t ->
  exists i e, (i < TLBSize)%nat /\ t !! i = Some e
    /\ (forall k ek, (k < TLBSize)%nat -> t !! k = Some ek -> te_hitRate e <= te_hitRate ek)
    /\ Machine_tlbSwap flags vaddr m = Ok (Next tt (set_table p (<[i := replaced (vaddr `quot` PageSize) e]> t) m)).
Proof.
  intros Hlru Htlb Ht Hfull. unfold Machine_tlbSwap. rewrite Hlru.
  rewrite (user_bind_Ok _ _ m (Some p) m) by (unfold gets; by rewrite Htlb).
  rewrite (user_bind_Ok _ _ m (m_pageTable m) m), (user_bind_Ok _ _ m tt m) by done.
  rewrite (user_bind_Ok _ _ m None m)
    by (apply (tlb_free_none p t); [done|]; eapply all_at_impl; [exact Hfull|]; by intros e [? _]).
  change (i32 (i32 (Z.shiftl 1 31) - 1)) with (2 ^ 31 - 1).
  destruct (Forall_cons_1 _ _ _ Hfull) as [(e0 & He0 & Hv0 & Hh0) Hrest].
  destruct (tlb_least_some p t (seq 1 3) m (te_hitRate e0) 0 e0 Ht) as (i & e & HT & Hin & He & Hle & Hmin); try done.
  { eapply all_at_impl; [exact Hrest|]. by intros e [? _]. }
  exists i, e. assert (Hi : (i < TLBSize)%nat).
  { unfold TLBSize. apply elem_of_cons in Hin as [->|Hin]; [lia|]. apply elem_of_seq in Hin. lia. }
  split; [done|]. split; [done|]. split.
  { intros k ek Hk Hek. destruct k as [|k]; [by simplify_eq|]. apply (Hmin (S k)); [|done]. apply elem_of_seq. unfold TLBSize in Hk. lia. }
  assert (HL : tlb_least (Some p) (seq 0 TLBSize) (2 ^ 31 - 1) None m = Ok (Next (Some i) m)).
  { change (seq 0 TLBSize) with (0%nat :: seq 1 3). cbn [tlb_least].
    rewrite (user_bind_Ok _ _ m e0 m) by by apply (table_entry_at p t). rewrite Hv0. cbn [andb].
    destruct (Z.ltb_spec (te_hitRate e0) (2 ^ 31 - 1)); [done|lia]. }
  rewrite (user_bind_Ok _ _ m (Some i) m HL), (user_bind_Ok _ _ m i m) by done.
  rewrite (user_bind_Ok _ _ m e m) by by apply (table_entry_at p t).
  unfold set_entry. cbn [deref mbind result_bind]. rewrite Ht. cbn [deref mbind result_bind]. by rewrite He.
Qed.

Lemma set_reg_bind {A} i v (k : unit -> user A) m :
  0 <= i < Z.of_nat (length (m_registers m)) ->
  (set_reg i v ≫= k) m = k tt (m_set_registers (<[Z.to_nat i := v]> (m_registers m)) m).
Proof. intros Hi. apply user_bind_Ok. by apply set_reg_eq. Qed.

(** The registers when the kernel handles a page fault. *)
Lemma RaiseException_page_fault flags m addr :
  length (m_registers m) = NumTotalRegs -> (exists r, m_registers m !! 37%nat = Some r /\ 0 <= r < 32) ->
  exists regs, length regs = NumTotalRegs /\
    forall p, m_tlb m = Some p ->
    Machine_RaiseException flags PageFaultException addr m
      = (Machine_tlbSwap flags addr ;; modify (m_set_status UserMode)) (m_set_status SystemMode (m_set_registers regs m)).
Proof.
  intros Hl (r & Hr & Hr32).
  destruct (lookup_lt_is_Some_2 (m_registers m) 38) as [v Hv]; [rewrite Hl; unfold NumTotalRegs; lia|].
  set (regs := <[0%nat := 0]> (<[38%nat := 0]> (<[37%nat := 0]> (<[Z.to_nat r := v]> (<[39%nat := addr]> (m_registers m)))))).
  assert (Hlr : length regs = NumTotalRegs) by (unfold regs; by rewrite !length_insert).
  exists regs. split; [done|]. intros p Hp. unfold Machine_RaiseException.
  set (m1 := m_set_registers (<[39%nat := addr]> (m_registers m)) m).
  rewrite (user_bind_Ok _ _ m tt m1) by (apply (set_reg_eq 39); rewrite Hl; unfold NumTotalRegs; lia).
  rewrite (user_bind_Ok _ _ m1 tt (m_set_registers regs m)).
  2:{ unfold Machine_DelayedLoad.
      rewrite (user_bind_Ok _ _ m1 r m1) by (apply reg_eq; [done|]; cbn; rewrite list_lookup_insert_ne by done; done).
      rewrite (user_bind_Ok _ _ m1 v m1) by (apply reg_eq; [done|]; cbn; rewrite list_lookup_insert_ne by done; done).
      do 3 rewrite set_reg_bind by (cbn; rewrite ?length_insert, Hl; unfold NumTotalRegs, LoadReg, LoadValueReg; lia).
      rewrite set_reg_eq by (cbn; rewrite !length_insert, Hl; unfold NumTotalRegs; lia). done. }
  rewrite (user_bind_Ok _ _ _ tt (m_set_status SystemMode (m_set_registers regs m))) by done.
  set (m2 := m_set_status _ _). destruct (lookup_lt_is_Some_2 regs 2) as [ty Hty]; [rewrite Hlr; unfold NumTotalRegs; lia|].
  assert (HH : ExceptionHandler flags PageFaultException m2 = Machine_tlbSwap flags addr m2).
  { unfold ExceptionHandler, Machine_ReadRegister.
    rewrite (user_bind_Ok _ _ m2 ty m2) by (rewrite (user_bind_Ok _ _ m2 tt m2) by done; by apply reg_eq).
    change (bool_decide (PageFaultException = SyscallException)) with false. cbn [andb].
    change (bool_decide (PageFaultException = PageFaultException)) with true. cbn iota.
    rewrite (user_bind_Ok _ _ m2 addr m2).
    - rewrite (user_bind_Ok _ _ m2 (Some p) m2) by (unfold gets; cbn; by rewrite Hp). done.
    - rewrite (user_bind_Ok _ _ m2 tt m2) by done. apply reg_eq; [done|]. cbn. unfold regs.
      change (Z.to_nat BadVAddrReg) with 39%nat. rewrite !list_lookup_insert_ne by lia.
      apply list_lookup_insert_eq. rewrite Hl. unfold NumTotalRegs. lia. }
  unfold mbind, user_bind. rewrite HH. by destruct (Machine_tlbSwap flags addr m2) as [[]|].
Qed.

(** ** Translation through the TLB, of single bytes *)

Definition byte_vpn (addr : Z) : Z := u32 addr `div` PageSize.

Lemma Translate_tlb_miss m p t addr w :
  m_tlb m = Some p -> m_pageTable m = None -> m_tables m !! p = Some t ->
  all_at t (fun e => matches (byte_vpn addr) e = false) (seq 0 TLBSize) ->
  Machine_Translate addr 1 w m = Ok (Next (PageFaultException, 0) m).
Proof.
  intros Htlb Hpt Ht Hmiss. unfold Machine_Translate.
  change ((1 =? 4) && negb (Z.land addr 3 =? 0) || (1 =? 2) && negb (Z.land addr 1 =? 0)) with false. cbn iota.
  rewrite (user_bind_Ok _ _ m (Some p) m), (user_bind_Ok _ _ m None m), (user_bind_Ok _ _ m (m_pageTableSize m) m)
    by (unfold gets; by rewrite ?Htlb, ?Hpt).
  do 2 (rewrite (user_bind_Ok _ _ m tt m) by done).
  rewrite (user_bind_Ok _ _ m (inl PageFaultException) m); [done|].
  by rewrite (user_bind_Ok _ _ m None m) by by apply (tlb_search_miss p t).
Qed.

(** The entry after an access that was treated as a write. *)
Definition written (e : TranslationEntry) : TranslationEntry :=
  mkTE (te_virtualPage e) (te_physicalPage e) (te_valid e) (te_readOnly e) true true (i32 (te_hitRate e + 1)).

Lemma Translate_tlb_hit m p t addr l1 i l2 e :
  m_tlb m = Some p -> m_pageTable m = None -> m_tables m !! p = Some t -> seq 0 TLBSize = l1 ++ i :: l2 ->
  all_at t (fun e => matches (byte_vpn addr) e = false) l1 -> t !! i = Some e -> matches (byte_vpn addr) e = true ->
  te_readOnly e = false -> 0 <= te_physicalPage e < NumPhysPages ->
  Machine_Translate addr 1 true m
    = Ok (Next (NoException, te_physicalPage e * PageSize + u32 addr `mod` PageSize) (set_table p (<[i := written e]> t) m)).
Proof.
  intros Htlb Hpt Ht Hseq Hl He Hm Hro Hph. unfold Machine_Translate. fold (byte_vpn addr).
  change ((1 =? 4) && negb (Z.land addr 3 =? 0) || (1 =? 2) && negb (Z.land addr 1 =? 0)) with false. cbn iota.
  rewrite (user_bind_Ok _ _ m (Some p) m), (user_bind_Ok _ _ m None m), (user_bind_Ok _ _ m (m_pageTableSize m) m)
    by (unfold gets; by rewrite ?Htlb, ?Hpt).
  do 2 (rewrite (user_bind_Ok _ _ m tt m) by done).
  set (m1 := set_table p (<[i := hit e]> t) m).
  rewrite (user_bind_Ok _ _ m (inr (Some p, i)) m1).
  2:{ rewrite Hseq. rewrite (user_bind_Ok _ _ m (Some i) m1) by by apply tlb_search_hit. done. }
  assert (Hi : (i < length t)%nat) by by apply lookup_lt_Some in He.
  assert (Ht1 : m_tables m1 !! p = Some (<[i := hit e]> t)) by apply lookup_insert_eq.
  assert (He1 : <[i := hit e]> t !! i = Some (hit e)) by by apply list_lookup_insert_eq.
  rewrite (user_bind_Ok _ _ m1 (hit e) m1) by by apply (table_entry_at p (<[i := hit e]> t)).
  cbn [hit te_readOnly te_physicalPage te_virtualPage te_valid te_dirty te_hitRate]. rewrite Hro. cbn [andb].
  rewrite u32_id by (unfold in_u32, NumPhysPages in *; lia).
  destruct (Z.leb_spec NumPhysPages (te_physicalPage e)); [lia|].
  rewrite (user_bind_Ok _ _ m1 tt (set_table p (<[i := written e]> t) m)).
  2:{ unfold set_entry. cbn [deref mbind result_bind]. rewrite Ht1. cbn [deref mbind result_bind]. rewrite He1.
      cbn [deref mbind result_bind]. unfold m1, set_table, written. cbn [m_tables m_set_tables].
      unfold m_set_tables. cbn [m_registers m_mainMemory m_tlb m_pageTable m_pageTableSize m_bitMap m_status].
      rewrite insert_insert_eq, list_insert_insert_eq, Hro. done. }
  pose proof (Z.mod_pos_bound (u32 addr) PageSize ltac:(unfold PageSize; lia)) as Hoff.
  rewrite (user_bind_Ok _ _ _ tt (set_table p (<[i := written e]> t) m)); [done|].
  unfold ASSERT_u, lift. rewrite ASSERT_true; [done|]. unfold MemorySize, NumPhysPages, PageSize in *. apply andb_true_iff. lia.
Qed.

Lemma seq_split n i : (i < n)%nat -> seq 0 n = seq 0 i ++ i :: seq (S i) (n - S i).
Proof. intros Hi. rewrite <-(Nat.sub_add i n) at 1 by lia. rewrite Nat.add_comm, seq_app. f_equal. cbn. by replace (n - i)%nat with (S (n - S i)) by lia. Qed.

Lemma load_byte pa b m : 0 <= pa -> m_mainMemory m !! Z.to_nat pa = Some b -> load pa 1 m = Ok (Next [b] m).
Proof.
  intros H0 Hb. unfold load. pose proof (lookup_lt_Some _ _ _ Hb) as Hlt. destruct (Z.leb_spec 0 pa); [|lia].
  destruct (Z.leb_spec (pa + Z.of_nat 1) (Z.of_nat (length (m_mainMemory m)))); [|lia].
  cbn [andb]. unfold slice. by rewrite (drop_S _ b) by done.
Qed.

Lemma no_match t vpn :
  all_at t (fun e => te_virtualPage e <> vpn /\ in_u32 (te_virtualPage e)) (seq 0 TLBSize) ->
  all_at t (fun e => matches vpn e = false) (seq 0 TLBSize).
Proof.
  intros Hmiss. eapply all_at_impl; [exact Hmiss|]. intros e [Hne Hr]. unfold matches. rewrite u32_id by done.
  destruct (Z.eqb_spec (te_virtualPage e) vpn); [done|]. apply andb_false_r.
Qed.

Lemma byte_vpn_range addr : 0 <= addr < 2 ^ 31 -> addr `quot` PageSize = byte_vpn addr /\ 0 <= byte_vpn addr < 2 ^ 32.
Proof.
  intros Ha. unfold byte_vpn. rewrite u32_id by (unfold in_u32; lia). unfold PageSize.
  split; [apply Z.quot_div_nonneg; lia|]. Z.div_mod_to_equations. lia.
Qed.

(** The kernel's reaction to a TLB miss: the entry with the fewest hits gets the page. *)
Lemma page_fault_replaces (flags : Flags) (m : Machine) (p : positive) (t : list TranslationEntry) (addr : Z) :
  TLB_LRU flags = true -> m_tlb m = Some p -> m_tables m !! p = Some t -> tlb_full t -> 0 <= addr < 2 ^ 31 ->
  length (m_registers m) = NumTotalRegs -> (exists r, m_registers m !! 37%nat = Some r /\ 0 <= r < 32) ->
  exists i victim regs, (i < TLBSize)%nat /\ t !! i = Some victim
    /\ (forall k e, (k < TLBSize)%nat -> t !! k = Some e -> te_hitRate victim <= te_hitRate e)
    /\ Machine_RaiseException flags PageFaultException addr m
       = Ok (Next tt (m_set_status UserMode (set_table p (<[i := replaced (byte_vpn addr) victim]> t)
                        (m_set_status SystemMode (m_set_registers regs m))))).
Proof.
  intros Hlru Htlb Ht Hfull Haddr Hregs Hload.
  destruct (RaiseException_page_fault flags m addr Hregs Hload) as (regs & Hlr & HR). specialize (HR p Htlb).
  set (m1 := m_set_status SystemMode (m_set_registers regs m)) in HR.
  destruct (tlbSwap_full flags m1 p t addr Hlru Htlb Ht Hfull) as (i & victim & Hi & Hv & Hmin & HS).
  rewrite (proj1 (byte_vpn_range addr Haddr)) in HS. exists i, victim, regs. split; [done|]. split; [done|]. split; [done|].
  by rewrite HR, (user_bind_Ok _ _ m1 tt _ HS).
Qed.

(** The second translation finds the replaced entry, and so the victim's frame. *)
Lemma Translate_replaced (m : Machine) (p : positive) (t : list TranslationEntry) (addr : Z) (i : nat) (victim : TranslationEntry) :
  m_tlb m = Some p -> m_pageTable m = None -> m_tables m !! p = Some (<[i := replaced (byte_vpn addr) victim]> t) ->
  all_at t (fun e => matches (byte_vpn addr) e = false) (seq 0 TLBSize) -> 0 <= addr < 2 ^ 31 ->
  (i < TLBSize)%nat -> (i < length t)%nat -> 0 <= te_physicalPage victim < NumPhysPages ->
  Machine_Translate addr 1 true m
  = Ok (Next (NoException, te_physicalPage victim * PageSize + u32 addr `mod` PageSize)
          (set_table p (<[i := written (replaced (byte_vpn addr) victim)]> t) m)).
Proof.
  intros Htlb Hpt Ht Hmiss Haddr Hi Hit Hph. set (e1 := replaced (byte_vpn addr) victim) in *.
  rewrite <-(list_insert_insert_eq t i (written e1) e1).
  apply (Translate_tlb_hit m p (<[i := e1]> t) addr (seq 0 i) i (seq (S i) (TLBSize - S i)) e1); try done.
  - by apply seq_split.
  - apply Forall_forall. intros k Hk. apply elem_of_seq in Hk.
    pose proof (proj1 (Forall_forall _ _) Hmiss k ltac:(apply elem_of_seq; unfold TLBSize in *; lia)) as (e & He & Hm).
    exists e. rewrite list_lookup_insert_ne by lia. done.
  - by apply list_lookup_insert_eq.
  - unfold matches, e1, replaced. cbn. apply Z.eqb_eq, u32_id. apply byte_vpn_range, Haddr.
Qed.

(** C35.  A TLB miss maps the page to the victim's frame: in the LRU build, with the four entries
    in use, a byte read from a page [vpn >= 4] of the running program replaces the entry
    with the fewest hits but keeps its physical page.  The read returns the byte of the
    victim's frame, not of the frame the page was loaded into (the frames of a program are
    distinct), and leaves the page marked dirty although it was only read. *)
Theorem tlb_miss_wrong_frame (flags : Flags) (junk : Z) (m : Machine) (p : positive) (t : list TranslationEntry) (addr : Z) :
  TLB_LRU flags = true -> m_tlb m = Some p -> m_pageTable m = None -> m_tables m !! p = Some t ->
  tlb_full t -> all_at t (fun e => te_virtualPage e <> byte_vpn addr /\ in_u32 (te_virtualPage e)) (seq 0 TLBSize) ->
  Forall (fun e => 0 <= te_physicalPage e < NumPhysPages) t -> NoDup (te_physicalPage <$> t) ->
  0 <= addr < 2 ^ 31 -> 4 <= byte_vpn addr < Z.of_nat (length t) ->
  length (m_registers m) = NumTotalRegs -> (exists r, m_registers m !! 37%nat = Some r /\ 0 <= r < 32) ->
  Z.of_nat (length (m_mainMemory m)) = MemorySize ->
  exists i victim own b m', (i < TLBSize)%nat /\ t !! i = Some victim
    /\ (forall k e, (k < TLBSize)%nat -> t !! k = Some e -> te_hitRate victim <= te_hitRate e)
    /\ t !! Z.to_nat (byte_vpn addr) = Some own /\ te_physicalPage own <> te_physicalPage victim
    /\ m_mainMemory m !! Z.to_nat (te_physicalPage victim * PageSize + addr `mod` PageSize) = Some b
    /\ Machine_ReadMem flags junk addr 1 m = Ok (Next (Some (i8 b)) m')
    /\ m_tables m' !! p = Some (<[i := mkTE (byte_vpn addr) (te_physicalPage victim) true false true true 1]> t).
Proof.
  intros Hlru Htlb Hpt Ht Hfull Hmiss Hph Hnd Haddr Hvpn Hregs Hload Hmem. apply no_match in Hmiss.
  destruct (page_fault_replaces flags m p t addr Hlru Htlb Ht Hfull Haddr Hregs Hload) as (i & victim & regs & Hi & Hv & Hmin & HR).
  set (m2 := m_set_status UserMode _) in HR. pose proof (Forall_lookup_1 _ _ _ _ Hph Hv) as Hphv.
  assert (HT2 := Translate_replaced m2 p t addr i victim Htlb Hpt (lookup_insert_eq _ _ _) Hmiss Haddr Hi (lookup_lt_Some _ _ _ Hv) Hphv).
  rewrite u32_id in HT2 by (unfold in_u32; lia). set (m3 := set_table p _ m2) in HT2.
  pose proof (Z.mod_pos_bound addr PageSize ltac:(unfold PageSize; lia)) as Hoff.
  set (pa := te_physicalPage victim * PageSize + addr `mod` PageSize) in *.
  assert (Hpa : 0 <= pa < MemorySize) by (unfold pa, MemorySize, NumPhysPages, PageSize in *; lia).
  destruct (lookup_lt_is_Some_2 (m_mainMemory m) (Z.to_nat pa)) as [b Hb]; [lia|].
  destruct (lookup_lt_is_Some_2 t (Z.to_nat (byte_vpn addr))) as [own Hown]; [lia|].
  exists i, victim, own, b, m3. split; [done|]. split; [done|]. split; [done|]. split; [done|]. split.
  { intros Heq. assert (Z.to_nat (byte_vpn addr) = i); [|unfold TLBSize in Hi; lia].
    apply (NoDup_lookup _ _ _ (te_physicalPage victim) Hnd); rewrite list_lookup_fmap, ?Hown, ?Hv; cbn; congruence. }
  split; [done|]. split; [|unfold m3, set_table; cbn; rewrite lookup_insert_eq; reflexivity].
  unfold Machine_ReadMem, translate_retry. rewrite (user_bind_Ok _ _ m (Some pa) m3).
  - cbn iota. change (1 =? 1) with true. cbn iota. rewrite (user_bind_Ok _ _ m3 [b] m3) by (apply load_byte; [lia|exact Hb]).
    unfold mret, user_ret. cbn [le_dec]. by rewrite Z.mul_0_r, Z.add_0_r.
  - rewrite (user_bind_Ok _ _ m _ m (Translate_tlb_miss m p t addr false Htlb Hpt Ht Hmiss)).
    rewrite decide_False by done. rewrite (user_bind_Ok _ _ m tt m2 HR). rewrite decide_True by done.
    by rewrite (user_bind_Ok _ _ m2 _ m3 HT2).
Qed.

(** A program of six pages in frames 10 to 15, with the page table as TLB. *)
Definition six_pages : list TranslationEntry :=
  imap (fun i f => mkTE (Z.of_nat i) f true false false false (Z.of_nat i)) (seqZ 10 6).

Definition tlb_machine : Machine :=
  mkMachine (replicate 40 0) (replicate 4096 0) {[ 1%positive := six_pages ]} (Some 1%positive) None 6
    (mkBitMap 32 1 [0]) UserMode.

Lemma tlb_miss_wrong_frame_witness :
  exists i victim own b m', (i < TLBSize)%nat /\ six_pages !! i = Some victim
    /\ (forall k e, (k < TLBSize)%nat -> six_pages !! k = Some e -> te_hitRate victim <= te_hitRate e)
    /\ six_pages !! Z.to_nat (byte_vpn 643) = Some own /\ te_physicalPage own <> te_physicalPage victim
    /\ m_mainMemory tlb_machine !! Z.to_nat (te_physicalPage victim * PageSize + 643 `mod` PageSize) = Some b
    /\ Machine_ReadMem (mkFlags true true true) 0 643 1 tlb_machine = Ok (Next (Some (i8 b)) m')
    /\ m_tables m' !! 1%positive = Some (<[i := mkTE (byte_vpn 643) (te_physicalPage victim) true false true true 1]> six_pages).
Proof.
  apply (tlb_miss_wrong_frame (mkFlags true true true) 0 tlb_machine 1 six_pages 643); try reflexivity.
  - repeat constructor; eexists; (split; [reflexivity|]); cbn; lia.
  - repeat constructor; eexists; (split; [reflexivity|]); cbn; (split; [by vm_compute|unfold in_u32; lia]).
  - repeat constructor; cbn; unfold NumPhysPages; lia.
  - by apply (bool_decide_unpack _); vm_compute.
  - lia.
  - by vm_compute.
  - exists 0. split; [reflexivity|lia].
Defined.

(** An address with its top bit set is entered under another page number, so that the second
    translation misses too; its result is not looked at, and the byte comes from wherever
    the uninitialised [physicalAddress] points, here to 200. *)
Definition tlb_machine_77 : Machine := m_set_memory (<[200%nat := 77]> (m_mainMemory tlb_machine)) tlb_machine.

Example negative_address_unchecked :
  match Machine_ReadMem (mkFlags true true true) 200 (-128) 1 tlb_machine_77 with Ok (Next v _) => v = Some 77 | _ => False end.
Proof. by vm_compute. Qed.
