(* ===== verification/Mail.v ===== *)
(** * machine/network.cc and network/post.cc: messages between machines

    Every machine runs a post office on top of a network device.  The Unix datagram
    sockets between the machines are one queue of datagrams per address.  The blocking
    routines are cut at the points where they wait: [Send] up to [messageSent->P()] and
    after it, one round of the loop of [PostalDelivery], [Receive]; the interrupt handlers
    [SendDone] and [CheckPktAvail] are steps of their own.  A step whose thread would block
    does nothing.  Semaphores are counters and a mailbox is the sequence its [SynchList]
    holds. *)

From S2P Require Import Prelude OpenFile.

Definition MaxWireSize : Z := 64.

Record PacketHeader := mkPkt { ph_to : Z; ph_from : Z; ph_length : Z }.
Record MailHeader := mkMailH { mh_to : Z; mh_from : Z; mh_length : Z }.

(** [sizeof] of both headers: two [int]s and an [unsigned]. *)
Definition header_size : Z := 12.
Definition MaxPacketSize : Z := MaxWireSize - header_size.
Definition MaxMailSize : Z := MaxPacketSize - header_size.

(** The headers in memory. *)
Definition header_bytes (a b length : Z) : list Z := int_to_bytes a ++ int_to_bytes b ++ le_enc 4 length.

Definition int_field (bs : list Z) (k : nat) : Z := int_of_bytes (slice bs (4 * k) 4).
Definition unsigned_field (bs : list Z) (k : nat) : Z := le_dec (slice bs (4 * k) 4).

Definition packet_of_bytes (bs : list Z) : PacketHeader := mkPkt (int_field bs 0) (int_field bs 1) (unsigned_field bs 2).
Definition mailheader_of_bytes (bs : list Z) : MailHeader := mkMailH (int_field bs 0) (int_field bs 1) (unsigned_field bs 2).

(** ** The network device *)

Record Network := mkNetwork {
  nw_ident : Z;
  nw_sendBusy : bool;
  nw_inHdr : PacketHeader;
  nw_inbox : list Z
}.

(** [inHdr] and [inbox] are what the memory held, but for the length. *)
Definition Network_new (addr : Z) (garbage : PacketHeader) (inbox : list Z) : Network :=
  mkNetwork addr false (mkPkt (ph_to garbage) (ph_from garbage) 0) inbox.

(** [Network::Send]: the datagram and its destination; [lost] is the outcome of
    [Random() % 100 >= chanceToWork * 100] and [heap] the contents of the new buffer. *)
Definition Network_Send (heap : list Z) (lost : bool) (nw : Network) (hdr : PacketHeader) (data : list Z)
    : result (option (Z * list Z)) :=
  _ ← ASSERT (negb (nw_sendBusy nw) && (0 <? ph_length hdr) && (ph_length hdr <=? MaxPacketSize)
              && (ph_from hdr =? nw_ident nw));
  if lost then Ok None
  else
    buffer ← new_chars heap MaxWireSize;
    buffer ← copy_in buffer 0 (header_bytes (ph_to hdr) (ph_from hdr) (ph_length hdr));
    payload ← copy_out data 0 (ph_length hdr);
    buffer ← copy_in buffer header_size payload;
    Ok (Some (ph_to hdr, buffer)).

Definition Network_SendDone (nw : Network) : Network := mkNetwork (nw_ident nw) false (nw_inHdr nw) (nw_inbox nw).

(** [Network::CheckPktAvail] without the next poll: a datagram is taken from the socket
    when none is buffered; the flag tells whether [readHandler] is called. *)
Definition Network_CheckPktAvail (nw : Network) (sock : list (list Z)) : result (Network * list (list Z) * bool) :=
  if negb (ph_length (nw_inHdr nw) =? 0) then Ok (nw, sock, false)
  else match sock with
  | [] => Ok (nw, sock, false)
  | buffer :: sock =>
      _ ← ASSERT (Z.of_nat (length buffer) =? MaxWireSize);
      let inHdr := packet_of_bytes buffer in
      _ ← ASSERT ((ph_to inHdr =? nw_ident nw) && (ph_length inHdr <=? MaxPacketSize));
      payload ← copy_out buffer header_size (ph_length inHdr);
      inbox ← copy_in (nw_inbox nw) 0 payload;
      Ok (mkNetwork (nw_ident nw) (nw_sendBusy nw) inHdr inbox, sock, true)
  end.

(** [Network::Receive]: the header and the caller's buffer. *)
Definition Network_Receive (nw : Network) (data : list Z) : result (PacketHeader * list Z * Network) :=
  let hdr := nw_inHdr nw in
  let nw := mkNetwork (nw_ident nw) (nw_sendBusy nw) (mkPkt (ph_to hdr) (ph_from hdr) 0) (nw_inbox nw) in
  if negb (ph_length hdr =? 0) then
    payload ← copy_out (nw_inbox nw) 0 (ph_length hdr);
    data ← copy_in data 0 payload;
    Ok (hdr, data, nw)
  else Ok (hdr, data, nw).

(** ** Mail and mailboxes *)

Record Mail := mkMail { ml_pktHdr : PacketHeader; ml_mailHdr : MailHeader; ml_data : list Z }.

Definition Mail_new (heap : list Z) (pktH : PacketHeader) (mailH : MailHeader) (msgData : list Z) : result Mail :=
  _ ← ASSERT (mh_length mailH <=? MaxMailSize);
  data ← new_chars heap MaxMailSize;
  payload ← copy_out msgData 0 (mh_length mailH);
  data ← copy_in data 0 payload;
  Ok (mkMail pktH mailH data).

Definition MailBox_Put (heap : list Z) (box : list Mail) (pktHdr : PacketHeader) (mailHdr : MailHeader) (data : list Z)
    : result (list Mail) :=
  mail ← Mail_new heap pktHdr mailHdr data; Ok (box ++ [mail]).

(** The mail at the front, with the bytes that are copied to the caller. *)
Definition MailBox_Get (box : list Mail) : result (option (PacketHeader * MailHeader * list Z * list Mail)) :=
  match box with
  | [] => Ok None
  | mail :: box =>
      data ← copy_out (ml_data mail) 0 (mh_length (ml_mailHdr mail));
      Ok (Some (ml_pktHdr mail, ml_mailHdr mail, data, box))
  end.

(** ** The post office *)

Record PostOffice := mkOffice {
  po_network : Network;
  po_netAddr : Z;
  po_numBoxes : Z;
  po_boxes : list (list Mail);
  po_messageAvailable : Z;
  po_messageSent : Z;
  po_sendLock : bool;                  (* held by a thread in [Send] *)
  po_sendDone : Z;                     (* [SendDone] interrupts still to come *)
  po_buffer : list Z                   (* the buffer of the postal worker *)
}.

Definition PostOffice_new (addr nBoxes : Z) (inbox buffer : list Z) (garbage : PacketHeader) : PostOffice :=
  mkOffice (Network_new addr garbage inbox)
    addr nBoxes (replicate (Z.to_nat nBoxes) []) 0 0 false 0 buffer.

(** [PostOffice::Send] up to the wait for [messageSent], by a thread that gets the lock. *)
Definition PostOffice_Send (heap heap' : list Z) (lost : bool) (po : PostOffice) (pktHdr : PacketHeader) (mailHdr : MailHeader)
    (data : list Z) : result (option (Z * list Z) * PostOffice) :=
  buffer ← new_chars heap MaxPacketSize;
  _ ← ASSERT (mh_length mailHdr <=? MaxMailSize);
  _ ← ASSERT ((0 <=? mh_to mailHdr) && (mh_to mailHdr <? po_numBoxes po));
  let pktHdr := mkPkt (ph_to pktHdr) (po_netAddr po) (u32 (mh_length mailHdr + header_size)) in
  buffer ← copy_in buffer 0 (header_bytes (mh_to mailHdr) (mh_from mailHdr) (mh_length mailHdr));
  payload ← copy_out data 0 (mh_length mailHdr);
  buffer ← copy_in buffer header_size payload;
  out ← Network_Send heap' lost (po_network po) pktHdr buffer;
  Ok (out, mkOffice (po_network po) (po_netAddr po) (po_numBoxes po) (po_boxes po) (po_messageAvailable po)
             (po_messageSent po) true (po_sendDone po + 1) (po_buffer po)).

(** The rest of [Send]: [messageSent->P()] and [sendLock->Release()]. *)
Definition PostOffice_Send_done (po : PostOffice) : PostOffice :=
  if po_sendLock po && (0 <? po_messageSent po) then
    mkOffice (po_network po) (po_netAddr po) (po_numBoxes po) (po_boxes po) (po_messageAvailable po)
      (po_messageSent po - 1) false (po_sendDone po) (po_buffer po)
  else po.

(** The interrupt [NetworkSendDone]: [Network::SendDone] calls [PostOffice::PacketSent]. *)
Definition PostOffice_PacketSent (po : PostOffice) : PostOffice :=
  if 0 <? po_sendDone po then
    mkOffice (Network_SendDone (po_network po)) (po_netAddr po) (po_numBoxes po) (po_boxes po) (po_messageAvailable po)
      (po_messageSent po + 1) (po_sendLock po) (po_sendDone po - 1) (po_buffer po)
  else po.

(** The interrupt [NetworkReadPoll]: [CheckPktAvail] calls [PostOffice::IncomingPacket]. *)
Definition PostOffice_IncomingPacket (po : PostOffice) (sock : list (list Z)) : result (PostOffice * list (list Z)) :=
  '(nw, sock, avail) ← Network_CheckPktAvail (po_network po) sock;
  Ok (mkOffice nw (po_netAddr po) (po_numBoxes po) (po_boxes po)
        (if (avail : bool) then po_messageAvailable po + 1 else po_messageAvailable po) (po_messageSent po)
        (po_sendLock po) (po_sendDone po) (po_buffer po), sock).

(** One round of [PostOffice::PostalDelivery]. *)
Definition PostOffice_PostalDelivery (heap : list Z) (po : PostOffice) : result PostOffice :=
  if 0 <? po_messageAvailable po then
    '(pktHdr, buffer, nw) ← Network_Receive (po_network po) (po_buffer po);
    let mailHdr := mailheader_of_bytes buffer in
    _ ← ASSERT ((0 <=? mh_to mailHdr) && (mh_to mailHdr <? po_numBoxes po));
    _ ← ASSERT (mh_length mailHdr <=? MaxMailSize);
    box ← deref (po_boxes po !! Z.to_nat (mh_to mailHdr));
    box ← MailBox_Put heap box pktHdr mailHdr (drop (Z.to_nat header_size) buffer);
    Ok (mkOffice nw (po_netAddr po) (po_numBoxes po) (<[Z.to_nat (mh_to mailHdr) := box]> (po_boxes po))
          (po_messageAvailable po - 1) (po_messageSent po) (po_sendLock po) (po_sendDone po) buffer)
  else Ok po.

(** [PostOffice::Receive]: [None] when the box is empty and the caller waits. *)
Definition PostOffice_Receive (po : PostOffice) (box : Z) : result (option (PacketHeader * MailHeader * list Z) * PostOffice) :=
  _ ← ASSERT ((0 <=? box) && (box <? po_numBoxes po));
  mails ← deref (po_boxes po !! Z.to_nat box);
  got ← MailBox_Get mails;
  match got with
  | None => Ok (None, po)
  | Some (pktHdr, mailHdr, data, rest) =>
      _ ← ASSERT (mh_length mailHdr <=? MaxMailSize);
      Ok (Some (pktHdr, mailHdr, data),
          mkOffice (po_network po) (po_netAddr po) (po_numBoxes po) (<[Z.to_nat box := rest]> (po_boxes po))
            (po_messageAvailable po) (po_messageSent po) (po_sendLock po) (po_sendDone po) (po_buffer po))
  end.

(** ** Headers survive the trip through bytes *)

Lemma length_header_bytes a b l : length (header_bytes a b l) = 12%nat.
Proof. unfold header_bytes, int_to_bytes. by rewrite !length_app, !length_le_enc. Qed.

Lemma header_bytes_fields a b l rest :
  in_i32 a -> in_i32 b -> in_u32 l ->
  let bs := header_bytes a b l ++ rest in int_field bs 0 = a /\ int_field bs 1 = b /\ unsigned_field bs 2 = l.
Proof.
  intros Ha Hb Hl bs. unfold bs, header_bytes, int_field, unsigned_field. rewrite <-!app_assoc.
  assert (Hs : forall (pre x post : list Z) (n : nat), length pre = n -> length x = 4%nat -> slice (pre ++ x ++ post) n 4 = x).
  { intros pre x post n Hp Hx. unfold slice. rewrite drop_app_length' by done. by rewrite take_app_length'. }
  assert (H0 : slice (int_to_bytes a ++ int_to_bytes b ++ le_enc 4 l ++ rest) (4 * 0) 4 = int_to_bytes a)
    by (apply (Hs []); [done|apply length_le_enc]).
  assert (H1 : slice (int_to_bytes a ++ int_to_bytes b ++ le_enc 4 l ++ rest) (4 * 1) 4 = int_to_bytes b)
    by (apply Hs; apply length_le_enc).
  assert (H2 : slice (int_to_bytes a ++ int_to_bytes b ++ le_enc 4 l ++ rest) (4 * 2) 4 = le_enc 4 l)
    by (rewrite app_assoc; apply Hs; [rewrite length_app; unfold int_to_bytes; by rewrite !length_le_enc|apply length_le_enc]).
  rewrite H0, H1, H2. split; [by apply int_roundtrip|]. split; [by apply int_roundtrip|].
  rewrite le_dec_enc. apply Z.mod_small. exact Hl.
Qed.

(** ** The world *)

(** A message as its receiver sees it. *)
Record msg := mkMsg { g_from : Z; g_box : Z; g_replyTo : Z; g_data : list Z }.

Record World := mkWorld {
  w_offices : gmap Z PostOffice;
  w_sockets : gmap Z (list (list Z));
  w_sent : list (Z * msg);             (* history: messages put on the wire, with their destination *)
  w_received : list (Z * msg)          (* history: messages handed to a caller of [Receive] *)
}.

Inductive event :=
  | ESend (a : Z) (heap heap' : list Z) (lost : bool) (pktHdr : PacketHeader) (mailHdr : MailHeader) (data : list Z)
  | ESendDone (a : Z)
  | EPacketSent (a : Z)
  | EPoll (a : Z)
  | EDeliver (a : Z) (heap : list Z)
  | EReceive (a : Z) (box : Z).

(** [SendToSocket] stops the sender when nobody has the name. *)
Definition send_to (to : Z) (bytes : list Z) (socks : gmap Z (list (list Z))) : result (gmap Z (list (list Z))) :=
  match socks !! to with
  | Some q => Ok (<[to := q ++ [bytes]]> socks)
  | None => Err AssertFailed
  end.

Definition wstep (e : event) (w : World) : result World :=
  match e with
  | ESend a heap heap' lost pktHdr mailHdr data =>
      po ← deref (w_offices w !! a);
      if po_sendLock po then Ok w
      else
        '(out, po) ← PostOffice_Send heap heap' lost po pktHdr mailHdr data;
        let offices := <[a := po]> (w_offices w) in
        match out with
        | None => Ok (mkWorld offices (w_sockets w) (w_sent w) (w_received w))
        | Some (to, bytes) =>
            socks ← send_to to bytes (w_sockets w);
            Ok (mkWorld offices socks
                  (w_sent w ++ [(to, mkMsg a (mh_to mailHdr) (mh_from mailHdr) (take (Z.to_nat (mh_length mailHdr)) data))])
                  (w_received w))
        end
  | ESendDone a =>
      po ← deref (w_offices w !! a);
      Ok (mkWorld (<[a := PostOffice_Send_done po]> (w_offices w)) (w_sockets w) (w_sent w) (w_received w))
  | EPacketSent a =>
      po ← deref (w_offices w !! a);
      Ok (mkWorld (<[a := PostOffice_PacketSent po]> (w_offices w)) (w_sockets w) (w_sent w) (w_received w))
  | EPoll a =>
      po ← deref (w_offices w !! a);
      sock ← deref (w_sockets w !! a);
      '(po, sock) ← PostOffice_IncomingPacket po sock;
      Ok (mkWorld (<[a := po]> (w_offices w)) (<[a := sock]> (w_sockets w)) (w_sent w) (w_received w))
  | EDeliver a heap =>
      po ← deref (w_offices w !! a);
      po ← PostOffice_PostalDelivery heap po;
      Ok (mkWorld (<[a := po]> (w_offices w)) (w_sockets w) (w_sent w) (w_received w))
  | EReceive a box =>
      po ← deref (w_offices w !! a);
      '(got, po) ← PostOffice_Receive po box;
      Ok (mkWorld (<[a := po]> (w_offices w)) (w_sockets w) (w_sent w)
            (match got with
             | Some (pktHdr, mailHdr, data) => w_received w ++ [(a, mkMsg (ph_from pktHdr) box (mh_from mailHdr) data)]
             | None => w_received w
             end))
  end.

Definition wrun (es : list event) (w : World) : result World := result_fold wstep es w.

(** ** What is in transit *)

(** system.cc creates every post office with ten boxes. *)
Definition numBoxes : Z := 10.

Definition dgram_msg (bs : list Z) : msg :=
  let mh := mailheader_of_bytes (drop 12 bs) in
  mkMsg (ph_from (packet_of_bytes bs)) (mh_to mh) (mh_from mh) (slice bs 24 (Z.to_nat (mh_length mh))).

Definition mailheader_ok (mh : MailHeader) : Prop := 0 <= mh_to mh < numBoxes /\ 0 <= mh_length mh <= MaxMailSize.

(** A datagram for address [d]. *)
Definition dgram_ok (d : Z) (bs : list Z) : Prop :=
  length bs = 64%nat /\ ph_to (packet_of_bytes bs) = d
  /\ mailheader_ok (mailheader_of_bytes (drop 12 bs))
  /\ ph_length (packet_of_bytes bs) = mh_length (mailheader_of_bytes (drop 12 bs)) + 12.

Definition mail_msg (m : Mail) : msg :=
  mkMsg (ph_from (ml_pktHdr m)) (mh_to (ml_mailHdr m)) (mh_from (ml_mailHdr m))
    (take (Z.to_nat (mh_length (ml_mailHdr m))) (ml_data m)).

Definition mail_ok (b : Z) (m : Mail) : Prop :=
  mh_to (ml_mailHdr m) = b /\ 0 <= mh_length (ml_mailHdr m) <= MaxMailSize /\ length (ml_data m) = 40%nat.

(** The packet in the device, if there is one. *)
Definition buffered (nw : Network) : list msg :=
  if ph_length (nw_inHdr nw) =? 0 then []
  else let mh := mailheader_of_bytes (nw_inbox nw) in
       [mkMsg (ph_from (nw_inHdr nw)) (mh_to mh) (mh_from mh) (slice (nw_inbox nw) 12 (Z.to_nat (mh_length mh)))].

Record office_ok (d : Z) (po : PostOffice) : Prop := {
  o_addr : po_netAddr po = d /\ nw_ident (po_network po) = d /\ po_numBoxes po = numBoxes;
  o_busy : nw_sendBusy (po_network po) = false;
  o_len : length (po_boxes po) = 10%nat /\ length (nw_inbox (po_network po)) = 52%nat /\ length (po_buffer po) = 52%nat;
  o_avail : po_messageAvailable po = if ph_length (nw_inHdr (po_network po)) =? 0 then 0 else 1;
  o_inbox : ph_length (nw_inHdr (po_network po)) <> 0 ->
    mailheader_ok (mailheader_of_bytes (nw_inbox (po_network po)))
    /\ ph_length (nw_inHdr (po_network po)) = mh_length (mailheader_of_bytes (nw_inbox (po_network po))) + 12;
  o_boxes : forall b l, po_boxes po !! b = Some l -> Forall (mail_ok (Z.of_nat b)) l;
  o_send : 0 <= po_sendDone po /\ 0 <= po_messageSent po
    /\ po_sendDone po + po_messageSent po = if po_sendLock po then 1 else 0
}.

(** The messages for one box in a log. *)
Definition for_box (d b : Z) (l : list (Z * msg)) : list msg := snd <$> filter (fun x => x.1 = d /\ g_box x.2 = b) l.

Definition of_box (b : Z) (l : list msg) : list msg := filter (fun g => g_box g = b) l.

(** What still is on its way to a box. *)
Definition in_transit (b : Z) (po : PostOffice) (sock : list (list Z)) : list msg :=
  of_box b (buffered (po_network po)) ++ of_box b (dgram_msg <$> sock).

Definition box_content (b : Z) (po : PostOffice) : list msg := mail_msg <$> default [] (po_boxes po !! Z.to_nat b).

Record world_ok (w : World) : Prop := {
  wo_dom : dom (w_offices w) = dom (w_sockets w);
  wo_office : forall d po, w_offices w !! d = Some po -> office_ok d po;
  wo_socks : forall d q, w_sockets w !! d = Some q -> Forall (dgram_ok d) q;
  wo_fifo : forall d b po sock, w_offices w !! d = Some po -> w_sockets w !! d = Some sock -> 0 <= b < numBoxes ->
    for_box d b (w_sent w) = for_box d b (w_received w) ++ box_content b po ++ in_transit b po sock
}.

(** ** Buffers *)

Lemma new_chars_len heap n : 0 <= n -> exists buf, new_chars heap n = Ok buf /\ length buf = Z.to_nat n.
Proof.
  intros Hn. unfold new_chars. destruct (Z.ltb_spec n 0); [lia|]. eexists. split; [done|].
  rewrite length_take, length_app, length_replicate. lia.
Qed.

Lemma copy_in_eq buf off data :
  0 <= off -> off + Z.of_nat (length data) <= Z.of_nat (length buf) -> copy_in buf off data = Ok (splice buf (Z.to_nat off) data).
Proof.
  intros Ho Hl. unfold copy_in. destruct (Z.leb_spec 0 off); [|lia].
  destruct (Z.leb_spec (off + Z.of_nat (length data)) (Z.of_nat (length buf))); [done|lia].
Qed.

Lemma copy_out_eq buf off n :
  0 <= off -> off + n <= Z.of_nat (length buf) -> copy_out buf off n = Ok (slice buf (Z.to_nat off) (Z.to_nat n)).
Proof.
  intros Ho Hl. unfold copy_out. destruct (Z.leb_spec 0 off); [|lia].
  destruct (Z.leb_spec (off + n) (Z.of_nat (length buf))); [done|lia].
Qed.

(** A header and a payload written to the front of a buffer. *)
Lemma splice_front {A} (buf h data : list A) n :
  length h = n -> (n + length data <= length buf)%nat ->
  splice (splice buf 0 h) n data = h ++ data ++ drop (n + length data) buf.
Proof.
  intros Hh Hl. subst n. pose proof (splice_app buf h data 0 ltac:(lia)) as Hs. cbn [Nat.add] in Hs. rewrite Hs. unfold splice.
  rewrite take_0, length_app. cbn [app Nat.add]. by rewrite <-app_assoc.
Qed.

Lemma slice_middle {A} (a b c : list A) n k : length a = n -> length b = k -> slice (a ++ b ++ c) n k = b.
Proof. intros <- <-. unfold slice. rewrite drop_app_length. by rewrite take_app_length. Qed.

(** Requests that pass the checks of [Send]. *)
Definition send_ok (pktHdr : PacketHeader) (mailHdr : MailHeader) (data : list Z) : Prop :=
  in_i32 (ph_to pktHdr) /\ mailheader_ok mailHdr /\ in_i32 (mh_from mailHdr) /\ mh_length mailHdr <= Z.of_nat (length data).

Lemma header_at_12 a b l x y : length x = 12%nat -> in_i32 a -> in_i32 b -> in_u32 l ->
  mailheader_of_bytes (drop 12 (x ++ header_bytes a b l ++ y)) = mkMailH a b l.
Proof.
  intros Hx Ha Hb Hl. rewrite drop_app_length' by done. unfold mailheader_of_bytes.
  by destruct (header_bytes_fields a b l y Ha Hb Hl) as (-> & -> & ->).
Qed.

Lemma Send_spec heap heap' lost po d pktHdr mailHdr data :
  office_ok d po -> in_i32 d -> send_ok pktHdr mailHdr data ->
  exists out, PostOffice_Send heap heap' lost po pktHdr mailHdr data
      = Ok (out, mkOffice (po_network po) (po_netAddr po) (po_numBoxes po) (po_boxes po) (po_messageAvailable po)
                   (po_messageSent po) true (po_sendDone po + 1) (po_buffer po))
    /\ match out with
       | None => lost = true
       | Some (to, bytes) => lost = false /\ to = ph_to pktHdr /\ dgram_ok to bytes
           /\ dgram_msg bytes = mkMsg d (mh_to mailHdr) (mh_from mailHdr) (take (Z.to_nat (mh_length mailHdr)) data)
       end.
Proof.
  intros [(Haddr & Hid & Hnb) Hbusy _ _ _ _ _] Hd (Hto & [Hmt Hml] & Hmf & Hlen).
  unfold numBoxes, MaxMailSize, MaxPacketSize, MaxWireSize, header_size in *.
  unfold PostOffice_Send, MaxMailSize, MaxPacketSize, MaxWireSize, header_size.
  destruct (new_chars_len heap (64 - 12)) as (buf & -> & Hbl); [lia|]. cbn [mbind result_bind].
  rewrite !ASSERT_true by (rewrite ?Hnb, ?andb_true_iff; lia). cbn [mbind result_bind].
  set (hb := header_bytes (mh_to mailHdr) (mh_from mailHdr) (mh_length mailHdr)).
  assert (Hhb : length hb = 12%nat) by apply length_header_bytes.
  rewrite copy_in_eq by lia. cbn [mbind result_bind]. rewrite copy_out_eq by lia. cbn [mbind result_bind].
  set (pl := slice data (Z.to_nat 0) (Z.to_nat (mh_length mailHdr))).
  assert (Hpl : length pl = Z.to_nat (mh_length mailHdr)) by (apply length_slice; lia).
  rewrite copy_in_eq by (rewrite ?length_splice by lia; lia). cbn [mbind result_bind].
  change (Z.to_nat 0) with 0%nat. change (Z.to_nat 12) with 12%nat. rewrite (splice_front buf hb pl 12) by lia.
  set (tail := drop (12 + length pl) buf). unfold Network_Send, MaxPacketSize, MaxWireSize, header_size.
  cbn [ph_length ph_from ph_to]. rewrite u32_id by (unfold in_u32; lia).
  rewrite Hbusy, Haddr, Hid, Z.eqb_refl. rewrite ASSERT_true by (rewrite !andb_true_iff; repeat split; lia).
  cbn [mbind result_bind]. destruct lost; [by exists None|].
  destruct (new_chars_len heap' 64) as (wb & -> & Hwl); [lia|]. cbn [mbind result_bind].
  set (ph := header_bytes (ph_to pktHdr) d (mh_length mailHdr + 12)).
  assert (Hph : length ph = 12%nat) by apply length_header_bytes.
  rewrite copy_in_eq by lia. cbn [mbind result_bind].
  assert (Htl : length tail = (52 - 12 - length pl)%nat) by (unfold tail; rewrite length_drop; lia).
  rewrite copy_out_eq by (rewrite ?length_app; lia). cbn [mbind result_bind].
  replace (slice (hb ++ pl ++ tail) (Z.to_nat 0) (Z.to_nat (mh_length mailHdr + 12))) with (hb ++ pl).
  2:{ rewrite app_assoc. symmetry. apply (slice_middle [] (hb ++ pl)); [done|]. rewrite length_app. lia. }
  rewrite copy_in_eq by (rewrite ?length_splice, ?length_app by lia; lia). cbn [mbind result_bind].
  change (Z.to_nat 12) with 12%nat. change (Z.to_nat 0) with 0%nat. rewrite splice_front by (rewrite ?length_app; lia).
  set (wt := drop (12 + length (hb ++ pl)) wb).
  eexists. split; [reflexivity|]. split; [done|]. split; [done|].
  assert (Hpk : packet_of_bytes (ph ++ (hb ++ pl) ++ wt) = mkPkt (ph_to pktHdr) d (mh_length mailHdr + 12)).
  { pose proof (header_bytes_fields (ph_to pktHdr) d (mh_length mailHdr + 12) ((hb ++ pl) ++ wt) Hto Hd
      ltac:(unfold in_u32; lia)) as Hf. fold ph in Hf. unfold packet_of_bytes. by destruct Hf as (-> & -> & ->). }
  assert (Hmh : mailheader_of_bytes (drop 12 (ph ++ (hb ++ pl) ++ wt)) = mailHdr).
  { rewrite <-app_assoc. unfold hb. rewrite header_at_12 by (done || unfold in_i32, in_u32; lia). by destruct mailHdr. }
  split.
  - unfold dgram_ok. rewrite Hpk, Hmh. cbn. split; [rewrite !length_app; unfold wt; rewrite length_drop, ?length_app; lia|].
    split; [done|]. split; [|done]. split; unfold numBoxes, MaxMailSize, MaxPacketSize, MaxWireSize, header_size; lia.
  - unfold dgram_msg. rewrite Hmh, Hpk. cbn. f_equal.
    rewrite <-app_assoc, (app_assoc ph hb). apply (slice_middle (ph ++ hb) pl); [rewrite length_app; lia|done].
Qed.

(** Replacing one part of an office. *)
Lemma slice_prefix {A} (l data : list A) a k :
  (length data <= length l)%nat -> (a + k <= length data)%nat -> slice (splice l 0 data) a k = slice data a k.
Proof.
  intros Hl Hk. apply list_eq. intros i. rewrite !lookup_slice. case_decide; [|done].
  rewrite lookup_splice, decide_True by lia. f_equal. lia.
Qed.

(** The mail header is read from the first twelve bytes. *)
Lemma mailheader_prefix l data :
  (length data <= length l)%nat -> (12 <= length data)%nat ->
  mailheader_of_bytes (splice l 0 data) = mailheader_of_bytes data.
Proof.
  intros. unfold mailheader_of_bytes, int_field, unsigned_field. by rewrite !slice_prefix by lia.
Qed.

Lemma mailheader_take l n : (12 <= n)%nat -> mailheader_of_bytes (take n l) = mailheader_of_bytes l.
Proof.
  intros Hn. unfold mailheader_of_bytes, int_field, unsigned_field, slice. rewrite !skipn_firstn_comm, !take_take.
  repeat f_equal; lia.
Qed.

Lemma slice_take {A} (l : list A) n a k : (a + k <= n)%nat -> slice (take n l) a k = slice l a k.
Proof. intros. unfold slice. rewrite skipn_firstn_comm, take_take. f_equal. lia. Qed.

Lemma slice_drop {A} (l : list A) n a k : slice (drop n l) a k = slice l (n + a) k.
Proof. unfold slice. by rewrite drop_drop. Qed.

Ltac office_cbn :=
  cbn [po_network po_netAddr po_numBoxes po_boxes po_messageAvailable po_messageSent po_sendLock po_sendDone po_buffer
      nw_ident nw_sendBusy nw_inHdr nw_inbox].

(** A poll moves at most one datagram into the device. *)
Lemma IncomingPacket_spec d po sock :
  office_ok d po -> Forall (dgram_ok d) sock ->
  exists po' sock', PostOffice_IncomingPacket po sock = Ok (po', sock') /\ office_ok d po' /\ Forall (dgram_ok d) sock'
    /\ po_boxes po' = po_boxes po
    /\ buffered (po_network po') ++ (dgram_msg <$> sock') = buffered (po_network po) ++ (dgram_msg <$> sock)
    /\ (buffered (po_network po) = [] -> sock' = tail sock).
Proof.
  intros Hok Hs. pose proof Hok as [(Ha & Hid & Hnb) Hbusy (Hlb & Hli & Hlbuf) Hav Hin Hbx Hsd].
  unfold PostOffice_IncomingPacket, Network_CheckPktAvail.
  destruct (Z.eqb_spec (ph_length (nw_inHdr (po_network po))) 0) as [Hz|Hnz]; cbn [negb].
  2:{ exists po, sock. split; [by destruct po|]. do 4 (split; [done|]). unfold buffered.
      by destruct (Z.eqb_spec (ph_length (nw_inHdr (po_network po))) 0). }
  destruct sock as [|bs sock]; [exists po, []; split; [by destruct po|done]|].
  apply Forall_cons in Hs as [(Hl & Hto & Hmh & Hpl) Hs]. unfold MaxPacketSize, MaxWireSize, header_size.
  pose proof Hmh as [Hmt Hml]. unfold MaxMailSize, MaxPacketSize, MaxWireSize, header_size in Hml.
  cbv zeta. rewrite !ASSERT_true by (rewrite ?Hto, ?Hid, ?Z.eqb_refl; cbn [andb]; lia). cbn [mbind result_bind].
  rewrite copy_out_eq by lia. cbn [mbind result_bind].
  set (data := slice bs (Z.to_nat 12) _). assert (Hdl : length data = Z.to_nat (ph_length (packet_of_bytes bs))) by (apply length_slice; lia).
  rewrite copy_in_eq by lia. cbn [mbind result_bind].
  set (inbox := splice (nw_inbox (po_network po)) (Z.to_nat 0) data).
  assert (Hmhi : mailheader_of_bytes inbox = mailheader_of_bytes (drop 12 bs)).
  { unfold inbox. change (Z.to_nat 0) with 0%nat. rewrite mailheader_prefix by lia. unfold data, slice. apply mailheader_take. lia. }
  assert (Hne : ph_length (packet_of_bytes bs) <> 0) by lia.
  eexists _, sock. split; [reflexivity|]. split; [|split; [done|split; [done|split; [|done]]]].
  - constructor; office_cbn; try done.
    + split; [done|]. split; [|done]. unfold inbox. rewrite length_splice; [done|]. change (Z.to_nat 0) with 0%nat. lia.
    + destruct (Z.eqb_spec (ph_length (packet_of_bytes bs)) 0); [done|lia].
    + intros _. rewrite Hmhi. done.
  - cbn [po_network nw_inHdr nw_inbox]. unfold buffered. cbn [nw_inHdr nw_inbox]. rewrite Hz, Hmhi. change (0 =? 0) with true. cbn iota.
    destruct (Z.eqb_spec (ph_length (packet_of_bytes bs)) 0); [done|]. cbn [app]. rewrite fmap_cons. f_equal.
    unfold dgram_msg at 1. f_equal. unfold inbox. change (Z.to_nat 0) with 0%nat. rewrite slice_prefix by lia.
    unfold data. change (Z.to_nat 12) with 12%nat. unfold slice at 2. rewrite slice_take by lia. apply slice_drop.
Qed.

(** A new piece of mail holds its headers and the first bytes of the packet. *)
Lemma Mail_new_spec heap pk mh src :
  0 <= mh_length mh <= MaxMailSize -> (Z.to_nat (mh_length mh) <= length src)%nat ->
  exists mail, Mail_new heap pk mh src = Ok mail /\ ml_pktHdr mail = pk /\ ml_mailHdr mail = mh /\ length (ml_data mail) = 40%nat
    /\ take (Z.to_nat (mh_length mh)) (ml_data mail) = take (Z.to_nat (mh_length mh)) src.
Proof.
  intros Hl Hs. unfold Mail_new. rewrite ASSERT_true by lia.
  unfold MaxMailSize, MaxPacketSize, MaxWireSize, header_size in *. cbn [mbind result_bind].
  destruct (new_chars_len heap (64 - 12 - 12)) as (md & -> & Hmd); [lia|]. cbn [mbind result_bind].
  rewrite copy_out_eq by lia. cbn [mbind result_bind]. change (Z.to_nat 0) with 0%nat.
  assert (Hpll : length (slice src 0 (Z.to_nat (mh_length mh))) = Z.to_nat (mh_length mh)) by (apply length_slice; lia).
  rewrite copy_in_eq by lia. cbn [mbind result_bind]. eexists. split; [reflexivity|]. cbn [ml_pktHdr ml_mailHdr ml_data].
  change (Z.to_nat 0) with 0%nat. split_and!; [done|done|rewrite length_splice; [done|lia]|].
  pose proof (slice_splice_same md 0 (slice src 0 (Z.to_nat (mh_length mh))) ltac:(lia)) as Hss.
  rewrite Hpll in Hss. unfold slice in Hss. by rewrite !drop_0 in Hss.
Qed.

(** [Network_Receive] copies the packet into the buffer of the worker and empties the device. *)
Lemma Network_Receive_spec d po :
  office_ok d po -> ph_length (nw_inHdr (po_network po)) <> 0 ->
  let nw := po_network po in
  exists buf, Network_Receive nw (po_buffer po)
              = Ok (nw_inHdr nw, buf, mkNetwork (nw_ident nw) (nw_sendBusy nw) (mkPkt (ph_to (nw_inHdr nw)) (ph_from (nw_inHdr nw)) 0) (nw_inbox nw))
    /\ length buf = 52%nat /\ mailheader_of_bytes buf = mailheader_of_bytes (nw_inbox nw)
    /\ forall k, (k <= Z.to_nat (mh_length (mailheader_of_bytes (nw_inbox nw))))%nat -> slice buf 12 k = slice (nw_inbox nw) 12 k.
Proof.
  intros [_ _ (_ & Hli & Hlbuf) _ Hin _ _] Hnz nw. destruct (Hin Hnz) as [[_ Hml] Hpl]. fold nw in Hml, Hpl.
  set (mh := mailheader_of_bytes (nw_inbox nw)) in *. unfold MaxMailSize, MaxPacketSize, MaxWireSize, header_size in Hml.
  unfold Network_Receive. fold nw in Hnz, Hli. destruct (Z.eqb_spec (ph_length (nw_inHdr nw)) 0); [done|]. cbn [negb nw_inbox].
  rewrite copy_out_eq by lia. cbn [mbind result_bind]. change (Z.to_nat 0) with 0%nat. set (data := slice _ 0 _).
  assert (Hdl : length data = Z.to_nat (mh_length mh + 12)) by (unfold data; rewrite length_slice; [by rewrite Hpl|lia]).
  rewrite copy_in_eq by lia. cbn [mbind result_bind]. change (Z.to_nat 0) with 0%nat.
  eexists. split; [reflexivity|]. split_and!.
  - rewrite length_splice; [done|lia].
  - rewrite mailheader_prefix by lia. unfold data, slice. rewrite drop_0. apply mailheader_take. lia.
  - intros k Hk. rewrite slice_prefix by lia. unfold data. unfold slice at 2. rewrite drop_0, slice_take by lia. done.
Qed.

(** A round of the postal worker moves the packet into its box. *)
Lemma PostalDelivery_spec heap d po :
  office_ok d po ->
  exists po', PostOffice_PostalDelivery heap po = Ok po' /\ office_ok d po' /\ buffered (po_network po') = []
    /\ forall b, 0 <= b < numBoxes ->
       box_content b po' ++ of_box b (buffered (po_network po')) = box_content b po ++ of_box b (buffered (po_network po)).
Proof.
  intros Hok. pose proof Hok as [(Ha & Hid & Hnb) Hbusy (Hlb & Hli & Hlbuf) Hav Hin Hbx Hsd].
  unfold PostOffice_PostalDelivery. rewrite Hav.
  destruct (Z.eqb_spec (ph_length (nw_inHdr (po_network po))) 0) as [Hz|Hnz].
  { exists po. split; [done|]. split; [done|]. split; [|done]. unfold buffered. by rewrite Hz. }
  cbn [Z.ltb Z.compare]. destruct (Hin Hnz) as [[Hmt Hml] Hpl].
  destruct (Network_Receive_spec d po Hok Hnz) as (buf & -> & Hbl & Hmhb & Hsl). cbn [mbind result_bind]. rewrite Hmhb.
  set (mh := mailheader_of_bytes (nw_inbox (po_network po))) in *.
  rewrite !ASSERT_true by (rewrite ?Hnb, ?andb_true_iff; unfold numBoxes in *; lia). cbn [mbind result_bind].
  destruct (lookup_lt_is_Some_2 (po_boxes po) (Z.to_nat (mh_to mh))) as [box Hbox]; [unfold numBoxes in Hmt; lia|].
  rewrite Hbox. cbn [deref mbind result_bind]. unfold MailBox_Put.
  destruct (Mail_new_spec heap (nw_inHdr (po_network po)) mh (drop (Z.to_nat header_size) buf)) as (mail & -> & Hpk & Hmh & Hmd & Htk);
    [done|rewrite length_drop; unfold MaxMailSize, MaxPacketSize, MaxWireSize, header_size in *; lia|].
  cbn [mbind result_bind].
  assert (Hmm : mail_msg mail = mkMsg (ph_from (nw_inHdr (po_network po))) (mh_to mh) (mh_from mh)
                                  (slice (nw_inbox (po_network po)) 12 (Z.to_nat (mh_length mh)))).
  { unfold mail_msg. rewrite Hpk, Hmh, Htk. f_equal. by apply Hsl. }
  eexists. split; [reflexivity|]. split; [|split; [done|]].
  - constructor; office_cbn; try done; [|].
    + split; [by rewrite length_insert|]. done.
    + intros b l Hl. destruct (decide (b = Z.to_nat (mh_to mh))) as [->|Hne].
      * rewrite list_lookup_insert_eq in Hl by (rewrite Hlb; unfold numBoxes in Hmt; lia). injection Hl as <-.
        apply Forall_app. split; [by apply (Hbx _ _ Hbox)|]. constructor; [|done]. unfold mail_ok. rewrite Hmh. split; [lia|done].
      * rewrite list_lookup_insert_ne in Hl by done. by apply (Hbx b).
  - intros b Hb. unfold box_content, buffered. cbn [po_boxes po_network nw_inHdr ph_length nw_inbox].
    destruct (Z.eqb_spec (ph_length (nw_inHdr (po_network po))) 0); [done|]. change (0 =? 0) with true. cbn iota. fold mh.
    destruct (decide (b = mh_to mh)) as [->|Hne].
    + rewrite list_lookup_insert_eq by (rewrite Hlb; unfold numBoxes in Hmt; lia). rewrite Hbox. cbn [default from_option id].
      rewrite fmap_app. cbn [fmap list_fmap]. rewrite Hmm. unfold of_box at 1. rewrite filter_nil, app_nil_r.
      unfold of_box. rewrite filter_cons_True by done. by rewrite filter_nil.
    + rewrite list_lookup_insert_ne by lia. f_equal. unfold of_box. rewrite filter_cons_False by (cbn [g_box]; congruence). done.
Qed.

(** A receiver takes the oldest message of its box. *)
Lemma Receive_spec d po b :
  office_ok d po -> 0 <= b < numBoxes ->
  exists got po', PostOffice_Receive po b = Ok (got, po') /\ office_ok d po' /\ po_network po' = po_network po
    /\ (forall b', 0 <= b' < numBoxes -> b' <> b -> box_content b' po' = box_content b' po)
    /\ match got with
       | None => box_content b po = [] /\ po' = po
       | Some (pktHdr, mailHdr, data) =>
           box_content b po = mkMsg (ph_from pktHdr) b (mh_from mailHdr) data :: box_content b po'
       end.
Proof.
  intros Hok Hb. pose proof Hok as [(Ha & Hid & Hnb) Hbusy (Hlb & Hli & Hlbuf) Hav Hin Hbx Hsd].
  unfold PostOffice_Receive. rewrite ASSERT_true by (rewrite Hnb, andb_true_iff; lia). cbn [mbind result_bind].
  destruct (lookup_lt_is_Some_2 (po_boxes po) (Z.to_nat b)) as [l Hl]; [unfold numBoxes in Hb; lia|].
  rewrite Hl. cbn [deref mbind result_bind]. pose proof (Hbx _ _ Hl) as Hall. rewrite Z2Nat.id in Hall by lia.
  destruct l as [|mail l]; cbn [MailBox_Get mbind result_bind].
  { exists None, po. split; [done|]. split; [done|]. split; [done|]. split; [done|]. split; [|done].
    unfold box_content. by rewrite Hl. }
  apply Forall_cons in Hall as [(Hto & Hml & Hdl) Hall]. pose proof Hml as Hml'.
  unfold MaxMailSize, MaxPacketSize, MaxWireSize, header_size in Hml.
  rewrite copy_out_eq by lia. cbn [mbind result_bind]. rewrite ASSERT_true by lia. cbn [mbind result_bind].
  eexists _, _. split; [reflexivity|]. split; [|split; [done|split]].
  - constructor; office_cbn; try done.
    + split; [by rewrite length_insert|]. done.
    + intros b' l' Hl'. destruct (decide (b' = Z.to_nat b)) as [->|Hne].
      * rewrite list_lookup_insert_eq in Hl' by (unfold numBoxes in Hb; lia). injection Hl' as <-. by rewrite Z2Nat.id by lia.
      * rewrite list_lookup_insert_ne in Hl' by done. by apply (Hbx b').
  - intros b' Hb' Hne. unfold box_content. office_cbn. by rewrite list_lookup_insert_ne by lia.
  - unfold box_content. office_cbn. rewrite list_lookup_insert_eq by (unfold numBoxes in Hb; lia). rewrite Hl.
    cbn [default from_option id]. rewrite fmap_cons. f_equal. unfold mail_msg, slice. by rewrite Hto.
Qed.

(** ** The invariant *)

Definition event_ok (addrs : gset Z) (e : event) : Prop :=
  match e with
  | ESend a _ _ _ pktHdr mailHdr data => a ∈ addrs /\ ph_to pktHdr ∈ addrs /\ send_ok pktHdr mailHdr data
  | ESendDone a | EPacketSent a | EPoll a | EDeliver a _ => a ∈ addrs
  | EReceive a box => a ∈ addrs /\ 0 <= box < numBoxes
  end.

Lemma for_box_app d b l k : for_box d b (l ++ k) = for_box d b l ++ for_box d b k.
Proof. unfold for_box. by rewrite filter_app, fmap_app. Qed.

Lemma for_box_one d b a g : for_box d b [(a, g)] = if decide (a = d /\ g_box g = b) then [g] else [].
Proof. unfold for_box. rewrite filter_cons, filter_nil. cbn [fst snd]. by case_decide. Qed.

Lemma of_box_app b l k : of_box b (l ++ k) = of_box b l ++ of_box b k.
Proof. unfold of_box. apply filter_app. Qed.

(** One office changes and its messages stay in order. *)
Lemma world_office w a po po' sock sock' :
  world_ok w -> w_offices w !! a = Some po -> w_sockets w !! a = Some sock ->
  office_ok a po' -> Forall (dgram_ok a) sock' ->
  (forall b, 0 <= b < numBoxes -> box_content b po' ++ in_transit b po' sock' = box_content b po ++ in_transit b po sock) ->
  world_ok (mkWorld (<[a := po']> (w_offices w)) (<[a := sock']> (w_sockets w)) (w_sent w) (w_received w)).
Proof.
  intros [Hdom Hoff Hso Hfifo] Hpo Hsk Hok' Hs' Heq. constructor; cbn.
  - by rewrite !dom_insert_L, Hdom.
  - intros d p. destruct (decide (d = a)) as [->|Hne].
    + rewrite lookup_insert_eq. by intros [= <-].
    + rewrite lookup_insert_ne by done. apply Hoff.
  - intros d q. destruct (decide (d = a)) as [->|Hne].
    + rewrite lookup_insert_eq. by intros [= <-].
    + rewrite lookup_insert_ne by done. apply Hso.
  - intros d b p q. destruct (decide (d = a)) as [->|Hne].
    + rewrite !lookup_insert_eq. intros [= <-] [= <-] Hb. rewrite Heq by done. by apply Hfifo.
    + rewrite !lookup_insert_ne by done. apply Hfifo.
Qed.

(** The send bookkeeping of an office. *)
Lemma office_send d po ms lock sd nw :
  office_ok d po -> nw_ident nw = d -> nw_sendBusy nw = false -> nw_inHdr nw = nw_inHdr (po_network po) ->
  nw_inbox nw = nw_inbox (po_network po) -> 0 <= sd -> 0 <= ms -> sd + ms = (if (lock : bool) then 1 else 0) ->
  office_ok d (mkOffice nw (po_netAddr po) (po_numBoxes po) (po_boxes po) (po_messageAvailable po) ms lock sd (po_buffer po)).
Proof.
  intros [(Ha & Hid & Hnb) Hbusy Hl Hav Hin Hbx _] Hi Hb Hh Hx H0 H1 Hs. constructor; office_cbn; rewrite ?Hh, ?Hx; done.
Qed.

Section Step.
Context (addrs : gset Z) (Haddrs : forall d, d ∈ addrs -> in_i32 d).

Lemma world_member w a : world_ok w -> dom (w_offices w) = addrs -> a ∈ addrs ->
  exists po sock, w_offices w !! a = Some po /\ w_sockets w !! a = Some sock /\ office_ok a po /\ Forall (dgram_ok a) sock.
Proof.
  intros [Hdom Hoff Hso _] Hd Ha.
  assert (Ho : a ∈ dom (w_offices w)) by by rewrite Hd. assert (Hs : a ∈ dom (w_sockets w)) by by rewrite <-Hdom.
  apply elem_of_dom in Ho as [po Hpo], Hs as [sock Hsock]. exists po, sock. split; [done|]. split; [done|]. split; eauto.
Qed.

(** The office of [a] changes, its socket does not. *)
Lemma world_office_only w a po po' sock :
  world_ok w -> w_offices w !! a = Some po -> w_sockets w !! a = Some sock -> office_ok a po' ->
  (forall b, 0 <= b < numBoxes -> box_content b po' ++ in_transit b po' sock = box_content b po ++ in_transit b po sock) ->
  world_ok (mkWorld (<[a := po']> (w_offices w)) (w_sockets w) (w_sent w) (w_received w)).
Proof.
  intros Hw Hpo Hsk Hok Heq. rewrite <-(insert_id (w_sockets w) a sock) by done.
  apply (world_office w a po po' sock sock); try done. by apply (wo_socks _ Hw).
Qed.

Lemma world_send w a po po' to q bytes g :
  world_ok w -> w_offices w !! a = Some po -> office_ok a po' -> po_network po' = po_network po -> po_boxes po' = po_boxes po ->
  w_sockets w !! to = Some q -> dgram_ok to bytes -> dgram_msg bytes = g ->
  world_ok (mkWorld (<[a := po']> (w_offices w)) (<[to := q ++ [bytes]]> (w_sockets w)) (w_sent w ++ [(to, g)]) (w_received w)).
Proof.
  intros [Hdom Hoff Hso Hfifo] Hpo Hok Hnw Hbx Hq Hd Hg. constructor; cbn [w_offices w_sockets w_sent w_received].
  - rewrite !dom_insert_L, Hdom. assert (a ∈ dom (w_sockets w)) by (rewrite <-Hdom; apply elem_of_dom; eauto).
    assert (to ∈ dom (w_sockets w)) by (apply elem_of_dom; eauto). set_solver.
  - intros d p. destruct (decide (d = a)) as [->|Hne].
    + rewrite lookup_insert_eq. by intros [= <-].
    + rewrite lookup_insert_ne by done. apply Hoff.
  - intros d q'. destruct (decide (d = to)) as [->|Hne].
    + rewrite lookup_insert_eq. intros [= <-]. apply Forall_app. split; [by apply (Hso to)|by constructor].
    + rewrite lookup_insert_ne by done. apply Hso.
  - intros d b p q' Hp Hq' Hb.
    assert (Hp' : exists p0, w_offices w !! d = Some p0 /\ po_network p = po_network p0 /\ po_boxes p = po_boxes p0).
    { destruct (decide (d = a)) as [->|Hne].
      - rewrite lookup_insert_eq in Hp. injection Hp as <-. eauto.
      - rewrite lookup_insert_ne in Hp by done. eauto. }
    destruct Hp' as (p0 & Hp0 & Hn0 & Hb0).
    assert (Hbc : box_content b p = box_content b p0) by (unfold box_content; by rewrite Hb0).
    rewrite for_box_app, for_box_one, Hbc. unfold in_transit. rewrite Hn0.
    destruct (decide (d = to)) as [->|Hne].
    + rewrite lookup_insert_eq in Hq'. injection Hq' as <-. rewrite (Hfifo to b p0 q Hp0 Hq Hb).
      unfold in_transit. rewrite fmap_app, of_box_app, <-!app_assoc. do 3 f_equal. cbn [fmap list_fmap]. f_equal.
      rewrite Hg. unfold of_box. rewrite filter_cons, filter_nil. case_decide as H1; case_decide as H2; tauto.
    + rewrite lookup_insert_ne in Hq' by done. rewrite (Hfifo d b p0 q' Hp0 Hq' Hb).
      rewrite decide_False by (intros [? _]; congruence). by rewrite app_nil_r.
Qed.

Lemma send_bookkeeping d po : office_ok d po -> po_sendLock po = false ->
  po_sendDone po + 1 + po_messageSent po = 1 /\ 0 <= po_sendDone po + 1.
Proof. intros Hok Hl. destruct (o_send _ _ Hok) as (? & ? & Hs). rewrite Hl in Hs. lia. Qed.

(** A receiver takes a message out of box [b], or finds it empty. *)
Lemma world_receive w a po po' b got :
  world_ok w -> w_offices w !! a = Some po -> office_ok a po' -> po_network po' = po_network po ->
  (forall b', 0 <= b' < numBoxes -> b' <> b -> box_content b' po' = box_content b' po) ->
  match got with
  | None => box_content b po = [] /\ po' = po
  | Some (pktHdr, mailHdr, data) => box_content b po = mkMsg (ph_from pktHdr) b (mh_from mailHdr) data :: box_content b po'
  end ->
  world_ok (mkWorld (<[a := po']> (w_offices w)) (w_sockets w) (w_sent w)
    (match got with
     | Some (pktHdr, mailHdr, data) => w_received w ++ [(a, mkMsg (ph_from pktHdr) b (mh_from mailHdr) data)]
     | None => w_received w
     end)).
Proof.
  intros Hw Hpo Hok' Hnw Hother Hgot.
  destruct Hw as [Hdm Hoff Hso Hfifo]. constructor; cbn [w_offices w_sockets w_sent w_received].
  + rewrite dom_insert_L, <-Hdm. assert (a ∈ dom (w_offices w)) by (apply elem_of_dom; eauto). set_solver.
  + intros d p. destruct (decide (d = a)) as [->|Hne].
    * rewrite lookup_insert_eq. by intros [= <-].
    * rewrite lookup_insert_ne by done. apply Hoff.
  + apply Hso.
  + intros d b' p q Hp Hq Hb'. destruct (decide (d = a)) as [->|Hne].
    * rewrite lookup_insert_eq in Hp. injection Hp as <-. rewrite (Hfifo a b' po q Hpo Hq Hb').
      unfold in_transit. rewrite Hnw. destruct got as [[[pk mh] data]|].
      -- rewrite for_box_app, for_box_one. cbn [g_box]. destruct (decide (b' = b)) as [->|Hbn].
         ++ rewrite decide_True by done. rewrite Hgot, <-app_assoc. done.
         ++ rewrite decide_False by (intros [_ ?]; congruence). by rewrite app_nil_r, Hother.
      -- destruct Hgot as [_ ->]. done.
    * rewrite lookup_insert_ne in Hp by done. rewrite (Hfifo d b' p q Hp Hq Hb'). f_equal.
      destruct got as [[[pk mh] data]|]; [|done]. rewrite for_box_app, for_box_one.
      rewrite decide_False by (intros [? _]; congruence). by rewrite app_nil_r.
Qed.

Lemma wstep_ok e w :
  world_ok w -> dom (w_offices w) = addrs -> event_ok addrs e ->
  exists w', wstep e w = Ok w' /\ world_ok w' /\ dom (w_offices w') = addrs.
Proof.
  intros Hw Hdom He.
  assert (Hd' : forall a po, a ∈ addrs -> dom (<[a := po]> (w_offices w)) = addrs)
    by (intros a po Ha; rewrite dom_insert_L, Hdom; set_solver).
  destruct e as [a heap heap' lost pk mh data|a|a|a|a heap|a b]; cbn [wstep event_ok] in *.
  - destruct He as (Ha & Hto & Hsend). destruct (world_member w a Hw Hdom Ha) as (po & sock & Hpo & Hsk & Hok & Hs).
    rewrite Hpo. cbn [deref mbind result_bind]. destruct (po_sendLock po) eqn:Hlock; [by exists w|].
    destruct (Send_spec heap heap' lost po a pk mh data Hok (Haddrs a Ha) Hsend) as (out & -> & Hout). cbn [mbind result_bind].
    set (po' := mkOffice _ _ _ _ _ _ _ _ _).
    assert (Hok' : office_ok a po').
    { destruct (send_bookkeeping _ _ Hok Hlock). destruct Hok as [(? & ? & ?) ? ? ? ? ? (? & ? & ?)].
      apply office_send; try done. }
    destruct out as [[to bytes]|].
    + destruct Hout as (_ & -> & Hdg & Hg). destruct (world_member w (ph_to pk) Hw Hdom Hto) as (_ & q & _ & Hq & _).
      unfold send_to. rewrite Hq. cbn [mbind result_bind]. eexists. split; [reflexivity|]. split; [|by apply Hd'].
      by apply (world_send w a po).
    + eexists. split; [reflexivity|]. split; [|by apply Hd'].
      by apply (world_office_only w a po po' sock).
  - destruct (world_member w a Hw Hdom He) as (po & sock & Hpo & Hsk & Hok & Hs).
    rewrite Hpo. cbn [deref mbind result_bind]. eexists. split; [reflexivity|]. split; [|by apply Hd'].
    apply (world_office_only w a po _ sock); try done; unfold PostOffice_Send_done; destruct (po_sendLock po && _) eqn:Hc; try done.
    apply andb_true_iff in Hc as [Hlock Hms]. pose proof (o_send _ _ Hok) as (? & ? & Hsum). rewrite Hlock in Hsum.
    apply office_send; try done; try apply Hok; lia.
  - destruct (world_member w a Hw Hdom He) as (po & sock & Hpo & Hsk & Hok & Hs).
    rewrite Hpo. cbn [deref mbind result_bind]. eexists. split; [reflexivity|]. split; [|by apply Hd'].
    apply (world_office_only w a po _ sock); try done; unfold PostOffice_PacketSent; destruct (0 <? po_sendDone po) eqn:Hc; try done.
    pose proof (o_send _ _ Hok) as (? & ? & Hsum).
    apply office_send; try done; try apply Hok; lia.
  - destruct (world_member w a Hw Hdom He) as (po & sock & Hpo & Hsk & Hok & Hs).
    rewrite Hpo, Hsk. cbn [deref mbind result_bind].
    destruct (IncomingPacket_spec a po sock Hok Hs) as (po' & sock' & -> & Hok' & Hs' & Hbx & Hbuf & _). cbn [mbind result_bind].
    eexists. split; [reflexivity|]. split; [|by apply Hd']. apply (world_office w a po po' sock sock'); try done.
    intros b Hb. unfold box_content, in_transit. rewrite Hbx. f_equal. by rewrite <-!of_box_app, Hbuf.
  - destruct (world_member w a Hw Hdom He) as (po & sock & Hpo & Hsk & Hok & Hs).
    rewrite Hpo. cbn [deref mbind result_bind].
    destruct (PostalDelivery_spec heap a po Hok) as (po' & -> & Hok' & _ & Heq). cbn [mbind result_bind].
    eexists. split; [reflexivity|]. split; [|by apply Hd']. apply (world_office_only w a po po' sock); try done.
    intros b Hb. unfold in_transit. by rewrite !app_assoc, Heq.
  - destruct He as [Ha Hb]. destruct (world_member w a Hw Hdom Ha) as (po & sock & Hpo & Hsk & Hok & Hs).
    rewrite Hpo. cbn [deref mbind result_bind].
    destruct (Receive_spec a po b Hok Hb) as (got & po' & -> & Hok' & Hnw & Hother & Hgot). cbn [mbind result_bind].
    eexists. split; [reflexivity|]. split; [|by apply Hd'].
    by apply (world_receive w a po).
Qed.

Lemma wrun_ok es : forall w, world_ok w -> dom (w_offices w) = addrs -> Forall (event_ok addrs) es ->
  exists w', wrun es w = Ok w' /\ world_ok w' /\ dom (w_offices w') = addrs.
Proof.
  induction es as [|e es IH]; intros w Hw Hd He; [by exists w|]. apply Forall_cons in He as [He Hes].
  destruct (wstep_ok e w Hw Hd He) as (w1 & Hs & Hw1 & Hd1). destruct (IH w1 Hw1 Hd1 Hes) as (w' & Hr & H').
  exists w'. split; [|done]. unfold wrun in *. cbn [result_fold]. by rewrite Hs.
Qed.
End Step.

(** ** The properties *)

(** The world before any machine sends. *)
Record world_initial (w : World) : Prop := {
  wi_dom : dom (w_offices w) = dom (w_sockets w);
  wi_office : forall d po, w_offices w !! d = Some po ->
    exists inbox buffer garbage, po = PostOffice_new d numBoxes inbox buffer garbage
      /\ length inbox = 52%nat /\ length buffer = 52%nat;
  wi_socks : forall d q, w_sockets w !! d = Some q -> q = [];
  wi_logs : w_sent w = [] /\ w_received w = []
}.

Lemma office_new_ok d inbox buffer garbage :
  length inbox = 52%nat -> length buffer = 52%nat -> office_ok d (PostOffice_new d numBoxes inbox buffer garbage).
Proof.
  intros Hi Hb. constructor; try done. intros b l Hl. unfold PostOffice_new in Hl. cbn [po_boxes] in Hl.
  apply lookup_replicate in Hl as [-> _]. done.
Qed.

Lemma world_initial_ok w : world_initial w -> world_ok w.
Proof.
  intros [Hd Ho Hs [Hsent Hrecv]]. constructor; [done| | |].
  - intros d po Hp. destruct (Ho d po Hp) as (inbox & buffer & g & -> & Hi & Hb). by apply office_new_ok.
  - intros d q Hq. by rewrite (Hs d q Hq).
  - intros d b po sock Hp Hq Hb. destruct (Ho d po Hp) as (inbox & buffer & g & -> & Hi & Hbf).
    rewrite Hsent, Hrecv, (Hs d sock Hq). unfold box_content, in_transit. cbn [po_boxes PostOffice_new].
    rewrite lookup_replicate_2 by (unfold numBoxes in *; lia). done.
Qed.

(** C21.  The post offices deliver in order, unchanged, and each message at most once: in any
    interleaving of sends, interrupts, polls, rounds of the postal worker and receives on
    any set of machines, no step fails and no assertion of the network or the post office is
    violated, and for every mailbox the messages that were put on the wire are exactly those
    received so far, then those waiting in the box, then those in the device and in the
    socket, in this order, with the sender's address filled in by [Send]. *)
Theorem mail_fifo (es : list event) (w : World) :
  world_initial w -> (forall d, d ∈ dom (w_offices w) -> in_i32 d) -> Forall (event_ok (dom (w_offices w))) es ->
  exists w', wrun es w = Ok w'
    /\ forall d b po sock, w_offices w' !! d = Some po -> w_sockets w' !! d = Some sock -> 0 <= b < numBoxes ->
       for_box d b (w_sent w') = for_box d b (w_received w') ++ box_content b po ++ in_transit b po sock.
Proof.
  intros Hi Ha He. destruct (wrun_ok (dom (w_offices w)) Ha es w) as (w' & Hr & Hw' & _); try done.
  { by apply world_initial_ok. }
  exists w'. split; [done|]. apply Hw'.
Qed.

(** The device of one machine at work: polls, each followed by a round of the worker. *)
Fixpoint rounds (a : Z) (n : nat) : list event :=
  match n with O => [] | S n => EPoll a :: EDeliver a [] :: rounds a n end.

Definition drain (a : Z) (n : nat) : list event := EDeliver a [] :: rounds a n.

Lemma rounds_empty a : forall n w po sock,
  world_ok w -> w_offices w !! a = Some po -> w_sockets w !! a = Some sock -> length sock = n ->
  buffered (po_network po) = [] ->
  exists w' po', wrun (rounds a n) w = Ok w' /\ w_sent w' = w_sent w /\ w_received w' = w_received w /\ world_ok w'
    /\ w_offices w' !! a = Some po' /\ w_sockets w' !! a = Some [] /\ buffered (po_network po') = [].
Proof.
  induction n as [|n IH]; intros w po sock Hw Hpo Hsk Hn Hb.
  { apply nil_length_inv in Hn as ->. by exists w, po. }
  pose proof (wo_office _ Hw _ _ Hpo) as Hok. pose proof (wo_socks _ Hw _ _ Hsk) as Hs.
  destruct (IncomingPacket_spec a po sock Hok Hs) as (po1 & sock1 & HP & Hok1 & Hs1 & Hbx1 & Hbuf1 & Htl).
  destruct (PostalDelivery_spec [] a po1 Hok1) as (po2 & HD & Hok2 & Hb2 & Heq2).
  set (w2 := mkWorld (<[a := po2]> (w_offices w)) (<[a := sock1]> (w_sockets w)) (w_sent w) (w_received w)).
  assert (Hw2 : world_ok w2).
  { apply (world_office w a po po2 sock sock1); try done. intros b Hbb. unfold in_transit.
    rewrite !app_assoc, Heq2 by done. unfold box_content. rewrite Hbx1, <-!app_assoc. f_equal. by rewrite <-!of_box_app, Hbuf1. }
  destruct (IH w2 po2 sock1) as (w' & po' & Hr & H1 & H2 & H3); try done; [cbn; by rewrite lookup_insert_eq..| |].
  { rewrite (Htl Hb). destruct sock; [done|]. cbn in *. lia. }
  exists w', po'. split; [|done]. unfold wrun in *. cbn [rounds result_fold wstep]. rewrite Hpo, Hsk. cbn [deref mbind result_bind].
  rewrite HP. cbn [mbind result_bind w_offices]. rewrite lookup_insert_eq. cbn [deref mbind result_bind]. rewrite HD.
  cbn [mbind result_bind w_offices w_sockets w_sent w_received]. by rewrite insert_insert_eq.
Qed.

(** A drained machine has all its messages in its boxes. *)
Lemma drain_ok a w po sock :
  world_ok w -> w_offices w !! a = Some po -> w_sockets w !! a = Some sock ->
  exists w' po', wrun (drain a (length sock)) w = Ok w' /\ w_sent w' = w_sent w /\ w_received w' = w_received w
    /\ w_offices w' !! a = Some po'
    /\ forall b, 0 <= b < numBoxes -> for_box a b (w_sent w) = for_box a b (w_received w) ++ box_content b po'.
Proof.
  intros Hw Hpo Hsk. pose proof (wo_office _ Hw _ _ Hpo) as Hok.
  destruct (PostalDelivery_spec [] a po Hok) as (po1 & HD & Hok1 & Hb1 & Heq1).
  set (w1 := mkWorld (<[a := po1]> (w_offices w)) (w_sockets w) (w_sent w) (w_received w)).
  assert (Hw1 : world_ok w1).
  { apply (world_office_only w a po po1 sock); try done. intros b Hb. unfold in_transit. by rewrite !app_assoc, Heq1. }
  destruct (rounds_empty a (length sock) w1 po1 sock) as (w'' & po' & Hr2 & Hs2 & Hv2 & Hw2 & Hpo2 & Hsk2 & Hb2); try done.
  { cbn. by rewrite lookup_insert_eq. }
  exists w'', po'. split.
  { unfold drain, wrun in *. cbn [result_fold wstep]. rewrite Hpo. cbn [deref mbind result_bind]. by rewrite HD. }
  split_and!; [done..|]. intros b Hb. pose proof (wo_fifo _ Hw2 a b po' [] Hpo2 Hsk2 Hb) as Hf.
  rewrite Hs2, Hv2 in Hf. cbn [w1 w_sent w_received] in Hf. rewrite Hf. unfold in_transit. rewrite Hb2. cbn. by rewrite app_nil_r.
Qed.

(** Mail arrives: after any run of the post offices, finitely many polls and rounds of the
    postal worker on a machine move every message that is on its way to it into its
    mailbox, without losing or reordering any. *)
Theorem mail_arrives (es : list event) (w : World) (a : Z) :
  world_initial w -> (forall d, d ∈ dom (w_offices w) -> in_i32 d) -> Forall (event_ok (dom (w_offices w))) es ->
  a ∈ dom (w_offices w) ->
  exists w' n w'' po, wrun es w = Ok w' /\ wrun (drain a n) w' = Ok w'' /\ w_sent w'' = w_sent w' /\ w_offices w'' !! a = Some po
    /\ forall b, 0 <= b < numBoxes -> for_box a b (w_sent w') = for_box a b (w_received w') ++ box_content b po.
Proof.
  intros Hi Haddr He Ha. destruct (wrun_ok (dom (w_offices w)) Haddr es w) as (w' & Hr & Hw' & Hd); try done.
  { by apply world_initial_ok. }
  destruct (world_member _ w' a Hw' Hd Ha) as (po & sock & Hpo & Hsk & Hok & Hs).
  destruct (drain_ok a w' po sock) as (w'' & po' & Hr2 & Hs2 & _ & Hpo2 & Hf); try done.
  exists w', (length sock), w'', po'. done.
Qed.

(** ** An example: two machines, one message *)

Definition two_machines : World :=
  let office a := PostOffice_new a numBoxes (replicate 52 0) (replicate 52 0) (mkPkt 0 0 0) in
  mkWorld {[ 0 := office 0; 1 := office 1 ]} {[ 0 := []; 1 := [] ]} [] [].

Definition mail_session : list event :=
  [ ESend 0 [] [] false (mkPkt 1 0 0) (mkMailH 2 3 4) [7; 8; 9; 10]; EPacketSent 0; EPoll 1; EDeliver 1 []; EReceive 1 2 ].

Lemma two_machines_initial : world_initial two_machines.
Proof.
  constructor; [by vm_compute| | |done]; unfold two_machines; cbn [w_offices w_sockets]; intros d x Hx;
    apply lookup_insert_Some in Hx as [[<- <-]|[_ Hx]]; try done;
    try (exists (replicate 52 0), (replicate 52 0), (mkPkt 0 0 0); done);
    apply lookup_singleton_Some in Hx as [<- <-]; try done.
  exists (replicate 52 0), (replicate 52 0), (mkPkt 0 0 0). done.
Qed.

Lemma two_machines_dom d : d ∈ dom (w_offices two_machines) <-> d = 0 \/ d = 1.
Proof. unfold two_machines. cbn [w_offices]. rewrite dom_insert_L, dom_singleton_L. set_solver. Qed.

Lemma mail_session_ok : Forall (event_ok (dom (w_offices two_machines))) mail_session.
Proof.
  repeat constructor; rewrite ?two_machines_dom; cbn; auto; unfold in_i32, numBoxes, MaxMailSize, MaxPacketSize, MaxWireSize, header_size; lia.
Qed.

Lemma mail_fifo_witness :
  exists w', wrun mail_session two_machines = Ok w'
    /\ forall d b po sock, w_offices w' !! d = Some po -> w_sockets w' !! d = Some sock -> 0 <= b < numBoxes ->
       for_box d b (w_sent w') = for_box d b (w_received w') ++ box_content b po ++ in_transit b po sock.
Proof.
  apply (mail_fifo mail_session two_machines); [exact two_machines_initial| |exact mail_session_ok].
  intros d Hd. apply two_machines_dom in Hd. unfold in_i32. lia.
Defined.

Lemma mail_arrives_witness :
  exists w' n w'' po, wrun (take 2 mail_session) two_machines = Ok w' /\ wrun (drain 1 n) w' = Ok w'' /\ w_sent w'' = w_sent w'
    /\ w_offices w'' !! 1 = Some po
    /\ forall b, 0 <= b < numBoxes -> for_box 1 b (w_sent w') = for_box 1 b (w_received w') ++ box_content b po.
Proof.
  apply (mail_arrives (take 2 mail_session) two_machines 1); [exact two_machines_initial| | |].
  - intros d Hd. apply two_machines_dom in Hd. unfold in_i32. lia.
  - apply Forall_take. exact mail_session_ok.
  - apply two_machines_dom. by right.
Defined.

(** The message is received as it was sent. *)
Example mail_session_runs :
  (fun w => w_received w) <$> (match wrun mail_session two_machines with Ok w => Some w | Err _ => None end)
    = Some [(1, mkMsg 0 2 3 [7; 8; 9; 10])].
Proof. reflexivity. Qed.
