(* ===== verification/MailTest.v ===== *)
(** * network/nettest.cc: the mail test

    [MailTest] on every machine of a network: each sends a greeting to its partner, waits for
    the greeting that is meant for it, acknowledges it, waits for its own acknowledgement and
    halts.  The test of one machine is a step function over the world of [Mail.v]; a halted
    machine leaves the network, and a message to it would stop the sender.  The network is
    reliable here (no packet is dropped), which is what the test needs. *)

From S2P Require Import Prelude BitMap Disk Mail.

(** Where [MailTest] is: before a send, waiting in it for the interrupt, before a receive. *)
Inductive mt_pc :=
  | SendHello | WaitHello | RecvHello | SendAck (from box : Z) | WaitAck | RecvAck | Halted.

#[global] Instance mt_pc_eq_dec : EqDecision mt_pc.
Proof. solve_decision. Defined.
#[global] Instance mt_pc_inhabited : Inhabited mt_pc := populate SendHello.

(** The strings, with their null. *)
Definition mt_data : list Z := [72; 101; 108; 108; 111; 32; 116; 104; 101; 114; 101; 33; 0].
Definition mt_ack : list Z := [71; 111; 116; 32; 105; 116; 33; 0].

(** [postOffice->Send] up to the wait; the caller stays where it is while the lock is taken. *)
Definition mt_send (a : Z) (heap heap' : list Z) (pktHdr : PacketHeader) (mailHdr : MailHeader) (data : list Z)
    (here next : mt_pc) (w : World) : result (mt_pc * World) :=
  po ← deref (w_offices w !! a);
  w ← wstep (ESend a heap heap' false pktHdr mailHdr data) w;
  Ok (if po_sendLock po then here else next, w).

(** The rest of [Send]. *)
Definition mt_sent (a : Z) (here next : mt_pc) (w : World) : result (mt_pc * World) :=
  w ← wstep (ESendDone a) w;
  po ← deref (w_offices w !! a);
  Ok (if po_sendLock po then here else next, w).

(** [postOffice->Receive]; the caller waits while the box is empty. *)
Definition mt_receive (a box : Z) (here : mt_pc) (next : PacketHeader -> MailHeader -> mt_pc) (w : World) : result (mt_pc * World) :=
  po ← deref (w_offices w !! a);
  '(got, _) ← PostOffice_Receive po box;
  w ← wstep (EReceive a box) w;
  Ok (match got with Some (inPktHdr, inMailHdr, _) => next inPktHdr inMailHdr | None => here end, w).

(** One step of [MailTest(farAddr)] on machine [a]; [junk] is what the fields of the packet
    header that [Send] fills in hold before. *)
Definition MailTest (a farAddr : Z) (heap heap' : list Z) (junk : PacketHeader) (k : mt_pc) (w : World) : result (mt_pc * World) :=
  match k with
  | SendHello =>
      mt_send a heap heap' (mkPkt farAddr (ph_from junk) (ph_length junk)) (mkMailH 0 1 (Z.of_nat (length mt_data))) mt_data
        SendHello WaitHello w
  | WaitHello => mt_sent a WaitHello RecvHello w
  | RecvHello => mt_receive a 0 RecvHello (fun inPktHdr inMailHdr => SendAck (ph_from inPktHdr) (mh_from inMailHdr)) w
  | SendAck from box =>
      mt_send a heap heap' (mkPkt from (ph_from junk) (ph_length junk)) (mkMailH box 1 (Z.of_nat (length mt_ack))) mt_ack
        (SendAck from box) WaitAck w
  | WaitAck => mt_sent a WaitAck RecvAck w
  | RecvAck => mt_receive a 1 RecvAck (fun _ _ => Halted) w
  | Halted => Ok (Halted, w)
  end.

(** ** The machines together *)

Record mt_state := mkMT { mt_world : World; mt_pcs : gmap Z mt_pc }.

(** A device or the postal worker of a machine, or its test. *)
Inductive mt_event :=
  | MPacketSent (a : Z)
  | MPoll (a : Z)
  | MDeliver (a : Z) (heap : list Z)
  | MTest (a : Z) (heap heap' : list Z) (junk : PacketHeader).

Definition mt_machine (e : mt_event) : Z :=
  match e with MPacketSent a | MPoll a | MDeliver a _ | MTest a _ _ _ => a end.

(** [interrupt->Halt()]: the process ends and its socket is closed. *)
Definition mt_halt (a : Z) (w : World) : World :=
  mkWorld (delete a (w_offices w)) (delete a (w_sockets w)) (w_sent w) (w_received w).

(** Events of machines that do not run (any more) do nothing. *)
Definition mt_step (far : Z -> Z) (e : mt_event) (st : mt_state) : result mt_state :=
  let a := mt_machine e in
  let w := mt_world st in
  match w_offices w !! a with
  | None => Ok st
  | Some _ =>
      match e with
      | MPacketSent a => w ← wstep (EPacketSent a) w; Ok (mkMT w (mt_pcs st))
      | MPoll a => w ← wstep (EPoll a) w; Ok (mkMT w (mt_pcs st))
      | MDeliver a heap => w ← wstep (EDeliver a heap) w; Ok (mkMT w (mt_pcs st))
      | MTest a heap heap' junk =>
          '(k, w) ← MailTest a (far a) heap heap' junk (mt_pcs st !!! a) w;
          Ok (mkMT (if decide (k = Halted) then mt_halt a w else w) (<[a := k]> (mt_pcs st)))
      end
  end.

Definition mt_run (far : Z -> Z) (es : list mt_event) (st : mt_state) : result mt_state := result_fold (mt_step far) es st.

Definition mt_start (addrs : gset Z) (w : World) : mt_state := mkMT w (gset_to_gmap SendHello addrs).

(** ** What has been said *)

Definition hello (a : Z) : msg := mkMsg a 0 1 mt_data.
Definition thanks (a : Z) : msg := mkMsg a 1 1 mt_ack.

Definition hello_sent (k : mt_pc) : bool := match k with SendHello => false | _ => true end.
Definition hello_got (k : mt_pc) : bool := match k with SendAck _ _ | WaitAck | RecvAck | Halted => true | _ => false end.
Definition ack_sent (k : mt_pc) : bool := match k with WaitAck | RecvAck | Halted => true | _ => false end.
Definition ack_got (k : mt_pc) : bool := match k with Halted => true | _ => false end.
Definition in_send (k : mt_pc) : bool := match k with WaitHello | WaitAck => true | _ => false end.

(** How far the test has come, out of 6. *)
Definition rank (k : mt_pc) : nat :=
  match k with SendHello => 0 | WaitHello => 1 | RecvHello => 2 | SendAck _ _ => 3 | WaitAck => 4 | RecvAck => 5 | Halted => 6 end.

Definition said (b : bool) (m : msg) : list msg := if b then [m] else [].

Section Test.
Context (addrs : gset Z) (far prev : Z -> Z).
Context (Hint : forall a, a ∈ addrs -> in_i32 a).
Context (Hfar : forall a, a ∈ addrs -> far a ∈ addrs /\ prev (far a) = a).
Context (Hprev : forall a, a ∈ addrs -> prev a ∈ addrs /\ far (prev a) = a).

(** The histories of the network agree with the points the tests have reached. *)
Record logs_ok (pcs : gmap Z mt_pc) (sent received : list (Z * msg)) : Prop := {
  l_hello : forall a, a ∈ addrs -> for_box (far a) 0 sent = said (hello_sent (pcs !!! a)) (hello a);
  l_ack : forall a, a ∈ addrs -> for_box (prev a) 1 sent = said (ack_sent (pcs !!! a)) (thanks a);
  l_got : forall a, a ∈ addrs -> for_box a 0 received = said (hello_got (pcs !!! a)) (hello (prev a));
  l_acked : forall a, a ∈ addrs -> for_box a 1 received = said (ack_got (pcs !!! a)) (thanks (far a));
  l_reply : forall a from box, a ∈ addrs -> pcs !!! a = SendAck from box -> from = prev a /\ box = 1;
  l_order : forall a, a ∈ addrs -> hello_got (pcs !!! a) = true -> hello_sent (pcs !!! prev a) = true;
  l_order' : forall a, a ∈ addrs -> ack_got (pcs !!! a) = true -> ack_sent (pcs !!! far a) = true
}.

(** A step of one test and what it adds to the histories. *)
Inductive advance (a : Z) (pcs : gmap Z mt_pc) : mt_pc -> mt_pc -> list (Z * msg) -> list (Z * msg) -> Prop :=
  | AdvStay k : advance a pcs k k [] []
  | AdvHello : advance a pcs SendHello WaitHello [(far a, hello a)] []
  | AdvSent : advance a pcs WaitHello RecvHello [] []
  | AdvGot : hello_sent (pcs !!! prev a) = true -> advance a pcs RecvHello (SendAck (prev a) 1) [] [(a, hello (prev a))]
  | AdvAck : advance a pcs (SendAck (prev a) 1) WaitAck [(prev a, thanks a)] []
  | AdvAcked : advance a pcs WaitAck RecvAck [] []
  | AdvDone : ack_sent (pcs !!! far a) = true -> advance a pcs RecvAck Halted [] [(a, thanks (far a))].

Lemma far_inj a b : a ∈ addrs -> b ∈ addrs -> far a = far b -> a = b.
Proof. intros Ha Hb E. by rewrite <-(proj2 (Hfar a Ha)), <-(proj2 (Hfar b Hb)), E. Qed.

Lemma prev_inj a b : a ∈ addrs -> b ∈ addrs -> prev a = prev b -> a = b.
Proof. intros Ha Hb E. by rewrite <-(proj2 (Hprev a Ha)), <-(proj2 (Hprev b Hb)), E. Qed.

Lemma advance_mono a pcs k k' s r : advance a pcs k k' s r ->
  (hello_sent k = true -> hello_sent k' = true) /\ (ack_sent k = true -> ack_sent k' = true).
Proof. by intros []. Qed.

Ltac log_case H Hpc Hadv Hk d a :=
  intros Hd; rewrite for_box_app, H, Hpc by done;
  destruct Hadv; rewrite ?for_box_one; cbn [hello thanks g_box]; destruct (decide (d = a)) as [->|Hne]; rewrite ?Hk;
  repeat case_decide; cbn; rewrite ?app_nil_r; naive_solver.

Lemma logs_advance a k k' pcs sent received s r :
  a ∈ addrs -> logs_ok pcs sent received -> pcs !!! a = k -> advance a pcs k k' s r ->
  logs_ok (<[a := k']> pcs) (sent ++ s) (received ++ r).
Proof.
  intros Ha Hl Hk Hadv. destruct (advance_mono _ _ _ _ _ _ Hadv) as [M1 M2].
  assert (Hpc : forall d, (<[a := k']> pcs !!! d) = if decide (d = a) then k' else pcs !!! d).
  { intros d. destruct (decide (d = a)) as [->|]; [by rewrite lookup_total_insert_eq|by rewrite lookup_total_insert_ne]. }
  destruct Hl as [H1 H2 H3 H4 H5 H6 H7]. pose proof (far_inj a) as Fi. pose proof (prev_inj a) as Pi.
  constructor; intros d.
  - log_case H1 Hpc Hadv Hk d a.
  - log_case H2 Hpc Hadv Hk d a.
  - log_case H3 Hpc Hadv Hk d a.
  - log_case H4 Hpc Hadv Hk d a.
  - intros from box Hd. rewrite Hpc. case_decide as E; [|by apply H5]. subst d.
    destruct Hadv; intros E; try discriminate E; [rewrite E in Hk; by apply (H5 a)|by injection E as <- <-].
  - intros Hd. rewrite !Hpc. intros Hg.
    assert (Hs : hello_sent (pcs !!! prev d) = true).
    { destruct (decide (d = a)) as [->|]; [|by apply H6]. destruct Hadv; try discriminate Hg; try done; apply H6; try done; by rewrite Hk. }
    destruct (decide (prev d = a)) as [E|]; [|done]. apply M1. by rewrite <-Hk, <-E.
  - intros Hd. rewrite !Hpc. intros Hg.
    assert (Hs : ack_sent (pcs !!! far d) = true).
    { destruct (decide (d = a)) as [->|]; [|by apply H7]. destruct Hadv; try discriminate Hg; try done; apply H7; try done; by rewrite Hk. }
    destruct (decide (far d = a)) as [E|]; [|done]. apply M2. by rewrite <-Hk, <-E.
Qed.

(** ** The invariant *)

Record mt_inv (st : mt_state) : Prop := {
  i_world : world_ok (mt_world st);
  i_alive : forall a, a ∈ dom (w_offices (mt_world st)) <-> a ∈ addrs /\ mt_pcs st !!! a <> Halted;
  i_lock : forall a po, w_offices (mt_world st) !! a = Some po -> po_sendLock po = in_send (mt_pcs st !!! a);
  i_logs : logs_ok (mt_pcs st) (w_sent (mt_world st)) (w_received (mt_world st))
}.

(** What a step of the network does to the machine it runs on and to the histories. *)
Definition mt_frame (a : Z) (w w' : World) (s r : list (Z * msg)) (lock : bool) : Prop :=
  world_ok w' /\ w_sent w' = w_sent w ++ s /\ w_received w' = w_received w ++ r
  /\ dom (w_offices w') = dom (w_offices w)
  /\ (exists po, w_offices w' !! a = Some po /\ po_sendLock po = lock)
  /\ forall d, d <> a -> w_offices w' !! d = w_offices w !! d.

Lemma mt_inv_step a w w' pcs k k' s r lock :
  mt_inv (mkMT w pcs) -> a ∈ addrs -> pcs !!! a = k -> k <> Halted -> k' <> Halted ->
  mt_frame a w w' s r lock -> advance a pcs k k' s r -> in_send k' = lock -> mt_inv (mkMT w' (<[a := k']> pcs)).
Proof.
  intros [Hw Hal Hlk Hlog] Ha Hk Hk0 Hk1 (Hw' & Hs & Hr & Hdom & (po & Hpo & Hl) & Hoth) Hadv Hin. cbn in *.
  constructor; cbn.
  - done.
  - intros d. rewrite Hdom, Hal. destruct (decide (d = a)) as [->|Hne]; [rewrite lookup_total_insert_eq; naive_solver|by rewrite lookup_total_insert_ne].
  - intros d p Hp. destruct (decide (d = a)) as [->|Hne].
    + rewrite lookup_total_insert_eq. rewrite Hpo in Hp. injection Hp as <-. congruence.
    + rewrite lookup_total_insert_ne by done. apply Hlk. by rewrite <-Hoth.
  - rewrite Hs, Hr. by apply (logs_advance a k).
Qed.

Lemma frame_office a w po' socks s r lock :
  world_ok (mkWorld (<[a := po']> (w_offices w)) socks (w_sent w ++ s) (w_received w ++ r)) -> a ∈ dom (w_offices w) ->
  po_sendLock po' = lock ->
  mt_frame a w (mkWorld (<[a := po']> (w_offices w)) socks (w_sent w ++ s) (w_received w ++ r)) s r lock.
Proof.
  intros Hw Ha Hl. split; [done|]. split; [done|]. split; [done|]. cbn. split; [rewrite dom_insert_L; set_solver|].
  split; [rewrite lookup_insert_eq; eauto|]. intros d Hd. by rewrite lookup_insert_ne.
Qed.

Section Frames.
Context (w : World) (a : Z) (po : PostOffice).
Context (Hw : world_ok w) (Hi : forall d, d ∈ dom (w_offices w) -> in_i32 d) (Hpo : w_offices w !! a = Some po).

Lemma frame_dom : a ∈ dom (w_offices w).
Proof. apply elem_of_dom. eauto. Qed.

(** Devices and the postal worker. *)
Lemma frame_packet_sent : exists w', wstep (EPacketSent a) w = Ok w' /\ mt_frame a w w' [] [] (po_sendLock po).
Proof.
  destruct (wstep_ok _ Hi (EPacketSent a) w Hw eq_refl frame_dom) as (w' & E & Hw' & _). exists w'. split; [done|].
  cbn [wstep] in E. rewrite Hpo in E. injection E as <-. rewrite <-(app_nil_r (w_sent w)), <-(app_nil_r (w_received w)) in Hw' |- *.
  apply frame_office; [done|apply frame_dom|]. unfold PostOffice_PacketSent. by case_match.
Qed.

Lemma frame_poll : exists w', wstep (EPoll a) w = Ok w' /\ mt_frame a w w' [] [] (po_sendLock po).
Proof.
  destruct (wstep_ok _ Hi (EPoll a) w Hw eq_refl frame_dom) as (w' & E & Hw' & _). exists w'. split; [done|].
  cbn [wstep] in E. rewrite Hpo in E. cbn [deref mbind result_bind] in E.
  apply bind_Ok_inv in E as (sock & _ & E). apply bind_Ok_inv in E as ([po' sock'] & E1 & [= <-]).
  rewrite <-(app_nil_r (w_sent w)), <-(app_nil_r (w_received w)) in Hw' |- *. apply frame_office; [done|apply frame_dom|].
  apply bind_Ok_inv in E1 as ([[nw' sk] avail] & _ & [= <- <-]). done.
Qed.

Lemma frame_deliver heap : exists w', wstep (EDeliver a heap) w = Ok w' /\ mt_frame a w w' [] [] (po_sendLock po).
Proof.
  destruct (wstep_ok _ Hi (EDeliver a heap) w Hw eq_refl frame_dom) as (w' & E & Hw' & _). exists w'. split; [done|].
  cbn [wstep] in E. rewrite Hpo in E. cbn [deref mbind result_bind] in E. apply bind_Ok_inv in E as (po' & E1 & [= <-]).
  rewrite <-(app_nil_r (w_sent w)), <-(app_nil_r (w_received w)) in Hw' |- *. apply frame_office; [done|apply frame_dom|].
  unfold PostOffice_PostalDelivery in E1. destruct (0 <? po_messageAvailable po); [|by injection E1 as <-].
  apply bind_Ok_inv in E1 as ([[pk buf] nw] & _ & E1). repeat (apply bind_Ok_inv in E1 as (? & _ & E1)). by injection E1 as <-.
Qed.

(** [Send], by the only thread that sends. *)
Lemma frame_send heap heap' pk mh data :
  ph_to pk ∈ dom (w_offices w) -> send_ok pk mh data -> po_sendLock po = false ->
  exists w', wstep (ESend a heap heap' false pk mh data) w = Ok w'
    /\ mt_frame a w w' [(ph_to pk, mkMsg a (mh_to mh) (mh_from mh) (take (Z.to_nat (mh_length mh)) data))] [] true.
Proof.
  intros Hto Hsend Hl.
  destruct (wstep_ok _ Hi (ESend a heap heap' false pk mh data) w Hw eq_refl) as (w' & E & Hw' & _); [by split_and!; try apply frame_dom|].
  exists w'. split; [done|]. cbn [wstep] in E. rewrite Hpo in E. cbn [deref mbind result_bind] in E. rewrite Hl in E.
  destruct (Send_spec heap heap' false po a pk mh data) as (out & E1 & Hout); [by apply (wo_office _ Hw)|apply Hi, frame_dom|done|].
  rewrite E1 in E. cbn [mbind result_bind] in E. destruct out as [[to bytes]|]; [|done]. destruct Hout as (_ & -> & _).
  apply bind_Ok_inv in E as (socks & _ & [= <-]). rewrite <-(app_nil_r (w_received w)) in Hw' |- *.
  apply frame_office; [done|apply frame_dom|done].
Qed.

Lemma frame_send_done : exists w', wstep (ESendDone a) w = Ok w'
  /\ mt_frame a w w' [] [] (po_sendLock po && negb (0 <? po_messageSent po)).
Proof.
  destruct (wstep_ok _ Hi (ESendDone a) w Hw eq_refl frame_dom) as (w' & E & Hw' & _). exists w'. split; [done|].
  cbn [wstep] in E. rewrite Hpo in E. injection E as <-. rewrite <-(app_nil_r (w_sent w)), <-(app_nil_r (w_received w)) in Hw' |- *.
  apply frame_office; [done|apply frame_dom|]. unfold PostOffice_Send_done.
  destruct (po_sendLock po) eqn:E1, (0 <? po_messageSent po); cbn; congruence.
Qed.

(** [Receive] takes the oldest message that was sent to the box and not received. *)
Lemma frame_receive b : 0 <= b < numBoxes ->
  exists got po' w', PostOffice_Receive po b = Ok (got, po') /\ wstep (EReceive a b) w = Ok w'
    /\ match got with
       | None => mt_frame a w w' [] [] (po_sendLock po) /\ box_content b po = []
       | Some (pk, mh, data) => mt_frame a w w' [] [(a, mkMsg (ph_from pk) b (mh_from mh) data)] (po_sendLock po)
           /\ exists rest, for_box a b (w_sent w) = for_box a b (w_received w) ++ mkMsg (ph_from pk) b (mh_from mh) data :: rest
       end.
Proof.
  intros Hb. pose proof (wo_office _ Hw _ _ Hpo) as Hok. destruct (Receive_spec a po b Hok Hb) as (got & po' & E1 & Hok' & Hnw & Hother & Hgot).
  destruct (wstep_ok _ Hi (EReceive a b) w Hw eq_refl) as (w' & E & Hw' & _); [split; [apply frame_dom|done]|].
  exists got, po', w'. split; [done|]. split; [done|]. cbn [wstep] in E. rewrite Hpo in E. cbn [deref mbind result_bind] in E.
  rewrite E1 in E. cbn [mbind result_bind] in E. injection E as <-.
  assert (Hl : po_sendLock po' = po_sendLock po).
  { unfold PostOffice_Receive in E1. do 2 apply bind_Ok_inv in E1 as (? & _ & E1).
    apply bind_Ok_inv in E1 as ([[[[? ?] ?] ?]|] & _ & E1); [apply bind_Ok_inv in E1 as (? & _ & E1)|]; by injection E1 as _ <-. }
  destruct got as [[[pk mh] data]|].
  - split; [rewrite <-(app_nil_r (w_sent w)) in Hw' |- *; apply frame_office; [done|apply frame_dom|done]|].
    assert (exists sock, w_sockets w !! a = Some sock) as [sock Hsk].
    { apply elem_of_dom. rewrite <-(wo_dom _ Hw). apply frame_dom. }
    rewrite (wo_fifo _ Hw a b po sock Hpo Hsk Hb), Hgot. by eexists.
  - rewrite <-(app_nil_r (w_sent w)), <-(app_nil_r (w_received w)) in Hw' |- *.
    split; [apply frame_office; [done|apply frame_dom|done]|]. apply Hgot.
Qed.
End Frames.

Lemma world_halt a w : world_ok w -> world_ok (mt_halt a w).
Proof.
  intros [Hd Ho Hs Hf]. constructor; cbn.
  - by rewrite !dom_delete_L, Hd.
  - intros d po [_ H]%lookup_delete_Some. eauto.
  - intros d q [_ H]%lookup_delete_Some. eauto.
  - intros d b po q [_ H1]%lookup_delete_Some [_ H2]%lookup_delete_Some. eauto.
Qed.

Lemma mt_inv_net a w w' pcs po :
  mt_inv (mkMT w pcs) -> w_offices w !! a = Some po -> mt_frame a w w' [] [] (po_sendLock po) -> mt_inv (mkMT w' pcs).
Proof.
  intros [Hw Hal Hlk Hlog] Hpo (Hw' & Hs & Hr & Hdom & (po' & Hpo' & Hl) & Hoth). cbn in *. constructor; cbn.
  - done.
  - intros d. by rewrite Hdom.
  - intros d p Hp. destruct (decide (d = a)) as [->|Hne]; [|apply Hlk; by rewrite <-Hoth].
    rewrite Hpo' in Hp. injection Hp as <-. rewrite Hl. by apply Hlk.
  - by rewrite Hs, Hr, !app_nil_r.
Qed.

Lemma mt_inv_halt a w w' pcs r lock :
  mt_inv (mkMT w pcs) -> a ∈ addrs -> pcs !!! a = RecvAck -> mt_frame a w w' [] r lock -> advance a pcs RecvAck Halted [] r ->
  mt_inv (mkMT (mt_halt a w') (<[a := Halted]> pcs)).
Proof.
  intros [Hw Hal Hlk Hlog] Ha Hk (Hw' & Hs & Hr & Hdom & _ & Hoth) Hadv. cbn in *. constructor; cbn.
  - by apply world_halt.
  - intros d. rewrite dom_delete_L, Hdom, elem_of_difference, elem_of_singleton, Hal.
    destruct (decide (d = a)) as [->|Hne]; [rewrite lookup_total_insert_eq|rewrite lookup_total_insert_ne by done]; naive_solver.
  - intros d p [Hne Hp]%lookup_delete_Some. rewrite lookup_total_insert_ne by done. apply Hlk. by rewrite <-Hoth.
  - rewrite Hs, Hr. by apply (logs_advance a RecvAck).
Qed.

(** *** The steps of the test *)

Section Steps.
Context (w : World) (pcs : gmap Z mt_pc) (a : Z) (po : PostOffice).
Context (Hinv : mt_inv (mkMT w pcs)) (Hpo : w_offices w !! a = Some po).

Lemma st_in : a ∈ addrs /\ pcs !!! a <> Halted.
Proof. apply (i_alive _ Hinv a). cbn. apply elem_of_dom. eauto. Qed.

Lemma st_int d : d ∈ dom (w_offices w) -> in_i32 d.
Proof. intros Hd. by apply Hint, (i_alive _ Hinv d). Qed.

Lemma st_lock : po_sendLock po = in_send (pcs !!! a).
Proof. by apply (i_lock _ Hinv). Qed.

(** Nobody sends to a machine that has left. *)
Lemma st_far : pcs !!! a = SendHello -> far a ∈ dom (w_offices w).
Proof.
  intros Hk. destruct st_in as [Ha _]. destruct (Hfar a Ha) as [Hf Hp]. apply (i_alive _ Hinv (far a)). split; [done|]. cbn. intros E.
  pose proof (l_order _ _ _ (i_logs _ Hinv) (far a) Hf) as Ho. cbn in Ho. rewrite E, Hp, Hk in Ho. by discriminate Ho.
Qed.

Lemma st_prev from box : pcs !!! a = SendAck from box -> from = prev a /\ box = 1 /\ prev a ∈ dom (w_offices w).
Proof.
  intros Hk. destruct st_in as [Ha _]. destruct (Hprev a Ha) as [Hp Hf].
  destruct (l_reply _ _ _ (i_logs _ Hinv) a from box Ha Hk) as [-> ->]. split_and!; [done..|].
  apply (i_alive _ Hinv (prev a)). split; [done|]. cbn. intros E.
  pose proof (l_order' _ _ _ (i_logs _ Hinv) (prev a) Hp) as Ho. cbn in Ho. rewrite E, Hf, Hk in Ho. by discriminate Ho.
Qed.

Lemma step_send heap heap' k k' pk mh data m :
  pcs !!! a = k -> in_send k = false -> k' <> Halted -> in_send k' = true ->
  ph_to pk ∈ dom (w_offices w) -> send_ok pk mh data -> m = mkMsg a (mh_to mh) (mh_from mh) (take (Z.to_nat (mh_length mh)) data) ->
  advance a pcs k k' [(ph_to pk, m)] [] ->
  exists w', mt_send a heap heap' pk mh data k k' w = Ok (k', w') /\ mt_inv (mkMT w' (<[a := k']> pcs)).
Proof.
  intros Hk Hns Hk' Hin Hto Hsend -> Hadv. destruct st_in as [Ha Hh]. unfold mt_send. rewrite Hpo. cbn [deref mbind result_bind].
  assert (Hl : po_sendLock po = false) by (rewrite st_lock; congruence).
  destruct (frame_send w a po (i_world _ Hinv) st_int Hpo heap heap' pk mh data Hto Hsend Hl) as (w' & -> & Hf).
  cbn [mbind result_bind]. rewrite Hl. exists w'. split; [done|]. by apply (mt_inv_step a w w' pcs k k' _ _ _ Hinv Ha Hk) in Hf; [|congruence..].
Qed.

Lemma step_sent k k' :
  pcs !!! a = k -> in_send k = true -> k <> Halted -> k' <> Halted -> in_send k' = false -> advance a pcs k k' [] [] ->
  exists w', mt_sent a k k' w = Ok (if 0 <? po_messageSent po then k' else k, w')
    /\ mt_inv (mkMT w' (<[a := if 0 <? po_messageSent po then k' else k]> pcs)).
Proof.
  intros Hk Hs Hk0 Hk' Hin Hadv. destruct st_in as [Ha Hh]. unfold mt_sent.
  destruct (frame_send_done w a po (i_world _ Hinv) st_int Hpo) as (w' & -> & Hf). cbn [mbind result_bind].
  pose proof Hf as (_ & _ & _ & _ & (po' & Hpo' & Hl) & _). rewrite Hpo'. cbn [deref mbind result_bind].
  assert (Hl0 : po_sendLock po = true) by (rewrite st_lock; congruence). rewrite Hl0 in Hl, Hf. exists w'. rewrite Hl.
  destruct (0 <? po_messageSent po); cbn [negb andb] in *; (split; [done|]);
    (eapply (mt_inv_step a w w' pcs k _ _ _ _ Hinv Ha Hk); [done|done|exact Hf| |congruence]); [done|constructor].
Qed.

Lemma said_cons (b : bool) (m m' : msg) rest : said b m = m' :: rest -> b = true /\ m' = m.
Proof. destruct b; [by intros [= -> _]|done]. Qed.

Lemma step_hello : pcs !!! a = RecvHello ->
  exists k' w', mt_receive a 0 RecvHello (fun pk mh => SendAck (ph_from pk) (mh_from mh)) w = Ok (k', w')
    /\ k' <> Halted /\ mt_inv (mkMT w' (<[a := k']> pcs)) /\ (box_content 0 po <> [] -> rank RecvHello < rank k')%nat.
Proof.
  intros Hk. destruct st_in as [Ha _]. destruct (Hprev a Ha) as [Hp Hf]. unfold mt_receive. rewrite Hpo. cbn [deref mbind result_bind].
  assert (Hl : po_sendLock po = false) by (rewrite st_lock, Hk; done).
  destruct (frame_receive w a po (i_world _ Hinv) st_int Hpo 0) as (got & po' & w' & -> & -> & Hgot); [unfold numBoxes; lia|].
  cbn [mbind result_bind]. rewrite Hl in Hgot. destruct got as [[[pk mh] data]|].
  - destruct Hgot as [Hfr [rest Hrest]]. destruct (i_logs _ Hinv) as [H1 _ H3 _ _ _ _]. cbn in H1, H3.
    rewrite (H3 a Ha), Hk in Hrest. specialize (H1 (prev a) Hp). rewrite Hf, Hrest in H1. symmetry in H1.
    apply said_cons in H1 as [Hs [= E1 E2 E3]]. rewrite E1, E2, E3 in Hfr. rewrite E1, E2.
    eexists _, w'. split; [done|]. split; [done|]. split; [|cbn; lia].
    eapply (mt_inv_step a w w' pcs RecvHello _ _ _ _ Hinv Ha Hk); [done|done|exact Hfr|by apply AdvGot|done].
  - destruct Hgot as [Hfr Hbox]. eexists _, w'. split; [done|]. split; [done|]. split; [|done].
    eapply (mt_inv_step a w w' pcs RecvHello _ _ _ _ Hinv Ha Hk); [done|done|exact Hfr|by apply AdvStay|done].
Qed.

Lemma step_acked : pcs !!! a = RecvAck ->
  exists k' w', mt_receive a 1 RecvAck (fun _ _ => Halted) w = Ok (k', w')
    /\ mt_inv (mkMT (if decide (k' = Halted) then mt_halt a w' else w') (<[a := k']> pcs))
    /\ (box_content 1 po <> [] -> k' = Halted).
Proof.
  intros Hk. destruct st_in as [Ha _]. destruct (Hfar a Ha) as [Hp Hf]. unfold mt_receive. rewrite Hpo. cbn [deref mbind result_bind].
  assert (Hl : po_sendLock po = false) by (rewrite st_lock, Hk; done).
  destruct (frame_receive w a po (i_world _ Hinv) st_int Hpo 1) as (got & po' & w' & -> & -> & Hgot); [unfold numBoxes; lia|].
  cbn [mbind result_bind]. rewrite Hl in Hgot. destruct got as [[[pk mh] data]|].
  - destruct Hgot as [Hfr [rest Hrest]]. destruct (i_logs _ Hinv) as [_ H2 _ H4 _ _ _]. cbn in H2, H4.
    rewrite (H4 a Ha), Hk in Hrest. specialize (H2 (far a) Hp). rewrite Hf, Hrest in H2. symmetry in H2.
    apply said_cons in H2 as [Hs E]. rewrite E in Hfr.
    eexists _, w'. split; [done|]. rewrite decide_True by done. split; [|done].
    eapply (mt_inv_halt a w w' pcs _ _ Hinv Ha Hk Hfr). by apply AdvDone.
  - destruct Hgot as [Hfr Hbox]. eexists _, w'. split; [done|]. rewrite decide_False by done. split; [|done].
    eapply (mt_inv_step a w w' pcs RecvAck _ _ _ _ Hinv Ha Hk); [done|done|exact Hfr|by apply AdvStay|done].
Qed.

(** Whether the test of [a] can go on. *)
Definition ready (k : mt_pc) : Prop :=
  match k with
  | SendHello | SendAck _ _ => True
  | WaitHello | WaitAck => 0 < po_messageSent po
  | RecvHello => box_content 0 po <> []
  | RecvAck => box_content 1 po <> []
  | Halted => False
  end.

Lemma test_ok heap heap' junk :
  exists st', mt_step far (MTest a heap heap' junk) (mkMT w pcs) = Ok st' /\ mt_inv st'
    /\ (exists k', mt_pcs st' = <[a := k']> pcs /\ (ready (pcs !!! a) -> rank (pcs !!! a) < rank k')%nat).
Proof.
  destruct st_in as [Ha Hh]. unfold mt_step. cbv zeta. cbn [mt_machine mt_world mt_pcs]. rewrite Hpo.
  assert (Hgo : forall k' w', mt_inv (mkMT w' (<[a := k']> pcs)) -> k' <> Halted ->
    exists st', ('(k, w) ← Ok (k', w'); Ok (mkMT (if decide (k = Halted) then mt_halt a w else w) (<[a := k]> pcs))) = Ok st'
      /\ mt_inv st' /\ mt_pcs st' = <[a := k']> pcs).
  { intros k' w' Hi Hn. cbn [mbind result_bind]. rewrite decide_False by done. by eexists. }
  destruct (pcs !!! a) as [| | |from box| | |] eqn:Hk; cbn [MailTest ready];
    change (Z.of_nat (length mt_data)) with 13; change (Z.of_nat (length mt_ack)) with 8.
  - destruct (step_send heap heap' SendHello WaitHello (mkPkt (far a) (ph_from junk) (ph_length junk)) (mkMailH 0 1 13) mt_data (hello a))
      as (w' & -> & Hi); try done; [by apply st_far| |by apply AdvHello|].
    { split; [apply Hint, Hfar, Ha|]. unfold mailheader_ok, in_i32, numBoxes, MaxMailSize, MaxPacketSize, MaxWireSize, header_size; cbn; lia. }
    destruct (Hgo _ _ Hi) as (st' & -> & ? & ?); [done|]. exists st'. split_and!; [done..|]. eexists. split; [done|]. cbn. lia.
  - destruct (step_sent WaitHello RecvHello Hk) as (w' & -> & Hi); try done; [by apply AdvSent|].
    destruct (Hgo _ _ Hi) as (st' & -> & ? & ?); [by case_match|]. exists st'. split_and!; [done..|]. eexists. split; [done|].
    intros Hm. rewrite (proj2 (Z.ltb_lt _ _) Hm). cbn. lia.
  - destruct (step_hello Hk) as (k' & w' & -> & Hn & Hi & Hm). destruct (Hgo _ _ Hi) as (st' & -> & ? & ?); [done|]. exists st'. eauto 10.
  - destruct (st_prev from box Hk) as (-> & -> & Hto).
    destruct (step_send heap heap' (SendAck (prev a) 1) WaitAck (mkPkt (prev a) (ph_from junk) (ph_length junk)) (mkMailH 1 1 8) mt_ack (thanks a))
      as (w' & -> & Hi); try done; [|by apply AdvAck|].
    { split; [by apply st_int|]. unfold mailheader_ok, in_i32, numBoxes, MaxMailSize, MaxPacketSize, MaxWireSize, header_size; cbn; lia. }
    destruct (Hgo _ _ Hi) as (st' & -> & ? & ?); [done|]. exists st'. split_and!; [done..|]. eexists. split; [done|]. cbn. lia.
  - destruct (step_sent WaitAck RecvAck Hk) as (w' & -> & Hi); try done; [by apply AdvAcked|].
    destruct (Hgo _ _ Hi) as (st' & -> & ? & ?); [by case_match|]. exists st'. split_and!; [done..|]. eexists. split; [done|].
    intros Hm. rewrite (proj2 (Z.ltb_lt _ _) Hm). cbn. lia.
  - destruct (step_acked Hk) as (k' & w' & -> & Hi & Hm). cbn [mbind result_bind]. eexists. split; [done|]. split; [done|].
    eexists. split; [done|]. intros Hb. rewrite (Hm Hb). cbn. lia.
  - done.
Qed.
End Steps.

(** *** Runs *)

Lemma net_step_ok e st po :
  mt_inv st -> w_offices (mt_world st) !! mt_machine e = Some po -> match e with MTest _ _ _ _ => False | _ => True end ->
  exists w', mt_step far e st = Ok (mkMT w' (mt_pcs st)) /\ mt_inv (mkMT w' (mt_pcs st)).
Proof.
  destruct st as [w pcs]. intros Hinv Hpo He. cbn [mt_world mt_pcs] in *. pose proof (i_world _ Hinv) as Hw. cbn in Hw.
  pose proof (st_int w pcs Hinv) as Hi. unfold mt_step. cbv zeta. cbn [mt_world mt_pcs]. rewrite Hpo.
  destruct e as [a|a|a heap|]; cbn [mt_machine] in *; [| | |done].
  - destruct (frame_packet_sent w a po Hw Hi Hpo) as (w' & -> & Hf). exists w'. split; [done|]. by apply (mt_inv_net a w w' pcs po).
  - destruct (frame_poll w a po Hw Hi Hpo) as (w' & -> & Hf). exists w'. split; [done|]. by apply (mt_inv_net a w w' pcs po).
  - destruct (frame_deliver w a po Hw Hi Hpo heap) as (w' & -> & Hf). exists w'. split; [done|]. by apply (mt_inv_net a w w' pcs po).
Qed.

Lemma mt_step_ok e st : mt_inv st -> exists st', mt_step far e st = Ok st' /\ mt_inv st'.
Proof.
  intros Hinv. destruct (w_offices (mt_world st) !! mt_machine e) as [po|] eqn:Hpo.
  2:{ exists st. split; [|done]. unfold mt_step. cbv zeta. by rewrite Hpo. }
  destruct e as [a|a|a heap|a heap heap' junk];
    try (edestruct (net_step_ok _ st po Hinv Hpo I) as (w' & -> & ?); by eexists).
  destruct st as [w pcs]. destruct (test_ok w pcs a po Hinv Hpo heap heap' junk) as (st' & -> & ? & _). eauto.
Qed.

Lemma mt_run_ok es st : mt_inv st -> exists st', mt_run far es st = Ok st' /\ mt_inv st'.
Proof.
  revert st. induction es as [|e es IH]; intros st Hinv; [by exists st|]. unfold mt_run. cbn [result_fold].
  destruct (mt_step_ok e st Hinv) as (st1 & -> & H1). cbn [mbind result_bind]. by apply IH.
Qed.

Lemma mt_run_app es es' st st1 : mt_run far es st = Ok st1 -> mt_run far (es ++ es') st = mt_run far es' st1.
Proof. unfold mt_run. intros H. by rewrite result_fold_app, H. Qed.

(** The devices of one machine at work, as in [drain] of [Mail.v]. *)
Definition mt_of (e : event) : option mt_event :=
  match e with EPoll a => Some (MPoll a) | EDeliver a heap => Some (MDeliver a heap) | _ => None end.

Lemma mt_run_net a es pcs : Forall (fun e => e = EPoll a \/ exists heap, e = EDeliver a heap) es ->
  forall w w', mt_inv (mkMT w pcs) -> a ∈ dom (w_offices w) -> wrun es w = Ok w' -> mt_run far (omap mt_of es) (mkMT w pcs) = Ok (mkMT w' pcs).
Proof.
  induction 1 as [|e es He _ IH]; intros w w' Hinv Ha.
  { by intros [= ->]. }
  unfold wrun, mt_run in *. cbn [result_fold]. intros E. apply bind_Ok_inv in E as (w1 & E1 & E).
  pose proof Ha as [po Hpo]%elem_of_dom.
  assert (Hstep : exists e', mt_of e = Some e' /\ mt_machine e' = a /\ match e' with MTest _ _ _ _ => False | _ => True end
                             /\ mt_step far e' (mkMT w pcs) = Ok (mkMT w1 pcs)).
  { destruct He as [->|[heap ->]]; eexists; (split; [done|]); (split; [done|]); (split; [done|]);
      unfold mt_step; cbv zeta; cbn [mt_machine mt_world mt_pcs]; rewrite Hpo, E1; done. }
  destruct Hstep as (e' & He' & Hm & Hnt & Hs). cbn [omap list_omap]. rewrite He'. cbn [result_fold]. rewrite Hs. cbn [mbind result_bind].
  destruct (net_step_ok e' (mkMT w pcs) po Hinv) as (w2 & E2 & H2); [by rewrite Hm|done|].
  rewrite Hs in E2. injection E2 as <-. apply IH; [done| |done].
  apply (i_alive _ H2 a). by apply (i_alive _ Hinv a).
Qed.

Lemma drained a w pcs po : mt_inv (mkMT w pcs) -> w_offices w !! a = Some po ->
  exists es w' po', mt_run far es (mkMT w pcs) = Ok (mkMT w' pcs) /\ mt_inv (mkMT w' pcs) /\ w_offices w' !! a = Some po'
    /\ forall b, 0 <= b < numBoxes -> for_box a b (w_sent w) = for_box a b (w_received w) ++ box_content b po'.
Proof.
  intros Hinv Hpo. pose proof (i_world _ Hinv) as Hw. cbn in Hw.
  assert (exists sock, w_sockets w !! a = Some sock) as [sock Hsk].
  { apply elem_of_dom. rewrite <-(wo_dom _ Hw). apply elem_of_dom. eauto. }
  destruct (drain_ok a w po sock Hw Hpo Hsk) as (w' & po' & Hr & _ & _ & Hpo' & Hf).
  assert (Hrun : mt_run far (omap mt_of (drain a (length sock))) (mkMT w pcs) = Ok (mkMT w' pcs)).
  { apply (mt_run_net a); [|done|apply elem_of_dom; eauto|done]. unfold drain. constructor; [right; eauto|].
    clear. induction (length sock) as [|n IH]; [constructor|]. constructor; [by left|]. constructor; [right; eauto|done]. }
  destruct (mt_run_ok (omap mt_of (drain a (length sock))) _ Hinv) as (st' & E & Hinv'). rewrite Hrun in E. injection E as <-.
  by exists (omap mt_of (drain a (length sock))), w', po'.
Qed.

(** The devices make the test of [a] ready, once what it waits for has been sent. *)
Lemma get_ready a w pcs : mt_inv (mkMT w pcs) -> a ∈ addrs -> pcs !!! a <> Halted ->
  (pcs !!! a = RecvHello -> hello_sent (pcs !!! prev a) = true) -> (pcs !!! a = RecvAck -> ack_sent (pcs !!! far a) = true) ->
  exists es w' po, mt_run far es (mkMT w pcs) = Ok (mkMT w' pcs) /\ mt_inv (mkMT w' pcs) /\ w_offices w' !! a = Some po
    /\ ready po (pcs !!! a).
Proof.
  intros Hinv Ha Hh Hr0 Hr1. pose proof (i_world _ Hinv) as Hw. cbn in Hw.
  assert (a ∈ dom (w_offices w)) as [po Hpo]%elem_of_dom by by apply (i_alive _ Hinv a).
  pose proof (st_lock w pcs a po Hinv Hpo) as Hl.
  assert (Hwait : in_send (pcs !!! a) = true -> exists w' po', mt_run far [MPacketSent a] (mkMT w pcs) = Ok (mkMT w' pcs)
            /\ mt_inv (mkMT w' pcs) /\ w_offices w' !! a = Some po' /\ 0 < po_messageSent po').
  { intros Hin. destruct (net_step_ok (MPacketSent a) (mkMT w pcs) po Hinv Hpo I) as (w' & E & Hinv').
    exists w', (PostOffice_PacketSent po). unfold mt_run. cbn [result_fold]. split; [by rewrite E|]. split; [done|].
    unfold mt_step in E. cbv zeta in E. cbn [mt_machine mt_world mt_pcs wstep] in E. rewrite Hpo in E. injection E as <-. cbn.
    rewrite lookup_insert_eq. split; [done|]. destruct (o_send _ _ (wo_office _ Hw _ _ Hpo)) as (H1 & H2 & H3). rewrite Hl, Hin in H3.
    unfold PostOffice_PacketSent. destruct (Z.ltb_spec 0 (po_sendDone po)); cbn; lia. }
  destruct (i_logs _ Hinv) as [L1 L2 L3 L4 _ _ _]. cbn in L1, L2, L3, L4. destruct (Hprev a Ha) as [Hp Ep]. destruct (Hfar a Ha) as [Hf Ef].
  destruct (pcs !!! a) as [| | |from box| | |] eqn:Hk; cbn [ready].
  - by exists [], w, po.
  - destruct Hwait as (w' & po' & ?); [done|]. by exists [MPacketSent a], w', po'.
  - destruct (drained a w pcs po Hinv Hpo) as (es & w' & po' & Hrun & Hi' & Hpo' & Hbox). exists es, w', po'. split_and!; [done..|].
    specialize (L1 (prev a) Hp). rewrite Ep, (Hr0 eq_refl) in L1. specialize (Hbox 0 ltac:(unfold numBoxes; lia)).
    rewrite L1, (L3 a Ha), Hk in Hbox. cbn in Hbox. by rewrite <-Hbox.
  - by exists [], w, po.
  - destruct Hwait as (w' & po' & ?); [done|]. by exists [MPacketSent a], w', po'.
  - destruct (drained a w pcs po Hinv Hpo) as (es & w' & po' & Hrun & Hi' & Hpo' & Hbox). exists es, w', po'. split_and!; [done..|].
    specialize (L2 (far a) Hf). rewrite Ef, (Hr1 eq_refl) in L2. specialize (Hbox 1 ltac:(unfold numBoxes; lia)).
    rewrite L2, (L4 a Ha), Hk in Hbox. cbn in Hbox. by rewrite <-Hbox.
  - done.
Qed.

(** Somebody can go on as long as not all have halted: the one that has come the least far. *)
Lemma least_far (pcs : gmap Z mt_pc) : (exists a, a ∈ addrs /\ pcs !!! a <> Halted) ->
  exists a, a ∈ addrs /\ pcs !!! a <> Halted
    /\ (pcs !!! a = RecvHello -> hello_sent (pcs !!! prev a) = true) /\ (pcs !!! a = RecvAck -> ack_sent (pcs !!! far a) = true).
Proof.
  intros (a & Ha & Hn).
  assert (Hmin : forall n, (exists b, b ∈ addrs /\ pcs !!! b <> Halted /\ rank (pcs !!! b) <= n)%nat ->
    exists b, b ∈ addrs /\ pcs !!! b <> Halted /\ forall c, c ∈ addrs -> pcs !!! c <> Halted -> (rank (pcs !!! b) <= rank (pcs !!! c))%nat).
  { induction n as [|n IH]; intros (b & Hb & Hbn & Hr); [exists b; split_and!; [done..|intros; lia]|].
    destruct (decide (set_Exists (fun c => pcs !!! c <> Halted /\ rank (pcs !!! c) <= n)%nat addrs)) as [(c & Hc & ? & ?)|Hno]; [by apply IH; exists c|].
    exists b. split_and!; [done..|]. intros c Hc Hcn. destruct (decide (rank (pcs !!! c) <= n)%nat) as [?|?]; [|lia].
    destruct Hno. by exists c. }
  destruct (Hmin (rank (pcs !!! a))) as (b & Hb & Hbn & Hle); [by exists a|]. exists b. split_and!; [done..| |].
  - intros E. specialize (Hle (prev b) (proj1 (Hprev b Hb))). rewrite E in Hle.
    destruct (pcs !!! prev b); try done. cbn in Hle. specialize (Hle ltac:(done)). lia.
  - intros E. specialize (Hle (far b) (proj1 (Hfar b Hb))). rewrite E in Hle.
    destruct (pcs !!! far b); try done; cbn in Hle; specialize (Hle ltac:(done)); lia.
Qed.

Definition todo (pcs : gmap Z mt_pc) : nat := sum_list_with (fun a => 6 - rank (pcs !!! a))%nat (elements addrs).

Lemma rank_le k : (rank k <= 6)%nat.
Proof. destruct k; cbn; lia. Qed.

Lemma todo_insert (pcs : gmap Z mt_pc) a k : a ∈ addrs -> (rank (pcs !!! a) < rank k)%nat -> (todo (<[a := k]> pcs) < todo pcs)%nat.
Proof.
  intros Ha Hr. unfold todo. apply elem_of_elements in Ha. pose proof (NoDup_elements addrs) as Hnd.
  apply list_elem_of_split in Ha as (l1 & l2 & E). rewrite E in Hnd |- *. apply NoDup_app in Hnd as (_ & H1 & [H2 _]%NoDup_cons).
  assert (Hsame : forall l, a ∉ l -> sum_list_with (fun a0 => 6 - rank (<[a := k]> pcs !!! a0))%nat l = sum_list_with (fun a0 => 6 - rank (pcs !!! a0))%nat l).
  { induction l as [|x l IH]; intros Hn; [done|]. apply not_elem_of_cons in Hn as [Hx Hn]. cbn. rewrite IH by done.
    by rewrite lookup_total_insert_ne. }
  rewrite !sum_list_with_app. cbn. rewrite !Hsame, lookup_total_insert_eq; [pose proof (rank_le k); lia|done|].
  intros Hin. apply (H1 a Hin). left.
Qed.

Lemma completes n st : (todo (mt_pcs st) < n)%nat -> mt_inv st ->
  exists es st', mt_run far es st = Ok st' /\ forall a, a ∈ addrs -> mt_pcs st' !!! a = Halted.
Proof.
  revert st. induction n as [|n IH]; intros [w pcs] Hn Hinv; [lia|]. cbn [mt_pcs] in *.
  destruct (decide (set_Exists (fun a => pcs !!! a <> Halted) addrs)) as [Hex|Hno].
  2:{ exists [], (mkMT w pcs). split; [done|]. intros a Ha. cbn. destruct (decide (pcs !!! a = Halted)) as [|Hk]; [done|].
      destruct Hno. by exists a. }
  destruct (least_far pcs Hex) as (a & Ha & Hk & Hr0 & Hr1).
  destruct (get_ready a w pcs Hinv Ha Hk Hr0 Hr1) as (es & w1 & po & Hrun & Hinv1 & Hpo & Hready).
  destruct (test_ok w1 pcs a po Hinv1 Hpo [] [] (mkPkt 0 0 0)) as (st2 & Hstep & Hinv2 & k' & Hpcs & Hrank).
  destruct (IH st2) as (es' & st' & Hrun' & Hend); [|done|].
  { rewrite Hpcs. pose proof (todo_insert pcs a k' Ha (Hrank Hready)). lia. }
  exists (es ++ MTest a [] [] (mkPkt 0 0 0) :: es'), st'. split; [|done].
  rewrite (mt_run_app _ _ _ _ Hrun). unfold mt_run in *. cbn [result_fold]. by rewrite Hstep.
Qed.

Lemma start_inv w : world_initial w -> dom (w_offices w) = addrs -> mt_inv (mt_start addrs w).
Proof.
  intros Hi Hd. assert (Hpc : forall a, mt_pcs (mt_start addrs w) !!! a = SendHello).
  { intros a. unfold mt_start. cbn. rewrite lookup_total_alt, lookup_gset_to_gmap. by case_guard. }
  destruct (wi_logs _ Hi) as [Hs Hr]. constructor.
  - by apply world_initial_ok.
  - intros a. rewrite Hpc. cbn. rewrite Hd. naive_solver.
  - intros a po Hpo. rewrite Hpc. by destruct (wi_office _ Hi a po Hpo) as (inbox & buffer & garbage & -> & _).
  - unfold mt_start at 2 3. cbn. rewrite Hs, Hr. constructor; intros; rewrite ?Hpc in *; done.
Qed.
End Test.

(** C22.  The mail test on any set of machines, each with a partner it sends to ([far]) and one it
    hears from ([prev]): whatever the order of the tests, the device interrupts and the
    postal workers, no assertion fails and no message is sent to a machine that has already
    halted; each test receives, in its mailbox 0, one greeting from the machine that
    has it as partner and, in mailbox 1, one acknowledgement from its own partner, in this
    order and nothing else; and from every state that is reached all tests can still be brought
    to their end. *)
Theorem MailTest_completes (addrs : gset Z) (far prev : Z -> Z) (w : World) (es : list mt_event) :
  (forall a, a ∈ addrs -> in_i32 a) -> (forall a, a ∈ addrs -> far a ∈ addrs /\ prev (far a) = a) ->
  (forall a, a ∈ addrs -> prev a ∈ addrs /\ far (prev a) = a) ->
  world_initial w -> dom (w_offices w) = addrs ->
  exists st, mt_run far es (mt_start addrs w) = Ok st
    /\ (forall a, a ∈ addrs ->
          for_box a 0 (w_received (mt_world st)) = said (hello_got (mt_pcs st !!! a)) (hello (prev a))
          /\ for_box a 1 (w_received (mt_world st)) = said (ack_got (mt_pcs st !!! a)) (thanks (far a)))
    /\ exists es' st', mt_run far es' st = Ok st' /\ forall a, a ∈ addrs -> mt_pcs st' !!! a = Halted.
Proof.
  intros Hint Hfar Hprev Hi Hd. assert (H0 : mt_inv addrs far prev (mt_start addrs w)) by by apply start_inv.
  destruct (mt_run_ok addrs far prev Hint Hfar Hprev es _ H0) as (st & Hrun & Hinv). exists st. split; [done|]. split.
  - intros a Ha. split; [by apply (l_got _ _ _ _ _ _ (i_logs _ _ _ _ Hinv))|by apply (l_acked _ _ _ _ _ _ (i_logs _ _ _ _ Hinv))].
  - by apply (completes addrs far prev Hint Hfar Hprev (S (todo addrs (mt_pcs st)))); [lia|].
Qed.

(** Machines 0 and 1, each the partner of the other. *)
Lemma MailTest_completes_witness :
  exists st, mt_run (fun a => 1 - a) [MTest 0 [] [] (mkPkt 0 0 0); MPacketSent 0; MTest 0 [] [] (mkPkt 0 0 0)] (mt_start (dom (w_offices two_machines)) two_machines) = Ok st
    /\ (forall a, a ∈ dom (w_offices two_machines) ->
          for_box a 0 (w_received (mt_world st)) = said (hello_got (mt_pcs st !!! a)) (hello (1 - a))
          /\ for_box a 1 (w_received (mt_world st)) = said (ack_got (mt_pcs st !!! a)) (thanks (1 - a)))
    /\ exists es' st', mt_run (fun a => 1 - a) es' st = Ok st' /\ forall a, a ∈ dom (w_offices two_machines) -> mt_pcs st' !!! a = Halted.
Proof.
  apply (MailTest_completes (dom (w_offices two_machines)) (fun a => 1 - a) (fun a => 1 - a) two_machines); try done.
  - intros a [->| ->]%two_machines_dom; unfold in_i32; lia.
  - intros a [->| ->]%two_machines_dom; rewrite two_machines_dom; lia.
  - intros a [->| ->]%two_machines_dom; rewrite two_machines_dom; lia.
  - apply two_machines_initial.
Defined.
