(* ===== verification/Elevator.v ===== *)
(** * machine/elevator.cc and elevator.h: the elevator bank

    A bank of elevators: the state of each elevator, the two queues of pending events, and
    the operations of riders and controllers.  The clock [stats->totalTicks] is the field
    [eb_ticks], the interrupts requested with [interrupt->Schedule] are the list
    [eb_pending] of their times; lists are the sequences of [SList.v]. *)

From S2P Require Import Prelude SList ListHeap.

Inductive Direction := Down | Up | Neither.
#[global] Instance Direction_eq_dec : EqDecision Direction.
Proof. solve_decision. Defined.

Inductive ElevatorEvent :=
  | NoEvent | DoorsOpened | UpButtonPressed | DownButtonPressed | FloorButtonPressed | ElevatorArrived.
#[global] Instance ElevatorEvent_eq_dec : EqDecision ElevatorEvent.
Proof. solve_decision. Defined.

Definition MaxRiders : Z := 4.
Definition DelayPerFloor : Z := 100.

Record PendingElevatorEvent := mkPEE { pe_event : ElevatorEvent; pe_floor : Z; pe_elevator : Z }.

Record ElevatorInfo := mkElevator {
  ei_display : Direction;
  ei_doorsOpen : bool;
  ei_inMotion : bool;
  ei_lastFloor : Z;
  ei_willArrive : Z;
  ei_goingTo : Z;
  ei_riders : list (Z * Z)             (* key, thread *)
}.

Definition ElevatorInfo_new : ElevatorInfo := mkElevator Neither false false 0 0 0 [].

Definition ElevatorInfo_OpenDoors (e : ElevatorInfo) : result (Z * ElevatorInfo) :=
  _ ← ASSERT (negb (ei_doorsOpen e) && negb (ei_inMotion e));
  Ok (ei_lastFloor e,
      mkElevator (ei_display e) true (ei_inMotion e) (ei_lastFloor e) (ei_willArrive e) (ei_goingTo e) (ei_riders e)).

Definition ElevatorInfo_CloseDoors (e : ElevatorInfo) : result ElevatorInfo :=
  _ ← ASSERT (ei_doorsOpen e);
  Ok (mkElevator (ei_display e) false (ei_inMotion e) (ei_lastFloor e) (ei_willArrive e) (ei_goingTo e) (ei_riders e)).

Definition ElevatorInfo_MoveTo (ticks goingToFloor : Z) (e : ElevatorInfo) : result (bool * ElevatorInfo) :=
  _ ← ASSERT (negb (ei_doorsOpen e) && (ei_inMotion e || negb (ei_lastFloor e =? goingToFloor)));
  if negb (ei_inMotion e) then
    Ok (true, mkElevator (ei_display e) (ei_doorsOpen e) true (ei_lastFloor e) (i32 (ticks + DelayPerFloor)) goingToFloor (ei_riders e))
  else
    Ok (false, mkElevator (ei_display e) (ei_doorsOpen e) true (ei_lastFloor e) (ei_willArrive e) goingToFloor (ei_riders e)).

Definition ElevatorInfo_Enter (thread onFloor : Z) (e : ElevatorInfo) : result (bool * ElevatorInfo) :=
  if negb (ei_doorsOpen e) || negb (ei_lastFloor e =? onFloor) then Ok (false, e)
  else
    _ ← ASSERT (negb (ei_inMotion e));
    _ ← ASSERT (Z.of_nat (length (ei_riders e)) <? MaxRiders);
    Ok (true, mkElevator (ei_display e) (ei_doorsOpen e) (ei_inMotion e) (ei_lastFloor e) (ei_willArrive e) (ei_goingTo e)
                (sl_Append thread (ei_riders e))).

(** [riders->Remove(currentThread)], as [ListHeap.v] shows it to behave. *)
Definition ElevatorInfo_Exit (thread onFloor : Z) (e : ElevatorInfo) : result (bool * ElevatorInfo) :=
  if negb (ei_doorsOpen e) || negb (ei_lastFloor e =? onFloor) then Ok (false, e)
  else
    _ ← ASSERT (negb (ei_inMotion e));
    '(_, riders) ← list_spec (CallRemoveItem thread) (ei_riders e);
    Ok (true, mkElevator (ei_display e) (ei_doorsOpen e) (ei_inMotion e) (ei_lastFloor e) (ei_willArrive e) (ei_goingTo e) riders).

Definition ElevatorInfo_ReachedNextFloor (ticks : Z) (e : ElevatorInfo) : bool * ElevatorInfo :=
  if ei_inMotion e && (ei_willArrive e <=? ticks) then
    (true, mkElevator (ei_display e) (ei_doorsOpen e) (ei_inMotion e)
             (i32 (ei_lastFloor e + (if ei_lastFloor e <? ei_goingTo e then 1 else -1)))
             (ei_willArrive e) (ei_goingTo e) (ei_riders e))
  else (false, e).

Definition ElevatorInfo_CheckArrived (e : ElevatorInfo) : bool * ElevatorInfo :=
  if ei_inMotion e && (ei_lastFloor e =? ei_goingTo e) then
    (true, mkElevator (ei_display e) (ei_doorsOpen e) false (ei_lastFloor e) (ei_willArrive e) (ei_goingTo e) (ei_riders e))
  else (false, e).

(** ** The bank *)

Record ElevatorBank := mkBank {
  eb_numElevators : Z;
  eb_numFloors : Z;
  eb_riderEvents : list (Z * PendingElevatorEvent);
  eb_controllerEvents : list (Z * PendingElevatorEvent);
  eb_elevators : list ElevatorInfo;
  eb_pending : list Z;                 (* times of the interrupts to come *)
  eb_ticks : Z
}.

Definition eb_set_elevator (i : Z) (e : ElevatorInfo) (b : ElevatorBank) : ElevatorBank :=
  mkBank (eb_numElevators b) (eb_numFloors b) (eb_riderEvents b) (eb_controllerEvents b)
    (<[Z.to_nat i := e]> (eb_elevators b)) (eb_pending b) (eb_ticks b).

Definition eb_schedule (delay : Z) (b : ElevatorBank) : ElevatorBank :=
  mkBank (eb_numElevators b) (eb_numFloors b) (eb_riderEvents b) (eb_controllerEvents b)
    (eb_elevators b) (eb_pending b ++ [i32 (eb_ticks b + delay)]) (eb_ticks b).

Definition ElevatorBank_new (numElvtr numFlr ticks : Z) : ElevatorBank :=
  mkBank numElvtr numFlr [] [] (replicate (Z.to_nat numElvtr) ElevatorInfo_new) [] ticks.

(** [PostEvent] on the queue of riders or of controllers. *)
Definition ElevatorBank_PostEvent (riders : bool) (ev : ElevatorEvent) (floor elevator : Z) (inHandler : bool)
    (b : ElevatorBank) : ElevatorBank :=
  let event := mkPEE ev floor elevator in
  let b := mkBank (eb_numElevators b) (eb_numFloors b)
             (if riders then sl_Append event (eb_riderEvents b) else eb_riderEvents b)
             (if riders then eb_controllerEvents b else sl_Append event (eb_controllerEvents b))
             (eb_elevators b) (eb_pending b) (eb_ticks b) in
  if inHandler then b else eb_schedule 1 b.

(** [ASSERT(elevator >= 0 && elevator < numElevators)] and [elevators[elevator]]. *)
Definition the_elevator (elevator : Z) (b : ElevatorBank) : result ElevatorInfo :=
  _ ← ASSERT ((0 <=? elevator) && (elevator <? eb_numElevators b));
  deref (eb_elevators b !! Z.to_nat elevator).

Definition valid_floor (floor : Z) (b : ElevatorBank) : bool := (0 <=? floor) && (floor <? eb_numFloors b).

Definition ElevatorBank_OpenDoors (elevator : Z) (b : ElevatorBank) : result ElevatorBank :=
  e ← the_elevator elevator b;
  '(floor, e) ← ElevatorInfo_OpenDoors e;
  Ok (ElevatorBank_PostEvent true DoorsOpened floor elevator false (eb_set_elevator elevator e b)).

Definition ElevatorBank_CloseDoors (elevator : Z) (b : ElevatorBank) : result ElevatorBank :=
  e ← the_elevator elevator b;
  e ← ElevatorInfo_CloseDoors e;
  Ok (eb_set_elevator elevator e b).

Definition ElevatorBank_MoveTo (goingToFloor elevator : Z) (b : ElevatorBank) : result ElevatorBank :=
  e ← the_elevator elevator b;
  _ ← ASSERT (valid_floor goingToFloor b);
  '(started, e) ← ElevatorInfo_MoveTo (eb_ticks b) goingToFloor e;
  let b := eb_set_elevator elevator e b in
  Ok (if (started : bool) then eb_schedule DelayPerFloor b else b).

Definition ElevatorBank_WhereIsElevator (elevator : Z) (b : ElevatorBank) : result Z :=
  e ← the_elevator elevator b; Ok (ei_lastFloor e).

Definition ElevatorBank_MarkDirection (elevator : Z) (dir : Direction) (b : ElevatorBank) : result ElevatorBank :=
  e ← the_elevator elevator b;
  Ok (eb_set_elevator elevator
        (mkElevator dir (ei_doorsOpen e) (ei_inMotion e) (ei_lastFloor e) (ei_willArrive e) (ei_goingTo e) (ei_riders e)) b).

Definition ElevatorBank_PressButton (onFloor : Z) (goingTo : Direction) (b : ElevatorBank) : result ElevatorBank :=
  _ ← ASSERT (valid_floor onFloor b && bool_decide (goingTo <> Neither));
  Ok (ElevatorBank_PostEvent false (if decide (goingTo = Up) then UpButtonPressed else DownButtonPressed) onFloor 0 false b).

Definition ElevatorBank_getDirection (elevator : Z) (b : ElevatorBank) : result Direction :=
  e ← the_elevator elevator b; Ok (ei_display e).

Definition ElevatorBank_EnterElevator (thread onFloor elevator : Z) (b : ElevatorBank) : result (bool * ElevatorBank) :=
  _ ← ASSERT (valid_floor onFloor b);
  e ← the_elevator elevator b;
  '(r, e) ← ElevatorInfo_Enter thread onFloor e;
  Ok (r, eb_set_elevator elevator e b).

Definition ElevatorBank_PressFloor (goingToFloor elevator : Z) (b : ElevatorBank) : result ElevatorBank :=
  _ ← ASSERT (valid_floor goingToFloor b);
  _ ← ASSERT ((0 <=? elevator) && (elevator <? eb_numElevators b));
  Ok (ElevatorBank_PostEvent false FloorButtonPressed goingToFloor elevator false b).

Definition ElevatorBank_ExitElevator (thread onFloor elevator : Z) (b : ElevatorBank) : result (bool * ElevatorBank) :=
  _ ← ASSERT (valid_floor onFloor b);
  e ← the_elevator elevator b;
  '(r, e) ← ElevatorInfo_Exit thread onFloor e;
  Ok (r, eb_set_elevator elevator e b).

(** The loop of [HandleInterrupt]. *)
Fixpoint HandleInterrupt_loop (idxs : list nat) (intSched : bool) (b : ElevatorBank) : result ElevatorBank :=
  match idxs with
  | [] => Ok b
  | i :: idxs =>
      e ← deref (eb_elevators b !! i);
      let '(reached, e) := ElevatorInfo_ReachedNextFloor (eb_ticks b) e in
      if (reached : bool) then
        let '(arrived, e) := ElevatorInfo_CheckArrived e in
        if (arrived : bool) then
          HandleInterrupt_loop idxs intSched
            (ElevatorBank_PostEvent false ElevatorArrived (ei_goingTo e) (Z.of_nat i) true (eb_set_elevator (Z.of_nat i) e b))
        else if negb intSched then
          let e := mkElevator (ei_display e) (ei_doorsOpen e) (ei_inMotion e) (ei_lastFloor e)
                     (i32 (ei_willArrive e + DelayPerFloor)) (ei_goingTo e) (ei_riders e) in
          HandleInterrupt_loop idxs true (eb_schedule DelayPerFloor (eb_set_elevator (Z.of_nat i) e b))
        else HandleInterrupt_loop idxs intSched (eb_set_elevator (Z.of_nat i) e b)
      else HandleInterrupt_loop idxs intSched b
  end.

(** The flags tell whether the handlers of riders and controllers are called. *)
Definition ElevatorBank_HandleInterrupt (b : ElevatorBank) : result (bool * bool * ElevatorBank) :=
  b ← HandleInterrupt_loop (seq 0 (Z.to_nat (eb_numElevators b))) false b;
  Ok (negb (sl_IsEmpty (eb_riderEvents b)), negb (sl_IsEmpty (eb_controllerEvents b)), b).

(** [getNextEvent] on one of the queues. *)
Definition ElevatorBank_getNextEvent (riders : bool) (b : ElevatorBank) : option PendingElevatorEvent * ElevatorBank :=
  match sl_SortedRemove (if riders then eb_riderEvents b else eb_controllerEvents b) with
  | None => (None, b)
  | Some ((_, event), rest) =>
      (Some event, mkBank (eb_numElevators b) (eb_numFloors b) (if riders then rest else eb_riderEvents b)
                     (if riders then eb_controllerEvents b else rest) (eb_elevators b) (eb_pending b) (eb_ticks b))
  end.

(** ** Safety *)

Inductive elevator_op :=
  | OOpenDoors (i : Z) | OCloseDoors (i : Z) | OMoveTo (f i : Z) | OMarkDirection (i : Z) (d : Direction)
  | OPressButton (f : Z) (d : Direction) | OEnter (th f i : Z) | OPressFloor (f i : Z) | OExit (th f i : Z)
  | OInterrupt | OGetNext (riders : bool) | OTick (n : Z).

Definition set_ticks (t : Z) (b : ElevatorBank) : ElevatorBank :=
  mkBank (eb_numElevators b) (eb_numFloors b) (eb_riderEvents b) (eb_controllerEvents b) (eb_elevators b) (eb_pending b) t.

Definition bank_exec (o : elevator_op) (b : ElevatorBank) : result ElevatorBank :=
  match o with
  | OOpenDoors i => ElevatorBank_OpenDoors i b
  | OCloseDoors i => ElevatorBank_CloseDoors i b
  | OMoveTo f i => ElevatorBank_MoveTo f i b
  | OMarkDirection i d => ElevatorBank_MarkDirection i d b
  | OPressButton f d => ElevatorBank_PressButton f d b
  | OEnter th f i => '(_, b) ← ElevatorBank_EnterElevator th f i b; Ok b
  | OPressFloor f i => ElevatorBank_PressFloor f i b
  | OExit th f i => '(_, b) ← ElevatorBank_ExitElevator th f i b; Ok b
  | OInterrupt => '(_, b) ← ElevatorBank_HandleInterrupt b; Ok b
  | OGetNext riders => Ok (ElevatorBank_getNextEvent riders b).2
  | OTick n => Ok (set_ticks n b)
  end.

Record elevator_ok (floors : Z) (e : ElevatorInfo) : Prop := {
  e_moving : ei_inMotion e = true -> ei_doorsOpen e = false /\ ei_lastFloor e <> ei_goingTo e;
  e_floor : 0 <= ei_lastFloor e < floors;
  e_goal : 0 <= ei_goingTo e < floors;
  e_riders : Z.of_nat (length (ei_riders e)) <= MaxRiders
}.

Record bank_ok (b : ElevatorBank) : Prop := {
  b_len : Z.of_nat (length (eb_elevators b)) = eb_numElevators b;
  b_floors : 0 < eb_numFloors b < 2 ^ 31;
  b_all : Forall (elevator_ok (eb_numFloors b)) (eb_elevators b)
}.

(** A moving elevator is not sent back to the floor it passed last. *)
Definition well_directed (o : elevator_op) (b : ElevatorBank) : Prop :=
  match o with
  | OMoveTo f i => forall e, eb_elevators b !! Z.to_nat i = Some e -> ei_inMotion e = true -> f <> ei_lastFloor e
  | _ => True
  end.

(** A thread leaves an elevator that carries nobody. *)
Definition leaves_empty (o : elevator_op) (b : ElevatorBank) : Prop :=
  match o with OExit _ _ i => exists e, eb_elevators b !! Z.to_nat i = Some e /\ ei_riders e = [] | _ => False end.

Definition bwp (o : elevator_op) (b : ElevatorBank) (r : result ElevatorBank) : Prop :=
  match r with
  | Ok b' => bank_ok b' /\ eb_numFloors b' = eb_numFloors b
  | Err e => e = AssertFailed \/ (e = MemFault /\ leaves_empty o b)
  end.

Lemma ASSERT_cases b : (b = true /\ ASSERT b = Ok tt) \/ (b = false /\ ASSERT b = Err AssertFailed).
Proof. destruct b; auto. Qed.

Lemma the_elevator_cases i b : bank_ok b ->
  the_elevator i b = Err AssertFailed \/
  exists e, the_elevator i b = Ok e /\ 0 <= i < eb_numElevators b /\ eb_elevators b !! Z.to_nat i = Some e
    /\ elevator_ok (eb_numFloors b) e.
Proof.
  intros [Hl _ Ha]. unfold the_elevator.
  destruct (ASSERT_cases ((0 <=? i) && (i <? eb_numElevators b))) as [[Hb ->]|[_ ->]]; [right|by left].
  apply andb_true_iff in Hb. destruct (lookup_lt_is_Some_2 (eb_elevators b) (Z.to_nat i)) as [e He]; [lia|].
  exists e. cbn [mbind result_bind]. rewrite He. split; [done|]. split; [lia|]. split; [done|].
  by apply (Forall_lookup_1 _ _ _ _ Ha He).
Qed.

Lemma set_elevator_ok i e b : bank_ok b -> elevator_ok (eb_numFloors b) e -> bank_ok (eb_set_elevator i e b).
Proof. intros [Hl Hf Ha] He. constructor; cbn; [by rewrite length_insert|done|by apply Forall_insert]. Qed.

Lemma schedule_ok d b : bank_ok b -> bank_ok (eb_schedule d b).
Proof. intros [? ? ?]. by constructor. Qed.

Lemma PostEvent_ok r ev f i h b : bank_ok b -> bank_ok (ElevatorBank_PostEvent r ev f i h b).
Proof. intros [? ? ?]. unfold ElevatorBank_PostEvent. destruct h; [by constructor|by apply schedule_ok]. Qed.

Lemma PostEvent_floors r ev f i h b : eb_numFloors (ElevatorBank_PostEvent r ev f i h b) = eb_numFloors b.
Proof. by destruct h. Qed.

(** One floor towards the goal. *)
Lemma towards floors s g : 0 <= s < floors -> 0 <= g < floors -> floors < 2 ^ 31 -> s <> g ->
  i32 (s + (if s <? g then 1 else -1)) = s + (if s <? g then 1 else -1)
  /\ 0 <= s + (if s <? g then 1 else -1) < floors
  /\ Z.abs (g - (s + (if s <? g then 1 else -1))) = Z.abs (g - s) - 1.
Proof. intros. destruct (Z.ltb_spec s g); (split; [apply i32_id; unfold in_i32; lia|lia]). Qed.

Lemma HandleInterrupt_loop_ok idxs : forall s b,
  bank_ok b -> Forall (fun i => i < length (eb_elevators b))%nat idxs ->
  exists b', HandleInterrupt_loop idxs s b = Ok b' /\ bank_ok b' /\ eb_numFloors b' = eb_numFloors b.
Proof.
  induction idxs as [|i idxs IH]; intros s b Hb Hi; [by exists b|]. apply Forall_cons in Hi as [Hi Hidx].
  destruct (lookup_lt_is_Some_2 _ _ Hi) as [e He]. pose proof Hb as [Hl Hf Ha].
  pose proof (Forall_lookup_1 _ _ _ _ Ha He) as Heo. cbn [HandleInterrupt_loop]. rewrite He. cbn [deref mbind result_bind].
  unfold ElevatorInfo_ReachedNextFloor. destruct (ei_inMotion e) eqn:Hmo; cbn [andb]; [|by apply IH].
  destruct (ei_willArrive e <=? eb_ticks b); [|by apply IH].
  destruct Heo as [Hmv Hfl Hgo Hri]. destruct (Hmv Hmo) as [Hdoor Hne].
  destruct (towards (eb_numFloors b) (ei_lastFloor e) (ei_goingTo e)) as (Hi32 & Hr & _); try done; [lia|]. rewrite Hi32.
  set (s' := ei_lastFloor e + _) in *. unfold ElevatorInfo_CheckArrived. cbn [ei_inMotion ei_lastFloor ei_goingTo].
  destruct (Z.eqb_spec s' (ei_goingTo e)) as [Heq|Hneq]; cbn [andb].
  - edestruct (IH s) as (b' & -> & Hb' & Hf'); [apply PostEvent_ok, set_elevator_ok; [done|]|cbn; by rewrite length_insert|].
    + constructor; cbn; done.
    + exists b'. done.
  - destruct s; cbn [negb].
    + edestruct (IH true) as (b' & -> & Hb' & Hf'); [apply set_elevator_ok; [done|]|cbn; by rewrite length_insert|].
      * constructor; cbn; done.
      * exists b'. done.
    + edestruct (IH true) as (b' & -> & Hb' & Hf'); [apply schedule_ok, set_elevator_ok; [done|]|cbn; by rewrite length_insert|].
      * constructor; cbn; done.
      * exists b'. done.
Qed.

Lemma sl_RemoveItem_length th (xs ys : list (Z * Z)) : sl_RemoveItem th xs = Some ys -> (length ys <= length xs)%nat.
Proof. intros H. apply sl_RemoveItem_perm in H as [k H]. apply Permutation_length in H. cbn in H. lia. Qed.

(** Case analysis on the next assertion or elevator of an operation. *)
Ltac op_step Hb :=
  match goal with
  | |- bwp _ _ (mbind _ (ASSERT ?c)) =>
      let Hc := fresh "Hc" in destruct (ASSERT_cases c) as [[Hc ->]|[_ ->]]; [cbn [mbind result_bind]|by left]
  | |- bwp _ _ (mbind _ (the_elevator ?i ?b)) =>
      let e := fresh "e" in let He := fresh "He" in
      destruct (the_elevator_cases i b Hb) as [->|(e & -> & ? & ? & He)]; [by left|cbn [mbind result_bind]]
  end.

Lemma bank_exec_ok o b : bank_ok b -> well_directed o b -> bwp o b (bank_exec o b).
Proof.
  intros Hb Hd. destruct o as [i|i|f i|i d|f d|th f i|f i|th f i| |r|n]; cbn [bank_exec].
  - unfold ElevatorBank_OpenDoors. op_step Hb. unfold ElevatorInfo_OpenDoors. rewrite ?bind_assoc. op_step Hb.
    split; [|done]. apply PostEvent_ok, set_elevator_ok; [done|]. destruct He. constructor; cbn; try done.
    intros Hm. rewrite Hm, andb_false_r in Hc. done.
  - unfold ElevatorBank_CloseDoors. op_step Hb. unfold ElevatorInfo_CloseDoors. rewrite ?bind_assoc. op_step Hb.
    split; [|done]. apply set_elevator_ok; [done|]. destruct He. constructor; cbn; try done.
    intros Hm. by destruct (e_moving0 Hm).
  - unfold ElevatorBank_MoveTo. op_step Hb. op_step Hb. unfold ElevatorInfo_MoveTo. rewrite ?bind_assoc. op_step Hb.
    unfold valid_floor in Hc. apply andb_true_iff in Hc as [Hc1 Hc2]. apply andb_true_iff in Hc0 as [Hdoor Hmv].
    assert (Hok : forall w, elevator_ok (eb_numFloors b)
      (mkElevator (ei_display e) (ei_doorsOpen e) true (ei_lastFloor e) w f (ei_riders e))).
    { intros w. destruct He. constructor; cbn; try done; [|lia]. intros _. split; [by apply negb_true_iff|].
      apply orb_true_iff in Hmv as [Hm|Hm]; [intros Heq; by apply (Hd e)|]. apply negb_true_iff, Z.eqb_neq in Hm. done. }
    destruct (negb (ei_inMotion e)); cbn [mbind result_bind]; (split; [|done]);
      [apply schedule_ok|]; by apply set_elevator_ok.
  - unfold ElevatorBank_MarkDirection. op_step Hb. split; [|done]. apply set_elevator_ok; [done|]. destruct He. by constructor.
  - unfold ElevatorBank_PressButton. op_step Hb. split; [|done]. by apply PostEvent_ok.
  - unfold ElevatorBank_EnterElevator. rewrite ?bind_assoc. op_step Hb. rewrite ?bind_assoc. op_step Hb.
    unfold ElevatorInfo_Enter. destruct (negb (ei_doorsOpen e) || _); cbn [mbind result_bind].
    { split; [|done]. by apply set_elevator_ok. }
    rewrite ?bind_assoc. op_step Hb. rewrite ?bind_assoc. op_step Hb.
    split; [|done]. apply set_elevator_ok; [done|]. destruct He. constructor; cbn; try done.
    unfold sl_Append. rewrite length_app. cbn. lia.
  - unfold ElevatorBank_PressFloor. op_step Hb. op_step Hb. split; [|done]. by apply PostEvent_ok.
  - unfold ElevatorBank_ExitElevator. rewrite ?bind_assoc. op_step Hb. rewrite ?bind_assoc. op_step Hb.
    unfold ElevatorInfo_Exit. destruct (negb (ei_doorsOpen e) || _); cbn [mbind result_bind].
    { split; [|done]. by apply set_elevator_ok. }
    rewrite ?bind_assoc. op_step Hb. cbn [list_spec]. destruct (ei_riders e) as [|x xs] eqn:Hr; cbn [mbind result_bind].
    { right. split; [done|]. exists e. done. }
    rewrite <-Hr. destruct (sl_RemoveItem th (ei_riders e)) as [ys|] eqn:Hrm; cbn [mbind result_bind]; [|by left].
    split; [|done]. apply set_elevator_ok; [done|]. apply sl_RemoveItem_length in Hrm. destruct He. constructor; cbn; try done. lia.
  - unfold ElevatorBank_HandleInterrupt. rewrite ?bind_assoc. pose proof Hb as [Hl Hf Ha].
    destruct (HandleInterrupt_loop_ok (seq 0 (Z.to_nat (eb_numElevators b))) false b Hb) as (b' & -> & Hb' & Hf').
    { apply Forall_forall. intros j Hj. apply elem_of_seq in Hj. lia. }
    done.
  - split; [|by unfold ElevatorBank_getNextEvent; destruct (sl_SortedRemove _) as [[[] ?]|]].
    destruct Hb. unfold ElevatorBank_getNextEvent. destruct (sl_SortedRemove _) as [[[] ?]|]; by constructor.
  - split; [|done]. destruct Hb. by constructor.
Qed.

(** One operation of a controller or rider that keeps moving elevators well directed. *)
Inductive bank_step : ElevatorBank -> ElevatorBank -> Prop :=
  | BankStep o b b' : well_directed o b -> bank_exec o b = Ok b' -> bank_step b b'.

Lemma bank_new_ok ne nf t : 0 <= ne -> 0 < nf < 2 ^ 31 -> bank_ok (ElevatorBank_new ne nf t).
Proof.
  intros Hn Hf. constructor; cbn; [rewrite length_replicate; lia|done|]. apply Forall_replicate.
  constructor; cbn; done || lia.
Qed.

(** C31.  The elevators are safe in every state that controllers, riders, interrupts and the clock
    can reach, provided no moving elevator is sent back to the floor it passed last: a
    moving elevator has its doors closed and is not yet at its goal, every elevator is at a
    floor of the building, no elevator carries more than [MaxRiders] riders; and from such
    a state an operation fails only at an assertion that reports its misuse, or when a
    thread leaves an elevator that carries nobody. *)
Theorem elevator_safe (ne nf t : Z) (b : ElevatorBank) :
  0 <= ne -> 0 < nf < 2 ^ 31 -> rtc bank_step (ElevatorBank_new ne nf t) b ->
  Forall (elevator_ok nf) (eb_elevators b)
  /\ forall o e, well_directed o b -> bank_exec o b = Err e -> e = AssertFailed \/ (e = MemFault /\ leaves_empty o b).
Proof.
  intros Hn Hf Hr.
  assert (Hok : bank_ok b /\ eb_numFloors b = nf).
  { apply (rtc_ind_r (R := bank_step) (fun b => bank_ok b /\ eb_numFloors b = nf) (ElevatorBank_new ne nf t)); [| |done].
    - split; [by apply bank_new_ok|done].
    - intros y z _ [o y' z' Hd He] [Hy Hyf]. pose proof (bank_exec_ok o y' Hy Hd) as Hw. rewrite He in Hw.
      destruct Hw as [? ->]. done. }
  destruct Hok as [Hok Hnf]. split.
  - rewrite <-Hnf. apply Hok.
  - intros o e Hd He. pose proof (bank_exec_ok o b Hok Hd) as Hw. by rewrite He in Hw.
Qed.

(** ** Arrival *)

(** [HandleInterrupt] at the given times. *)
Definition interrupts_at (ts : list Z) (b : ElevatorBank) : result ElevatorBank :=
  result_fold (fun t b => '(_, b) ← ElevatorBank_HandleInterrupt (set_ticks t b); Ok b) ts b.

Lemma loop_idle idxs s b :
  Forall (fun i => exists e, eb_elevators b !! i = Some e /\ ei_inMotion e = false) idxs -> HandleInterrupt_loop idxs s b = Ok b.
Proof.
  induction 1 as [|i idxs (e & He & Hm) _ IH]; [done|]. cbn [HandleInterrupt_loop]. rewrite He. cbn [deref mbind result_bind].
  unfold ElevatorInfo_ReachedNextFloor. by rewrite Hm.
Qed.

Lemma loop_app l k s b :
  Forall (fun i => exists e, eb_elevators b !! i = Some e /\ ei_inMotion e = false) l ->
  HandleInterrupt_loop (l ++ k) s b = HandleInterrupt_loop k s b.
Proof.
  induction 1 as [|i idxs (e & He & Hm) _ IH]; [done|]. cbn [app HandleInterrupt_loop]. rewrite He. cbn [deref mbind result_bind].
  unfold ElevatorInfo_ReachedNextFloor. by rewrite Hm.
Qed.

Definition only_moving (i : nat) (b : ElevatorBank) : Prop :=
  forall j e, eb_elevators b !! j = Some e -> j <> i -> ei_inMotion e = false.

Lemma seq_at n i : (i < n)%nat -> seq 0 n = seq 0 i ++ i :: seq (S i) (n - S i).
Proof.
  intros Hi. rewrite <-(Nat.sub_add i n) at 1 by lia. rewrite Nat.add_comm, seq_app. f_equal. cbn.
  by replace (n - i)%nat with (S (n - S i)) by lia.
Qed.

Lemma idle_others i b idxs :
  only_moving i b -> Forall (fun j => j <> i /\ j < length (eb_elevators b))%nat idxs ->
  Forall (fun j => exists e, eb_elevators b !! j = Some e /\ ei_inMotion e = false) idxs.
Proof.
  intros Ho Hf. eapply Forall_impl; [exact Hf|]. intros j [Hne Hl].
  destruct (lookup_lt_is_Some_2 _ _ Hl) as [e He]. exists e. split; [done|]. by apply (Ho j).
Qed.

(** [k] times, one [DelayPerFloor] apart. *)
Fixpoint times (w : Z) (k : nat) : list Z :=
  match k with O => [] | S k => w :: times (w + DelayPerFloor) k end.

(** The interrupt of the only moving elevator, when it is due. *)
Lemma interrupt_moves i e b :
  bank_ok b -> eb_elevators b !! i = Some e -> ei_inMotion e = true -> ei_willArrive e <= eb_ticks b -> only_moving i b ->
  let s' := ei_lastFloor e + (if ei_lastFloor e <? ei_goingTo e then 1 else -1) in
  exists r, ElevatorBank_HandleInterrupt b = Ok (r,
    if decide (s' = ei_goingTo e) then
      ElevatorBank_PostEvent false ElevatorArrived (ei_goingTo e) (Z.of_nat i) true
        (eb_set_elevator (Z.of_nat i) (mkElevator (ei_display e) (ei_doorsOpen e) false s' (ei_willArrive e) (ei_goingTo e) (ei_riders e)) b)
    else eb_schedule DelayPerFloor
      (eb_set_elevator (Z.of_nat i) (mkElevator (ei_display e) (ei_doorsOpen e) true s' (i32 (ei_willArrive e + DelayPerFloor))
         (ei_goingTo e) (ei_riders e)) b)).
Proof.
  intros Hb He Hm Hw Ho s'. pose proof Hb as [Hl Hf Ha]. pose proof (lookup_lt_Some _ _ _ He) as Hi.
  pose proof (Forall_lookup_1 _ _ _ _ Ha He) as [Hmv Hfl Hgo _]. destruct (Hmv Hm) as [_ Hne].
  destruct (towards (eb_numFloors b) (ei_lastFloor e) (ei_goingTo e)) as (Hi32 & _ & _); try done; [lia|].
  assert (Hrest : forall b1, only_moving i b1 -> length (eb_elevators b1) = length (eb_elevators b) ->
    forall s, HandleInterrupt_loop (seq (S i) (Z.to_nat (eb_numElevators b) - S i)) s b1 = Ok b1).
  { intros b1 Ho1 Hl1 s. apply loop_idle, (idle_others i b1); [done|]. apply Forall_forall. intros j Hj. apply elem_of_seq in Hj. lia. }
  assert (Hothers : forall e', only_moving i (eb_set_elevator (Z.of_nat i) e' b)).
  { intros e' j ej Hj Hne'. cbn in Hj. rewrite Nat2Z.id, list_lookup_insert_ne in Hj by done. by apply (Ho j). }
  assert (Hloop : forall b', HandleInterrupt_loop (seq 0 (Z.to_nat (eb_numElevators b))) false b = Ok b' ->
    exists r, ElevatorBank_HandleInterrupt b = Ok (r, b')).
  { intros b' HL. unfold ElevatorBank_HandleInterrupt. rewrite HL. cbn [mbind result_bind]. eauto. }
  apply Hloop. rewrite (seq_at (Z.to_nat (eb_numElevators b)) i) by lia.
  rewrite loop_app by (apply (idle_others i b); [done|]; apply Forall_forall; intros j Hj; apply elem_of_seq in Hj; lia).
  cbn [HandleInterrupt_loop]. rewrite He. cbn [deref mbind result_bind]. unfold ElevatorInfo_ReachedNextFloor. rewrite Hm.
  destruct (Z.leb_spec (ei_willArrive e) (eb_ticks b)); [|lia]. cbn [andb]. rewrite Hi32. fold s'.
  unfold ElevatorInfo_CheckArrived. cbn [ei_inMotion ei_lastFloor ei_goingTo ei_display ei_doorsOpen ei_willArrive ei_riders andb].
  destruct (Z.eqb_spec s' (ei_goingTo e)) as [Heq|Hneq].
  - rewrite decide_True by done. apply Hrest; [apply Hothers|cbn; by rewrite length_insert].
  - rewrite decide_False by done. cbn [negb]. apply Hrest; [apply Hothers|cbn; by rewrite length_insert].
Qed.

Lemma arrives_after n : forall i e b w,
  bank_ok b -> eb_elevators b !! i = Some e -> ei_inMotion e = true -> only_moving i b -> ei_willArrive e = w ->
  Z.abs (ei_goingTo e - ei_lastFloor e) = Z.of_nat (S n) -> 0 <= w -> w + 100 * Z.of_nat (S n) < 2 ^ 31 ->
  exists b' e', interrupts_at (times w (S n)) b = Ok b' /\ eb_elevators b' !! i = Some e'
    /\ ei_lastFloor e' = ei_goingTo e /\ ei_inMotion e' = false
    /\ eb_controllerEvents b' = sl_Append (mkPEE ElevatorArrived (ei_goingTo e) (Z.of_nat i)) (eb_controllerEvents b)
    /\ eb_pending b' = eb_pending b ++ tail (times w (S n)).
Proof.
  induction n as [|n IH]; intros i e b w Hb He Hm Ho Hw Hd H0 Hov.
  all: pose proof (b_all _ Hb) as Ha; pose proof (Forall_lookup_1 _ _ _ _ Ha He) as Heo; pose proof Heo as [Hmv Hfl Hgo Hri].
  all: destruct (Hmv Hm) as [Hdoor Hne]; pose proof (b_floors _ Hb) as Hbf.
  all: destruct (towards (eb_numFloors b) (ei_lastFloor e) (ei_goingTo e)) as (_ & Hr & Habs); try done; [lia|].
  all: destruct (interrupt_moves i e (set_ticks w b)) as (r & HH); [by destruct Hb; constructor|done|done|cbn; lia|done|].
  all: cbv zeta in HH; set (s' := ei_lastFloor e + _) in *; pose proof (lookup_lt_Some _ _ _ He) as Hi.
  - rewrite decide_True in HH by lia. eexists. eexists. unfold interrupts_at. cbn [times result_fold]. rewrite HH.
    cbn [mbind result_bind]. split; [reflexivity|]. cbn. rewrite Nat2Z.id.
    split; [by apply list_lookup_insert_eq|]. cbn. split; [lia|]. split; [done|]. split; [done|]. by rewrite app_nil_r.
  - rewrite decide_False in HH by lia. set (b1 := eb_schedule _ _) in HH.
    set (e1 := mkElevator (ei_display e) (ei_doorsOpen e) true s' (i32 (ei_willArrive e + DelayPerFloor)) (ei_goingTo e) (ei_riders e)) in *.
    assert (He1 : elevator_ok (eb_numFloors b) e1) by (constructor; cbn; try done; intros _; split; [done|]; lia).
    destruct (IH i e1 b1 (w + DelayPerFloor)) as (b' & e' & HI & He' & Hfl' & Hm' & Hc' & Hp').
    + apply schedule_ok, set_elevator_ok; [by destruct Hb; constructor|done].
    + cbn. rewrite Nat2Z.id. by apply list_lookup_insert_eq.
    + done.
    + intros j ej Hj Hne'. cbn in Hj. rewrite Nat2Z.id, list_lookup_insert_ne in Hj by done. by apply (Ho j).
    + cbn. rewrite Hw. apply i32_id. unfold in_i32, DelayPerFloor. lia.
    + cbn. lia.
    + unfold DelayPerFloor. lia.
    + unfold DelayPerFloor. lia.
    + exists b', e'. unfold interrupts_at in *. cbn [times] in HI |- *. cbn [result_fold]. rewrite HH. cbn [mbind result_bind].
      split; [exact HI|]. split; [done|]. split; [done|]. split; [done|]. split; [done|]. rewrite Hp'. cbn [times tail].
      cbn. rewrite <-app_assoc. rewrite i32_id by (unfold in_i32, DelayPerFloor; lia). done.
Qed.

(** [MoveTo] of an elevator at rest with closed doors. *)
Lemma MoveTo_starts (b : ElevatorBank) (i : nat) (e : ElevatorInfo) (f : Z) :
  Z.of_nat (length (eb_elevators b)) = eb_numElevators b -> eb_elevators b !! i = Some e ->
  ei_inMotion e = false -> ei_doorsOpen e = false -> ei_lastFloor e <> f -> 0 <= f < eb_numFloors b ->
  in_i32 (eb_ticks b + DelayPerFloor) ->
  ElevatorBank_MoveTo f (Z.of_nat i) b = Ok (eb_schedule DelayPerFloor (eb_set_elevator (Z.of_nat i)
    (mkElevator (ei_display e) false true (ei_lastFloor e) (eb_ticks b + DelayPerFloor) f (ei_riders e)) b)).
Proof.
  intros Hl He Hm Hd Hne Hf Ht. pose proof (lookup_lt_Some _ _ _ He) as Hi.
  unfold ElevatorBank_MoveTo, the_elevator. rewrite ASSERT_true by (apply andb_true_iff; lia). cbn [mbind result_bind].
  rewrite Nat2Z.id, He. cbn [deref mbind result_bind]. rewrite ASSERT_true by (apply andb_true_iff; lia). cbn [mbind result_bind].
  unfold ElevatorInfo_MoveTo. rewrite Hm, Hd. rewrite ASSERT_true by (cbn; destruct (Z.eqb_spec (ei_lastFloor e) f); [lia|done]).
  cbn [mbind result_bind negb]. by rewrite i32_id.
Qed.

(** An elevator that is sent to another floor arrives: when it is at rest with closed doors
    and the others do not move, [MoveTo] schedules one interrupt, every interrupt until the
    goal moves it by one floor and schedules the next one a [DelayPerFloor] later, and
    after as many interrupts as there are floors in between it stands at the goal and one
    [ElevatorArrived] event has been posted to the controllers. *)
Theorem elevator_arrives (b : ElevatorBank) (i : nat) (e : ElevatorInfo) (f : Z) (n : nat) :
  bank_ok b -> eb_elevators b !! i = Some e -> ei_inMotion e = false -> ei_doorsOpen e = false -> only_moving i b ->
  0 <= f < eb_numFloors b -> Z.abs (f - ei_lastFloor e) = Z.of_nat (S n) ->
  0 <= eb_ticks b -> eb_ticks b + 100 * Z.of_nat (S (S n)) < 2 ^ 31 ->
  let ts := times (eb_ticks b + DelayPerFloor) (S n) in
  exists b1 b' e', ElevatorBank_MoveTo f (Z.of_nat i) b = Ok b1
    /\ interrupts_at ts b1 = Ok b' /\ eb_pending b' = eb_pending b ++ ts
    /\ eb_elevators b' !! i = Some e' /\ ei_lastFloor e' = f /\ ei_inMotion e' = false
    /\ eb_controllerEvents b' = sl_Append (mkPEE ElevatorArrived f (Z.of_nat i)) (eb_controllerEvents b).
Proof.
  intros Hb He Hm Hd Ho Hf Hn H0 Hov ts. pose proof (lookup_lt_Some _ _ _ He) as Hi. pose proof Hb as [Hl Hfl Ha].
  pose proof (Forall_lookup_1 _ _ _ _ Ha He) as [_ Hefl _ Heri].
  set (e1 := mkElevator (ei_display e) false true (ei_lastFloor e) (eb_ticks b + DelayPerFloor) f (ei_riders e)).
  set (b1 := eb_schedule DelayPerFloor (eb_set_elevator (Z.of_nat i) e1 b)).
  assert (HM : ElevatorBank_MoveTo f (Z.of_nat i) b = Ok b1).
  { apply MoveTo_starts; try done; [lia|unfold in_i32, DelayPerFloor; lia]. }
  destruct (arrives_after n i e1 b1 (eb_ticks b + DelayPerFloor)) as (b' & e' & HI & He' & Hfl' & Hm' & Hc' & Hp').
  - apply schedule_ok, set_elevator_ok; [done|]. constructor; cbn; try done. intros _. split; [done|]. lia.
  - cbn. rewrite Nat2Z.id. by apply list_lookup_insert_eq.
  - done.
  - intros j ej Hj Hne'. cbn in Hj. rewrite Nat2Z.id, list_lookup_insert_ne in Hj by done. by apply (Ho j).
  - done.
  - done.
  - unfold DelayPerFloor. lia.
  - unfold DelayPerFloor. lia.
  - exists b1, b', e'. split; [done|]. split; [done|]. split; [|done]. rewrite Hp'. cbn [b1 eb_pending eb_schedule eb_set_elevator].
    rewrite <-app_assoc. unfold ts. cbn. rewrite i32_id by (unfold in_i32, DelayPerFloor; lia). done.
Qed.

(** A moving elevator can leave the building: an elevator that has been started from floor 0
    and is sent back to floor 0 before it has reached the first floor passes every
    assertion, and the next interrupt puts it at floor -1 (the comment of [MoveTo] says that
    it goes on to the next floor and changes direction there). *)
Theorem elevator_below_ground (nf f t : Z) :
  1 < nf < 2 ^ 31 -> 0 < f < nf -> 0 <= t < 2 ^ 30 ->
  exists b1 b2 b3 e, ElevatorBank_MoveTo f 0 (ElevatorBank_new 1 nf t) = Ok b1
    /\ ElevatorBank_MoveTo 0 0 b1 = Ok b2
    /\ interrupts_at [t + DelayPerFloor] b2 = Ok b3
    /\ eb_elevators b3 = [e] /\ ei_lastFloor e = -1 /\ ei_inMotion e = true.
Proof.
  intros Hn Hf Ht.
  set (e1 := mkElevator Neither false true 0 (t + DelayPerFloor) f []).
  set (e2 := mkElevator Neither false true 0 (t + DelayPerFloor) 0 []).
  set (b1 := mkBank 1 nf [] [] [e1] [t + DelayPerFloor] t). set (b2 := mkBank 1 nf [] [] [e2] [t + DelayPerFloor] t).
  assert (Hi : i32 (t + DelayPerFloor) = t + DelayPerFloor) by (apply i32_id; unfold in_i32, DelayPerFloor; lia).
  assert (H1 : ElevatorBank_MoveTo f 0 (ElevatorBank_new 1 nf t) = Ok b1).
  { rewrite (MoveTo_starts _ 0 ElevatorInfo_new); [|reflexivity|reflexivity|done|done|cbn; lia|cbn; lia|cbn; unfold in_i32, DelayPerFloor; lia].
    unfold b1, e1. rewrite <-Hi at 2. reflexivity. }
  assert (H2 : ElevatorBank_MoveTo 0 0 b1 = Ok b2).
  { unfold ElevatorBank_MoveTo, the_elevator, b1. cbn. rewrite ASSERT_true by (apply andb_true_iff; cbn; lia). done. }
  exists b1, b2. do 2 eexists. split; [exact H1|]. split; [exact H2|].
  unfold interrupts_at, ElevatorBank_HandleInterrupt, b2, set_ticks. cbn [result_fold eb_numElevators].
  change (Z.to_nat 1) with 1%nat. cbn [seq HandleInterrupt_loop eb_elevators lookup list_lookup deref mbind result_bind].
  unfold ElevatorInfo_ReachedNextFloor. cbn [e2 ei_inMotion ei_willArrive eb_ticks andb]. rewrite Z.leb_refl.
  cbn. split; [reflexivity|]. by split.
Qed.

Lemma elevator_below_ground_witness :
  exists b1 b2 b3 e, ElevatorBank_MoveTo 3 0 (ElevatorBank_new 1 5 0) = Ok b1
    /\ ElevatorBank_MoveTo 0 0 b1 = Ok b2
    /\ interrupts_at [0 + DelayPerFloor] b2 = Ok b3
    /\ eb_elevators b3 = [e] /\ ei_lastFloor e = -1 /\ ei_inMotion e = true.
Proof. apply (elevator_below_ground 5 3 0); lia. Defined.

(** ** Examples *)

Lemma elevator_arrives_witness :
  let b := ElevatorBank_new 2 5 7 in
  exists b1 b' e', ElevatorBank_MoveTo 3 (Z.of_nat 1) b = Ok b1
    /\ interrupts_at (times (7 + DelayPerFloor) 3) b1 = Ok b' /\ eb_pending b' = eb_pending b ++ times (7 + DelayPerFloor) 3
    /\ eb_elevators b' !! 1%nat = Some e' /\ ei_lastFloor e' = 3 /\ ei_inMotion e' = false
    /\ eb_controllerEvents b' = sl_Append (mkPEE ElevatorArrived 3 (Z.of_nat 1)) (eb_controllerEvents b).
Proof.
  apply (elevator_arrives (ElevatorBank_new 2 5 7) 1 ElevatorInfo_new 3 2); try reflexivity; try (cbn; lia).
  - apply bank_new_ok; lia.
  - intros j e Hj _. cbn in Hj. apply lookup_replicate in Hj as [-> _]. reflexivity.
Defined.

Lemma elevator_safe_witness :
  Forall (elevator_ok 5) (eb_elevators (set_ticks 9 (ElevatorBank_new 2 5 7)))
  /\ forall o e, well_directed o (set_ticks 9 (ElevatorBank_new 2 5 7)) -> bank_exec o (set_ticks 9 (ElevatorBank_new 2 5 7)) = Err e ->
     e = AssertFailed \/ (e = MemFault /\ leaves_empty o (set_ticks 9 (ElevatorBank_new 2 5 7))).
Proof.
  apply (elevator_safe 2 5 7); [lia|lia|]. apply rtc_once. by apply (BankStep (OTick 9)).
Defined.
