(* ===== verification/ElevatorTest.v ===== *)
(** * machine/elevatortest.cc: the elevator self test

    One rider and one controller, each a thread, share a bank of one elevator and two floors;
    interrupts of the bank wake them through two semaphores.  A thread is stepped from one
    call on the bank or on a semaphore to the next, and these steps, the passing of time and the
    interrupts that are due interleave in every way.  Semaphores are counters here, as for
    the console.  When the rider has returned, [ElevatorSelfTest] deletes the inspector and with
    it the bank and the semaphores; what uses them after that is an error of the model. *)

From S2P Require Import Prelude SList ListHeap Elevator.

(** Where [RiderTest] is; [second] tells the second [WaitForNextRiderEvent] from the first. *)
Inductive rider_pc :=
  | RPressButton
  | RNext (second : bool)                (* [getNextRiderEvent] *)
  | RWakeup (second : bool)              (* [riderWakeup->P()] *)
  | RDirection (floor elevator : Z)
  | REnter (floor elevator : Z)
  | RPressFloor (elevator : Z)
  | RExit (floor elevator : Z)
  | RDone.

(** Where [ControllerTest] is, with three waits. *)
Inductive wait := UpButton | FloorButton | Arrival.

Inductive controller_pc :=
  | CWhere
  | CNext (w : wait)                     (* [getNextControllerEvent] *)
  | CWakeup (w : wait)                   (* [controllerWakeup->P()] *)
  | CMark
  | COpen
  | CClose (floor : Z)
  | CMove (floor : Z)
  | COpenAgain (elevator : Z)
  | CDone.

(** [ElevatorInspector] and its two threads. *)
Record ElevatorInspector := mkInspector {
  in_elevators : ElevatorBank;
  in_riderWakeup : Z;
  in_controllerWakeup : Z;
  in_rider : rider_pc;
  in_controller : controller_pc
}.

Definition ElevatorInspector_new (ticks : Z) : ElevatorInspector :=
  mkInspector (ElevatorBank_new 1 2 ticks) 0 0 RPressButton CWhere.

Definition is_event (e : PendingElevatorEvent) (ev : ElevatorEvent) (floor : Z) : bool :=
  bool_decide (pe_event e = ev) && (pe_floor e =? floor).

(** One step of the rider, thread [me]. *)
Definition RiderTest (me : Z) (s : ElevatorInspector) : result ElevatorInspector :=
  let b := in_elevators s in
  let next b k := mkInspector b (in_riderWakeup s) (in_controllerWakeup s) k (in_controller s) in
  match in_rider s with
  | RPressButton => b ← ElevatorBank_PressButton 0 Up b; Ok (next b (RNext false))
  | RNext second =>
      match ElevatorBank_getNextEvent true b with
      | (None, b) => Ok (next b (RWakeup second))
      | (Some e, b) =>
          _ ← ASSERT (is_event e DoorsOpened (if (second : bool) then 1 else 0));
          Ok (next b ((if second then RExit else RDirection) (pe_floor e) (pe_elevator e)))
      end
  | RWakeup second =>
      Ok (if 0 <? in_riderWakeup s
          then mkInspector b (in_riderWakeup s - 1) (in_controllerWakeup s) (RNext second) (in_controller s) else s)
  | RDirection floor elevator =>
      d ← ElevatorBank_getDirection elevator b; _ ← ASSERT (bool_decide (d = Up)); Ok (next b (REnter floor elevator))
  | REnter floor elevator =>
      '(ok, b) ← ElevatorBank_EnterElevator me floor elevator b; _ ← ASSERT ok; Ok (next b (RPressFloor elevator))
  | RPressFloor elevator => b ← ElevatorBank_PressFloor 1 elevator b; Ok (next b (RNext true))
  | RExit floor elevator =>
      '(ok, b) ← ElevatorBank_ExitElevator me floor elevator b; _ ← ASSERT ok; Ok (next b RDone)
  | RDone => Ok s
  end.

(** What the controller does with the event it has waited for. *)
Definition controller_event (w : wait) (e : PendingElevatorEvent) : result controller_pc :=
  match w with
  | UpButton => _ ← ASSERT (is_event e UpButtonPressed 0); Ok CMark
  | FloorButton => _ ← ASSERT (is_event e FloorButtonPressed 1); Ok (CClose (pe_floor e))
  | Arrival => _ ← ASSERT (is_event e ElevatorArrived 1 && (pe_elevator e =? 0)); Ok (COpenAgain (pe_elevator e))
  end.

(** One step of the controller. *)
Definition ControllerTest (s : ElevatorInspector) : result ElevatorInspector :=
  let b := in_elevators s in
  let next b k := mkInspector b (in_riderWakeup s) (in_controllerWakeup s) (in_rider s) k in
  match in_controller s with
  | CWhere => f ← ElevatorBank_WhereIsElevator 0 b; _ ← ASSERT (f =? 0); Ok (next b (CNext UpButton))
  | CNext w =>
      match ElevatorBank_getNextEvent false b with
      | (None, b) => Ok (next b (CWakeup w))
      | (Some e, b) => k ← controller_event w e; Ok (next b k)
      end
  | CWakeup w =>
      Ok (if 0 <? in_controllerWakeup s
          then mkInspector b (in_riderWakeup s) (in_controllerWakeup s - 1) (in_rider s) (CNext w) else s)
  | CMark => b ← ElevatorBank_MarkDirection 0 Up b; Ok (next b COpen)
  | COpen => b ← ElevatorBank_OpenDoors 0 b; Ok (next b (CNext FloorButton))
  | CClose floor => b ← ElevatorBank_CloseDoors 0 b; Ok (next b (CMove floor))
  | CMove floor => b ← ElevatorBank_MoveTo floor 0 b; Ok (next b (CNext Arrival))
  | COpenAgain elevator => b ← ElevatorBank_OpenDoors elevator b; Ok (next b CDone)
  | CDone => Ok s
  end.

(** ** The threads and the device together *)

Inductive inspector_event :=
  | SRider
  | SController
  | STime (t : Z)                        (* the clock shows [t] *)
  | SInterrupt (i : nat).                (* the [i]-th interrupt to come, when it is due *)

Definition eb_set_pending (p : list Z) (b : ElevatorBank) : ElevatorBank :=
  mkBank (eb_numElevators b) (eb_numFloors b) (eb_riderEvents b) (eb_controllerEvents b) (eb_elevators b) p (eb_ticks b).

(** [ElevatorDone]: [HandleInterrupt] with the handlers [riders] and [controllers]. *)
Definition inspector_interrupt (s : ElevatorInspector) : result ElevatorInspector :=
  '(r, c, b) ← ElevatorBank_HandleInterrupt (in_elevators s);
  Ok (mkInspector b (in_riderWakeup s + if (r : bool) then 1 else 0) (in_controllerWakeup s + if (c : bool) then 1 else 0)
        (in_rider s) (in_controller s)).

Definition set_elevators (b : ElevatorBank) (s : ElevatorInspector) : ElevatorInspector :=
  mkInspector b (in_riderWakeup s) (in_controllerWakeup s) (in_rider s) (in_controller s).

Definition inspector_step (me : Z) (e : inspector_event) (s : ElevatorInspector) : result ElevatorInspector :=
  let b := in_elevators s in
  match e with
  | SRider => RiderTest me s
  | SController => ControllerTest s
  | STime t => Ok (if eb_ticks b <=? t then set_elevators (set_ticks t b) s else s)
  | SInterrupt i =>
      match eb_pending b !! i with
      | Some w =>
          if w <=? eb_ticks b then inspector_interrupt (set_elevators (eb_set_pending (delete i (eb_pending b)) b) s) else Ok s
      | None => Ok s
      end
  end.

#[global] Instance rider_pc_eq_dec : EqDecision rider_pc.
Proof. solve_decision. Defined.
#[global] Instance inspector_event_eq_dec : EqDecision inspector_event.
Proof. solve_decision. Defined.

(** The threads and the device while the inspector exists. *)
Definition inspector_run (me : Z) (es : list inspector_event) (s : ElevatorInspector) : result ElevatorInspector :=
  result_fold (inspector_step me) es s.

(** The whole test: the inspector is there, or it has been deleted.  Then the interrupts that
    were scheduled are still to come, and the controller is where it was. *)
Inductive self_test :=
  | Running (inspector : ElevatorInspector)
  | Deleted (controller : controller_pc) (pending : list Z) (ticks : Z).

(** The destructor frees the bank and both semaphores; nothing takes the bank's interrupts
    off the queue of the machine. *)
Definition ElevatorInspector_delete (s : ElevatorInspector) : self_test :=
  Deleted (in_controller s) (eb_pending (in_elevators s)) (eb_ticks (in_elevators s)).

(** One step.  When [RiderTest] has returned, the next step of its thread is [delete inspector].  After
    that an interrupt of the bank runs [HandleInterrupt] on freed memory, and so does the
    controller if it is not done. *)
Definition self_test_step (me : Z) (e : inspector_event) (st : self_test) : result self_test :=
  match st with
  | Running s =>
      match e, in_rider s with
      | SRider, RDone => Ok (ElevatorInspector_delete s)
      | _, _ => s ← inspector_step me e s; Ok (Running s)
      end
  | Deleted c p t =>
      match e with
      | SRider => Ok st
      | SController => match c with CDone => Ok st | _ => Err MemFault end
      | STime t' => Ok (Deleted c p (Z.max t t'))
      | SInterrupt i => match p !! i with Some w => if w <=? t then Err MemFault else Ok st | None => Ok st end
      end
  end.

(** [ElevatorSelfTest] from the constructor of the inspector on, started at time [t]. *)
Definition ElevatorSelfTest (me t : Z) (es : list inspector_event) : result self_test :=
  result_fold (self_test_step me) es (Running (ElevatorInspector_new t)).

(** The test runs to its end, the rider leaving the elevator on floor 1. *)
Example inspector_runs :
  exists s, inspector_run 7 [SController; SController; SRider; SRider; STime 1; SInterrupt 0; SController; SController;
      SController; SController; SController; STime 12; SInterrupt 0; SRider; SRider; SRider; SRider; SRider; SRider;
      STime 30; SInterrupt 0; SController; SController; SController; SController; SController; STime 130; SInterrupt 0;
      SController; SController; SController; STime 140; SInterrupt 0; SRider; SRider; SRider] (ElevatorInspector_new 0) = Ok s
    /\ in_rider s = RDone /\ in_controller s = CDone.
Proof. eexists. vm_compute. done. Qed.

(** ** The invariant *)

Definition rider_waits (second : bool) (k : rider_pc) : Prop := k = RNext second \/ k = RWakeup second.
Definition controller_waits (w : wait) (k : controller_pc) : Prop := k = CNext w \/ k = CWakeup w.

Definition posted (ev : ElevatorEvent) (floor : Z) : list (Z * PendingElevatorEvent) := [(0, mkPEE ev floor 0)].

(** The stages of the test: where the threads are, the events posted and not taken, the elevator. *)
Inductive stage (me : Z) :
    rider_pc -> controller_pc -> list (Z * PendingElevatorEvent) -> list (Z * PendingElevatorEvent) -> ElevatorInfo -> Prop :=
  | St_start c : c = CWhere \/ controller_waits UpButton c ->
      stage me RPressButton c [] [] ElevatorInfo_new
  | St_called r c : rider_waits false r -> c = CWhere \/ controller_waits UpButton c ->
      stage me r c [] (posted UpButtonPressed 0) ElevatorInfo_new
  | St_mark r : rider_waits false r -> stage me r CMark [] [] ElevatorInfo_new
  | St_open r : rider_waits false r -> stage me r COpen [] [] (mkElevator Up false false 0 0 0 [])
  | St_opened r c : rider_waits false r -> controller_waits FloorButton c ->
      stage me r c (posted DoorsOpened 0) [] (mkElevator Up true false 0 0 0 [])
  | St_direction c : controller_waits FloorButton c -> stage me (RDirection 0 0) c [] [] (mkElevator Up true false 0 0 0 [])
  | St_enter c : controller_waits FloorButton c -> stage me (REnter 0 0) c [] [] (mkElevator Up true false 0 0 0 [])
  | St_aboard c : controller_waits FloorButton c -> stage me (RPressFloor 0) c [] [] (mkElevator Up true false 0 0 0 [(0, me)])
  | St_pressed r c : rider_waits true r -> controller_waits FloorButton c ->
      stage me r c [] (posted FloorButtonPressed 1) (mkElevator Up true false 0 0 0 [(0, me)])
  | St_close r : rider_waits true r -> stage me r (CClose 1) [] [] (mkElevator Up true false 0 0 0 [(0, me)])
  | St_move r : rider_waits true r -> stage me r (CMove 1) [] [] (mkElevator Up false false 0 0 0 [(0, me)])
  | St_moving r c w : rider_waits true r -> controller_waits Arrival c ->
      stage me r c [] [] (mkElevator Up false true 0 w 1 [(0, me)])
  | St_arrived r c w : rider_waits true r -> controller_waits Arrival c ->
      stage me r c [] (posted ElevatorArrived 1) (mkElevator Up false false 1 w 1 [(0, me)])
  | St_reopen r w : rider_waits true r -> stage me r (COpenAgain 0) [] [] (mkElevator Up false false 1 w 1 [(0, me)])
  | St_reopened r w : rider_waits true r -> stage me r CDone (posted DoorsOpened 1) [] (mkElevator Up true false 1 w 1 [(0, me)])
  | St_exit w : stage me (RExit 1 0) CDone [] [] (mkElevator Up true false 1 w 1 [(0, me)])
  | St_end w : stage me RDone CDone [] [] (mkElevator Up true false 1 w 1 []).

(** A thread that sleeps although an event waits for it, or for a moving elevator, is going
    to be woken: the semaphore has been signalled or an interrupt is to come. *)
Inductive inspector_inv (me : Z) : ElevatorInspector -> Prop :=
  | Inspector_inv r c rev cev e p t rw cw :
      stage me r c rev cev e -> 0 <= rw -> 0 <= cw ->
      (rev <> [] -> (exists n, r = RWakeup n) -> 0 < rw \/ p <> []) ->
      (cev <> [] -> (exists w, c = CWakeup w) -> 0 < cw \/ p <> []) ->
      (ei_inMotion e = true -> exists w, w ∈ p /\ ei_willArrive e <= w) ->
      inspector_inv me (mkInspector (mkBank 1 2 rev cev [e] p t) rw cw r c).

Create HintDb elevator.
#[local] Hint Constructors stage : elevator.
#[local] Hint Unfold rider_waits controller_waits : elevator.

(** Splits what is left open of the two threads in a stage. *)
Ltac stage_cases H :=
  destruct H; repeat match goal with
    | H : rider_waits _ _ |- _ => destruct H as [->| ->]
    | H : controller_waits _ _ |- _ => destruct H as [->| ->]
    | H : _ = CWhere \/ _ |- _ => destruct H as [->|H]
    end.

(** Closes the conditions of the invariant once the new state is computed. *)
Ltac inv_close :=
  eexists; split; [reflexivity|]; constructor; cbn; auto 6 with elevator;
  try first [lia | by intros ? [? [=]] | by intros _ _; right; intros [_ [=]]%app_eq_nil | done].

Lemma rider_exits me p t w :
  ElevatorBank_ExitElevator me 1 0 (mkBank 1 2 [] [] [mkElevator Up true false 1 w 1 [(0, me)]] p t)
    = Ok (true, mkBank 1 2 [] [] [mkElevator Up true false 1 w 1 []] p t).
Proof.
  unfold ElevatorBank_ExitElevator, ElevatorInfo_Exit, the_elevator, valid_floor. simpl. by rewrite decide_True by done.
Qed.

Lemma rider_step_ok me s : inspector_inv me s -> exists s', RiderTest me s = Ok s' /\ inspector_inv me s'.
Proof.
  intros [r c rev cev e p t rw cw Hs Hr Hc Wr Wc Wm]. stage_cases Hs; cbn in *;
    rewrite ?rider_exits; destruct (Z.ltb_spec 0 rw); inv_close.
Qed.

Lemma controller_step_ok me s : inspector_inv me s -> exists s', ControllerTest s = Ok s' /\ inspector_inv me s'.
Proof.
  intros [r c rev cev e p t rw cw Hs Hr Hc Wr Wc Wm]. stage_cases Hs; cbn in *; destruct (Z.ltb_spec 0 cw);
    inv_close.
  all: intros _; eexists; split; [by apply elem_of_app; right; left|done].
Qed.

(** ** Interrupts *)

(** Woken by this interrupt, or by another one. *)
Definition woken {A} (l : list A) (v : Z) : Z := v + if negb (match l with [] => true | _ => false end) then 1 else 0.

Lemma woken_pos {A} (l : list A) v : 0 <= v -> 0 <= woken l v /\ (l <> [] -> 0 < woken l v).
Proof. unfold woken. destruct l; cbn; intuition (lia || done). Qed.

Lemma interrupt_still rev cev e p t rw cw r c :
  ei_inMotion e = false ->
  inspector_interrupt (mkInspector (mkBank 1 2 rev cev [e] p t) rw cw r c)
    = Ok (mkInspector (mkBank 1 2 rev cev [e] p t) (woken rev rw) (woken cev cw) r c).
Proof.
  intros Hm. unfold inspector_interrupt, ElevatorBank_HandleInterrupt.
  change (seq 0 _) with [0%nat]. cbn -[ElevatorInfo_ReachedNextFloor].
  unfold ElevatorInfo_ReachedNextFloor. rewrite Hm. by destruct rev, cev.
Qed.

(** The interrupt of the journey: the elevator reaches floor 1, or it is too early. *)
Lemma interrupt_journey me w p t rw cw r c :
  inspector_interrupt (mkInspector (mkBank 1 2 [] [] [mkElevator Up false true 0 w 1 [(0, me)]] p t) rw cw r c)
    = Ok (if w <=? t
          then mkInspector (mkBank 1 2 [] (posted ElevatorArrived 1) [mkElevator Up false false 1 w 1 [(0, me)]] p t) rw (cw + 1) r c
          else mkInspector (mkBank 1 2 [] [] [mkElevator Up false true 0 w 1 [(0, me)]] p t) rw cw r c).
Proof.
  unfold inspector_interrupt, ElevatorBank_HandleInterrupt. change (seq 0 _) with [0%nat]. cbn.
  unfold ElevatorInfo_ReachedNextFloor. simpl. destruct (w <=? t); simpl; by rewrite ?Z.add_0_r.
Qed.

Lemma elem_of_delete_ne (p : list Z) i w0 w : p !! i = Some w0 -> w ∈ p -> w <> w0 -> w ∈ delete i p.
Proof.
  intros Hi Hw Hne. rewrite <-(take_drop_middle p i w0 Hi) in Hw. rewrite delete_take_drop.
  apply elem_of_app in Hw as [Hw|[->|Hw]%elem_of_cons]; [apply elem_of_app; by left|done|apply elem_of_app; by right].
Qed.

Lemma interrupt_step_ok me i s w0 :
  inspector_inv me s -> eb_pending (in_elevators s) !! i = Some w0 -> w0 <= eb_ticks (in_elevators s) ->
  exists s', inspector_interrupt (set_elevators (eb_set_pending (delete i (eb_pending (in_elevators s))) (in_elevators s)) s) = Ok s'
    /\ inspector_inv me s'.
Proof.
  intros [r c rev cev e p t rw cw Hs Hr Hc Wr Wc Wm] Hi Hw0. cbn in Hi, Hw0 |- *.
  unfold set_elevators, eb_set_pending. cbn.
  destruct (ei_inMotion e) eqn:Hm.
  - destruct (Wm eq_refl) as (w & Hw & Hle). destruct Hs; try done. rewrite interrupt_journey. cbn in Hle.
    eexists. split; [reflexivity|]. destruct (Z.leb_spec w1 t).
    + constructor; cbn; auto with elevator; try done; [lia|]. intros _ _. left. lia.
    + constructor; cbn; auto with elevator; try done. intros _. exists w. split; [|done].
      apply (elem_of_delete_ne _ _ w0); [done|done|lia].
  - rewrite interrupt_still by done. destruct (woken_pos rev rw Hr), (woken_pos cev cw Hc).
    eexists. split; [reflexivity|]. constructor; auto. congruence.
Qed.

Lemma inspector_step_ok me ev s : inspector_inv me s -> exists s', inspector_step me ev s = Ok s' /\ inspector_inv me s'.
Proof.
  intros Hs. destruct ev as [| |t|i]; cbn [inspector_step].
  - by apply rider_step_ok.
  - by apply controller_step_ok.
  - eexists. split; [reflexivity|]. destruct (_ <=? _); [|done]. destruct Hs. by constructor.
  - destruct (_ !! i) as [w0|] eqn:Hi; [|eauto]. destruct (Z.leb_spec w0 (eb_ticks (in_elevators s))); [|eauto].
    by apply (interrupt_step_ok _ _ _ w0).
Qed.

Lemma inspector_run_inv me es s :
  inspector_inv me s -> exists s', inspector_run me es s = Ok s' /\ inspector_inv me s'.
Proof.
  unfold inspector_run. revert s. induction es as [|ev es IH]; intros s Hs; cbn [result_fold]; [eauto|].
  destruct (inspector_step_ok me ev s Hs) as (s1 & -> & H1). cbn [mbind result_bind]. by apply IH.
Qed.

Lemma inspector_start me t : inspector_inv me (ElevatorInspector_new t).
Proof. constructor; cbn; auto with elevator; done. Qed.

(** ** Completion *)

Definition rider_rank (k : rider_pc) : nat :=
  match k with
  | RPressButton => 0 | RNext false | RWakeup false => 1 | RDirection _ _ => 2 | REnter _ _ => 3 | RPressFloor _ => 4
  | RNext true | RWakeup true => 5 | RExit _ _ => 6 | RDone => 7
  end.

Definition wait_rank (w : wait) : nat := match w with UpButton => 1 | FloorButton => 4 | Arrival => 7 end.

Definition controller_rank (k : controller_pc) : nat :=
  match k with
  | CWhere => 0 | CNext w | CWakeup w => wait_rank w | CMark => 2 | COpen => 3 | CClose _ => 5 | CMove _ => 6
  | COpenAgain _ => 8 | CDone => 9
  end.

Arguments rider_rank !k /.
Arguments controller_rank !k /.

(** How far the test has come, out of 16. *)
Definition inspector_rank (s : ElevatorInspector) : nat := rider_rank (in_rider s) + controller_rank (in_controller s).

Lemma inspector_run_app me es es' s s1 :
  inspector_run me es s = Ok s1 -> inspector_run me (es ++ es') s = inspector_run me es' s1.
Proof. unfold inspector_run. intros H. by rewrite result_fold_app, H. Qed.

(** An interrupt that is to come comes, when time has passed. *)
Lemma interrupt_comes me i w0 rev cev e p t rw cw r c : p !! i = Some w0 ->
  inspector_run me [STime (Z.max t w0); SInterrupt i] (mkInspector (mkBank 1 2 rev cev [e] p t) rw cw r c)
    = inspector_interrupt (mkInspector (mkBank 1 2 rev cev [e] (delete i p) (Z.max t w0)) rw cw r c).
Proof.
  intros Hi. unfold inspector_run. cbn [result_fold inspector_step in_elevators eb_ticks].
  destruct (Z.leb_spec t (Z.max t w0)); [|lia]. cbn. rewrite Hi. destruct (Z.leb_spec w0 (Z.max t w0)); [|lia].
  unfold set_elevators, eb_set_pending. cbn. by destruct (inspector_interrupt _).
Qed.

(** A thread whose event is there is woken, if it sleeps. *)
Lemma rider_woken me rev cev e p t rw cw n c :
  ei_inMotion e = false -> rev <> [] -> 0 <= rw -> 0 < rw \/ p <> [] ->
  exists es p' t' rw' cw',
    inspector_run me es (mkInspector (mkBank 1 2 rev cev [e] p t) rw cw (RWakeup n) c)
      = Ok (mkInspector (mkBank 1 2 rev cev [e] p' t') rw' cw' (RNext n) c).
Proof.
  intros Hm Hrev Hr [Hw|Hp].
  - exists [SRider]. do 4 eexists. cbn. destruct (Z.ltb_spec 0 rw); [reflexivity|lia].
  - destruct p as [|w0 p]; [done|]. exists ([STime (Z.max t w0); SInterrupt 0] ++ [SRider]). do 4 eexists.
    erewrite inspector_run_app; [|by rewrite (interrupt_comes _ _ w0), interrupt_still].
    cbn. destruct (woken_pos rev rw Hr) as [_ H]. destruct (Z.ltb_spec 0 (woken rev rw)); [reflexivity|naive_solver lia].
Qed.

Lemma controller_woken me rev cev e p t rw cw r w :
  ei_inMotion e = false -> cev <> [] -> 0 <= cw -> 0 < cw \/ p <> [] ->
  exists es p' t' rw' cw',
    inspector_run me es (mkInspector (mkBank 1 2 rev cev [e] p t) rw cw r (CWakeup w))
      = Ok (mkInspector (mkBank 1 2 rev cev [e] p' t') rw' cw' r (CNext w)).
Proof.
  intros Hm Hcev Hc [Hw|Hp].
  - exists [SController]. do 4 eexists. cbn. destruct (Z.ltb_spec 0 cw); [reflexivity|lia].
  - destruct p as [|w0 p]; [done|]. exists ([STime (Z.max t w0); SInterrupt 0] ++ [SController]). do 4 eexists.
    erewrite inspector_run_app; [|by rewrite (interrupt_comes _ _ w0), interrupt_still].
    cbn. destruct (woken_pos cev cw Hc) as [_ H]. destruct (Z.ltb_spec 0 (woken cev cw)); [reflexivity|naive_solver lia].
Qed.

(** The test can be brought further. *)
Definition advances (me : Z) (s : ElevatorInspector) : Prop :=
  exists es s', inspector_run me es s = Ok s' /\ (inspector_rank s < inspector_rank s')%nat.

Lemma advances_after me es s s1 :
  inspector_run me es s = Ok s1 -> inspector_rank s = inspector_rank s1 -> advances me s1 -> advances me s.
Proof.
  intros E Hr (es' & s' & E' & Hlt). exists (es ++ es'), s'. by rewrite (inspector_run_app _ _ _ _ _ E), Hr.
Qed.

(** The rider or the controller goes on by itself. *)
Ltac advance_by ev := exists [ev]; eexists; split; [reflexivity|cbn; lia].

(** A moving elevator arrives, and its event is posted. *)
Lemma elevator_comes me w p t rw cw r c :
  (exists w1, w1 ∈ p /\ w <= w1) ->
  exists es p' t',
    inspector_run me es (mkInspector (mkBank 1 2 [] [] [mkElevator Up false true 0 w 1 [(0, me)]] p t) rw cw r c)
      = Ok (mkInspector (mkBank 1 2 [] (posted ElevatorArrived 1) [mkElevator Up false false 1 w 1 [(0, me)]] p' t') rw (cw + 1) r c).
Proof.
  intros (w1 & [i Hi]%list_elem_of_lookup_1 & Hle). exists [STime (Z.max t w1); SInterrupt i]. do 2 eexists.
  rewrite (interrupt_comes _ _ w1) by done. rewrite interrupt_journey. destruct (Z.leb_spec w (Z.max t w1)); [done|lia].
Qed.

Lemma controller_takes me e cev p t rw cw r c w ev f :
  controller_waits w c -> ei_inMotion e = false -> 0 <= cw -> ((exists w, c = CWakeup w) -> 0 < cw \/ p <> []) ->
  cev = posted ev f -> (exists k, controller_event w (mkPEE ev f 0) = Ok k /\ (wait_rank w < controller_rank k)%nat) ->
  advances me (mkInspector (mkBank 1 2 [] cev [e] p t) rw cw r c).
Proof.
  intros Hc Hm Hcw Hwake -> (k & Hk & Hlt).
  assert (Hgo : forall p t rw cw, advances me (mkInspector (mkBank 1 2 [] (posted ev f) [e] p t) rw cw r (CNext w))).
  { intros. exists [SController]. eexists. split; [cbn; by rewrite Hk|]. unfold inspector_rank. cbn [in_rider in_controller controller_rank]. lia. }
  destruct Hc as [->| ->]; [apply Hgo|].
  destruct (controller_woken me [] (posted ev f) e p t rw cw r w) as (es & p' & t' & rw' & cw' & E); [done..|by apply Hwake; eexists|].
  by eapply advances_after; [exact E| |apply Hgo].
Qed.

Lemma rider_takes me e p t rw cw r c n f :
  rider_waits n r -> ei_inMotion e = false -> 0 <= rw -> ((exists n, r = RWakeup n) -> 0 < rw \/ p <> []) ->
  f = (if n then 1 else 0) ->
  advances me (mkInspector (mkBank 1 2 (posted DoorsOpened f) [] [e] p t) rw cw r c).
Proof.
  intros Hr Hm Hrw Hwake ->.
  assert (Hgo : forall p t rw cw, advances me (mkInspector (mkBank 1 2 (posted DoorsOpened (if n then 1 else 0)) [] [e] p t) rw cw (RNext n) c)).
  { intros. destruct n; advance_by SRider. }
  destruct Hr as [->| ->]; [apply Hgo|].
  destruct (rider_woken me (posted DoorsOpened (if n then 1 else 0)) [] e p t rw cw n c) as (es & p' & t' & rw' & cw' & E);
    [done..|by apply Hwake; eexists|].
  eapply advances_after; [exact E|by destruct n|apply Hgo].
Qed.

Lemma inspector_progress me s : inspector_inv me s -> (in_rider s = RDone /\ in_controller s = CDone) \/ advances me s.
Proof.
  intros [r c rev cev e p t rw cw Hs Hr Hc Wr Wc Wm].
  destruct Hs as [| ? ? ? [->|]|r Hw|r Hw|r c Hw|c|c|c|r c ? Hw|r Hw|r Hw|r c w ? Hw|r c w ? Hw|r w Hw|r w Hw|w|w];
    try (by left); right; cbn in Wr, Wc, Wm;
    try solve [by advance_by SRider | by advance_by SController | eapply rider_takes; eauto; by apply Wr
              | eapply controller_takes; eauto; by (apply Wc || eexists)].
  - destruct (elevator_comes me w p t rw cw r c (Wm eq_refl)) as (es & p' & t' & E).
    eapply advances_after; [exact E|done|]. eapply (controller_takes _ _ _ _ _ _ _ _ _ Arrival); eauto; [lia|]. intros _; left; lia.
  - exists [SRider]. eexists. split; [unfold inspector_run; cbn [result_fold inspector_step]|].
    + unfold RiderTest. cbn [in_rider in_elevators]. by rewrite rider_exits.
    + cbn. lia.
Qed.

Lemma inspector_completes me n s :
  inspector_inv me s -> (16 <= inspector_rank s + n)%nat ->
  exists es s', inspector_run me es s = Ok s' /\ in_rider s' = RDone /\ in_controller s' = CDone.
Proof.
  revert s. induction n as [|n IH]; intros s Hs Hn;
    (destruct (inspector_progress me s Hs) as [[Hr Hc]|(es & s1 & E & Hlt)]; [by exists [], s|]);
    destruct (inspector_run_inv me es s Hs) as (s1' & E' & Hs1); rewrite E in E'; injection E' as <-.
  - exfalso. destruct Hs1 as [r c rev cev e p t rw cw Hst]. unfold inspector_rank in *. cbn [in_rider in_controller] in *.
    stage_cases Hst; cbn in Hlt; lia.
  - destruct (IH s1 Hs1) as (es' & s' & E' & Hd); [lia|]. exists (es ++ es'), s'. by rewrite (inspector_run_app _ _ _ _ _ E).
Qed.

(** ** The deletion of the inspector *)

(** While the rider is not done, a step of the test is a step of the inspector. *)
Lemma self_test_running me e s :
  in_rider s <> RDone \/ e <> SRider -> self_test_step me e (Running s) = (s ← inspector_step me e s; Ok (Running s)).
Proof. cbn. destruct e, (in_rider s); naive_solver. Qed.

Lemma self_test_app me es es' st st1 :
  result_fold (self_test_step me) es st = Ok st1 ->
  result_fold (self_test_step me) (es ++ es') st = result_fold (self_test_step me) es' st1.
Proof. intros H. by rewrite result_fold_app, H. Qed.

(** The states of the test: the inspector with its invariant, or deleted after the controller
    has returned. *)
Inductive self_test_inv (me : Z) : self_test -> Prop :=
  | Running_inv s : inspector_inv me s -> self_test_inv me (Running s)
  | Deleted_inv p t : self_test_inv me (Deleted CDone p t).

(** An interrupt of the bank that comes after the deletion. *)
Inductive late_interrupt : self_test -> inspector_event -> Prop :=
  | Late_interrupt c p t i w : p !! i = Some w -> w <= t -> late_interrupt (Deleted c p t) (SInterrupt i).

Lemma rider_done me s :
  inspector_inv me s -> in_rider s = RDone ->
  in_controller s = CDone
  /\ exists w p t rw cw, s = mkInspector (mkBank 1 2 [] [] [mkElevator Up true false 1 w 1 []] p t) rw cw RDone CDone.
Proof.
  intros [r c rev cev e p t rw cw Hst]. cbn. intros ->.
  inversion Hst; subst; repeat match goal with H : rider_waits _ _ |- _ => by destruct H end. eauto 10.
Qed.

Lemma self_test_step_ok me e st :
  self_test_inv me st ->
  (exists st', self_test_step me e st = Ok st' /\ self_test_inv me st')
  \/ (late_interrupt st e /\ self_test_step me e st = Err MemFault).
Proof.
  intros [s Hs|p t].
  - left. destruct (decide (in_rider s = RDone /\ e = SRider)) as [[Hr ->]|Hn].
    + cbn. rewrite Hr. eexists. split; [reflexivity|]. destruct (rider_done me s Hs Hr) as [Hc _].
      unfold ElevatorInspector_delete. rewrite Hc. constructor.
    + rewrite self_test_running by (by apply not_and_l in Hn). destruct (inspector_step_ok me e s Hs) as (s' & -> & Hs').
      eexists. split; [reflexivity|by constructor].
  - destruct e as [| |t'|i]; cbn; try (left; eexists; split; [reflexivity|constructor]).
    destruct (p !! i) as [w|] eqn:Hi; [|left; eexists; split; [reflexivity|constructor]].
    destruct (Z.leb_spec w t); [right; by split; [econstructor|]|left; eexists; split; [reflexivity|constructor]].
Qed.

(** Every run either goes on or has come to an interrupt on the deleted bank. *)
Lemma self_test_run me es st :
  self_test_inv me st ->
  match result_fold (self_test_step me) es st with
  | Ok st' => self_test_inv me st'
  | Err err => err = MemFault /\ exists es1 ev es2 st1, es = es1 ++ ev :: es2
      /\ result_fold (self_test_step me) es1 st = Ok st1 /\ late_interrupt st1 ev
  end.
Proof.
  revert st. induction es as [|ev es IH]; intros st Hst; cbn [result_fold]; [done|].
  destruct (self_test_step_ok me ev st Hst) as [(st1 & E & H1)|[Hl E]]; rewrite E; cbn [mbind result_bind].
  - specialize (IH st1 H1). destruct (result_fold _ es st1) as [st'|err]; [done|].
    destruct IH as (-> & es1 & ev' & es2 & st2 & -> & E2 & Hl). split; [done|].
    exists (ev :: es1), ev', es2, st2. split; [done|]. cbn [result_fold]. by rewrite E.
  - split; [done|]. by exists [], ev, es, st.
Qed.

(** A run of the inspector that ends with the rider done is one of the test up to there. *)
Lemma run_to_rider_done me es s s' :
  inspector_run me es s = Ok s' -> in_rider s' = RDone ->
  exists es1 s1, result_fold (self_test_step me) es1 (Running s) = Ok (Running s1) /\ in_rider s1 = RDone.
Proof.
  unfold inspector_run. revert s. induction es as [|ev es IH]; intros s E Hr; cbn [result_fold] in E.
  - injection E as ->. by exists [], s'.
  - destruct (decide (in_rider s = RDone)) as [Hd|Hd]; [by exists [], s|].
    destruct (inspector_step me ev s) as [s1|] eqn:E1; [|done]. destruct (IH s1 E Hr) as (es1 & s2 & E2 & Hr2).
    exists (ev :: es1), s2. cbn [result_fold]. rewrite self_test_running by by left. by rewrite E1.
Qed.

(** When the rider is done, the interrupts that are left can come before the deletion. *)
Lemma drain_and_delete me w p t rw cw :
  exists es t', result_fold (self_test_step me) es
      (Running (mkInspector (mkBank 1 2 [] [] [mkElevator Up true false 1 w 1 []] p t) rw cw RDone CDone))
    = Ok (Deleted CDone [] t').
Proof.
  revert t rw cw. induction p as [|w0 p IH]; intros t rw cw; [by exists [SRider], t|].
  destruct (IH (Z.max t w0) (rw + 0) (cw + 0)) as (es & t' & E).
  exists ([STime (Z.max t w0); SInterrupt 0] ++ es), t'. cbn [app result_fold].
  rewrite self_test_running by by right. cbn [inspector_step in_elevators eb_ticks].
  destruct (Z.leb_spec t (Z.max t w0)); [|lia]. cbn [mbind result_bind].
  rewrite self_test_running by by right. cbn [inspector_step set_elevators set_ticks in_elevators eb_ticks eb_pending lookup list_lookup].
  destruct (Z.leb_spec w0 (Z.max t w0)); [|lia]. exact E.
Qed.

Lemma self_test_finishes me s : inspector_inv me s ->
  exists es t', result_fold (self_test_step me) es (Running s) = Ok (Deleted CDone [] t').
Proof.
  intros Hs. destruct (inspector_completes me 16 s Hs) as (es & s' & E & Hr & _); [lia|].
  destruct (run_to_rider_done me es s s' E Hr) as (es1 & s1 & E1 & Hr1).
  pose proof (self_test_run me es1 (Running s) (Running_inv me s Hs)) as Hi. rewrite E1 in Hi. inversion Hi as [? Hs1|]; subst.
  destruct (rider_done me s1 Hs1 Hr1) as (_ & w & p & t & rw & cw & ->).
  destruct (drain_and_delete me w p t rw cw) as (es2 & t' & E2). exists (es1 ++ es2), t'. by rewrite (self_test_app _ _ _ _ _ E1).
Qed.

(** C32.  The elevator self test, whatever the order in which the rider, the controller, the clock
    and the interrupts take their turns and whatever the time it starts at.  As long as the
    inspector exists, no assertion of the test or of the elevator bank fails and nothing
    outside the bank is used; when the rider is done, so is the controller, and the elevator
    stands on floor 1 with its doors open and nobody on board; and the test can be brought to
    its end from there with no interrupt left, so that neither thread misses a wakeup.
    When the inspector has been deleted, the controller has returned.  The one way to fail
    is an interrupt of the bank that is still to come when the inspector is deleted: it
    runs on freed memory. *)
Theorem ElevatorSelfTest_completes (me t : Z) (es : list inspector_event) :
  match ElevatorSelfTest me t es with
  | Ok (Running s) =>
      (in_rider s = RDone -> in_controller s = CDone
         /\ exists w, eb_elevators (in_elevators s) = [mkElevator Up true false 1 w 1 []])
      /\ exists es' t', ElevatorSelfTest me t (es ++ es') = Ok (Deleted CDone [] t')
  | Ok (Deleted c _ _) => c = CDone
  | Err err => err = MemFault /\ exists es1 ev es2 st, es = es1 ++ ev :: es2
      /\ ElevatorSelfTest me t es1 = Ok st /\ late_interrupt st ev
  end.
Proof.
  pose proof (self_test_run me es _ (Running_inv me _ (inspector_start me t))) as H. unfold ElevatorSelfTest.
  destruct (result_fold _ es _) as [[s|c p t']|err] eqn:E; [|by inversion H|exact H]. inversion H as [? Hs|]; subst. split.
  - intros Hr. destruct (rider_done me s Hs Hr) as (Hc & w & ? & ? & ? & ? & ->). eauto.
  - destruct (self_test_finishes me s Hs) as (es' & t' & E'). exists es', t'. by rewrite (self_test_app _ _ _ _ _ E).
Qed.

(** The failure happens: if the rider has not gone to sleep when the doors open (it was
    preempted before), it takes the event, leaves and deletes the inspector while the
    interrupt for that event is still to come. *)
Example interrupt_on_deleted_bank :
  ElevatorSelfTest 7 0 [SRider; SController; SController; SController; SController; SRider; SRider; SRider; SRider;
      SController; SController; SController; STime 200; SInterrupt 3; SController; SController; SRider; SRider; SRider;
      STime 201; SInterrupt 0] = Err MemFault.
Proof. by vm_compute. Qed.
