(* ===== verification/Console.v ===== *)
(** * machine/console.cc and ConsoleTest of userprog/progtest.cc

    The serial console and the echo test that drives it.  The keyboard is the sequence of
    bytes not read from the Unix file yet, the display the sequence of bytes written.  The
    answer of [select] is an argument of [CheckCharAvail]: at the end of the keyboard file
    it can say that reading will not block, and [Read] then fails its assertion.
    [ConsoleTest] is cut at its two [P]s; the interrupts fire in any order, which includes
    the order of their times.  Semaphores are counters. *)

From S2P Require Import Prelude Interrupt.

Definition EOF : Z := -1.
Definition ConsoleTime : Z := 100.

Record Console := mkConsole {
  co_readFile : list Z;
  co_writeFile : list Z;
  co_putBusy : bool;
  co_incoming : Z;
  co_pending : list (Z * IntType);
  co_numRead : Z;
  co_numWritten : Z
}.

Definition co_schedule (now : Z) (type : IntType) (c : Console) : Console :=
  mkConsole (co_readFile c) (co_writeFile c) (co_putBusy c) (co_incoming c)
    (co_pending c ++ [(i32 (now + ConsoleTime), type)]) (co_numRead c) (co_numWritten c).

Definition Console_new (now : Z) (keyboard : list Z) : Console :=
  co_schedule now ConsoleReadInt (mkConsole keyboard [] false EOF [] 0 0).

(** The flag says whether [readHandler] is called. *)
Definition Console_CheckCharAvail (now : Z) (ready : bool) (c : Console) : result (bool * Console) :=
  let c := co_schedule now ConsoleReadInt c in
  if negb (co_incoming c =? EOF) || negb ready then Ok (false, c)
  else
    match co_readFile c with
    | [] => Err AssertFailed
    | b :: rest =>
        Ok (true, mkConsole rest (co_writeFile c) (co_putBusy c) (i8 b) (co_pending c) (i32 (co_numRead c + 1)) (co_numWritten c))
    end.

(** [writeHandler] is always called. *)
Definition Console_WriteDone (c : Console) : Console :=
  mkConsole (co_readFile c) (co_writeFile c) false (co_incoming c) (co_pending c) (co_numRead c) (i32 (co_numWritten c + 1)).

Definition Console_GetChar (c : Console) : Z * Console :=
  let ch := co_incoming c in
  (ch, mkConsole (co_readFile c) (co_writeFile c) (co_putBusy c) EOF (co_pending c) (co_numRead c) (co_numWritten c)).

Definition Console_PutChar (now ch : Z) (c : Console) : result Console :=
  ASSERT (negb (co_putBusy c)) ;;
  Ok (co_schedule now ConsoleWriteInt
        (mkConsole (co_readFile c) (co_writeFile c ++ [ch `mod` 256]) true (co_incoming c) (co_pending c) (co_numRead c) (co_numWritten c))).

(** ** The echo test *)

Inductive echo_pc := AtRead | AtWrite (ch : Z) | Returned.
#[global] Instance echo_pc_eq_dec : EqDecision echo_pc.
Proof. solve_decision. Defined.

Record Echo := mkEcho { ec_console : Console; ec_readAvail : Z; ec_writeDone : Z; ec_pc : echo_pc }.

Definition ConsoleTest_start (now : Z) (keyboard : list Z) : Echo := mkEcho (Console_new now keyboard) 0 0 AtRead.

(** The thread runs from the [P] it waits at to the next one, if the semaphore lets it. *)
Definition ConsoleTest_step (now : Z) (s : Echo) : result Echo :=
  match ec_pc s with
  | AtRead =>
      if 0 <? ec_readAvail s then
        let '(ch, c) := Console_GetChar (ec_console s) in
        c ← Console_PutChar now ch c;
        Ok (mkEcho c (ec_readAvail s - 1) (ec_writeDone s) (AtWrite ch))
      else Ok s
  | AtWrite ch =>
      if 0 <? ec_writeDone s then
        Ok (mkEcho (ec_console s) (ec_readAvail s) (ec_writeDone s - 1) (if ch =? 113 then Returned else AtRead))
      else Ok s
  | Returned => Ok s
  end.

Definition co_unschedule (k : nat) (c : Console) : Console :=
  mkConsole (co_readFile c) (co_writeFile c) (co_putBusy c) (co_incoming c) (delete k (co_pending c)) (co_numRead c) (co_numWritten c).

(** The [k]th pending interrupt fires: the handlers of the test are [V]s. *)
Definition console_interrupt (k : nat) (ready : bool) (s : Echo) : result Echo :=
  match co_pending (ec_console s) !! k with
  | Some (t, ConsoleReadInt) =>
      '(called, c) ← Console_CheckCharAvail t ready (co_unschedule k (ec_console s));
      Ok (mkEcho c (if (called : bool) then ec_readAvail s + 1 else ec_readAvail s) (ec_writeDone s) (ec_pc s))
  | Some (t, ConsoleWriteInt) =>
      Ok (mkEcho (Console_WriteDone (co_unschedule k (ec_console s))) (ec_readAvail s) (ec_writeDone s + 1) (ec_pc s))
  | _ => Ok s
  end.

Inductive echo_event := EvThread (now : Z) | EvInterrupt (k : nat) (ready : bool).

Definition echo_step (e : echo_event) (s : Echo) : result Echo :=
  match e with EvThread now => ConsoleTest_step now s | EvInterrupt k ready => console_interrupt k ready s end.

Definition echo_run (es : list echo_event) (s : Echo) : result Echo := result_fold echo_step es s.

(** ** The invariant of the echo *)

Definition buffered_char (c : Console) : list Z := if decide (co_incoming c = EOF) then [] else [co_incoming c `mod` 256].

Definition output_ok (pc : echo_pc) (out : list Z) : Prop :=
  match pc with
  | AtRead => 113 ∉ out
  | AtWrite ch => exists p, out = p ++ [(ch `mod` 256)] /\ (113 ∉ p) /\ -128 <= ch < 128
  | Returned => exists p, out = p ++ [113] /\ 113 ∉ p
  end.

Definition writing (s : Echo) : Prop :=
  match ec_pc s with
  | AtWrite _ => ec_writeDone s = (if co_putBusy (ec_console s) then 0 else 1)
  | _ => ec_writeDone s = 0 /\ co_putBusy (ec_console s) = false
  end.

Record echo_ok (kb : list Z) (s : Echo) : Prop := {
  eo_text : co_writeFile (ec_console s) ++ buffered_char (ec_console s) ++ co_readFile (ec_console s) = kb;
  eo_char : -128 <= co_incoming (ec_console s) < 128;
  eo_avail : ec_readAvail s = Z.of_nat (length (buffered_char (ec_console s)));
  eo_pending : (snd <$> co_pending (ec_console s)) ≡ₚ
    ConsoleReadInt :: (if co_putBusy (ec_console s) then [ConsoleWriteInt] else []);
  eo_writing : writing s;
  eo_output : output_ok (ec_pc s) (co_writeFile (ec_console s))
}.

(** The keyboard holds bytes and none of them is the 255 that reads as [EOF]. *)
Definition clean (kb : list Z) : Prop := Forall (fun b => 0 <= b < 255) kb.

Definition ewp (kb : list Z) (e : echo_event) (s : Echo) (r : result Echo) : Prop :=
  match r with
  | Ok s' => echo_ok kb s'
  | Err er => er = AssertFailed /\ co_readFile (ec_console s) = [] /\ exists k, e = EvInterrupt k true
  end.

Lemma i8_byte b : 0 <= b < 255 -> i8 b <> EOF /\ -128 <= i8 b < 128 /\ i8 b `mod` 256 = b.
Proof. unfold EOF. intros. split; [|split]; wrap_lia. Qed.

Lemma unscheduled k t ty (c : Console) l :
  co_pending c !! k = Some (t, ty) -> (snd <$> co_pending c) ≡ₚ l ->
  ty :: (snd <$> delete k (co_pending c)) ≡ₚ l.
Proof. intros Hk Hl. rewrite <-Hl. symmetry. by rewrite (delete_Permutation _ _ _ Hk) at 1. Qed.

Lemma buffered_none c : co_incoming c = EOF -> buffered_char c = [].
Proof. intros H. unfold buffered_char. by rewrite decide_True. Qed.

Lemma buffered_some c b : co_incoming c = i8 b -> 0 <= b < 255 -> buffered_char c = [b].
Proof.
  intros H Hb. destruct (i8_byte b Hb) as (Hn & _ & Hm). unfold buffered_char. by rewrite H, decide_False, Hm.
Qed.

Lemma ConsoleTest_step_ok kb now s : echo_ok kb s -> ewp kb (EvThread now) s (ConsoleTest_step now s).
Proof.
  intros [Ht Hc Ha Hp Hw Ho]. unfold ConsoleTest_step, writing in *. destruct (ec_pc s) as [|ch|] eqn:Hpc.
  - destruct (Z.ltb_spec 0 (ec_readAvail s)) as [Hpos|]; [|by constructor; unfold writing; rewrite ?Hpc].
    destruct Hw as [Hwd Hbusy]. unfold Console_PutChar. cbn [Console_GetChar co_putBusy]. rewrite Hbusy. cbn.
    unfold buffered_char in *. destruct (decide (co_incoming (ec_console s) = EOF)) as [|Hne]; [cbn in *; lia|].
    rewrite Hbusy in Hp. constructor; cbn; try done; try (unfold EOF; lia).
    + by rewrite <-app_assoc.
    + rewrite buffered_none by done. cbn in Ha |- *. lia.
    + rewrite fmap_app, Hp. done.
    + by eexists.
  - destruct (Z.ltb_spec 0 (ec_writeDone s)) as [Hpos|]; [|by constructor; unfold writing; rewrite ?Hpc].
    destruct (co_putBusy (ec_console s)) eqn:Hbusy; [lia|]. destruct Ho as (p & Hout & Hq & Hr).
    destruct (Z.eqb_spec ch 113) as [->|Hne]; constructor; unfold writing; cbn; rewrite ?Hbusy; try done; try lia.
    + by exists p.
    + rewrite Hout. rewrite elem_of_app, list_elem_of_singleton. intros [?|E]; [done|].
      revert E. clear -Hr Hne. intros. Z.div_mod_to_equations. lia.
  - constructor; unfold writing; rewrite ?Hpc; done.
Qed.

Lemma console_interrupt_ok kb k ready s :
  clean kb -> echo_ok kb s -> ewp kb (EvInterrupt k ready) s (console_interrupt k ready s).
Proof.
  intros Hcl Hok. pose proof Hok as [Ht Hc Ha Hp Hw Ho]. unfold console_interrupt.
  destruct (co_pending (ec_console s) !! k) as [[t ty]|] eqn:Hk; [|done].
  pose proof (unscheduled _ _ _ _ _ Hk Hp) as Hu. destruct ty; try done.
  - destruct (co_putBusy (ec_console s)) eqn:Hb.
    + rewrite Permutation_swap in Hu. apply Permutation_cons_inv in Hu. unfold writing in Hw.
      destruct (ec_pc s) eqn:Hpc; [destruct Hw; congruence| |destruct Hw; congruence].
      constructor; unfold writing; cbn; rewrite ?Hpc; try done. rewrite Hb in Hw. by rewrite Hw.
    + exfalso. assert (Hin : ConsoleWriteInt ∈ [ConsoleReadInt]) by (rewrite <-Hu; constructor).
      by apply list_elem_of_singleton in Hin.
  - apply Permutation_cons_inv in Hu. unfold Console_CheckCharAvail. cbn [co_schedule co_incoming co_unschedule co_readFile].
    destruct (Z.eqb_spec (co_incoming (ec_console s)) EOF) as [He|Hne]; [|].
    + destruct ready; cbn [negb orb].
      * destruct (co_readFile (ec_console s)) as [|b rest] eqn:Hrest; cbn [mbind result_bind].
        -- cbn. repeat split; [done|by eexists].
        -- rewrite buffered_none in Ht, Ha by done. cbn in Ht, Ha.
           assert (Hb : 0 <= b < 255) by (rewrite <-Ht in Hcl; apply Forall_app in Hcl as [_ Hcl]; by inversion Hcl).
           destruct (i8_byte b Hb) as (Hn & Hr & Hm).
           constructor; rewrite ?(buffered_some _ b) by done; try done; cbn [co_incoming ec_readAvail ec_console length]; try lia; cbn.
           rewrite fmap_app, Hu. cbn. by rewrite (Permutation_app_comm _ [_]).
      * constructor; try done. cbn. rewrite fmap_app, Hu. cbn. by rewrite (Permutation_app_comm _ [_]).
    + constructor; try done. cbn. rewrite fmap_app, Hu. cbn. by rewrite (Permutation_app_comm _ [_]).
Qed.

Lemma echo_step_ok kb e s : clean kb -> echo_ok kb s -> ewp kb e s (echo_step e s).
Proof. intros Hc Hs. destruct e; [by apply ConsoleTest_step_ok|by apply console_interrupt_ok]. Qed.

Lemma echo_start_ok kb now : clean kb -> echo_ok kb (ConsoleTest_start now kb).
Proof.
  intros Hc. constructor; try done; rewrite ?buffered_none by done; cbn; try done. apply not_elem_of_nil.
Qed.

Lemma echo_run_ok kb es : forall s s', clean kb -> echo_ok kb s -> echo_run es s = Ok s' -> echo_ok kb s'.
Proof.
  unfold echo_run. induction es as [|e es IH]; intros s s' Hc Hs Hr; cbn in Hr; [by simplify_eq|].
  pose proof (echo_step_ok kb e s Hc Hs) as Hw. destruct (echo_step e s) as [s1|] eqn:He; [|done]. by apply (IH s1).
Qed.

(** ** Progress of the echo *)

Definition echo_measure (s : Echo) : nat :=
  (4 * length (co_readFile (ec_console s)) + 3 * length (buffered_char (ec_console s))
   + match ec_pc s with AtWrite _ => if co_putBusy (ec_console s) then 2 else 1 | _ => 0 end)%nat.

Lemma pending_at (c : Console) l ty :
  (snd <$> co_pending c) ≡ₚ l -> ty ∈ l -> exists k t, co_pending c !! k = Some (t, ty).
Proof.
  intros Hl Hin. rewrite <-Hl in Hin. apply list_elem_of_lookup in Hin as [k Hk].
  rewrite list_lookup_fmap in Hk. destruct (co_pending c !! k) as [[t ty']|] eqn:E; [|done].
  cbn in Hk. simplify_eq. by exists k, t.
Qed.

Lemma echo_progress kb s :
  clean kb -> 113 ∈ kb -> echo_ok kb s -> ec_pc s <> Returned ->
  exists e s', echo_step e s = Ok s' /\ (echo_measure s' < echo_measure s)%nat.
Proof.
  intros Hcl Hq Hok Hpc. pose proof Hok as [Ht Hc Ha Hp Hw Ho]. unfold writing in Hw.
  destruct (ec_pc s) as [|ch|] eqn:Epc; [| |done].
  - destruct Hw as [Hwd Hb]. destruct (decide (co_incoming (ec_console s) = EOF)) as [He|Hne].
    + rewrite (buffered_none _ He) in Ht, Ha. destruct (co_readFile (ec_console s)) as [|b rest] eqn:Hr.
      { rewrite <-Ht, app_nil_r in Hq. done. }
      destruct (pending_at _ _ ConsoleReadInt Hp) as (k & t & Hk); [constructor|].
      exists (EvInterrupt k true). cbn [echo_step]. unfold console_interrupt, Console_CheckCharAvail. rewrite Hk.
      cbn [co_schedule co_unschedule co_incoming co_readFile]. rewrite He, Hr. cbn [EOF Z.eqb negb orb mbind result_bind].
      eexists. split; [done|]. unfold echo_measure. cbn [ec_console co_readFile ec_pc co_putBusy].
      assert (Hb' : 0 <= b < 255) by (rewrite <-Ht in Hcl; apply Forall_app in Hcl as [_ Hcl]; by inversion Hcl).
      rewrite (buffered_some _ b), (buffered_none _ He), Hr, Epc by done. cbn. lia.
    + exists (EvThread 0). cbn [echo_step]. unfold ConsoleTest_step, Console_PutChar. rewrite Epc.
      assert (Hbuf : length (buffered_char (ec_console s)) = 1%nat) by (unfold buffered_char; by rewrite decide_False).
      rewrite Hbuf in Ha. rewrite Ha. cbn [Console_GetChar co_putBusy]. rewrite Hb. cbn.
      eexists. split; [done|]. unfold echo_measure. rewrite Hbuf, Epc, buffered_none by done. cbn. lia.
  - destruct (co_putBusy (ec_console s)) eqn:Hb.
    + destruct (pending_at _ _ ConsoleWriteInt Hp) as (k & t & Hk); [do 2 constructor|].
      exists (EvInterrupt k true). cbn [echo_step]. unfold console_interrupt. rewrite Hk. eexists. split; [done|].
      unfold echo_measure. cbn. rewrite Epc, Hb. unfold buffered_char. cbn. lia.
    + exists (EvThread 0). cbn [echo_step]. unfold ConsoleTest_step. rewrite Epc, Hw. eexists. split; [done|].
      unfold echo_measure. rewrite Epc, Hb. cbn [ec_pc ec_console]. destruct (ch =? 113); lia.
Qed.

Lemma echo_completes kb n : forall s,
  clean kb -> 113 ∈ kb -> echo_ok kb s -> (echo_measure s <= n)%nat ->
  exists es s', (length es <= n)%nat /\ echo_run es s = Ok s' /\ ec_pc s' = Returned.
Proof.
  induction n as [|n IH]; intros s Hcl Hq Hok Hn.
  all: destruct (decide (ec_pc s = Returned)) as [Hr|Hr]; [exists [], s; cbn; split; [lia|done]|].
  all: destruct (echo_progress kb s Hcl Hq Hok Hr) as (e & s1 & He & Hm); [try lia].
  pose proof (echo_step_ok kb e s Hcl Hok) as Hw. rewrite He in Hw.
  destruct (IH s1) as (es & s' & Hl & Hrun & Hpc); [done|done|done|lia|].
  exists (e :: es), s'. unfold echo_run in *. cbn. rewrite He. split; [lia|done].
Qed.

Lemma echo_measure_bound kb s : echo_ok kb s -> (echo_measure s <= 4 * length kb)%nat.
Proof.
  intros [<- _ _ _ _ Ho]. unfold echo_measure. rewrite !length_app. destruct (ec_pc s); [lia| |lia].
  destruct Ho as (p & -> & _). rewrite length_app. cbn. destruct (co_putBusy _); lia.
Qed.

(** C33.  The echo test, whatever the interleaving of its thread with the interrupts of the
    console, for a keyboard that never delivers the byte 255: the display shows a prefix of
    what was typed; the test has returned only after it has shown the first [q]; the only
    failure is a read past the end of the keyboard file (so the device is never busy when
    [PutChar] is called); and when a [q] is typed, the test can always still be completed,
    with at most four more events per character. *)
Theorem console_echo (now : Z) (kb : list Z) (es : list echo_event) (s : Echo) :
  clean kb -> echo_run es (ConsoleTest_start now kb) = Ok s ->
  co_writeFile (ec_console s) `prefix_of` kb
  /\ (ec_pc s = Returned -> exists p, co_writeFile (ec_console s) = p ++ [113] /\ 113 ∉ p)
  /\ (forall e er, echo_step e s = Err er ->
        er = AssertFailed /\ co_readFile (ec_console s) = [] /\ exists k, e = EvInterrupt k true)
  /\ (113 ∈ kb -> exists es' s', (length es' <= 4 * length kb)%nat /\ echo_run es' s = Ok s' /\ ec_pc s' = Returned).
Proof.
  intros Hc Hr. pose proof (echo_run_ok kb es _ s Hc (echo_start_ok kb now Hc) Hr) as Hok. split; [|split; [|split]].
  - exists (buffered_char (ec_console s) ++ co_readFile (ec_console s)). symmetry. apply Hok.
  - intros Hpc. pose proof (eo_output _ _ Hok) as Ho. by rewrite Hpc in Ho.
  - intros e er He. pose proof (echo_step_ok kb e s Hc Hok) as Hw. by rewrite He in Hw.
  - intros Hq. apply (echo_completes kb); try done. by apply echo_measure_bound.
Qed.

(** "hiq" is echoed. *)
Lemma console_echo_witness :
  let s := mkEcho (mkConsole [113] [104] true 105 [(105, ConsoleWriteInt); (300, ConsoleReadInt)] 2 0) 1 0 (AtWrite 104) in
  co_writeFile (ec_console s) `prefix_of` [104; 105; 113]
  /\ (ec_pc s = Returned -> exists p, co_writeFile (ec_console s) = p ++ [113] /\ 113 ∉ p)
  /\ (forall e er, echo_step e s = Err er ->
        er = AssertFailed /\ co_readFile (ec_console s) = [] /\ exists k, e = EvInterrupt k true)
  /\ (113 ∈ [104; 105; 113] -> exists es' s', (length es' <= 12)%nat /\ echo_run es' s = Ok s' /\ ec_pc s' = Returned).
Proof.
  apply (console_echo 0 [104; 105; 113] [EvInterrupt 0 true; EvThread 5; EvInterrupt 0 true]).
  - repeat constructor; lia.
  - vm_compute. reflexivity.
Defined.

(** The byte 255 reads as [EOF], so the buffer looks empty after it has been read: the next
    character takes its place and is echoed first. *)
Example console_swaps_255 :
  exists s, echo_run [EvInterrupt 0 true; EvInterrupt 0 true; EvThread 0; EvInterrupt 1 true; EvThread 0; EvThread 0]
              (ConsoleTest_start 0 [255; 65; 113]) = Ok s
  /\ co_writeFile (ec_console s) = [65; 255].
Proof. eexists. split; vm_compute; reflexivity. Qed.
