(* ===== verification/Main.v ===== *)
(** * threads/main.cc, the options of threads/system.cc: the command line

    [main] and [Initialize] both walk through the whole command line, each picking the options
    it knows and skipping the rest word by word.  What [main] calls is collected as a list of
    [action]s, in order.  A user program that is started, the console test and the network test
    never come back to [main] and end the list; [StartProcess] does come back when the file
    cannot be opened, which the parameter [opens] of the model decides from the calls made
    before.  Which options exist depends on the macros the makefiles define ([build]).

    [spelled] and [cmdline] are the usage text as a grammar, and [main_loop_cmdline] shows that
    the loop performs what the grammar says; [threads_loop_default] and [main_network_reliability] are
    about words that are read twice. *)

From Stdlib Require Import Ascii.
From S2P Require Import Prelude.

Local Open Scope string_scope.
Local Open Scope Z_scope.

Record build := mkBuild { b_THREADS : bool; b_USER_PROGRAM : bool; b_FILESYS_NEEDED : bool; b_FILESYS : bool; b_NETWORK : bool }.

(** DEFINES of the makefiles in threads/, userprog/ and vm/, filesys/ and network/. *)
Definition threads_build : build := mkBuild true false false false false.
Definition userprog_build : build := mkBuild false true true false false.
Definition filesys_build : build := mkBuild false true true true false.
Definition network_build : build := mkBuild false true true true true.

(** ** [atoi] *)

Definition digit_of (c : ascii) : option Z :=
  let n := Z.of_nat (nat_of_ascii c) - 48 in if (0 <=? n) && (n <=? 9) then Some n else None.

Fixpoint atoi_digits (acc : Z) (s : string) : Z :=
  match s with
  | "" => acc
  | String c s => match digit_of c with Some d => atoi_digits (10 * acc + d) s | None => acc end
  end.

Definition isspace (c : ascii) : bool :=
  let n := nat_of_ascii c in (n =? 32)%nat || ((9 <=? n)%nat && (n <=? 13)%nat).

(** The value; beyond the range of [int] the C function is undefined. *)
Fixpoint atoi (s : string) : Z :=
  match s with
  | "" => 0
  | String c s' =>
      if isspace c then atoi s'
      else if Ascii.eqb c "-" then - atoi_digits 0 s'
      else if Ascii.eqb c "+" then atoi_digits 0 s' else atoi_digits 0 s
  end.

(** ** [Initialize]: the options *)

Record options := mkOptions {
  o_debugArgs : string;
  o_seed : option Z;            (* [RandomInit], and [randomYield] *)
  o_debugUserProg : bool;
  o_format : bool;
  o_rely : string;              (* argument of [atof] *)
  o_netname : Z
}.

Definition no_options : options := mkOptions "" None false false "1" 0.

(** [*(argv + n)] *)
Definition arg (argv : list string) (n : nat) : result string := deref (argv !! n).

(** One round of the loop of [Initialize]: the options and [argCount]. *)
Definition Initialize_round (b : build) (argv : list string) (o : options) : result (options * nat) :=
  let argc := Z.of_nat (length argv) in
  word ← arg argv 0;
  '(o, argCount) ←
    (if (word =? "-d")%string then
       if argc =? 1 then Ok (mkOptions "+" (o_seed o) (o_debugUserProg o) (o_format o) (o_rely o) (o_netname o), 1%nat)
       else a ← arg argv 1; Ok (mkOptions a (o_seed o) (o_debugUserProg o) (o_format o) (o_rely o) (o_netname o), 2%nat)
     else if (word =? "-rs")%string then
       _ ← ASSERT (1 <? argc); a ← arg argv 1;
       Ok (mkOptions (o_debugArgs o) (Some (atoi a)) (o_debugUserProg o) (o_format o) (o_rely o) (o_netname o), 2%nat)
     else Ok (o, 1%nat));
  let o := if b_USER_PROGRAM b && (word =? "-s")%string
           then mkOptions (o_debugArgs o) (o_seed o) true (o_format o) (o_rely o) (o_netname o) else o in
  let o := if b_FILESYS_NEEDED b && (word =? "-f")%string
           then mkOptions (o_debugArgs o) (o_seed o) (o_debugUserProg o) true (o_rely o) (o_netname o) else o in
  if b_NETWORK b && (word =? "-l")%string then
    _ ← ASSERT (1 <? argc); a ← arg argv 1;
    Ok (mkOptions (o_debugArgs o) (o_seed o) (o_debugUserProg o) (o_format o) a (o_netname o), 2%nat)
  else if b_NETWORK b && (word =? "-m")%string then
    _ ← ASSERT (1 <? argc); a ← arg argv 1;
    Ok (mkOptions (o_debugArgs o) (o_seed o) (o_debugUserProg o) (o_format o) (o_rely o) (atoi a), 2%nat)
  else Ok (o, argCount).

(** The loop, from the word after the name of the program on; [n] rounds are left. *)
Fixpoint Initialize_options (n : nat) (b : build) (argv : list string) (o : options) : result options :=
  match argv with
  | [] => Ok o
  | _ =>
      match n with
      | O => Err OutOfFuel
      | S n => '(o, argCount) ← Initialize_round b argv o; Initialize_options n b (drop argCount argv) o
      end
  end.

(** ** [main] *)

Inductive action :=
  | ACopyright
  | AStartProcess (file : string)
  | AConsoleTest (inout : option (string * string))
  | ACopy (from to : string)
  | APrint (file : string)
  | ARemove (file : string)
  | AList
  | APrintAll
  | APerformanceTest
  | AMailTest (far : Z).

#[export] Instance action_eq_dec : EqDecision action.
Proof. solve_decision. Defined.

(** Calls that do not return to [main]. *)
Definition ends (opens : list action -> string -> bool) (done : list action) (a : action) : bool :=
  match a with
  | AStartProcess f => opens done f
  | AConsoleTest _ | AMailTest _ => true
  | _ => false
  end.

(** One round of the second loop: the calls and [argCount].  The tests of the word exclude
    each other, so that a call that ends the program is the last of its round. *)
Definition main_round (b : build) (argv : list string) : result (list action * nat) :=
  let argc := Z.of_nat (length argv) in
  word ← arg argv 0;
  let copyright := if (word =? "-z")%string then [ACopyright] else [] in
  '(user, argCount) ←
    (if b_USER_PROGRAM b && (word =? "-x")%string then
       _ ← ASSERT (1 <? argc); a ← arg argv 1; Ok ([AStartProcess a], 2%nat)
     else if b_USER_PROGRAM b && (word =? "-c")%string then
       if argc =? 1 then Ok ([AConsoleTest None], 1%nat)
       else _ ← ASSERT (2 <? argc); a ← arg argv 1; a' ← arg argv 2; Ok ([AConsoleTest (Some (a, a'))], 3%nat)
     else Ok ([], 1%nat));
  '(files, argCount) ←
    (if negb (b_FILESYS b) then Ok ([], argCount)
     else if (word =? "-cp")%string then
       _ ← ASSERT (2 <? argc); a ← arg argv 1; a' ← arg argv 2; Ok ([ACopy a a'], 3%nat)
     else if (word =? "-p")%string then _ ← ASSERT (1 <? argc); a ← arg argv 1; Ok ([APrint a], 2%nat)
     else if (word =? "-r")%string then _ ← ASSERT (1 <? argc); a ← arg argv 1; Ok ([ARemove a], 2%nat)
     else if (word =? "-l")%string then Ok ([AList], argCount)
     else if (word =? "-D")%string then Ok ([APrintAll], argCount)
     else if (word =? "-t")%string then Ok ([APerformanceTest], argCount)
     else Ok ([], argCount));
  '(net, argCount) ←
    (if b_NETWORK b && (word =? "-o")%string then
       _ ← ASSERT (1 <? argc); a ← arg argv 1; Ok ([AMailTest (atoi a)], 2%nat)
     else Ok ([], argCount));
  Ok ((copyright ++ user ++ files ++ net)%list, argCount).

(** The second loop, after the calls [done]; at most [n] rounds. *)
Fixpoint main_loop (n : nat) (b : build) (opens : list action -> string -> bool) (argv : list string)
    (done : list action) : result (list action) :=
  match argv with
  | [] => Ok done
  | _ =>
      match n with
      | O => Err OutOfFuel
      | S n =>
          '(acts, argCount) ← main_round b argv;
          if existsb (ends opens done) acts then Ok (done ++ acts)%list
          else main_loop n b opens (drop argCount argv) (done ++ acts)%list
      end
  end.

(** The first loop of [main] in the build with THREADS: [testnum]. *)
Definition char_at (s : string) (n : nat) : option ascii := String.get n s.

Fixpoint threads_loop (n : nat) (argv : list string) (testnum : Z) : result Z :=
  match argv with
  | [] => Ok testnum
  | word :: rest =>
      match n with
      | O => Err OutOfFuel
      | S n =>
          _ ← deref (char_at word 0);     (* [argv[0][1]] is past the end of an empty word *)
          if decide (char_at word 1 = Some "q"%char) then
            a ← arg argv 1; threads_loop n (drop 2 argv) (atoi a)
          else if decide (char_at word 1 = Some "T"%char) then
            threads_loop n rest (if decide (char_at word 2 = Some "S"%char) then 3 else testnum)
          else threads_loop n rest 1
      end
  end.

(** [ThreadTest]: the test that is run. *)
Inductive thread_test :=
  | TThreadTest1 | TThreadCountLimit | TThreadPriority | TProducerConsumer | TProducerConsumer1 | TBarrier | TReadWrite | TNone.

Definition ThreadTest_switch (testnum : Z) : thread_test :=
  if testnum =? 1 then TThreadTest1 else if testnum =? 2 then TThreadCountLimit else if testnum =? 3 then TThreadPriority
  else if testnum =? 4 then TProducerConsumer else if testnum =? 5 then TProducerConsumer1 else if testnum =? 6 then TBarrier
  else if testnum =? 7 then TReadWrite else TNone.

(** [main] after the name of the program: options, test of the threads, calls.  With
    THREADS the first loop has used up [argc], and the second makes no round. *)
Definition main (b : build) (opens : list action -> string -> bool) (args : list string) : result (options * option thread_test * list action) :=
  o ← Initialize_options (length args) b args no_options;
  if b_THREADS b then testnum ← threads_loop (length args) args 1; Ok (o, Some (ThreadTest_switch testnum), [])
  else acts ← main_loop (length args) b opens args []; Ok (o, None, acts).

(** ** The grammar of the calls *)

(** The words that make [main] do one call, from the usage text at the top of main.cc. *)
Inductive spelled (b : build) : list string -> action -> Prop :=
  | sp_z : spelled b ["-z"] ACopyright
  | sp_x f : b_USER_PROGRAM b = true -> spelled b ["-x"; f] (AStartProcess f)
  | sp_c i o : b_USER_PROGRAM b = true -> spelled b ["-c"; i; o] (AConsoleTest (Some (i, o)))
  | sp_cp u f : b_FILESYS b = true -> spelled b ["-cp"; u; f] (ACopy u f)
  | sp_p f : b_FILESYS b = true -> spelled b ["-p"; f] (APrint f)
  | sp_r f : b_FILESYS b = true -> spelled b ["-r"; f] (ARemove f)
  | sp_l : b_FILESYS b = true -> spelled b ["-l"] AList
  | sp_D : b_FILESYS b = true -> spelled b ["-D"] APrintAll
  | sp_t : b_FILESYS b = true -> spelled b ["-t"] APerformanceTest
  | sp_o m : b_NETWORK b = true -> spelled b ["-o"; m] (AMailTest (atoi m)).

(** Words [main] skips: all that are not an option of its own in this build. *)
Definition skipped (b : build) (w : string) : bool :=
  negb ((w =? "-z")%string
        || b_USER_PROGRAM b && ((w =? "-x") || (w =? "-c"))%string
        || b_FILESYS b && ((w =? "-cp") || (w =? "-p") || (w =? "-r") || (w =? "-l") || (w =? "-D") || (w =? "-t"))%string
        || b_NETWORK b && (w =? "-o")%string).

(** A command line and the calls it stands for, after the calls [done]. *)
Inductive cmdline (b : build) (opens : list action -> string -> bool) : list string -> list action -> list action -> Prop :=
  | cl_nil done : cmdline b opens [] done done
  | cl_skip w ws done acts : skipped b w = true -> cmdline b opens ws done acts -> cmdline b opens (w :: ws) done acts
  | cl_end us a ws done : spelled b us a -> ends opens done a = true -> cmdline b opens (us ++ ws)%list done (done ++ [a])%list
  | cl_act us a ws done acts :
      spelled b us a -> ends opens done a = false -> cmdline b opens ws (done ++ [a])%list acts ->
      cmdline b opens (us ++ ws)%list done acts
  | cl_console done : b_USER_PROGRAM b = true -> cmdline b opens ["-c"] done (done ++ [AConsoleTest None])%list.

(** ** The loop follows the grammar *)

(** Decides the comparisons with [argc] once the first words are known. *)
Ltac argc :=
  repeat match goal with
         | |- context [?x <? ?y] => rewrite (proj2 (Z.ltb_lt x y)) by lia
         | |- context [?x =? ?y] => rewrite (proj2 (Z.eqb_neq x y)) by lia
         end.

Lemma main_round_spelled b us a ws :
  spelled b us a -> main_round b (us ++ ws)%list = Ok ([a], length us).
Proof.
  destruct 1; unfold main_round, arg; simpl;
    destruct (b_USER_PROGRAM b), (b_FILESYS b), (b_NETWORK b); try discriminate; simpl; by argc.
Qed.

Lemma main_round_skipped b w ws : skipped b w = true -> main_round b (w :: ws) = Ok ([], 1%nat).
Proof.
  unfold skipped, main_round, arg. intros Hs. simpl.
  destruct (b_USER_PROGRAM b), (b_FILESYS b), (b_NETWORK b); simpl in *;
    repeat (case_match; simpl in *; try discriminate; simplify_eq); done.
Qed.

Lemma not_skipped b w :
  skipped b w = false ->
  w = "-z" \/ b_USER_PROGRAM b = true /\ (w = "-x" \/ w = "-c") \/
  b_FILESYS b = true /\ (w = "-cp" \/ w = "-p" \/ w = "-r" \/ w = "-l" \/ w = "-D" \/ w = "-t") \/
  b_NETWORK b = true /\ w = "-o".
Proof.
  unfold skipped. rewrite negb_false_iff, !orb_true_iff, !andb_true_iff, !orb_true_iff, !String.eqb_eq. tauto.
Qed.

Lemma main_round_inv b w ws acts k :
  main_round b (w :: ws) = Ok (acts, k) ->
  (skipped b w = true /\ acts = [] /\ k = 1%nat) \/
  (exists us a, spelled b us a /\ (w :: ws = us ++ drop k (w :: ws))%list /\ acts = [a]) \/
  (b_USER_PROGRAM b = true /\ w = "-c" /\ ws = [] /\ acts = [AConsoleTest None]).
Proof.
  destruct (skipped b w) eqn:Hs.
  { rewrite (main_round_skipped _ _ _ Hs). intros [= <- <-]. by left. }
  intros H.
  right. revert H. apply not_skipped in Hs. unfold main_round, arg.
  destruct_or!; destruct_and?; destruct_or?; subst; simpl;
    destruct ws as [|x [|y r]]; destruct (b_USER_PROGRAM b) eqn:?, (b_FILESYS b) eqn:?, (b_NETWORK b) eqn:?;
    try discriminate; simpl; argc; intros Hr; simplify_eq/=;
    first [right; done | left; eexists _, _; repeat split; by constructor].
Qed.

Lemma spelled_nonempty b us a : spelled b us a -> exists w us', us = w :: us'.
Proof. destruct 1; eauto. Qed.

(** The loop performs what the command line stands for, in at most one round for each word. *)
Lemma main_loop_cmdline b opens ws done acts :
  cmdline b opens ws done acts -> forall n, (length ws <= n)%nat -> main_loop n b opens ws done = Ok acts.
Proof.
  induction 1 as [done|w ws done acts Hw Hl IH|us a ws done Hs He|us a ws done acts Hs He Hl IH|done Hu];
    intros n Hn.
  - by destruct n.
  - destruct n as [|n]; simpl in *; [lia|]. rewrite (main_round_skipped _ _ _ Hw). simpl.
    rewrite app_nil_r. apply IH. lia.
  - destruct (spelled_nonempty _ _ _ Hs) as (w & us' & Hus). pose proof (main_round_spelled _ _ _ ws Hs) as Hr.
    subst us. destruct n as [|n]; simpl in *; [lia|]. rewrite Hr. simpl. by rewrite He.
  - destruct (spelled_nonempty _ _ _ Hs) as (w & us' & Hus). pose proof (main_round_spelled _ _ _ ws Hs) as Hr.
    subst us. destruct n as [|n]; simpl in *; [lia|]. rewrite Hr. simpl. rewrite He. simpl.
    rewrite drop_app_length. apply IH. rewrite length_app in Hn. lia.
  - destruct n as [|n]; simpl in *; [lia|]. unfold main_round, arg. simpl. rewrite Hu. simpl.
    by destruct (b_FILESYS b), (b_NETWORK b).
Qed.

(** Conversely, a command line on which the loop succeeds is one of the grammar. *)
Lemma main_loop_inv b opens n ws done acts :
  main_loop n b opens ws done = Ok acts -> cmdline b opens ws done acts.
Proof.
  revert ws done. induction n as [|n IH]; intros [|w ws] done H; simpl in H; simplify_eq.
  1-2: constructor.
  apply bind_Ok_inv in H as ([l k] & Hr & H).
  destruct (main_round_inv _ _ _ _ _ Hr) as [(Hs & -> & ->)|[(us & a & Hs & Hws & ->)|(Hu & -> & -> & ->)]]; simpl in H.
  - rewrite app_nil_r in H. apply cl_skip; [done|]. by apply IH.
  - rewrite Hws. destruct (ends opens done a) eqn:He; simpl in H; simplify_eq; [by apply cl_end|].
    eapply cl_act; [done..|]. by apply IH.
  - simplify_eq. by apply cl_console.
Qed.

Lemma main_round_error b w ws e : main_round b (w :: ws) = Err e -> e = AssertFailed.
Proof.
  destruct (skipped b w) eqn:Hs; [by rewrite (main_round_skipped _ _ _ Hs)|].
  apply not_skipped in Hs. unfold main_round, arg.
  destruct_or!; destruct_and?; destruct_or?; subst; simpl;
    destruct ws as [|x [|y r]]; destruct (b_USER_PROGRAM b) eqn:?, (b_FILESYS b) eqn:?, (b_NETWORK b) eqn:?;
    try discriminate; simpl; argc; intros Hr; by simplify_eq/=.
Qed.

(** With a round for each word the loop does not run out of rounds, and the only way for it to
    fail is an assertion: an option without its arguments. *)
Lemma main_loop_total b opens n ws done :
  (length ws <= n)%nat ->
  (exists acts, main_loop n b opens ws done = Ok acts) \/ main_loop n b opens ws done = Err AssertFailed.
Proof.
  revert ws done. induction n as [|n IH]; intros [|w ws] done Hn; simpl in *; [eauto|lia|eauto|].
  destruct (main_round b (w :: ws)) as [[l k]|e] eqn:Hr; simpl.
  2: { apply main_round_error in Hr as ->. by right. }
  destruct (existsb _ l); [eauto|]. apply IH.
  destruct (main_round_inv _ _ _ _ _ Hr) as [(_ & _ & ->)|[(us & a & Hs & Hws & _)|(_ & -> & -> & _)]].
  - simpl. rewrite drop_0. lia.
  - destruct (spelled_nonempty _ _ _ Hs) as (w' & us' & ->). apply (f_equal length) in Hws.
    rewrite length_app in Hws. simpl in Hws |- *. lia.
  - rewrite length_drop. simpl in *. destruct k; simpl; [|lia].
    exfalso. revert Hr. unfold main_round, arg. simpl.
    destruct (b_USER_PROGRAM b), (b_FILESYS b), (b_NETWORK b); done.
Qed.

(** ** The options *)

(** A round uses up a word or more, none beyond the last, or fails by an assertion. *)
Definition round_ok (ws : list string) (r : result (options * nat)) : Prop :=
  match r with Ok (_, k) => (1 <= k <= length ws)%nat | Err e => e = AssertFailed end.

Lemma Initialize_round_ok b w ws o : round_ok (w :: ws) (Initialize_round b (w :: ws) o).
Proof.
  unfold Initialize_round, arg. destruct ws as [|x ws]; simpl; argc; simpl;
    destruct (w =? "-d")%string, (w =? "-rs")%string; simpl; try done;
    repeat case_match; simpl; try done; lia.
Qed.

Lemma Initialize_options_total n b ws o :
  (length ws <= n)%nat ->
  (exists o', Initialize_options n b ws o = Ok o') \/ Initialize_options n b ws o = Err AssertFailed.
Proof.
  revert ws o. induction n as [|n IH]; intros [|w ws] o Hn; simpl in *; [eauto|lia|eauto|].
  pose proof (Initialize_round_ok b w ws o) as Hr.
  destruct (Initialize_round b (w :: ws) o) as [[o' k]|e]; simpl in *; [|subst; by right].
  apply IH. rewrite length_drop. simpl. lia.
Qed.

(** ** Words that are read twice *)

(** In the build with THREADS any word but [-q n] and [-T], an option of [Initialize] or its
    argument too, sets [testnum] back to 1: only the words after it count. *)
Lemma threads_loop_default w args n t :
  (length args < n)%nat -> (0 < String.length w)%nat ->
  char_at w 1 <> Some "q"%char -> char_at w 1 <> Some "T"%char ->
  threads_loop n (w :: args) t = threads_loop (n - 1) args 1.
Proof.
  intros Hn Hw Hq HT. destruct n as [|n]; [lia|]. destruct w as [|c w]; simpl in Hw; [lia|].
  simpl. rewrite Nat.sub_0_r. by rewrite !decide_False by done.
Qed.

Example main_test_reset :
  main threads_build (fun _ _ => false) ["-q"; "4"] = Ok (no_options, Some TProducerConsumer, []) /\
  main threads_build (fun _ _ => false) ["-q"; "4"; "-d"; "+"] =
    Ok (mkOptions "+" None false false "1" 0, Some TThreadTest1, []).
Proof. by vm_compute. Qed.

(** In the build of network/ the reliability is [-l], which is also the listing of the
    directory: setting it lists the directory; the [-n] of the usage text is skipped. *)
Lemma main_network_reliability opens r :
  skipped network_build r = true -> r <> "-d" -> r <> "-rs" -> r <> "-s" -> r <> "-f" -> r <> "-m" ->
  main network_build opens ["-l"; r] = Ok (mkOptions "" None false false r 0, None, [AList]) /\
  main network_build opens ["-n"; r] = Ok (no_options, None, []).
Proof.
  intros Hs Hd Hrs H1 H2 Hm. pose proof (main_round_skipped network_build r [] Hs) as Hr.
  assert (r <> "-l") by (intros ->; discriminate).
  assert (Hi : Initialize_round network_build [r] no_options = Ok (no_options, 1%nat)).
  { unfold Initialize_round, arg. simpl. by rewrite !(proj2 (String.eqb_neq r _)) by done. }
  unfold main. simpl. rewrite Hi, Hr. done.
Qed.

(** Copying a program to a new disk and running it: what follows [-x] is not reached. *)
Example main_copy_run :
  main filesys_build (fun done f => bool_decide (ACopy "../test/halt" f ∈ done))
    ["-f"; "-cp"; "../test/halt"; "halt"; "-x"; "halt"; "-l"] =
  Ok (mkOptions "" None false true "1" 0, None, [ACopy "../test/halt" "halt"; AStartProcess "halt"]).
Proof. by vm_compute. Qed.
