(* ===== verification/Switch.v ===== *)
(** * threads/switch.c, switch.h, Thread::StackAllocate: the context switch

    The assembly routines [SWITCH] and [ThreadRoot] for the Intel 386 (the host the makefiles
    choose), MIPS and the HP PA-RISC, as lists of instructions, with a semantics for the few
    instructions they use.  A state of the processor has registers, words of memory at their
    addresses and the program counter; an access to an address that is not that of a word
    is a fault.  [Thread::StackAllocate] prepares the memory of a new thread.

    Code is straight-line.  A call is recorded, and what the called function leaves behind
    when it returns is an argument of the model ([calls]); the calling convention of the
    host is the hypothesis [abi_ok] about it. *)

From S2P Require Import Prelude.

(** ** Instructions *)

Section Asm.
Context {reg : Type} `{EqDecision reg}.

Record cpu := mkCpu { c_regs : reg -> Z; c_mem : gmap Z Z; c_pc : Z }.

Inductive addr := Based (disp : Z) (base : reg) | Absolute (a : Z).

Inductive asm :=
  | Store (src : reg) (a : addr)
  | Load (a : addr) (dst : reg)
  | Move (src dst : reg)
  | Clear (dst : reg)
  | Push (src sp : reg)
  | Jump (target : reg)                (* what follows in a list is its delay slot *)
  | Return (sp : reg)                  (* of the 386: pops the program counter *)
  | Call (target : reg).

Definition set_register (r : reg) (v : Z) (regs : reg -> Z) : reg -> Z := fun r' => if decide (r' = r) then v else regs r'.

Definition address (a : addr) (regs : reg -> Z) : Z :=
  match a with Based d b => u32 (regs b + d) | Absolute a => a end.

Definition put (a v : Z) (m : gmap Z Z) : result (gmap Z Z) :=
  _ ← deref (m !! a); Ok (<[a := v]> m).

(** A call that has been made, with the state it was made in. *)
Definition trace : Type := list (Z * cpu).

Definition exec (calls : Z -> cpu -> cpu) (i : asm) (st : cpu * trace) : result (cpu * trace) :=
  let '(s, tr) := st in
  let regs := c_regs s in
  match i with
  | Store src a => m ← put (address a regs) (regs src) (c_mem s); Ok (mkCpu regs m (c_pc s), tr)
  | Load a dst => v ← deref (c_mem s !! address a regs); Ok (mkCpu (set_register dst v regs) (c_mem s) (c_pc s), tr)
  | Move src dst => Ok (mkCpu (set_register dst (regs src) regs) (c_mem s) (c_pc s), tr)
  | Clear dst => Ok (mkCpu (set_register dst 0 regs) (c_mem s) (c_pc s), tr)
  | Push src sp =>
      let a := u32 (regs sp - 4) in
      m ← put a (regs src) (c_mem s); Ok (mkCpu (set_register sp a regs) m (c_pc s), tr)
  | Jump target => Ok (mkCpu regs (c_mem s) (regs target), tr)
  | Return sp =>
      v ← deref (c_mem s !! regs sp); Ok (mkCpu (set_register sp (u32 (regs sp + 4)) regs) (c_mem s) v, tr)
  | Call target => Ok (calls (regs target) s, tr ++ [(regs target, s)])
  end.

Definition run (calls : Z -> cpu -> cpu) (code : list asm) (st : cpu * trace) : result (cpu * trace) :=
  result_fold (exec calls) code st.

(** A list of registers stored in, or loaded from, the structure at [base]. *)
Definition store_all (base : reg) (l : list (reg * Z)) : list asm := map (fun '(r, d) => Store r (Based d base)) l.
Definition load_all (base : reg) (l : list (reg * Z)) : list asm := map (fun '(r, d) => Load (Based d base) r) l.

Definition saved_in (t : Z) (l : list (reg * Z)) (regs : reg -> Z) (m : gmap Z Z) : Prop :=
  forall r d, (r, d) ∈ l -> m !! u32 (t + d) = Some (regs r).

Definition has_words (t : Z) (l : list (reg * Z)) (m : gmap Z Z) : Prop :=
  forall r d, (r, d) ∈ l -> is_Some (m !! u32 (t + d)).

Lemma put_ok a v m : is_Some (m !! a) -> put a v m = Ok (<[a := v]> m).
Proof. intros [w Hw]. unfold put. by rewrite Hw. Qed.

Lemma set_register_eq r v regs : set_register r v regs r = v.
Proof. unfold set_register. by rewrite decide_True. Qed.

Lemma set_register_ne r r' v regs : r' <> r -> set_register r v regs r' = regs r'.
Proof. intros. unfold set_register. by rewrite decide_False. Qed.

Lemma run_app calls c c' st : run calls (c ++ c') st = (st ← run calls c st; run calls c' st).
Proof. apply result_fold_app. Qed.

(** Without calls no words appear or disappear. *)
Definition no_call (i : asm) : bool := match i with Call _ => false | _ => true end.

Lemma put_dom a v m m' : put a v m = Ok m' -> dom m' = dom m.
Proof.
  unfold put. intros H. apply bind_Ok_inv in H as (w & Hw%deref_Ok & [= <-]). apply elem_of_dom_2 in Hw. set_solver.
Qed.

Lemma run_dom calls c s tr s' tr' :
  forallb no_call c = true -> run calls c (s, tr) = Ok (s', tr') -> dom (c_mem s') = dom (c_mem s).
Proof.
  unfold run. revert s tr. induction c as [|i c IH]; intros s tr Hc H; cbn [result_fold forallb] in *; [by simplify_eq|].
  apply andb_true_iff in Hc as [Hi Hc]. apply bind_Ok_inv in H as ([s1 tr1] & E & H). rewrite (IH s1 tr1 Hc H).
  destruct i; cbn [exec no_call] in *; try done; try (apply bind_Ok_inv in E as (? & E1 & E)); simplify_eq; cbn [c_mem];
    first [by eapply put_dom|done].
Qed.

(** One instruction ahead. *)
Lemma run_load calls a d v c s tr : c_mem s !! address a (c_regs s) = Some v ->
  run calls (Load a d :: c) (s, tr) = run calls c (mkCpu (set_register d v (c_regs s)) (c_mem s) (c_pc s), tr).
Proof. intros H. unfold run. cbn [result_fold exec]. by rewrite H. Qed.

Lemma run_store calls r a c s tr : is_Some (c_mem s !! address a (c_regs s)) ->
  run calls (Store r a :: c) (s, tr) = run calls c (mkCpu (c_regs s) (<[address a (c_regs s) := c_regs s r]> (c_mem s)) (c_pc s), tr).
Proof. intros H. unfold run. cbn [result_fold exec]. by rewrite put_ok. Qed.

Lemma run_return calls sp v s tr : c_mem s !! c_regs s sp = Some v ->
  run calls [Return sp] (s, tr) = Ok (mkCpu (set_register sp (u32 (c_regs s sp + 4)) (c_regs s)) (c_mem s) v, tr).
Proof. intros H. unfold run. cbn [result_fold exec]. by rewrite H. Qed.

(** Storing registers: the structure holds them, other words and the registers stay. *)
Lemma store_all_ok calls base l s tr :
  has_words (c_regs s base) l (c_mem s) -> NoDup (map (fun '(_, d) => u32 (c_regs s base + d)) l) ->
  exists m, run calls (store_all base l) (s, tr) = Ok (mkCpu (c_regs s) m (c_pc s), tr)
    /\ saved_in (c_regs s base) l (c_regs s) m
    /\ dom m = dom (c_mem s)
    /\ forall a, a ∉ map (fun '(_, d) => u32 (c_regs s base + d)) l -> m !! a = c_mem s !! a.
Proof.
  destruct s as [regs m0 pc]. cbn [c_regs c_mem c_pc]. revert m0.
  induction l as [|[r d] l IH]; intros m0 Hm Hnd.
  { exists m0. split; [done|]. split; [by intros ? ? ?%elem_of_nil|]. done. }
  cbn [map] in Hnd. apply NoDup_cons in Hnd as [Hni Hnd]. unfold run, store_all. cbn [map result_fold exec address c_regs c_mem c_pc].
  assert (Hd : is_Some (m0 !! u32 (regs base + d))) by (apply (Hm r d); left).
  rewrite put_ok by done. cbn [mbind result_bind].
  destruct (IH (<[u32 (regs base + d) := regs r]> m0)) as (m & E & Hs & Hdom & Hf).
  - intros r' d' Hin. destruct (decide (u32 (regs base + d') = u32 (regs base + d))) as [->|Hne].
    + rewrite lookup_insert_eq. eauto.
    + rewrite lookup_insert_ne by done. apply (Hm r' d'). by right.
  - done.
  - exists m. split; [exact E|]. split; [|split].
    + intros r' d' [[= -> ->]|Hin]%elem_of_cons; [|exact (Hs r' d' Hin)]. rewrite Hf by done. apply lookup_insert_eq.
    + rewrite Hdom. apply elem_of_dom in Hd. set_solver.
    + intros a [Hne Ha]%not_elem_of_cons. rewrite Hf by done. by apply lookup_insert_ne.
Qed.

(** Loading registers, none of which is the base. *)
Lemma load_all_ok calls base l s tr rho :
  base ∉ l.*1 -> saved_in (c_regs s base) l rho (c_mem s) ->
  exists regs, run calls (load_all base l) (s, tr) = Ok (mkCpu regs (c_mem s) (c_pc s), tr)
    /\ (forall r, r ∈ l.*1 -> regs r = rho r) /\ (forall r, r ∉ l.*1 -> regs r = c_regs s r).
Proof.
  destruct s as [regs m pc]. cbn [c_regs c_mem c_pc]. revert regs.
  induction l as [|[r d] l IH]; intros regs Hb Hs; [exists regs; split; [done|]; split; [by intros r ?%elem_of_nil|done]|].
  cbn [fmap list_fmap fst] in Hb. apply not_elem_of_cons in Hb as [Hbr Hb].
  unfold run, load_all. cbn [map result_fold exec address c_regs c_mem c_pc]. rewrite (Hs r d) by left. cbn [deref mbind result_bind].
  destruct (IH (set_register r (rho r) regs)) as (regs' & E & Hl & Hn); [done| |].
  { rewrite set_register_ne by done. intros r' d' Hin. apply Hs. by right. }
  exists regs'. split; [exact E|]. cbn [fmap list_fmap fst]. split.
  - intros r' [->|Hr]%elem_of_cons; [|by apply Hl]. destruct (decide (r ∈ l.*1)) as [Hi|Hi]; [by apply Hl|].
    rewrite Hn by done. apply set_register_eq.
  - intros r' [Hne Hr]%not_elem_of_cons. rewrite Hn by done. by apply set_register_ne.
Qed.
End Asm.
Arguments cpu : clear implicits.
Arguments asm : clear implicits.
Arguments addr : clear implicits.
Arguments trace : clear implicits.

(** Two blocks of memory do not meet. *)
Definition apart (a n b k : Z) : Prop := a + n <= b \/ b + k <= a.

(** ** Intel 386 *)

Module I386.

Inductive reg386 := EAX | EBX | ECX | EDX | ESI | EDI | EBP | ESP.
#[global] Instance reg386_eq_dec : EqDecision reg386.
Proof. solve_decision. Defined.

(** Offsets in a [Thread] (switch.h); [stackTop] comes first, then [machineState]. *)
Definition _ESP : Z := 0.
Definition _EAX : Z := 4.
Definition _EBX : Z := 8.
Definition _ECX : Z := 12.
Definition _EDX : Z := 16.
Definition _EBP : Z := 20.
Definition _ESI : Z := 24.
Definition _EDI : Z := 28.
Definition _PC : Z := 32.

Definition PCState : Z := _PC `div` 4 - 1.
Definition FPState : Z := _EBP `div` 4 - 1.
Definition InitialPCState : Z := _ESI `div` 4 - 1.
Definition InitialArgState : Z := _EDX `div` 4 - 1.
Definition WhenDonePCState : Z := _EDI `div` 4 - 1.
Definition StartupPCState : Z := _ECX `div` 4 - 1.

Definition InitialPC : reg386 := ESI.
Definition InitialArg : reg386 := EDX.
Definition WhenDonePC : reg386 := EDI.
Definition StartupPC : reg386 := ECX.

Definition SWITCH (eax_save : Z) : list (asm reg386) :=
  [ Store EAX (Absolute eax_save);
    Load (Based 4 ESP) EAX;
    Store EBX (Based _EBX EAX);
    Store ECX (Based _ECX EAX);
    Store EDX (Based _EDX EAX);
    Store ESI (Based _ESI EAX);
    Store EDI (Based _EDI EAX);
    Store EBP (Based _EBP EAX);
    Store ESP (Based _ESP EAX);
    Load (Absolute eax_save) EBX;
    Store EBX (Based _EAX EAX);
    Load (Based 0 ESP) EBX;
    Store EBX (Based _PC EAX);
    Load (Based 8 ESP) EAX;
    Load (Based _EAX EAX) EBX;
    Store EBX (Absolute eax_save);
    Load (Based _EBX EAX) EBX;
    Load (Based _ECX EAX) ECX;
    Load (Based _EDX EAX) EDX;
    Load (Based _ESI EAX) ESI;
    Load (Based _EDI EAX) EDI;
    Load (Based _EBP EAX) EBP;
    Load (Based _ESP EAX) ESP;
    Load (Based _PC EAX) EAX;
    Store EAX (Based 4 ESP);
    Load (Absolute eax_save) EAX;
    Return ESP ].

(** The epilogue after the last call is not reached: [Thread::Finish] does not return. *)
Definition ThreadRoot : list (asm reg386) :=
  [ Push EBP ESP; Move ESP EBP; Push InitialArg ESP; Call StartupPC; Call InitialPC; Call WhenDonePC ].

(** The registers [SWITCH] copies with EAX as the pointer to the thread. *)
Definition others : list (reg386 * Z) :=
  [(EBX, _EBX); (ECX, _ECX); (EDX, _EDX); (ESI, _ESI); (EDI, _EDI); (EBP, _EBP); (ESP, _ESP)].

(** The thread [t] holds the registers [rho] and the address [pc]. *)
Definition image (t : Z) (rho : reg386 -> Z) (pc : Z) (m : gmap Z Z) : Prop :=
  saved_in t ((EAX, _EAX) :: others) rho m /\ m !! u32 (t + _PC) = Some pc.

(** A call of [SWITCH(t1, t2)]: return address and arguments are on the stack, [t1] is the
    structure of a thread. *)
Record calling (eax_save t1 t2 ra : Z) (s : cpu reg386) : Prop := {
  sw_ra : c_mem s !! c_regs s ESP = Some ra;
  sw_t1 : c_mem s !! (c_regs s ESP + 4) = Some t1;
  sw_t2 : c_mem s !! (c_regs s ESP + 8) = Some t2;
  sw_old : has_words t1 ((EAX, _EAX) :: others) (c_mem s);
  sw_old_pc : is_Some (c_mem s !! u32 (t1 + _PC));
  sw_save : is_Some (c_mem s !! eax_save)
}.

(** A thread that can be switched to: it holds registers, and its stack a return address. *)
Definition resumable (t : Z) (rho : reg386 -> Z) (pc ra : Z) (m : gmap Z Z) : Prop :=
  image t rho pc m /\ m !! rho ESP = Some ra /\ is_Some (m !! (rho ESP + 4)).

(** The two structures, the ends of the two stacks and the variable lie in different places. *)
Record separate (eax_save t1 sp1 t2 sp2 : Z) : Prop := {
  sw_range : 0 <= t1 <= 2 ^ 32 - 36 /\ 0 <= t2 <= 2 ^ 32 - 36 /\ 0 <= sp1 <= 2 ^ 32 - 12 /\ 0 <= sp2 <= 2 ^ 32 - 8;
  sw_t1_t2 : apart t1 36 t2 36;
  sw_t1_sp : apart t1 36 sp1 12;
  sw_t1_sp2 : apart t1 36 sp2 8;
  sw_save_t1 : apart eax_save 4 t1 36;
  sw_save_t2 : apart eax_save 4 t2 36;
  sw_save_sp : apart eax_save 4 sp1 12;
  sw_save_sp2 : apart eax_save 4 sp2 8;
  sw_sp_sp2 : apart sp1 12 sp2 8
}.

Lemma u32_plus t d : 0 <= t <= 2 ^ 32 - 36 -> 0 <= d <= 32 -> u32 (t + d) = t + d.
Proof. intros. apply u32_id. unfold in_u32. lia. Qed.

Lemma u32_sp t d : 0 <= t -> t + d < 2 ^ 32 -> 0 <= d -> u32 (t + d) = t + d.
Proof. intros. apply u32_id. unfold in_u32. lia. Qed.

Lemma others_addresses t : 0 <= t <= 2 ^ 32 - 36 ->
  map (fun '(_, d) => u32 (t + d)) others = map (fun d => t + d) [8; 12; 16; 24; 28; 20; 0].
Proof. intros. unfold others. cbn [map]. unfold _ESP, _EBX, _ECX, _EDX, _EBP, _ESI, _EDI. rewrite !u32_plus by lia. done. Qed.

Lemma others_distinct t : 0 <= t <= 2 ^ 32 - 36 -> NoDup (map (fun '(_, d) => u32 (t + d)) others).
Proof.
  intros. rewrite others_addresses by done. apply NoDup_fmap_2; [intros ? ? ?; lia|]. by apply (bool_decide_unpack _).
Qed.

Lemma others_address t r d : 0 <= t <= 2 ^ 32 - 36 -> (r, d) ∈ others ->
  u32 (t + d) = t + d /\ 0 <= d <= 28 /\ d <> 4 /\ r <> EAX.
Proof.
  intros Ht Hin. assert (0 <= d <= 28 /\ d <> 4 /\ r <> EAX).
  { unfold others in Hin. rewrite !elem_of_cons, elem_of_nil in Hin. unfold _ESP, _EBX, _ECX, _EDX, _EBP, _ESI, _EDI in Hin.
    destruct_or?; simplify_eq; split_and!; done || lia. }
  split; [|done]. apply u32_plus; lia.
Qed.

Lemma field_address t r d : 0 <= t <= 2 ^ 32 - 36 -> (r, d) ∈ (EAX, _EAX) :: others -> t <= u32 (t + d) <= t + 32.
Proof.
  intros Ht [[= -> ->]|Hin]%elem_of_cons; [rewrite u32_plus; unfold _EAX; lia|].
  destruct (others_address t r d Ht Hin) as (-> & ? & _). lia.
Qed.

Lemma has_words_frame t m m' : 0 <= t <= 2 ^ 32 - 36 -> (forall a, t <= a <= t + 32 -> m' !! a = m !! a) ->
  has_words t ((EAX, _EAX) :: others) m -> has_words t ((EAX, _EAX) :: others) m'.
Proof. intros Ht Hf Hm r d Hin. rewrite Hf by (by apply (field_address t r)). by apply (Hm r). Qed.

Lemma image_frame t rho rho' pc m m' : 0 <= t <= 2 ^ 32 - 36 -> (forall a, t <= a <= t + 32 -> m' !! a = m !! a) ->
  (forall r, rho' r = rho r) -> image t rho pc m -> image t rho' pc m'.
Proof.
  intros Ht Hf Hr [Hs Hp]. split.
  - intros r d Hin. rewrite Hf, Hr by (by apply (field_address t r)). by apply Hs.
  - rewrite Hf; [done|]. rewrite u32_plus; unfold _PC; lia.
Qed.

(** The stores of [SWITCH] into the old thread, EAX pointing to it. *)
Definition save_code (eax_save : Z) : list (asm reg386) :=
  store_all EAX others ++ [Load (Absolute eax_save) EBX; Store EBX (Based _EAX EAX); Load (Based 0 ESP) EBX; Store EBX (Based _PC EAX)].

(** The loads from the new thread. *)
Definition load_code (eax_save : Z) : list (asm reg386) :=
  [Load (Based _EAX EAX) EBX; Store EBX (Absolute eax_save)] ++ load_all EAX others
  ++ [Load (Based _PC EAX) EAX; Store EAX (Based 4 ESP); Load (Absolute eax_save) EAX; Return ESP].

Lemma SWITCH_halves eax_save :
  SWITCH eax_save = [Store EAX (Absolute eax_save); Load (Based 4 ESP) EAX] ++ save_code eax_save
                    ++ Load (Based 8 ESP) EAX :: load_code eax_save.
Proof. done. Qed.

Section Halves.
Context (calls : Z -> cpu reg386 -> cpu reg386) (eax_save : Z).

(** What [save_code] does when EAX is [t] and its old value is in [eax_save]. *)
Lemma save_code_ok s tr t eax ra :
  c_regs s EAX = t -> 0 <= t <= 2 ^ 32 - 36 -> has_words t ((EAX, _EAX) :: others) (c_mem s) -> is_Some (c_mem s !! u32 (t + _PC)) ->
  c_mem s !! eax_save = Some eax -> apart eax_save 4 t 36 ->
  0 <= c_regs s ESP <= 2 ^ 32 - 12 -> c_mem s !! c_regs s ESP = Some ra -> apart t 36 (c_regs s ESP) 12 ->
  exists m, run calls (save_code eax_save) (s, tr) = Ok (mkCpu (set_register EBX ra (set_register EBX eax (c_regs s))) m (c_pc s), tr)
    /\ image t (set_register EAX eax (c_regs s)) ra m
    /\ forall a, apart a 4 t 36 -> m !! a = c_mem s !! a.
Proof.
  intros Ht Hr Hm Hpc Hes Has Hsp Hra Hst. unfold save_code. rewrite run_app.
  destruct (store_all_ok calls EAX others s tr) as (m & -> & Hs & Hdom & Hf); rewrite ?Ht.
  { intros r d Hin. apply (Hm r d). by right. }
  { by apply others_distinct. }
  rewrite Ht in *.
  assert (Hout : forall a, apart a 4 t 36 \/ a = t + 4 \/ a = t + 32 -> m !! a = c_mem s !! a).
  { intros a Ha. apply Hf. rewrite others_addresses by done. unfold apart in Ha. cbn. rewrite !elem_of_cons, elem_of_nil. lia. }
  assert (E4 : u32 (t + _EAX) = t + 4) by (apply u32_plus; unfold _EAX; lia).
  assert (E32 : u32 (t + _PC) = t + 32) by (apply u32_plus; unfold _PC; lia).
  assert (Hpcm : is_Some (m !! (t + 32))) by (rewrite Hout by auto; by rewrite <-E32).
  assert (Heax : is_Some (m !! (t + 4))) by (rewrite Hout by auto; rewrite <-E4; apply (Hm EAX); left).
  cbn [mbind result_bind].
  rewrite (run_load _ _ _ eax) by (cbn; by rewrite Hout by auto).
  rewrite run_store by (cbn; rewrite set_register_ne, Ht, E4 by done; done).
  cbn [address c_regs c_mem c_pc]. rewrite set_register_eq, (set_register_ne _ EAX), Ht, E4 by done.
  rewrite (run_load _ _ _ ra).
  2: { cbn. rewrite set_register_ne by done. rewrite Z.add_0_r, u32_id by (unfold in_u32; lia). unfold apart in Hst.
       rewrite lookup_insert_ne, Hout by (unfold apart; lia). done. }
  cbn [c_regs c_mem c_pc]. rewrite run_store.
  2: { cbn. rewrite !set_register_ne, Ht, E32, lookup_insert_ne by (done || lia). done. }
  cbn [address c_regs c_mem c_pc]. rewrite set_register_eq, !(set_register_ne _ EAX), Ht, E32 by done.
  eexists. split; [reflexivity|]. split; [split|].
  - intros r d [[= -> ->]|Hin]%elem_of_cons.
    + rewrite E4, lookup_insert_ne, lookup_insert_eq, set_register_eq by lia. done.
    + destruct (others_address t r d Hr Hin) as (Eu & Hd & Hd4 & Hne). rewrite set_register_ne by done.
      rewrite <-(Hs r d Hin), Eu, !lookup_insert_ne by lia. done.
  - rewrite E32. apply lookup_insert_eq.
  - intros a Ha. unfold apart in Ha. rewrite !lookup_insert_ne by lia. apply Hout. by left.
Qed.

(** What [load_code] does when EAX is [t], a thread that holds [rho] and [pc]. *)
Lemma load_code_ok s tr t rho pc ra :
  c_regs s EAX = t -> 0 <= t <= 2 ^ 32 - 36 -> image t rho pc (c_mem s) -> is_Some (c_mem s !! eax_save) -> apart eax_save 4 t 36 ->
  0 <= rho ESP <= 2 ^ 32 - 8 -> c_mem s !! rho ESP = Some ra -> is_Some (c_mem s !! (rho ESP + 4)) -> apart eax_save 4 (rho ESP) 8 ->
  exists regs, run calls (load_code eax_save) (s, tr)
      = Ok (mkCpu regs (<[rho ESP + 4 := pc]> (<[eax_save := rho EAX]> (c_mem s))) ra, tr)
    /\ regs ESP = rho ESP + 4 /\ forall r, r <> ESP -> regs r = rho r.
Proof.
  intros Ht Hr [Him Hpc] Hes Has Hsp Hra Harg Hst. unfold load_code. cbn [app].
  assert (E4 : u32 (t + _EAX) = t + 4) by (apply u32_plus; unfold _EAX; lia).
  assert (E32 : u32 (t + _PC) = t + 32) by (apply u32_plus; unfold _PC; lia).
  rewrite (run_load _ _ _ (rho EAX)) by (cbn; rewrite Ht; apply (Him EAX); left).
  rewrite run_store by done. cbn [address c_regs c_mem c_pc]. rewrite set_register_eq. rewrite run_app.
  set (s1 := mkCpu _ _ _). assert (H1 : c_regs s1 EAX = t) by (subst s1; cbn; by rewrite set_register_ne).
  destruct (load_all_ok calls EAX others s1 tr rho) as (regs & -> & Hl & Hn).
  { by apply (bool_decide_unpack _). }
  { intros r d Hin. rewrite H1. destruct (others_address t r d Hr Hin) as (Eu & Hd & _ & _). subst s1. unfold apart in Has.
    cbn. rewrite lookup_insert_ne by lia. apply (Him r d). by right. }
  cbn [mbind result_bind].
  assert (Hrsp : regs ESP = rho ESP) by (apply Hl; by apply (bool_decide_unpack _)).
  assert (Hreax : regs EAX = t) by (rewrite Hn; [done|by apply (bool_decide_unpack _)]).
  rewrite (run_load _ _ _ pc).
  2: { cbn. unfold apart in Has. rewrite Hreax, E32, lookup_insert_ne by lia. by rewrite <-E32. }
  assert (Esp : u32 (rho ESP + 4) = rho ESP + 4) by (apply u32_id; unfold in_u32; lia).
  unfold apart in Hst.
  rewrite run_store by (cbn; rewrite set_register_ne, Hrsp, Esp, lookup_insert_ne by (done || lia); done).
  cbn [address c_regs c_mem c_pc]. rewrite set_register_eq, set_register_ne, Hrsp, Esp by done.
  rewrite (run_load _ _ _ (rho EAX)).
  2: { cbn. rewrite lookup_insert_ne by lia. apply lookup_insert_eq. }
  rewrite (run_return _ _ ra).
  2: { cbn. rewrite !set_register_ne, Hrsp, !lookup_insert_ne by (done || lia). done. }
  cbn [c_regs c_mem c_pc]. eexists. split; [reflexivity|]. split.
  - rewrite set_register_eq, !set_register_ne, Hrsp by done. done.
  - intros r Hne. rewrite set_register_ne by done. destruct (decide (r = EAX)) as [->|Hne']; [apply set_register_eq|].
    rewrite !set_register_ne by done. apply Hl. destruct r; try done; by apply (bool_decide_unpack _).
Qed.

(** [SWITCH(t1, t2)]: the old thread holds the registers of the caller and its return address,
    the registers are those the new thread holds, and the processor continues at the return
    address on the stack of the new thread.  Besides [t1] and [eax_save] one word is
    written: the argument [t1] in the frame in which the new thread called [SWITCH], where
    the saved return address is copied. *)
Lemma SWITCH_ok s tr t1 t2 ra rho2 pc2 ra2 :
  calling eax_save t1 t2 ra s -> resumable t2 rho2 pc2 ra2 (c_mem s) ->
  separate eax_save t1 (c_regs s ESP) t2 (rho2 ESP) ->
  exists s', run calls (SWITCH eax_save) (s, tr) = Ok (s', tr)
    /\ c_pc s' = ra2 /\ c_regs s' ESP = rho2 ESP + 4 /\ (forall r, r <> ESP -> c_regs s' r = rho2 r)
    /\ image t1 (c_regs s) ra (c_mem s')
    /\ forall a, apart a 4 t1 36 -> a <> eax_save -> a <> rho2 ESP + 4 -> c_mem s' !! a = c_mem s !! a.
Proof.
  intros [Hra Ht1 Ht2 Hold Holdpc Hsave] (Hnew & Hra2 & Harg2) [(R1 & R2 & Rsp & Rsp2) A12 A1s A1s2 As1 As2 Ass Ass2 _].
  rewrite SWITCH_halves. cbn [app].
  rewrite run_store by done. cbn [address].
  rewrite (run_load _ _ _ t1).
  2: { cbn. unfold apart in Ass. rewrite u32_sp, lookup_insert_ne by lia. done. }
  cbn [c_regs c_mem c_pc]. rewrite run_app.
  set (m1 := <[eax_save := _]> (c_mem s)). set (s1 := mkCpu _ m1 _).
  assert (F1 : forall a, a <> eax_save -> m1 !! a = c_mem s !! a) by (intros a Ha; by apply lookup_insert_ne).
  destruct (save_code_ok s1 tr t1 (c_regs s EAX) ra) as (m2 & -> & Him & Hf); subst s1; cbn [c_regs c_mem c_pc] in *;
    rewrite ?set_register_ne by done; try done.
  1: by apply (has_words_frame t1 (c_mem s)); [done|intros a Ha; apply F1; unfold apart in As1; lia|].
  1: { rewrite F1; [done|]. rewrite u32_plus by (unfold _PC; lia). unfold apart in As1. unfold _PC. lia. }
  1: apply lookup_insert_eq.
  1: { rewrite F1; [done|]. unfold apart in Ass. lia. }
  assert (F2 : forall a, apart a 4 t1 36 -> a <> eax_save -> m2 !! a = c_mem s !! a).
  { intros a Ha Hne. rewrite Hf by done. by apply F1. }
  cbn [mbind result_bind]. unfold apart in A12, A1s, A1s2, As1, As2, Ass, Ass2.
  rewrite (run_load _ _ _ t2).
  2: { cbn. rewrite !set_register_ne, u32_sp by (done || lia). rewrite F2 by (unfold apart; lia). done. }
  cbn [c_regs c_mem c_pc].
  set (s2 := mkCpu _ m2 _).
  destruct (load_code_ok s2 tr t2 rho2 pc2 ra2) as (regs & -> & Hsp & Hregs); subst s2; cbn [c_regs c_mem].
  1: by rewrite set_register_eq.
  1: done.
  1: by apply (image_frame t2 rho2 _ pc2 (c_mem s)); [done|intros a Ha; apply F2; unfold apart; lia|done|].
  1: rewrite Hf by (unfold apart; lia); eexists; apply lookup_insert_eq.
  1-2: done || (unfold apart; lia).
  1: rewrite F2 by (unfold apart; lia); done.
  1: rewrite F2 by (unfold apart; lia); done.
  1: unfold apart; lia.
  eexists. split; [reflexivity|]. cbn [c_pc c_regs c_mem]. split_and!; try done.
  - apply (image_frame t1 (set_register EAX (c_regs s EAX) (set_register EAX t1 (c_regs s))) _ ra m2); [done| | |].
    + intros a Ha. rewrite !lookup_insert_ne by lia. done.
    + intros r. destruct (decide (r = EAX)) as [->|]; [by rewrite set_register_eq|by rewrite !set_register_ne].
    + done.
  - intros a Ha H1 H2. rewrite !lookup_insert_ne by done. by apply F2.
Qed.

(** C5.  A thread that calls [SWITCH] comes back: [SWITCH(t1, t2)] continues thread [t2] where it
    left the processor, with its registers; and whatever runs then, when some thread calls
    [SWITCH(t3, t1)] and meanwhile nobody has written to the structure [t1] and to the
    frame of its call, the first call returns: the processor continues behind it with the
    stack pointer of a return and with every other register as it was. *)
Theorem switch_roundtrip (s : cpu reg386) (tr : trace reg386) (t1 t2 ra : Z) (rho2 : reg386 -> Z) (pc2 ra2 : Z) :
  calling eax_save t1 t2 ra s -> resumable t2 rho2 pc2 ra2 (c_mem s) ->
  separate eax_save t1 (c_regs s ESP) t2 (rho2 ESP) ->
  exists s', run calls (SWITCH eax_save) (s, tr) = Ok (s', tr)
    /\ c_pc s' = ra2 /\ c_regs s' ESP = rho2 ESP + 4 /\ (forall r, r <> ESP -> c_regs s' r = rho2 r)
    /\ forall u tr' t3 ra3,
         (forall a, t1 <= a <= t1 + 32 \/ a = c_regs s ESP \/ a = c_regs s ESP + 4 -> c_mem u !! a = c_mem s' !! a) ->
         calling eax_save t3 t1 ra3 u -> separate eax_save t3 (c_regs u ESP) t1 (c_regs s ESP) ->
         exists u', run calls (SWITCH eax_save) (u, tr') = Ok (u', tr')
           /\ c_pc u' = ra /\ c_regs u' ESP = c_regs s ESP + 4 /\ forall r, r <> ESP -> c_regs u' r = c_regs s r.
Proof.
  intros Hc Hn Hsep. destruct (SWITCH_ok s tr t1 t2 ra rho2 pc2 ra2 Hc Hn Hsep) as (s' & E & Hpc & Hsp & Hr & Him & Hf).
  exists s'. split_and!; try done. intros u tr' t3 ra3 Hu Hcu Hsu.
  destruct Hc as [Hra Ht1 _ _ _ _], Hsep as [(R1 & _ & _) _ A1s _ _ _ As _ Ass]. unfold apart in *.
  destruct (SWITCH_ok u tr' t3 t1 ra3 (c_regs s) ra ra) as (u' & Eu & Hpu & Hspu & Hru & _); try done.
  - split_and!.
    + apply (image_frame t1 (c_regs s) _ ra (c_mem s')); auto.
    + rewrite Hu, Hf by (unfold apart; auto; lia). done.
    + rewrite Hu, Hf by (unfold apart; auto; lia). eauto.
  - by exists u'.
Qed.
End Halves.

(** ** A new thread *)

(** In words (thread.h). *)
Definition ThreadStackSize : Z := 4 * 1024.
Definition STACK_FENCEPOST : Z := 0xdeadbeef.

(** [Thread::StackAllocate] for the thread [t]; [stk] is what [AllocBoundedArray] returned. *)
Definition StackAllocate (ThreadRoot_pc InterruptEnable ThreadFinish stk t func arg : Z) (m : gmap Z Z) : result (gmap Z Z) :=
  let stackTop := stk + 4 * (ThreadStackSize - 4) - 4 in
  m ← put stackTop ThreadRoot_pc m;
  m ← put (t + _ESP) stackTop m;
  m ← put stk STACK_FENCEPOST m;
  m ← put (t + 4 * (PCState + 1)) ThreadRoot_pc m;
  m ← put (t + 4 * (StartupPCState + 1)) InterruptEnable m;
  m ← put (t + 4 * (InitialPCState + 1)) func m;
  m ← put (t + 4 * (InitialArgState + 1)) arg m;
  put (t + 4 * (WhenDonePCState + 1)) ThreadFinish m.

(** [Thread::CheckOverflow]; [stk] is 0 for the main thread. *)
Definition CheckOverflow (stk : Z) (m : gmap Z Z) : result unit :=
  if stk =? 0 then Ok tt else w ← deref (m !! stk); ASSERT (w =? STACK_FENCEPOST).

(** A block of [n] words. *)
Definition block (a n : Z) (m : gmap Z Z) : Prop := forall i, 0 <= i < n -> is_Some (m !! (a + 4 * i)).

Lemma bind_put {A} a v m (f : gmap Z Z -> result A) : is_Some (m !! a) -> (put a v m ≫= f) = f (<[a := v]> m).
Proof. intros H. by rewrite put_ok. Qed.

Lemma insert_is_Some (a b v : Z) (m : gmap Z Z) : is_Some (m !! a) -> is_Some (<[b := v]> m !! a).
Proof. intros H. destruct (decide (a = b)) as [->|]; [rewrite lookup_insert_eq; eauto|by rewrite lookup_insert_ne]. Qed.

Definition offset (r : reg386) : Z :=
  match r with
  | EAX => _EAX | EBX => _EBX | ECX => _ECX | EDX => _EDX | ESI => _ESI | EDI => _EDI | EBP => _EBP | ESP => _ESP
  end.

Lemma offset_of r d : (r, d) ∈ (EAX, _EAX) :: others -> d = offset r.
Proof. unfold others. rewrite !elem_of_cons, elem_of_nil. intros Hin. by destruct_or?; simplify_eq. Qed.

(** The registers a structure in memory holds. *)
Definition held (t : Z) (m : gmap Z Z) (r : reg386) : Z := default 0 (m !! (t + offset r)).

Lemma held_image t m pc : 0 <= t <= 2 ^ 32 - 36 -> (forall r, is_Some (m !! (t + offset r))) -> m !! (t + 32) = Some pc ->
  image t (held t m) pc m.
Proof.
  intros Ht Hr Hp. split; [|by rewrite u32_plus by (unfold _PC; lia)].
  intros r d Hin. rewrite (offset_of r d Hin). rewrite u32_plus by (destruct r; cbn; unfold _ESP, _EAX, _EBX, _ECX, _EDX, _EBP, _ESI, _EDI; lia).
  destruct (Hr r) as [v Hv]. unfold held. by rewrite Hv.
Qed.

Lemma StackAllocate_ok root ie tf stk t func arg m :
  0 <= t <= 2 ^ 32 - 36 -> block t 9 m -> block stk ThreadStackSize m -> apart t 36 stk (4 * ThreadStackSize) ->
  exists m' rho, StackAllocate root ie tf stk t func arg m = Ok m'
    /\ image t rho root m' /\ rho ESP = stk + 16364 /\ rho StartupPC = ie /\ rho InitialPC = func /\ rho InitialArg = arg
    /\ rho WhenDonePC = tf /\ m' !! (stk + 16364) = Some root /\ CheckOverflow stk m' = Ok tt
    /\ dom m' = dom m
    /\ forall a, apart a 4 t 36 -> a <> stk -> a <> stk + 16364 -> m' !! a = m !! a.
Proof.
  intros Ht Hbt Hbs Ha. unfold StackAllocate.
  change (4 * (PCState + 1)) with 32. change (4 * (StartupPCState + 1)) with 12. change (4 * (InitialPCState + 1)) with 24.
  change (4 * (InitialArgState + 1)) with 16. change (4 * (WhenDonePCState + 1)) with 28. change (t + _ESP) with (t + 0).
  assert (Htop : stk + 4 * (ThreadStackSize - 4) - 4 = stk + 16364) by (unfold ThreadStackSize; lia). rewrite Htop. unfold apart, ThreadStackSize in Ha.
  assert (Hf : forall d, d ∈ [0; 4; 8; 12; 16; 20; 24; 28; 32] -> is_Some (m !! (t + d))).
  { intros d Hd. rewrite !elem_of_cons, elem_of_nil in Hd. replace d with (4 * (d `div` 4)); [apply Hbt|]; destruct_or?; subst; try done; vm_compute; done. }
  assert (Hs0 : is_Some (m !! stk)) by (destruct (Hbs 0) as [v Hv]; [unfold ThreadStackSize; lia|]; rewrite Z.add_0_r in Hv; eauto).
  assert (Hs1 : is_Some (m !! (stk + 16364))) by (apply (Hbs 4091); unfold ThreadStackSize; lia).
  repeat rewrite bind_put by (repeat apply insert_is_Some; first [done | apply Hf; by apply (bool_decide_unpack _)]).
  rewrite put_ok by (repeat apply insert_is_Some; first [done | apply Hf; by apply (bool_decide_unpack _)]).
  set (m' := <[t + 28 := tf]> _).
  assert (Hdom : dom m' = dom m).
  { subst m'. rewrite !dom_insert_L.
    assert (forall d, d ∈ [0; 4; 8; 12; 16; 20; 24; 28; 32] -> t + d ∈ dom m) by (intros d Hd; apply elem_of_dom; by apply Hf).
    apply elem_of_dom in Hs0, Hs1. set_solver. }
  assert (Hsome : forall d, d ∈ [0; 4; 8; 12; 16; 20; 24; 28; 32] -> is_Some (m' !! (t + d))).
  { intros d Hd. apply elem_of_dom. rewrite Hdom. apply elem_of_dom. by apply Hf. }
  exists m', (held t m'). split; [done|]. unfold held, StartupPC, InitialPC, InitialArg, WhenDonePC, CheckOverflow.
  cbn [offset]. change (t + _ESP) with (t + 0). change (t + _ECX) with (t + 12). change (t + _ESI) with (t + 24).
  change (t + _EDX) with (t + 16). change (t + _EDI) with (t + 28).
  split_and!; try done.
  - apply held_image; [done| |].
    + intros r. apply Hsome. destruct r; by apply (bool_decide_unpack _).
    + subst m'. by rewrite !lookup_insert_ne, lookup_insert_eq by lia.
  - subst m'. by rewrite !lookup_insert_ne, lookup_insert_eq by lia.
  - subst m'. by rewrite !lookup_insert_ne, lookup_insert_eq by lia.
  - subst m'. by rewrite !lookup_insert_ne, lookup_insert_eq by lia.
  - subst m'. by rewrite !lookup_insert_ne, lookup_insert_eq by lia.
  - subst m'. by rewrite lookup_insert_eq.
  - subst m'. by rewrite !lookup_insert_ne, lookup_insert_eq by lia.
  - destruct (stk =? 0); [done|]. subst m'. by rewrite !lookup_insert_ne, lookup_insert_eq by lia.
  - intros a Haa H1 H2. unfold apart in Haa. subst m'. by rewrite !lookup_insert_ne by lia.
Qed.

(** ** ThreadRoot *)

(** The calling convention: a function gives back the registers it has to preserve. *)
Definition abi_ok (calls : Z -> cpu reg386 -> cpu reg386) : Prop :=
  forall f s r, r ∈ [EBX; ESI; EDI; EBP; ESP] -> c_regs (calls f s) r = c_regs s r.

(** A function without parameters leaves the stack of its caller alone, up to [hi]. *)
Definition keeps_frame (calls : Z -> cpu reg386 -> cpu reg386) (f hi : Z) : Prop :=
  forall s a, c_regs s ESP <= a < hi -> c_mem (calls f s) !! a = c_mem s !! a.

Lemma ThreadRoot_ok calls s tr hi :
  abi_ok calls -> keeps_frame calls (c_regs s StartupPC) hi ->
  8 <= c_regs s ESP < 2 ^ 32 -> c_regs s ESP <= hi ->
  is_Some (c_mem s !! (c_regs s ESP - 4)) -> is_Some (c_mem s !! (c_regs s ESP - 8)) ->
  exists s' s1 s2 s3,
    run calls ThreadRoot (s, tr)
      = Ok (s', tr ++ [(c_regs s StartupPC, s1); (c_regs s InitialPC, s2); (c_regs s WhenDonePC, s3)])
    /\ c_mem s2 !! c_regs s2 ESP = Some (c_regs s InitialArg).
Proof.
  intros Habi Hk Hsp Hhi H4 H8. unfold run, ThreadRoot, StartupPC, InitialPC, InitialArg, WhenDonePC in *.
  cbn [result_fold exec c_regs c_mem c_pc].
  assert (E4 : u32 (c_regs s ESP - 4) = c_regs s ESP - 4) by (apply u32_id; unfold in_u32; lia). rewrite E4, put_ok by done.
  cbn [mbind result_bind exec c_regs c_mem c_pc]. rewrite (set_register_ne EBP ESP), set_register_eq by done.
  assert (E8 : u32 (c_regs s ESP - 4 - 4) = c_regs s ESP - 8) by (rewrite u32_id; unfold in_u32; lia).
  rewrite E8, put_ok by (rewrite lookup_insert_ne by lia; done).
  cbn [mbind result_bind exec c_regs c_mem c_pc]. rewrite !(set_register_ne _ ECX), !(set_register_ne _ EDX) by done.
  set (s1 := mkCpu _ _ _). set (s2 := calls _ s1). set (s3 := calls _ s2).
  assert (R2 : forall r, r ∈ [EBX; ESI; EDI; EBP; ESP] -> c_regs s2 r = c_regs s1 r) by (intros; by apply Habi).
  assert (R3 : c_regs s3 EDI = c_regs s1 EDI).
  { unfold s3. rewrite Habi by (by apply (bool_decide_unpack _)). apply R2. by apply (bool_decide_unpack _). }
  assert (R2i : c_regs s2 ESI = c_regs s ESI) by (rewrite R2 by (by apply (bool_decide_unpack _)); cbn; by rewrite !set_register_ne).
  eexists _, s1, s2, s3. split.
  - rewrite <-!app_assoc. cbn [app]. rewrite R3, R2i. cbn [c_regs s1]. by rewrite !set_register_ne by done.
  - assert (Esp : c_regs s2 ESP = c_regs s ESP - 8) by (rewrite R2 by (by apply (bool_decide_unpack _)); cbn; by rewrite set_register_eq).
    rewrite Esp. unfold s2. rewrite Hk by (cbn; rewrite set_register_eq; lia). cbn. apply lookup_insert_eq.
Qed.

(** C6.  [Thread::Fork] starts the thread it is asked to: after [StackAllocate] has prepared the
    structure [t] and the stack [stk], the first [SWITCH] to [t] enters [ThreadRoot], which
    calls InterruptEnable, then the function of the thread with its argument on the stack, then
    ThreadFinish.  This needs from the functions that are called only the calling convention,
    and from InterruptEnable, which has no parameters, that it leaves the frame of its caller alone. *)
Theorem fork_starts calls eax_save root ie tf stk t func arg (m m' : gmap Z Z) (s : cpu reg386) (tr : trace reg386) t1 ra :
  abi_ok calls -> keeps_frame calls ie (stk + 4 * ThreadStackSize) ->
  0 <= t <= 2 ^ 32 - 36 -> 0 <= stk <= 2 ^ 32 - 4 * ThreadStackSize ->
  block t 9 m -> block stk ThreadStackSize m -> apart t 36 stk (4 * ThreadStackSize) ->
  StackAllocate root ie tf stk t func arg m = Ok m' ->
  (forall a, t <= a <= t + 32 \/ a = stk + 16364 -> c_mem s !! a = m' !! a) -> block stk ThreadStackSize (c_mem s) ->
  calling eax_save t1 t ra s -> separate eax_save t1 (c_regs s ESP) t (stk + 16364) ->
  apart t1 36 stk (4 * ThreadStackSize) -> apart eax_save 4 stk (4 * ThreadStackSize) ->
  exists s', run calls (SWITCH eax_save) (s, tr) = Ok (s', tr) /\ c_pc s' = root
    /\ exists s'' s1 s2 s3, run calls ThreadRoot (s', []) = Ok (s'', [(ie, s1); (func, s2); (tf, s3)])
         /\ c_mem s2 !! c_regs s2 ESP = Some arg.
Proof.
  intros Habi Hk Ht Hstk Hbt Hbs Hap Hsa Hsame Hbs' Hcall Hsep Ha1 Hae.
  destruct (StackAllocate_ok root ie tf stk t func arg m Ht Hbt Hbs Hap)
    as (m1 & rho & E & Him & Esp & Eie & Efu & Earg & Etf & Htop & _).
  rewrite Hsa in E. injection E as <-. unfold ThreadStackSize in *.
  destruct (SWITCH_ok calls eax_save s tr t1 t ra rho root root) as (s' & E & Hpc & Hsp & Hr & _ & Hf); [done| |by rewrite Esp|].
  { split; [|split].
    - apply (image_frame t rho rho root m'); auto.
    - rewrite Esp, Hsame by auto. done.
    - rewrite Esp, <-Z.add_assoc. apply (Hbs' 4092). lia. }
  exists s'. split; [done|]. split; [done|]. rewrite Esp in *.
  assert (Hword : forall i, 4090 <= i <= 4091 -> is_Some (c_mem s' !! (stk + 4 * i))).
  { intros i Hi. unfold apart in *. rewrite Hf by (unfold apart; lia). apply Hbs'. lia. }
  rewrite <-Eie, <-Efu, <-Etf, <-Earg. unfold StartupPC, InitialPC, WhenDonePC, InitialArg in *.
  rewrite <-(Hr ECX), <-(Hr ESI), <-(Hr EDI), <-(Hr EDX) by done.
  apply (ThreadRoot_ok calls s' [] (stk + 4 * (4 * 1024))); [done| |lia|lia| |].
  - unfold StartupPC. rewrite Hr, Eie by done. done.
  - rewrite Hsp. replace (stk + 16364 + 4 - 4) with (stk + 4 * 4091) by lia. apply Hword. lia.
  - rewrite Hsp. replace (stk + 16364 + 4 - 8) with (stk + 4 * 4090) by lia. apply Hword. lia.
Qed.

(** ** A run *)

(** Words at all addresses from 0 on, [n] of them. *)
Definition demo_words (n : Z) : gmap Z Z := list_to_map (map (fun i => (4 * i, 0)) (seqZ 0 n)).

Lemma demo_block n a k : 0 <= a -> a + k <= n -> block (4 * a) k (demo_words n).
Proof.
  intros Ha Hk i Hi. apply elem_of_dom. unfold demo_words. rewrite dom_list_to_map_L. apply elem_of_list_to_set, list_elem_of_fmap.
  exists (4 * (a + i), 0). split; [cbn; lia|]. apply list_elem_of_fmap. exists (a + i). split; [done|]. apply elem_of_seqZ. lia.
Qed.

#[local] Opaque demo_words.

Lemma block_insert a k b v m : block a k m -> block a k (<[b := v]> m).
Proof. intros H i Hi. by apply insert_is_Some, H. Qed.

(** A function that spoils the registers it may. *)
Definition demo_calls (f : Z) (s : cpu reg386) : cpu reg386 :=
  mkCpu (fun r => match r with EAX | ECX | EDX => 77 | _ => c_regs s r end) (c_mem s) (c_pc s).

Lemma demo_abi : abi_ok demo_calls.
Proof. intros f s r Hr. rewrite !elem_of_cons, elem_of_nil in Hr. by destruct_or?; subst. Qed.

(** A thread at 40 that calls [SWITCH] with the arguments on its stack at 120. *)
Definition demo_regs (r : reg386) : Z := match r with ESP => 120 | EAX => 1 | EBX => 2 | ECX => 3 | EDX => 4 | ESI => 5 | EDI => 6 | EBP => 7 end.
Definition demo_switch_cpu (m : gmap Z Z) : cpu reg386 := mkCpu demo_regs (<[120 := 9000]> (<[124 := 40]> (<[128 := 80]> m))) 0.

Lemma demo_calling m : block 40 9 m -> is_Some (m !! 0) -> calling 0 40 80 9000 (demo_switch_cpu m).
Proof.
  intros Hb H0. constructor; cbn; try (by rewrite ?lookup_insert_ne, lookup_insert_eq by lia).
  - intros r d Hin. destruct (field_address 40 r d) as [? ?]; [lia|done|].
    rewrite (offset_of r d Hin). repeat apply insert_is_Some. rewrite u32_plus by (destruct r; cbn; unfold _ESP, _EAX, _EBX, _ECX, _EDX, _EBP, _ESI, _EDI; lia).
    destruct r; [apply (Hb 1)|apply (Hb 2)|apply (Hb 3)|apply (Hb 4)|apply (Hb 6)|apply (Hb 7)|apply (Hb 5)|apply (Hb 0)]; lia.
  - repeat apply insert_is_Some. apply (Hb 8). lia.
  - by repeat apply insert_is_Some.
Qed.

Lemma demo_separate sp2 : 200 <= sp2 <= 20000 -> separate 0 40 120 80 sp2.
Proof. intros. constructor; unfold apart; lia. Qed.

Lemma fork_starts_witness :
  exists m' s', StackAllocate 5000 6000 7000 200 80 8000 42 (demo_words 5000) = Ok m'
    /\ run demo_calls (SWITCH 0) (demo_switch_cpu m', []) = Ok (s', []) /\ c_pc s' = 5000
    /\ exists s'' s1 s2 s3, run demo_calls ThreadRoot (s', []) = Ok (s'', [(6000, s1); (8000, s2); (7000, s3)])
         /\ c_mem s2 !! c_regs s2 ESP = Some 42.
Proof.
  destruct (StackAllocate_ok 5000 6000 7000 200 80 8000 42 (demo_words 5000)) as (m' & rho & E & _ & _ & _ & _ & _ & _ & _ & _ & Hdom & _).
  { lia. } { apply (demo_block 5000 20); lia. } { apply (demo_block 5000 50); unfold ThreadStackSize; lia. } { unfold apart, ThreadStackSize. lia. }
  assert (Hb : forall a k, 0 <= a -> a + k <= 5000 -> block (4 * a) k m').
  { intros a k Ha Hk i Hi. apply elem_of_dom. rewrite Hdom. apply elem_of_dom. by apply (demo_block 5000 a k). }
  exists m'. edestruct (fork_starts demo_calls 0 5000 6000 7000 200 80 8000 42 (demo_words 5000) m' (demo_switch_cpu m') [] 40 9000)
    as (s' & E1 & E2 & E3); [| | | | | | | | | | | | | |exists s'; exact (conj E (conj E1 (conj E2 E3)))].
  - exact demo_abi.
  - intros s a _. reflexivity.
  - lia.
  - unfold ThreadStackSize. lia.
  - apply (demo_block 5000 20); lia.
  - apply (demo_block 5000 50); unfold ThreadStackSize; lia.
  - unfold apart, ThreadStackSize. lia.
  - exact E.
  - intros a Ha. cbn. by rewrite !lookup_insert_ne by lia.
  - repeat apply block_insert. apply (Hb 50); unfold ThreadStackSize; lia.
  - apply demo_calling; [apply (Hb 10); lia|]. apply (Hb 0 1 ltac:(lia) ltac:(lia) 0). lia.
  - apply demo_separate. lia.
  - unfold apart, ThreadStackSize. lia.
  - unfold apart, ThreadStackSize. lia.
Defined.

Lemma switch_roundtrip_witness :
  exists m', StackAllocate 5000 6000 7000 200 80 8000 42 (demo_words 5000) = Ok m'
    /\ exists s', run demo_calls (SWITCH 0) (demo_switch_cpu m', []) = Ok (s', []) /\ c_pc s' = 5000 /\ c_regs s' ESP = 16568
    /\ exists u u', c_regs u ESP = 10000 /\ run demo_calls (SWITCH 0) (u, []) = Ok (u', [])
         /\ c_pc u' = 9000 /\ c_regs u' ESP = 124 /\ forall r, r <> ESP -> c_regs u' r = demo_regs r.
Proof.
  destruct (StackAllocate_ok 5000 6000 7000 200 80 8000 42 (demo_words 5000))
    as (m' & rho & E & Him & Esp & _ & _ & _ & _ & Htop & _ & Hdom & _).
  { lia. } { apply (demo_block 5000 20); lia. } { apply (demo_block 5000 50); unfold ThreadStackSize; lia. } { unfold apart, ThreadStackSize. lia. }
  assert (Hb : forall a k, 0 <= a -> a + k <= 5000 -> block (4 * a) k m').
  { intros a k Ha Hk i Hi. apply elem_of_dom. rewrite Hdom. apply elem_of_dom. by apply (demo_block 5000 a k). }
  exists m'. split; [exact E|]. clear E.
  destruct (switch_roundtrip demo_calls 0 (demo_switch_cpu m') [] 40 80 9000 rho 5000 5000) as (s' & E1 & Hpc & Hsp & Hr & Hback).
  - apply demo_calling; [apply (Hb 10); lia|]. apply (Hb 0 1 ltac:(lia) ltac:(lia) 0). lia.
  - unfold resumable. rewrite Esp. split_and!; cbn.
    + apply (image_frame 80 rho rho 5000 m'); [lia| |reflexivity|exact Him]. intros a Ha. by rewrite !lookup_insert_ne by lia.
    + by rewrite !lookup_insert_ne by lia.
    + repeat apply insert_is_Some. apply (Hb 50 4096 ltac:(lia) ltac:(lia) 4092). lia.
  - rewrite Esp. apply demo_separate. lia.
  - exists s'. rewrite Esp in Hsp. split_and!; try done. apply run_dom in E1 as Hd; [|done].
    set (u := mkCpu (set_register ESP 10000 demo_regs) (<[10000 := 1]> (<[10004 := 80]> (<[10008 := 40]> (c_mem s')))) 0).
    assert (Hm : forall j, 0 <= j < 5000 -> is_Some (c_mem u !! (4 * j))).
    { intros j Hj. unfold u. cbn. repeat apply insert_is_Some. apply elem_of_dom. rewrite Hd. apply elem_of_dom.
      cbn. repeat apply insert_is_Some. apply (Hb 0 5000 ltac:(lia) ltac:(lia) j). lia. }
    destruct (Hback u [] 80 1) as (u' & E2 & Hpu & Hspu & Hru).
    + intros a Ha. unfold u. cbn in *. by rewrite !lookup_insert_ne by lia.
    + constructor; cbn.
      * by rewrite ?set_register_eq, lookup_insert_eq.
      * by rewrite ?set_register_eq, lookup_insert_ne, lookup_insert_eq by lia.
      * by rewrite ?set_register_eq, !lookup_insert_ne, lookup_insert_eq by lia.
      * intros r d Hin. rewrite (offset_of r d Hin), u32_plus by (destruct r; cbn; unfold _ESP, _EAX, _EBX, _ECX, _EDX, _EBP, _ESI, _EDI; lia).
        destruct r; [apply (Hm 21)|apply (Hm 22)|apply (Hm 23)|apply (Hm 24)|apply (Hm 26)|apply (Hm 27)|apply (Hm 25)|apply (Hm 20)]; lia.
      * apply (Hm 28). lia.
      * apply (Hm 0). lia.
    + unfold u. cbn. rewrite set_register_eq. constructor; unfold apart; lia.
    + exists u, u'. split_and!; try done.
Defined.
End I386.

(** ** Processors that load and store *)

(** MIPS and PA-RISC pass the two threads in registers and store, then load, a list of
    registers; the return address is one of them. *)
Class RiscHost (reg : Type) `{EqDecision reg} := {
  rh_old : reg;                          (* first argument *)
  rh_new : reg;                          (* second argument *)
  rh_link : reg;                         (* return address *)
  rh_saved : list (reg * Z);             (* registers and their offsets in a thread, as they are stored *)
  rh_loaded : list (reg * Z);            (* the same, as they are loaded *)
  rh_size : Z;
  rh_SWITCH : list (asm reg);
  rh_offsets : Forall (fun '(_, d) => 0 <= d <= rh_size - 4) rh_saved;
  rh_distinct : NoDup rh_saved.*2;
  rh_same : rh_loaded ≡ₚ rh_saved;
  rh_args : rh_new ∉ rh_saved.*1;
  rh_link_saved : rh_link ∈ rh_saved.*1;
  (* the code; a load may be in the delay slot of the jump *)
  rh_code : forall calls s tr, run calls rh_SWITCH (s, tr)
              = run calls (store_all rh_old rh_saved ++ load_all rh_new rh_loaded ++ [Jump rh_link]) (s, tr)
}.

Section Risc.
Context {reg : Type} `{RiscHost reg} (calls : Z -> cpu reg -> cpu reg).

Lemma risc_address t r d : 0 <= t <= 2 ^ 32 - rh_size -> (r, d) ∈ rh_saved -> u32 (t + d) = t + d /\ 0 <= d <= rh_size - 4.
Proof.
  intros Ht Hin. pose proof rh_offsets as Ho. rewrite Forall_forall in Ho. specialize (Ho _ Hin). cbn in Ho.
  split; [|done]. apply u32_id. unfold in_u32. lia.
Qed.

Lemma risc_distinct t : 0 <= t <= 2 ^ 32 - rh_size -> NoDup (map (fun '(_, d) => u32 (t + d)) rh_saved).
Proof.
  intros Ht. assert (E : map (fun '(_, d) => u32 (t + d)) rh_saved = (fun d => t + d) <$> rh_saved.*2).
  { rewrite <-list_fmap_compose. apply map_ext_in. intros [r d] Hin%list_elem_of_In. cbn. by apply (risc_address t r). }
  rewrite E. apply NoDup_fmap_2; [intros ? ? ?; lia|apply rh_distinct].
Qed.

(** The registers of the caller are stored in the old thread, those of the new thread loaded. *)
Lemma risc_SWITCH_ok s tr t1 t2 rho2 :
  c_regs s rh_old = t1 -> c_regs s rh_new = t2 ->
  0 <= t1 <= 2 ^ 32 - rh_size -> 0 <= t2 <= 2 ^ 32 - rh_size -> apart t1 rh_size t2 rh_size ->
  has_words t1 rh_saved (c_mem s) -> saved_in t2 rh_saved rho2 (c_mem s) ->
  exists s', run calls rh_SWITCH (s, tr) = Ok (s', tr)
    /\ c_pc s' = rho2 rh_link /\ (forall r, r ∈ rh_saved.*1 -> c_regs s' r = rho2 r)
    /\ saved_in t1 rh_saved (c_regs s) (c_mem s')
    /\ forall a, apart a 4 t1 rh_size -> c_mem s' !! a = c_mem s !! a.
Proof.
  intros H1 H2 R1 R2 Ha Hm Hs. rewrite rh_code, run_app.
  destruct (store_all_ok calls rh_old rh_saved s tr) as (m & -> & Hsv & _ & Hf); rewrite ?H1; [done|by apply risc_distinct|].
  rewrite H1 in *. cbn [mbind result_bind]. rewrite run_app.
  assert (Hout : forall a, apart a 4 t1 rh_size -> m !! a = c_mem s !! a).
  { intros a Haa. apply Hf. intros ([r d] & -> & Hin)%list_elem_of_fmap. destruct (risc_address t1 r d R1 Hin) as [E ?].
    rewrite E in Haa. unfold apart in Haa. lia. }
  destruct (load_all_ok calls rh_new rh_loaded (mkCpu (c_regs s) m (c_pc s)) tr rho2) as (regs & -> & Hl & _); cbn [c_regs c_mem c_pc].
  - rewrite rh_same. apply rh_args.
  - intros r d Hin. rewrite H2. rewrite rh_same in Hin. destruct (risc_address t2 r d R2 Hin) as [E ?]. rewrite Hout by (rewrite E; unfold apart in *; lia). by apply Hs.
  - cbn [mbind result_bind]. eexists. split; [reflexivity|]. cbn [c_pc c_regs c_mem]. split_and!; try done.
    + apply Hl. rewrite rh_same. apply rh_link_saved.
    + intros r Hr. apply Hl. by rewrite rh_same.
Qed.

(** The round trip of [SWITCH], as for the 386. *)
Theorem risc_switch_roundtrip s tr t1 t2 rho2 :
  c_regs s rh_old = t1 -> c_regs s rh_new = t2 ->
  0 <= t1 <= 2 ^ 32 - rh_size -> 0 <= t2 <= 2 ^ 32 - rh_size -> apart t1 rh_size t2 rh_size ->
  has_words t1 rh_saved (c_mem s) -> saved_in t2 rh_saved rho2 (c_mem s) ->
  exists s', run calls rh_SWITCH (s, tr) = Ok (s', tr)
    /\ c_pc s' = rho2 rh_link /\ (forall r, r ∈ rh_saved.*1 -> c_regs s' r = rho2 r)
    /\ forall u tr' t3,
         (forall a, t1 <= a <= t1 + rh_size - 4 -> c_mem u !! a = c_mem s' !! a) ->
         c_regs u rh_old = t3 -> c_regs u rh_new = t1 -> 0 <= t3 <= 2 ^ 32 - rh_size -> apart t3 rh_size t1 rh_size ->
         has_words t3 rh_saved (c_mem u) ->
         exists u', run calls rh_SWITCH (u, tr') = Ok (u', tr')
           /\ c_pc u' = c_regs s rh_link /\ forall r, r ∈ rh_saved.*1 -> c_regs u' r = c_regs s r.
Proof.
  intros H1 H2 R1 R2 Ha Hm Hs. destruct (risc_SWITCH_ok s tr t1 t2 rho2) as (s' & E & Hpc & Hr & Hsv & _); try done.
  exists s'. split_and!; try done. intros u tr' t3 Hu U1 U2 R3 Ha3 Hm3.
  destruct (risc_SWITCH_ok u tr' t3 t1 (c_regs s)) as (u' & Eu & Hpu & Hru & _); try done; [|by exists u'].
  intros r d Hin. destruct (risc_address t1 r d R1 Hin) as [Ea ?]. rewrite Hu by lia. by apply Hsv.
Qed.
End Risc.

Module MipsHost.
Inductive regMips := A0 | A1 | S0 | S1 | S2 | S3 | S4 | S5 | S6 | S7 | SP | FP | RA.
#[global] Instance regMips_eq_dec : EqDecision regMips.
Proof. solve_decision. Defined.

Definition mips_offsets : list (regMips * Z) :=
  [(SP, 0); (S0, 4); (S1, 8); (S2, 12); (S3, 16); (S4, 20); (S5, 24); (S6, 28); (S7, 32); (FP, 36); (RA, 40)].

Definition mips_SWITCH : list (asm regMips) :=
  [ Store SP (Based 0 A0); Store S0 (Based 4 A0); Store S1 (Based 8 A0); Store S2 (Based 12 A0); Store S3 (Based 16 A0);
    Store S4 (Based 20 A0); Store S5 (Based 24 A0); Store S6 (Based 28 A0); Store S7 (Based 32 A0); Store FP (Based 36 A0);
    Store RA (Based 40 A0);
    Load (Based 0 A1) SP; Load (Based 4 A1) S0; Load (Based 8 A1) S1; Load (Based 12 A1) S2; Load (Based 16 A1) S3;
    Load (Based 20 A1) S4; Load (Based 24 A1) S5; Load (Based 28 A1) S6; Load (Based 32 A1) S7; Load (Based 36 A1) FP;
    Load (Based 40 A1) RA;
    Jump RA ].

Definition mips_InitialPC : regMips := S0.
Definition mips_InitialArg : regMips := S1.
Definition mips_WhenDonePC : regMips := S2.
Definition mips_StartupPC : regMips := S3.

Definition mips_ThreadRoot : list (asm regMips) :=
  [ Clear FP; Call mips_StartupPC; Move mips_InitialArg A0; Call mips_InitialPC; Call mips_WhenDonePC ].

#[export, refine] Instance mips_host : RiscHost regMips :=
  { rh_old := A0; rh_new := A1; rh_link := RA; rh_saved := mips_offsets; rh_loaded := mips_offsets; rh_size := 44; rh_SWITCH := mips_SWITCH }.
Proof.
  - repeat constructor; lia.
  - by apply (bool_decide_unpack _).
  - done.
  - by apply (bool_decide_unpack _).
  - by apply (bool_decide_unpack _).
  - done.
Defined.

(** Functions preserve the s registers. *)
Definition mips_abi_ok (calls : Z -> cpu regMips -> cpu regMips) : Prop :=
  forall f s r, r ∈ [S0; S1; S2; S3; S4; S5; S6; S7; SP] -> c_regs (calls f s) r = c_regs s r.

Lemma mips_ThreadRoot_ok calls s tr : mips_abi_ok calls ->
  exists s' s1 s2 s3,
    run calls mips_ThreadRoot (s, tr)
      = Ok (s', tr ++ [(c_regs s mips_StartupPC, s1); (c_regs s mips_InitialPC, s2); (c_regs s mips_WhenDonePC, s3)])
    /\ c_regs s2 A0 = c_regs s mips_InitialArg.
Proof.
  intros Habi. unfold run, mips_ThreadRoot, mips_StartupPC, mips_InitialPC, mips_InitialArg, mips_WhenDonePC. cbn [result_fold exec c_regs c_mem c_pc mbind result_bind].
  rewrite !(set_register_ne FP) by done. set (s1 := mkCpu _ _ _). set (s2 := mkCpu (set_register A0 _ _) _ _).
  assert (R : forall r, r ∈ [S0; S1; S2] -> c_regs (calls (c_regs s S3) s1) r = c_regs s r).
  { intros r Hr. rewrite Habi by set_solver. unfold s1. cbn. rewrite set_register_ne by (intros ->; by apply (bool_decide_unpack (FP ∉ [S0; S1; S2]))). done. }
  eexists _, s1, s2, _. split.
  - rewrite <-!app_assoc. cbn [app]. rewrite !Habi by set_solver. cbn [s2 c_regs]. rewrite !(set_register_ne A0) by done.
    rewrite !R by set_solver. reflexivity.
  - cbn [s2 c_regs]. rewrite set_register_eq. apply R. set_solver.
Qed.
End MipsHost.

Module PaRisc.
Inductive regPa :=
  | ARG0 | ARG1 | R3 | R4 | R5 | R6 | R7 | R8 | R9 | R10 | R11 | R12 | R13 | R14 | R15 | R16 | R17 | R18 | SP | RP.
#[global] Instance regPa_eq_dec : EqDecision regPa.
Proof. solve_decision. Defined.

(** The registers between r3 and r17 are stored and loaded in the same order. *)
Definition snake_offsets : list (regPa * Z) :=
  [(SP, 0); (R3, 4); (R4, 8); (R5, 12); (R6, 16); (R7, 20); (R8, 24); (R9, 28); (R10, 32); (R11, 36); (R12, 40); (R13, 44);
   (R14, 48); (R15, 52); (R16, 56); (R17, 60)].

(** The last load is in the delay slot of the branch. *)
Definition snake_SWITCH : list (asm regPa) :=
  [ Store SP (Based 0 ARG0); Store R3 (Based 4 ARG0); Store R4 (Based 8 ARG0); Store R5 (Based 12 ARG0); Store R6 (Based 16 ARG0);
    Store R7 (Based 20 ARG0); Store R8 (Based 24 ARG0); Store R9 (Based 28 ARG0); Store R10 (Based 32 ARG0); Store R11 (Based 36 ARG0);
    Store R12 (Based 40 ARG0); Store R13 (Based 44 ARG0); Store R14 (Based 48 ARG0); Store R15 (Based 52 ARG0); Store R16 (Based 56 ARG0);
    Store R17 (Based 60 ARG0); Store R18 (Based 64 ARG0); Store RP (Based 68 ARG0);
    Load (Based 0 ARG1) SP; Load (Based 4 ARG1) R3; Load (Based 8 ARG1) R4; Load (Based 12 ARG1) R5; Load (Based 16 ARG1) R6;
    Load (Based 20 ARG1) R7; Load (Based 24 ARG1) R8; Load (Based 28 ARG1) R9; Load (Based 32 ARG1) R10; Load (Based 36 ARG1) R11;
    Load (Based 40 ARG1) R12; Load (Based 44 ARG1) R13; Load (Based 48 ARG1) R14; Load (Based 52 ARG1) R15; Load (Based 56 ARG1) R16;
    Load (Based 60 ARG1) R17; Load (Based 68 ARG1) RP;
    Jump RP; Load (Based 64 ARG1) R18 ].

Definition snake_InitialPC : regPa := R3.
Definition snake_InitialArg : regPa := R4.
Definition snake_WhenDonePC : regPa := R5.
Definition snake_StartupPC : regPa := R6.

(** [ble] is a call; its delay slot moves the return address to %rp. *)
Definition snake_ThreadRoot : list (asm regPa) :=
  [ Call snake_StartupPC; Move snake_InitialArg ARG0; Call snake_InitialPC; Call snake_WhenDonePC ].

Lemma delay_slot calls a r s tr : r <> RP ->
  run calls [Jump RP; Load a r] (s, tr) = run calls [Load a r; Jump RP] (s, tr).
Proof.
  intros Hr. unfold run. cbn [result_fold exec mbind result_bind c_regs c_mem c_pc].
  destruct (c_mem s !! address a (c_regs s)) as [v|]; [|done]. cbn. by rewrite set_register_ne.
Qed.

#[export, refine] Instance pa_host : RiscHost regPa :=
  { rh_old := ARG0; rh_new := ARG1; rh_link := RP; rh_saved := snake_offsets ++ [(R18, 64); (RP, 68)];
    rh_loaded := snake_offsets ++ [(RP, 68); (R18, 64)]; rh_size := 72; rh_SWITCH := snake_SWITCH }.
Proof.
  - repeat constructor; lia.
  - by apply (bool_decide_unpack _).
  - apply Permutation_app_head, Permutation_swap.
  - by apply (bool_decide_unpack _).
  - by apply (bool_decide_unpack _).
  - intros calls s tr.
    set (front := store_all ARG0 (snake_offsets ++ [(R18, 64); (RP, 68)]) ++ load_all ARG1 snake_offsets ++ [Load (Based 68 ARG1) RP]).
    change snake_SWITCH with (front ++ [Jump RP; Load (Based 64 ARG1) R18]).
    change (_ ++ _ ++ [Jump RP]) with (front ++ [Load (Based 64 ARG1) R18; Jump RP]). rewrite !run_app.
    destruct (run calls front (s, tr)) as [[s1 tr1]|]; [|done]. by apply delay_slot.
Defined.

(** Functions preserve r3 to r18. *)
Definition snake_abi_ok (calls : Z -> cpu regPa -> cpu regPa) : Prop :=
  forall f s r, r ∈ R18 :: SP :: snake_offsets.*1 -> c_regs (calls f s) r = c_regs s r.

Lemma snake_ThreadRoot_ok calls s tr : snake_abi_ok calls ->
  exists s' s1 s2 s3,
    run calls snake_ThreadRoot (s, tr)
      = Ok (s', tr ++ [(c_regs s snake_StartupPC, s1); (c_regs s snake_InitialPC, s2); (c_regs s snake_WhenDonePC, s3)])
    /\ c_regs s2 ARG0 = c_regs s snake_InitialArg.
Proof.
  intros Habi. unfold run, snake_ThreadRoot, snake_StartupPC, snake_InitialPC, snake_InitialArg, snake_WhenDonePC. cbn [result_fold exec c_regs c_mem c_pc mbind result_bind].
  set (s2 := mkCpu (set_register ARG0 _ _) _ _). eexists _, s, s2, _. split.
  - rewrite <-!app_assoc. cbn [app]. rewrite !Habi by (cbn; set_solver). cbn [s2 c_regs]. rewrite !(set_register_ne ARG0) by done.
    rewrite !Habi by (cbn; set_solver). reflexivity.
  - cbn [s2 c_regs]. rewrite set_register_eq. apply Habi. cbn. set_solver.
Qed.
End PaRisc.
