(* ===== verification/TestProgs.v ===== *)
(** * test/sort.c, matmult.c, shell.c: the user programs

    The C programs of the directory test, as functions on their arrays; an index outside an
    array is a fault.  What a program passes to [Exit] is its result; the shell is given what
    [Read] delivers from the console, and gives the system calls it makes. *)

From S2P Require Import Prelude.

(** ** sort.c *)

Definition SortSize : Z := 1024.

(** The body of the inner loop. *)
Definition sort_step (j : Z) (A : list Z) : result (list Z) :=
  x ← deref (A !! Z.to_nat j);
  y ← deref (A !! Z.to_nat (j + 1));
  Ok (if y <? x then <[Z.to_nat (j + 1) := x]> (<[Z.to_nat j := y]> A) else A).

(** [for (j = i; j < 1023 - i; j++)] *)
Definition sort_pass (n i : Z) (A : list Z) : result (list Z) := result_fold sort_step (seqZ i (n - 1 - i - i)) A.

(** [for (i = 0; i < 1023; i++)] *)
Definition sort_passes (n : Z) (A : list Z) : result (list Z) := result_fold (sort_pass n) (seqZ 0 (n - 1)) A.

(** The array after the first loop of [main], whatever it held. *)
Definition sort_init : list Z := map (fun i => SortSize - i) (seqZ 0 SortSize).

(** [main]: the array and the argument of [Exit]. *)
Definition sort_main : result (list Z * Z) :=
  A ← sort_passes SortSize sort_init; e ← deref (A !! 0%nat); Ok (A, e).

(** Exchanging neighbours. *)
Lemma swap_neighbours (A : list Z) j x y : A !! j = Some x -> A !! S j = Some y ->
  <[S j := x]> (<[j := y]> A) ≡ₚ A.
Proof.
  intros Hx Hy. pose proof (lookup_lt_Some _ _ _ Hy) as Hl.
  assert (E : A = take j A ++ x :: y :: drop (S (S j)) A).
  { rewrite <-(take_drop_middle A j x Hx) at 1. f_equal. f_equal. by rewrite <-(drop_S A y (S j) Hy). }
  assert (Hj : length (take j A) = j) by (rewrite length_take; lia).
  revert E Hj. generalize (take j A), (drop (S (S j)) A). intros l r -> <-. clear.
  replace (S (length l)) with (length l + 1)%nat by lia. rewrite <-(Nat.add_0_r (length l)) at 2.
  rewrite !insert_app_r. cbn [insert list_insert]. apply Permutation_app_head, Permutation_swap.
Qed.

(** A step inside the array: it exchanges or not, and touches two elements only. *)
Lemma sort_step_ok j A : 0 <= j -> j + 1 < Z.of_nat (length A) ->
  exists A' x y, sort_step j A = Ok A' /\ A' ≡ₚ A
    /\ A !! Z.to_nat j = Some x /\ A !! Z.to_nat (j + 1) = Some y
    /\ A' !! Z.to_nat j = Some (Z.min x y) /\ A' !! Z.to_nat (j + 1) = Some (Z.max x y)
    /\ forall k, k <> Z.to_nat j -> k <> Z.to_nat (j + 1) -> A' !! k = A !! k.
Proof.
  intros Hj Hl. destruct (lookup_lt_is_Some_2 A (Z.to_nat j)) as [x Hx]; [lia|].
  destruct (lookup_lt_is_Some_2 A (Z.to_nat (j + 1))) as [y Hy]; [lia|].
  unfold sort_step. rewrite Hx, Hy. cbn [deref mbind result_bind]. eexists _, x, y. split; [reflexivity|].
  replace (Z.to_nat (j + 1)) with (S (Z.to_nat j)) in * by lia.
  destruct (Z.ltb_spec y x).
  - split_and!; try done; [by apply swap_neighbours| | |].
    + rewrite list_lookup_insert_ne, list_lookup_insert_eq by lia. f_equal. lia.
    + rewrite list_lookup_insert_eq by (rewrite length_insert; lia). f_equal. lia.
    + intros k Hk1 Hk2. by rewrite !list_lookup_insert_ne by done.
  - split_and!; try done; [rewrite Hx|rewrite Hy]; f_equal; lia.
Qed.

(** Steps from [lo] on, below the end of the array. *)
Lemma sort_steps_ok lo k A : 0 <= lo -> lo + Z.of_nat k < Z.of_nat (length A) ->
  exists A', result_fold sort_step (seqZ lo (Z.of_nat k)) A = Ok A' /\ A' ≡ₚ A
    /\ (forall i, Z.of_nat i < lo \/ lo + Z.of_nat k < Z.of_nat i -> A' !! i = A !! i)
    /\ forall v, A' !! Z.to_nat (lo + Z.of_nat k) = Some v ->
         forall i w, lo <= Z.of_nat i <= lo + Z.of_nat k -> A' !! i = Some w -> w <= v.
Proof.
  revert A. induction k as [|k IH]; intros A Hlo Hl.
  { exists A. split_and!; try done. intros v Hv i w Hi Hw. replace i with (Z.to_nat (lo + Z.of_nat 0)) in Hw by lia. rewrite Hw in Hv. injection Hv as ->. lia. }
  rewrite Nat2Z.inj_succ, <-Z.add_1_r, seqZ_app, result_fold_app by lia.
  destruct (IH A) as (A1 & -> & P1 & F1 & M1); [done|lia|]. cbn [mbind result_bind seqZ].
  replace (seqZ (lo + Z.of_nat k) 1) with [lo + Z.of_nat k] by (unfold seqZ; cbn; f_equal; lia). cbn [result_fold].
  assert (L1 : length A1 = length A) by by rewrite P1.
  destruct (sort_step_ok (lo + Z.of_nat k) A1) as (A2 & x & y & -> & P2 & Hx & Hy & H1 & H2 & F2); [lia|lia|].
  cbn [mbind result_bind]. exists A2. split; [done|]. split; [by rewrite P2|]. rewrite Z.add_assoc. split.
  - intros i Hi. rewrite F2, F1 by lia. done.
  - intros v Hv i w Hi Hw. rewrite H2 in Hv. injection Hv as <-.
    destruct (decide (i = Z.to_nat (lo + Z.of_nat k + 1))) as [->|N2]; [rewrite H2 in Hw; injection Hw as <-; lia|].
    destruct (decide (i = Z.to_nat (lo + Z.of_nat k))) as [->|N1]; [rewrite H1 in Hw; injection Hw as <-; lia|].
    rewrite F2 in Hw by done. pose proof (M1 x Hx i w ltac:(lia) Hw). lia.
Qed.

(** Later passes leave both ends of the array alone. *)
Lemma sort_pass_inner n i A : Z.of_nat (length A) = n -> 1 <= i ->
  exists A', sort_pass n i A = Ok A' /\ A' ≡ₚ A /\ A' !! 0%nat = A !! 0%nat /\ A' !! Z.to_nat (n - 1) = A !! Z.to_nat (n - 1).
Proof.
  intros Hn Hi. unfold sort_pass. destruct (decide (0 < n - 1 - i - i)) as [Hk|Hk].
  - destruct (sort_steps_ok i (Z.to_nat (n - 1 - i - i)) A) as (A' & E & P & F & _); [lia|lia|].
    rewrite Z2Nat.id in E by lia. exists A'. split_and!; [done|done| |]; apply F; lia.
  - rewrite seqZ_nil by lia. by exists A.
Qed.

Lemma sort_passes_inner n lo k A : Z.of_nat (length A) = n -> 1 <= lo ->
  exists A', result_fold (sort_pass n) (seqZ lo (Z.of_nat k)) A = Ok A' /\ A' ≡ₚ A
    /\ A' !! 0%nat = A !! 0%nat /\ A' !! Z.to_nat (n - 1) = A !! Z.to_nat (n - 1).
Proof.
  revert lo A. induction k as [|k IH]; intros lo A Hn Hlo; [by exists A|].
  rewrite seqZ_cons by lia. cbn [result_fold].
  destruct (sort_pass_inner n lo A Hn Hlo) as (A1 & -> & P1 & H0 & He). cbn [mbind result_bind].
  replace (Z.pred (Z.of_nat (S k))) with (Z.of_nat k) by lia.
  destruct (IH (Z.succ lo) A1) as (A2 & E & P2 & H0' & He'); [by rewrite P1|lia|].
  exists A2. split_and!; [done|by rewrite P2|by rewrite H0'|by rewrite He'].
Qed.

(** What the loops of sort.c do to any array of at least two elements: a permutation, in which the
    last element is the largest and the first the smaller of the first two. *)
Lemma sort_passes_ok n A a b : Z.of_nat (length A) = n -> A !! 0%nat = Some a -> A !! 1%nat = Some b ->
  exists A', sort_passes n A = Ok A' /\ A' ≡ₚ A /\ A' !! 0%nat = Some (Z.min a b)
    /\ exists v, A' !! Z.to_nat (n - 1) = Some v /\ Forall (fun w => w <= v) A'.
Proof.
  intros Hn Ha Hb. pose proof (lookup_lt_Some _ _ _ Hb) as Hl. unfold sort_passes. rewrite seqZ_cons by lia. cbn [result_fold].
  change (sort_pass n 0 A) with (result_fold sort_step (seqZ 0 (n - 1 - 0 - 0)) A). rewrite ?Z.sub_0_r.
  assert (exists A1, result_fold sort_step (seqZ 0 (n - 1)) A = Ok A1 /\ A1 ≡ₚ A /\ A1 !! 0%nat = Some (Z.min a b)
    /\ exists v, A1 !! Z.to_nat (n - 1) = Some v /\ Forall (fun w => w <= v) A1) as (A1 & -> & P1 & H0 & v & Hv & Hmax).
  { destruct (sort_steps_ok 0 (Z.to_nat (n - 1)) A) as (A1 & E & P & _ & M); [lia|lia|]. rewrite Z2Nat.id, Z.add_0_l in * by lia.
    exists A1. split; [done|]. split; [done|]. split.
    - rewrite seqZ_cons in E by lia. cbn [result_fold] in E.
      destruct (sort_step_ok 0 A) as (A2 & x & y & E2 & P2 & Hx & Hy & H1 & _ & _); [lia|lia|].
      rewrite E2 in E. cbn [mbind result_bind] in E. assert (L2 : length A2 = length A) by by rewrite P2.
      destruct (sort_steps_ok 1 (Z.to_nat (n - 2)) A2) as (A3 & E3 & _ & F3 & _); [lia|lia|].
      replace (Z.of_nat (Z.to_nat (n - 2))) with (Z.pred (n - 1)) in E3 by lia. change (Z.succ 0) with 1 in E. rewrite E in E3.
      injection E3 as <-. rewrite F3 by lia. change (Z.to_nat 0) with 0%nat in *. change (Z.to_nat (0 + 1)) with 1%nat in *.
      rewrite H1. congruence.
    - assert (L1 : length A1 = length A) by by rewrite P. destruct (lookup_lt_is_Some_2 A1 (Z.to_nat (n - 1))) as [v Hv]; [lia|].
      exists v. split; [done|]. apply Forall_lookup_2. intros i w Hw. apply (M v Hv i w); [|done]. apply lookup_lt_Some in Hw. lia. }
  cbn [mbind result_bind]. destruct (sort_passes_inner n (Z.succ 0) (Z.to_nat (Z.pred (n - 1))) A1) as (A2 & E & P2 & H0' & He'); [by rewrite P1|lia|].
  rewrite Z2Nat.id in E by lia. exists A2. split_and!; [done|by rewrite P2|by rewrite H0'|].
  exists v. split; [by rewrite He'|]. by rewrite P2.
Qed.

(** C39.  sort.c does not sort.  Its loops end without leaving the array and only exchange
    elements, but the inner loop starts at [i] instead of 0, so that the first element is
    compared only once: the program exits with 1023, the smaller of its first two elements, where its
    comment promises 0, and the smallest element, 1, is not in front. *)
Theorem sort_does_not_sort :
  exists A, sort_main = Ok (A, 1023) /\ A ≡ₚ sort_init /\ ~ Sorted Z.le A
    /\ A !! Z.to_nat (SortSize - 1) = Some 1024.
Proof.
  destruct (sort_passes_ok SortSize sort_init 1024 1023) as (A & E & P & H0 & v & Hv & Hmax); [done..|].
  assert (Hin : forall x, x ∈ A <-> 1 <= x <= 1024).
  { intros x. rewrite P. unfold sort_init, SortSize. rewrite list_elem_of_fmap. setoid_rewrite elem_of_seqZ.
    split; [intros (i & -> & Hi); lia|]. intros Hx. exists (1024 - x). lia. }
  exists A. unfold sort_main. rewrite E. clear E. cbn [mbind result_bind]. rewrite H0. split; [done|]. split; [done|]. split.
  - intros HS%Sorted_StronglySorted; [|intros ? ? ?; apply Z.le_trans].
    clear P Hv Hmax. destruct A as [|x A]; [discriminate H0|]. injection H0 as ->. apply StronglySorted_inv in HS as [_ HF].
    assert (H1 : 1 ∈ Z.min 1024 1023 :: A) by (by apply Hin). apply elem_of_cons in H1 as [?|H1]; [done|].
    rewrite Forall_forall in HF. specialize (HF _ H1). lia.
  - rewrite Hv. f_equal. apply Z.le_antisymm; [apply Hin; by eapply list_elem_of_lookup_2|].
    rewrite Forall_forall in Hmax. apply Hmax, Hin. lia.
Qed.

(** ** matmult.c *)

Definition Dim : nat := 20.

Definition cell (M : list (list Z)) (i j : nat) : option Z := match M !! i with Some row => row !! j | None => None end.

(** [M[i][j]] read and written. *)
Definition get2 (M : list (list Z)) (i j : nat) : result Z := deref (cell M i j).
Definition set2 (i j : nat) (v : Z) (M : list (list Z)) : result (list (list Z)) :=
  row ← deref (M !! i); _ ← deref (row !! j); Ok (<[i := <[j := v]> row]> M).

(** The three loops of the product, for matrices of [n] rows and columns. *)
Definition mult_k (A B : list (list Z)) (i j k : nat) (C : list (list Z)) : result (list (list Z)) :=
  c ← get2 C i j; a ← get2 A i k; b ← get2 B k j; set2 i j (i32 (c + i32 (a * b))) C.
Definition mult_j (n : nat) (A B : list (list Z)) (i j : nat) (C : list (list Z)) : result (list (list Z)) :=
  result_fold (mult_k A B i j) (seq 0 n) C.
Definition mult_i (n : nat) (A B : list (list Z)) (i : nat) (C : list (list Z)) : result (list (list Z)) :=
  result_fold (mult_j n A B i) (seq 0 n) C.
Definition mult (n : nat) (A B C : list (list Z)) : result (list (list Z)) :=
  result_fold (mult_i n A B) (seq 0 n) C.

(** The matrices after the first loops: [A[i][j] = i], [B[i][j] = j] and [C[i][j] = 0]. *)
Definition fill (n : nat) (f : nat -> nat -> Z) : list (list Z) := map (fun i => map (f i) (seq 0 n)) (seq 0 n).
Definition matmult_main : result Z :=
  C ← mult Dim (fill Dim (fun i _ => Z.of_nat i)) (fill Dim (fun _ j => Z.of_nat j)) (fill Dim (fun _ _ => 0));
  get2 C (Dim - 1) (Dim - 1).

(** [n] rows of [n] elements. *)
Definition square (n : nat) (M : list (list Z)) : Prop := forall i j, (i < n)%nat -> (j < n)%nat -> is_Some (cell M i j).

(** The sum of the products, as the specification of an element. *)
Fixpoint dot (A B : list (list Z)) (i j : nat) (ks : list nat) : Z :=
  match ks with
  | [] => 0
  | k :: ks => default 0 (cell A i k) * default 0 (cell B k j) + dot A B i j ks
  end.

Lemma set2_ok i j v w M : cell M i j = Some w ->
  exists M', set2 i j v M = Ok M' /\ cell M' i j = Some v /\ (forall i' j', (i', j') <> (i, j) -> cell M' i' j' = cell M i' j').
Proof.
  unfold cell, set2. intros Hc. destruct (M !! i) as [row|] eqn:Hr; [|done]. cbn [deref mbind result_bind]. rewrite Hc. cbn [deref mbind result_bind].
  eexists. split; [reflexivity|]. pose proof (lookup_lt_Some _ _ _ Hr). pose proof (lookup_lt_Some _ _ _ Hc). split.
  - rewrite list_lookup_insert_eq by done. by apply list_lookup_insert_eq.
  - intros i' j' Hne. destruct (decide (i' = i)) as [->|Hi]; [|by rewrite list_lookup_insert_ne].
    rewrite list_lookup_insert_eq, Hr by done. apply list_lookup_insert_ne. congruence.
Qed.

Section Product.
Context (n : nat) (A B : list (list Z)) (HA : square n A) (HB : square n B).

(** The innermost loop adds the product to one element, modulo 2^32. *)
Lemma mult_ks_ok i j ks C c : (i < n)%nat -> (j < n)%nat -> Forall (fun k => k < n)%nat ks -> cell C i j = Some c -> in_i32 c ->
  exists C', result_fold (mult_k A B i j) ks C = Ok C' /\ cell C' i j = Some (i32 (c + dot A B i j ks))
    /\ forall i' j', (i', j') <> (i, j) -> cell C' i' j' = cell C i' j'.
Proof.
  intros Hi Hj Hks. revert C c. induction Hks as [|k ks Hk Hks IH]; intros C c Hc Hr; cbn [result_fold dot].
  { exists C. rewrite Z.add_0_r, i32_id by done. done. }
  destruct (HA i k Hi Hk) as [a Ha]. destruct (HB k j Hk Hj) as [b Hb]. rewrite Ha, Hb. cbn [default].
  replace (mult_k A B i j k C) with (set2 i j (i32 (c + i32 (a * b))) C) by (unfold mult_k, get2; by rewrite Hc, Ha, Hb).
  destruct (set2_ok i j (i32 (c + i32 (a * b))) c C Hc) as (C1 & -> & H1 & F1). cbn [mbind result_bind].
  destruct (IH C1 _ H1 (i32_range _)) as (C2 & E & H2 & F2). exists C2. split; [done|]. split.
  - rewrite H2. f_equal. rewrite i32_add_l, <-Z.add_assoc, (Z.add_comm (i32 _)), Z.add_assoc, i32_add_r. f_equal. cbn. lia.
  - intros i' j' Hne. by rewrite F2, F1.
Qed.

(** The elements of the rows and columns that are done are the sums, the others as before. *)
Definition product_upto (C C' : list (list Z)) (ready : nat -> nat -> Prop) : Prop :=
  (forall i j c, (i < n)%nat -> (j < n)%nat -> ready i j -> cell C i j = Some c -> cell C' i j = Some (i32 (c + dot A B i j (seq 0 n))))
  /\ forall i j, ~ ready i j -> cell C' i j = cell C i j.

Definition values (C : list (list Z)) : Prop := forall i j c, (i < n)%nat -> (j < n)%nat -> cell C i j = Some c -> in_i32 c.

Lemma mult_i_ok i C : (i < n)%nat -> square n C -> values C ->
  exists C', mult_i n A B i C = Ok C' /\ product_upto C C' (fun i' j' => i' = i /\ (j' < n)%nat).
Proof.
  intros Hi HC Hv. unfold mult_i.
  assert (Hgo : forall m, (m <= n)%nat -> exists C', result_fold (mult_j n A B i) (seq 0 m) C = Ok C'
    /\ product_upto C C' (fun i' j' => i' = i /\ (j' < m)%nat)); [|by apply Hgo].
  induction m as [|m IH]; intros Hm.
  { exists C. split; [done|]. split; [lia|done]. }
  destruct IH as (C1 & E1 & D1 & F1); [lia|]. rewrite seq_S, result_fold_app, E1. cbn [mbind result_bind Nat.add result_fold].
  destruct (HC i m) as [c Hc]; [lia..|].
  destruct (mult_ks_ok i m (seq 0 n) C1 c) as (C2 & E2 & H2 & F2); [lia|lia| | |by apply (Hv i m c)|].
  { apply Forall_forall. intros k Hk%elem_of_seq. lia. }
  { rewrite F1 by lia. done. }
  unfold mult_j at 1. rewrite E2. cbn [mbind result_bind]. exists C2. split; [done|]. split.
  - intros i' j' c' Hi' Hj' [-> Hlt] Hc'. destruct (decide (j' = m)) as [->|Hne]; [congruence|].
    rewrite F2 by congruence. apply D1; [done..|lia|done].
  - intros i' j' Hnr. rewrite F2, F1; [done|lia|]. intros [= -> ->]. lia.
Qed.

(** The loops of matmult.c compute the product of any two matrices of machine integers,
    added to what the result held before, in the arithmetic of 32-bit integers, and leave no
    array; the program exits with the last element. *)
Theorem matmult_correct C : square n C -> values C ->
  exists C', mult n A B C = Ok C'
    /\ forall i j c, (i < n)%nat -> (j < n)%nat -> cell C i j = Some c -> cell C' i j = Some (i32 (c + dot A B i j (seq 0 n))).
Proof.
  intros HC Hv. unfold mult.
  assert (Hgo : forall m, (m <= n)%nat -> exists C', result_fold (mult_i n A B) (seq 0 m) C = Ok C'
    /\ product_upto C C' (fun i' j' => i' < m /\ j' < n)%nat).
  { induction m as [|m IH]; intros Hm.
    { exists C. split; [done|]. split; [lia|done]. }
    destruct IH as (C1 & E1 & D1 & F1); [lia|]. rewrite seq_S, result_fold_app, E1. cbn [mbind result_bind Nat.add result_fold].
    destruct (mult_i_ok m C1) as (C2 & E2 & D2 & F2); [lia| | |].
    { intros i j Hi Hj. destruct (decide (i < m)%nat) as [Hlt|Hge].
      - destruct (HC i j Hi Hj) as [c Hc]. rewrite (D1 i j c) by (done || lia). eauto.
      - rewrite F1 by lia. by apply HC. }
    { intros i j c Hi Hj Hc. destruct (decide (i < m)%nat) as [Hlt|Hge].
      - destruct (HC i j Hi Hj) as [c0 Hc0]. rewrite (D1 i j c0) in Hc by (done || lia). injection Hc as <-. apply i32_range.
      - rewrite F1 in Hc by lia. by apply (Hv i j). }
    rewrite E2. cbn [mbind result_bind]. exists C2. split; [done|]. split.
    - intros i j c Hi Hj [Hlt _] Hc. destruct (decide (i = m)) as [->|Hne].
      + apply D2; try done. rewrite F1 by lia. done.
      + rewrite F2 by lia. apply D1; [done..|lia|done].
    - intros i j Hnr. rewrite F2, F1 by lia. done. }
  destruct (Hgo n) as (C' & E & D & _); [lia|]. exists C'. split; [done|]. intros. by apply D.
Qed.
End Product.

Lemma cell_fill n f i j : (i < n)%nat -> (j < n)%nat -> cell (fill n f) i j = Some (f i j).
Proof.
  intros Hi Hj. unfold cell, fill. rewrite list_lookup_fmap, lookup_seq_lt by done. cbn. by rewrite list_lookup_fmap, lookup_seq_lt.
Qed.

Lemma square_fill n f : square n (fill n f).
Proof. intros i j Hi Hj. rewrite cell_fill by done. eauto. Qed.

Lemma matmult_correct_witness :
  exists C', mult 2 (fill 2 (fun _ j => Z.of_nat j + 1)) (fill 2 (fun i _ => 2 ^ 31 - Z.of_nat i)) (fill 2 (fun _ _ => 5)) = Ok C'
    /\ cell C' 0 0 = Some (i32 (5 + (2 ^ 31 + 2 * (2 ^ 31 - 1)))).
Proof.
  destruct (matmult_correct 2 (fill 2 (fun _ j => Z.of_nat j + 1)) (fill 2 (fun i _ => 2 ^ 31 - Z.of_nat i))
    (square_fill _ _) (square_fill _ _) (fill 2 (fun _ _ => 5)) (square_fill _ _)) as (C' & E & H).
  - intros i j c Hi Hj. rewrite cell_fill by done. intros [= <-]. done.
  - exists C'. split; [exact E|]. rewrite (H 0%nat 0%nat 5) by (lia || reflexivity). reflexivity.
Defined.

(** The exit code of matmult.c: twenty times 19 * 19. *)
Example matmult_exit : matmult_main = Ok 7220.
Proof. by vm_compute. Qed.

(** ** shell.c *)

(** The system calls of the shell; [Join] waits for the program just started. *)
Inductive shell_call := SWrite (bytes : list Z) | SExec (name : list Z) | SJoin.

Definition nl : Z := 10.
Definition BufferSize : nat := 60.

(** The inner loop: characters go to [buffer[i++]] up to the newline.  [None]: the console has
    no more characters and [Read] waits. *)
Fixpoint read_line (buffer : list Z) (i : nat) (input : list Z) : result (option (list Z * nat * list Z)) :=
  match input with
  | [] => Ok None
  | c :: input =>
      _ ← deref (buffer !! i);
      let buffer := <[i := c]> buffer in
      if c =? nl then Ok (Some (buffer, S i, input)) else read_line buffer (S i) input
  end.

(** What [Exec] makes of its argument: the bytes before the first null. *)
Fixpoint c_string (bytes : list Z) : list Z :=
  match bytes with [] => [] | c :: bytes => if c =? 0 then [] else c :: c_string bytes end.

(** One round of the loop: the buffer, the calls, and the input that is left, if the round ends. *)
Definition shell_round (buffer input : list Z) : result (list shell_call * option (list Z * list Z)) :=
  let prompt := SWrite [45; 45] in
  line ← read_line buffer 0 input;
  match line with
  | None => Ok ([prompt], None)
  | Some (buffer, i, input) =>
      let i := (i - 1)%nat in
      let buffer := <[i := 0]> buffer in
      Ok (prompt :: (if (0 <? i)%nat then [SExec (c_string buffer); SJoin] else []), Some (buffer, input))
  end.

(** The shell, until it waits for input; at most [n] rounds. *)
Fixpoint shell (n : nat) (buffer input : list Z) : result (list shell_call) :=
  match n with
  | O => Err OutOfFuel
  | S n =>
      '(calls, rest) ← shell_round buffer input;
      match rest with
      | None => Ok calls
      | Some (buffer, input) => more ← shell n buffer input; Ok (calls ++ more)
      end
  end.

(** A line without its newline. *)
Definition is_line (l : list Z) : Prop := Forall (fun c => c <> nl /\ c <> 0) l.

(** Reading [l] from position [i] on. *)
Lemma read_line_ok l : forall buffer i rest,
  Forall (fun c => c <> nl) l -> (i + length l < length buffer)%nat ->
  read_line buffer i (l ++ nl :: rest)
    = Ok (Some (take i buffer ++ l ++ nl :: drop (i + length l + 1) buffer, (i + length l + 1)%nat, rest)).
Proof.
  induction l as [|c l IH]; intros buffer i rest Hl Hi; cbn [read_line app length] in *.
  - destruct (lookup_lt_is_Some_2 buffer i) as [x Hx]; [lia|]. rewrite Hx. cbn [deref mbind result_bind]. rewrite Z.eqb_refl.
    replace (i + 0 + 1)%nat with (S i) by lia. by rewrite insert_take_drop by lia.
  - apply Forall_cons in Hl as [Hc Hl]. destruct (lookup_lt_is_Some_2 buffer i) as [x Hx]; [lia|]. rewrite Hx.
    cbn [deref mbind result_bind]. rewrite (proj2 (Z.eqb_neq c nl)) by done.
    rewrite IH by (rewrite ?length_insert; done || lia).
    replace (S i + length l + 1)%nat with (i + S (length l) + 1)%nat by lia.
    rewrite (take_S_r _ _ c) by (apply list_lookup_insert_eq; lia). rewrite take_insert_ge, drop_insert_lt by lia. by rewrite <-app_assoc.
Qed.

Lemma c_string_line l rest : Forall (fun c => c <> 0) l -> c_string (l ++ 0 :: rest) = l.
Proof. induction 1 as [|c l Hc _ IH]; cbn; [done|]. rewrite (proj2 (Z.eqb_neq c 0)) by done. by rewrite IH. Qed.

(** The calls for one line. *)
Definition line_calls (l : list Z) : list shell_call :=
  SWrite [45; 45] :: match l with [] => [] | _ => [SExec l; SJoin] end.

Lemma shell_round_ok buffer l rest : is_line l -> (length l < length buffer)%nat ->
  exists buffer', shell_round buffer (l ++ nl :: rest) = Ok (line_calls l, Some (buffer', rest)) /\ length buffer' = length buffer.
Proof.
  intros Hl Hb. assert (Hn : Forall (fun c => c <> nl) l) by (eapply Forall_impl; [exact Hl|]; naive_solver).
  assert (H0 : Forall (fun c => c <> 0) l) by (eapply Forall_impl; [exact Hl|]; naive_solver).
  unfold shell_round. rewrite read_line_ok by done. cbn [mbind result_bind]. rewrite take_0. cbn [app Nat.add].
  replace (length l + 1 - 1)%nat with (length l) by lia.
  assert (Hins : forall r, <[length l := 0]> (l ++ nl :: r) = l ++ 0 :: r).
  { intros r. by rewrite insert_app_r_alt, Nat.sub_diag by lia. }
  rewrite Hins.
  eexists. split.
  - rewrite c_string_line by done. by destruct l.
  - rewrite length_app. cbn [length]. rewrite length_drop. lia.
Qed.

(** The shell runs the lines it is given: after a prompt for each it starts every line that is not
    empty, in order and unchanged, and waits for it, as long as no line has more than 59
    characters (or a null character). *)
Theorem shell_runs_lines (buffer : list Z) (ls : list (list Z)) (n : nat) :
  length buffer = BufferSize -> Forall (fun l => is_line l /\ (length l < BufferSize)%nat) ls -> (length ls < n)%nat ->
  shell n buffer (concat (map (fun l => l ++ [nl]) ls)) = Ok (concat (map line_calls ls) ++ [SWrite [45; 45]]).
Proof.
  intros Hb Hls. revert buffer n Hb. induction Hls as [|l ls [Hl Hlen] _ IH]; intros buffer n Hb Hn.
  - destruct n; [cbn in Hn; lia|]. done.
  - destruct n as [|n]; [cbn in Hn; lia|]. cbn [map concat shell length] in *. rewrite <-!app_assoc. cbn [app].
    destruct (shell_round_ok buffer l (concat (map (fun l => l ++ [nl]) ls))) as (buffer' & -> & Hb'); [done|lia|].
    cbn [mbind result_bind]. rewrite IH by (congruence || lia). done.
Qed.

Lemma read_line_overflow l : forall buffer i rest,
  Forall (fun c => c <> nl) l -> (i <= length buffer <= i + length l)%nat ->
  read_line buffer i (l ++ nl :: rest) = Err MemFault.
Proof.
  induction l as [|c l IH]; intros buffer i rest Hl Hi; cbn [read_line app length] in *.
  - rewrite lookup_ge_None_2 by lia. done.
  - apply Forall_cons in Hl as [Hc Hl]. destruct (buffer !! i) as [x|] eqn:Hx; cbn [deref mbind result_bind]; [|done].
    rewrite (proj2 (Z.eqb_neq c nl)) by done. apply IH; [done|]. rewrite length_insert. apply lookup_lt_Some in Hx. lia.
Qed.

(** A line of 60 characters or more is written past the end of the buffer. *)
Theorem shell_overflow (buffer l rest : list Z) (n : nat) :
  length buffer = BufferSize -> Forall (fun c => c <> nl) l -> (BufferSize <= length l)%nat ->
  shell (S n) buffer (l ++ nl :: rest) = Err MemFault.
Proof. intros Hb Hl Hlen. cbn [shell]. unfold shell_round. by rewrite read_line_overflow by (done || lia). Qed.

Lemma shell_runs_lines_witness :
  shell 4 (replicate 60 7) (concat (map (fun l => l ++ [nl]) [[104; 97; 108; 116]; []; replicate 59 97]))
    = Ok (concat (map line_calls [[104; 97; 108; 116]; []; replicate 59 97]) ++ [SWrite [45; 45]]).
Proof.
  apply (shell_runs_lines (replicate 60 7) [[104; 97; 108; 116]; []; replicate 59 97] 4).
  - reflexivity.
  - by apply (bool_decide_unpack _).
  - cbn. lia.
Defined.
