(* ===== verification/UserStart.v ===== *)
(** * test/start.c, halt.c, test.c: the system call stubs, from the instruction to the exception handler

    The assembly of start.c as words of MIPS code, linked with the [main] of halt.c or of test.c;
    [halt_object] is checked against the words of the object file test/halt.  What a stub does is
    proved for every program that contains it, on the instruction simulator and the exception
    handler together; halt and test are also loaded by [StartProcess1] and run from [__start] on. *)

From S2P Require Import Prelude BitMap Disk FileHdr OpenFile Interrupt Machine Mips MachineSafe UserMemory AddrSpace Process.

(** syscall.h *)
Definition SC_Exec : Z := 2.
Definition SC_Join : Z := 3.
Definition SC_Create : Z := 4.
Definition SC_Open : Z := 5.
Definition SC_Read : Z := 6.
Definition SC_Write : Z := 7.
Definition SC_Close : Z := 8.
Definition SC_Fork : Z := 9.
Definition SC_Yield : Z := 10.

Definition nop : Z := 0.
Definition addiu (rt rs imm : Z) : Z := encode_I 9 rs rt (imm `mod` 2 ^ 16).
Definition lw (rt off base : Z) : Z := encode_I 35 base rt off.
Definition sw (rt off base : Z) : Z := encode_I 43 base rt off.
Definition move (rd rs : Z) : Z := encode_R rs 0 rd 0 33.
Definition jal (word : Z) : Z := encode_J 3 word.
Definition jr (rs : Z) : Z := encode_R rs 0 0 0 8.
Definition syscall_word : Z := 12.

(** [addiu $2,$0,code; syscall; j $31]; the assembler fills the delay slot. *)
Definition stub (code : Z) : list Z := [addiu 2 0 code; syscall_word; jr 31; nop].

(** Where the stub is, in words. *)
Definition stub_at (code : Z) : Z := 4 + 4 * code.

(** The assembler moves [move $4,$0] into the delay slot of the second jump. *)
Definition __start (main : Z) : list Z := [jal main; nop; jal (stub_at SC_Exit); move 4 0].

Definition start_c (main : Z) : list Z :=
  __start main
  ++ ([SC_Halt; SC_Exit; SC_Exec; SC_Join; SC_Create; SC_Open; SC_Read; SC_Write; SC_Close; SC_Fork; SC_Yield] ≫= stub)
  ++ [jr 31; nop].                       (* __main *)

(** [main], which starts at word 52, as compiled: a frame, the call of [__main], the body. *)
Definition main_word : Z := 52.
Definition __main_word : Z := 48.
Definition main_code (body : list Z) : list Z :=
  [addiu 29 29 (-24); sw 31 20 29; sw 30 16 29; jal __main_word; move 30 29]
  ++ body ++ [move 29 30; lw 31 20 29; lw 30 16 29; jr 31; addiu 29 29 24].

Definition linked (body : list Z) : list Z := start_c main_word ++ [nop; nop] ++ main_code body.

(** halt.c *)
Definition halt_object : list Z := linked [jal (stub_at SC_Halt); nop].

(** The code segment of test/halt. *)
Example halt_object_file : halt_object =
  [0x0c000034; 0; 0x0c000008; 0x00002021; 0x24020000; 0x0000000c; 0x03e00008; 0; 0x24020001; 0x0000000c; 0x03e00008; 0;
   0x24020002; 0x0000000c; 0x03e00008; 0; 0x24020003; 0x0000000c; 0x03e00008; 0; 0x24020004; 0x0000000c; 0x03e00008; 0;
   0x24020005; 0x0000000c; 0x03e00008; 0; 0x24020006; 0x0000000c; 0x03e00008; 0; 0x24020007; 0x0000000c; 0x03e00008; 0;
   0x24020008; 0x0000000c; 0x03e00008; 0; 0x24020009; 0x0000000c; 0x03e00008; 0; 0x2402000a; 0x0000000c; 0x03e00008; 0;
   0x03e00008; 0; 0; 0; 0x27bdffe8; 0xafbf0014; 0xafbe0010; 0x0c000030; 0x03a0f021; 0x0c000004; 0; 0x03c0e821; 0x8fbf0014;
   0x8fbe0010; 0x03e00008; 0x27bd0018].
Proof. by vm_compute. Qed.

(** ** A stub in any program *)

Lemma set_registers_wf m rs :
  mwf m -> length rs = NumTotalRegs -> Forall in_i32 rs -> (exists r, rs !! 37%nat = Some r /\ 0 <= r < 32) ->
  mwf (m_set_registers rs m).
Proof. intros [] ? ? ?. by constructor. Qed.

Lemma set_status_wf m st : mwf m -> mwf (m_set_status st m).
Proof. intros []. by constructor. Qed.

(** [DelayedLoad] on the registers. *)
Definition delayed (rs : list Z) (l v r x : Z) : list Z :=
  <[0%nat := 0]> (<[38%nat := x]> (<[37%nat := r]> (<[Z.to_nat l := v]> rs))).

Lemma DelayedLoad_eq m l v r x :
  length (m_registers m) = NumTotalRegs -> m_registers m !! 37%nat = Some l -> m_registers m !! 38%nat = Some v -> 0 <= l < 32 ->
  Machine_DelayedLoad r x m = Ok (Next tt (m_set_registers (delayed (m_registers m) l v r x) m)).
Proof.
  intros Hn Hl Hv Hr. unfold Machine_DelayedLoad, NumTotalRegs in *.
  rewrite (user_bind_Ok _ _ m l m) by by apply reg_eq. rewrite (user_bind_Ok _ _ m v m) by by apply reg_eq.
  do 3 (erewrite user_bind_Ok; [|apply set_reg_eq; cbn; rewrite ?length_insert; unfold LoadReg, LoadValueReg; lia]; cbv beta).
  rewrite set_reg_eq by (cbn; rewrite !length_insert; lia). done.
Qed.

Lemma length_delayed rs l v r x : length (delayed rs l v r x) = length rs.
Proof. unfold delayed. by rewrite !length_insert. Qed.

Lemma delayed_i32 rs l v r x : Forall in_i32 rs -> in_i32 v -> in_i32 r -> in_i32 x -> Forall in_i32 (delayed rs l v r x).
Proof. intros. unfold delayed. repeat apply Forall_insert; try done. Qed.

(** A register that is neither 0, nor the target of the pending load, nor one of the two that hold it. *)
Lemma delayed_other rs l v r x (i : nat) :
  i <> 0%nat -> i <> 37%nat -> i <> 38%nat -> i <> Z.to_nat l -> delayed rs l v r x !! i = rs !! i.
Proof. intros. unfold delayed. by rewrite !list_lookup_insert_ne. Qed.

Lemma delayed_load rs l v r x : length rs = NumTotalRegs -> delayed rs l v r x !! 37%nat = Some r.
Proof. intros Hn. unfold delayed. rewrite !list_lookup_insert_ne by done. apply list_lookup_insert_eq. rewrite length_insert, Hn. unfold NumTotalRegs. lia. Qed.

(** What the kernel has done with a program that it ended: its memory is as it was, and its
    frames are free, and no others. *)
Definition released (m m' : Machine) : Prop :=
  m_mainMemory m' = m_mainMemory m /\ frames m' = frames m
  /\ forall j, 0 <= j -> bm_bit (m_bitMap m') j = if decide (j ∈ frames m) then false else bm_bit (m_bitMap m) j.

(** How a program ends that makes the system call [code]. *)
Definition ends_as (code : Z) (m : Machine) (r : result (flow unit)) : Prop :=
  match r with
  | Ok (Stop HaltMachine m') => code = SC_Halt /\ released m m'
  | Ok (Stop ExitThread m') => code = SC_Exit /\ released m m'
  | Ok (Next _ _) => False
  | Err e => e = AssertFailed /\ code <> SC_Halt /\ code <> SC_Exit
  end.

Section Stub.
Context (flags : Flags) (garbage : Z) (Hno : USE_TLB flags = false).

Lemma ClearAll_releases m : mwf m ->
  exists bm, Machine_ClearAll flags m = Ok (Next tt (m_set_bitMap bm m))
    /\ forall j, 0 <= j -> bm_bit bm j = if decide (j ∈ frames m) then false else bm_bit (m_bitMap m) j.
Proof.
  intros Hw. destruct (w_table _ Hw) as (p & Hp & Ht). destruct (w_bm _ Hw) as [Hb Hn].
  destruct (ClearAll_eq flags m p (table m)) as (bm & HC & _ & _ & Hbits); try done; [by rewrite Hno|apply Hw| |eauto].
  rewrite Hn. eapply Forall_impl; [apply (w_ok _ Hw)|]. by intros e [_ ?].
Qed.

(** The system call of a well-formed machine with its number in register 2. *)
Lemma syscall_ends m code :
  mwf m -> m_registers m !! 2%nat = Some code -> m_registers m !! 37%nat = Some 0 ->
  ends_as code m (Machine_RaiseException flags SyscallException 0 m).
Proof.
  intros Hw H2 H37. pose proof (w_regs _ Hw) as Hn. pose proof Hn as Hn'. unfold NumTotalRegs in Hn'. unfold Machine_RaiseException.
  rewrite (user_bind_Ok _ _ m tt _) by (apply set_reg_eq; unfold BadVAddrReg; lia). cbv beta.
  set (m1 := m_set_registers _ m).
  destruct (lookup_lt_is_Some_2 (m_registers m1) 38) as [v Hv]; [cbn; rewrite length_insert; lia|].
  assert (H37' : m_registers m1 !! 37%nat = Some 0) by (cbn; by rewrite list_lookup_insert_ne).
  assert (Hvi : in_i32 v) by (apply (Forall_lookup_1 _ (m_registers m) 38%nat v (w_i32 _ Hw)); rewrite <-Hv; cbn; by rewrite list_lookup_insert_ne).
  rewrite (user_bind_Ok _ _ m1 tt _ (DelayedLoad_eq m1 0 v 0 0 ltac:(cbn; by rewrite length_insert) H37' Hv ltac:(lia))).
  set (rs := delayed _ _ _ _ _). rewrite (user_bind_Ok _ _ _ tt (m_set_status SystemMode (m_set_registers rs m1))) by done.
  set (m2 := m_set_status _ _).
  assert (Hw2 : mwf m2).
  { apply set_status_wf, (set_registers_wf m rs Hw); unfold rs.
    - rewrite length_delayed. cbn. by rewrite length_insert.
    - apply delayed_i32; [cbn; apply Forall_insert; [apply Hw|]|..]; unfold in_i32; try lia. exact Hvi.
    - exists 0. split; [apply delayed_load; cbn; by rewrite length_insert|lia]. }
  assert (H2' : m_registers m2 !! 2%nat = Some code) by (cbn; unfold rs; rewrite delayed_other by done; cbn; by rewrite list_lookup_insert_ne).
  destruct (ClearAll_releases m2 Hw2) as (bm & HC & Hbits).
  unfold mbind, user_bind, ExceptionHandler. fold (@mbind user user_bind).
  rewrite (user_bind_Ok _ _ m2 code m2) by by apply (ReadRegister_eq m2 2); [apply Hw2|].
  change (bool_decide (SyscallException = SyscallException)) with true. cbn [andb].
  destruct (Z.eqb_spec code SC_Halt) as [->|Hh].
  { rewrite (user_bind_Ok _ _ m2 tt _ HC). done. }
  destruct (Z.eqb_spec code SC_Exit) as [->|He]; [|done].
  rewrite (user_bind_Ok _ _ m2 tt _ HC).
  set (m3 := m_set_bitMap bm m2). pose proof (w_regs _ Hw2) as Hn2.
  destruct (lookup_lt_is_Some_2 (m_registers m3) 4) as [r4 Hr4]; [change (m_registers m3) with (m_registers m2); rewrite Hn2; unfold NumTotalRegs; lia|].
  destruct (lookup_lt_is_Some_2 (m_registers m3) 35) as [np Hnp]; [change (m_registers m3) with (m_registers m2); rewrite Hn2; unfold NumTotalRegs; lia|].
  rewrite (user_bind_Ok _ _ m3 r4 m3) by by apply (ReadRegister_eq m3 4). unfold IncrementPCRegs.
  rewrite (user_bind_Ok _ _ m3 tt (m_set_registers (<[34%nat := np]> (m_registers m3)) m3)); [done|].
  rewrite (user_bind_Ok _ _ m3 np m3) by by apply (ReadRegister_eq m3 35). apply (WriteRegister_eq m3 34); [done|unfold NumTotalRegs; lia].
Qed.

Lemma decode_number code : 0 <= code < 2 ^ 15 ->
  exists rd, Instruction_Decode (addiu 2 0 code) = Ok (mkInstr OP_ADDIU 0 2 rd code).
Proof.
  intros Hc. unfold addiu, encode_I. rewrite Z.mod_small by lia. set (w := _ + code).
  assert (Hw : w = 603979776 + 131072 + code) by (unfold w; lia).
  rewrite (Decode_eq w OP_ADDIU IFMT) by (replace ((w `div` 2 ^ 26) `mod` 2 ^ 6) with 9 by field_lia; done).
  cbn [Decode_op mbind result_bind]. replace (w `mod` 2 ^ 16) with code by field_lia.
  replace (sext16 code) with code by (unfold sext16; destruct (Z.ltb_spec code (2 ^ 15)); lia).
  replace ((w `div` 2 ^ 21) `mod` 2 ^ 5) with 0 by field_lia. replace ((w `div` 2 ^ 16) `mod` 2 ^ 5) with 2 by field_lia. eauto.
Qed.

Lemma fetched_word w : in_u32 w -> u32 (int_of_bytes (le_enc 4 w)) = w.
Proof. intros Hw. unfold int_of_bytes. rewrite le_dec_enc. change (256 ^ Z.of_nat 4) with (2 ^ 32). wrap_lia. Qed.

Lemma stub_words vm pc code : slice vm pc 16 = (stub code ≫= le_enc 4) ->
  slice vm pc 4 = le_enc 4 (addiu 2 0 code) /\ slice vm (pc + 4) 4 = le_enc 4 syscall_word /\ (pc + 16 <= length vm)%nat.
Proof.
  intros Hs. assert (Hl : length (slice vm pc 16) = 16%nat) by (rewrite Hs; done).
  assert (Hsub : forall k, (k + 4 <= 16)%nat -> slice vm (pc + k) 4 = slice (slice vm pc 16) k 4).
  { intros k Hk. unfold slice. rewrite skipn_firstn_comm, take_take, drop_drop. f_equal. lia. }
  split_and!.
  - rewrite <-(Nat.add_0_r pc), Hsub, Hs by lia. done.
  - rewrite Hsub, Hs by lia. done.
  - unfold slice in Hl. rewrite length_take, length_drop in Hl. lia.
Qed.

Lemma aligned_next pc : Z.land pc 3 = 0 -> Z.land (pc + 4) 3 = 0.
Proof. change 3 with (Z.ones 2). rewrite !Z.land_ones by lia. change (2 ^ 2) with 4. intros. Z.div_mod_to_equations. lia. Qed.

(** The first instruction of the stub puts the number of the system call into register 2. *)
Lemma stub_number m pc code :
  mwf m -> 0 <= pc -> Z.land pc 3 = 0 -> pc + 4 < Z.of_nat (length (vmem m)) -> 0 <= code < 2 ^ 15 ->
  m_registers m !! 0%nat = Some 0 -> m_registers m !! 34%nat = Some pc -> m_registers m !! 35%nat = Some (pc + 4) ->
  m_registers m !! 37%nat <> Some 2 ->
  slice (vmem m) (Z.to_nat pc) 4 = le_enc 4 (addiu 2 0 code) ->
  exists m1, Machine_OneInstruction flags garbage m = Ok (Next tt m1) /\ mwf m1 /\ frames m1 = frames m
    /\ m_mainMemory m1 = m_mainMemory m /\ m_bitMap m1 = m_bitMap m
    /\ m_registers m1 !! 2%nat = Some code /\ m_registers m1 !! 34%nat = Some (pc + 4) /\ m_registers m1 !! 37%nat = Some 0.
Proof.
  intros Hw Hpc Hal Hin Hc H0 H34 H35 H37 Hs. destruct (w_load _ Hw) as (l & Hl & Hlr).
  pose proof (Forall_lookup_1 _ _ _ _ (w_i32 _ Hw) H34) as Hp34. pose proof (Forall_lookup_1 _ _ _ _ (w_i32 _ Hw) H35) as Hp35.
  assert (Hu : u32 pc = pc) by (apply u32_id; unfold in_u32, in_i32 in *; lia).
  destruct (fetch_word flags garbage pc m Hw Hp34) as (m0 & HR & Hw0 & Hf0 & Hm0 & Hr0 & Hb0).
  { split; [by right; right|]. split; [rewrite Hu; lia|done]. }
  rewrite Hu, Hs in HR. destruct (decode_number code Hc) as (rd & HD).
  pose proof (w_regs _ Hw0) as Hn0. pose proof Hn0 as Hn. unfold NumTotalRegs in Hn.
  unfold Machine_OneInstruction. rewrite (user_bind_Ok _ _ m pc m) by by apply reg_eq. rewrite (user_bind_Ok _ _ m _ m0 HR). cbv beta iota.
  rewrite (user_bind_Ok _ _ m0 (mkInstr OP_ADDIU 0 2 rd code) m0).
  2:{ unfold lift. rewrite fetched_word, HD; [done|]. unfold addiu, encode_I, in_u32. rewrite Z.mod_small; lia. }
  rewrite <-Hr0 in *. rewrite (user_bind_Ok _ _ m0 (pc + 4) m0) by by apply reg_eq.
  set (rs := <[2%nat := code]> (m_registers m0)).
  rewrite (user_bind_Ok _ _ m0 (Some (i32 (pc + 4 + 4), (0, 0))) (m_set_registers rs m0)).
  2:{ cbn [execute in_opCode in_rs in_rt in_extra]. rewrite (user_bind_Ok _ _ m0 0 m0) by by apply reg_eq.
      rewrite (user_bind_Ok _ _ m0 tt (m_set_registers rs m0)); [done|]. rewrite set_reg_eq by lia. rewrite i32_id by (unfold in_i32; lia). done. }
  cbv beta iota. destruct (lookup_lt_is_Some_2 (m_registers m0) 38) as [v Hv]; [lia|].
  assert (Hvi : in_i32 v) by exact (Forall_lookup_1 _ _ _ _ (w_i32 _ Hw0) Hv).
  assert (Hl2 : Z.to_nat l <> 2%nat) by (intros ?; apply H37; rewrite Hl; f_equal; lia).
  rewrite (user_bind_Ok _ _ _ tt _ (DelayedLoad_eq (m_set_registers rs m0) l v 0 0
    ltac:(cbn; unfold rs; by rewrite length_insert) ltac:(cbn; unfold rs; by rewrite list_lookup_insert_ne)
    ltac:(cbn; unfold rs; by rewrite list_lookup_insert_ne) Hlr)).
  cbn [m_registers m_set_registers]. set (rs1 := delayed _ _ _ _ _).
  assert (Hn1 : length rs1 = 40%nat) by (unfold rs1, rs; by rewrite length_delayed, length_insert).
  assert (H34' : rs1 !! 34%nat = Some pc) by (unfold rs1, rs; rewrite delayed_other by lia; by rewrite list_lookup_insert_ne).
  assert (H35' : rs1 !! 35%nat = Some (pc + 4)) by (unfold rs1, rs; rewrite delayed_other by lia; by rewrite list_lookup_insert_ne).
  assert (Hi1 : Forall in_i32 rs1).
  { apply delayed_i32; [|done|unfold in_i32; lia..]. apply Forall_insert; [apply Hw0|unfold in_i32; lia]. }
  rewrite (user_bind_Ok _ _ _ pc (m_set_registers rs1 m0)) by by apply reg_eq.
  erewrite user_bind_Ok by (apply set_reg_eq; cbn; unfold PrevPCReg; lia). cbn [m_registers m_set_registers].
  erewrite user_bind_Ok by (apply reg_eq; [unfold NextPCReg; lia|cbn; by rewrite list_lookup_insert_ne]).
  erewrite user_bind_Ok by (apply set_reg_eq; cbn; rewrite length_insert; unfold PCReg; lia).
  rewrite set_reg_eq by (cbn; rewrite !length_insert; unfold NextPCReg; lia).
  eexists. split; [reflexivity|]. cbn [m_registers m_set_registers]. set (rs2 := <[Z.to_nat NextPCReg := _]> _).
  assert (H37' : rs2 !! 37%nat = Some 0).
  { unfold rs2. rewrite !list_lookup_insert_ne by done. apply delayed_load. unfold rs. by rewrite length_insert. }
  split; [apply (set_registers_wf m0 rs2 Hw0)|].
  - unfold rs2. by rewrite !length_insert.
  - unfold rs2. apply Forall_insert; [|apply i32_range]. apply Forall_insert; [|done]. by apply Forall_insert.
  - exists 0. by split.
  - split_and!; try done.
    + unfold rs2. rewrite !list_lookup_insert_ne by done. unfold rs1. rewrite delayed_other by lia. apply list_lookup_insert_eq. lia.
    + unfold rs2. rewrite list_lookup_insert_ne by done. apply list_lookup_insert_eq. rewrite length_insert. unfold PCReg. lia.
Qed.

Lemma ends_as_from code m0 m r :
  frames m0 = frames m -> m_mainMemory m0 = m_mainMemory m -> m_bitMap m0 = m_bitMap m -> ends_as code m0 r -> ends_as code m r.
Proof. unfold ends_as, released. by intros -> -> ->. Qed.

(** The second instruction does not come back. *)
Lemma stub_syscall m pc code (k : user unit) :
  mwf m -> 0 <= pc -> Z.land pc 3 = 0 -> pc < Z.of_nat (length (vmem m)) -> m_registers m !! 34%nat = Some pc ->
  m_registers m !! 2%nat = Some code -> m_registers m !! 37%nat = Some 0 ->
  slice (vmem m) (Z.to_nat pc) 4 = le_enc 4 syscall_word ->
  ends_as code m ((Machine_OneInstruction flags garbage ;; k) m).
Proof.
  intros Hw Hpc Hal Hin H34 H2 H37 Hs. pose proof (Forall_lookup_1 _ _ _ _ (w_i32 _ Hw) H34) as Hp34.
  assert (Hu : u32 pc = pc) by (apply u32_id; unfold in_u32, in_i32 in *; lia).
  destruct (fetch_word flags garbage pc m Hw Hp34) as (m0 & HR & Hw0 & Hf0 & Hm0 & Hr0 & Hb0).
  { split; [by right; right|]. split; [by rewrite Hu|done]. }
  rewrite Hu, Hs in HR. rewrite <-Hr0 in H2, H37.
  destruct (lookup_lt_is_Some_2 (m_registers m0) 35) as [np Hnp]; [rewrite (w_regs _ Hw0); unfold NumTotalRegs; lia|].
  assert (HO : Machine_OneInstruction flags garbage m
    = (raise flags SyscallException 0 ≫= fun r => match r with
         | None => mret tt
         | Some (pcAfter, (nextLoadReg, nextLoadValue)) =>
             Machine_DelayedLoad nextLoadReg nextLoadValue ;;
             pc ← reg PCReg; set_reg PrevPCReg pc ;; np ← reg NextPCReg; set_reg PCReg np ;; set_reg NextPCReg pcAfter
         end) m0).
  { unfold Machine_OneInstruction. rewrite (user_bind_Ok _ _ m pc m) by by apply reg_eq.
    rewrite (user_bind_Ok _ _ m _ m0 HR). cbv beta iota.
    rewrite (user_bind_Ok _ _ m0 (mkInstr OP_SYSCALL 0 0 0 0) m0) by reflexivity.
    by rewrite (user_bind_Ok _ _ m0 np m0) by by apply reg_eq. }
  pose proof (syscall_ends m0 code Hw0 H2 H37) as HE. unfold mbind, user_bind. rewrite HO. unfold raise, mbind, user_bind.
  apply (ends_as_from code m0 m); [done..|]. by destruct (Machine_RaiseException flags SyscallException 0 m0) as [[]|].
Qed.
End Stub.


(** A machine of one page whose program counter is at a stub. *)
Definition stub_machine (code : Z) : Machine :=
  mkMachine (<[34%nat := 16]> (<[35%nat := 20]> (replicate 40 0))) (splice (replicate 4096 0) 16 (stub code ≫= le_enc 4))
    {[ 1%positive := entries 0 [0] ]} None (Some 1%positive) 1 (mkBitMap 32 1 [1]) UserMode.

Lemma stub_machine_wf code : mwf (stub_machine code).
Proof.
  constructor; cbn [stub_machine m_registers m_mainMemory m_tlb m_pageTable m_tables m_pageTableSize m_bitMap].
  - done.
  - by apply (bool_decide_unpack (Forall _ _)); vm_compute.
  - by exists 0.
  - rewrite length_splice; [by rewrite length_replicate|]. rewrite length_replicate. cbn. lia.
  - apply Forall_splice; [apply Forall_replicate; unfold is_byte; lia|]. apply Forall_bind, Forall_forall. intros w _. apply le_enc_bytes.
  - done.
  - by exists 1%positive.
  - done.
  - by repeat constructor.
  - split; [by apply (bm_wf_example 32 [1])|done].
Qed.


(** ** The programs halt and test *)

(** How a run of a program ended: the reason, or the error. *)
Definition ending (r : result (flow unit)) : result (option stop) :=
  match r with Ok (Next _ _) => Ok None | Ok (Stop w _) => Ok (Some w) | Err e => Err e end.

Definition run_program (code : list Z) (n : nat) : result (option stop) :=
  ending (StartProcess1 filesys_flags [] 0 (object_file code) n (plain_machine 0)).

(** halt, loaded from its object file and run from [__start] on, halts the machine. *)
Example halt_halts : run_program halt_object 40 = Ok (Some HaltMachine).
Proof. by vm_compute. Qed.

(** The [main] of test.c does nothing; [__start] then calls Exit. *)
Definition test_object : list Z := linked [].

Example test_exits : run_program test_object 40 = Ok (Some ExitThread).
Proof. by vm_compute. Qed.

(** An object file with [code] bytes of code and [bss] bytes of uninitialised data. *)
Definition sized_object (code bss : Z) : list Z :=
  ([NOFFMAGIC; 0; 40; code; 0; 0; 0; code; 0; bss] ++ replicate (Z.to_nat (code `div` 4)) nop) ≫= le_enc 4.

(** test/sort and test/matmult, by the sizes in their object files, are refused by the loader: they do
    not fit into the 32 frames, and there is no other memory. *)
Example sort_and_matmult_do_not_fit :
  ending (StartProcess1 filesys_flags [] 0 (sized_object 752 4096) 1 (plain_machine 0)) = Err AssertFailed
  /\ ending (StartProcess1 filesys_flags [] 0 (sized_object 1008 4800) 1 (plain_machine 0)) = Err AssertFailed
  /\ ending (StartProcess1 filesys_flags [] 0 (sized_object 512 0) 0 (plain_machine 0)) = Ok None.
Proof. by vm_compute. Qed.
